(* ===== verification/_CoqProject ===== *)
-Q . S2P
Prelude.v
Alloc.v
RingBuffer.v
Queue.v
Words.v
Buffer.v
Locks.v
Dispatch.v
Lists.v
DispList.v
ThreadPool.v
Bson.v
Packet.v
PackLoop.v
Io.v
IoSpec.v
Request.v
Cstr.v
Checksum.v
Sha.v
Timer.v
Session.v
Cert.v
Service.v
Client.v
Rpc.v
Handshake.v
Fmt.v
Print.v
Log.v
Sock.v
Double.v
Sql.v
Dbp.v
Records.v
Accounts.v
Menu.v
MenuSpec.v
Guid.v
ResAccount.v
AccountSpec.v
ResMenu.v
MenuRun.v
AccountAdmin.v
AccountRun.v
Server.v
Startup.v
Connect.v
ReqAccount.v
ReqMenu.v
ReqSpec.v
ReqLogin.v
