(* ===== verification/Prelude.v ===== *)
(** * Verification of youmenu: eventpack, the server, its database and the client

    youmenu is a restaurant ordering system. Its C code is a network library, eventpack
    (src/native/eventpack), a server and a client built on it (src/native/src), and a database
    layer (src/native/dbprovider). This library models the parts that carry the program's logic
    as executable definitions and proves what makes them correct. It also records, as theorems,
    the runs in which the code leaves defined behaviour or breaks a promise of its comments.

    ** How the parts interact

    A connection's bytes enter a ring buffer; ep_io_enqueue cuts them into frames (a header of 18
    bytes and a body) and hands each frame to the thread pool; a pool thread decrypts and
    decompresses the body, creates a packet (a bson document) from it, and calls the callback
    registered for the frame's category; the packet the callback returns is framed and queued for
    the connection, and one sender thread writes the queues out. Before that, the two sides agree
    on an AES key under RSA. The server's callbacks look the caller up in a table of sessions, send
    SQL text to a provider that wraps sqlite3, and answer with packets; a connection that ends loses
    its session. On the other side a client has one connection of the same kind and a thread that
    receives; a request registers a callback for its category, sends its packet and waits for what
    the callback queues. The application's functions (log in, list the dishes, book one) fill a
    packet, exchange it that way and read the answer.

    ** The files

    - [Prelude] (this file): outcomes ([res], with the faults of the C language), integers at their
      width, arrays with bounds, heaps with freed objects, fair schedules of agents, tactics and hint
      databases.
    - [Alloc]: ep_alloctor.c. Whether an allocation succeeds is read from a script, so every NULL
      branch of the callers is reachable; the empty script always has memory.
    - [RingBuffer]: ep_ringbuffer.c, against the specification of a byte queue.
    - [Queue]: ep_queue.c, each call one critical section, a get cut at its wait.
    - [Words]: ep_shell.h and htonll.h: byte order and the wire form of the header.
    - [Buffer]: ep_buffer.c, ep_compress.c and AES of ep_crypt.c; openssl and bzip2 are the class
      [Codec] with the laws [CodecLaws]. [Locks]: the mutexes ep_crypt.c gives to openssl.
    - [Dispatch]: ep_dispatch.c, against a finite map, and its unlocked window as a step relation.
    - [Lists]: list.h, the intrusive lists, on a memory of nodes with their two pointers, against
      plain lists; its loops with the fuel [turns], one more than the nodes of the memory.
      [DispList]: ep_dispatch.c once more, on these pointers, against the same finite map.
    - [ThreadPool]: ep_threadpool.c: the routine of the threads and the owner's calls as a step
      relation, with invariants by rule induction; a sleeping thread is woken by the broadcasts, and
      termination is that of every fair schedule ([scheduled], [fair], [fair_leads_to] above).
    - [Bson], [Packet], [PackLoop]: the builder and iterator of the vendored bson library as
      ep_packet.c uses them, ep_packet.c, and the loop by which every handler reads a packet.
      [Print]: the text of a packet.
    - [Io], [IoSpec]: ep_io.c: connections, framing, request processing, notification, sender,
      destruction; and what they promise.
    - [Request], [Service], [Client]: ep_request.c, the requests of a client, with their handles in a
      heap; ep_service.c and ep_socket.c, the event loop and what it tells the program; ep_client.c,
      the connection, its thread and its end. [Rpc] puts the two sides together,
      [Handshake] the two sides of the exchange of keys.
    - [Timer]: utils/timer.c, a clock with its thread, and utils/atomic.c.
    - [Cert]: ep_cert.c, ep_cert_verify.c and RSA and MD5 of ep_crypt.c; openssl is the class
      [Crypto] with the laws [CryptoLaws]. The keys compiled into the library are data here.
    - [Cstr]: the routines of string.h on arrays of characters.
    - [Checksum], [Sha]: utils/adler32.c, utils/crc32.c, utils/sha.c, and db_encrypt_pwd of
      server/db_account.c.
    - [Session]: server/session.c and utils/pref.c, sequentially against a list of sessions, and
      two threads as a step relation.
    - [Fmt], [Double]: sprintf, atoi and atof as the tables use them; doubles as their 64 bits, with
      the conversions to float, to int and from text.
    - [Log]: log/src/log.c and colored_fputs.c. [Sock]: ep_util.c, over what the system keeps of a
      socket.
    - [Sql]: sqlite3, which the repository only links, as the class [Sqlite]; its laws
      [SqliteLaws] say what a statement does in terms of the text of the statement: a lexer, a
      parser and tables as rows of texts. [SqlToy] is an executable instance of the laws.
    - [Dbp]: dbprovider/db_provider.c and db_provider_sqlite.c: one statement and one mutex per
      handle, rows in a heap.
    - [Records]: what the tables share: a class of records with a table, and the specifications of
      the statements on it. [others] says that a statement leaves the other tables alone.
    - [Accounts]: db.c and db_account.c, against a list of accounts. [Menu], [MenuSpec]: db_dish.c,
      db_seat.c and db_book.c, against lists of records. The predicates of both take what is known
      of the rest of the database ([Framed], [BookFramed]), so that they can be put together.
    - [Guid]: utils/guid.c. [ResAccount], [AccountSpec], [AccountAdmin], [AccountRun]: res_account.c
      as functions of the lists of sessions and accounts. [ResMenu], [MenuRun]: res_dish.c,
      res_seat.c, res_cook.c, res_platform.c and push.c likewise.
    - [Server]: server.c: the start on any database, the registration of the handlers, and the whole
      server, from the dispatcher to the tables, against five lists. [Startup]: the start and the
      stop of the server over [Service].
    - [Connect]: client/client.c and connect.h, what the application's requests share. [ReqAccount],
      [ReqMenu]: req_account.c; req_dish.c, req_seat.c, req_cook.c, req_version.c and req_push.c.
      [ReqSpec], [ReqLogin]: these against the handlers of the server.

    ** What the theorems show

    Refinement and equivalence: the ring buffer is a byte queue that grows by up to its limit
    at a time; the frames queued are those of the whole byte stream however the network cuts it; the dispatcher is a
    finite map; the session table is a list with unique descriptors, users and tokens; Adler-32,
    CRC-32 and SHA-1 are the functions their standards define; the account table is a list of
    accounts; the server, given any sequence of requests and of broken connections, answers as the
    lists of sessions, accounts, dishes, seats and bookings determine, up to the first of the three
    requests it does not survive ([survived], [broken]); the event loop queues the
    frames of every connection, and the program hears of each connection's start and end once; the
    receiving thread of a client queues the frames of its stream until the end it reports; the
    requests of a client, but for posts, are a map from handles to what they wait for; the pointers of the intrusive
    lists are lists, and the dispatcher on them is still a finite map that leaks nothing.
    Composition: a request crosses the wire, is answered by the server's callback, and its answer
    is what the waiting request gets; the exchange of keys, from the first message to the answer that
    is encrypted already, leaves both sides with one verified key; after a login the application holds the session the server
    opened; the lists of dishes (without thumbnails), seats and accounts the application shows are
    those of the tables.
    Round trips: headers, packets (trees of fields of any depth) and bodies (compressed, encrypted,
    framed) arrive as they were sent; a login and a logout leave no session on the connection, and
    a token where one was asked for.
    Types: every account handler keeps the state well formed, but for the two requests that keep the
    lock of the sessions. The start of the server completes any
    database and changes nothing the second time, and leaves the service listening with every handler
    registered; a stop of an idle server undoes that; the last administrator stays; a timer rings once per period, as far as the ticks of
    its clock allow; a line of the log is the line it should be, cut at the size of its array; the
    address of a connection is told as its four numbers and its port.
    Safety, termination and bounds: pool workers are taken once and in order and never touched
    after they are freed by the pool; a destruction of the pool ends in every fair schedule and, when
    asked to wait, has processed every worker; the ring grows by at most its limit; only verified keys are stored.
    Errors: a size of -18 in the first header hangs the receiver; a wait on a post blocks; a timer
    that is to be deleted when it rings goes on; a notification to several connections
    and a deletion of a connection leave the sender with freed memory; a body of whole blocks is
    read past its end when it is decrypted; a packet whose size is a multiple of 256 is refused;
    a lookup and a deletion of a session can deadlock; a quote in a name logs in without a password;
    the right old password is refused; two handlers keep the lock of the sessions; listing bookings
    frees rows twice; cancelling takes a seat for a booking; no order can be accepted; the
    sender reads a connection that its failed write freed; the thread of a client that is stopped
    follows a NULL manager; a request that cannot be sent leaves its freed handle registered; a
    clock whose ticks are shorter than a millisecond never rings; a message of the log is used as a
    format; the level of the log is ignored; the first stop takes the locks of openssl away from all;
    the text of a packet overflows its array and misses what is nested; and others,
    each named in the doc comment of its theorem.

    ** Conventions

    Assertions are compiled out, as in the release build, and the branches behind them are kept.
    Undefined behaviour is a [Fault]. The host is little-endian with 32-bit int and 64-bit
    pointers; where unsigned long matters its width is a parameter. A critical section is one step
    of a step relation; code between locks is cut where another thread can interfere. Fuel: the
    receive loop takes explicit fuel and its theorems give the amount (one more than the bytes
    available); the loops over packets use the length of the packet's data, which exceeds the
    number of its elements; the loops of the checksums use the length of their input. Bounds:
    documents are at most 2^28 bytes ([LIM]) and bodies at most 2^29-1 ([BODY_MAX]), so that no
    int of the code overflows; lists that are put into a packet have at most 100000 records. The
    loop over the rows of a query has as much fuel as the array has records and two more turns.
    Time, random bytes and uninitialised arrays are arguments of the handlers ([env], [locals]).
    What other threads do to a client while a call waits is an argument ([env]). Requests are those
    whose strings fit the arrays of their handlers and hold no quote; what happens otherwise is the
    subject of separate theorems.

    ** What is not modelled

    The providers for mysql and oracle, which are compiled out and name what is declared nowhere;
    queue.h and the two loops of list.h that nothing uses; the branches for windows; samples and user
    interface. Vendored libraries (and the event loop's own poll) are
    parameters or arguments with the laws named above, except the part of bson that packets consist
    of. Handlers run one at a time here: the interleaving of two of them is modelled for the session
    table, the dispatcher and the pool. *)
From stdpp Require Export prelude.
From stdpp Require Export list.
From Stdlib Require Export ZArith Lia.
#[export] Set Default Goal Selector "!".
#[export] Set Default Proof Using "Type".

Open Scope Z_scope.

(** ** Outcomes of a C fragment

    [Fault] is what the C standard leaves undefined, or a thread that can never go on; [Ok]
    carries the value and the state the fragment leaves. The constructors of [fault] say which
    rule of the language was broken. *)

Inductive fault : Set :=
  | OutOfBounds      (* an access outside the object a pointer points into *)
  | NullDeref        (* an access through NULL *)
  | UseAfterFree     (* an access to an object that was freed *)
  | DoubleFree       (* free of an object that was already freed *)
  | DivByZero        (* % or / by zero *)
  | IntOverflow      (* a signed result outside int *)
  | SelfDeadlock     (* lock of a non-recursive mutex the thread already holds *)
  | BadUnlock        (* unlock of a mutex that is not locked *)
  | WildPointer      (* use of a pointer that was never set *)
  | Blocked          (* a wait that nobody is left to end *)
  | ProcessExit      (* the program calls exit *)
  | OutOfFuel.       (* the fuel of the model's recursion is used up *)

#[export] Instance fault_eq_dec : EqDecision fault.
Proof. solve_decision. Defined.

Inductive res (A : Type) : Type :=
  | Ok (a : A)
  | Fault (f : fault).
Arguments Ok {A} _.
Arguments Fault {A} _.

#[export] Instance res_ret : MRet res := fun A a => Ok a.
#[export] Instance res_bind : MBind res := fun A B k m =>
  match m with Ok a => k a | Fault f => Fault f end.
#[export] Instance res_fmap : FMap res := fun A B g m =>
  match m with Ok a => Ok (g a) | Fault f => Fault f end.

Definition res_ok {A} (m : res A) : Prop := exists a, m = Ok a.

(** ** Integers at their width *)

Definition INT_MAX : Z := 2147483647.
Definition wrap_u (w z : Z) : Z := z mod 2 ^ w.
Definition wrap_s (w z : Z) : Z := (z + 2 ^ (w - 1)) mod 2 ^ w - 2 ^ (w - 1).
Abbreviation u8 := (wrap_u 8).
Abbreviation u16 := (wrap_u 16).
Abbreviation u32 := (wrap_u 32).
Abbreviation u64 := (wrap_u 64).
Abbreviation i32 := (wrap_s 32).
Abbreviation i64 := (wrap_s 64).

Definition is_byte (z : Z) : Prop := 0 <= z < 256.
Definition is_u16 (z : Z) : Prop := 0 <= z < 65536.
Definition is_u32 (z : Z) : Prop := 0 <= z < 4294967296.
Definition is_i32 (z : Z) : Prop := -2147483648 <= z <= 2147483647.

Definition min_int (a b : Z) : Z := if a <? b then a else b.

(** ** Objects as lists of cells

    [slice l off n] reads [n] cells of [l] from [off]; [memcpy dst off src n] writes the first
    [n] cells of [src] into [dst] at [off]. Both check the bounds of the object. *)

Definition zlen {A} (l : list A) : Z := Z.of_nat (length l).
Definition ztake {A} (n : Z) (l : list A) : list A := take (Z.to_nat n) l.
Definition zdrop {A} (n : Z) (l : list A) : list A := drop (Z.to_nat n) l.

Definition slice {A} (l : list A) (off n : Z) : res (list A) :=
  if (0 <=? off) && (0 <=? n) && (off + n <=? zlen l)
  then Ok (ztake n (zdrop off l))
  else Fault OutOfBounds.

Definition splice {A} (l : list A) (off : Z) (src : list A) : list A :=
  ztake off l ++ src ++ zdrop (off + zlen src) l.

Definition memcpy {A} (dst : list A) (off : Z) (src : list A) (n : Z) : res (list A) :=
  if (0 <=? off) && (0 <=? n) && (n <=? zlen src) && (off + n <=? zlen dst)
  then Ok (splice dst off (ztake n src))
  else Fault OutOfBounds.

(** ** Heaps

    Objects that several owners reach by pointer live in a heap: an address is an index, and a
    freed object leaves [None] behind, so that a later access or a second free is a fault. *)

Abbreviation heap A := (list (option A)).

Definition h_alloc {A} (h : heap A) (x : A) : nat * heap A := (length h, h ++ [Some x]).

Definition h_load {A} (h : heap A) (a : nat) : res A :=
  match h !! a with
  | Some (Some x) => Ok x
  | Some None => Fault UseAfterFree
  | None => Fault NullDeref
  end.

Definition h_store {A} (h : heap A) (a : nat) (x : A) : res (heap A) :=
  match h !! a with
  | Some (Some _) => Ok (<[a := Some x]> h)
  | Some None => Fault UseAfterFree
  | None => Fault NullDeref
  end.

Definition h_free {A} (h : heap A) (a : nat) : res (heap A) :=
  match h !! a with
  | Some (Some _) => Ok (<[a := None]> h)
  | Some None => Fault DoubleFree
  | None => Fault NullDeref
  end.

(** C's [%] truncates toward zero and faults on a zero divisor. *)
Definition c_rem (a b : Z) : res Z :=
  if b =? 0 then Fault DivByZero else Ok (Z.rem a b).

(** A result of signed arithmetic: overflow is undefined. *)
Definition c_int (z : Z) : res Z :=
  if (-2147483648 <=? z) && (z <=? 2147483647) then Ok z else Fault IntOverflow.

(** ** Tactics *)

Ltac split_bool :=
  repeat match goal with
  | H : (_ && _)%bool = true |- _ => apply andb_prop in H; destruct H
  | H : (_ || _)%bool = false |- _ => apply orb_false_elim in H; destruct H
  end.

(** Replaces every boolean integer test of the goal by its two cases. *)
Ltac case_zbool_with tac :=
  repeat (match goal with
  | |- context [ (?a <? ?b)%Z ] => destruct (Z.ltb_spec a b)
  | |- context [ (?a <=? ?b)%Z ] => destruct (Z.leb_spec a b)
  | |- context [ (?a =? ?b)%Z ] => destruct (Z.eqb_spec a b)
  end; try (exfalso; lia); cbn [andb orb negb]; tac).
Ltac case_zbool := case_zbool_with idtac.

(** The same for the tests of a hypothesis. *)
Ltac case_zbool_in H :=
  repeat (match type of H with
  | context [ (?a <? ?b)%Z ] => destruct (Z.ltb_spec a b)
  | context [ (?a <=? ?b)%Z ] => destruct (Z.leb_spec a b)
  | context [ (?a =? ?b)%Z ] => destruct (Z.eqb_spec a b)
  end; cbn [andb orb negb] in H).

(** Closes [Forall P l] for a concrete list whose elements satisfy [P] by arithmetic. *)
Ltac forall_lia :=
  repeat first [ apply Forall_nil_2 | apply Forall_cons_2 ]; cbn; try done; try lia.

(** ** Lemmas on integers *)

Lemma min_int_spec a b : min_int a b = Z.min a b.
Proof. unfold min_int. case_zbool; lia. Qed.

Lemma wrap_u_small w z : 0 <= z < 2 ^ w -> wrap_u w z = z.
Proof. intros H. unfold wrap_u. by apply Z.mod_small. Qed.

Lemma wrap_u_range w z : 0 <= w -> 0 <= wrap_u w z < 2 ^ w.
Proof. intros Hw. unfold wrap_u. apply Z.mod_pos_bound, Z.pow_pos_nonneg; lia. Qed.

Lemma wrap_u_wrap_u w z : 0 <= w -> wrap_u w (wrap_u w z) = wrap_u w z.
Proof. intros Hw. by apply wrap_u_small, wrap_u_range. Qed.

Lemma wrap_s_small w z : 0 < w -> - 2 ^ (w - 1) <= z < 2 ^ (w - 1) -> wrap_s w z = z.
Proof.
  intros Hw Hz. unfold wrap_s.
  assert (2 ^ w = 2 * 2 ^ (w - 1)) as E
    by (rewrite <- Z.pow_succ_r by lia; f_equal; lia).
  rewrite Z.mod_small; lia.
Qed.

Lemma wrap_s_wrap_u w z : 0 < w -> wrap_s w (wrap_u w z) = wrap_s w z.
Proof.
  intros Hw. unfold wrap_s, wrap_u. f_equal.
  rewrite Z.add_mod_idemp_l; [done|]. apply Z.pow_nonzero; lia.
Qed.

Lemma i32_id z : is_i32 z -> i32 z = z.
Proof. intros H. apply wrap_s_small; [lia|]. unfold is_i32 in H. simpl. lia. Qed.

Lemma c_int_ok z : is_i32 z -> c_int z = Ok z.
Proof. unfold is_i32, c_int. intros. case_zbool; done. Qed.

Lemma rem_small a b : 0 <= a < b -> Z.rem a b = a.
Proof. intros H. apply Z.rem_small. lia. Qed.

Lemma c_rem_nonneg a b : 0 <= a -> 0 < b -> c_rem a b = Ok (a mod b).
Proof.
  intros Ha Hb. unfold c_rem. case_zbool.
  by rewrite Z.rem_mod_nonneg by lia.
Qed.

(** ** Lemmas on lists, with positions in [Z] *)

Lemma zlen_app {A} (l k : list A) : zlen (l ++ k) = zlen l + zlen k.
Proof. unfold zlen. rewrite length_app. lia. Qed.

Lemma zlen_nonneg {A} (l : list A) : 0 <= zlen l.
Proof. unfold zlen. lia. Qed.

Lemma zlen_nil {A} : zlen (@nil A) = 0.
Proof. done. Qed.

Lemma zlen_cons {A} (x : A) l : zlen (x :: l) = 1 + zlen l.
Proof. unfold zlen. simpl length. lia. Qed.

Lemma zlen_ztake {A} n (l : list A) : 0 <= n -> zlen (ztake n l) = Z.min n (zlen l).
Proof. intros H. unfold zlen, ztake. rewrite length_take. lia. Qed.

Lemma zlen_zdrop {A} n (l : list A) : 0 <= n -> zlen (zdrop n l) = Z.max 0 (zlen l - n).
Proof. intros H. unfold zlen, zdrop. rewrite length_drop. lia. Qed.

Lemma zlen_replicate {A} n (x : A) : zlen (replicate n x) = Z.of_nat n.
Proof. unfold zlen. by rewrite length_replicate. Qed.

Lemma zlen_splice {A} (l : list A) off src :
  0 <= off -> off + zlen src <= zlen l -> zlen (splice l off src) = zlen l.
Proof.
  intros Ho Hl. unfold splice.
  pose proof (zlen_nonneg src).
  rewrite !zlen_app, zlen_ztake, zlen_zdrop by lia. lia.
Qed.

Lemma slice_ok {A} (l : list A) off n :
  0 <= off -> 0 <= n -> off + n <= zlen l -> slice l off n = Ok (ztake n (zdrop off l)).
Proof. intros. unfold slice. case_zbool; done. Qed.

Lemma memcpy_ok {A} (dst : list A) off src n :
  0 <= off -> 0 <= n -> n <= zlen src -> off + n <= zlen dst ->
  memcpy dst off src n = Ok (splice dst off (ztake n src)).
Proof. intros. unfold memcpy. case_zbool; done. Qed.

Lemma lookup_ztake {A} (l : list A) n i :
  ztake n l !! i = if decide (Z.of_nat i < n) then l !! i else None.
Proof.
  unfold ztake. case_decide.
  - apply lookup_take_lt. lia.
  - apply lookup_take_ge. lia.
Qed.

Lemma lookup_zdrop {A} (l : list A) n i : zdrop n l !! i = l !! (Z.to_nat n + i)%nat.
Proof. unfold zdrop. by rewrite lookup_drop. Qed.

Lemma lookup_app_dec {A} (l k : list A) i :
  (l ++ k) !! i = if decide (Z.of_nat i < zlen l) then l !! i else k !! (i - length l)%nat.
Proof.
  unfold zlen. case_decide.
  - apply lookup_app_l. lia.
  - apply lookup_app_r. lia.
Qed.

Lemma lookup_replicate_dec {A} n (x : A) i :
  replicate n x !! i = if decide (Z.of_nat i < Z.of_nat n) then Some x else None.
Proof.
  case_decide.
  - apply lookup_replicate_2. lia.
  - apply lookup_ge_None_2. rewrite length_replicate. lia.
Qed.

Lemma lookup_none_ge {A} (l : list A) i : zlen l <= Z.of_nat i -> l !! i = None.
Proof. intros. apply lookup_ge_None_2. unfold zlen in *. lia. Qed.

(** Proves an equation between lists built from [++], [ztake], [zdrop] and [splice] by
    comparing the lookups at an arbitrary position. *)
Ltac list_lookup :=
  rewrite ?lookup_app_dec, ?lookup_ztake, ?lookup_zdrop, ?lookup_nil.

Ltac len_simpl :=
  rewrite ?zlen_app, ?zlen_nil, ?zlen_cons, ?zlen_splice, ?zlen_replicate,
    ?zlen_ztake, ?zlen_zdrop in * by (rewrite ?zlen_app, ?zlen_ztake, ?zlen_zdrop by lia; lia).

Ltac list_ext_finish :=
  first
  [ done
  | f_equal; unfold zlen in *; lia
  | apply lookup_none_ge; unfold zlen in *; lia
  | symmetry; apply lookup_none_ge; unfold zlen in *; lia
  | rewrite !lookup_none_ge by (unfold zlen in *; lia); done
  | exfalso; unfold zlen in *; lia ].

Ltac list_ext :=
  let i := fresh "i" in
  apply list_eq; intros i; unfold splice;
  repeat (progress list_lookup); unfold ztake, zdrop, zlen in *;
  repeat (progress rewrite ?length_app, ?length_take, ?length_drop, ?length_nil in * );
  repeat (case_decide; try (exfalso; lia)); try list_ext_finish.

Lemma ztake_all {A} n (l : list A) : zlen l <= n -> ztake n l = l.
Proof. intros. unfold ztake. apply take_ge. unfold zlen in *. lia. Qed.

Lemma ztake_0 {A} n (l : list A) : n <= 0 -> ztake n l = [].
Proof. intros. unfold ztake. replace (Z.to_nat n) with 0%nat by lia. done. Qed.

Lemma zdrop_0 {A} (l : list A) : zdrop 0 l = l.
Proof. done. Qed.

Lemma zdrop_all {A} n (l : list A) : zlen l <= n -> zdrop n l = [].
Proof. intros. unfold zdrop. apply drop_ge. unfold zlen in *. lia. Qed.

Lemma ztake_zdrop {A} n (l : list A) : ztake n l ++ zdrop n l = l.
Proof. unfold ztake, zdrop. apply take_drop. Qed.

Lemma ztake_app_l {A} (l k : list A) n : n = zlen l -> ztake n (l ++ k) = l.
Proof. intros ->. unfold ztake, zlen. rewrite Nat2Z.id. apply take_app_length. Qed.

Lemma zdrop_app_l {A} (l k : list A) n : n = zlen l -> zdrop n (l ++ k) = k.
Proof. intros ->. unfold zdrop, zlen. rewrite Nat2Z.id. apply drop_app_length. Qed.

Lemma zdrop_zdrop {A} (l : list A) a b :
  0 <= a -> 0 <= b -> zdrop a (zdrop b l) = zdrop (b + a) l.
Proof. intros. unfold zdrop. rewrite drop_drop. f_equal. lia. Qed.

Lemma ztake_splice_0 {A} (l src : list A) n :
  n = zlen src -> n <= zlen l -> ztake n (splice l 0 src) = src.
Proof. intros -> H. list_ext. Qed.

Lemma ztake_splice_after {A} (l src : list A) off n :
  0 <= off -> n = off + zlen src -> n <= zlen l ->
  ztake n (splice l off src) = ztake off l ++ src.
Proof. intros H -> Hl. list_ext. Qed.

Lemma ztake_splice_in {A} (d x : list A) off c :
  0 <= off -> off + zlen x <= c <= zlen d -> ztake c (splice d off x) = splice (ztake c d) off x.
Proof.
  intros Ho Hc. pose proof (zlen_nonneg x).
  unfold splice, ztake, zdrop, zlen in *.
  rewrite !take_app, !length_take. rewrite take_take, take_take, skipn_firstn_comm.
  f_equal; [f_equal; lia|]. f_equal; [rewrite take_ge; [done|lia]|]. f_equal. lia.
Qed.

Lemma ztake_splice_before {A} (l src : list A) off n :
  0 <= off -> n <= off -> off + zlen src <= zlen l -> ztake n (splice l off src) = ztake n l.
Proof. intros. list_ext. Qed.

Lemma zdrop_splice_before {A} (l src : list A) off n :
  0 <= off -> off + zlen src <= n -> off + zlen src <= zlen l ->
  zdrop n (splice l off src) = zdrop n l.
Proof. intros. list_ext. Qed.

Lemma zdrop_splice_after {A} (l src : list A) off n :
  0 <= n <= off -> off + zlen src <= zlen l ->
  zdrop n (splice l off src) = ztake (off - n) (zdrop n l) ++ src ++ zdrop (off + zlen src) l.
Proof. intros. list_ext. Qed.

(** ** Lemmas on heaps *)

Definition live {A} (h : heap A) (a : nat) : Prop := exists x, h !! a = Some (Some x).

Lemma h_load_ok {A} (h : heap A) a x : h_load h a = Ok x <-> h !! a = Some (Some x).
Proof. unfold h_load. destruct (h !! a) as [[?|]|]; naive_solver. Qed.

Lemma h_store_ok {A} (h : heap A) a x y : h !! a = Some (Some y) -> h_store h a x = Ok (<[a := Some x]> h).
Proof. unfold h_store. by intros ->. Qed.

Lemma h_free_ok {A} (h : heap A) a y : h !! a = Some (Some y) -> h_free h a = Ok (<[a := None]> h).
Proof. unfold h_free. by intros ->. Qed.

Lemma live_lt {A} (h : heap A) a : live h a -> (a < length h)%nat.
Proof. intros [x H]. by apply lookup_lt_Some in H. Qed.

Lemma live_insert {A} (h : heap A) a b x : live h a -> live h b -> live (<[a := Some x]> h) b.
Proof.
  intros Ha Hb. destruct (decide (a = b)) as [<-|].
  - exists x. apply list_lookup_insert_eq. by apply live_lt.
  - destruct Hb as [y Hy]. exists y. by rewrite list_lookup_insert_ne.
Qed.

Lemma live_insert_ne {A} (h : heap A) a b o : a <> b -> live h b -> live (<[a := o]> h) b.
Proof. intros Hne [y Hy]. exists y. by rewrite list_lookup_insert_ne. Qed.

Lemma live_app {A} (h : heap A) a x : live h a -> live (h ++ [x]) a.
Proof. intros [y Hy]. exists y. by apply lookup_app_l_Some. Qed.

Lemma live_alloc {A} (h : heap A) x : live (h ++ [Some x]) (length h).
Proof. exists x. apply list_lookup_middle. done. Qed.

(** ** Schedules

    A schedule picks an agent at each moment; the agent takes one of its steps, or nothing happens
    because it needs somebody else for the next one. It is fair when it picks everybody again and
    again. *)

Section schedule.
Context {St Ag : Type} (move : Ag -> St -> St -> Prop) (able : Ag -> St -> Prop) (everyone : Ag -> Prop).

Definition scheduled (f : nat -> St) (who : nat -> Ag) : Prop :=
  forall i, move (who i) (f i) (f (S i)) \/ (f (S i) = f i /\ ~ able (who i) (f i)).

Definition fair (who : nat -> Ag) : Prop := forall a i, everyone a -> exists j, (i <= j)%nat /\ who j = a.

(** In every state of [P] somebody, [help], can step; each of its steps leads to [Q] or lowers the
    measure, and what the others do leads to [Q], lowers it, or leaves it with the same helper. *)
Lemma fair_leads_to (P Q : St -> Prop) (m : St -> nat) (help : St -> Ag) f who :
  scheduled f who -> fair who ->
  (forall s, P s -> everyone (help s) /\ able (help s) s) ->
  (forall a s s', P s -> move a s s' ->
     Q s' \/ (P s' /\ ((m s' < m s)%nat \/ (m s' = m s /\ help s' = help s /\ a <> help s)))) ->
  forall i, P (f i) -> exists j, (i <= j)%nat /\ Q (f j).
Proof.
  intros Hf Hw Hable Hstep i. remember (m (f i)) as n eqn:En. revert i En.
  induction n as [n IH] using lt_wf_ind. intros i En HP.
  destruct (Hw (help (f i)) i (proj1 (Hable _ HP))) as (j & Hj & Ej).
  remember (help (f i)) as h eqn:Eh. remember (j - i)%nat as k eqn:Ek. revert i En HP Eh Hj Ek.
  induction k as [k IHk] using lt_wf_ind. intros i En HP Eh Hj Ek. destruct (Hf i) as [Hm|[Es Hn]].
  - destruct (Hstep _ _ _ HP Hm) as [HQ|[HP' [Hlt|(E1 & E2 & E3)]]]; [by exists (S i); split; [lia|]| |].
    + destruct (IH (m (f (S i))) ltac:(lia) (S i) eq_refl HP') as (j' & ? & ?). exists j'. split; [lia|done].
    + assert (i <> j) by (intros ->; congruence).
      destruct (IHk (j - S i)%nat ltac:(lia) (S i)) as (j' & ? & ?); [congruence|done|congruence|lia|done|]. exists j'. split; [lia|done].
  - assert (i <> j) by (intros ->; apply Hn; rewrite Ej, Eh; by apply Hable).
    destruct (IHk (j - S i)%nat ltac:(lia) (S i)) as (j' & ? & ?); rewrite ?Es; try done; [lia|]. exists j'. split; [lia|done].
Qed.
End schedule.

(** ** The development's hint databases *)

Create HintDb ym.
#[export] Hint Resolve zlen_nonneg live_insert live_insert_ne live_app live_alloc live_lt : ym.
Create Rewrite HintDb ymlen.
#[export] Hint Rewrite @zlen_app @zlen_nil @zlen_cons @zlen_replicate : ymlen.
