(* ===== verification/Alloc.v ===== *)
(** * Alloc: the memory provider of eventpack

    Models src/native/eventpack/src/ep_alloctor.c and the alignment macro of
    src/native/eventpack/include/ep_alloctor.h. The registered allocator [s_alloctor] is code
    outside the component: whether its [malloc] and [calloc] give memory is read from a script
    of outcomes that every caller threads through, so a caller's NULL branches are reachable. *)
From S2P Require Import Prelude.

Module Alloc.

(** What the registered allocator answers to the calls to come; past the end of the script it
    always has memory. *)
Definition alloc := list bool.

(** The table [s_alloctor]: [true] stands for a function pointer that is not NULL. *)
Record ep_alloctor := mk_alloctor {
  a_malloc : bool;
  a_calloc : bool;
  a_realloc : bool;
  a_free : bool;
}.

(** [s_alloctor.malloc(size)] and [s_alloctor.calloc(count, size)]: one outcome of the script. *)
Definition s_alloc (al : alloc) : bool * alloc :=
  match al with
  | [] => (true, [])
  | b :: al' => (b, al')
  end.

Definition ep_align_size (x aligned : Z) : Z :=
  Z.land (x + (aligned - 1)) (Z.lnot (aligned - 1)).

(** The table is replaced only when every function pointer is there. *)
Definition ep_alloctor_custom (cur : ep_alloctor) (allocator : option ep_alloctor)
  : Z * ep_alloctor :=
  match allocator with
  | None => (0, cur)
  | Some a =>
    if negb (a_malloc a) || negb (a_calloc a) || negb (a_realloc a) || negb (a_free a)
    then (0, cur)
    else (1, a)
  end.

(** [true]: a fresh object of [size] bytes; [false]: NULL. *)
Definition ep_malloc (al : alloc) (size : Z) : bool * alloc :=
  if size <=? 0 then (false, al) else s_alloc al.

Definition ep_calloc (al : alloc) (count size : Z) : bool * alloc :=
  if (count <=? 0) || (size <=? 0) then (false, al) else s_alloc al.

(** The bytes of a fresh object: [calloc] clears it, [malloc] leaves it undetermined, which
    [junk] stands for. *)
Definition junk (n : Z) : list Z := replicate (Z.to_nat n) 170.
Definition zeros (n : Z) : list Z := replicate (Z.to_nat n) 0.

#[global] Arguments junk : simpl never.
#[global] Arguments zeros : simpl never.

(** ** Lemmas *)

Lemma ep_malloc_plenty n : 0 < n -> ep_malloc [] n = (true, []).
Proof. intros. unfold ep_malloc. case_zbool; done. Qed.

Lemma ep_calloc_plenty c n : 0 < c -> 0 < n -> ep_calloc [] c n = (true, []).
Proof. intros. unfold ep_calloc. case_zbool; done. Qed.

Lemma zlen_junk n : 0 <= n -> zlen (junk n) = n.
Proof. intros. unfold junk. rewrite zlen_replicate. lia. Qed.

Lemma zlen_zeros n : 0 <= n -> zlen (zeros n) = n.
Proof. intros. unfold zeros. rewrite zlen_replicate. lia. Qed.

Lemma align_div x k : 0 <= k ->
  ep_align_size x (2 ^ k) = 2 ^ k * ((x + 2 ^ k - 1) / 2 ^ k).
Proof.
  intros Hk. unfold ep_align_size.
  replace (2 ^ k - 1) with (Z.ones k) by (rewrite Z.ones_equiv; lia).
  rewrite <- Z.ldiff_land, Z.ldiff_ones_r by lia.
  rewrite Z.shiftl_mul_pow2, Z.shiftr_div_pow2 by lia.
  rewrite Z.ones_equiv.
  replace (x + Z.pred (2 ^ k)) with (x + 2 ^ k - 1) by lia. lia.
Qed.

(** The alignment macro gives the least multiple of 16 that is not below its argument. *)
Lemma align16_spec x :
  x <= ep_align_size x 16 < x + 16 /\ (ep_align_size x 16) mod 16 = 0.
Proof.
  change 16 with (2 ^ 4). rewrite align_div by lia. change (2 ^ 4) with 16.
  pose proof (Z.div_mod (x + 16 - 1) 16 ltac:(lia)) as E.
  pose proof (Z.mod_pos_bound (x + 16 - 1) 16 ltac:(lia)).
  split; [lia|]. rewrite Z.mul_comm. apply Z.mod_mul. lia.
Qed.

End Alloc.
