(* ===== verification/RingBuffer.v ===== *)
(** * RingBuffer: the receive buffer of a connection

    Models src/native/eventpack/src/ep_ringbuffer.c. [ep_rb] is the C struct: the buffer object
    is a list of bytes, indices and sizes are integers, the reply buffer [retval] is an object
    that may be NULL. A read hands out a pointer, either into the ring itself (when the bytes
    do not wrap) or to [retval]; [rb_load] is what a caller reads through it. *)
From S2P Require Import Prelude Alloc.
Import Alloc.

Module RingBuffer.

Record ep_rb := mk_rb {
  rb_buffer : list Z;
  rb_head : Z;
  rb_tail : Z;
  rb_wrap : Z;
  rb_capacity : Z;
  rb_limit : Z;
  rb_retval_buffer : option (list Z);
  rb_retval_size : Z;
}.

Inductive rb_ptr : Set :=
  | RbNull
  | RbBuffer (off : Z)   (* rb->buffer + off *)
  | RbRetval.            (* rb->retval.buffer *)

(** What a caller reads through the pointer a read gave out. *)
Definition rb_load (rb : ep_rb) (p : rb_ptr) (n : Z) : res (list Z) :=
  match p with
  | RbNull => if n =? 0 then Ok [] else Fault NullDeref
  | RbBuffer off => slice (rb_buffer rb) off n
  | RbRetval =>
    match rb_retval_buffer rb with
    | None => Fault NullDeref
    | Some b => slice b 0 n
    end
  end.

Definition sizeof_ep_rb : Z := 48.

Definition ep_rb_new (al : alloc) (capacity limit : Z) : option ep_rb * alloc :=
  let '(ok, al) := ep_calloc al 1 sizeof_ep_rb in
  if negb ok then (None, al) else
  let '(ok, al) := ep_malloc al capacity in
  if negb ok then (None, al) else
  (Some (mk_rb (zeros capacity) 0 0 0 capacity limit None 0), al).

Definition ep_rb_capacity (rb : ep_rb) : Z := rb_capacity rb.

Definition ep_rb_can_read (rb : ep_rb) : Z :=
  if rb_tail rb =? rb_head rb then
    (if negb (rb_wrap rb =? 0) then rb_capacity rb else 0)
  else if rb_head rb <? rb_tail rb then rb_tail rb - rb_head rb
  else rb_capacity rb + rb_tail rb - rb_head rb.

Definition ep_rb_can_write (rb : ep_rb) : Z :=
  let can_write := rb_capacity rb - ep_rb_can_read rb in
  if (can_write =? 0) && (rb_capacity rb <? rb_limit rb)
  then rb_limit rb - ep_rb_can_read rb
  else can_write.

(** The retval buffer of a wrapping read, grown when it is too small: the object (NULL when
    the allocator has no memory), its size field and the allocator. *)
Definition rb_retval_reserve (al : alloc) (rb : ep_rb) (n : Z)
  : option (list Z) * Z * alloc :=
  if rb_retval_size rb <? n then
    let '(ok, al) := ep_malloc al n in
    ((if ok then Some (junk n) else None), n, al)
  else (rb_retval_buffer rb, rb_retval_size rb, al).

Definition ep_rb_read (al : alloc) (rb : ep_rb) (count : Z)
  : res (Z * rb_ptr * ep_rb * alloc) :=
  let count := min_int count (ep_rb_can_read rb) in
  if count =? 0 then Ok (0, RbNull, rb, al) else
  (* case in no need wrapper lines *)
  if count <? rb_capacity rb - rb_head rb then
    h ← c_rem (rb_head rb + count) (rb_capacity rb);
    Ok (count, RbBuffer (rb_head rb),
        mk_rb (rb_buffer rb) h (rb_tail rb) (rb_wrap rb) (rb_capacity rb) (rb_limit rb)
          (rb_retval_buffer rb) (rb_retval_size rb), al)
  else
  (* case in need wrapper lines *)
  let tail_chunk := min_int count (rb_capacity rb - rb_head rb) in
  let head_chunk := count - tail_chunk in
  let '(rv, rv_size, al) := rb_retval_reserve al rb (tail_chunk + head_chunk) in
  match rv with
  | None => Fault NullDeref
  | Some rv =>
    src ← slice (rb_buffer rb) (rb_head rb) tail_chunk;
    rv ← memcpy rv 0 src tail_chunk;
    h ← c_rem (rb_head rb + tail_chunk) (rb_capacity rb);
    '(rv, h) ←
      (if tail_chunk <? count then
         src ← slice (rb_buffer rb) h head_chunk;
         rv ← memcpy rv tail_chunk src head_chunk;
         h ← c_rem (h + head_chunk) (rb_capacity rb);
         Ok (rv, h)
       else Ok (rv, h));
    Ok (count, RbRetval,
        mk_rb (rb_buffer rb) h (rb_tail rb) 0 (rb_capacity rb) (rb_limit rb)
          (Some rv) rv_size, al)
  end.

Definition ep_rb_expand_limit (al : alloc) (rb : ep_rb) (count : Z) : res (ep_rb * alloc) :=
  let can_write := rb_capacity rb - ep_rb_can_read rb in
  if count <=? can_write then Ok (rb, al) else
  let expand := min_int count (rb_limit rb) in
  size ← c_int (rb_capacity rb + expand);
  let '(ok, al) := ep_malloc al size in
  '(readed, p, rb, al) ← ep_rb_read al rb (ep_rb_can_read rb);
  src ← rb_load rb p readed;
  if negb ok then Fault NullDeref else
  capacity ← memcpy (junk size) 0 src readed;
  tail ← c_rem readed size;
  Ok (mk_rb capacity 0 tail (rb_wrap rb) size (rb_limit rb)
        (rb_retval_buffer rb) (rb_retval_size rb), al).

(** The copy of a write into the ring: up to its end, then from its start; the new cells and
    the new tail. *)
Definition rb_store (rb : ep_rb) (data : list Z) (count : Z) : res (list Z * Z) :=
  let tail_chunk := min_int count (rb_capacity rb - rb_tail rb) in
  buf ← memcpy (rb_buffer rb) (rb_tail rb) data tail_chunk;
  tail ← c_rem (rb_tail rb + tail_chunk) (rb_capacity rb);
  if tail_chunk <? count then
    let head_chunk := count - tail_chunk in
    buf ← memcpy buf tail (zdrop tail_chunk data) head_chunk;
    tail ← c_rem (tail + head_chunk) (rb_capacity rb);
    Ok (buf, tail)
  else Ok (buf, tail).

Definition ep_rb_write (al : alloc) (rb : ep_rb) (data : list Z) (count : Z)
  : res (Z * ep_rb * alloc) :=
  '(rb, al) ← ep_rb_expand_limit al rb count;
  let count := min_int count (ep_rb_can_write rb) in
  if count =? 0 then Ok (count, rb, al) else
  '(buf, tail) ← rb_store rb data count;
  let wrap := if rb_head rb =? tail then 1 else rb_wrap rb in
  Ok (count,
      mk_rb buf (rb_head rb) tail wrap (rb_capacity rb) (rb_limit rb)
        (rb_retval_buffer rb) (rb_retval_size rb), al).

(** The owner's pointer after the call, and how many objects were given back. *)
Definition ep_rb_free (rb : option ep_rb) : option ep_rb * nat :=
  match rb with
  | None => (None, 0%nat)
  | Some r => (None, match rb_retval_buffer r with None => 2%nat | Some _ => 3%nat end)
  end.

(** ** The abstract buffer: a queue of bytes with a capacity *)

Record fifo := mk_fifo { f_bytes : list Z; f_capacity : Z; f_limit : Z }.

Definition fifo_read (f : fifo) (count : Z) : list Z * fifo :=
  (ztake count (f_bytes f), mk_fifo (zdrop count (f_bytes f)) (f_capacity f) (f_limit f)).

(** A write first makes room: when the free space is below the size of the write, the capacity
    grows by the size of the write, by at most the limit; what fits is stored. *)
Definition fifo_grown (f : fifo) (count : Z) : Z :=
  if count <=? f_capacity f - zlen (f_bytes f) then f_capacity f
  else f_capacity f + Z.min count (f_limit f).

Definition fifo_write (f : fifo) (data : list Z) : Z * fifo :=
  let cap := fifo_grown f (zlen data) in
  let n := Z.min (zlen data) (cap - zlen (f_bytes f)) in
  (n, mk_fifo (f_bytes f ++ ztake n data) cap (f_limit f)).

(** The bytes stored in a ring, oldest first. *)
Definition rb_contents (rb : ep_rb) : list Z :=
  if rb_tail rb =? rb_head rb then
    (if rb_wrap rb =? 0 then []
     else zdrop (rb_head rb) (rb_buffer rb) ++ ztake (rb_tail rb) (rb_buffer rb))
  else if rb_head rb <? rb_tail rb then
    ztake (rb_tail rb - rb_head rb) (zdrop (rb_head rb) (rb_buffer rb))
  else zdrop (rb_head rb) (rb_buffer rb) ++ ztake (rb_tail rb) (rb_buffer rb).

Definition rb_abs (rb : ep_rb) : fifo :=
  mk_fifo (rb_contents rb) (rb_capacity rb) (rb_limit rb).

(** What holds of a ring between two calls. A set [wrap] flag may be stale, when a partial read
    of a full ring took the path that does not clear it; then the tail has not passed the head,
    which is what keeps [ep_rb_can_read] right. *)
Record rb_inv (rb : ep_rb) : Prop := {
  inv_limit : 0 < rb_limit rb;
  inv_buffer : zlen (rb_buffer rb) = rb_capacity rb;
  inv_head : 0 <= rb_head rb < rb_capacity rb;
  inv_tail : 0 <= rb_tail rb < rb_capacity rb;
  inv_wrap : rb_wrap rb = 0 \/ rb_tail rb <= rb_head rb;
  inv_retval : match rb_retval_buffer rb with
               | None => rb_retval_size rb = 0
               | Some b => rb_retval_size rb = zlen b
               end;
}.

(** ** Sequences of calls *)

Inductive rb_op : Set :=
  | OpRead (count : Z)
  | OpWrite (data : list Z).

Inductive rb_out : Set :=
  | OutRead (bytes : list Z)
  | OutWrite (n : Z).

Definition rb_step (rb : ep_rb) (o : rb_op) : res (rb_out * ep_rb) :=
  match o with
  | OpRead n =>
    '(k, p, rb', _) ← ep_rb_read [] rb n;
    bytes ← rb_load rb' p k;
    Ok (OutRead bytes, rb')
  | OpWrite d =>
    '(k, rb', _) ← ep_rb_write [] rb d (zlen d);
    Ok (OutWrite k, rb')
  end.

Definition fifo_step (f : fifo) (o : rb_op) : rb_out * fifo :=
  match o with
  | OpRead n => let '(bytes, f') := fifo_read f n in (OutRead bytes, f')
  | OpWrite d => let '(k, f') := fifo_write f d in (OutWrite k, f')
  end.

Fixpoint rb_run (rb : ep_rb) (os : list rb_op) : res (list rb_out * ep_rb) :=
  match os with
  | [] => Ok ([], rb)
  | o :: os =>
    '(out, rb) ← rb_step rb o;
    '(outs, rb) ← rb_run rb os;
    Ok (out :: outs, rb)
  end.

Fixpoint fifo_run (f : fifo) (os : list rb_op) : list rb_out * fifo :=
  match os with
  | [] => ([], f)
  | o :: os =>
    let '(out, f) := fifo_step f o in
    let '(outs, f) := fifo_run f os in
    (out :: outs, f)
  end.

(** The calls a caller may make: non-negative read sizes, and writes small enough that the
    capacity stays an [int]. *)
Definition op_size (o : rb_op) : Z :=
  match o with OpRead _ => 0 | OpWrite d => zlen d end.

Definition op_valid (o : rb_op) : Prop :=
  match o with OpRead n => 0 <= n | OpWrite _ => True end.

Definition ops_size (os : list rb_op) : Z := foldr (fun o n => op_size o + n) 0 os.

(** ** Lemmas *)

Lemma contents_len rb : rb_inv rb -> zlen (rb_contents rb) = ep_rb_can_read rb.
Proof.
  intros [? Hb ? ? ? _]. unfold rb_contents, ep_rb_can_read.
  case_zbool; len_simpl; lia.
Qed.

Lemma can_read_range rb : rb_inv rb -> 0 <= ep_rb_can_read rb <= rb_capacity rb.
Proof. intros [? Hb ? ? ? _]. unfold ep_rb_can_read. case_zbool; lia. Qed.

Lemma reserve_plenty rb n : rb_inv rb -> 0 < n ->
  exists rv sz, rb_retval_reserve [] rb n = (Some rv, sz, []) /\ sz = zlen rv /\ n <= zlen rv.
Proof.
  intros I Hn. unfold rb_retval_reserve.
  destruct (Z.ltb_spec (rb_retval_size rb) n).
  - rewrite ep_malloc_plenty by done. exists (junk n), n. rewrite zlen_junk by lia. done.
  - pose proof (inv_retval _ I) as R. destruct (rb_retval_buffer rb) as [b|]; cbn in R; [|lia].
    exists b, (rb_retval_size rb). rewrite <- R. split; [done|]. split; [done|]. lia.
Qed.

(** The bytes of a read that goes through [retval]: the run up to the end of the ring, then the
    run from its start. *)
Lemma wrapped_bytes rb count :
  rb_inv rb -> 0 < count <= ep_rb_can_read rb -> rb_capacity rb - rb_head rb <= count ->
  ztake count (rb_contents rb) =
    zdrop (rb_head rb) (rb_buffer rb) ++
    ztake (count - (rb_capacity rb - rb_head rb)) (rb_buffer rb).
Proof.
  intros [? Hb ? ? ? _] Hc Hw. unfold ep_rb_can_read in Hc. unfold rb_contents.
  case_zbool_in Hc; case_zbool; list_ext.
Qed.

Lemma plain_bytes rb count :
  rb_inv rb -> 0 < count <= ep_rb_can_read rb -> count < rb_capacity rb - rb_head rb ->
  ztake count (rb_contents rb) = ztake count (zdrop (rb_head rb) (rb_buffer rb)).
Proof.
  intros [? Hb ? ? ? _] Hc Hw. unfold ep_rb_can_read in Hc. unfold rb_contents.
  case_zbool_in Hc; case_zbool; list_ext.
Qed.

(** Taking [count] bytes from the front moves the head, whichever path the read takes. *)
Lemma contents_after_read rb count wrap' rv sz :
  rb_inv rb -> 0 < count <= ep_rb_can_read rb ->
  (if count <? rb_capacity rb - rb_head rb then wrap' = rb_wrap rb else wrap' = 0) ->
  rb_contents (mk_rb (rb_buffer rb) ((rb_head rb + count) mod rb_capacity rb) (rb_tail rb) wrap'
                 (rb_capacity rb) (rb_limit rb) rv sz)
  = zdrop count (rb_contents rb).
Proof.
  intros I Hc Hw. pose proof (can_read_range rb I). assert (count <= rb_capacity rb) by lia.
  destruct I as [? Hb ? ? ? _]. unfold ep_rb_can_read in Hc. unfold rb_contents; cbn.
  destruct (Z.ltb_spec count (rb_capacity rb - rb_head rb)).
  - rewrite Z.mod_small by lia. subst wrap'.
    case_zbool_in Hc; case_zbool; list_ext.
  - assert ((rb_head rb + count) mod rb_capacity rb = rb_head rb + count - rb_capacity rb) as ->.
    { symmetry. apply Z.mod_unique_pos with 1; lia. }
    subst wrap'. case_zbool_in Hc; case_zbool; list_ext.
Qed.

Lemma read_plain rb count :
  rb_inv rb -> 0 < count <= ep_rb_can_read rb -> count < rb_capacity rb - rb_head rb ->
  exists rb', ep_rb_read [] rb count = Ok (count, RbBuffer (rb_head rb), rb', []) /\
    rb_load rb' (RbBuffer (rb_head rb)) count = Ok (ztake count (rb_contents rb)) /\
    rb_contents rb' = zdrop count (rb_contents rb) /\
    rb_capacity rb' = rb_capacity rb /\ rb_limit rb' = rb_limit rb /\
    rb_wrap rb' = rb_wrap rb /\ rb_inv rb'.
Proof.
  intros I Hc Hp. pose proof (inv_head _ I). pose proof (inv_tail _ I).
  unfold ep_rb_read. rewrite min_int_spec, Z.min_l by lia.
  destruct (Z.eqb_spec count 0); [lia|].
  destruct (Z.ltb_spec count (rb_capacity rb - rb_head rb)); [|lia].
  rewrite c_rem_nonneg by lia. cbn [mbind res_bind].
  eexists. split; [done|]. cbn [rb_load].
  rewrite (plain_bytes rb count) by done.
  rewrite (contents_after_read rb count) by (try done; case_zbool; done).
  cbn. rewrite slice_ok by (rewrite ?(inv_buffer _ I); lia).
  repeat split; try done; cbn; try apply I.
  - rewrite Z.mod_small by lia. lia.
  - rewrite Z.mod_small by lia. lia.
  - rewrite Z.mod_small by lia. pose proof (inv_wrap _ I). lia.
Qed.

Lemma read_wrapped rb count :
  rb_inv rb -> 0 < count <= ep_rb_can_read rb -> rb_capacity rb - rb_head rb <= count ->
  exists rb', ep_rb_read [] rb count = Ok (count, RbRetval, rb', []) /\
    rb_load rb' RbRetval count = Ok (ztake count (rb_contents rb)) /\
    rb_contents rb' = zdrop count (rb_contents rb) /\
    rb_capacity rb' = rb_capacity rb /\ rb_limit rb' = rb_limit rb /\
    rb_wrap rb' = 0 /\ rb_inv rb'.
Proof.
  intros I Hc Hp. pose proof (inv_head _ I). pose proof (inv_tail _ I).
  pose proof (inv_buffer _ I) as Hb. pose proof (can_read_range _ I).
  unfold ep_rb_read. rewrite !min_int_spec, (Z.min_l count) by lia.
  destruct (Z.eqb_spec count 0); [lia|].
  destruct (Z.ltb_spec count (rb_capacity rb - rb_head rb)); [lia|].
  rewrite Z.min_r by lia.
  set (tc := rb_capacity rb - rb_head rb).
  replace (tc + (count - tc)) with count by lia.
  destruct (reserve_plenty rb count I) as (rv & sz & -> & -> & Hrv); [lia|].
  rewrite slice_ok by lia. cbn [mbind res_bind].
  assert (zlen (ztake tc (zdrop (rb_head rb) (rb_buffer rb))) = tc) as Hl by (len_simpl; lia).
  rewrite memcpy_ok by lia. cbn [mbind res_bind].
  rewrite (ztake_all tc (ztake _ _)) by lia.
  rewrite c_rem_nonneg by lia. cbn [mbind res_bind].
  replace (rb_head rb + tc) with (rb_capacity rb) by lia.
  rewrite Z.mod_same by lia.
  set (rv1 := splice rv 0 _).
  assert (zlen rv1 = zlen rv) as Hrv1 by (apply zlen_splice; lia).
  assert (exists rv2, (if tc <? count then
            src ← slice (rb_buffer rb) 0 (count - tc);
            rv0 ← memcpy rv1 tc src (count - tc);
            h ← c_rem (0 + (count - tc)) (rb_capacity rb); Ok (rv0, h)
          else Ok (rv1, 0)) = Ok (rv2, (rb_head rb + count) mod rb_capacity rb) /\
          zlen rv2 = zlen rv /\ ztake count rv2 = ztake count (rb_contents rb))
    as (rv2 & -> & Hl2 & Hv2).
  { rewrite wrapped_bytes by (try done; lia).
    assert ((rb_head rb + count) mod rb_capacity rb = count - tc) as ->
      by (symmetry; apply Z.mod_unique_pos with 1; lia).
    destruct (Z.ltb_spec tc count).
    - rewrite slice_ok by lia. cbn [mbind res_bind].
      rewrite memcpy_ok by (len_simpl; lia). cbn [mbind res_bind].
      rewrite c_rem_nonneg by lia. rewrite Z.mod_small by lia.
      eexists. split; [done|]. split; [rewrite zlen_splice; len_simpl; lia|].
      rewrite ztake_splice_after by (len_simpl; lia).
      subst rv1. rewrite ztake_splice_0 by lia.
      rewrite zdrop_0, (ztake_all (count - tc) (ztake _ _)) by (len_simpl; lia).
      f_equal. apply ztake_all. len_simpl; lia.
    - exists rv1. split; [do 2 f_equal; lia|]. split; [done|].
      subst rv1. rewrite ztake_splice_0 by lia.
      rewrite (ztake_0 (count - _)), app_nil_r by lia. apply ztake_all. len_simpl; lia. }
  cbn [mbind res_bind]. eexists. split; [done|]. cbn [rb_load rb_retval_buffer].
  rewrite (contents_after_read rb count) by (try done; case_zbool; done).
  rewrite slice_ok by lia. rewrite zdrop_0, Hv2.
  pose proof (Z.mod_pos_bound (rb_head rb + count) (rb_capacity rb)).
  repeat split; try done; cbn; try apply I; try lia.
Qed.

(** A read never faults, hands out the oldest bytes and leaves the rest. *)
Lemma read_spec rb count :
  rb_inv rb -> 0 <= count ->
  exists p rb', ep_rb_read [] rb count =
      Ok (Z.min count (zlen (rb_contents rb)), p, rb', []) /\
    rb_load rb' p (Z.min count (zlen (rb_contents rb))) = Ok (ztake count (rb_contents rb)) /\
    rb_abs rb' = snd (fifo_read (rb_abs rb) count) /\
    (zlen (rb_contents rb) <= count -> rb_wrap rb' = 0) /\ rb_inv rb'.
Proof.
  intros I Hc. rewrite contents_len by done. pose proof (can_read_range _ I).
  assert (ep_rb_read [] rb count = ep_rb_read [] rb (Z.min count (ep_rb_can_read rb))) as ->.
  { unfold ep_rb_read. rewrite !min_int_spec. replace (Z.min (Z.min count (ep_rb_can_read rb)) (ep_rb_can_read rb)) with (Z.min count (ep_rb_can_read rb)) by lia. done. }
  set (k := Z.min count (ep_rb_can_read rb)).
  assert (forall l : list Z, zlen l = ep_rb_can_read rb -> ztake count l = ztake k l /\
            zdrop count l = zdrop k l) as Hk.
  { intros l Hl. subst k. destruct (Z.min_spec count (ep_rb_can_read rb)) as [[? ->]|[? ->]]; split; list_ext. }
  destruct (Hk (rb_contents rb)) as [Et Ed]; [by apply contents_len|].
  unfold fifo_read, rb_abs; cbn. rewrite Et, Ed.
  destruct (Z.eq_dec k 0) as [E0|E0].
  - exists RbNull, rb. unfold ep_rb_read. rewrite min_int_spec, Z.min_l by lia.
    rewrite E0. split; [done|]. rewrite ztake_0, zdrop_0 by lia. split; [done|].
    split; [done|]. split; [|done]. intros Hle.
    pose proof (inv_head _ I). pose proof (inv_tail _ I).
    assert (ep_rb_can_read rb = 0) as E by lia. unfold ep_rb_can_read in E.
    case_zbool_in E; lia.
  - destruct (Z.lt_ge_cases k (rb_capacity rb - rb_head rb)).
    + destruct (read_plain rb k I) as (rb' & E & L & C & Ec & El & W & I'); [lia..|].
      exists (RbBuffer (rb_head rb)), rb'. rewrite C, Ec, El. repeat split; try done; try apply I'.
      intros Hle. rewrite W. destruct (inv_wrap _ I) as [?|Hw]; [done|].
      exfalso. assert (k = ep_rb_can_read rb) as Hk' by lia. unfold ep_rb_can_read in Hk'.
      pose proof (inv_head _ I). pose proof (inv_tail _ I).
      case_zbool_in Hk'; lia.
    + destruct (read_wrapped rb k I) as (rb' & E & L & C & Ec & El & W & I'); [lia..|].
      exists RbRetval, rb'. rewrite C, Ec, El. repeat split; try done; apply I'.
Qed.

(** When the free space is too small the ring is copied, in order, to the start of a larger
    object; otherwise nothing happens. *)
Lemma expand_spec rb count :
  rb_inv rb -> 0 <= count -> rb_capacity rb + Z.min count (rb_limit rb) <= INT_MAX ->
  exists rb', ep_rb_expand_limit [] rb count = Ok (rb', []) /\
    rb_contents rb' = rb_contents rb /\
    rb_capacity rb' = fifo_grown (rb_abs rb) count /\ rb_limit rb' = rb_limit rb /\ rb_inv rb'.
Proof.
  intros I Hc Hmax. pose proof (can_read_range _ I). pose proof (contents_len _ I) as Hl.
  pose proof (inv_limit _ I). pose proof (inv_head _ I).
  unfold ep_rb_expand_limit, fifo_grown; cbn [f_bytes f_capacity f_limit rb_abs].
  rewrite Hl. destruct (Z.leb_spec count (rb_capacity rb - ep_rb_can_read rb)).
  { exists rb. done. }
  rewrite min_int_spec, c_int_ok by (unfold is_i32, INT_MAX in *; lia). cbn [mbind res_bind].
  set (size := rb_capacity rb + Z.min count (rb_limit rb)) in *.
  assert (rb_capacity rb < size) by lia.
  rewrite ep_malloc_plenty by lia.
  destruct (read_spec rb (ep_rb_can_read rb) I) as (p & rb1 & E & L & A & W & I1); [lia|].
  rewrite Hl, Z.min_id in E, L. rewrite ztake_all in L by lia.
  rewrite E. cbn [mbind res_bind]. rewrite L. cbn [mbind res_bind negb].
  rewrite memcpy_ok by (rewrite ?zlen_junk by lia; lia). cbn [mbind res_bind].
  rewrite c_rem_nonneg, Z.mod_small by lia. cbn [mbind res_bind].
  rewrite ztake_all by lia.
  specialize (W ltac:(lia)). unfold rb_abs, fifo_read in A. cbn in A.
  injection A as _ Ac Al.
  eexists. split; [done|]. cbn. rewrite Al, W. split.
  - unfold rb_contents at 1; cbn. case_zbool.
    + rewrite zdrop_0, Z.sub_0_r. apply ztake_splice_0; [lia|]. rewrite zlen_junk; lia.
    + symmetry. apply nil_length_inv. unfold zlen in *. lia.
  - repeat split; cbn; try lia; try apply I1.
    rewrite zlen_splice; rewrite ?zlen_junk; lia.
Qed.

(** The cells of the ring after storing [d] at the tail: one run, or two when it passes the
    end. *)
Definition rb_stored (rb : ep_rb) (d : list Z) : list Z :=
  let tc := Z.min (zlen d) (rb_capacity rb - rb_tail rb) in
  if tc <? zlen d
  then splice (splice (rb_buffer rb) (rb_tail rb) (ztake tc d)) 0 (zdrop tc d)
  else splice (rb_buffer rb) (rb_tail rb) d.

Lemma stored_tail_wraps t n c : 0 <= t < c -> c <= t + n <= c + c - 1 -> (t + n) mod c = t + n - c.
Proof. intros. symmetry. apply Z.mod_unique_pos with 1; lia. Qed.

Lemma contents_ordered rb :
  rb_inv rb -> ep_rb_can_read rb < rb_capacity rb -> rb_head rb <= rb_tail rb ->
  rb_contents rb = ztake (rb_tail rb - rb_head rb) (zdrop (rb_head rb) (rb_buffer rb)).
Proof.
  intros [? Hb ? ? Hw _] Hc Hle. unfold ep_rb_can_read in Hc. unfold rb_contents.
  case_zbool_in Hc; case_zbool; try done; try lia. by rewrite ztake_0 by lia.
Qed.

Lemma contents_split rb :
  rb_inv rb -> rb_tail rb < rb_head rb ->
  rb_contents rb = zdrop (rb_head rb) (rb_buffer rb) ++ ztake (rb_tail rb) (rb_buffer rb).
Proof. intros I Hlt. unfold rb_contents. case_zbool; done. Qed.

Lemma contents_wrapped_form rb h t :
  rb_head rb = h /\ rb_tail rb = t /\ (t < h \/ t = h /\ rb_wrap rb <> 0) ->
  rb_contents rb = zdrop h (rb_buffer rb) ++ ztake t (rb_buffer rb).
Proof. intros (<- & <- & Hc). unfold rb_contents. case_zbool; done. Qed.

Lemma contents_after_write rb d rv sz :
  rb_inv rb -> 0 < zlen d <= rb_capacity rb - ep_rb_can_read rb ->
  let tail' := (rb_tail rb + zlen d) mod rb_capacity rb in
  rb_contents (mk_rb (rb_stored rb d) (rb_head rb) tail'
                 (if rb_head rb =? tail' then 1 else rb_wrap rb)
                 (rb_capacity rb) (rb_limit rb) rv sz) = rb_contents rb ++ d.
Proof.
  intros I Hd. pose proof (can_read_range _ I) as Hr.
  pose proof (inv_head _ I). pose proof (inv_tail _ I). pose proof (inv_buffer _ I).
  assert (ep_rb_can_read rb = rb_tail rb - rb_head rb \/
    rb_tail rb < rb_head rb /\ ep_rb_can_read rb = rb_capacity rb + rb_tail rb - rb_head rb) as Hcr.
  { unfold ep_rb_can_read in *. case_zbool_in Hd; cbn [negb]; case_zbool; lia. }
  unfold rb_stored; cbn. destruct Hcr as [Hcr|[Hlt Hcr]].
  - rewrite (contents_ordered rb) by (try done; lia).
    destruct (Z.ltb_spec (rb_tail rb + zlen d) (rb_capacity rb)) as [Hs|Hs].
    + rewrite Z.mod_small by lia. rewrite Z.min_l, Z.ltb_irrefl by lia.
      unfold rb_contents; cbn. case_zbool.
      rewrite zdrop_splice_after, app_assoc, ztake_app_l by (len_simpl; lia). done.
    + rewrite (stored_tail_wraps (rb_tail rb) (zlen d) (rb_capacity rb)) by lia.
      rewrite Z.min_r by lia. set (tc := rb_capacity rb - rb_tail rb).
      assert (zlen (ztake tc d) = tc) as Ht by (len_simpl; lia).
      assert (zlen (zdrop tc d) = zlen d - tc) as Hdr by (len_simpl; lia).
      assert (zdrop (rb_head rb) (splice (rb_buffer rb) (rb_tail rb) (ztake tc d)) =
        ztake (rb_tail rb - rb_head rb) (zdrop (rb_head rb) (rb_buffer rb)) ++ ztake tc d) as Hx.
      { rewrite zdrop_splice_after, (zdrop_all (_ + _)), app_nil_r by lia. done. }
      replace (rb_tail rb + zlen d - rb_capacity rb) with (zlen d - tc) by lia.
      rewrite (contents_wrapped_form _ (rb_head rb) (zlen d - tc)) by (cbn; case_zbool; lia).
      cbn. destruct (Z.ltb_spec tc (zlen d)).
      * rewrite zdrop_splice_before, Hx by (rewrite ?zlen_splice; lia).
        rewrite ztake_splice_0 by (rewrite ?zlen_splice; lia).
        by rewrite <- app_assoc, ztake_zdrop.
      * rewrite (ztake_all tc d) in Hx by lia. rewrite Hx, (ztake_0 (zlen d - tc)) by lia.
        by rewrite app_nil_r.
  - rewrite (contents_split rb) by done.
    rewrite Z.mod_small by lia. rewrite Z.min_l, Z.ltb_irrefl by lia.
    rewrite (contents_wrapped_form _ (rb_head rb) (rb_tail rb + zlen d)) by (cbn; case_zbool; lia).
    cbn. rewrite zdrop_splice_before, ztake_splice_after by lia.
    by rewrite app_assoc.
Qed.

Lemma stored_len rb d :
  rb_inv rb -> zlen d <= rb_capacity rb -> zlen (rb_stored rb d) = rb_capacity rb.
Proof.
  intros I Hd. pose proof (inv_tail _ I). pose proof (inv_buffer _ I). pose proof (zlen_nonneg d).
  unfold rb_stored. case_zbool; rewrite !zlen_splice; rewrite ?zlen_splice; len_simpl; lia.
Qed.

Lemma inv_after_write rb d rv sz :
  rb_inv rb -> 0 < zlen d <= rb_capacity rb - ep_rb_can_read rb ->
  rv = rb_retval_buffer rb -> sz = rb_retval_size rb ->
  let tail' := (rb_tail rb + zlen d) mod rb_capacity rb in
  rb_inv (mk_rb (rb_stored rb d) (rb_head rb) tail'
            (if rb_head rb =? tail' then 1 else rb_wrap rb)
            (rb_capacity rb) (rb_limit rb) rv sz).
Proof.
  intros I Hd -> ->. cbn zeta. pose proof (can_read_range _ I).
  pose proof (inv_tail _ I). pose proof (inv_head _ I).
  pose proof (Z.mod_pos_bound (rb_tail rb + zlen d) (rb_capacity rb) ltac:(lia)).
  constructor; cbn; try apply I; try lia.
  - apply stored_len; [done|lia].
  - destruct (Z.eq_dec (rb_wrap rb) 0) as [Hw|Hw]; [case_zbool; lia|]. right.
    pose proof (inv_wrap _ I).
    unfold ep_rb_can_read in Hd. case_zbool_in Hd; rewrite Z.mod_small by lia; lia.
Qed.

(** The store of a write, given room for all of it. *)
Lemma store_spec rb data count :
  rb_inv rb -> 0 < count <= rb_capacity rb - ep_rb_can_read rb -> count <= zlen data ->
  rb_store rb data count =
    Ok (rb_stored rb (ztake count data), (rb_tail rb + count) mod rb_capacity rb).
Proof.
  intros I Hc Hd. unfold rb_store. rewrite min_int_spec.
  pose proof (can_read_range _ I). pose proof (inv_tail _ I). pose proof (inv_buffer _ I).
  unfold rb_stored. rewrite (zlen_ztake count), (Z.min_l count (zlen data)) by lia.
  destruct (Z.min_spec count (rb_capacity rb - rb_tail rb)) as [[Hm ->]|[Hm ->]].
  - rewrite memcpy_ok, Z.ltb_irrefl by lia. cbn [mbind res_bind].
    by rewrite c_rem_nonneg by lia.
  - rewrite memcpy_ok by lia. cbn [mbind res_bind].
    rewrite c_rem_nonneg by lia. cbn [mbind res_bind].
    set (tc := rb_capacity rb - rb_tail rb).
    replace (rb_tail rb + tc) with (rb_capacity rb) by lia. rewrite Z.mod_same by lia.
    assert ((rb_tail rb + count) mod rb_capacity rb = count - tc) as ->
      by (symmetry; apply Z.mod_unique_pos with 1; lia).
    assert (ztake tc (ztake count data) = ztake tc data) as -> by list_ext.
    assert (zdrop tc (ztake count data) = ztake (count - tc) (zdrop tc data)) as -> by list_ext.
    destruct (Z.ltb_spec tc count).
    + rewrite memcpy_ok by (rewrite ?zlen_splice; len_simpl; lia). cbn [mbind res_bind].
      by rewrite c_rem_nonneg, Z.mod_small by lia.
    + by replace tc with count by lia; rewrite Z.sub_diag.
Qed.

(** A write never faults and does what the abstract queue does. *)
Lemma write_spec rb data :
  rb_inv rb -> rb_capacity rb + Z.min (zlen data) (rb_limit rb) <= INT_MAX ->
  exists rb', ep_rb_write [] rb data (zlen data) =
      Ok (fst (fifo_write (rb_abs rb) data), rb', []) /\
    rb_abs rb' = snd (fifo_write (rb_abs rb) data) /\ rb_inv rb'.
Proof.
  intros I Hmax. pose proof (zlen_nonneg data).
  destruct (expand_spec rb (zlen data) I) as (rb1 & E1 & C1 & Cap1 & L1 & I1); [lia|done|].
  unfold ep_rb_write. rewrite E1. cbn [mbind res_bind].
  pose proof (contents_len _ I1) as Hl1. rewrite C1 in Hl1.
  pose proof (can_read_range _ I1) as Hr1.
  assert (0 < zlen data -> 0 < rb_capacity rb1 - ep_rb_can_read rb1) as Hroom.
  { intros Hpos. rewrite <- Hl1, Cap1. unfold fifo_grown; cbn.
    pose proof (inv_limit _ I). pose proof (can_read_range _ I).
    rewrite (contents_len _ I). case_zbool; lia. }
  set (n := Z.min (zlen data) (rb_capacity rb1 - ep_rb_can_read rb1)).
  assert (min_int (zlen data) (ep_rb_can_write rb1) = n) as ->.
  { rewrite min_int_spec. subst n. unfold ep_rb_can_write. pose proof (inv_limit _ I1).
    case_zbool; lia. }
  assert (fifo_write (rb_abs rb) data =
    (n, mk_fifo (rb_contents rb ++ ztake n data) (rb_capacity rb1) (rb_limit rb))) as ->.
  { unfold fifo_write. rewrite <- Cap1. cbn. by rewrite Hl1. }
  cbn [fst snd]. destruct (Z.eqb_spec n 0) as [E0|E0].
  - exists rb1. split; [done|]. split; [|done].
    unfold rb_abs. by rewrite C1, L1, ztake_0, app_nil_r by lia.
  - assert (zlen (ztake n data) = n) as Hn by (len_simpl; lia).
    rewrite (store_spec rb1 data n) by (try done; lia). cbn [mbind res_bind].
    eexists. split; [done|]. unfold rb_abs; cbn [rb_capacity rb_limit]. split.
    + pose proof (contents_after_write rb1 (ztake n data) (rb_retval_buffer rb1)
        (rb_retval_size rb1) I1 ltac:(lia)) as W. rewrite Hn in W. cbn zeta in W.
      by rewrite W, C1, L1.
    + apply (inv_after_write rb1 (ztake n data) (rb_retval_buffer rb1) (rb_retval_size rb1)) in I1;
        [|lia|done..]. by rewrite Hn in I1.
Qed.

Lemma new_spec cap lim :
  0 < cap -> 0 < lim ->
  exists rb, ep_rb_new [] cap lim = (Some rb, []) /\ rb_abs rb = mk_fifo [] cap lim /\ rb_inv rb.
Proof.
  intros Hc Hl. unfold ep_rb_new. rewrite ep_calloc_plenty by done. cbn [negb].
  rewrite ep_malloc_plenty by done. cbn [negb]. eexists. split; [done|]. split; [done|].
  constructor; cbn; try lia. rewrite zlen_zeros; lia.
Qed.

Lemma grown_bound f count :
  0 <= count -> fifo_grown f count <= f_capacity f + Z.max 0 (Z.min count (f_limit f)).
Proof. intros. unfold fifo_grown. case_zbool; lia. Qed.

Lemma step_spec rb o :
  rb_inv rb -> op_valid o -> rb_capacity rb + op_size o <= INT_MAX ->
  exists rb', rb_step rb o = Ok (fst (fifo_step (rb_abs rb) o), rb') /\
    rb_abs rb' = snd (fifo_step (rb_abs rb) o) /\ rb_inv rb' /\
    rb_capacity rb' <= rb_capacity rb + op_size o.
Proof.
  intros I Hv Hm. destruct o as [n|d]; cbn in *.
  - destruct (read_spec rb n I Hv) as (p & rb' & -> & L & A & _ & I').
    cbn [mbind res_bind]. rewrite L. cbn [mbind res_bind fst snd].
    exists rb'. split; [done|]. split; [done|]. split; [done|].
    injection A as _ -> _. lia.
  - pose proof (zlen_nonneg d).
    destruct (write_spec rb d I) as (rb' & E & A & I'); [pose proof (inv_limit _ I); lia|].
    rewrite E. cbn [mbind res_bind]. exists rb'. split; [done|]. split; [done|]. split; [done|].
    injection A as _ -> _.
    pose proof (grown_bound (rb_abs rb) (zlen d)). cbn in *. lia.
Qed.

Lemma ops_size_nonneg os : 0 <= ops_size os.
Proof.
  induction os as [|o os IH]; [done|].
  change (ops_size (o :: os)) with (op_size o + ops_size os).
  destruct o; cbn; [lia|]. pose proof (zlen_nonneg data). lia.
Qed.

Lemma run_spec os : forall rb,
  rb_inv rb -> Forall op_valid os -> rb_capacity rb + ops_size os <= INT_MAX ->
  exists rb', rb_run rb os = Ok (fst (fifo_run (rb_abs rb) os), rb') /\
    rb_abs rb' = snd (fifo_run (rb_abs rb) os) /\ rb_inv rb'.
Proof.
  induction os as [|o os IH]; intros rb I Hv Hm.
  { exists rb. done. }
  apply Forall_cons in Hv as [Hv Hvs].
  change (ops_size (o :: os)) with (op_size o + ops_size os) in Hm.
  pose proof (ops_size_nonneg os).
  destruct (step_spec rb o I Hv) as (rb1 & E1 & A1 & I1 & C1); [lia|].
  destruct (IH rb1 I1 Hvs) as (rb2 & E2 & A2 & I2); [lia|].
  cbn [rb_run fifo_run]. rewrite E1. cbn [mbind res_bind]. rewrite E2. cbn [mbind res_bind].
  destruct (fifo_step (rb_abs rb) o) as [out f1]. cbn in A1. subst f1.
  destruct (fifo_run (rb_abs rb1) os) as [outs f2]. exists rb2. done.
Qed.

(** The bytes a sequence of outcomes handed out, and the bytes it accepted. *)
Definition out_bytes (outs : list rb_out) : list Z :=
  concat (map (fun o => match o with OutRead b => b | OutWrite _ => [] end) outs).

Definition in_bytes (os : list rb_op) (outs : list rb_out) : list Z :=
  concat (zip_with (fun o out => match o, out with
                                 | OpWrite d, OutWrite n => ztake n d
                                 | _, _ => []
                                 end) os outs).

Lemma fifo_run_order os : forall f,
  Forall op_valid os ->
  f_bytes f ++ in_bytes os (fst (fifo_run f os)) =
  out_bytes (fst (fifo_run f os)) ++ f_bytes (snd (fifo_run f os)).
Proof.
  induction os as [|o os IH]; intros f Hv; [by rewrite app_nil_r|].
  apply Forall_cons in Hv as [Hv Hvs]. cbn [fifo_run].
  destruct (fifo_step f o) as [out f1] eqn:E. specialize (IH f1 Hvs).
  destruct (fifo_run f1 os) as [outs f2]. cbn in *.
  destruct o as [n|d]; cbn in E; injection E as <- <-; cbn in *.
  - rewrite <- app_assoc, <- IH. unfold in_bytes; cbn. by rewrite app_assoc, ztake_zdrop.
  - unfold in_bytes in *; cbn. by rewrite app_assoc, IH.
Qed.

(** ** Properties *)

(** C10: From a fresh ring, every sequence of reads (of non-negative size) and writes whose total
    size keeps the capacity within [int] runs without an out-of-bounds access or any other
    fault, and its results are those of the abstract byte queue: reads give the oldest bytes,
    writes store what the grown capacity admits. The queue grows by at most its limit at each write
    that finds no room; the limit is not a bound on the capacity ([rb_limit_not_a_bound]). *)
Theorem rb_refines_fifo (cap lim : Z) (os : list rb_op) :
  0 < cap -> 0 < lim -> Forall op_valid os -> cap + ops_size os <= INT_MAX ->
  exists rb0 rb', ep_rb_new [] cap lim = (Some rb0, []) /\
    rb_run rb0 os = Ok (fst (fifo_run (mk_fifo [] cap lim) os), rb') /\
    rb_abs rb' = snd (fifo_run (mk_fifo [] cap lim) os) /\ rb_inv rb'.
Proof.
  intros Hc Hl Hv Hm. destruct (new_spec cap lim Hc Hl) as (rb0 & E & A & I).
  destruct (run_spec os rb0 I Hv) as (rb' & R & A' & I').
  { assert (rb_capacity rb0 = cap) by (by injection A). lia. }
  rewrite A in R, A'. exists rb0, rb'. done.
Qed.

Lemma rb_refines_fifo_witness :
  exists rb0 rb', ep_rb_new [] 4 8 = (Some rb0, []) /\
    rb_run rb0 [OpWrite [1;2;3]; OpRead 2; OpWrite [4;5;6]; OpRead 9; OpWrite [7;8;9;10;11;12]] =
      Ok ([OutWrite 3; OutRead [1;2]; OutWrite 3; OutRead [3;4;5;6]; OutWrite 6], rb') /\
    rb_abs rb' = mk_fifo [7;8;9;10;11;12] 10 8 /\ rb_inv rb'.
Proof.
  apply (rb_refines_fifo 4 8
    [OpWrite [1;2;3]; OpRead 2; OpWrite [4;5;6]; OpRead 9; OpWrite [7;8;9;10;11;12]]).
  - lia.
  - lia.
  - forall_lia.
  - vm_compute. discriminate.
Defined.

(** No byte is lost, duplicated or reordered: over any run from a fresh ring, the bytes read
    out, followed by the bytes still stored, are the accepted parts of the writes in order. *)
Theorem rb_preserves_order (cap lim : Z) (os : list rb_op) rb0 outs rb' :
  0 < cap -> 0 < lim -> Forall op_valid os -> cap + ops_size os <= INT_MAX ->
  ep_rb_new [] cap lim = (Some rb0, []) -> rb_run rb0 os = Ok (outs, rb') ->
  in_bytes os outs = out_bytes outs ++ rb_contents rb'.
Proof.
  intros Hc Hl Hv Hm E R. destruct (new_spec cap lim Hc Hl) as (r & E' & A & I).
  rewrite E in E'. injection E' as <-.
  destruct (run_spec os rb0 I Hv) as (r' & R' & A' & I').
  { assert (rb_capacity rb0 = cap) by (by injection A). lia. }
  rewrite R in R'. injection R' as -> ->.
  pose proof (fifo_run_order os (rb_abs rb0) Hv) as H. rewrite A in H at 1. cbn in H.
  rewrite H, <- A'. done.
Qed.

Lemma rb_preserves_order_witness :
  in_bytes [OpWrite [1;2;3]; OpRead 2; OpWrite [4;5;6]] [OutWrite 3; OutRead [1;2]; OutWrite 3] =
  out_bytes [OutWrite 3; OutRead [1;2]; OutWrite 3] ++ [3;4;5;6].
Proof.
  exact (rb_preserves_order 4 8 [OpWrite [1;2;3]; OpRead 2; OpWrite [4;5;6]]
    (mk_rb (zeros 4) 0 0 0 4 8 None 0) [OutWrite 3; OutRead [1;2]; OutWrite 3]
    (mk_rb [5;6;3;4] 2 2 1 4 8 None 0) ltac:(lia) ltac:(lia) ltac:(forall_lia)
    ltac:(vm_compute; discriminate) eq_refl eq_refl).
Defined.

(** C31: A write of [data] grows the ring by at most the limit and by at most the size of the write,
    and only when there is no room: a ring that has room for it keeps its capacity, and one that
    grows ends with less than the stored bytes plus twice the write. *)
Theorem rb_growth_bounded rb data n rb' :
  rb_inv rb -> rb_capacity rb + Z.min (zlen data) (rb_limit rb) <= INT_MAX ->
  ep_rb_write [] rb data (zlen data) = Ok (n, rb', []) ->
  rb_capacity rb <= rb_capacity rb' <= rb_capacity rb + Z.min (zlen data) (rb_limit rb) /\
  (zlen (rb_contents rb) + zlen data <= rb_capacity rb -> rb_capacity rb' = rb_capacity rb) /\
  (rb_capacity rb' = rb_capacity rb \/
   rb_capacity rb' < zlen (rb_contents rb) + 2 * zlen data).
Proof.
  intros I Hm E. destruct (write_spec rb data I Hm) as (r & E' & A & _).
  rewrite E in E'. injection E' as -> <-. pose proof (inv_limit _ I). pose proof (zlen_nonneg data).
  unfold rb_abs, fifo_write in A; cbn in A. injection A as _ -> _.
  unfold fifo_grown; cbn. case_zbool; lia.
Qed.

Lemma rb_growth_bounded_witness :
  4 <= 10 <= 4 + 6 /\ (0 + 6 <= 4 -> 10 = 4) /\ (10 = 4 \/ 10 < 0 + 2 * 6).
Proof.
  exact (rb_growth_bounded (mk_rb (zeros 4) 0 0 0 4 8 None 0) [7;8;9;10;11;12] 6
    (mk_rb ([7;8;9;10;11;12] ++ junk 4) 0 6 0 10 8 None 0)
    ltac:(constructor; try done; vm_compute; auto) ltac:(vm_compute; discriminate) eq_refl).
Defined.

(** [limit] does not bound the capacity: it only bounds one growth step. A ring made with
    limit 8 holds 24 bytes of capacity after four writes of five bytes. *)
Theorem rb_limit_not_a_bound :
  exists rb0 rb', ep_rb_new [] 4 8 = (Some rb0, []) /\
    rb_run rb0 (replicate 4 (OpWrite [1;2;3;4;5])) = Ok (replicate 4 (OutWrite 5), rb') /\
    rb_limit rb' = 8 /\ rb_capacity rb' = 24.
Proof. eexists _, _. split; [reflexivity|]. split; [vm_compute; reflexivity|]. done. Qed.

(** A negative read size is not refused: on every ring the read succeeds, returns the
    negative size and moves the head backwards, below zero when the head is small. *)
Theorem rb_read_negative rb count :
  rb_inv rb -> count < 0 ->
  ep_rb_read [] rb count =
    Ok (count, RbBuffer (rb_head rb),
        mk_rb (rb_buffer rb) (Z.rem (rb_head rb + count) (rb_capacity rb)) (rb_tail rb)
          (rb_wrap rb) (rb_capacity rb) (rb_limit rb) (rb_retval_buffer rb) (rb_retval_size rb),
        []).
Proof.
  intros I Hc. pose proof (can_read_range _ I). pose proof (inv_head _ I).
  unfold ep_rb_read, c_rem. rewrite min_int_spec, Z.min_l by lia. case_zbool. done.
Qed.

Lemma rb_read_negative_witness :
  ep_rb_read [] (mk_rb (zeros 8) 0 3 0 8 8 None 0) (-2) =
    Ok (-2, RbBuffer 0, mk_rb (zeros 8) (-2) 3 0 8 8 None 0, []).
Proof.
  exact (rb_read_negative (mk_rb (zeros 8) 0 3 0 8 8 None 0) (-2)
    ltac:(constructor; try done; vm_compute; auto) ltac:(lia)).
Defined.

End RingBuffer.
