(* ===== verification/Queue.v ===== *)
(** * Queue: the blocking queue between threads

    Models src/native/eventpack/src/ep_queue.c. Every function body runs under the queue's
    mutex, so a call is one atomic step, except [ep_queue_get], which gives the mutex up while
    it waits on the condition variable: it is two steps, [ep_queue_get_enter] (from the lock to
    a return or to the wait) and [ep_queue_get_wake] (from the wait's return to the end). The
    step relation [qstep] interleaves the steps of any number of threads; a wait may end at any
    time, since POSIX allows spurious wakeups. *)
From S2P Require Import Prelude Alloc.
Import Alloc.

Module Queue.

Record ep_queue (V : Type) := mk_queue {
  q_items : list V;      (* the TAILQ, first element first *)
  q_stop_sign : Z;
}.
Arguments mk_queue {V} _ _.
Arguments q_items {V} _.
Arguments q_stop_sign {V} _.

Section Ops.
Context {V : Type}.
Implicit Types (q : ep_queue V).

Definition sizeof_ep_queue : Z := 128.
Definition sizeof_ep_queue_body : Z := 24.

Definition ep_queue_new (al : alloc) : option (ep_queue V) * alloc :=
  let '(ok, al) := ep_calloc al 1 sizeof_ep_queue in
  if negb ok then (None, al) else (Some (mk_queue [] 0), al).

Definition ep_queue_push (al : alloc) (queue : option (ep_queue V)) (body : V)
  : Z * option (ep_queue V) * alloc :=
  match queue with
  | None => (0, None, al)
  | Some q =>
    let '(ok, al) := ep_calloc al 1 sizeof_ep_queue_body in
    if negb ok then (0, Some q, al)
    else (1, Some (mk_queue (q_items q ++ [body]) (q_stop_sign q)), al)
  end.

(** A call of [ep_queue_get] that has to wait: until a deadline (seconds, nanoseconds), or for
    ever. *)
Inductive get_step : Type :=
  | GetRet (ret : Z) (body : option V) (q : ep_queue V)
  | GetWait (deadline : option (Z * Z)).

(** The end of [ep_queue_get] once an item is there or no wait is needed. *)
Definition get_take (q : ep_queue V) : Z * option V * ep_queue V :=
  match q_items q with
  | [] => (0, None, q)
  | v :: l => (1, Some v, mk_queue l (q_stop_sign q))
  end.

Definition ep_queue_get_enter (q : ep_queue V) (timeout now_sec now_usec : Z) : get_step :=
  match q_items q with
  | [] =>
    if q_stop_sign q =? 0 then
      if 0 <? timeout then GetWait (Some (now_sec + timeout, now_usec * 1000))
      else if timeout =? 0 then GetRet 0 None q
      else GetWait None
    else let '(ret, body, q) := get_take q in GetRet ret body q
  | _ => let '(ret, body, q) := get_take q in GetRet ret body q
  end.

Definition ep_queue_get_wake (q : ep_queue V) (wait_r : Z) : Z * option V * ep_queue V :=
  if negb (q_stop_sign q =? 0) then (-1, None, q)
  else match q_items q with
       | [] => if negb (wait_r =? 0) then (0, None, q) else (-1, None, q)
       | _ => get_take q
       end.

Definition ep_queue_stop (queue : option (ep_queue V)) : Z * option (ep_queue V) :=
  match queue with
  | None => (0, None)
  | Some q => (1, Some (mk_queue (q_items q) 1))
  end.

(** The pointer after the call, and the items left behind (the function asserts there are
    none). *)
Definition ep_queue_destroy (queue : option (ep_queue V)) : option (ep_queue V) * list V :=
  match queue with
  | None => (None, [])
  | Some q => let '(_, q') := ep_queue_stop (Some q) in
    (None, match q' with Some q => q_items q | None => [] end)
  end.

(** The loop [while (ep_queue_get(q, &b, 0) == 1)] by which the owners empty a queue. The
    length of the list is enough fuel, since every round that goes on takes one item. *)
Fixpoint ep_queue_drain (fuel : nat) (q : ep_queue V) : res (list V * ep_queue V) :=
  match fuel with
  | O => Fault OutOfFuel
  | S fuel =>
    match ep_queue_get_enter q 0 0 0 with
    | GetWait _ => Fault Blocked
    | GetRet ret body q' =>
      if ret =? 1 then
        '(l, q'') ← ep_queue_drain fuel q';
        Ok (match body with Some v => v :: l | None => l end, q'')
      else Ok ([], q')
    end
  end.

(** ** Threads *)

(** What the observer of a run sees: the item a push stored, the result of a finished get (by
    thread), a get that began to wait, and a stop. *)
Inductive qevent : Type :=
  | EvPush (v : V)
  | EvGot (t : nat) (v : V)
  | EvEmpty (t : nat) (ret : Z)
  | EvWait (t : nat)
  | EvStop.

Record qsys := mk_qsys { sys_q : ep_queue V; sys_waiting : list nat }.

Definition get_event (t : nat) (ret : Z) (body : option V) : qevent :=
  match body with Some v => EvGot t v | None => EvEmpty t ret end.

Inductive qstep : qsys -> qevent -> qsys -> Prop :=
  | qstep_push s v q' :
      ep_queue_push [] (Some (sys_q s)) v = (1, Some q', []) ->
      qstep s (EvPush v) (mk_qsys q' (sys_waiting s))
  | qstep_get s t timeout sec usec ret body q' :
      t ∉ sys_waiting s ->
      ep_queue_get_enter (sys_q s) timeout sec usec = GetRet ret body q' ->
      qstep s (get_event t ret body) (mk_qsys q' (sys_waiting s))
  | qstep_wait s t timeout sec usec d :
      t ∉ sys_waiting s ->
      ep_queue_get_enter (sys_q s) timeout sec usec = GetWait d ->
      qstep s (EvWait t) (mk_qsys (sys_q s) (t :: sys_waiting s))
  | qstep_wake s l1 t l2 wait_r ret body q' :
      sys_waiting s = l1 ++ t :: l2 ->
      ep_queue_get_wake (sys_q s) wait_r = (ret, body, q') ->
      qstep s (get_event t ret body) (mk_qsys q' (l1 ++ l2))
  | qstep_stop s q' :
      ep_queue_stop (Some (sys_q s)) = (1, Some q') ->
      qstep s EvStop (mk_qsys q' (sys_waiting s)).

Inductive qsteps : qsys -> list qevent -> qsys -> Prop :=
  | qsteps_nil s : qsteps s [] s
  | qsteps_snoc s tr s1 e s2 : qsteps s tr s1 -> qstep s1 e s2 -> qsteps s (tr ++ [e]) s2.

Definition pushed (tr : list qevent) : list V :=
  concat (map (fun e => match e with EvPush v => [v] | _ => [] end) tr).

Definition got (tr : list qevent) : list V :=
  concat (map (fun e => match e with EvGot _ v => [v] | _ => [] end) tr).

Definition sys_init : qsys := mk_qsys (mk_queue [] 0) [].

(** ** Lemmas *)

Lemma pushed_app tr1 tr2 : pushed (tr1 ++ tr2) = pushed tr1 ++ pushed tr2.
Proof. unfold pushed. by rewrite map_app, concat_app. Qed.

Lemma got_app tr1 tr2 : got (tr1 ++ tr2) = got tr1 ++ got tr2.
Proof. unfold got. by rewrite map_app, concat_app. Qed.

Lemma get_take_spec q ret body q' : get_take q = (ret, body, q') ->
  q_items q = (match body with Some v => [v] | None => [] end) ++ q_items q' /\
  q_stop_sign q' = q_stop_sign q /\ (ret = 1 <-> is_Some body).
Proof.
  unfold get_take. destruct (q_items q) as [|v l] eqn:E; intros [= <- <- <-]; rewrite ?E.
  - repeat split; naive_solver.
  - repeat split; naive_solver.
Qed.

Lemma get_enter_spec q timeout s u ret body q' :
  ep_queue_get_enter q timeout s u = GetRet ret body q' ->
  q_items q = (match body with Some v => [v] | None => [] end) ++ q_items q' /\
  q_stop_sign q' = q_stop_sign q /\ (ret = 1 <-> is_Some body).
Proof.
  unfold ep_queue_get_enter. destruct (get_take q) as [[r b] q1] eqn:T.
  apply get_take_spec in T. destruct (q_items q) as [|v l] eqn:E.
  - case_zbool; intros [= <- <- <-]; rewrite ?E; naive_solver.
  - intros [= <- <- <-]. done.
Qed.

Lemma get_wake_spec q w ret body q' :
  ep_queue_get_wake q w = (ret, body, q') ->
  q_items q = (match body with Some v => [v] | None => [] end) ++ q_items q' /\
  q_stop_sign q' = q_stop_sign q /\ (ret = 1 <-> is_Some body).
Proof.
  unfold ep_queue_get_wake. intros H.
  assert (q_items q = [] ++ q_items q /\ q_stop_sign q = q_stop_sign q /\
    (-1 = 1 <-> is_Some (@None V)) /\ (0 = 1 <-> is_Some (@None V))) as H0.
  { repeat split; naive_solver. }
  destruct (negb (q_stop_sign q =? 0)); [by injection H as <- <- <-; naive_solver|].
  destruct (q_items q) as [|v l] eqn:E.
  - destruct (negb (w =? 0)); injection H as <- <- <-; rewrite E; naive_solver.
  - apply get_take_spec in H. by rewrite E in H.
Qed.

Lemma got_event t ret body :
  got [get_event t ret body] = match body with Some v => [v] | None => [] end.
Proof. by destruct body. Qed.

Lemma pushed_event t ret body : pushed [get_event t ret body] = [].
Proof. by destruct body. Qed.

(** One step keeps the pushed items split into those taken and those stored. *)
Lemma qstep_conserves s e s' :
  qstep s e s' ->
  q_items (sys_q s) ++ pushed [e] = got [e] ++ q_items (sys_q s').
Proof.
  intros H; destruct H as [s v q' H|s t tmo a b ret body q' Hw H|s t tmo a b d Hw H
                          |s l1 t l2 w ret body q' Hw H|s q' H]; cbn [sys_q].
  - unfold ep_queue_push in H. cbn in H. by injection H as <-.
  - rewrite pushed_event, got_event, app_nil_r. by apply get_enter_spec in H as [-> _].
  - by rewrite app_nil_r.
  - rewrite pushed_event, got_event, app_nil_r. by apply get_wake_spec in H as [-> _].
  - injection H as <-. by rewrite app_nil_r.
Qed.

Lemma qsteps_conserves s0 tr s :
  qsteps s0 tr s ->
  q_items (sys_q s0) ++ pushed tr = got tr ++ q_items (sys_q s).
Proof.
  induction 1 as [s|s tr s1 e s2 _ IH Hs]; [by rewrite app_nil_r|].
  rewrite pushed_app, got_app, app_assoc, IH, <- !app_assoc. f_equal.
  by apply qstep_conserves.
Qed.

End Ops.
Arguments qsys : clear implicits.
Arguments qevent : clear implicits.
Arguments get_step : clear implicits.

(** ** Properties *)

(** C27: Under every interleaving of pushes, gets (blocking, timed or not, with spurious
    wakeups) and stops by any number of threads, the items handed out so far, in the order of
    the gets, followed by the items stored, are the items pushed so far, in order: nothing is
    lost, duplicated or reordered. *)
Theorem queue_fifo {V : Type} (tr : list (qevent V)) (s : qsys V) :
  qsteps sys_init tr s -> pushed tr = got tr ++ q_items (sys_q s).
Proof. intros H. by apply qsteps_conserves in H. Qed.

Lemma queue_fifo_witness :
  pushed [EvWait 1; EvPush 7; EvPush 8; EvGot 2 7; EvGot 1 8] =
  got [EvWait 1; EvPush 7; EvPush 8; EvGot 2 7; EvGot 1 8] ++ [].
Proof.
  apply (queue_fifo [EvWait 1; EvPush 7; EvPush 8; EvGot 2 7; EvGot 1 8]
    (mk_qsys (mk_queue [] 0) [])).
  apply (qsteps_snoc _ [EvWait 1; EvPush 7; EvPush 8; EvGot 2 7] (mk_qsys (mk_queue [8] 0) [1%nat])).
  - apply (qsteps_snoc _ [EvWait 1; EvPush 7; EvPush 8] (mk_qsys (mk_queue [7;8] 0) [1%nat])).
    + apply (qsteps_snoc _ [EvWait 1; EvPush 7] (mk_qsys (mk_queue [7] 0) [1%nat])).
      * apply (qsteps_snoc _ [EvWait 1] (mk_qsys (mk_queue [] 0) [1%nat])).
        -- apply (qsteps_snoc _ [] sys_init); [apply qsteps_nil|].
           apply (qstep_wait sys_init 1 (-1) 0 0 None); [set_solver|done].
        -- by apply (qstep_push (mk_qsys (mk_queue [] 0) [1%nat])).
      * by apply (qstep_push (mk_qsys (mk_queue [7] 0) [1%nat])).
    + apply (qstep_get (mk_qsys (mk_queue [7;8] 0) [1%nat]) 2 0 0 0 1 (Some 7)); [set_solver|done].
  - by apply (qstep_wake (mk_qsys (mk_queue [8] 0) [1%nat]) [] 1 [] 0 1 (Some 8)).
Defined.

(** A get that waited reports an abort (-1) although nobody stopped the queue: when a push
    wakes it and another thread takes the item first, the run below gives -1 to the waiter with
    the stop sign still 0. *)
Theorem queue_abort_without_stop :
  exists s, qsteps (V := Z) sys_init [EvWait 1; EvPush 7; EvGot 2 7; EvEmpty 1 (-1)] s /\
    q_stop_sign (sys_q s) = 0.
Proof.
  exists (mk_qsys (mk_queue [] 0) []). split; [|done].
  apply (qsteps_snoc _ [EvWait 1; EvPush 7; EvGot 2 7] (mk_qsys (mk_queue [] 0) [1%nat])).
  - apply (qsteps_snoc _ [EvWait 1; EvPush 7] (mk_qsys (mk_queue [7] 0) [1%nat])).
    + apply (qsteps_snoc _ [EvWait 1] (mk_qsys (mk_queue [] 0) [1%nat])).
      * apply (qsteps_snoc _ [] sys_init); [apply qsteps_nil|].
        apply (qstep_wait sys_init 1 (-1) 0 0 None); [set_solver|done].
      * by apply (qstep_push (mk_qsys (mk_queue [] 0) [1%nat])).
    + apply (qstep_get (mk_qsys (mk_queue [7] 0) [1%nat]) 2 0 0 0 1 (Some 7)); [set_solver|done].
  - by apply (qstep_wake (mk_qsys (mk_queue [] 0) [1%nat]) [] 1 [] 0 (-1) None).
Qed.

End Queue.
