(* ===== verification/Words.v ===== *)
(** * Words: bytes, byte order and the wire header

    The byte-order functions of src/native/eventpack/utils/htonll.h, and the packed header
    [ep_shell_t] of src/native/eventpack/src/ep_shell.h with the conversions between host and
    network order that ep_io.c makes in place. The host is little-endian and lays the bit fields
    of [ep_shell_proto] out from the low bit, one after the other in the packed struct, as gcc and
    clang do on x86 (MSVC starts a new unit where the type of the field changes); a struct in
    memory is the list of its bytes. *)
From S2P Require Import Prelude.
From Stdlib Require Import Btauto.

Module Words.

(** ** Little-endian objects *)

Fixpoint le_bytes (n : nat) (z : Z) : list Z :=
  match n with
  | O => []
  | S n => z mod 256 :: le_bytes n (z / 256)
  end.

Fixpoint le_load (l : list Z) : Z :=
  match l with
  | [] => 0
  | b :: l => b + 256 * le_load l
  end.

(** ** htonll.h *)

Definition bswap_16 (x : Z) : Z :=
  u16 (Z.lor (Z.shiftl (Z.land x 0x00ff) 8) (Z.shiftr (Z.land x 0xff00) 8)).

Definition bswap_32 (x : Z) : Z :=
  u32 (Z.lor (Z.lor (Z.lor
    (Z.shiftl (Z.land x 0x000000ff) 24)
    (Z.shiftl (Z.land x 0x0000ff00) 8))
    (Z.shiftr (Z.land x 0x00ff0000) 8))
    (Z.shiftr (Z.land x 0xff000000) 24)).

Definition bswap_64 (x : Z) : Z :=
  u64 (Z.lor (Z.lor (Z.lor (Z.lor (Z.lor (Z.lor (Z.lor
    (Z.shiftl (Z.land x 0x00000000000000ff) 56)
    (Z.shiftl (Z.land x 0x000000000000ff00) 40))
    (Z.shiftl (Z.land x 0x0000000000ff0000) 24))
    (Z.shiftl (Z.land x 0x00000000ff000000) 8))
    (Z.shiftr (Z.land x 0x000000ff00000000) 8))
    (Z.shiftr (Z.land x 0x0000ff0000000000) 24))
    (Z.shiftr (Z.land x 0x00ff000000000000) 40))
    (Z.shiftr (Z.land x 0xff00000000000000) 56)).

Definition htonll (x : Z) : Z := bswap_64 x.
Definition ntohll (x : Z) : Z := bswap_64 x.

(** The host-to-network functions of the C library on a little-endian host. *)
Definition htons (x : Z) : Z := bswap_16 (u16 x).
Definition ntohs (x : Z) : Z := bswap_16 (u16 x).
Definition htonl (x : Z) : Z := bswap_32 (u32 x).
Definition ntohl (x : Z) : Z := bswap_32 (u32 x).

(** ** ep_shell.h *)

Definition EP_MAGIC_NUMBER : Z := 0x9087.

Record ep_shell_proto := mk_proto {
  p_category : Z;     (* unsigned, 16 bits *)
  p_type : Z;         (* signed, 3 bits, as the next four *)
  p_c_crypt : Z;
  p_c_compress : Z;
  p_s_crypt : Z;
  p_s_compress : Z;
  p_serverd : Z;      (* signed, 1 bit *)
}.

Record ep_shell := mk_shell {
  s_magic : Z;
  s_proto : ep_shell_proto;
  s_shell_size : Z;
  s_decrypt_size : Z;
  s_pack_size : Z;
}.

Definition sizeof_ep_shell : Z := 18.

(** [*(uint32_t * )&shell->proto] *)
Definition proto_word (p : ep_shell_proto) : Z :=
  wrap_u 16 (p_category p)
  + 2 ^ 16 * (wrap_u 3 (p_type p)
  + 2 ^ 3 * (wrap_u 3 (p_c_crypt p)
  + 2 ^ 3 * (wrap_u 3 (p_c_compress p)
  + 2 ^ 3 * (wrap_u 3 (p_s_crypt p)
  + 2 ^ 3 * (wrap_u 3 (p_s_compress p)
  + 2 ^ 3 * wrap_u 1 (p_serverd p)))))).

(** [memcpy(&shell->proto, &w, sizeof(uint32_t))], then read by field *)
Definition word_proto (w : Z) : ep_shell_proto :=
  mk_proto (wrap_u 16 w)
    (wrap_s 3 (w / 2 ^ 16)) (wrap_s 3 (w / 2 ^ 19)) (wrap_s 3 (w / 2 ^ 22))
    (wrap_s 3 (w / 2 ^ 25)) (wrap_s 3 (w / 2 ^ 28)) (wrap_s 1 (w / 2 ^ 31)).

(** The object representation of the struct, and the struct an object represents. *)
Definition shell_mem (s : ep_shell) : list Z :=
  le_bytes 2 (s_magic s) ++ le_bytes 4 (proto_word (s_proto s)) ++
  le_bytes 4 (u32 (s_shell_size s)) ++ le_bytes 4 (u32 (s_decrypt_size s)) ++
  le_bytes 4 (u32 (s_pack_size s)).

Definition mem_shell (m : list Z) : ep_shell :=
  mk_shell (le_load (ztake 2 m)) (word_proto (le_load (ztake 4 (zdrop 2 m))))
    (i32 (le_load (ztake 4 (zdrop 6 m)))) (i32 (le_load (ztake 4 (zdrop 10 m))))
    (i32 (le_load (ztake 4 (zdrop 14 m)))).

(** host endian to network endian, in place *)
Definition shell_hton (s : ep_shell) : ep_shell :=
  mk_shell (htons (s_magic s))
    (word_proto (htonl (proto_word (s_proto s))))
    (i32 (htonl (s_shell_size s)))
    (i32 (htonl (s_decrypt_size s)))
    (i32 (htonl (s_pack_size s))).

(** network endian to host endian, in place *)
Definition shell_ntoh (s : ep_shell) : ep_shell :=
  mk_shell (ntohs (s_magic s))
    (word_proto (ntohl (proto_word (s_proto s))))
    (i32 (ntohl (s_shell_size s)))
    (i32 (ntohl (s_decrypt_size s)))
    (i32 (ntohl (s_pack_size s))).

(** The values the fields of the header can hold. *)
Record proto_ok (p : ep_shell_proto) : Prop := {
  ok_category : is_u16 (p_category p);
  ok_type : -4 <= p_type p <= 3;
  ok_c_crypt : -4 <= p_c_crypt p <= 3;
  ok_c_compress : -4 <= p_c_compress p <= 3;
  ok_s_crypt : -4 <= p_s_crypt p <= 3;
  ok_s_compress : -4 <= p_s_compress p <= 3;
  ok_serverd : -1 <= p_serverd p <= 0;
}.

Record shell_ok (s : ep_shell) : Prop := {
  ok_magic : is_u16 (s_magic s);
  ok_proto : proto_ok (s_proto s);
  ok_shell_size : is_i32 (s_shell_size s);
  ok_decrypt_size : is_i32 (s_decrypt_size s);
  ok_pack_size : is_i32 (s_pack_size s);
}.

(** The specification of the wire: the bytes of the header, most significant byte first. *)
Definition be_bytes (n : nat) (z : Z) : list Z := rev (le_bytes n z).

Definition shell_wire (s : ep_shell) : list Z :=
  be_bytes 2 (s_magic s) ++ be_bytes 4 (proto_word (s_proto s)) ++
  be_bytes 4 (u32 (s_shell_size s)) ++ be_bytes 4 (u32 (s_decrypt_size s)) ++
  be_bytes 4 (u32 (s_pack_size s)).

(** ** Lemmas *)

Lemma length_le_bytes n z : length (le_bytes n z) = n.
Proof. revert z; induction n as [|n IH]; intros z; cbn; [done|]. by rewrite IH. Qed.

Lemma le_bytes_is_byte n z : Forall is_byte (le_bytes n z).
Proof.
  revert z; induction n as [|n IH]; intros z; cbn; [apply Forall_nil_2|].
  apply Forall_cons_2; [|done]. unfold is_byte. apply Z.mod_pos_bound. lia.
Qed.

Lemma le_load_bytes n z : le_load (le_bytes n z) = z mod 256 ^ Z.of_nat n.
Proof.
  revert z; induction n as [|n IH]; intros z; cbn [le_bytes le_load].
  { by rewrite Z.mod_1_r. }
  rewrite IH, Nat2Z.inj_succ, Z.pow_succ_r by lia.
  pose proof (Z.pow_pos_nonneg 256 (Z.of_nat n)).
  rewrite (Z.rem_mul_r z 256) by lia. lia.
Qed.

Lemma pow256_cons (b : Z) l : 256 ^ zlen (b :: l) = 256 * 256 ^ zlen l.
Proof. rewrite zlen_cons. pose proof (zlen_nonneg l). by rewrite Z.pow_add_r by lia. Qed.

Lemma le_load_range l : Forall is_byte l -> 0 <= le_load l < 256 ^ zlen l.
Proof.
  induction l as [|b l IH]; intros H; cbn [le_load]; [done|].
  apply Forall_cons in H as [Hb Hl]. specialize (IH Hl). unfold is_byte in Hb.
  rewrite pow256_cons. nia.
Qed.

Lemma le_bytes_load l : Forall is_byte l -> le_bytes (length l) (le_load l) = l.
Proof.
  induction l as [|b l IH]; intros H; cbn [le_load length le_bytes]; [done|].
  apply Forall_cons in H as [Hb Hl]. unfold is_byte in Hb.
  rewrite (Z.mul_comm 256), Z.mod_add, Z.div_add, Z.mod_small, Z.div_small by lia.
  by rewrite Z.add_0_l, IH.
Qed.

Lemma le_load_app l k : le_load (l ++ k) = le_load l + 256 ^ zlen l * le_load k.
Proof.
  induction l as [|b l IH]; cbn [app le_load]; [change (256 ^ zlen []) with 1; lia|].
  rewrite IH, pow256_cons. lia.
Qed.

(** *** The bytes of a word *)

Definition byte_at (k x : Z) : Z := Z.shiftr x (8 * k) mod 256.

Lemma byte_field x k :
  0 <= k -> Z.land x (Z.shiftl 255 (8 * k)) = Z.shiftl (byte_at k x) (8 * k).
Proof.
  intros Hk. unfold byte_at. change 256 with (2 ^ 8).
  rewrite <- Z.land_ones by lia. change 255 with (Z.ones 8).
  apply Z.bits_inj'. intros i Hi.
  rewrite Z.land_spec, !Z.shiftl_spec, Z.land_spec by lia.
  destruct (Z.lt_ge_cases i (8 * k)).
  - by rewrite (Z.testbit_neg_r (Z.ones 8)), !andb_false_r by lia.
  - rewrite Z.shiftr_spec by lia. do 2 f_equal. lia.
Qed.

Lemma byte_at_range k x : 0 <= byte_at k x < 2 ^ 8.
Proof. unfold byte_at. by apply Z.mod_pos_bound. Qed.

(** Disjoint fields: or is addition. *)
Lemma lor_fields a b n : 0 <= n -> 0 <= a < 2 ^ n -> Z.lor a (Z.shiftl b n) = a + b * 2 ^ n.
Proof.
  intros Hn Ha. rewrite <- Z.shiftl_mul_pow2 by lia.
  pose proof (Z.add_lor_land a (Z.shiftl b n)).
  enough (Z.land a (Z.shiftl b n) = 0) by lia.
  apply Z.bits_inj'. intros i Hi. rewrite Z.land_spec, Z.shiftl_spec, Z.bits_0 by lia.
  destruct (Z.lt_ge_cases i n).
  - by rewrite (Z.testbit_neg_r b), andb_false_r by lia.
  - rewrite <- (Z.mod_small a (2 ^ n)), Z.mod_pow2_bits_high by lia. done.
Qed.

(** A word as the or of its shifted bytes. *)
Definition or_bytes (l : list Z) : Z := foldr (fun b acc => Z.lor b (Z.shiftl acc 8)) 0 l.

Lemma or_bytes_load l : Forall is_byte l -> or_bytes l = le_load l.
Proof.
  induction l as [|b l IH]; intros H; cbn [or_bytes foldr le_load]; [done|].
  apply Forall_cons in H as [Hb Hl]. change (foldr _ 0 l) with (or_bytes l).
  rewrite IH by done. unfold is_byte in Hb. rewrite lor_fields by (change (2 ^ 8) with 256; lia).
  change (2 ^ 8) with 256. lia.
Qed.

Lemma byte_at_is_byte k x : is_byte (byte_at k x).
Proof. unfold is_byte. pose proof (byte_at_range k x). lia. Qed.

Lemma byte_at_div k x : 0 <= k -> byte_at k x = (x / 2 ^ (8 * k)) mod 256.
Proof. intros. unfold byte_at. by rewrite Z.shiftr_div_pow2 by lia. Qed.

Lemma le_bytes_at n : forall k x, 0 <= k ->
  le_bytes n (x / 2 ^ (8 * k)) = map (fun i => byte_at (k + Z.of_nat i) x) (seq 0 n).
Proof.
  induction n as [|n IH]; intros k x Hk; [done|].
  cbn [le_bytes seq map]. f_equal; [rewrite byte_at_div by lia; f_equal; do 3 f_equal; lia|].
  change 256 with (2 ^ 8) at 1. rewrite Z.div_div by (apply Z.pow_pos_nonneg || apply Z.pow_nonzero; lia).
  rewrite <- Z.pow_add_r by lia. replace (8 * k + 8) with (8 * (k + 1)) by lia.
  rewrite IH by lia. rewrite <- seq_shift, map_map. apply map_ext. intros i. f_equal. lia.
Qed.

Lemma le_bytes_at0 n x : le_bytes n x = map (fun i => byte_at (Z.of_nat i) x) (seq 0 n).
Proof.
  pose proof (le_bytes_at n 0 x ltac:(lia)) as H. change (2 ^ (8 * 0)) with 1 in H.
  by rewrite Z.div_1_r in H.
Qed.

Ltac norm_shifts :=
  cbv [Z.of_nat Pos.of_succ_nat Pos.succ];
  repeat match goal with
  | |- context [Z.shiftl ?a ?c] =>
    let c' := eval vm_compute in c in progress change (Z.shiftl a c) with (Z.shiftl a c')
  end; rewrite ?Z.shiftl_0_r.

(** Both sides are ors of the same shifted bytes. *)
Ltac same_bytes :=
  rewrite !byte_field by lia; unfold or_bytes; cbn [foldr];
  rewrite ?Z.shiftl_0_l, ?Z.lor_0_r;
  rewrite ?Z.shiftr_shiftl_l, ?Z.shiftl_shiftl, ?Z.shiftl_lor by lia;
  rewrite ?Z.shiftl_shiftl by lia; norm_shifts;
  apply Z.bits_inj'; intros i Hi; rewrite ?Z.lor_spec; btauto.

Lemma u_or_bytes w l :
  Forall is_byte l -> w = 8 * zlen l -> wrap_u w (or_bytes l) = le_load l.
Proof.
  intros H ->. rewrite or_bytes_load by done. apply wrap_u_small.
  pose proof (le_load_range l H). rewrite Z.pow_mul_r by (pose proof (zlen_nonneg l); lia).
  done.
Qed.

Lemma bswap_16_spec x : bswap_16 x = le_load (be_bytes 2 x).
Proof.
  unfold bswap_16, be_bytes. rewrite le_bytes_at0. cbn [seq map rev app].
  rewrite <- (u_or_bytes 16) by (forall_lia; apply byte_at_is_byte). f_equal.
  change 0xff with (Z.shiftl 255 (8 * 0)). change 0xff00 with (Z.shiftl 255 (8 * 1)).
  same_bytes.
Qed.

Lemma bswap_32_spec x : bswap_32 x = le_load (be_bytes 4 x).
Proof.
  unfold bswap_32, be_bytes. rewrite le_bytes_at0. cbn [seq map rev app].
  rewrite <- (u_or_bytes 32) by (forall_lia; apply byte_at_is_byte). f_equal.
  change 0xff with (Z.shiftl 255 (8 * 0)). change 0xff00 with (Z.shiftl 255 (8 * 1)).
  change 0xff0000 with (Z.shiftl 255 (8 * 2)). change 0xff000000 with (Z.shiftl 255 (8 * 3)).
  same_bytes.
Qed.

Lemma bswap_64_spec x : bswap_64 x = le_load (be_bytes 8 x).
Proof.
  unfold bswap_64, be_bytes. rewrite le_bytes_at0. cbn [seq map rev app].
  rewrite <- (u_or_bytes 64) by (forall_lia; apply byte_at_is_byte). f_equal.
  change 0xff with (Z.shiftl 255 (8 * 0)). change 0xff00 with (Z.shiftl 255 (8 * 1)).
  change 0xff0000 with (Z.shiftl 255 (8 * 2)). change 0xff000000 with (Z.shiftl 255 (8 * 3)).
  change 0xff00000000 with (Z.shiftl 255 (8 * 4)).
  change 0xff0000000000 with (Z.shiftl 255 (8 * 5)).
  change 0xff000000000000 with (Z.shiftl 255 (8 * 6)).
  change 0xff00000000000000 with (Z.shiftl 255 (8 * 7)).
  same_bytes.
Qed.

(** *** The protocol word *)

Lemma wrap_u_s w z : 0 < w -> wrap_u w (wrap_s w z) = wrap_u w z.
Proof.
  intros Hw. unfold wrap_u, wrap_s.
  rewrite Zminus_mod_idemp_l. f_equal. lia.
Qed.

Lemma wrap_s_mul_add w z k : 0 < w -> wrap_s w (z + 2 ^ w * k) = wrap_s w z.
Proof.
  intros Hw. unfold wrap_s. f_equal.
  replace (z + 2 ^ w * k + 2 ^ (w - 1)) with (z + 2 ^ (w - 1) + k * 2 ^ w) by lia.
  apply Z.mod_add, Z.pow_nonzero; lia.
Qed.

Lemma proto_word_range p : 0 <= proto_word p < 4294967296.
Proof.
  unfold proto_word.
  pose proof (wrap_u_range 16 (p_category p) ltac:(lia)).
  pose proof (wrap_u_range 3 (p_type p) ltac:(lia)).
  pose proof (wrap_u_range 3 (p_c_crypt p) ltac:(lia)).
  pose proof (wrap_u_range 3 (p_c_compress p) ltac:(lia)).
  pose proof (wrap_u_range 3 (p_s_crypt p) ltac:(lia)).
  pose proof (wrap_u_range 3 (p_s_compress p) ltac:(lia)).
  pose proof (wrap_u_range 1 (p_serverd p) ltac:(lia)).
  cbn [Z.pow Z.pow_pos Pos.iter Z.mul] in *. lia.
Qed.

Lemma proto_word_word w : is_u32 w -> proto_word (word_proto w) = w.
Proof.
  intros Hw. unfold proto_word, word_proto, is_u32 in *; cbn.
  rewrite !wrap_u_s, wrap_u_wrap_u by lia. unfold wrap_u.
  change (2 ^ 16) with 65536. change (2 ^ 3) with 8. change (2 ^ 1) with 2.
  change (2 ^ 19) with 524288. change (2 ^ 22) with 4194304.
  change (2 ^ 25) with 33554432. change (2 ^ 28) with 268435456.
  change (2 ^ 31) with 2147483648.
  Z.div_mod_to_equations. lia.
Qed.

(** The field above [n] low bits. *)
Lemma field_div a n k : 0 <= n -> 0 <= a < 2 ^ n -> (a + 2 ^ n * k) / 2 ^ n = k.
Proof.
  intros Hn Ha. rewrite (Z.mul_comm (2 ^ n)), Z.div_add, Z.div_small by lia. lia.
Qed.

Lemma word_proto_word p : proto_ok p -> word_proto (proto_word p) = p.
Proof.
  intros [Hc Ht H1 H2 H3 H4 Hs]. unfold word_proto, proto_word.
  assert (forall x n m, 0 <= n -> 0 <= m -> x / 2 ^ (n + m) = x / 2 ^ n / 2 ^ m) as D.
  { intros x n m Hn Hm. rewrite Z.pow_add_r by lia.
    rewrite Z.div_div; [done|apply Z.pow_nonzero; lia|apply Z.pow_pos_nonneg; lia]. }
  change 19 with (16 + 3). change 22 with (16 + 3 + 3). change 25 with (16 + 3 + 3 + 3).
  change 28 with (16 + 3 + 3 + 3 + 3). change 31 with (16 + 3 + 3 + 3 + 3 + 3).
  rewrite !D by lia. rewrite !field_div by (try apply wrap_u_range; lia).
  rewrite !wrap_s_mul_add, !wrap_s_wrap_u by lia.
  rewrite !wrap_s_small by (cbn; lia).
  unfold wrap_u. rewrite (Z.mul_comm (2 ^ 16)), Z.mod_add, Z.mod_mod by done.
  rewrite Z.mod_small by (unfold is_u16 in Hc; cbn; lia). by destruct p.
Qed.

(** *** The header on the wire *)

Lemma zlen_le_bytes n z : zlen (le_bytes n z) = Z.of_nat n.
Proof. unfold zlen. by rewrite length_le_bytes. Qed.

Lemma zlen_be_bytes n z : zlen (be_bytes n z) = Z.of_nat n.
Proof. unfold zlen, be_bytes. by rewrite length_rev, length_le_bytes. Qed.

Lemma be_bytes_is_byte n z : Forall is_byte (be_bytes n z).
Proof. unfold be_bytes. apply Forall_rev, le_bytes_is_byte. Qed.

Lemma le_bytes_mod n z : le_bytes n (z mod 256 ^ Z.of_nat n) = le_bytes n z.
Proof.
  rewrite <- le_load_bytes. pose proof (le_bytes_load (le_bytes n z) (le_bytes_is_byte n z)) as H.
  by rewrite length_le_bytes in H.
Qed.

Lemma le_bytes_swap n z : le_bytes n (le_load (be_bytes n z)) = be_bytes n z.
Proof.
  pose proof (le_bytes_load (be_bytes n z) (be_bytes_is_byte n z)) as H.
  unfold be_bytes in H at 1. by rewrite length_rev, length_le_bytes in H.
Qed.

Lemma be_load_swap n z : le_load (be_bytes n (le_load (be_bytes n z))) = z mod 256 ^ Z.of_nat n.
Proof. unfold be_bytes at 1. by rewrite le_bytes_swap, <- le_load_bytes; unfold be_bytes; rewrite rev_involutive. Qed.

Lemma bswap_32_involutive x : bswap_32 (bswap_32 x) = u32 x.
Proof. by rewrite !bswap_32_spec, be_load_swap. Qed.

Lemma bswap_16_involutive x : bswap_16 (bswap_16 x) = u16 x.
Proof. by rewrite !bswap_16_spec, be_load_swap. Qed.

Lemma bswap_32_u x : u32 (bswap_32 x) = bswap_32 x.
Proof. unfold bswap_32. by rewrite wrap_u_wrap_u. Qed.

Lemma bswap_16_u x : u16 (bswap_16 x) = bswap_16 x.
Proof. unfold bswap_16. by rewrite wrap_u_wrap_u. Qed.

Lemma be_bytes_mod n z : be_bytes n (z mod 256 ^ Z.of_nat n) = be_bytes n z.
Proof. unfold be_bytes. by rewrite le_bytes_mod. Qed.

(** A 32-bit size written in network order. *)
Lemma size_wire z : le_bytes 4 (u32 (i32 (htonl z))) = be_bytes 4 (u32 z).
Proof.
  rewrite wrap_u_s by lia. unfold htonl.
  rewrite bswap_32_u, bswap_32_spec. by rewrite le_bytes_swap.
Qed.

Lemma size_unwire z : i32 (ntohl (i32 (le_load (be_bytes 4 (u32 z))))) = i32 z.
Proof.
  unfold ntohl. rewrite wrap_u_s, <- bswap_32_spec, bswap_32_u, bswap_32_involutive by lia.
  by rewrite wrap_u_wrap_u, wrap_s_wrap_u by lia.
Qed.

Lemma wire_bytes s : shell_mem (shell_hton s) = shell_wire s.
Proof.
  unfold shell_mem, shell_wire, shell_hton; cbn [s_magic s_proto s_shell_size s_decrypt_size s_pack_size].
  rewrite !size_wire. f_equal; [|f_equal].
  - unfold htons. rewrite bswap_16_spec, le_bytes_swap. apply (be_bytes_mod 2).
  - unfold htonl. rewrite proto_word_word.
    + rewrite bswap_32_spec, le_bytes_swap. apply (be_bytes_mod 4).
    + rewrite <- bswap_32_u. apply wrap_u_range. lia.
Qed.

Lemma zlen_shell_wire s : zlen (shell_wire s) = sizeof_ep_shell.
Proof. unfold shell_wire. rewrite !zlen_app, !zlen_be_bytes. done. Qed.

Lemma list_of_2 (l : list Z) : zlen l = 2 -> exists x y, l = [x; y].
Proof.
  unfold zlen. destruct l as [|x [|y [|z l]]]; cbn [length]; intros H; try lia; eauto.
Qed.

Lemma list_of_4 (l : list Z) : zlen l = 4 -> exists x y z w, l = [x; y; z; w].
Proof.
  unfold zlen. destruct l as [|x [|y [|z [|w [|v l]]]]]; cbn [length]; intros H; try lia; eauto 10.
Qed.

(** Reading the fields of five concatenated objects. *)
Lemma mem_shell_app a b c d e :
  zlen a = 2 -> zlen b = 4 -> zlen c = 4 -> zlen d = 4 -> zlen e = 4 ->
  mem_shell (a ++ b ++ c ++ d ++ e) =
    mk_shell (le_load a) (word_proto (le_load b)) (i32 (le_load c)) (i32 (le_load d))
      (i32 (le_load e)).
Proof.
  intros Ha Hb Hc Hd He.
  destruct (list_of_2 a Ha) as (a0 & a1 & ->).
  destruct (list_of_4 b Hb) as (b0 & b1 & b2 & b3 & ->).
  destruct (list_of_4 c Hc) as (c0 & c1 & c2 & c3 & ->).
  destruct (list_of_4 d Hd) as (d0 & d1 & d2 & d3 & ->).
  destruct (list_of_4 e He) as (e0 & e1 & e2 & e3 & ->).
  reflexivity.
Qed.

Lemma mem_shell_split (m : list Z) :
  zlen m = sizeof_ep_shell ->
  exists a b c d e, m = a ++ b ++ c ++ d ++ e /\
    zlen a = 2 /\ zlen b = 4 /\ zlen c = 4 /\ zlen d = 4 /\ zlen e = 4.
Proof.
  unfold sizeof_ep_shell. intros H.
  exists (ztake 2 m), (ztake 4 (zdrop 2 m)), (ztake 4 (zdrop 6 m)), (ztake 4 (zdrop 10 m)),
    (zdrop 14 m).
  split; [|rewrite !zlen_ztake, !zlen_zdrop by lia; lia].
  assert (zdrop 4 (zdrop 10 m) = zdrop 14 m) as E14 by by rewrite zdrop_zdrop.
  assert (zdrop 4 (zdrop 6 m) = zdrop 10 m) as E10 by by rewrite zdrop_zdrop.
  assert (zdrop 4 (zdrop 2 m) = zdrop 6 m) as E6 by by rewrite zdrop_zdrop.
  rewrite <- E14, ztake_zdrop, <- E10, ztake_zdrop, <- E6, ztake_zdrop.
  by rewrite ztake_zdrop.
Qed.

Lemma load_be n l : Forall is_byte l -> length l = n -> be_bytes n (le_load (rev l)) = l.
Proof.
  intros Hl <-. unfold be_bytes. rewrite <- (length_rev l).
  rewrite le_bytes_load by by apply Forall_rev. apply rev_involutive.
Qed.

Lemma bswap_load_32 l :
  Forall is_byte l -> zlen l = 4 -> bswap_32 (le_load l) = le_load (rev l).
Proof.
  intros Hl Hn. rewrite bswap_32_spec. unfold be_bytes. do 2 f_equal.
  assert (length l = 4%nat) as <- by (unfold zlen in Hn; lia). by apply le_bytes_load.
Qed.

Lemma bswap_load_16 l :
  Forall is_byte l -> zlen l = 2 -> bswap_16 (le_load l) = le_load (rev l).
Proof.
  intros Hl Hn. rewrite bswap_16_spec. unfold be_bytes. do 2 f_equal.
  assert (length l = 2%nat) as <- by (unfold zlen in Hn; lia). by apply le_bytes_load.
Qed.

Lemma size_rewire l :
  Forall is_byte l -> zlen l = 4 -> be_bytes 4 (u32 (i32 (ntohl (i32 (le_load l))))) = l.
Proof.
  intros Hl Hn. rewrite wrap_u_s by lia. unfold ntohl. rewrite bswap_32_u, wrap_u_s by lia.
  assert (u32 (le_load l) = le_load l) as ->.
  { apply wrap_u_small. pose proof (le_load_range l Hl) as R. by rewrite Hn in R. }
  rewrite bswap_load_32 by done. apply load_be; [done|]. unfold zlen in Hn. lia.
Qed.

Lemma shell_rt (s : ep_shell) :
  shell_ok s ->
  shell_mem (shell_hton s) = shell_wire s /\
  zlen (shell_wire s) = sizeof_ep_shell /\
  shell_ntoh (mem_shell (shell_wire s)) = s.
Proof.
  intros [Hm Hp H1 H2 H3]. split; [apply wire_bytes|]. split; [apply zlen_shell_wire|].
  unfold shell_wire. rewrite mem_shell_app by apply zlen_be_bytes.
  unfold shell_ntoh; cbn [s_magic s_proto s_shell_size s_decrypt_size s_pack_size].
  rewrite !size_unwire, !i32_id by done.
  unfold ntohs, ntohl. rewrite <- bswap_16_spec, bswap_16_u, bswap_16_involutive.
  rewrite wrap_u_small by done. rewrite <- bswap_32_spec.
  rewrite (proto_word_word (bswap_32 _)) by (rewrite <- bswap_32_u; apply wrap_u_range; lia).
  rewrite bswap_32_u, bswap_32_involutive, wrap_u_small by apply proto_word_range.
  rewrite word_proto_word by done. by destruct s.
Qed.

(** ** Properties *)

(** The header that a sender converts in place and copies out is, byte for byte, the five
    fields in network order, and a receiver that copies it back in and converts it finds the
    header the sender started from. *)
Theorem shell_roundtrip (s : ep_shell) :
  shell_ok s ->
  shell_mem (shell_hton s) = shell_wire s /\
  zlen (shell_wire s) = sizeof_ep_shell /\
  shell_ntoh (mem_shell (shell_wire s)) = s.
Proof. apply shell_rt. Qed.

Lemma shell_roundtrip_witness :
  shell_mem (shell_hton (mk_shell EP_MAGIC_NUMBER (mk_proto 7 0 1 2 1 2 0) 48 40 40)) =
    [144; 135; 34; 136; 0; 7; 0; 0; 0; 48; 0; 0; 0; 40; 0; 0; 0; 40] /\
  zlen [144; 135; 34; 136; 0; 7; 0; 0; 0; 48; 0; 0; 0; 40; 0; 0; 0; 40] = 18 /\
  shell_ntoh (mem_shell [144; 135; 34; 136; 0; 7; 0; 0; 0; 48; 0; 0; 0; 40; 0; 0; 0; 40]) =
    mk_shell EP_MAGIC_NUMBER (mk_proto 7 0 1 2 1 2 0) 48 40 40.
Proof.
  apply (shell_roundtrip (mk_shell EP_MAGIC_NUMBER (mk_proto 7 0 1 2 1 2 0) 48 40 40)).
  constructor; [|constructor| | |]; cbn; unfold is_u16, is_i32, EP_MAGIC_NUMBER; lia.
Defined.

(** Every 18 bytes are the wire form of exactly the header the receiver reads from them, so
    no two byte strings mean the same header and no header field is ambiguous. *)
Theorem shell_wire_complete (m : list Z) :
  zlen m = sizeof_ep_shell -> Forall is_byte m ->
  shell_wire (shell_ntoh (mem_shell m)) = m.
Proof.
  intros Hl Hb. destruct (mem_shell_split m Hl) as (a & b & c & d & e & -> & La & Lb & Lc & Ld & Le).
  rewrite !Forall_app in Hb. destruct Hb as (Ba & Bb & Bc & Bd & Be).
  rewrite mem_shell_app by done. unfold shell_wire, shell_ntoh.
  cbn [s_magic s_proto s_shell_size s_decrypt_size s_pack_size]. rewrite !size_rewire by done.
  f_equal; [|f_equal].
  - unfold ntohs. rewrite wrap_u_small by (pose proof (le_load_range a Ba) as R; by rewrite La in R).
    rewrite bswap_load_16 by done. apply load_be; [done|]. unfold zlen in La. lia.
  - pose proof (le_load_range b Bb) as R. rewrite Lb in R.
    rewrite (proto_word_word (le_load b)) by done.
    unfold ntohl. rewrite wrap_u_small by done.
    rewrite proto_word_word by (rewrite <- bswap_32_u; apply wrap_u_range; lia).
    rewrite bswap_load_32 by done. apply load_be; [done|]. unfold zlen in Lb. lia.
Qed.

Lemma shell_wire_complete_witness :
  shell_wire (shell_ntoh (mem_shell [144; 135; 34; 136; 0; 7; 0; 0; 0; 48; 255; 0; 0; 40; 0; 0; 0; 40]))
  = [144; 135; 34; 136; 0; 7; 0; 0; 0; 48; 255; 0; 0; 40; 0; 0; 0; 40].
Proof. apply shell_wire_complete; [reflexivity|]. unfold is_byte. forall_lia. Defined.

(** The byte-order functions reverse the bytes of their argument, and applying them twice
    gives the argument back, at each width. *)
Theorem bswap_reverses (x : Z) :
  bswap_16 x = le_load (rev (le_bytes 2 x)) /\ bswap_16 (bswap_16 x) = u16 x /\
  bswap_32 x = le_load (rev (le_bytes 4 x)) /\ bswap_32 (bswap_32 x) = u32 x /\
  htonll x = le_load (rev (le_bytes 8 x)) /\ ntohll (htonll x) = u64 x.
Proof.
  split; [apply bswap_16_spec|]. split; [apply bswap_16_involutive|].
  split; [apply bswap_32_spec|]. split; [apply bswap_32_involutive|].
  split; [apply bswap_64_spec|]. unfold ntohll, htonll. by rewrite !bswap_64_spec, be_load_swap.
Qed.

End Words.
