(* ===== verification/Buffer.v ===== *)
(** * Buffer: bodies on their way to and from the wire

    Models src/native/eventpack/src/ep_buffer.c, ep_compress.c and the AES routine of
    ep_crypt.c. An [ep_buffer] owns a [chunk] of [capacity] bytes of which [used] are the body.
    The block cipher and the compressor are vendored (openssl, bzip2): they are the operations
    of the class [Codec], and [CodecLaws] states what their manuals promise. A function that
    returns NULL after freeing its argument gives [None]. *)
From S2P Require Import Prelude Alloc.
Import Alloc.

Module Buffer.

Record ep_buffer := mk_buffer {
  buf_chunk : list Z;
  buf_capacity : Z;
  buf_used : Z;
}.

Record ep_aes_key := mk_aes { aes_key : list Z; aes_vec : list Z }.

(** The vendored operations. [aes_cbc enc key vec data] is AES_cbc_encrypt on whole blocks: the
    output and the vector it leaves. [bz_compress src cap] and [bz_decompress src cap] are
    BZ2_bzBuffToBuffCompress and BZ2_bzBuffToBuffDecompress with [cap] bytes of room; [None] is
    a return code other than BZ_OK. *)
Class Codec := {
  aes_cbc : bool -> list Z -> list Z -> list Z -> list Z * list Z;
  bz_compress : list Z -> Z -> option (list Z);
  bz_decompress : list Z -> Z -> option (list Z);
}.

(** CBC mode keeps the length, and deciphering undoes enciphering block by block, whatever
    follows the enciphered blocks. bzip2 fits in 1% more than the input and 600 bytes, and
    decompression undoes compression when there is room for the original. *)
Class CodecLaws (C : Codec) : Prop := {
  aes_cbc_length : forall enc k v x,
    zlen x mod 16 = 0 -> zlen (aes_cbc enc k v x).1 = zlen x;
  aes_cbc_inverse : forall k v x rest,
    zlen x mod 16 = 0 -> zlen rest mod 16 = 0 ->
    ztake (zlen x) (aes_cbc false k v ((aes_cbc true k v x).1 ++ rest)).1 = x;
  bz_compress_fits : forall x cap,
    0 < zlen x -> zlen x * 101 / 100 + 600 <= cap ->
    exists c, bz_compress x cap = Some c /\ 0 < zlen c <= zlen x * 101 / 100 + 600;
  bz_inverse : forall x cap c cap',
    bz_compress x cap = Some c -> zlen x <= cap' -> bz_decompress c cap' = Some x;
}.

Definition AES_BLOCK_SIZE : Z := 16.
Definition sizeof_ep_buffer : Z := 16.

Definition ep_buffer_new (al : alloc) (src : list Z) (size : Z)
  : res (option ep_buffer * alloc) :=
  let '(ok, al) := ep_calloc al 1 sizeof_ep_buffer in
  if negb ok then Ok (None, al) else
  let capacity := ep_align_size size 16 in
  let '(ok, al) := ep_malloc al capacity in
  if negb ok then Ok (None, al) else
  chunk ← memcpy (junk capacity) 0 src size;
  Ok (Some (mk_buffer chunk capacity size), al).

Definition ep_buffer_ptr (b : ep_buffer) : list Z := buf_chunk b.
Definition ep_buffer_size (b : ep_buffer) : Z := buf_used b.

Definition ep_buffer_clone (al : alloc) (b : ep_buffer) : res (option ep_buffer * alloc) :=
  ep_buffer_new al (ep_buffer_ptr b) (ep_buffer_size b).

(** [ep_buffer_free(&b)]: the pointer becomes NULL; the second component counts the objects
    handed back to the allocator (the chunk and the struct). *)
Definition ep_buffer_free (b : option ep_buffer) : option ep_buffer * nat :=
  match b with None => (None, 0%nat) | Some _ => (None, 2%nat) end.

(** [ep_buffer_free_shell(&b, &p)]: only the struct is freed, the chunk goes to the caller. *)
Definition ep_buffer_free_shell (b : option ep_buffer) : option ep_buffer * option (list Z) * nat :=
  match b with None => (None, None, 0%nat) | Some b => (None, Some (buf_chunk b), 1%nat) end.

Section ops.
Context `{C : Codec}.

(** The bytes of the cipher's output: [in_size + 1] rounded up to whole blocks. *)
Definition aes_len (in_size : Z) : res Z :=
  n ← c_int (in_size + 1);
  r ← c_rem n AES_BLOCK_SIZE;
  if r =? 0 then Ok n else c_int ((Z.quot n AES_BLOCK_SIZE + 1) * AES_BLOCK_SIZE).

(** [mem] is the memory from [in] on that can be read: the object and what follows it. *)
Definition ep_crypt_aes (al : alloc) (mem : list Z) (in_size : Z) (aes : ep_aes_key) (enc : bool)
  : res (option (list Z) * Z * ep_aes_key * alloc) :=
  len ← aes_len in_size;
  let '(ok, al) := ep_malloc al len in
  if negb ok then Ok (None, 0, aes, al) else
  src ← slice mem 0 len;
  let '(out, vec) := aes_cbc enc (aes_key aes) (aes_vec aes) src in
  Ok (Some out, len, mk_aes (aes_key aes) vec, al).

(** [beyond]: the readable bytes that follow the chunk in memory. *)
Definition ep_buffer_encrypt (al : alloc) (beyond : list Z) (b : ep_buffer) (aes : ep_aes_key)
  : res (option ep_buffer * ep_aes_key * alloc) :=
  '(crypt, mem_size, aes, al) ← ep_crypt_aes al (buf_chunk b ++ beyond) (buf_used b) aes true;
  match crypt with
  | Some c => Ok (Some (mk_buffer c mem_size mem_size), aes, al)
  | None => Ok (None, aes, al)
  end.

Definition ep_buffer_decrypt (al : alloc) (beyond : list Z) (b : ep_buffer) (aes : ep_aes_key)
    (orignal_size : Z) : res (option ep_buffer * ep_aes_key * alloc) :=
  '(crypt, mem_size, aes, al) ← ep_crypt_aes al (buf_chunk b ++ beyond) (buf_used b) aes false;
  match crypt with
  | Some c => Ok (Some (mk_buffer c mem_size orignal_size), aes, al)
  | None => Ok (None, aes, al)
  end.

(** [(unsigned int)(src_len * 1.01) + 600], rounded up to 16. The product in double precision
    truncates to the quotient below for every 32-bit [src_len]. *)
Definition compress_room (src_len : Z) : Z :=
  u32 (ep_align_size (u32 (src_len * 101 / 100 + 600)) 16).

(** The destination, its size and the compressed length. A return code other than BZ_OK is
    only asserted on: the length then stays the size of the destination. *)
Definition ep_compress (al : alloc) (src : list Z) (src_len : Z)
  : res (option (list Z * Z * Z) * alloc) :=
  let alloced := compress_room src_len in
  let '(ok, al) := ep_malloc al (i32 alloced) in
  if negb ok then Ok (None, al) else
  src ← slice src 0 src_len;
  match bz_compress src alloced with
  | Some out => dest ← memcpy (junk alloced) 0 out (zlen out);
                Ok (Some (dest, alloced, zlen out), al)
  | None => Ok (Some (junk alloced, alloced, alloced), al)
  end.

Definition ep_decompress (al : alloc) (src : list Z) (src_len dest_len : Z)
  : res (option (list Z) * alloc) :=
  let room := u32 (ep_align_size dest_len 16) in
  let '(ok, al) := ep_malloc al (i32 room) in
  if negb ok then Ok (None, al) else
  src ← slice src 0 src_len;
  match bz_decompress src dest_len with
  | Some out =>
    if negb (dest_len =? zlen out) then Ok (None, al) else
    dest ← memcpy (junk room) 0 out (zlen out);
    Ok (Some dest, al)
  | None => Ok (None, al)
  end.

Definition ep_buffer_compress (al : alloc) (b : ep_buffer) : res (option ep_buffer * alloc) :=
  '(r, al) ← ep_compress al (buf_chunk b) (u32 (buf_used b));
  match r with
  | Some (dest, alloced, size) => Ok (Some (mk_buffer dest (i32 alloced) (i32 size)), al)
  | None => Ok (None, al)
  end.

Definition ep_buffer_decompress (al : alloc) (b : ep_buffer) (orignal_size : Z)
  : res (option ep_buffer * alloc) :=
  '(r, al) ← ep_decompress al (buf_chunk b) (u32 (buf_used b)) (u32 orignal_size);
  match r with
  | Some dest => Ok (Some (mk_buffer dest orignal_size orignal_size), al)
  | None => Ok (None, al)
  end.

End ops.

(** ** The body a buffer stands for, and its invariant

    The chunk may be longer than [capacity] says (a decompressed body is in a chunk rounded up
    to 16), never shorter than [used]. *)

Definition buf_data (b : ep_buffer) : list Z := ztake (buf_used b) (buf_chunk b).

Definition BODY_MAX : Z := 536870911.

Record buf_inv (b : ep_buffer) : Prop := {
  bi_used : 0 < buf_used b <= zlen (buf_chunk b);
  bi_small : buf_used b <= BODY_MAX;
}.

(** ** Lemmas *)

Lemma buf_data_len b : buf_inv b -> zlen (buf_data b) = buf_used b.
Proof. intros [? _]. unfold buf_data. rewrite zlen_ztake by lia. lia. Qed.

Lemma align16_pos n : 0 < n -> 0 < ep_align_size n 16.
Proof. intros. pose proof (align16_spec n). lia. Qed.

Lemma buffer_new_spec src size :
  0 < size <= zlen src -> size <= BODY_MAX ->
  exists b, ep_buffer_new [] src size = Ok (Some b, []) /\ buf_inv b /\
    buf_used b = size /\ buf_data b = ztake size src /\
    zlen (buf_chunk b) = ep_align_size size 16.
Proof.
  intros Hs Hm. unfold ep_buffer_new.
  rewrite ep_calloc_plenty by (unfold sizeof_ep_buffer; lia). cbn [negb].
  pose proof (align16_spec size) as [? _].
  rewrite ep_malloc_plenty by lia. cbn [negb].
  assert (zlen (junk (ep_align_size size 16)) = ep_align_size size 16) as Lj
    by (apply zlen_junk; lia).
  rewrite memcpy_ok by lia. cbn [mbind res_bind].
  assert (zlen (ztake size src) = size) as Lt by (rewrite zlen_ztake by lia; lia).
  assert (zlen (splice (junk (ep_align_size size 16)) 0 (ztake size src))
          = ep_align_size size 16) as Ls by (rewrite zlen_splice by lia; lia).
  eexists. split; [done|]. split; [constructor; cbn; lia|]. split; [done|].
  split; [|cbn; exact Ls]. unfold buf_data. cbn. apply ztake_splice_0; lia.
Qed.

Lemma aes_len_spec n : 0 <= n <= INT_MAX - 32 ->
  exists len, aes_len n = Ok len /\ n < len <= n + 16 /\ len mod 16 = 0.
Proof.
  unfold INT_MAX. intros Hn. unfold aes_len, AES_BLOCK_SIZE.
  rewrite c_int_ok by (unfold is_i32; lia). cbn [mbind res_bind].
  rewrite c_rem_nonneg by lia. cbn [mbind res_bind].
  pose proof (Z.div_mod (n + 1) 16 ltac:(lia)) as E.
  pose proof (Z.mod_pos_bound (n + 1) 16 ltac:(lia)).
  case_zbool.
  - exists (n + 1). split; [done|]. lia.
  - rewrite Z.quot_div_nonneg by lia.
    rewrite c_int_ok by (unfold is_i32; lia).
    eexists. split; [done|]. split; [lia|]. apply Z.mod_mul. lia.
Qed.

(** A length already in whole blocks gets one block more. *)
Lemma aes_len_blocks n : 0 <= n <= INT_MAX - 32 -> n mod 16 = 0 -> aes_len n = Ok (n + 16).
Proof.
  intros Hn Hm. destruct (aes_len_spec n Hn) as (len & E & Hl & Hlm). rewrite E. f_equal.
  pose proof (Z.div_mod n 16 ltac:(lia)). pose proof (Z.div_mod len 16 ltac:(lia)). lia.
Qed.

Section laws.
Context `{CL : CodecLaws}.
#[local] Set Default Proof Using "CL".

Lemma crypt_aes_spec mem n aes enc len :
  aes_len n = Ok len -> 0 < len <= zlen mem ->
  ep_crypt_aes [] mem n aes enc =
    let r := aes_cbc enc (aes_key aes) (aes_vec aes) (ztake len mem) in
    Ok (Some r.1, len, mk_aes (aes_key aes) r.2, []).
Proof.
  intros E Hl. unfold ep_crypt_aes. rewrite E. cbn [mbind res_bind].
  rewrite ep_malloc_plenty by lia. cbn [negb].
  rewrite slice_ok by lia. cbn [mbind res_bind]. rewrite zdrop_0.
  by destruct (aes_cbc _ _ _ _).
Qed.

Lemma encrypt_spec beyond b aes :
  buf_inv b -> 16 <= zlen beyond ->
  exists pad aes',
    let plain := buf_data b ++ pad in
    let c := (aes_cbc true (aes_key aes) (aes_vec aes) plain).1 in
    ep_buffer_encrypt [] beyond b aes = Ok (Some (mk_buffer c (zlen c) (zlen c)), aes', []) /\
    zlen c = zlen plain /\ zlen c mod 16 = 0 /\ 0 < zlen pad <= 16.
Proof.
  intros I Hb. pose proof I as [Hu Hm].
  destruct (aes_len_spec (buf_used b)) as (len & E & Hl & Hmod);
    [unfold INT_MAX, BODY_MAX in *; lia|].
  set (mem := buf_chunk b ++ beyond).
  assert (zlen mem = zlen (buf_chunk b) + zlen beyond) as Lm by (unfold mem; by rewrite zlen_app).
  assert (ztake (buf_used b) mem = buf_data b) as Ed.
  { unfold mem, buf_data, ztake. rewrite take_app_le; [done|]. unfold zlen in *. lia. }
  exists (zdrop (buf_used b) (ztake len mem)).
  eexists. cbn zeta.
  assert (buf_data b ++ zdrop (buf_used b) (ztake len mem) = ztake len mem) as Ep.
  { rewrite <- Ed. replace (ztake (buf_used b) mem) with (ztake (buf_used b) (ztake len mem)).
    - apply ztake_zdrop.
    - unfold ztake. rewrite take_take. f_equal. lia. }
  rewrite Ep.
  assert (zlen (ztake len mem) = len) as Lt by (rewrite zlen_ztake by lia; lia).
  assert (zlen (aes_cbc true (aes_key aes) (aes_vec aes) (ztake len mem)).1 = len) as Lc
    by (rewrite aes_cbc_length; by rewrite Lt).
  split; [|split; [by rewrite Lc|split; [by rewrite Lc|]]].
  - unfold ep_buffer_encrypt. fold mem. rewrite (crypt_aes_spec _ _ _ _ len E) by lia.
    cbn [mbind res_bind fst snd]. rewrite Lc. done.
  - rewrite zlen_zdrop, Lt by lia. lia.
Qed.

Lemma decrypt_spec beyond b aes plain n :
  buf_inv b -> 16 <= zlen beyond ->
  zlen plain mod 16 = 0 -> buf_used b = zlen plain ->
  buf_data b = (aes_cbc true (aes_key aes) (aes_vec aes) plain).1 ->
  0 < n <= zlen plain -> n <= BODY_MAX ->
  exists b' aes', ep_buffer_decrypt [] beyond b aes n = Ok (Some b', aes', []) /\
    buf_inv b' /\ buf_used b' = n /\ buf_data b' = ztake n plain.
Proof.
  intros I Hb Hmod Hu Hd Hn Hsm. pose proof I as [Hc Hm].
  assert (aes_len (buf_used b) = Ok (buf_used b + 16)) as E
    by (apply aes_len_blocks; [unfold INT_MAX, BODY_MAX in *; lia | by rewrite Hu]).
  set (mem := buf_chunk b ++ beyond).
  assert (zlen mem = zlen (buf_chunk b) + zlen beyond) as Lm by (unfold mem; by rewrite zlen_app).
  unfold ep_buffer_decrypt. fold mem. rewrite (crypt_aes_spec _ _ _ _ _ E) by lia.
  cbn [mbind res_bind fst snd].
  set (rest := zdrop (buf_used b) (ztake (buf_used b + 16) mem)).
  assert (ztake (buf_used b + 16) mem = buf_data b ++ rest) as Em.
  { unfold rest, mem, buf_data. list_ext. }
  assert (zlen rest = 16) as Lr.
  { unfold rest. rewrite zlen_zdrop, zlen_ztake by lia. lia. }
  rewrite Em, Hd.
  pose proof (aes_cbc_inverse (aes_key aes) (aes_vec aes) plain rest Hmod
                ltac:(by rewrite Lr)) as Inv.
  set (out := (aes_cbc false _ _ _).1) in *.
  assert (zlen out = zlen plain + 16) as Lo.
  { unfold out. rewrite aes_cbc_length; rewrite zlen_app, aes_cbc_length, Lr by done; [done|].
    rewrite Z.add_mod, Hmod by lia. done. }
  eexists _, _. split; [done|]. split; [constructor; cbn; lia|]. split; [done|].
  unfold buf_data. cbn. rewrite <- Inv. unfold ztake. rewrite take_take. f_equal. lia.
Qed.

Lemma compress_room_spec n : 0 < n <= BODY_MAX ->
  n * 101 / 100 + 600 <= compress_room n <= n * 101 / 100 + 616 /\ n <= n * 101 / 100 /\ compress_room n <= 1073741824.
Proof.
  unfold BODY_MAX. intros Hn. unfold compress_room.
  assert (n <= n * 101 / 100 <= 542247741) as Hq.
  { split; [apply Z.div_le_lower_bound; lia|]. apply Z.lt_succ_r. apply Z.div_lt_upper_bound; lia. }
  rewrite (wrap_u_small 32 (_ + 600)) by lia.
  pose proof (align16_spec (n * 101 / 100 + 600)) as [? _].
  rewrite wrap_u_small by lia. lia.
Qed.

Lemma compress_spec b :
  buf_inv b -> buf_used b <= 268435455 ->
  exists c b', bz_compress (buf_data b) (compress_room (buf_used b)) = Some c /\
    ep_buffer_compress [] b = Ok (Some b', []) /\ buf_inv b' /\
    buf_data b' = c /\ buf_used b' = zlen c /\ zlen c <= 300000000.
Proof.
  intros I Hsm. pose proof I as [Hu Hm]. pose proof (buf_data_len b I) as Ld.
  pose proof (compress_room_spec (buf_used b) ltac:(lia)) as (Hr & Hq & Hr2).
  destruct (bz_compress_fits (buf_data b) (compress_room (buf_used b))) as (c & Ec & Hcl);
    [lia | rewrite Ld; lia |].
  unfold INT_MAX, BODY_MAX in *.
  unfold ep_buffer_compress, ep_compress. rewrite (wrap_u_small 32 (buf_used b)) by lia.
  assert (is_i32 (compress_room (buf_used b))) as R by (unfold is_i32; lia).
  rewrite (i32_id _ R), ep_malloc_plenty by lia. cbn [negb].
  rewrite slice_ok by lia. cbn [mbind res_bind]. rewrite zdrop_0.
  change (ztake (buf_used b) (buf_chunk b)) with (buf_data b). rewrite Ec.
  rewrite Ld in Hcl.
  assert (zlen (junk (compress_room (buf_used b))) = compress_room (buf_used b)) as Lj
    by (apply zlen_junk; lia).
  rewrite memcpy_ok by lia. cbn [mbind res_bind].
  rewrite (ztake_all (zlen c) c) by lia.
  assert (is_i32 (zlen c)) as Rc by (unfold is_i32; lia).
  assert (zlen (splice (junk (compress_room (buf_used b))) 0 c) = compress_room (buf_used b)) as Ls
    by (rewrite zlen_splice by lia; lia).
  exists c. eexists. split; [done|]. split; [done|].
  rewrite !(i32_id _ Rc).
  assert (zlen c <= 300000000) as Hb.
  { assert (buf_used b * 101 / 100 <= 271123870); [|lia].
    apply Z.lt_succ_r. apply Z.div_lt_upper_bound; lia. }
  split; [constructor; cbn; unfold BODY_MAX; lia|]. split; [|done].
  unfold buf_data. cbn. apply ztake_splice_0; lia.
Qed.

Lemma decompress_spec b x cap :
  buf_inv b -> bz_compress x cap = Some (buf_data b) ->
  0 < zlen x <= BODY_MAX ->
  exists b', ep_buffer_decompress [] b (zlen x) = Ok (Some b', []) /\ buf_inv b' /\
    buf_data b' = x /\ buf_used b' = zlen x.
Proof.
  intros I Ec Hx. pose proof I as [Hu Hm]. unfold INT_MAX, BODY_MAX in *.
  unfold ep_buffer_decompress, ep_decompress.
  rewrite (wrap_u_small 32 (buf_used b)), (wrap_u_small 32 (zlen x)) by lia.
  pose proof (align16_spec (zlen x)) as [Ha _].
  rewrite (wrap_u_small 32 (ep_align_size _ _)) by lia.
  rewrite i32_id by (unfold is_i32; lia). rewrite ep_malloc_plenty by lia. cbn [negb].
  rewrite slice_ok by lia. cbn [mbind res_bind]. rewrite zdrop_0.
  change (ztake (buf_used b) (buf_chunk b)) with (buf_data b).
  rewrite (bz_inverse _ _ _ (zlen x) Ec) by lia.
  rewrite Z.eqb_refl. cbn [negb].
  assert (zlen (junk (ep_align_size (zlen x) 16)) = ep_align_size (zlen x) 16) as Lj
    by (apply zlen_junk; lia).
  rewrite memcpy_ok by lia. cbn [mbind res_bind]. rewrite (ztake_all (zlen x) x) by lia.
  eexists. split; [done|]. split; [|split; [|done]].
  - constructor; cbn; rewrite ?zlen_splice by lia; unfold BODY_MAX; lia.
  - unfold buf_data. cbn. apply ztake_splice_0; lia.
Qed.

End laws.

(** ** A concrete codec

    A cipher that adds the first byte of the key to every byte without carry, and a compressor
    that stores its input behind a tag: small enough to evaluate, and a model of the laws. *)

Definition toy_codec : Codec := {|
  aes_cbc := fun _ k v x => (Z.lxor (hd 0 k) <$> x, v);
  bz_compress := fun x cap => if zlen x + 1 <=? cap then Some (66 :: x) else None;
  bz_decompress := fun x cap =>
    match x with
    | 66 :: y => if zlen y <=? cap then Some y else None
    | _ => None
    end;
|}.

Lemma zlen_fmap {A B} (f : A -> B) l : zlen (f <$> l) = zlen l.
Proof. unfold zlen. by rewrite length_fmap. Qed.

Lemma lxor_map_involutive k (l : list Z) : Z.lxor k <$> (Z.lxor k <$> l) = l.
Proof.
  rewrite <- list_fmap_compose. rewrite <- (list_fmap_id l) at 2. apply list_fmap_ext.
  intros _ z _. cbn. by rewrite <- Z.lxor_assoc, Z.lxor_nilpotent, Z.lxor_0_l.
Qed.

#[export] Instance toy_laws : CodecLaws toy_codec.
Proof.
  constructor; cbn.
  - intros. apply zlen_fmap.
  - intros k v x rest _ _. rewrite fmap_app, lxor_map_involutive. by apply ztake_app_l.
  - intros x cap H Hc. exists (66 :: x).
    assert (zlen x <= zlen x * 101 / 100) by (apply Z.div_le_lower_bound; lia).
    case_zbool. rewrite zlen_cons. split; [done|lia].
  - intros x cap c cap'. case_zbool; [|done]. intros [= <-] Hl. case_zbool; done.
Qed.

(** ** Properties *)

(** C32: The decryption of a received body reads 16 bytes past the end of its chunk: a body that
    arrives in whole cipher blocks fills its chunk, and ep_crypt_aes rounds its length plus one
    up to the next block. With nothing readable behind the chunk the read is out of bounds. *)
Theorem decrypt_overreads `{C : Codec} (src : list Z) (size n : Z) (b : ep_buffer) (aes : ep_aes_key) :
  0 < size <= zlen src -> size <= BODY_MAX -> size mod 16 = 0 ->
  ep_buffer_new [] src size = Ok (Some b, []) ->
  ep_buffer_decrypt [] [] b aes n = Fault OutOfBounds.
Proof.
  intros Hs Hm Hmod E. destruct (buffer_new_spec src size Hs Hm) as (b' & E' & I & Hu & Hd & Hc).
  rewrite E in E'. injection E' as <-.
  unfold ep_buffer_decrypt, ep_crypt_aes. rewrite Hu, aes_len_blocks by (done || unfold INT_MAX, BODY_MAX in *; lia).
  cbn [mbind res_bind]. rewrite ep_malloc_plenty by lia. cbn [negb].
  rewrite app_nil_r. pose proof (align16_spec size) as [? Hal].
  assert (ep_align_size size 16 = size).
  { pose proof (Z.div_mod size 16 ltac:(lia)).
    pose proof (Z.div_mod (ep_align_size size 16) 16 ltac:(lia)). lia. }
  unfold slice. replace (0 + (size + 16) <=? zlen (buf_chunk b)) with false by (symmetry; lia).
  by rewrite andb_false_r.
Qed.

Lemma decrypt_overreads_witness :
  @ep_buffer_decrypt toy_codec [] [] (mk_buffer (zeros 32) 32 32) (mk_aes (zeros 16) (zeros 16)) 20
  = Fault OutOfBounds.
Proof. apply (decrypt_overreads (C := toy_codec) (zeros 32) 32); [vm_compute; done..|reflexivity]. Defined.

End Buffer.
