(* ===== verification/Locks.v ===== *)
(** * Locks: the locks openssl asks for (eventpack/src/ep_crypt.c)

    openssl of that time calls back to lock and unlock its own tables. ep_crypt.c gives it an array of
    mutexes and a function on them. A mutex is free or held by a thread; a thread that locks a held
    mutex waits, which is no step here. The number of locks and the allocator are openssl's. *)
From S2P Require Import Prelude.
Open Scope Z_scope.

Module Locks.

Definition CRYPTO_LOCK : Z := 1.

Abbreviation mutex := (option nat).

(** [lockarray], with [None] once it was freed, [inited], and whether the callbacks are installed in
    openssl. *)
Record locks := mk_locks {
  lockarray : option (list mutex);
  inited : bool;
  id_callback : bool;
  locking_callback : bool;
}.

Definition locks_start : locks := mk_locks None false false false.

Definition set_array (s : locks) a : locks := mk_locks a (inited s) (id_callback s) (locking_callback s).

Definition mutex_at (s : locks) (type : Z) : res mutex :=
  match lockarray s with
  | None => Fault UseAfterFree
  | Some a => if type <? 0 then Fault OutOfBounds else match a !! Z.to_nat type with Some m => Ok m | None => Fault OutOfBounds end
  end.

Definition set_mutex (s : locks) (type : Z) (m : mutex) : locks :=
  set_array s ((fun a => <[Z.to_nat type := m]> a) <$> lockarray s).

(** [None] for a thread that has to wait. A mutex its own thread locks again never opens. *)
Definition lock_callback (s : locks) (tid : nat) (mode type : Z) : res (option locks) :=
  m ← mutex_at s type;
  if negb (Z.land mode CRYPTO_LOCK =? 0) then
    match m with
    | None => Ok (Some (set_mutex s type (Some tid)))
    | Some t => if (t =? tid)%nat then Fault SelfDeadlock else Ok None
    end
  else
    match m with
    | Some t => if (t =? tid)%nat then Ok (Some (set_mutex s type None)) else Fault BadUnlock
    | None => Fault BadUnlock
    end.

(** [n] is [CRYPTO_num_locks ()]; [OPENSSL_malloc] is taken to succeed, as the code does. *)
Definition ep_crypt_safe_init (n : nat) (s : locks) : locks :=
  if inited s then s else mk_locks (Some (replicate n None)) true true true.

Fixpoint destroy_all (a : list mutex) : res unit :=
  match a with
  | [] => Ok tt
  | None :: a => destroy_all a
  | Some _ :: _ => Fault BadUnlock
  end.

(** The destruction of a mutex that is held is undefined. *)
Definition ep_crypt_safe_uninit (s : locks) : res locks :=
  if inited s then
    match lockarray s with
    | None => Fault UseAfterFree
    | Some a => _ ← destroy_all a; Ok (mk_locks None false (id_callback s) false)
    end
  else Ok s.

(** What openssl does to a table: nothing without a callback. *)
Definition openssl_lock (s : locks) (tid : nat) (mode type : Z) : res (option locks) :=
  if locking_callback s then lock_callback s tid mode type else Ok (Some s).

(** ** The users

    A client or the service calls [ep_crypt_safe_init] at its start and [ep_crypt_safe_uninit] at its
    end; in between its threads lock and unlock. *)
Inductive lock_step (n : nat) : nat * locks -> nat * locks -> Prop :=
  | step_start k s : lock_step n (k, s) (S k, ep_crypt_safe_init n s)
  | step_stop k s s' : ep_crypt_safe_uninit s = Ok s' -> lock_step n (S k, s) (k, s')
  | step_lock k s tid mode type s' : openssl_lock s tid mode type = Ok (Some s') -> lock_step n (k, s) (k, s').

(** The callback is installed exactly while the array is there. *)
Definition consistent (n : nat) (s : locks) : Prop :=
  locking_callback s = inited s /\ match lockarray s with Some a => inited s = true /\ length a = n | None => inited s = false end.

Lemma set_mutex_consistent n s type m : consistent n s -> consistent n (set_mutex s type m).
Proof.
  intros [H1 H2]. split; [done|]. cbn. destruct (lockarray s) as [a|]; [|done]. cbn. destruct H2 as [H2 H3]. split; [done|]. by rewrite length_insert.
Qed.

(** Whatever the users do, openssl is never given a freed array: as long as a lock is asked for of an
    existing table, the callback reads a mutex. *)
Theorem locks_consistent n k s : rtc (lock_step n) (0%nat, locks_start) (k, s) ->
  consistent n s /\ forall tid mode type, 0 <= type < Z.of_nat n -> openssl_lock s tid mode type <> Fault UseAfterFree /\ openssl_lock s tid mode type <> Fault OutOfBounds.
Proof.
  intros H. assert (HI : consistent n s).
  { remember (0%nat, locks_start) as x eqn:Ex. remember (k, s) as y eqn:Ey.
    assert (Hx : consistent n x.2) by (by subst). clear Ex. revert k s Ey Hx.
    induction H as [x|x y z H _ IH]; intros k s Ey Hx; [by subst|]. apply (IH _ _ Ey). clear IH Ey.
    destruct H as [k1 s1|k1 s1 s' E|k1 s1 tid mode type s' E]; cbn [snd] in *.
    - unfold ep_crypt_safe_init. destruct (inited s1) eqn:Ei; [done|]. split; [done|]. cbn. split; [done|apply length_replicate].
    - unfold ep_crypt_safe_uninit in E. destruct (inited s1); [|by simplify_eq]. destruct (lockarray s1) as [a|]; [|done].
      destruct (destroy_all a); cbn in E; [|done]. simplify_eq. done.
    - unfold openssl_lock, lock_callback in E. destruct (locking_callback s1); [|by simplify_eq].
      destruct (mutex_at s1 type) as [m|]; cbn in E; [|done].
      destruct (negb _), m as [t|]; try destruct (t =? tid)%nat; simplify_eq; by apply set_mutex_consistent. }
  split; [done|]. destruct HI as [H1 H2]. intros tid mode type Ht. unfold openssl_lock, lock_callback, mutex_at. rewrite H1.
  destruct (lockarray s) as [a|]; [|by rewrite H2]. destruct H2 as [-> HL]. destruct (Z.ltb_spec type 0); [lia|].
  destruct (lookup_lt_is_Some_2 a (Z.to_nat type)) as [m Em]; [lia|]. rewrite Em. cbn.
  destruct (negb _), m as [t|]; try destruct (t =? tid)%nat; done.
Qed.

(** The users are not counted: when two have started and the first stops, openssl is left without
    locks while the second still works with it. *)
Theorem locks_not_counted n : exists s, rtc (lock_step n) (0%nat, locks_start) (1%nat, s) /\ locking_callback s = false /\ lockarray s = None.
Proof.
  exists (mk_locks None false true false). split; [|done].
  eapply rtc_l; [apply (step_start n 0)|]. eapply rtc_l; [apply (step_start n 1)|]. eapply rtc_l; [|apply rtc_refl].
  apply step_stop. unfold ep_crypt_safe_uninit, ep_crypt_safe_init. cbn.
  assert (destroy_all (replicate n None) = Ok tt) as ->; [|done]. by induction n.
Qed.

End Locks.
