(* ===== verification/Dispatch.v ===== *)
(** * Dispatch: the registry from request categories to callbacks

    Models src/native/eventpack/src/ep_dispatch.c. [P] is the type of packets and [W] the state
    the callbacks work on; a callback gets the descriptor and the request packet and gives the
    response, the new state and what it left in [b_pack_reclaim]. The registry is the list
    [disp_list] in its order. Registering takes the lock twice, once to count and once to
    insert, which the step relation at the end of the file makes visible. *)
From stdpp Require Import gmap.
From S2P Require Import Prelude Alloc.
Import Alloc.

Module Dispatch.
Section registry.
Context {P W : Type}.

Definition pfn_ep_cb : Type := W -> Z -> option P -> option P * bool * W.

Record ep_dispatch := mk_disp { d_category : Z; d_cb : pfn_ep_cb }.

Record ep_disp_mgr := mk_disp_mgr { disp_list : list ep_dispatch }.

Definition sizeof_ep_dispatch : Z := 40.
Definition sizeof_ep_disp_mgr : Z := 56.

Definition ep_disp_init (al : alloc) : option ep_disp_mgr * alloc :=
  let '(ok, al) := ep_calloc al 1 sizeof_ep_disp_mgr in
  if ok then (Some (mk_disp_mgr []), al) else (None, al).

Definition ep_disp_count (m : ep_disp_mgr) (category : Z) : Z :=
  foldl (fun count tmp => if d_category tmp =? category then count + 1 else count)
    0 (disp_list m).

(** The insertion, under the lock for the second time: at the head of the list. *)
Definition disp_insert (m : ep_disp_mgr) (d : ep_dispatch) : ep_disp_mgr :=
  mk_disp_mgr (d :: disp_list m).

Definition ep_disp_add_cb (al : alloc) (m : ep_disp_mgr) (category : Z) (cb : pfn_ep_cb)
  : Z * ep_disp_mgr * alloc :=
  if 1 <=? ep_disp_count m category then (0, m, al) else
  let '(ok, al) := ep_calloc al 1 sizeof_ep_dispatch in
  if negb ok then (0, m, al) else
  (1, disp_insert m (mk_disp category cb), al).

(** The walk of [list_for_each_safe] that unlinks every entry of the category. *)
Fixpoint disp_del_walk (category : Z) (l : list ep_dispatch) : Z * list ep_dispatch :=
  match l with
  | [] => (0, [])
  | tmp :: l' =>
    let '(ret, kept) := disp_del_walk category l' in
    if d_category tmp =? category then (1, kept) else (ret, tmp :: kept)
  end.

Definition ep_disp_del (m : ep_disp_mgr) (category : Z) : Z * ep_disp_mgr :=
  let '(ret, l) := disp_del_walk category (disp_list m) in (ret, mk_disp_mgr l).

(** The first entry of the category is called; without one the request is dropped. The last
    component says that the request packet was destroyed. *)
Fixpoint disp_call (w : W) (category fd : Z) (pack : option P) (l : list ep_dispatch)
  : option P * bool * W :=
  match l with
  | [] => (None, true, w)
  | tmp :: l' =>
    if d_category tmp =? category then d_cb tmp w fd pack else disp_call w category fd pack l'
  end.

Definition ep_disp_processor (w : W) (m : ep_disp_mgr) (category fd : Z) (pack : option P)
  : option P * bool * W :=
  let '(response, b_pack_reclaim, w) := disp_call w category fd pack (disp_list m) in
  (response, b_pack_reclaim && bool_decide (is_Some pack), w).

(** The pointer after the call and the number of objects freed: the entries and the manager. *)
Definition ep_disp_destroy (m : option ep_disp_mgr) : option ep_disp_mgr * nat :=
  match m with
  | None => (None, 0%nat)
  | Some m => (None, S (length (disp_list m)))
  end.

(** ** The abstract registry: a finite map from categories to callbacks *)

Definition disp_map (m : ep_disp_mgr) : gmap Z pfn_ep_cb :=
  list_to_map ((fun d => (d_category d, d_cb d)) <$> disp_list m).

Definition disp_unique (m : ep_disp_mgr) : Prop := NoDup (d_category <$> disp_list m).

Inductive disp_op : Type :=
  | OpAdd (category : Z) (cb : pfn_ep_cb)
  | OpDel (category : Z)
  | OpCall (category fd : Z) (pack : option P).

Inductive disp_out : Type :=
  | OutInt (r : Z)
  | OutCall (response : option P) (destroyed : bool).

Definition disp_step (s : ep_disp_mgr * W) (o : disp_op) : disp_out * (ep_disp_mgr * W) :=
  let '(m, w) := s in
  match o with
  | OpAdd c cb => let '(r, m, _) := ep_disp_add_cb [] m c cb in (OutInt r, (m, w))
  | OpDel c => let '(r, m) := ep_disp_del m c in (OutInt r, (m, w))
  | OpCall c fd p =>
    let '(r, d, w) := ep_disp_processor w m c fd p in (OutCall r d, (m, w))
  end.

Definition map_step (s : gmap Z pfn_ep_cb * W) (o : disp_op) : disp_out * (gmap Z pfn_ep_cb * W) :=
  let '(f, w) := s in
  match o with
  | OpAdd c cb =>
    match f !! c with Some _ => (OutInt 0, (f, w)) | None => (OutInt 1, (<[c := cb]> f, w)) end
  | OpDel c =>
    match f !! c with Some _ => (OutInt 1, (delete c f, w)) | None => (OutInt 0, (f, w)) end
  | OpCall c fd p =>
    let '(r, reclaim, w) :=
      match f !! c with Some cb => cb w fd p | None => (None, true, w) end in
    (OutCall r (reclaim && bool_decide (is_Some p)), (f, w))
  end.

Fixpoint run {S} (step : S -> disp_op -> disp_out * S) (s : S) (os : list disp_op)
  : list disp_out * S :=
  match os with
  | [] => ([], s)
  | o :: os => let '(r, s) := step s o in let '(rs, s) := run step s os in (r :: rs, s)
  end.

(** ** Concurrent registration

    A thread in [ep_disp_add_cb] is at its start, or between the two critical sections with the
    count it read, or done with its result. Each transition is one critical section. *)
Inductive adder : Type :=
  | AStart (category : Z) (cb : pfn_ep_cb)
  | ACounted (category : Z) (cb : pfn_ep_cb) (count : Z)
  | ADone (r : Z).

Inductive add_step : ep_disp_mgr * list adder -> ep_disp_mgr * list adder -> Prop :=
  | step_count m ts t c cb :
      ts !! t = Some (AStart c cb) ->
      add_step (m, ts) (m, <[t := ACounted c cb (ep_disp_count m c)]> ts)
  | step_conflict m ts t c cb n :
      ts !! t = Some (ACounted c cb n) -> 1 <= n ->
      add_step (m, ts) (m, <[t := ADone 0]> ts)
  | step_insert m ts t c cb n :
      ts !! t = Some (ACounted c cb n) -> n < 1 ->
      add_step (m, ts) (disp_insert m (mk_disp c cb), <[t := ADone 1]> ts).

(** ** Lemmas *)

Lemma count_acc c l n :
  foldl (fun count (tmp : ep_dispatch) => if d_category tmp =? c then count + 1 else count) n l =
  n + foldl (fun count (tmp : ep_dispatch) => if d_category tmp =? c then count + 1 else count) 0 l.
Proof.
  revert n. induction l as [|d l IH]; intros n; cbn; [lia|].
  rewrite IH, (IH (if d_category d =? c then 0 + 1 else 0)). destruct (_ =? _); lia.
Qed.

Lemma count_zero m c : (1 <=? ep_disp_count m c) = bool_decide (c ∈ (d_category <$> disp_list m)).
Proof.
  unfold ep_disp_count. destruct m as [l]. cbn. induction l as [|d l IH]; [done|].
  cbn [foldl]. rewrite count_acc.
  assert (0 <= foldl (fun count (tmp : ep_dispatch) => if d_category tmp =? c then count + 1 else count) 0 l) as Hp.
  { clear. induction l as [|d l IH]; cbn; [lia|]. rewrite count_acc. destruct (_ =? _); lia. }
  destruct (Z.eqb_spec (d_category d) c) as [<-|Hne].
  - rewrite bool_decide_true; [lia|]. cbn. left.
  - rewrite Z.add_0_l, IH. apply bool_decide_ext. cbn. rewrite elem_of_cons. split; [by right|].
    intros [?|?]; [congruence|done].
Qed.

Lemma disp_map_lookup_none m c : disp_map m !! c = None <-> c ∉ d_category <$> disp_list m.
Proof.
  unfold disp_map. rewrite <- not_elem_of_list_to_map, <- list_fmap_compose. done.
Qed.

Lemma add_spec m c cb :
  ep_disp_add_cb [] m c cb =
    match disp_map m !! c with
    | Some _ => (0, m, [])
    | None => (1, disp_insert m (mk_disp c cb), [])
    end.
Proof.
  unfold ep_disp_add_cb. rewrite count_zero.
  destruct (disp_map m !! c) eqn:E.
  - rewrite bool_decide_true; [done|]. destruct (decide (c ∈ d_category <$> disp_list m)); [done|].
    rewrite <- disp_map_lookup_none in *. congruence.
  - apply disp_map_lookup_none in E. by rewrite bool_decide_false.
Qed.

Lemma del_walk_spec c l :
  disp_del_walk c l = ((if bool_decide (c ∈ (d_category <$> l)) then 1 else 0),
                       filter (fun d => d_category d <> c) l).
Proof.
  induction l as [|d l IH]; [done|]. cbn [disp_del_walk]. rewrite IH.
  rewrite filter_cons. destruct (Z.eqb_spec (d_category d) c) as [<-|Hne].
  - rewrite decide_False by (by intros []). rewrite bool_decide_true; [done|]. left.
  - rewrite decide_True by done. f_equal. erewrite bool_decide_ext; [done|].
    cbn. rewrite elem_of_cons. split; [by right|].
    intros [?|?]; [congruence|done].
Qed.

Lemma del_map c l :
  disp_map (mk_disp_mgr (filter (fun d => d_category d <> c) l)) = delete c (disp_map (mk_disp_mgr l)).
Proof.
  unfold disp_map. cbn [disp_list]. induction l as [|d l IH]; [cbn; by rewrite delete_empty|].
  rewrite filter_cons. destruct (decide (d_category d = c)) as [<-|Hne].
  - rewrite decide_False by (by intros []). rewrite IH, fmap_cons, list_to_map_cons.
    by rewrite delete_insert_eq.
  - rewrite decide_True by done. rewrite !fmap_cons, !list_to_map_cons, IH.
    by rewrite delete_insert_ne.
Qed.

Lemma call_spec w c fd p l :
  disp_call w c fd p l =
    match disp_map (mk_disp_mgr l) !! c with Some cb => cb w fd p | None => (None, true, w) end.
Proof.
  unfold disp_map; cbn. induction l as [|d l IH]; cbn; [by rewrite lookup_empty|].
  destruct (Z.eqb_spec (d_category d) c) as [<-|Hne].
  - by rewrite lookup_insert_eq.
  - by rewrite lookup_insert_ne, IH.
Qed.

(** The dispatch of a category with a callback. *)
Lemma processor_some w m c fd p cb :
  disp_map m !! c = Some cb ->
  ep_disp_processor w m c fd p = let '(response, reclaim, w) := cb w fd p in (response, reclaim && bool_decide (is_Some p), w).
Proof. intros H. unfold ep_disp_processor. destruct m as [l]. cbn [disp_list]. by rewrite call_spec, H. Qed.

(** One operation on the list is one operation on the map. *)
Lemma step_refines m w o r m' w' :
  disp_step (m, w) o = (r, (m', w')) ->
  map_step (disp_map m, w) o = (r, (disp_map m', w')) /\ (disp_unique m -> disp_unique m').
Proof.
  destruct o as [c cb|c|c fd p]; cbn.
  - rewrite add_spec. destruct (disp_map m !! c) eqn:E.
    + intros [= <- <- <-]. done.
    + intros [= <- <- <-]. split; [done|]. intros U. unfold disp_unique. cbn.
      apply NoDup_cons. split; [|done]. by apply disp_map_lookup_none.
  - unfold ep_disp_del. rewrite del_walk_spec. intros [= <- <- <-].
    rewrite del_map. destruct m as [l]; cbn [disp_list].
    split.
    + destruct (disp_map _ !! c) eqn:E.
      * rewrite bool_decide_true; [done|].
        destruct (decide (c ∈ d_category <$> l)) as [|Hn]; [done|].
        apply (disp_map_lookup_none (mk_disp_mgr l)) in Hn. congruence.
      * rewrite bool_decide_false by (by apply (disp_map_lookup_none (mk_disp_mgr l))).
        by rewrite delete_id.
    + unfold disp_unique; cbn. intros U. eapply sublist_NoDup; [exact U|].
      apply fmap_sublist, sublist_filter.
  - unfold ep_disp_processor. destruct m as [l]; cbn [disp_list]. rewrite call_spec.
    destruct (match _ !! c with Some _ => _ | None => _ end) as [[resp rec] w1] eqn:E.
    intros [= <- <- <-]. done.
Qed.

Lemma run_refines os m w rs m' w' :
  run disp_step (m, w) os = (rs, (m', w')) ->
  run map_step (disp_map m, w) os = (rs, (disp_map m', w')) /\ (disp_unique m -> disp_unique m').
Proof.
  revert m w rs m' w'. induction os as [|o os IH]; intros m w rs m' w'; cbn [run].
  - by intros [= <- <- <-].
  - destruct (disp_step (m, w) o) as [r [m1 w1]] eqn:E1.
    destruct (run disp_step (m1, w1) os) as [rs' [m2 w2]] eqn:E2. intros [= <- <- <-].
    destruct (step_refines _ _ _ _ _ _ E1) as [-> U1].
    destruct (IH _ _ _ _ _ E2) as [-> U2]. split; [done|]. auto.
Qed.

(** ** Properties *)

(** Used by one thread at a time, the registry is a finite map from categories to
    callbacks: every sequence of registrations, removals and dispatches gives the results the map
    gives (a conflicting registration fails, a dispatch runs exactly the registered callback,
    an unknown category drops and destroys the packet), and no category is ever listed twice. *)
Theorem disp_refines_map (os : list disp_op) (w : W) :
  let '(rs, (m, w')) := run disp_step (mk_disp_mgr [], w) os in
  run map_step (∅, w) os = (rs, (disp_map m, w')) /\ disp_unique m.
Proof.
  destruct (run disp_step (mk_disp_mgr [], w) os) as [rs [m w']] eqn:E.
  destruct (run_refines _ _ _ _ _ _ E) as [H U]. split; [exact H|]. apply U. constructor.
Qed.

(** Two threads that register the same category at the same time can both be told that they
    succeeded, because the count and the insertion are two critical sections: the registry then
    lists the category twice, and one removal takes both callbacks away. *)
Theorem disp_add_race (c : Z) (cb1 cb2 : pfn_ep_cb) :
  exists m, rtc add_step (mk_disp_mgr [], [AStart c cb1; AStart c cb2]) (m, [ADone 1; ADone 1]) /\
    ~ disp_unique m /\ ep_disp_count m c = 2 /\ ep_disp_del m c = (1, mk_disp_mgr []).
Proof.
  exists (mk_disp_mgr [mk_disp c cb2; mk_disp c cb1]). split.
  { eapply rtc_l; [by apply (step_count _ _ 0)|].
    eapply rtc_l; [by apply (step_count _ _ 1)|]. cbn.
    eapply rtc_l; [by apply (step_insert _ _ 0 c cb1 0)|].
    eapply rtc_l; [by apply (step_insert _ _ 1 c cb2 0)|]. apply rtc_refl. }
  split; [|split].
  - unfold disp_unique. cbn. rewrite NoDup_cons. intros [H _]. apply H. left.
  - unfold ep_disp_count. cbn. by rewrite Z.eqb_refl.
  - unfold ep_disp_del. cbn. by rewrite Z.eqb_refl.
Qed.

End registry.
Arguments pfn_ep_cb : clear implicits.
Arguments ep_dispatch : clear implicits.
Arguments ep_disp_mgr : clear implicits.
End Dispatch.
