(* ===== verification/Lists.v ===== *)
(** * Lists: the intrusive lists (eventpack/utils/list.h, src/utils/list.h)

    A list is a ring of nodes, [struct list_head], that sit inside the objects they link; its head
    is a node of the ring. The memory maps addresses to nodes, and every function is the sequence
    of loads and stores of the source, so that the cases in which the pointers alias (an empty
    ring, a ring of one node) are those of the code. [ring m h l] says that the nodes [l] hang on
    the head [h]; the operations are shown to be those of plain lists. *)
From S2P Require Import Prelude.
From stdpp Require Import gmap.
Open Scope Z_scope.

Module Lists.

Record list_head := mk_head { next : Z; prev : Z }.

#[export] Instance list_head_eq_dec : EqDecision list_head.
Proof. solve_decision. Defined.

(** Addresses to nodes; 0 is NULL. *)
Abbreviation memory := (gmap Z list_head).

Definition node (m : memory) (p : Z) : res list_head :=
  match m !! p with Some n => Ok n | None => Fault (if p =? 0 then NullDeref else UseAfterFree) end.

Definition get_next (m : memory) (p : Z) : res Z := n ← node m p; Ok (next n).
Definition get_prev (m : memory) (p : Z) : res Z := n ← node m p; Ok (prev n).
Definition set_next (m : memory) (p x : Z) : res memory := n ← node m p; Ok (<[p := mk_head x (prev n)]> m).
Definition set_prev (m : memory) (p x : Z) : res memory := n ← node m p; Ok (<[p := mk_head (next n) x]> m).

Definition INIT_LIST_HEAD (m : memory) (ptr : Z) : res memory :=
  m ← set_next m ptr ptr; set_prev m ptr ptr.

Definition __list_add (m : memory) (_new prev next : Z) : res memory :=
  m ← set_prev m next _new;
  m ← set_next m _new next;
  m ← set_prev m _new prev;
  set_next m prev _new.

Definition list_add (m : memory) (c_new head : Z) : res memory :=
  n ← get_next m head; __list_add m c_new head n.

Definition list_add_tail (m : memory) (c_new head : Z) : res memory :=
  p ← get_prev m head; __list_add m c_new p head.

Definition __list_del (m : memory) (prev next : Z) : res memory :=
  m ← set_prev m next prev;
  set_next m prev next.

(** The entry is left with NULL in both fields. *)
Definition list_del (m : memory) (entry : Z) : res memory :=
  p ← get_prev m entry; n ← get_next m entry;
  m ← __list_del m p n;
  m ← set_next m entry 0;
  set_prev m entry 0.

Definition list_del_init (m : memory) (entry : Z) : res memory :=
  p ← get_prev m entry; n ← get_next m entry;
  m ← __list_del m p n;
  INIT_LIST_HEAD m entry.

Definition list_move (m : memory) (list head : Z) : res memory :=
  p ← get_prev m list; n ← get_next m list;
  m ← __list_del m p n;
  list_add m list head.

Definition list_move_tail (m : memory) (list head : Z) : res memory :=
  p ← get_prev m list; n ← get_next m list;
  m ← __list_del m p n;
  list_add_tail m list head.

Definition list_empty (m : memory) (head : Z) : res bool :=
  n ← get_next m head; Ok (n =? head).

Definition __list_splice (m : memory) (list head : Z) : res memory :=
  first ← get_next m list;
  last ← get_prev m list;
  at_ ← get_next m head;
  m ← set_prev m first head;
  m ← set_next m head first;
  m ← set_next m last at_;
  set_prev m at_ last.

Definition list_splice (m : memory) (list head : Z) : res memory :=
  e ← list_empty m list;
  if e : bool then Ok m else __list_splice m list head.

Definition list_splice_init (m : memory) (list head : Z) : res memory :=
  e ← list_empty m list;
  if e : bool then Ok m else m ← __list_splice m list head; INIT_LIST_HEAD m list.

(** The object that holds the node at [ptr], [offset] bytes into it. *)
Definition list_entry (offset ptr : Z) : Z := ptr - offset.

(** ** Loops

    The body gets the node of the turn, the memory and the variables of the caller; it says whether
    it breaks. *)
Section loops.
Context {W : Type} (body : Z -> memory -> W -> res (bool * memory * W)).

Fixpoint each_loop (fuel : nat) (head pos : Z) (m : memory) (w : W) : res (memory * W) :=
  match fuel with
  | O => Fault OutOfFuel
  | S fuel =>
      if pos =? head then Ok (m, w) else
      '(stop, m, w) ← body pos m w;
      if stop : bool then Ok (m, w) else
      pos ← get_next m pos; each_loop fuel head pos m w
  end.

Definition list_for_each (fuel : nat) (head : Z) (m : memory) (w : W) : res (memory * W) :=
  pos ← get_next m head; each_loop fuel head pos m w.

Fixpoint each_prev_loop (fuel : nat) (head pos : Z) (m : memory) (w : W) : res (memory * W) :=
  match fuel with
  | O => Fault OutOfFuel
  | S fuel =>
      if pos =? head then Ok (m, w) else
      '(stop, m, w) ← body pos m w;
      if stop : bool then Ok (m, w) else
      pos ← get_prev m pos; each_prev_loop fuel head pos m w
  end.

Definition list_for_each_prev (fuel : nat) (head : Z) (m : memory) (w : W) : res (memory * W) :=
  pos ← get_prev m head; each_prev_loop fuel head pos m w.

Fixpoint safe_loop (fuel : nat) (head pos n : Z) (m : memory) (w : W) : res (memory * W) :=
  match fuel with
  | O => Fault OutOfFuel
  | S fuel =>
      if pos =? head then Ok (m, w) else
      '(stop, m, w) ← body pos m w;
      if stop : bool then Ok (m, w) else
      let pos := n in
      n ← get_next m pos; safe_loop fuel head pos n m w
  end.

Definition list_for_each_safe (fuel : nat) (head : Z) (m : memory) (w : W) : res (memory * W) :=
  pos ← get_next m head; n ← get_next m pos; safe_loop fuel head pos n m w.

End loops.

(** A body that leaves the lists alone. *)
Definition reading {W} (f : Z -> W -> res (bool * W)) (p : Z) (m : memory) (w : W) : res (bool * memory * W) :=
  '(stop, w) ← f p w; Ok (stop, m, w).

(** ** Rings *)

Definition nxt (m : memory) (p : Z) : option Z := next <$> m !! p.
Definition prv (m : memory) (p : Z) : option Z := prev <$> m !! p.

(** Neighbours point to each other. *)
Fixpoint links (m : memory) (s : list Z) : Prop :=
  match s with
  | a :: (b :: _) as t => (nxt m a = Some b /\ prv m b = Some a) /\ links m t
  | _ => True
  end.

(** The way round: from the head over the nodes back to the head. *)
Definition ring (m : memory) (h : Z) (l : list Z) : Prop := NoDup (h :: l) /\ links m (h :: l ++ [h]).

(** [m'] differs from [m] at most in the nodes [s]. *)
Definition outside (s : list Z) (m m' : memory) : Prop := forall p, p ∉ s -> m' !! p = m !! p.

Lemma links_app m s a t : links m (s ++ a :: t) <-> links m (s ++ [a]) /\ links m (a :: t).
Proof.
  induction s as [|x s IH]; [cbn; tauto|]. destruct s as [|y s]; cbn [app] in *.
  - cbn. tauto.
  - change (links m (x :: y :: s ++ a :: t)) with ((nxt m x = Some y /\ prv m y = Some x) /\ links m (y :: s ++ a :: t)).
    change (links m (x :: y :: s ++ [a])) with ((nxt m x = Some y /\ prv m y = Some x) /\ links m (y :: s ++ [a])). tauto.
Qed.

Lemma links_pair m a b t : links m (a :: b :: t) <-> nxt m a = Some b /\ prv m b = Some a /\ links m (b :: t).
Proof. cbn. tauto. Qed.

(** A chain depends on the [next] of all nodes but the last and the [prev] of all but the first. *)
Lemma links_ext m m' a s z :
  (forall p, p ∈ a :: s -> nxt m' p = nxt m p) -> (forall p, p ∈ s ++ [z] -> prv m' p = prv m p) ->
  links m (a :: s ++ [z]) -> links m' (a :: s ++ [z]).
Proof.
  revert a. induction s as [|b s IH]; intros a Hn Hp; cbn [app].
  - rewrite !links_pair. intros (H1 & H2 & _). rewrite Hn, Hp by set_solver. repeat split; done.
  - rewrite !links_pair. intros (H1 & H2 & H3). rewrite Hn, Hp by set_solver. split_and!; [done..|].
    apply IH; [set_solver..|done].
Qed.

(** *** Stores *)

Definition cell (m : memory) (p : Z) : Prop := is_Some (m !! p).
Definition upd_next (m : memory) (p x : Z) : memory := alter (fun n => mk_head x (prev n)) p m.
Definition upd_prev (m : memory) (p x : Z) : memory := alter (fun n => mk_head (next n) x) p m.

Lemma alter_some (m : memory) f p n : m !! p = Some n -> alter f p m = <[p := f n]> m.
Proof.
  intros E. apply map_eq. intros q. destruct (decide (q = p)) as [->|].
  - by rewrite lookup_alter_eq, lookup_insert_eq, E.
  - by rewrite lookup_alter_ne, lookup_insert_ne.
Qed.

Lemma set_next_ok m p x : cell m p -> set_next m p x = Ok (upd_next m p x).
Proof. intros [n E]. unfold set_next, node, upd_next. rewrite E. cbn. by rewrite (alter_some _ _ _ n). Qed.

Lemma set_prev_ok m p x : cell m p -> set_prev m p x = Ok (upd_prev m p x).
Proof. intros [n E]. unfold set_prev, node, upd_prev. rewrite E. cbn. by rewrite (alter_some _ _ _ n). Qed.

Lemma get_next_ok m p x : nxt m p = Some x -> get_next m p = Ok x.
Proof. unfold nxt, get_next, node. destruct (m !! p); cbn; [by intros [= ->]|done]. Qed.

Lemma get_prev_ok m p x : prv m p = Some x -> get_prev m p = Ok x.
Proof. unfold prv, get_prev, node. destruct (m !! p); cbn; [by intros [= ->]|done]. Qed.

Lemma cell_upd_next m p x q : cell (upd_next m p x) q <-> cell m q.
Proof. unfold cell, upd_next. by rewrite lookup_alter_is_Some. Qed.

Lemma cell_upd_prev m p x q : cell (upd_prev m p x) q <-> cell m q.
Proof. unfold cell, upd_prev. by rewrite lookup_alter_is_Some. Qed.

Lemma nxt_upd_next m p x q : cell m p -> nxt (upd_next m p x) q = if decide (q = p) then Some x else nxt m q.
Proof.
  intros [n E]. unfold nxt, upd_next. case_decide; [subst; by rewrite lookup_alter_eq, E|by rewrite lookup_alter_ne].
Qed.

Lemma prv_upd_prev m p x q : cell m p -> prv (upd_prev m p x) q = if decide (q = p) then Some x else prv m q.
Proof.
  intros [n E]. unfold prv, upd_prev. case_decide; [subst; by rewrite lookup_alter_eq, E|by rewrite lookup_alter_ne].
Qed.

Lemma prv_upd_next m p x q : prv (upd_next m p x) q = prv m q.
Proof.
  unfold prv, upd_next. destruct (decide (q = p)) as [->|]; [|by rewrite lookup_alter_ne].
  rewrite lookup_alter_eq. by destruct (m !! p).
Qed.

Lemma nxt_upd_prev m p x q : nxt (upd_prev m p x) q = nxt m q.
Proof.
  unfold nxt, upd_prev. destruct (decide (q = p)) as [->|]; [|by rewrite lookup_alter_ne].
  rewrite lookup_alter_eq. by destruct (m !! p).
Qed.

Lemma nxt_cell m p x : nxt m p = Some x -> cell m p.
Proof. unfold nxt, cell. destruct (m !! p); [eauto|done]. Qed.

(** The stores of an operation one after the other, and what a field holds after them. *)
Ltac cells := repeat first [rewrite cell_upd_next|rewrite cell_upd_prev]; done.
Ltac stores :=
  repeat (first [rewrite set_next_ok by cells
                |rewrite set_prev_ok by cells];
          cbn [mbind res_bind]).
Ltac fields :=
  repeat first [rewrite nxt_upd_prev|rewrite prv_upd_next
               |rewrite nxt_upd_next by cells
               |rewrite prv_upd_prev by cells].

Lemma outside_upd s m p f : p ∈ s -> outside s m (alter f p m).
Proof. intros Hp q Hq. apply lookup_alter_ne. by intros <-. Qed.

Lemma outside_trans s m1 m2 m3 : outside s m1 m2 -> outside s m2 m3 -> outside s m1 m3.
Proof. intros H1 H2 p Hp. by rewrite H2, H1. Qed.

Lemma outside_sub s t m m' : s ⊆ t -> outside s m m' -> outside t m m'.
Proof. intros Hs H p Hp. apply H. set_solver. Qed.

Ltac outside_stores :=
  repeat (eapply outside_trans; [|apply outside_upd; set_solver]); intros ? _; reflexivity.

(** *** Rings under the stores *)

Lemma ring_cells m h l p : ring m h l -> p ∈ h :: l -> cell m p.
Proof.
  intros [_ HL] Hp. revert HL. apply list_elem_of_split in Hp as (s & t & E).
  change (h :: l ++ [h]) with ((h :: l) ++ [h]). rewrite E, <- app_assoc. intros [_ H]%links_app.
  destruct t as [|b t]; cbn in H; destruct H as [[H _] _]; by eapply nxt_cell.
Qed.

Lemma ring_rotate m h p l1 l2 : ring m h (l1 ++ p :: l2) -> ring m p (l2 ++ h :: l1).
Proof.
  intros [HN HL]. split.
  - rewrite (app_comm_cons l2), (Permutation_app_comm (p :: l2)). exact HN.
  - change (h :: (l1 ++ p :: l2) ++ [h]) with (((h :: l1) ++ p :: l2) ++ [h]) in HL. rewrite <- app_assoc in HL.
    apply links_app in HL as [H1 H2]. change (p :: (l2 ++ h :: l1) ++ [p]) with ((p :: l2 ++ h :: l1) ++ [p]).
    rewrite app_comm_cons, <- app_assoc. apply links_app. done.
Qed.

Lemma ring_ext m m' h l : outside [] m m' \/ (forall p, p ∈ h :: l -> m' !! p = m !! p) -> ring m h l -> ring m' h l.
Proof.
  intros HE [HN HL]. split; [done|].
  assert (forall p, p ∈ h :: l -> m' !! p = m !! p) as H by (destruct HE as [HE|HE]; [intros p _; apply HE; set_solver|done]).
  revert HL. apply links_ext; intros p Hp; unfold nxt, prv; rewrite H; set_solver.
Qed.

Lemma ring_insert m h l x : ring m h l -> x ∉ h :: l -> cell m x ->
  exists m', __list_add m x h (hd h l) = Ok m' /\ ring m' h (x :: l) /\ outside (x :: h :: l) m m'.
Proof.
  intros HR Hx Cx. pose proof HR as [HN HL].
  assert (Ch : cell m h) by (eapply ring_cells; [done|set_solver]).
  assert (Cn : cell m (hd h l)) by (eapply ring_cells; [done|destruct l; set_solver]).
  unfold __list_add. stores. eexists. split; [reflexivity|]. split.
  - split; [apply NoDup_cons in HN as [N1 N2]; apply NoDup_cons; split; [|apply NoDup_cons]; set_solver|].
    destruct l as [|b l]; cbn [app hd] in *; rewrite ?links_pair in *; fields.
    + repeat case_decide; set_solver.
    + destruct HL as (H1 & H2 & H3). apply NoDup_cons in HN as [N1 N2]. apply NoDup_cons in N2 as [N2 N3].
      split_and!; try (repeat case_decide; set_solver).
      revert H3. apply links_ext; intros p Hp; fields; repeat case_decide; set_solver.
  - destruct l; outside_stores.
Qed.

Lemma ring_remove m h l e : ring m h (e :: l) ->
  exists m', __list_del m h (hd h l) = Ok m' /\ ring m' h l /\ outside (h :: l) m m'.
Proof.
  intros HR. pose proof HR as [HN HL].
  assert (Ch : cell m h) by (eapply ring_cells; [done|set_solver]).
  assert (Cn : cell m (hd h l)) by (eapply ring_cells; [done|destruct l; set_solver]).
  unfold __list_del. stores. eexists. split; [reflexivity|].
  apply NoDup_cons in HN as [N1 N2]. apply NoDup_cons in N2 as [N2 N3]. split.
  - split; [apply NoDup_cons; split; [set_solver|done]|].
    destruct l as [|b l]; cbn [app hd] in *; rewrite ?links_pair in *; fields.
    + repeat case_decide; set_solver.
    + destruct HL as (H1 & H2 & H3 & H4 & H5). apply NoDup_cons in N3 as [N3 N4].
      split_and!; try (repeat case_decide; set_solver).
      revert H5. apply links_ext; intros p Hp; fields; repeat case_decide; set_solver.
  - destruct l; outside_stores.
Qed.

Lemma ring_next m h l : ring m h l -> nxt m h = Some (hd h l).
Proof. intros [_ HL]. destruct l; cbn in HL; tauto. Qed.

Lemma ring_prev m h l : ring m h l -> prv m h = Some (List.last l h).
Proof.
  intros [_ HL]. destruct l as [|p l _] using rev_ind; [cbn in HL; tauto|].
  rewrite last_last. change (h :: (l ++ [p]) ++ [h]) with ((h :: l ++ [p]) ++ [h]) in HL.
  rewrite app_comm_cons, <- app_assoc in HL. apply links_app in HL as [_ HL]. cbn in HL. tauto.
Qed.

(** *** The operations on one ring *)

Lemma list_add_spec m h l x : ring m h l -> x ∉ h :: l -> cell m x ->
  exists m', list_add m x h = Ok m' /\ ring m' h (x :: l) /\ outside (x :: h :: l) m m'.
Proof.
  intros HR Hx Cx. unfold list_add. rewrite (get_next_ok _ _ _ (ring_next _ _ _ HR)). by apply ring_insert.
Qed.

Lemma list_add_tail_spec m h l x : ring m h l -> x ∉ h :: l -> cell m x ->
  exists m', list_add_tail m x h = Ok m' /\ ring m' h (l ++ [x]) /\ outside (x :: h :: l) m m'.
Proof.
  intros HR Hx Cx. unfold list_add_tail. rewrite (get_prev_ok _ _ _ (ring_prev _ _ _ HR)). cbn [mbind res_bind].
  destruct l as [|p l _] using rev_ind; [exact (ring_insert m h [] x HR Hx Cx)|]. rewrite last_last.
  apply ring_rotate in HR. destruct (ring_insert m p ([] ++ h :: l) x HR) as (m' & E & R & O); [set_solver|done|].
  exists m'. split; [exact E|]. split; [|revert O; apply outside_sub; set_solver].
  rewrite <- app_assoc. apply (ring_rotate _ p h [x] l R).
Qed.

Lemma list_empty_spec m h l : ring m h l -> list_empty m h = Ok (bool_decide (l = [])).
Proof.
  intros HR. unfold list_empty. rewrite (get_next_ok _ _ _ (ring_next _ _ _ HR)). cbn. f_equal.
  destruct HR as [HN _]. destruct l as [|b l]; cbn; [by rewrite Z.eqb_refl|].
  apply Z.eqb_neq. intros ->. apply NoDup_cons in HN as [HN _]. set_solver.
Qed.

(** What [__list_del (entry->prev, entry->next)] does, entry being a node of the ring. *)
Lemma unlink_spec m h l1 e l2 : ring m h (l1 ++ e :: l2) ->
  exists p n m', get_prev m e = Ok p /\ get_next m e = Ok n /\ __list_del m p n = Ok m' /\
    ring m' h (l1 ++ l2) /\ outside (h :: l1 ++ l2) m m'.
Proof.
  intros HR. exists (List.last l1 h), (hd h l2).
  pose proof (ring_rotate _ _ _ _ _ HR) as HE.
  assert (G1 : get_next m e = Ok (hd h l2)).
  { apply get_next_ok. rewrite (ring_next _ _ _ HE). by destruct l2. }
  assert (G2 : get_prev m e = Ok (List.last l1 h)).
  { apply get_prev_ok. rewrite (ring_prev _ _ _ HE). f_equal.
    destruct l1 as [|p l1 _] using rev_ind; [by rewrite last_last|]. by rewrite last_last, app_comm_cons, app_assoc, last_last. }
  rewrite G1, G2. destruct l1 as [|p l1 _] using rev_ind.
  - destruct (ring_remove m h l2 e HR) as (m' & E & R & O). exists m'. done.
  - rewrite <- app_assoc in HR. apply ring_rotate in HR. rewrite last_last.
    destruct (ring_remove m p (l2 ++ h :: l1) e HR) as (m' & E & R & O). exists m'. split_and!; try done.
    + rewrite <- E. f_equal. by destruct l2.
    + rewrite <- app_assoc. by apply ring_rotate in R.
    + revert O. apply outside_sub. set_solver.
Qed.

Lemma ring_remaining m h l1 e l2 : ring m h (l1 ++ e :: l2) -> e ∉ h :: l1 ++ l2.
Proof.
  intros [HN _]. apply NoDup_cons in HN as [N1 N2]. apply NoDup_app in N2 as (N2 & N3 & N4). apply NoDup_cons in N4 as [N4 _]. set_solver.
Qed.

Lemma list_del_spec m h l1 e l2 : ring m h (l1 ++ e :: l2) ->
  exists m', list_del m e = Ok m' /\ ring m' h (l1 ++ l2) /\ outside (h :: l1 ++ e :: l2) m m' /\ m' !! e = Some (mk_head 0 0) /\ dom m' = dom m.
Proof.
  intros HR. destruct (unlink_spec m h l1 e l2 HR) as (p & n & m1 & E1 & E2 & E3 & R & O). pose proof (ring_remaining _ _ _ _ _ HR) as He.
  assert (C : cell m1 e).
  { unfold cell. rewrite (O e He). eapply ring_cells; [done|set_solver]. }
  assert (D : dom m1 = dom m).
  { revert E3. unfold __list_del, set_prev, set_next, node. destruct (m !! n) as [x|] eqn:En; cbn; [|done].
    destruct (<[n := _]> m !! p) as [y|] eqn:Ep; cbn; [|done]. intros [= <-].
    rewrite !dom_insert_lookup_L; [done|by eexists|by eexists]. }
  unfold list_del. rewrite E1, E2. cbn [mbind res_bind]. rewrite E3. cbn [mbind res_bind]. stores. eexists. split; [reflexivity|]. split_and!.
  - apply (ring_ext m1); [|done]. right. intros q Hq. unfold upd_prev, upd_next. rewrite !lookup_alter_ne; [done|by intros ->..].
  - intros q Hq. unfold upd_prev, upd_next. rewrite !lookup_alter_ne by (intros ->; set_solver). apply O. set_solver.
  - unfold upd_prev, upd_next. rewrite !lookup_alter_eq. by destruct C as [? ->].
  - unfold upd_prev, upd_next. by rewrite !dom_alter_L.
Qed.

Lemma init_head_spec m h : cell m h -> exists m', INIT_LIST_HEAD m h = Ok m' /\ ring m' h [] /\ outside [h] m m'.
Proof.
  intros C. unfold INIT_LIST_HEAD. stores. eexists. split; [reflexivity|]. split; [|outside_stores].
  split; [apply NoDup_singleton|]. cbn. fields. by rewrite !decide_True.
Qed.

Lemma splice_spec m a l h k : ring m a l -> ring m h k -> l <> [] -> (forall p, p ∈ a :: l -> p ∉ h :: k) ->
  exists m', __list_splice m a h = Ok m' /\ ring m' h (l ++ k) /\ outside (l ++ h :: k) m m'.
Proof.
  intros HA HH Hl HD. unfold __list_splice.
  rewrite (get_next_ok _ _ _ (ring_next _ _ _ HA)), (get_prev_ok _ _ _ (ring_prev _ _ _ HA)), (get_next_ok _ _ _ (ring_next _ _ _ HH)). cbn [mbind res_bind].
  destruct l as [|b l]; [done|]. clear Hl.
  assert (HZ : List.last (b :: l) a ∈ b :: l).
  { clear. revert b. induction l as [|c l IH]; intros b; [set_solver|]. change (List.last (b :: c :: l) a) with (List.last (c :: l) a). set_solver. }
  assert (HAt : hd h k ∈ h :: k) by (destruct k; set_solver).
  set (z := List.last (b :: l) a) in *. set (t := hd h k) in *. cbn [hd].
  assert (cell m b /\ cell m h /\ cell m z /\ cell m t) as (Cb & Ch & Cz & Ct).
  { split_and!; first [eapply (ring_cells m a); [done|set_solver]|eapply (ring_cells m h); [done|set_solver]]. }
  stores. eexists. split; [reflexivity|].
  destruct HA as [NA LA], HH as [NH LH]. split; [|outside_stores].
  assert (exists l0, b :: l = l0 ++ [z]) as [l0 E].
  { unfold z. clear. destruct l as [|z l _] using rev_ind; [by exists []|]. exists (b :: l). by rewrite app_comm_cons, last_last. }
  assert (Ht : t = hd h k) by done. clearbody z t.
  set (m' := upd_prev _ t z).
  assert (Nx : forall p, nxt m' p = if decide (p = z) then Some t else if decide (p = h) then Some b else nxt m p) by (intros p; unfold m'; by fields).
  assert (Pv : forall p, prv m' p = if decide (p = t) then Some z else if decide (p = b) then Some h else prv m p) by (intros p; unfold m'; by fields).
  apply NoDup_cons in NA as [NA1 NA2]. apply NoDup_cons in NH as [NH1 NH2]. split.
  { apply NoDup_cons. split; [set_solver|]. apply NoDup_app. split_and!; [done|set_solver|done]. }
  assert (D1 : forall p, p ∈ b :: l -> p <> h /\ p <> t) by (intros p Hp; specialize (HD p); clear -Hp HD HAt; split; intros ->; set_solver).
  assert (D2 : forall p, p ∈ h :: k -> p <> b /\ p <> z) by (intros p Hp; clear -Hp HD HZ; split; intros ->; set_solver).
  clear HD. assert (L1 : links m' (h :: b :: l)).
  { rewrite links_pair, Nx, Pv. rewrite (decide_False (P := h = z)), (decide_False (P := b = t)), !decide_True by first [done|apply D2; left|apply D1; left].
    split_and!; [done..|]. clearbody m'. destruct l as [|z' l _] using rev_ind; [done|]. rewrite app_comm_cons in E. apply app_inj_tail in E as [_ <-].
    cbn [app] in LA. rewrite !links_pair in LA. destruct LA as (_ & _ & LA).
    rewrite <- app_assoc, app_comm_cons in LA. apply links_app in LA as [LA _]. revert LA. apply links_ext; intros p Hp.
    - rewrite Nx, !decide_False; [done|apply D1; clear -Hp; set_solver|]. intros ->.
      rewrite app_comm_cons in NA2. apply NoDup_app in NA2 as (_ & N & _). apply (N z' Hp). set_solver.
    - rewrite Pv, !decide_False; [done| |apply D1; clear -Hp; set_solver]. intros ->. by apply NoDup_cons in NA2 as [N _]. }
  assert (L2 : links m' (z :: k ++ [h])).
  { destruct k as [|t' k]; cbn in Ht; subst t; cbn [app]; rewrite links_pair, Nx, Pv, !decide_True by done; split_and!; try done.
    cbn [app] in LH. rewrite links_pair in LH. destruct LH as (_ & _ & LH).
    revert LH. apply links_ext; intros p Hp.
    - rewrite Nx, !decide_False; [done| |apply D2; clear -Hp; set_solver]. by intros ->.
    - rewrite Pv, !decide_False; [done|apply D2; clear -Hp; set_solver|]. intros ->. apply NoDup_cons in NH2 as [N _].
      clear -Hp N NH1. set_solver. }
  rewrite E in *. rewrite <- app_assoc, <- app_assoc, app_comm_cons. by apply links_app.
Qed.

(** ** Several lists in one memory

    The abstract state: the lists by their heads, and the nodes that are in none. *)

Record lists := mk_lists { ls_rings : gmap Z (list Z); ls_loose : gset Z }.

Inductive list_op : Type :=
  | OInit (h : Z)
  | OAdd (x h : Z)
  | OAddTail (x h : Z)
  | ODel (e : Z)
  | ODelInit (e : Z)
  | OMove (e h : Z)
  | OMoveTail (e h : Z)
  | OEmpty (h : Z)
  | OSplice (a h : Z)
  | OSpliceInit (a h : Z).

(** What the operations promise: nodes are added that are in no list, and deleted from the list
    they are in. The answer is that of [list_empty], false for the others. *)
Inductive list_spec : lists -> list_op -> bool -> lists -> Prop :=
  | spec_init R F h : h ∈ F -> list_spec (mk_lists R F) (OInit h) false (mk_lists (<[h := []]> R) (F ∖ {[h]}))
  | spec_add R F x h l : x ∈ F -> R !! h = Some l ->
      list_spec (mk_lists R F) (OAdd x h) false (mk_lists (<[h := x :: l]> R) (F ∖ {[x]}))
  | spec_add_tail R F x h l : x ∈ F -> R !! h = Some l ->
      list_spec (mk_lists R F) (OAddTail x h) false (mk_lists (<[h := l ++ [x]]> R) (F ∖ {[x]}))
  | spec_del R F e h l1 l2 : R !! h = Some (l1 ++ e :: l2) ->
      list_spec (mk_lists R F) (ODel e) false (mk_lists (<[h := l1 ++ l2]> R) ({[e]} ∪ F))
  | spec_del_init R F e h l1 l2 : R !! h = Some (l1 ++ e :: l2) ->
      list_spec (mk_lists R F) (ODelInit e) false (mk_lists (<[e := []]> (<[h := l1 ++ l2]> R)) F)
  | spec_move R F e h l1 l2 h' k : R !! h = Some (l1 ++ e :: l2) -> <[h := l1 ++ l2]> R !! h' = Some k ->
      list_spec (mk_lists R F) (OMove e h') false (mk_lists (<[h' := e :: k]> (<[h := l1 ++ l2]> R)) F)
  | spec_move_tail R F e h l1 l2 h' k : R !! h = Some (l1 ++ e :: l2) -> <[h := l1 ++ l2]> R !! h' = Some k ->
      list_spec (mk_lists R F) (OMoveTail e h') false (mk_lists (<[h' := k ++ [e]]> (<[h := l1 ++ l2]> R)) F)
  | spec_empty R F h l : R !! h = Some l -> list_spec (mk_lists R F) (OEmpty h) (bool_decide (l = [])) (mk_lists R F)
  | spec_splice_nil R F a h : R !! a = Some [] -> list_spec (mk_lists R F) (OSplice a h) false (mk_lists R F)
  | spec_splice R F a h l k : a <> h -> R !! a = Some l -> l <> [] -> R !! h = Some k ->
      list_spec (mk_lists R F) (OSplice a h) false (mk_lists (<[h := l ++ k]> (delete a R)) ({[a]} ∪ F))
  | spec_splice_init_nil R F a h : R !! a = Some [] -> list_spec (mk_lists R F) (OSpliceInit a h) false (mk_lists R F)
  | spec_splice_init R F a h l k : a <> h -> R !! a = Some l -> l <> [] -> R !! h = Some k ->
      list_spec (mk_lists R F) (OSpliceInit a h) false (mk_lists (<[a := []]> (<[h := l ++ k]> (delete a R))) F).

Inductive list_specs : lists -> list list_op -> list bool -> lists -> Prop :=
  | specs_nil s : list_specs s [] [] s
  | specs_cons s o r s' os rs s'' : list_spec s o r s' -> list_specs s' os rs s'' -> list_specs s (o :: os) (r :: rs) s''.

Definition run_op (m : memory) (o : list_op) : res (bool * memory) :=
  match o with
  | OInit h => m ← INIT_LIST_HEAD m h; Ok (false, m)
  | OAdd x h => m ← list_add m x h; Ok (false, m)
  | OAddTail x h => m ← list_add_tail m x h; Ok (false, m)
  | ODel e => m ← list_del m e; Ok (false, m)
  | ODelInit e => m ← list_del_init m e; Ok (false, m)
  | OMove e h => m ← list_move m e h; Ok (false, m)
  | OMoveTail e h => m ← list_move_tail m e h; Ok (false, m)
  | OEmpty h => b ← list_empty m h; Ok (b, m)
  | OSplice a h => m ← list_splice m a h; Ok (false, m)
  | OSpliceInit a h => m ← list_splice_init m a h; Ok (false, m)
  end.

Fixpoint run_ops (m : memory) (os : list list_op) : res (list bool * memory) :=
  match os with
  | [] => Ok ([], m)
  | o :: os => '(r, m) ← run_op m o; '(rs, m) ← run_ops m os; Ok (r :: rs, m)
  end.

(** The rings do not share nodes, and the loose nodes exist and are in no ring. *)
Record holds (m : memory) (s : lists) : Prop := {
  hd_rings : forall h l, ls_rings s !! h = Some l -> ring m h l;
  hd_apart : forall h l h' l' p, ls_rings s !! h = Some l -> ls_rings s !! h' = Some l' -> p ∈ h :: l -> p ∈ h' :: l' -> h = h';
  hd_loose : forall h l p, ls_rings s !! h = Some l -> p ∈ h :: l -> p ∉ ls_loose s;
  hd_cells : forall p, p ∈ ls_loose s -> cell m p;
}.

Lemma outside_cell s m m' p : outside s m m' -> p ∉ s -> cell m p -> cell m' p.
Proof. intros H Hp. unfold cell. by rewrite H. Qed.

(** One list changes: it takes nodes that were loose, and those it loses are loose. *)
Lemma holds_update m m' R F h l l' F' : holds m (mk_lists R F) -> R !! h = Some l -> ring m' h l' ->
  outside (h :: l ++ l') m m' -> (forall p, p ∈ l' -> p ∈ l \/ p ∈ F) ->
  (forall p, p ∈ F' -> p ∉ h :: l' /\ (p ∈ F \/ p ∈ l)) -> (forall p, p ∈ F' -> cell m' p) ->
  holds m' (mk_lists (<[h := l']> R) F').
Proof.
  intros [HR HA HL HC] Hh HR' HO Hin HF' HC'. cbn in *. split; cbn; [..|done].
  - intros h1 l1. destruct (decide (h1 = h)) as [->|N]; [rewrite lookup_insert_eq; by intros [= <-]|].
    rewrite lookup_insert_ne by done. intros E. apply (ring_ext m); [|by apply HR]. right.
    intros p Hp. apply HO. intros [Hq|[Hq|Hq%Hin]%elem_of_app]%elem_of_cons; [subst| |destruct Hq as [Hq|Hq]].
    + apply N. eapply HA; [done|exact Hh|done|left].
    + apply N. eapply HA; [done|exact Hh|done|by right].
    + apply N. eapply HA; [done|exact Hh|done|by right].
    + by apply (HL h1 l1 p).
  - intros h1 l1 h2 l2 p.
    assert (G : forall h1 l1, h1 <> h -> R !! h1 = Some l1 -> p ∈ h1 :: l1 -> p ∉ h :: l').
    { intros h3 l3 N E Hp [->|Hq]%elem_of_cons; [by apply N; eapply HA; [done|exact Hh|done|left]|].
      apply Hin in Hq as [Hq|Hq]; [by apply N; eapply HA; [done|exact Hh|done|right]|by apply (HL h3 l3 p)]. }
    destruct (decide (h1 = h)) as [->|N1], (decide (h2 = h)) as [->|N2]; rewrite ?lookup_insert_eq, ?lookup_insert_ne by done; [done|..].
    + intros [= <-] E2 H1 H2. by apply (G h2 l2) in H2.
    + intros E1 [= <-] H1 H2. by apply (G h1 l1) in H1.
    + apply HA.
  - intros h1 l1 p. destruct (decide (h1 = h)) as [->|N]; [rewrite lookup_insert_eq|rewrite lookup_insert_ne by done].
    + intros [= <-] Hp Hf. by apply HF' in Hf as [Hf _].
    + intros E Hp Hf. apply HF' in Hf as [_ [Hf|Hf]]; [by apply (HL h1 l1 p)|]. apply N. eapply HA; [done|exact Hh|done|by right].
Qed.

(** A loose node becomes the head of an empty list. *)
Lemma holds_new m m' R F h : holds m (mk_lists R F) -> h ∈ F -> ring m' h [] -> outside [h] m m' ->
  holds m' (mk_lists (<[h := []]> R) (F ∖ {[h]})).
Proof.
  intros [HR HA HL HC] Hh HR' HO. cbn in *.
  assert (Hn : forall h1 l1, R !! h1 = Some l1 -> h ∉ h1 :: l1) by (intros h1 l1 E Hp; by apply (HL h1 l1 h)).
  split; cbn.
  - intros h1 l1. destruct (decide (h1 = h)) as [->|N]; [rewrite lookup_insert_eq; by intros [= <-]|].
    rewrite lookup_insert_ne by done. intros E. apply (ring_ext m); [|by apply HR]. right.
    intros p Hp. apply HO. specialize (Hn h1 l1 E). set_solver.
  - intros h1 l1 h2 l2 p.
    destruct (decide (h1 = h)) as [->|N1], (decide (h2 = h)) as [->|N2]; rewrite ?lookup_insert_eq, ?lookup_insert_ne by done; [done|..].
    + intros [= <-] E2 H1 H2. apply list_elem_of_singleton in H1 as ->. by apply Hn in H2.
    + intros E1 [= <-] H1 H2. apply list_elem_of_singleton in H2 as ->. by apply Hn in H1.
    + apply HA.
  - intros h1 l1 p. destruct (decide (h1 = h)) as [->|N]; [rewrite lookup_insert_eq|rewrite lookup_insert_ne by done].
    + intros [= <-] Hp. set_solver.
    + intros E Hp. specialize (HL h1 l1 p E Hp). set_solver.
  - intros p Hp. apply (outside_cell [h] m); [done|set_solver|]. apply HC. set_solver.
Qed.

Lemma holds_store m m' s e : holds m s -> e ∈ ls_loose s -> outside [e] m m' -> cell m' e -> holds m' s.
Proof.
  intros [HR HA HL HC] He HO Ce. split; [|done..|].
  - intros h l E. apply (ring_ext m); [|by apply HR]. right. intros p Hp. apply HO. intros ->%list_elem_of_singleton. by apply (HL h l e).
  - intros p Hp. destruct (decide (p = e)) as [->|N]; [done|]. apply (outside_cell [e] m); [done|set_solver|by apply HC].
Qed.

Lemma holds_init m R F h : holds m (mk_lists R F) -> h ∈ F ->
  exists m', INIT_LIST_HEAD m h = Ok m' /\ holds m' (mk_lists (<[h := []]> R) (F ∖ {[h]})).
Proof.
  intros H Hh. destruct (init_head_spec m h) as (m' & E & R' & O); [by apply (hd_cells _ _ H)|].
  exists m'. split; [done|]. by apply (holds_new m).
Qed.

Lemma holds_link m m' R F h l l' x : holds m (mk_lists R F) -> x ∈ F -> R !! h = Some l -> ring m' h l' ->
  l' ≡ₚ x :: l -> outside (x :: h :: l) m m' -> holds m' (mk_lists (<[h := l']> R) (F ∖ {[x]})).
Proof.
  intros H Hx Hh HR' HP HO. apply (holds_update m m' R F h l l'); try done.
  - revert HO. apply outside_sub. rewrite HP. set_solver.
  - intros p. rewrite HP. set_solver.
  - intros p Hp. pose proof (hd_loose _ _ H h l p Hh). rewrite HP. set_solver.
  - intros p Hp. apply (outside_cell (x :: h :: l) m); [done| |apply (hd_cells _ _ H); set_solver].
    pose proof (hd_loose _ _ H h l p Hh). set_solver.
Qed.

Lemma holds_add m R F x h l : holds m (mk_lists R F) -> x ∈ F -> R !! h = Some l ->
  exists m', list_add m x h = Ok m' /\ holds m' (mk_lists (<[h := x :: l]> R) (F ∖ {[x]})).
Proof.
  intros H Hx Hh. destruct (list_add_spec m h l x) as (m' & E & R' & O).
  - by apply (hd_rings _ _ H).
  - intros Hp. by apply (hd_loose _ _ H h l x).
  - by apply (hd_cells _ _ H).
  - exists m'. split; [done|]. by apply (holds_link m _ _ _ _ l).
Qed.

Lemma holds_add_tail m R F x h l : holds m (mk_lists R F) -> x ∈ F -> R !! h = Some l ->
  exists m', list_add_tail m x h = Ok m' /\ holds m' (mk_lists (<[h := l ++ [x]]> R) (F ∖ {[x]})).
Proof.
  intros H Hx Hh. destruct (list_add_tail_spec m h l x) as (m' & E & R' & O).
  - by apply (hd_rings _ _ H).
  - intros Hp. by apply (hd_loose _ _ H h l x).
  - by apply (hd_cells _ _ H).
  - exists m'. split; [done|]. apply (holds_link m _ _ _ _ l); try done. by rewrite Permutation_app_comm.
Qed.

Lemma holds_unlink m R F e h l1 l2 : holds m (mk_lists R F) -> R !! h = Some (l1 ++ e :: l2) ->
  exists p n m', get_prev m e = Ok p /\ get_next m e = Ok n /\ __list_del m p n = Ok m' /\
    holds m' (mk_lists (<[h := l1 ++ l2]> R) ({[e]} ∪ F)).
Proof.
  intros H Hh. pose proof (hd_rings _ _ H _ _ Hh) as HR. destruct (unlink_spec m h l1 e l2 HR) as (p & n & m' & E1 & E2 & E3 & R' & O).
  exists p, n, m'. split_and!; try done. pose proof (ring_remaining _ _ _ _ _ HR) as He.
  apply (holds_update m m' R F h (l1 ++ e :: l2) (l1 ++ l2)); try done.
  - revert O. apply outside_sub. set_solver.
  - set_solver.
  - intros q [->%elem_of_singleton|Hq]%elem_of_union; [set_solver|]. pose proof (hd_loose _ _ H h _ q Hh). set_solver.
  - intros q [->%elem_of_singleton|Hq]%elem_of_union; apply (outside_cell _ _ _ _ O); [done|by eapply ring_cells; [done|set_solver]| |by apply (hd_cells _ _ H)].
    pose proof (hd_loose _ _ H h _ q Hh). set_solver.
Qed.

Lemma not_loose m R F h l1 e l2 : holds m (mk_lists R F) -> R !! h = Some (l1 ++ e :: l2) -> ({[e]} ∪ F) ∖ {[e]} = F.
Proof. intros H Hh. pose proof (hd_loose _ _ H h _ e Hh). cbn in *. set_solver. Qed.

Lemma holds_splice m R F a h l k : holds m (mk_lists R F) -> a <> h -> R !! a = Some l -> l <> [] -> R !! h = Some k ->
  exists m', __list_splice m a h = Ok m' /\ holds m' (mk_lists (<[h := l ++ k]> (delete a R)) ({[a]} ∪ F)).
Proof.
  intros H Hah Ha Hl Hh. pose proof (hd_rings _ _ H _ _ Ha) as RA. pose proof (hd_rings _ _ H _ _ Hh) as RH. cbn in *.
  assert (HD : forall p, p ∈ a :: l -> p ∉ h :: k) by (intros p H1 H2; apply Hah; by eapply (hd_apart _ _ H)).
  destruct (splice_spec m a l h k) as (m' & E & R' & O); try done. exists m'. split; [done|].
  assert (Hal : a ∉ l) by (destruct RA as [N _]; by apply NoDup_cons in N as [N _]).
  destruct H as [HR HA HL HC]. cbn in *. split; cbn.
  - intros h1 l1. destruct (decide (h1 = h)) as [->|N]; [rewrite lookup_insert_eq; by intros [= <-]|].
    rewrite lookup_insert_ne by done. intros [Na E1]%lookup_delete_Some. apply (ring_ext m); [|by apply HR]. right.
    intros p Hp. apply O. intros [Hq|Hq]%elem_of_app; [apply Na|apply N]; symmetry; eapply HA; try done. by right.
  - intros h1 l1 h2 l2 p.
    assert (G : forall h1 l1, h1 <> h -> delete a R !! h1 = Some l1 -> p ∈ h1 :: l1 -> p ∉ h :: l ++ k).
    { intros h3 l3 N [Na E3]%lookup_delete_Some Hp Hq. assert (p ∈ h :: k \/ p ∈ a :: l) as [Hq'|Hq'] by set_solver; [apply N|apply Na; symmetry]; by eapply HA. }
    destruct (decide (h1 = h)) as [->|N1], (decide (h2 = h)) as [->|N2]; rewrite ?lookup_insert_eq, ?lookup_insert_ne by done; [done|..].
    + intros [= <-] E2 H1 H2. by apply (G h2 l2) in H2.
    + intros E1 [= <-] H1 H2. by apply (G h1 l1) in H1.
    + intros [_ E1]%lookup_delete_Some [_ E2]%lookup_delete_Some. by apply HA.
  - intros h1 l1 p. destruct (decide (h1 = h)) as [->|N]; [rewrite lookup_insert_eq|rewrite lookup_insert_ne by done].
    + intros [= <-] Hp. pose proof (HL _ _ p Hh). pose proof (HL _ _ p Ha). pose proof (HD a). set_solver.
    + intros [Na E1]%lookup_delete_Some Hp. pose proof (HL _ _ p E1 Hp). intros [->%elem_of_singleton|Hq]%elem_of_union; [|done].
      apply Na. symmetry. by eapply HA; [..|left].
  - assert (Oc : forall q, q ∉ l ++ h :: k -> cell m q -> cell m' q) by (intros q; by apply outside_cell).
    intros p [->%elem_of_singleton|Hp]%elem_of_union; apply Oc.
    + pose proof (HD a). set_solver.
    + eapply ring_cells; [exact RA|left].
    + pose proof (HL _ _ p Hh). pose proof (HL _ _ p Ha). set_solver.
    + by apply HC.
Qed.

Lemma run_op_spec m s o r s' : holds m s -> list_spec s o r s' -> exists m', run_op m o = Ok (r, m') /\ holds m' s'.
Proof.
  intros H HS. destruct HS as [R F h Hh|R F x h l Hx Hh|R F x h l Hx Hh|R F e h l1 l2 Hh|R F e h l1 l2 Hh|R F e h l1 l2 h' k Hh Hk
    |R F e h l1 l2 h' k Hh Hk|R F h l Hh|R F a h Ha|R F a h l k Hah Ha Hl Hh|R F a h Ha|R F a h l k Hah Ha Hl Hh]; cbn [run_op].
  - destruct (holds_init m R F h H Hh) as (m' & -> & H'). by exists m'.
  - destruct (holds_add m R F x h l H Hx Hh) as (m' & -> & H'). by exists m'.
  - destruct (holds_add_tail m R F x h l H Hx Hh) as (m' & -> & H'). by exists m'.
  - destruct (holds_unlink m R F e h l1 l2 H Hh) as (p & n & m1 & E1 & E2 & E3 & H1). unfold list_del. rewrite E1, E2. cbn [mbind res_bind]. rewrite E3.
    assert (C : cell m1 e) by (apply (hd_cells _ _ H1); set_solver). cbn [mbind res_bind]. stores. eexists. split; [reflexivity|].
    apply (holds_store m1 _ _ e); [done|set_solver|outside_stores|cells].
  - destruct (holds_unlink m R F e h l1 l2 H Hh) as (p & n & m1 & E1 & E2 & E3 & H1). unfold list_del_init. rewrite E1, E2. cbn [mbind res_bind]. rewrite E3.
    destruct (holds_init _ _ _ e H1) as (m' & E & H'); [set_solver|]. cbn [mbind res_bind]. rewrite E. exists m'. by rewrite (not_loose _ _ _ _ _ _ _ H Hh) in H'.
  - destruct (holds_unlink m R F e h l1 l2 H Hh) as (p & n & m1 & E1 & E2 & E3 & H1). unfold list_move. rewrite E1, E2. cbn [mbind res_bind]. rewrite E3.
    destruct (holds_add _ _ _ e h' k H1) as (m' & E & H'); [set_solver|done|]. cbn [mbind res_bind]. rewrite E. exists m'. by rewrite (not_loose _ _ _ _ _ _ _ H Hh) in H'.
  - destruct (holds_unlink m R F e h l1 l2 H Hh) as (p & n & m1 & E1 & E2 & E3 & H1). unfold list_move_tail. rewrite E1, E2. cbn [mbind res_bind]. rewrite E3.
    destruct (holds_add_tail _ _ _ e h' k H1) as (m' & E & H'); [set_solver|done|]. cbn [mbind res_bind]. rewrite E. exists m'. by rewrite (not_loose _ _ _ _ _ _ _ H Hh) in H'.
  - rewrite (list_empty_spec m h l) by (by apply (hd_rings _ _ H)). by exists m.
  - unfold list_splice. rewrite (list_empty_spec m a []) by (by apply (hd_rings _ _ H)). by exists m.
  - unfold list_splice. rewrite (list_empty_spec m a l) by (by apply (hd_rings _ _ H)). rewrite bool_decide_eq_false_2 by done.
    destruct (holds_splice m R F a h l k) as (m' & E & H'); try done. cbn [mbind res_bind]. rewrite E. by exists m'.
  - unfold list_splice_init. rewrite (list_empty_spec m a []) by (by apply (hd_rings _ _ H)). by exists m.
  - unfold list_splice_init. rewrite (list_empty_spec m a l) by (by apply (hd_rings _ _ H)). rewrite bool_decide_eq_false_2 by done.
    destruct (holds_splice m R F a h l k) as (m1 & E & H1); try done. cbn [mbind res_bind]. rewrite E.
    destruct (holds_init _ _ _ a H1) as (m' & E' & H'); [set_solver|]. cbn [mbind res_bind]. rewrite E'. exists m'. split; [done|].
    pose proof (hd_loose _ _ H a l a Ha). replace (({[a]} ∪ F) ∖ {[a]}) with F in H'; [done|]. cbn in *. set_solver.
Qed.

(** ** The loops *)

(** The nodes of [l] in order, until the body says stop. *)
Fixpoint visit {W} (f : Z -> W -> res (bool * W)) (l : list Z) (w : W) : res W :=
  match l with
  | [] => Ok w
  | p :: l => '(stop, w) ← f p w; if stop : bool then Ok w else visit f l w
  end.

Lemma each_loop_spec {W} (f : Z -> W -> res (bool * W)) m h l2 : forall fuel l1 w,
  ring m h (l1 ++ l2) -> (length l2 < fuel)%nat ->
  each_loop (reading f) fuel h (hd h l2) m w = (w ← visit f l2 w; Ok (m, w)).
Proof.
  induction l2 as [|p l2 IH]; intros [|fuel] l1 w HR Hf; cbn in Hf; try lia; cbn [each_loop hd visit].
  - by rewrite Z.eqb_refl.
  - assert (Np : p <> h) by (destruct HR as [N _]; apply NoDup_cons in N as [N _]; set_solver).
    apply Z.eqb_neq in Np as ->. change (reading f p m w) with ('(stop, w) ← f p w; Ok (stop, m, w)). destruct (f p w) as [[[] w']|ft]; cbn [mbind res_bind]; [reflexivity| |reflexivity].
    assert (Gn : get_next m p = Ok (hd h l2)).
    { apply get_next_ok. rewrite (ring_next _ _ _ (ring_rotate _ _ _ _ _ HR)). by destruct l2. }
    rewrite Gn. cbn [mbind res_bind]. apply (IH fuel (l1 ++ [p])); [by rewrite <- app_assoc|lia].
Qed.

(** A walk that changes no list visits the nodes in order. *)
Lemma list_for_each_spec {W} (f : Z -> W -> res (bool * W)) m h l fuel w : ring m h l -> (length l < fuel)%nat ->
  list_for_each (reading f) fuel h m w = (w ← visit f l w; Ok (m, w)).
Proof.
  intros HR Hf. unfold list_for_each. rewrite (get_next_ok _ _ _ (ring_next _ _ _ HR)). cbn [mbind res_bind].
  by apply (each_loop_spec f m h l fuel []).
Qed.

Lemma each_prev_loop_spec {W} (f : Z -> W -> res (bool * W)) m h l1 : forall fuel l2 w,
  ring m h (l1 ++ l2) -> (length l1 < fuel)%nat ->
  each_prev_loop (reading f) fuel h (List.last l1 h) m w = (w ← visit f (rev l1) w; Ok (m, w)).
Proof.
  induction l1 as [|p l1 IH] using rev_ind; intros [|fuel] l2 w HR Hf; rewrite ?length_app in Hf; cbn in Hf; try lia; cbn [each_prev_loop].
  - by rewrite Z.eqb_refl.
  - rewrite last_last, rev_unit. cbn [visit].
    assert (Np : p <> h) by (destruct HR as [N _]; apply NoDup_cons in N as [N _]; set_solver).
    apply Z.eqb_neq in Np as ->. change (reading f p m w) with ('(stop, w) ← f p w; Ok (stop, m, w)). destruct (f p w) as [[[] w']|ft]; cbn [mbind res_bind]; [reflexivity| |reflexivity].
    rewrite <- app_assoc in HR. assert (Gp : get_prev m p = Ok (List.last l1 h)).
    { apply get_prev_ok. rewrite (ring_prev _ _ _ (ring_rotate _ _ _ _ _ HR)). f_equal.
      destruct l1 as [|q l1 _] using rev_ind; [by rewrite last_last|]. by rewrite last_last, app_comm_cons, app_assoc, last_last. }
    rewrite Gp. cbn [mbind res_bind]. apply (IH fuel (p :: l2)); [done|lia].
Qed.

(** And backwards. *)
Lemma list_for_each_prev_spec {W} (f : Z -> W -> res (bool * W)) m h l fuel w : ring m h l -> (length l < fuel)%nat ->
  list_for_each_prev (reading f) fuel h m w = (w ← visit f (rev l) w; Ok (m, w)).
Proof.
  intros HR Hf. unfold list_for_each_prev. rewrite (get_prev_ok _ _ _ (ring_prev _ _ _ HR)). cbn [mbind res_bind].
  apply (each_prev_loop_spec f m h l fuel []); [by rewrite app_nil_r|done].
Qed.

Section safe.
Context {W : Type} (body : Z -> memory -> W -> res (bool * memory * W)) (h : Z).

(** [I done todo m w]: the nodes kept so far, those to come, the memory and the caller's state. *)
Context (I : list Z -> list Z -> memory -> W -> Prop).
Context (Hring : forall l1 l2 m w, I l1 l2 m w -> ring m h (l1 ++ l2)).
Context (Hbody : forall l1 p l2 m w, I l1 (p :: l2) m w ->
  exists kept m' w', body p m w = Ok (false, m', w') /\ I (l1 ++ kept) l2 m' w').

Lemma safe_loop_spec l2 : forall fuel l1 m w n, I l1 l2 m w -> (length l2 < fuel)%nat -> (l2 <> [] -> n = hd h (tail l2)) ->
  exists l' m' w', safe_loop body fuel h (hd h l2) n m w = Ok (m', w') /\ I l' [] m' w'.
Proof using Hring Hbody.
  induction l2 as [|p l2 IH]; intros [|fuel] l1 m w n HI Hf Hn; cbn in Hf; try lia; cbn [safe_loop hd].
  - rewrite Z.eqb_refl. eauto.
  - pose proof (Hring _ _ _ _ HI) as HR.
    assert (Np : p <> h) by (destruct HR as [N _]; apply NoDup_cons in N as [N _]; set_solver).
    apply Z.eqb_neq in Np as ->. destruct (Hbody _ _ _ _ _ HI) as (kept & m' & w' & E & HI').
    rewrite E. cbn [mbind res_bind]. rewrite Hn by done. cbn [tail]. pose proof (Hring _ _ _ _ HI') as HR'.
    assert (exists n', get_next m' (hd h l2) = Ok n' /\ (l2 <> [] -> n' = hd h (tail l2))) as (n' & En & Hn').
    { destruct l2 as [|q l2]; cbn [hd tail].
      - eexists. split; [apply get_next_ok, (ring_next _ _ _ HR')|done].
      - exists (hd h l2). split; [|done]. apply get_next_ok. rewrite (ring_next _ _ _ (ring_rotate _ _ _ _ _ HR')). by destruct l2. }
    rewrite En. cbn [mbind res_bind]. apply (IH fuel (l1 ++ kept)); [done|lia|done].
Qed.

(** A walk that may delete the node it is at reaches the end, whatever it deletes. *)
Lemma list_for_each_safe_spec fuel l m w : I [] l m w -> (length l < fuel)%nat ->
  exists l' m' w', list_for_each_safe body fuel h m w = Ok (m', w') /\ I l' [] m' w'.
Proof using Hring Hbody.
  intros HI Hf. pose proof (Hring _ _ _ _ HI) as HR. cbn in HR. unfold list_for_each_safe.
  rewrite (get_next_ok _ _ _ (ring_next _ _ _ HR)). cbn [mbind res_bind].
  assert (exists n, get_next m (hd h l) = Ok n /\ (l <> [] -> n = hd h (tail l))) as (n & En & Hn).
  { destruct l as [|q l]; cbn [hd tail].
    - eexists. split; [apply get_next_ok, (ring_next _ _ _ HR)|done].
    - exists (hd h l). split; [|done]. apply get_next_ok. rewrite (ring_next _ _ _ (ring_rotate _ _ _ [] _ HR)). by destruct l. }
  rewrite En. cbn [mbind res_bind]. by apply (safe_loop_spec l fuel []).
Qed.

End safe.

(** The fuel of the walks: one more than the nodes of the memory. *)
Definition turns (m : memory) : nat := S (size m).

Lemma ring_turns m h l : ring m h l -> (length l < turns m)%nat.
Proof.
  intros HR. unfold turns. assert (length (h :: l) <= size (dom m))%nat as H; [|rewrite size_dom in H; cbn in H; lia].
  rewrite <- (size_list_to_set (C := gset Z) (h :: l)) by apply HR. apply subseteq_size. intros p Hp%elem_of_list_to_set.
  apply elem_of_dom. by eapply ring_cells.
Qed.

(** ** Properties *)

Definition demo_memory : memory := list_to_map (map (fun p => (p, mk_head 0 0)) [1; 2; 3; 4; 5]).
Definition demo_ops : list list_op :=
  [OInit 1; OInit 2; OAddTail 3 1; OAdd 4 1; OAddTail 5 2; OMove 3 2; OEmpty 1; OSpliceInit 1 2; ODel 5; OEmpty 1].

(** C11: The intrusive lists are lists. On any memory that holds some lists and some nodes that are in
    none, any sequence of the operations of list.h (initialise, add at either end, delete, delete and
    initialise, move, test for emptiness, splice) that adds only nodes that are in no list and
    deletes only nodes that are in one leaves defined behaviour nowhere, answers as the lists
    determine, and leaves the memory holding the lists that the operations on plain lists give; the
    lists stay apart, so an operation on one does not disturb another. *)
Theorem lists_refine m s os rs s' : holds m s -> list_specs s os rs s' -> exists m', run_ops m os = Ok (rs, m') /\ holds m' s'.
Proof.
  intros H HS. revert m H. induction HS as [s|s o r s1 os rs s2 HS _ IH]; intros m H; [by exists m|].
  destruct (run_op_spec m s o r s1 H HS) as (m1 & E & H1). destruct (IH m1 H1) as (m' & E' & H').
  exists m'. cbn. rewrite E. cbn [mbind res_bind]. by rewrite E'.
Qed.

Lemma demo_holds : holds demo_memory (mk_lists ∅ {[1; 2; 3; 4; 5]}).
Proof.
  split; cbn; try done. intros p Hp. assert (p = 1 \/ p = 2 \/ p = 3 \/ p = 4 \/ p = 5) as H by set_solver.
  repeat destruct H as [->|H]; [by eexists..|subst; by eexists].
Qed.

Lemma demo_specs : exists s', list_specs (mk_lists ∅ {[1; 2; 3; 4; 5]}) demo_ops
  [false; false; false; false; false; false; false; false; false; true] s' /\ ls_rings s' !! 2 = Some [4; 3] /\ ls_rings s' !! 1 = Some [].
Proof.
  eexists. split; [|shelve]. unfold demo_ops.
  econstructor; [by constructor|]. econstructor; [by constructor|].
  econstructor; [by econstructor|]. econstructor; [by econstructor|]. econstructor; [by econstructor|].
  econstructor; [by apply (spec_move _ _ 3 1 [4] [] 2 [5])|].
  econstructor; [apply (spec_empty _ _ 1 [4]); reflexivity|].
  econstructor; [by apply (spec_splice_init _ _ 1 2 [4] [3; 5])|].
  econstructor; [by apply (spec_del _ _ 5 2 [4; 3] [])|].
  econstructor; [by apply (spec_empty _ _ 1 [])|]. constructor.
  Unshelve. split; reflexivity.
Qed.

Lemma lists_refine_witness : exists m' s', run_ops demo_memory demo_ops = Ok ([false; false; false; false; false; false; false; false; false; true], m') /\
  holds m' s' /\ ls_rings s' !! 2 = Some [4; 3] /\ ls_rings s' !! 1 = Some [].
Proof.
  destruct demo_specs as (s' & HS & H2 & H1). destruct (lists_refine _ _ _ _ _ demo_holds HS) as (m' & E & H). by exists m', s'.
Defined.

End Lists.
