(* ===== verification/DispList.v ===== *)
(** * DispList: the dispatcher in memory

    [Dispatch] has the registry as a list. Here it is as ep_dispatch.c has it: objects that the
    allocator places, each with a node of list.h ([Lists]) inside, on the ring of the manager. The
    operations walk the ring and take an object from its node with [list_entry]; they are shown to
    be those of [Dispatch], and to give back every object. *)
From S2P Require Import Prelude Alloc Dispatch Lists.
From stdpp Require Import gmap.
Import Alloc Dispatch Lists.
Open Scope Z_scope.

Module DispList.
Section memory.
Context {P W : Type}.

#[local] Notation disp := (@ep_dispatch P W).

(** The nodes, and the other fields of the objects by the address of the object. *)
Record disp_mem := mk_mem { dm_nodes : memory; dm_disps : gmap Z disp }.

(** [&((ep_disp_t * )0)->list] and [&((ep_disp_mgr_t * )0)->disp_list]. *)
Definition offset_list : Z := 24.
Definition offset_disp_list : Z := 40.

Definition load (D : gmap Z disp) (a : Z) : res disp :=
  match D !! a with Some d => Ok d | None => Fault UseAfterFree end.

(** [ep_free] of an entry. *)
Definition free_disp (m : memory) (D : gmap Z disp) (a : Z) : res (memory * gmap Z disp) :=
  match D !! a with Some _ => Ok (delete (a + offset_list) m, delete a D) | None => Fault DoubleFree end.

(** [mgr] is where the manager is. *)
Definition mem_init (al : alloc) (mgr : Z) : res (option disp_mem * alloc) :=
  let '(ok, al) := ep_calloc al 1 sizeof_ep_disp_mgr in
  if negb ok then Ok (None, al) else
  m ← INIT_LIST_HEAD {[mgr + offset_disp_list := mk_head 0 0]} (mgr + offset_disp_list);
  Ok (Some (mk_mem m ∅), al).

Definition mem_count (M : disp_mem) (head category : Z) : res Z :=
  '(_, count) ← list_for_each (reading (fun pos count =>
      tmp ← load (dm_disps M) (list_entry offset_list pos);
      Ok (false, if d_category tmp =? category then count + 1 else count)))
    (turns (dm_nodes M)) head (dm_nodes M) 0;
  Ok count.

(** [place]: where the allocator puts an entry. *)
Definition mem_add_cb (place : disp_mem -> Z) (al : alloc) (M : disp_mem) (head category : Z) (cb : pfn_ep_cb P W) : res (Z * disp_mem * alloc) :=
  count ← mem_count M head category;
  if 1 <=? count then Ok (0, M, al) else
  let '(ok, al) := ep_calloc al 1 sizeof_ep_dispatch in
  if negb ok then Ok (0, M, al) else
  let disp := place M in
  let D := <[disp := mk_disp category cb]> (dm_disps M) in
  m ← list_add (<[disp + offset_list := mk_head 0 0]> (dm_nodes M)) (disp + offset_list) head;
  Ok (1, mk_mem m D, al).

(** The body of the walks that delete: the entries that are [dead], counting one. *)
Definition sweep (dead : disp -> bool) (pos : Z) (m : memory) (s : gmap Z disp * Z) : res (bool * memory * (gmap Z disp * Z)) :=
  let '(D, ret) := s in
  tmp ← load D (list_entry offset_list pos);
  if dead tmp then
    m ← list_del m pos;
    '(m, D) ← free_disp m D (list_entry offset_list pos);
    Ok (false, m, (D, 1))
  else Ok (false, m, (D, ret)).

Definition mem_del (M : disp_mem) (head category : Z) : res (Z * disp_mem) :=
  '(m, (D, ret)) ← list_for_each_safe (sweep (fun tmp => d_category tmp =? category)) (turns (dm_nodes M)) head (dm_nodes M) (dm_disps M, 0);
  Ok (ret, mk_mem m D).

Definition mem_processor (w : W) (M : disp_mem) (head category fd : Z) (pack : option P) : res (option P * bool * W) :=
  '(_, (response, b_pack_reclaim, w)) ← list_for_each (reading (fun pos s =>
      tmp ← load (dm_disps M) (list_entry offset_list pos);
      if d_category tmp =? category then let '(_, _, w) := s in Ok (true, d_cb tmp w fd pack) else Ok (false, s)))
    (turns (dm_nodes M)) head (dm_nodes M) (None, true, w);
  Ok (response, b_pack_reclaim && bool_decide (is_Some pack), w).

(** The memory that is left. *)
Definition mem_destroy (M : disp_mem) (mgr : Z) : res disp_mem :=
  '(m, (D, _)) ← list_for_each_safe (sweep (fun _ => true)) (turns (dm_nodes M)) (mgr + offset_disp_list) (dm_nodes M) (dm_disps M, 0);
  Ok (mk_mem (delete (mgr + offset_disp_list) m) D).

(** ** A sequence of operations *)

Definition mem_step (place : disp_mem -> Z) (head : Z) (s : disp_mem * W) (o : @disp_op P W) : res (@disp_out P * (disp_mem * W)) :=
  let '(M, w) := s in
  match o with
  | OpAdd c cb => '(r, M, _) ← mem_add_cb place [] M head c cb; Ok (OutInt r, (M, w))
  | OpDel c => '(r, M) ← mem_del M head c; Ok (OutInt r, (M, w))
  | OpCall c fd p => '(r, d, w) ← mem_processor w M head c fd p; Ok (OutCall r d, (M, w))
  end.

Fixpoint mem_run (place : disp_mem -> Z) (head : Z) (s : disp_mem * W) (os : list (@disp_op P W)) : res (list (@disp_out P) * (disp_mem * W)) :=
  match os with
  | [] => Ok ([], s)
  | o :: os => '(r, s) ← mem_step place head s o; '(rs, s) ← mem_run place head s os; Ok (r :: rs, s)
  end.

(** ** The registry the memory holds *)

Abbreviation entries := (list (Z * disp)).

Definition nodes (l : entries) : list Z := map (fun x => x.1 + offset_list) l.

(** The ring runs through the entries [l], and nothing else is allocated. *)
Record linked (M : disp_mem) (head : Z) (l : entries) : Prop := {
  lk_ring : ring (dm_nodes M) head (nodes l);
  lk_disps : dm_disps M = list_to_map l;
  lk_dom : dom (dm_nodes M) = list_to_set (head :: nodes l);
}.

Lemma nodes_app l k : nodes (l ++ k) = nodes l ++ nodes k.
Proof. apply map_app. Qed.

Lemma linked_nodup M head l : linked M head l -> NoDup l.*1.
Proof.
  intros [[HN _] _ _]. apply NoDup_cons in HN as [_ HN]. apply (NoDup_fmap_1 (fun a => a + offset_list)).
  by rewrite <- list_fmap_compose.
Qed.

Lemma linked_load M head l1 a d l2 : linked M head (l1 ++ (a, d) :: l2) -> load (dm_disps M) (list_entry offset_list (a + offset_list)) = Ok d.
Proof.
  intros HL. unfold load, list_entry. replace (a + offset_list - offset_list) with a by lia.
  rewrite (lk_disps _ _ _ HL), (elem_of_list_to_map_1 _ a d); [done|by eapply linked_nodup|set_solver].
Qed.

(** A walk over the entries, as the walk over their nodes. *)
Lemma visit_nodes {S} M head (f : Z -> S -> res (bool * S)) (g : disp -> S -> bool * S) l2 : forall l1 s,
  (forall a d s, load (dm_disps M) (list_entry offset_list (a + offset_list)) = Ok d -> f (a + offset_list) s = Ok (g d s)) ->
  linked M head (l1 ++ l2) ->
  visit f (nodes l2) s = Ok (foldr (fun d k s => let '(stop, s) := g d s in if stop : bool then s else k s) id (l2.*2) s).
Proof.
  induction l2 as [|[a d] l2 IH]; intros l1 s Hf HL; [done|]. cbn.
  rewrite (Hf a d s) by (by eapply linked_load). cbn. destruct (g d s) as [[] s']; [done|].
  apply (IH (l1 ++ [(a, d)])); [done|by rewrite <- app_assoc].
Qed.

Lemma mem_count_spec M head l c : linked M head l -> mem_count M head c = Ok (ep_disp_count (mk_disp_mgr (l.*2)) c).
Proof.
  intros HL. unfold mem_count. rewrite (list_for_each_spec _ _ _ (nodes l)) by (apply HL || eapply ring_turns, HL).
  rewrite (visit_nodes M head _ (fun d count => (false, if d_category d =? c then count + 1 else count)) l [])
    by first [done|intros a d s ->; done].
  cbn [mbind res_bind]. f_equal. unfold ep_disp_count. cbn [disp_list].
  generalize 0 as n. induction (l.*2) as [|d k IH]; intros n; [done|]. cbn. by rewrite IH.
Qed.

Lemma mem_processor_spec w M head l c fd p : linked M head l ->
  mem_processor w M head c fd p = Ok (ep_disp_processor w (mk_disp_mgr (l.*2)) c fd p).
Proof.
  intros HL. unfold mem_processor. rewrite (list_for_each_spec _ _ _ (nodes l)) by (apply HL || eapply ring_turns, HL).
  rewrite (visit_nodes M head _ (fun d s => if d_category d =? c then let '(_, _, w) := s in (true, d_cb d w fd p) else (false, s)) l []);
    [|intros a d [[r b] w'] ->; cbn; by destruct (_ =? _)|done].
  cbn [mbind res_bind]. unfold ep_disp_processor. cbn [disp_list].
  assert (E : forall k, foldr (fun d k s => let '(stop, s) := (if d_category d =? c then let '(_, _, w) := s in (true, d_cb d w fd p) else (false, s)) in
      if stop : bool then s else k s) id k (None, true, w) = disp_call w c fd p k).
  { induction k as [|d k IH]; [done|]. cbn. by destruct (_ =? _). }
  rewrite E. by destruct (disp_call _ _ _ _ _) as [[r b] w'].
Qed.

(** Addresses the allocator may answer: of no object that is alive. *)
Definition fresh (place : disp_mem -> Z) : Prop :=
  forall M, dm_disps M !! place M = None /\ dm_nodes M !! (place M + offset_list) = None.

Lemma mem_add_spec place M head l c cb : fresh place -> linked M head l ->
  exists M' l', mem_add_cb place [] M head c cb = Ok ((ep_disp_add_cb [] (mk_disp_mgr (l.*2)) c cb).1.1, M', []) /\
    linked M' head l' /\ mk_disp_mgr (l'.*2) = (ep_disp_add_cb [] (mk_disp_mgr (l.*2)) c cb).1.2.
Proof.
  intros HF HL. unfold mem_add_cb, ep_disp_add_cb. rewrite (mem_count_spec _ _ _ _ HL). cbn [mbind res_bind].
  destruct (1 <=? ep_disp_count (mk_disp_mgr l.*2) c); [by exists M, l|]. cbn.
  destruct (HF M) as [F1 F2]. set (a := place M) in *. destruct HL as [HR HD Hdom].
  set (m := <[a + offset_list := mk_head 0 0]> (dm_nodes M)).
  assert (Ha : a + offset_list ∉ head :: nodes l).
  { intros Hp. destruct (ring_cells _ _ _ _ HR Hp) as [x Hx]. congruence. }
  destruct (list_add_spec m head (nodes l) (a + offset_list)) as (m' & E & R' & O); [|done|by eexists; apply lookup_insert_eq|].
  { apply (ring_ext (dm_nodes M)); [|done]. right. intros q Hq. apply lookup_insert_ne. intros Hn. by rewrite <- Hn in Hq. }
  rewrite E. cbn [mbind res_bind]. exists (mk_mem m' (<[a := mk_disp c cb]> (dm_disps M))), ((a, mk_disp c cb) :: l). split; [done|]. split; [|done].
  split; cbn [dm_nodes dm_disps]; [done|by rewrite HD|].
  cbn. apply set_eq. intros q. rewrite elem_of_dom.
  destruct (decide (q ∈ (a + offset_list) :: head :: nodes l)) as [Hq|Hq].
  - split; [set_solver|]. intros _. eapply ring_cells; [exact R'|set_solver].
  - rewrite (O q Hq). unfold m. rewrite lookup_insert_ne by set_solver. rewrite <- elem_of_dom, Hdom. set_solver.
Qed.

Section swept.
Context (dead : disp -> bool) (head : Z) (l : entries).

Definition keep (k : entries) : entries := filter (fun x => dead x.2 = false) k.
Definition found (k : entries) : Z := if existsb (fun x => dead x.2) k then 1 else 0.

(** The entries before the turn are those of [l0] that stay. *)
Definition sweeping (done todo : list Z) (m : memory) (s : gmap Z disp * Z) : Prop :=
  exists l0 l2, l = l0 ++ l2 /\ done = nodes (keep l0) /\ todo = nodes l2 /\ linked (mk_mem m s.1) head (keep l0 ++ l2) /\ s.2 = found l0.

Lemma delete_entry k1 a (d : disp) k2 : NoDup (k1 ++ (a, d) :: k2).*1 -> delete a (list_to_map (k1 ++ (a, d) :: k2)) = (list_to_map (k1 ++ k2) : gmap Z disp).
Proof.
  intros HN. assert (Pm : k1 ++ (a, d) :: k2 ≡ₚ (a, d) :: k1 ++ k2) by (symmetry; apply Permutation_middle).
  assert (HN' : NoDup ((a, d) :: k1 ++ k2).*1) by (by rewrite <- Pm).
  rewrite (list_to_map_proper _ _ HN Pm), list_to_map_cons. apply delete_insert_id.
  apply not_elem_of_list_to_map_1. cbn in HN'. by apply NoDup_cons in HN' as [? _].
Qed.

Lemma sweep_turn done p todo m s : sweeping done (p :: todo) m s ->
  exists kept m' s', sweep dead p m s = Ok (false, m', s') /\ sweeping (done ++ kept) todo m' s'.
Proof.
  intros (l0 & [|[a d] l2] & El & Ed & Et & HL & Er); cbn in Et; [done|]. injection Et as -> ->. destruct s as [D ret]; cbn in HL, Er. subst ret done.
  assert (El' : l = (l0 ++ [(a, d)]) ++ l2) by (by rewrite <- app_assoc).
  assert (K : keep (l0 ++ [(a, d)]) = keep l0 ++ (if dead d then [] else [(a, d)])).
  { unfold keep. rewrite filter_app. f_equal. rewrite filter_cons, filter_nil. cbn. by destruct (dead d). }
  assert (F : found (l0 ++ [(a, d)]) = if dead d then 1 else found l0).
  { unfold found. rewrite existsb_app. cbn. by destruct (existsb _ l0), (dead d). }
  unfold sweep. pose proof (linked_load _ _ _ _ _ _ HL) as HLd. cbn [dm_disps] in HLd. rewrite HLd. cbn [mbind res_bind]. destruct (dead d) eqn:Ed.
  - pose proof (lk_ring _ _ _ HL) as HR. cbn [dm_nodes] in HR. rewrite nodes_app in HR. cbn in HR.
    destruct (list_del_spec _ _ _ _ _ HR) as (m' & E & R' & O & _ & Dm). rewrite E. cbn [mbind res_bind].
    unfold free_disp, list_entry. replace (a + offset_list - offset_list) with a by lia.
    pose proof (lk_disps _ _ _ HL) as ED. cbn in ED. pose proof (linked_nodup _ _ _ HL) as HN.
    assert (D !! a = Some d) as ->.
    { rewrite ED. apply elem_of_list_to_map_1; [done|set_solver]. }
    cbn [mbind res_bind]. exists [], (delete (a + offset_list) m'), (delete a D, 1). split; [done|].
    pose proof (ring_remaining _ _ _ _ _ HR) as Ha.
    exists (l0 ++ [(a, d)]), l2. rewrite K, F, !app_nil_r. split_and!; try done. split; cbn [dm_nodes dm_disps fst].
    + rewrite nodes_app. apply (ring_ext m'); [|done]. right. intros q Hq. apply lookup_delete_ne. intros Hn. by rewrite <- Hn in Hq.
    + rewrite ED. by apply delete_entry.
    + rewrite dom_delete_L, Dm. pose proof (lk_dom _ _ _ HL) as HD. cbn [dm_nodes] in HD. rewrite HD.
      rewrite !nodes_app. cbn. set_solver.
  - exists [a + offset_list], m, (D, found l0). split; [done|]. exists (l0 ++ [(a, d)]), l2. rewrite K, F.
    split_and!; try done; [by rewrite nodes_app|by rewrite <- app_assoc].
Qed.

Lemma sweep_spec M : linked M head l ->
  exists m D, list_for_each_safe (sweep dead) (turns (dm_nodes M)) head (dm_nodes M) (dm_disps M, 0) = Ok (m, (D, found l)) /\ linked (mk_mem m D) head (keep l).
Proof.
  intros HL.
  destruct (list_for_each_safe_spec (sweep dead) head sweeping) with (fuel := turns (dm_nodes M)) (l := nodes l) (m := dm_nodes M) (w := (dm_disps M, 0))
    as (l' & m' & [D r] & E & (l0 & l2 & El & Ed & Et & HL' & Er)).
  - intros d t m s (l0 & l2 & El & -> & -> & HL' & Er). rewrite <- nodes_app. apply HL'.
  - intros d p t m s. apply sweep_turn.
  - exists [], l. destruct M. by split_and!.
  - by eapply ring_turns, HL.
  - destruct l2; [|done]. rewrite app_nil_r in *. subst l0. cbn in *. subst r. by exists m', D.
Qed.

End swept.

Lemma keep_walk c l : disp_del_walk c (l.*2) = (found (fun d => d_category d =? c) l, (keep (fun d => d_category d =? c) l).*2).
Proof.
  unfold found, keep. induction l as [|[a d] l IH]; [done|]. rewrite fmap_cons. cbn [disp_del_walk snd existsb]. rewrite IH, filter_cons.
  cbn [snd]. by destruct (d_category d =? c).
Qed.

(** One operation on the memory is one operation on the list. *)
Lemma mem_step_spec place head M w l o : fresh place -> linked M head l ->
  exists M' l', mem_step place head (M, w) o = (let '(r, (_, w)) := disp_step (mk_disp_mgr (l.*2), w) o in Ok (r, (M', w))) /\
    linked M' head l' /\ mk_disp_mgr (l'.*2) = (disp_step (mk_disp_mgr (l.*2), w) o).2.1.
Proof.
  intros HF HL. destruct o as [c cb|c|c fd p]; cbn [mem_step disp_step].
  - destruct (mem_add_spec place M head l c cb HF HL) as (M' & l' & E & HL' & El). rewrite E. exists M', l'.
    destruct (ep_disp_add_cb [] (mk_disp_mgr (l.*2)) c cb) as [[r m] al]. done.
  - unfold mem_del. destruct (sweep_spec (fun d => d_category d =? c) head l M HL) as (m & D & E & HL'). rewrite E. cbn [mbind res_bind].
    exists (mk_mem m D), (keep (fun d => d_category d =? c) l). unfold ep_disp_del. cbn [disp_list]. by rewrite keep_walk.
  - rewrite (mem_processor_spec _ _ _ _ _ _ _ HL). cbn [mbind res_bind]. exists M, l.
    by destruct (ep_disp_processor w (mk_disp_mgr l.*2) c fd p) as [[r b] w'].
Qed.

Lemma mem_run_spec place head os : forall M w l, fresh place -> linked M head l ->
  exists M' l' rs w', mem_run place head (M, w) os = Ok (rs, (M', w')) /\ linked M' head l' /\
    run disp_step (mk_disp_mgr (l.*2), w) os = (rs, (mk_disp_mgr (l'.*2), w')).
Proof.
  induction os as [|o os IH]; intros M w l HF HL; [by exists M, l, [], w|]. cbn [mem_run run].
  destruct (mem_step_spec place head M w l o HF HL) as (M1 & l1 & E & HL1 & El).
  destruct (disp_step (mk_disp_mgr l.*2, w) o) as [r [m1 w1]]. cbn in El. subst m1. rewrite E. cbn [mbind res_bind].
  destruct (IH M1 w1 l1 HF HL1) as (M' & l' & rs & w' & -> & HL' & ->). by exists M', l', (r :: rs), w'.
Qed.

Lemma mem_init_spec mgr : exists M, mem_init [] mgr = Ok (Some M, []) /\ linked M (mgr + offset_disp_list) [].
Proof.
  unfold mem_init. cbn -[INIT_LIST_HEAD]. set (h := mgr + offset_disp_list).
  assert (C : cell {[h := mk_head 0 0]} h) by (exists (mk_head 0 0); apply lookup_singleton_eq).
  destruct (init_head_spec {[h := mk_head 0 0]} h C) as (m & -> & R & O). cbn [mbind res_bind]. eexists. split; [reflexivity|].
  split; cbn; [done|done|]. apply set_eq. intros q. rewrite elem_of_dom. destruct (decide (q = h)) as [->|N].
  - split; [set_solver|]. intros _. eapply ring_cells; [exact R|left].
  - rewrite O by set_solver. rewrite lookup_singleton_ne by done. split; [by intros []|set_solver].
Qed.

Lemma mem_destroy_spec M mgr l : linked M (mgr + offset_disp_list) l -> mem_destroy M mgr = Ok (mk_mem ∅ ∅).
Proof.
  intros HL. unfold mem_destroy. destruct (sweep_spec (fun _ => true) _ l M HL) as (m & D & E & [_ HD Hd]). rewrite E. cbn [mbind res_bind].
  assert (K : keep (fun _ => true) l = []).
  { unfold keep. clear. induction l as [|x l IH]; [done|]. by rewrite filter_cons. }
  rewrite K in *. cbn in HD, Hd. subst D. f_equal. f_equal. apply dom_empty_inv_L. rewrite dom_delete_L, Hd. set_solver.
Qed.

(** ** Properties *)

(** C12: The registry as the code links it in memory is a finite map, and leaks nothing. Whatever
    addresses the allocator gives, every sequence of registrations, removals and dispatches, each a
    walk over the ring of nodes with its loads, stores and frees, leaves defined behaviour nowhere
    and answers as a finite map from categories to callbacks does; the destruction of the registry
    afterwards frees each entry once and leaves no object behind. *)
Theorem disp_memory_refines (place : disp_mem -> Z) (mgr : Z) (os : list (@disp_op P W)) (w : W) : fresh place ->
  exists M0 rs M w' f, mem_init [] mgr = Ok (Some M0, []) /\
    mem_run place (mgr + offset_disp_list) (M0, w) os = Ok (rs, (M, w')) /\
    run map_step (∅, w) os = (rs, (f, w')) /\ mem_destroy M mgr = Ok (mk_mem ∅ ∅).
Proof.
  intros HF. destruct (mem_init_spec mgr) as (M0 & E0 & H0).
  destruct (mem_run_spec place _ os M0 w [] HF H0) as (M & l & rs & w' & E & HL & ER).
  destruct (run_refines _ _ _ _ _ _ ER) as [EM _]. exists M0, rs, M, w', (disp_map (mk_disp_mgr l.*2)).
  split_and!; [done..|by eapply mem_destroy_spec].
Qed.

End memory.

(** An allocator that answers the address after all others. *)
Definition next_place {P W} (M : @disp_mem P W) : Z :=
  1 + Z.max (foldr Z.max 0 (elements (dom (dm_disps M)))) (foldr Z.max 0 (elements (dom (dm_nodes M)))).

Lemma max_above (l : list Z) x : x ∈ l -> x <= foldr Z.max 0 l.
Proof. induction l as [|y l IH]; [set_solver|]. cbn. intros [->|H%IH]%elem_of_cons; lia. Qed.

Lemma next_place_fresh {P W} : fresh (@next_place P W).
Proof.
  intros M. unfold next_place, offset_list. set (x := foldr Z.max 0 (elements (dom (dm_disps M)))). set (y := foldr Z.max 0 (elements (dom (dm_nodes M)))).
  split; apply not_elem_of_dom; intros H%elem_of_elements%max_above; lia.
Qed.

Definition demo_cb (n : Z) : pfn_ep_cb Z Z := fun w _ p => (Some (n + w), true, w + 1).

Lemma disp_memory_refines_witness : exists M0 M,
  let os := [OpAdd 7 (demo_cb 10); OpAdd 8 (demo_cb 20); OpAdd 7 (demo_cb 30); OpCall 7 3 (Some 0); OpDel 7; OpCall 7 3 (Some 0); OpCall 8 3 None] in
  mem_init [] 1000 = Ok (Some M0, []) /\
  mem_run next_place 1040 (M0, 0) os = Ok ([OutInt 1; OutInt 1; OutInt 0; OutCall (Some 10) true; OutInt 1; OutCall None true; OutCall (Some 21) false], (M, 2)) /\
  mem_destroy M 1000 = Ok (mk_mem ∅ ∅).
Proof.
  destruct (disp_memory_refines next_place 1000 [OpAdd 7 (demo_cb 10); OpAdd 8 (demo_cb 20); OpAdd 7 (demo_cb 30); OpCall 7 3 (Some 0); OpDel 7; OpCall 7 3 (Some 0); OpCall 8 3 None] 0 next_place_fresh)
    as (M0 & rs & M & w' & f & E0 & E & ER & ED).
  exists M0, M. split_and!; [done| |done]. vm_compute in ER. injection ER as <- _ <-. exact E.
Defined.

End DispList.
