(* ===== verification/ThreadPool.v ===== *)
(** * ThreadPool: the workers that run requests

    Models src/native/eventpack/src/ep_threadpool.c. A pool is the queue of worker addresses, the
    number of threads and the abort flag; workers are heap objects, because the pool frees them
    while their creator may still hold a pointer. [ep_tp_routine] is cut at its lock operations
    into the steps of [tp_step], which interleaves any number of pool threads with one thread
    that registers workers and destroys the pool. A thread in pthread_cond_wait sleeps until a
    broadcast wakes it; it may also wake up without one, as POSIX allows, but nothing makes it do
    so: the theorem on the end of a destruction holds for schedules in which it never happens. *)
From S2P Require Import Prelude Alloc.
Import Alloc.

Module ThreadPool.

Inductive ep_tp_state : Set := tp_state_idle | tp_state_busy | tp_state_complete | tp_state_invalid.
Inductive ep_tp_kill : Set := tp_kill_immediate | tp_kill_wait.

Section pool.
Context {T R : Type}.

Record ep_tp_worker := mk_worker {
  w_opaque : T;
  w_complete_cb : bool;      (* complete_cb != NULL *)
  w_result : option R;
  w_state : ep_tp_state;
  w_sem : Z;
}.

Record ep_tp := mk_tp {
  tp_worker_queue : list nat;
  tp_nthreads : Z;
  tp_abort : Z;
}.

Definition sizeof_ep_tp : Z := 128.
Definition sizeof_pthread_t : Z := 8.
Definition sizeof_ep_tp_worker : Z := 96.

(** [nthreads <= 0] is refused after the pool object was taken from the allocator. *)
Definition ep_tp_create (al : alloc) (nthreads : Z) : option ep_tp * alloc :=
  let '(ok, al) := ep_calloc al 1 sizeof_ep_tp in
  if negb ok || (nthreads <=? 0) then (None, al) else
  let '(ok, al) := ep_calloc al 1 (i32 (nthreads * sizeof_pthread_t)) in
  if negb ok then (None, al) else
  (Some (mk_tp [] nthreads 0), al).

(** [process_cb] says whether the callback pointer is there. *)
Definition ep_tp_worker_register (al : alloc) (pool : option ep_tp) (h : heap ep_tp_worker)
    (process_cb complete_cb : bool) (opaque : T)
  : option nat * option ep_tp * heap ep_tp_worker * alloc :=
  match pool with
  | None => (None, None, h, al)
  | Some p =>
    if negb (tp_abort p =? 0) || negb process_cb then (None, Some p, h, al) else
    let '(ok, al) := ep_calloc al 1 sizeof_ep_tp_worker in
    if negb ok then (None, Some p, h, al) else
    let '(w, h) := h_alloc h (mk_worker opaque complete_cb None tp_state_idle 0) in
    (Some w, Some (mk_tp (tp_worker_queue p ++ [w]) (tp_nthreads p) (tp_abort p)), h, al)
  end.

Definition ep_tp_worker_touch (h : heap ep_tp_worker) (worker : option nat) : res ep_tp_state :=
  match worker with
  | None => Ok tp_state_invalid
  | Some w => k ← h_load h w; Ok (w_state k)
  end.

(** [sem_wait] ends when the semaphore is positive; the result is read after it. *)
Definition ep_tp_worker_wait (h : heap ep_tp_worker) (worker : option nat) : res (option R) :=
  match worker with
  | None => Ok None
  | Some w => k ← h_load h w; if 0 <? w_sem k then Ok (w_result k) else Fault Blocked
  end.

(** TAILQ_FOREACH with TAILQ_REMOVE of the first entry that is the worker. *)
Fixpoint queue_remove (w : nat) (l : list nat) : list nat :=
  match l with
  | [] => []
  | x :: l => if decide (x = w) then l else x :: queue_remove w l
  end.

Definition ep_tp_worker_free (p : ep_tp) (h : heap ep_tp_worker) (w : nat)
  : res (ep_tp * heap ep_tp_worker) :=
  _ ← h_load h w;
  h ← h_free h w;
  Ok (mk_tp (queue_remove w (tp_worker_queue p)) (tp_nthreads p) (tp_abort p), h).

(** ** The thread routine, cut at its synchronisation *)

Inductive tstate : Set :=
  | TTop              (* at the test of the for loop *)
  | TLock             (* before the lock *)
  | TWait             (* in pthread_cond_wait *)
  | TBusy (w : nat)   (* a worker was taken off the queue *)
  | TRun (w : nat)    (* it is marked busy and its callback runs *)
  | TPosted (w : nat) (* its callback ran and its semaphore was posted *)
  | TExit.

Definition routine_top (p : ep_tp) : tstate := if tp_abort p =? 0 then TLock else TExit.

(** With the mutex: take the first worker, or leave on abort, or wait. *)
Definition routine_take (p : ep_tp) : tstate * ep_tp :=
  match tp_worker_queue p with
  | w :: q => (TBusy w, mk_tp q (tp_nthreads p) (tp_abort p))
  | [] => (if tp_abort p =? 0 then TWait else TExit, p)
  end.

Definition routine_begin (h : heap ep_tp_worker) (w : nat) : res (heap ep_tp_worker) :=
  k ← h_load h w;
  h_store h w (mk_worker (w_opaque k) (w_complete_cb k) (w_result k) tp_state_busy (w_sem k)).

(** [r] is what the process callback returned. *)
Definition routine_run (h : heap ep_tp_worker) (w : nat) (r : R) : res (heap ep_tp_worker) :=
  k ← h_load h w;
  h_store h w (mk_worker (w_opaque k) (w_complete_cb k) (Some r) tp_state_complete (w_sem k + 1)).

(** [pthread_cond_broadcast]: whoever sleeps goes for the mutex. *)
Definition pthread_cond_broadcast (l : list tstate) : list tstate :=
  map (fun x => match x with TWait => TLock | x => x end) l.

(** ** Destruction *)

Definition tp_set_abort (p : ep_tp) : ep_tp := mk_tp (tp_worker_queue p) (tp_nthreads p) 1.

(** The critical section that ends the pool. *)
Definition destroy_abort (p : ep_tp) (l : list tstate) : ep_tp * list tstate :=
  (tp_set_abort p, pthread_cond_broadcast l).

Fixpoint tp_free_all (h : heap ep_tp_worker) (l : list nat) : res (heap ep_tp_worker) :=
  match l with
  | [] => Ok h
  | w :: l => _ ← h_load h w; h ← h_free h w; tp_free_all h l
  end.

(** Where the thread that owns the pool is: using it, or in [ep_tp_destroy] polling the queue,
    about to set the abort flag, joining the threads, or done with the pool freed. *)
Inductive dstate : Set :=
  | DUse
  | DPoll
  | DAbort (type : ep_tp_kill)
  | DJoin (type : ep_tp_kill)
  | DDone (type : ep_tp_kill).

Definition destroy_enter (p : ep_tp) (type : ep_tp_kill) : dstate :=
  if negb (tp_abort p =? 0) then DUse else
  match type with tp_kill_wait => DPoll | tp_kill_immediate => DAbort type end.

Definition destroy_poll (p : ep_tp) : dstate :=
  match tp_worker_queue p with [] => DAbort tp_kill_wait | _ => DPoll end.

(** A pool with its threads, its owner, and the history: the workers registered, taken off the
    queue by a thread, and processed, each in order. *)
Record tp_sys := mk_sys {
  s_pool : ep_tp;
  s_heap : heap ep_tp_worker;
  s_threads : list tstate;
  s_owner : dstate;
  s_reg : list nat;
  s_started : list nat;
  s_done : list nat;
}.

Definition tp_init (n : nat) : tp_sys :=
  mk_sys (mk_tp [] (Z.of_nat n) 0) [] (replicate n TTop) DUse [] [] [].

Definition taken (x : tstate) : list nat := match x with TBusy w => [w] | _ => [] end.

(** A step of pool thread [t]. *)
Inductive thread_step (s : tp_sys) (t : nat) : tp_sys -> Prop :=
  | ts_top :
      s_threads s !! t = Some TTop ->
      thread_step s t (mk_sys (s_pool s) (s_heap s) (<[t := routine_top (s_pool s)]> (s_threads s))
        (s_owner s) (s_reg s) (s_started s) (s_done s))
  | ts_take x p :
      s_threads s !! t = Some TLock ->
      routine_take (s_pool s) = (x, p) ->
      thread_step s t (mk_sys p (s_heap s) (<[t := x]> (s_threads s)) (s_owner s) (s_reg s)
        (s_started s ++ taken x) (s_done s))
  | ts_spurious :
      s_threads s !! t = Some TWait ->
      thread_step s t (mk_sys (s_pool s) (s_heap s) (<[t := TLock]> (s_threads s)) (s_owner s) (s_reg s)
        (s_started s) (s_done s))
  | ts_begin w h :
      s_threads s !! t = Some (TBusy w) ->
      routine_begin (s_heap s) w = Ok h ->
      thread_step s t (mk_sys (s_pool s) h (<[t := TRun w]> (s_threads s)) (s_owner s) (s_reg s)
        (s_started s) (s_done s))
  | ts_run w r h :
      s_threads s !! t = Some (TRun w) ->
      routine_run (s_heap s) w r = Ok h ->
      thread_step s t (mk_sys (s_pool s) h (<[t := TPosted w]> (s_threads s)) (s_owner s) (s_reg s)
        (s_started s) (s_done s ++ [w]))
  | ts_free w p h :
      s_threads s !! t = Some (TPosted w) ->
      ep_tp_worker_free (s_pool s) (s_heap s) w = Ok (p, h) ->
      thread_step s t (mk_sys p h (<[t := TTop]> (s_threads s)) (s_owner s) (s_reg s)
        (s_started s) (s_done s)).

(** A step of the owner. *)
Inductive owner_step (s : tp_sys) : tp_sys -> Prop :=
  | os_register cb opaque w p h :
      s_owner s = DUse ->
      ep_tp_worker_register [] (Some (s_pool s)) (s_heap s) true cb opaque = (Some w, Some p, h, []) ->
      owner_step s (mk_sys p h (pthread_cond_broadcast (s_threads s)) DUse (s_reg s ++ [w]) (s_started s) (s_done s))
  | os_destroy type :
      s_owner s = DUse ->
      owner_step s (mk_sys (s_pool s) (s_heap s) (s_threads s) (destroy_enter (s_pool s) type)
        (s_reg s) (s_started s) (s_done s))
  | os_poll :
      s_owner s = DPoll ->
      owner_step s (mk_sys (s_pool s) (s_heap s) (s_threads s) (destroy_poll (s_pool s))
        (s_reg s) (s_started s) (s_done s))
  | os_abort type p l :
      s_owner s = DAbort type -> destroy_abort (s_pool s) (s_threads s) = (p, l) ->
      owner_step s (mk_sys p (s_heap s) l (DJoin type) (s_reg s) (s_started s) (s_done s))
  | os_join type h :
      s_owner s = DJoin type -> Forall (fun x => x = TExit) (s_threads s) ->
      tp_free_all (s_heap s) (tp_worker_queue (s_pool s)) = Ok h ->
      owner_step s (mk_sys (s_pool s) h (s_threads s) (DDone type) (s_reg s) (s_started s) (s_done s)).

Inductive tp_step (s : tp_sys) : tp_sys -> Prop :=
  | step_thread t s' : thread_step s t s' -> tp_step s s'
  | step_owner s' : owner_step s s' -> tp_step s s'.

(** ** The invariant *)

(** The workers in the hands of a thread, and those it has yet to process. *)
Definition held (x : tstate) : list nat :=
  match x with TBusy w | TRun w | TPosted w => [w] | _ => [] end.

Definition pending (x : tstate) : list nat :=
  match x with TBusy w | TRun w => [w] | _ => [] end.

Definition over (d : dstate) : bool := match d with DDone _ => true | _ => false end.
Definition aborting (d : dstate) : bool := match d with DJoin _ | DDone _ => true | _ => false end.

(** The owner has seen the queue empty, in a destruction that waits. *)
Definition drained (d : dstate) : bool :=
  match d with DAbort tp_kill_wait | DJoin tp_kill_wait | DDone tp_kill_wait => true | _ => false end.

Definition all_of (f : tstate -> list nat) (s : tp_sys) : list nat := concat (map f (s_threads s)).

Record tp_inv (s : tp_sys) : Prop := {
  ti_order : s_started s ++ tp_worker_queue (s_pool s) = s_reg s;
  ti_nodup : NoDup (s_reg s);
  ti_fresh : Forall (fun w => (w < length (s_heap s))%nat) (s_reg s);
  ti_pending : s_started s ≡ₚ s_done s ++ all_of pending s;
  ti_owned : NoDup (all_of held s ++ tp_worker_queue (s_pool s));
  ti_held : forall w, w ∈ all_of held s -> w ∈ s_started s;
  ti_live : over (s_owner s) = false ->
    Forall (live (s_heap s)) (all_of held s ++ tp_worker_queue (s_pool s));
  ti_abort : tp_abort (s_pool s) = if aborting (s_owner s) then 1 else 0;
  ti_drained : drained (s_owner s) = true -> tp_worker_queue (s_pool s) = [];
  ti_exit : over (s_owner s) = true -> Forall (fun x => x = TExit) (s_threads s);
  ti_wait : TWait ∈ s_threads s -> tp_worker_queue (s_pool s) = [] /\ tp_abort (s_pool s) = 0;
  ti_left : TExit ∈ s_threads s -> tp_abort (s_pool s) <> 0;
}.

(** How far a thread is from its exit once the abort flag is set. *)
Definition weight (x : tstate) : nat :=
  match x with
  | TExit => 0 | TTop => 1 | TPosted _ => 2 | TRun _ => 3 | TBusy _ => 4 | TLock | TWait => 5
  end.

(** How far it is from taking its next worker. *)
Definition load_of (x : tstate) : nat :=
  match x with TTop => 1 | TPosted _ => 2 | TRun _ => 3 | TBusy _ => 4 | _ => 0 end.

Definition threads_weight (l : list tstate) : nat := sum_list (map weight l).
#[global] Arguments threads_weight : simpl never.

(** ** Lemmas *)

Lemma concat_insert (f : tstate -> list nat) l t y x :
  l !! t = Some y -> exists rest,
    concat (map f l) ≡ₚ f y ++ rest /\ concat (map f (<[t := x]> l)) ≡ₚ f x ++ rest.
Proof.
  intros H. apply list_elem_of_split_length in H as (l1 & l2 & -> & ->).
  exists (concat (map f l1) ++ concat (map f l2)).
  rewrite insert_app_r_alt, Nat.sub_diag by done. cbn.
  rewrite !map_app, !concat_app. cbn. split; solve_Permutation.
Qed.

Lemma sum_insert (f : tstate -> nat) l t y x :
  l !! t = Some y -> (sum_list (map f (<[t := x]> l)) + f y = sum_list (map f l) + f x)%nat.
Proof.
  intros H. apply list_elem_of_split_length in H as (l1 & l2 & -> & ->).
  rewrite insert_app_r_alt, Nat.sub_diag by done. cbn.
  rewrite !map_app, !sum_list_with_app. cbn. lia.
Qed.

Lemma weight_insert l t y x :
  l !! t = Some y -> (threads_weight (<[t := x]> l) + weight y = threads_weight l + weight x)%nat.
Proof. apply sum_insert. Qed.

Lemma queue_remove_notin w l : w ∉ l -> queue_remove w l = l.
Proof.
  induction l as [|x l IH]; [done|]. rewrite not_elem_of_cons. intros [Hx Hl].
  cbn. rewrite decide_False by congruence. by rewrite IH.
Qed.

Lemma free_all_ok l : forall h, NoDup l -> Forall (live h) l -> exists h', tp_free_all h l = Ok h'.
Proof.
  induction l as [|w l IH]; intros h Hn Hl; [by eexists|].
  apply NoDup_cons in Hn as [Hw Hn]. apply Forall_cons in Hl as [[x Hx] Hl].
  cbn [tp_free_all]. unfold h_load. rewrite Hx. cbn [mbind res_bind].
  rewrite (h_free_ok _ _ _ Hx). cbn [mbind res_bind]. apply IH; [done|].
  apply Forall_forall. intros w' Hw'. apply live_insert_ne; [by intros <-|].
  rewrite Forall_forall in Hl. by apply Hl.
Qed.

Lemma free_all_length l : forall h h', tp_free_all h l = Ok h' -> length h' = length h.
Proof.
  induction l as [|w l IH]; intros h h'; cbn [tp_free_all]; [by intros [= <-]|].
  destruct (h_load h w); [|done]. cbn [mbind res_bind]. unfold h_free.
  destruct (h !! w) as [[?|]|]; try done. cbn [mbind res_bind].
  intros E. rewrite (IH _ _ E). apply length_insert.
Qed.

(** What a thread's move from [y] to [x] does to the workers in hand. *)
Lemma moved s t y x :
  s_threads s !! t = Some y -> exists hs ps,
    all_of held s ≡ₚ held y ++ hs /\ all_of pending s ≡ₚ pending y ++ ps /\
    concat (map held (<[t := x]> (s_threads s))) ≡ₚ held x ++ hs /\
    concat (map pending (<[t := x]> (s_threads s))) ≡ₚ pending x ++ ps.
Proof.
  intros H. destruct (concat_insert held _ t y x H) as (hs & ? & ?).
  destruct (concat_insert pending _ t y x H) as (ps & ? & ?). by exists hs, ps.
Qed.

Lemma in_insert (x y : tstate) (t : nat) (l : list tstate) : x ∈ <[t := y]> l -> x = y \/ x ∈ l.
Proof.
  intros (i & H)%list_elem_of_lookup. apply list_lookup_insert_Some in H as [(_ & -> & _)|[_ H]]; [by left|].
  right. by eapply list_elem_of_lookup_2.
Qed.

Lemma broadcast_all (f : tstate -> list nat) l : f TWait = f TLock -> concat (map f (pthread_cond_broadcast l)) = concat (map f l).
Proof.
  intros Hf. unfold pthread_cond_broadcast. rewrite map_map. f_equal. apply map_ext. intros x. by destruct x.
Qed.

Lemma broadcast_awake l : TWait ∉ pthread_cond_broadcast l.
Proof. intros (x & H & _)%list_elem_of_fmap. by destruct x. Qed.

Lemma broadcast_exit l : TExit ∈ pthread_cond_broadcast l -> TExit ∈ l.
Proof. intros (x & H & Hx)%list_elem_of_fmap. by destruct x. Qed.

Lemma inv_init n : tp_inv (tp_init n).
Proof.
  assert (forall f : tstate -> list nat, f TTop = [] -> concat (map f (replicate n TTop)) = []) as E.
  { intros f Hf. induction n as [|n IH]; [done|]. cbn. by rewrite Hf. }
  constructor; cbn; unfold all_of; cbn; rewrite ?E by done; try done; try constructor;
    by intros [? _]%elem_of_replicate.
Qed.

(** A thread without a worker that stays without one. *)
Lemma inv_idle s t y x :
  tp_inv s -> over (s_owner s) = false -> s_threads s !! t = Some y -> held y = [] -> pending y = [] ->
  held x = [] -> pending x = [] -> x <> TWait -> (x = TExit -> tp_abort (s_pool s) <> 0) ->
  tp_inv (mk_sys (s_pool s) (s_heap s) (<[t := x]> (s_threads s))
    (s_owner s) (s_reg s) (s_started s) (s_done s)).
Proof.
  intros [Io In If Ip Iw Ih Il Ia Id Ie Iq Ix] Hov Ht Y1 Y2 Z1 Z2 Hx Hx'.
  destruct (moved s t _ x Ht) as (hs & ps & Eh & Ep & Eh' & Ep').
  rewrite Y1 in Eh. rewrite Y2 in Ep. rewrite Z1 in Eh'. rewrite Z2 in Ep'.
  constructor; cbn; unfold all_of; cbn; try done; try congruence.
  - by rewrite Ep', <- Ep.
  - by rewrite Eh', <- Eh.
  - intros w. rewrite Eh', <- Eh. apply Ih.
  - intros Ho. rewrite Eh', <- Eh. by apply Il.
  - intros [H|H]%in_insert; [by destruct Hx|by apply Iq].
  - intros [H|H]%in_insert; [by apply Hx'|by apply Ix].
Qed.

Lemma inv_take s t y x p :
  tp_inv s -> over (s_owner s) = false -> s_threads s !! t = Some y -> held y = [] -> pending y = [] ->
  routine_take (s_pool s) = (x, p) ->
  tp_inv (mk_sys p (s_heap s) (<[t := x]> (s_threads s)) (s_owner s) (s_reg s)
    (s_started s ++ taken x) (s_done s)).
Proof.
  intros [Io In If Ip Iw Ih Il Ia Id Ie Iq Ix] Hov Ht Hy Hy' E.
  destruct (moved s t _ x Ht) as (hs & ps & Eh & Ep & Eh' & Ep').
  rewrite Hy in Eh. rewrite Hy' in Ep.
  unfold routine_take in E. destruct (tp_worker_queue (s_pool s)) as [|w q] eqn:Eq.
  - injection E as <- <-.
    set (x := if tp_abort (s_pool s) =? 0 then TWait else TExit) in *.
    assert (held x = [] /\ pending x = [] /\ taken x = []) as (Z1 & Z2 & Z3)
      by (unfold x; by destruct (_ =? _)).
    rewrite Z1 in Eh'. rewrite Z2 in Ep'. rewrite Z3, app_nil_r.
    constructor; cbn; unfold all_of; cbn; rewrite ?Eq; try done; try congruence.
    + by rewrite Ep', <- Ep.
    + by rewrite Eh', <- Eh.
    + intros w. rewrite Eh', <- Eh. apply Ih.
    + intros Ho. rewrite Eh', <- Eh. by apply Il.
    + intros [H|H]%in_insert; [|by destruct (Iq H)]. unfold x in H. by destruct (Z.eqb_spec (tp_abort (s_pool s)) 0).
    + intros [H|H]%in_insert; [|by apply Ix]. unfold x in H. by destruct (Z.eqb_spec (tp_abort (s_pool s)) 0).
  - injection E as <- <-. cbn [held pending taken] in *.
    constructor; cbn; unfold all_of; cbn; try done; try congruence.
    + by rewrite <- app_assoc.
    + rewrite Ip, Ep', Ep. solve_Permutation.
    + rewrite Eh'. rewrite Eh in Iw. cbn in *. revert Iw. by rewrite <- Permutation_middle.
    + intros w'. rewrite Eh'. cbn. rewrite elem_of_cons, elem_of_app.
      intros [->|Hw]; [right; left|left]. apply Ih. by rewrite Eh.
    + intros Ho. rewrite Eh'. specialize (Il Ho). rewrite Eh in Il. cbn in *.
      revert Il. by rewrite <- Permutation_middle.
    + intros Hd. by specialize (Id Hd).
    + intros [H|H]%in_insert; [done|]. by destruct (Iq H).
    + intros [H|H]%in_insert; [done|by apply Ix].
Qed.

Lemma inv_store s t y x w k :
  tp_inv s -> s_threads s !! t = Some y -> held y = [w] -> held x = [w] -> over (s_owner s) = false ->
  (exists d, pending y = d ++ pending x) ->
  tp_inv (mk_sys (s_pool s) (<[w := Some k]> (s_heap s)) (<[t := x]> (s_threads s)) (s_owner s)
    (s_reg s) (s_started s) (s_done s ++ ztake (zlen (pending y) - zlen (pending x)) (pending y))).
Proof.
  intros [Io In If Ip Iw Ih Il Ia Id Ie Iq Ix] Ht Hy Hx Ho [d Hd].
  destruct (moved s t _ x Ht) as (hs & ps & Eh & Ep & Eh' & Ep').
  rewrite Hy in Eh. rewrite Hx in Eh'.
  assert (ztake (zlen (pending y) - zlen (pending x)) (pending y) = d) as ->.
  { rewrite Hd. apply ztake_app_l. rewrite zlen_app. lia. }
  constructor; cbn; unfold all_of; cbn; try done; try congruence.
  - by rewrite length_insert.
  - rewrite Ip, Ep, Ep', Hd. solve_Permutation.
  - by rewrite Eh', <- Eh.
  - intros w'. rewrite Eh', <- Eh. apply Ih.
  - intros _. specialize (Il Ho). rewrite Eh', <- Eh.
    assert (live (s_heap s) w) as Lw
      by (rewrite Eh in Il; cbn in Il; by apply Forall_cons in Il as [? _]).
    eapply Forall_impl; [exact Il|]. intros w' Lw'. by apply live_insert.
  - intros [H|H]%in_insert; [by subst x|by apply Iq].
  - intros [H|H]%in_insert; [by subst x|by apply Ix].
Qed.

Lemma inv_free s t w :
  tp_inv s -> s_threads s !! t = Some (TPosted w) -> over (s_owner s) = false ->
  tp_inv (mk_sys (s_pool s) (<[w := None]> (s_heap s)) (<[t := TTop]> (s_threads s)) (s_owner s)
    (s_reg s) (s_started s) (s_done s)).
Proof.
  intros [Io In If Ip Iw Ih Il Ia Id Ie Iq Ix] Ht Ho.
  destruct (moved s t _ TTop Ht) as (hs & ps & Eh & Ep & Eh' & Ep'). cbn in *.
  rewrite Eh in Iw. apply NoDup_cons in Iw as [Hw Iw].
  constructor; cbn; unfold all_of; cbn; try done; try congruence.
  - by rewrite length_insert.
  - by rewrite Ep', <- Ep.
  - by rewrite Eh'.
  - intros w'. rewrite Eh'. intros Hw'. apply Ih. rewrite Eh. by right.
  - intros _. specialize (Il Ho). rewrite Eh in Il. apply Forall_cons in Il as [_ Il].
    rewrite Eh'. apply Forall_forall. intros w' Hw'. apply live_insert_ne; [by intros <-|].
    rewrite Forall_forall in Il. by apply Il.
  - intros [H|H]%in_insert; [done|by apply Iq].
  - intros [H|H]%in_insert; [done|by apply Ix].
Qed.

(** The worker a thread has in hand can be read and written, and is not in the queue. *)
Lemma held_live s t x w :
  tp_inv s -> over (s_owner s) = false -> s_threads s !! t = Some x -> held x = [w] ->
  live (s_heap s) w /\ w ∉ tp_worker_queue (s_pool s).
Proof.
  intros I Ho Ht Hx. destruct (moved s t _ TTop Ht) as (hs & _ & Eh & _). rewrite Hx in Eh.
  pose proof (ti_live s I Ho) as Il. pose proof (ti_owned s I) as Iw. rewrite Eh in Il, Iw.
  apply Forall_cons in Il as [? _]. apply NoDup_cons in Iw as [Hn _].
  split; [done|]. intros Hq. apply Hn. apply elem_of_app. by right.
Qed.

Lemma free_spec s t w :
  tp_inv s -> over (s_owner s) = false -> s_threads s !! t = Some (TPosted w) ->
  ep_tp_worker_free (s_pool s) (s_heap s) w = Ok (s_pool s, <[w := None]> (s_heap s)).
Proof.
  intros I Ho Ht. destruct (held_live s t _ w I Ho Ht eq_refl) as [[k Hk] Hq].
  unfold ep_tp_worker_free, h_load. rewrite Hk. cbn [mbind res_bind].
  rewrite (h_free_ok _ _ _ Hk). cbn [mbind res_bind].
  rewrite queue_remove_notin by done. by destruct (s_pool s).
Qed.

Lemma begin_spec s t w :
  tp_inv s -> over (s_owner s) = false -> s_threads s !! t = Some (TBusy w) ->
  exists k, routine_begin (s_heap s) w = Ok (<[w := Some k]> (s_heap s)).
Proof.
  intros I Ho Ht. destruct (held_live s t _ w I Ho Ht eq_refl) as [[k Hk] _].
  unfold routine_begin, h_load. rewrite Hk. cbn [mbind res_bind].
  eexists. by apply (h_store_ok _ _ _ k).
Qed.

Lemma routine_run_spec s t w r :
  tp_inv s -> over (s_owner s) = false -> s_threads s !! t = Some (TRun w) ->
  exists k, routine_run (s_heap s) w r = Ok (<[w := Some k]> (s_heap s)) /\
    w_result k = Some r /\ w_state k = tp_state_complete.
Proof.
  intros I Ho Ht. destruct (held_live s t _ w I Ho Ht eq_refl) as [[k Hk] _].
  unfold routine_run, h_load. rewrite Hk. cbn [mbind res_bind].
  eexists. split; [by apply (h_store_ok _ _ _ k)|]. done.
Qed.

Lemma not_over s t y : tp_inv s -> s_threads s !! t = Some y -> y <> TExit -> over (s_owner s) = false.
Proof.
  intros I Ht Hy. destruct (over (s_owner s)) eqn:Ho; [|done].
  pose proof (ti_exit s I Ho) as Ie. rewrite Forall_lookup in Ie. by apply Ie in Ht.
Qed.

Lemma inv_thread s t s' : tp_inv s -> thread_step s t s' -> tp_inv s'.
Proof.
  intros I H. destruct H as [Ht|x p Ht E|Ht|w h Ht E|w r h Ht E|w p h Ht E].
  - eapply inv_idle; [done|by eapply not_over|exact Ht|done|done|..];
      unfold routine_top; destruct (Z.eqb_spec (tp_abort (s_pool s)) 0); done.
  - eapply inv_take; [done| |exact Ht|done..]. by eapply not_over.
  - eapply inv_idle; [done|by eapply not_over|exact Ht|done..].
  - assert (over (s_owner s) = false) as Ho by (by eapply not_over).
    destruct (begin_spec s t w I Ho Ht) as (k & Ek). rewrite Ek in E. injection E as <-.
    pose proof (inv_store s t _ (TRun w) w k I Ht eq_refl eq_refl Ho) as Hn.
    cbn in Hn. rewrite app_nil_r in Hn. apply Hn. by exists [].
  - assert (over (s_owner s) = false) as Ho by (by eapply not_over).
    destruct (routine_run_spec s t w r I Ho Ht) as (k & Ek & _). rewrite Ek in E. injection E as <-.
    apply (inv_store s t _ (TPosted w) w k I Ht eq_refl eq_refl Ho). by exists [w].
  - assert (over (s_owner s) = false) as Ho by (by eapply not_over).
    rewrite (free_spec s t w I Ho Ht) in E. injection E as <- <-. by apply inv_free.
Qed.

Lemma inv_register s cb opaque w p h :
  tp_inv s -> s_owner s = DUse ->
  ep_tp_worker_register [] (Some (s_pool s)) (s_heap s) true cb opaque = (Some w, Some p, h, []) ->
  tp_inv (mk_sys p h (pthread_cond_broadcast (s_threads s)) DUse (s_reg s ++ [w]) (s_started s) (s_done s)).
Proof.
  intros [Io In If Ip Iw Ih Il Ia Id Ie Iq Ix] Hu E. rewrite Hu in *. cbn in Ia.
  unfold ep_tp_worker_register in E. rewrite Ia in E. cbn in E. injection E as <- <- <-.
  assert (forall v, v ∈ s_reg s -> (v < length (s_heap s))%nat) as Hlt
    by (intros v; rewrite Forall_forall in If; apply If).
  assert (forall v, v ∈ all_of held s ++ tp_worker_queue (s_pool s) -> v ∈ s_reg s) as Hreg.
  { intros v. rewrite <- Io, !elem_of_app. intros [?|?]; [left; by apply Ih|by right]. }
  constructor; cbn; unfold all_of; cbn; rewrite ?broadcast_all by done; try done.
  - by rewrite app_assoc, Io.
  - apply NoDup_app. split; [done|]. split; [|apply NoDup_singleton].
    intros v Hv. rewrite list_elem_of_singleton. intros ->. apply Hlt in Hv. lia.
  - apply Forall_app. rewrite length_app. cbn. split; [|apply Forall_singleton; lia].
    eapply Forall_impl; [exact If|]. cbn. lia.
  - rewrite app_assoc. apply NoDup_app.
    split; [done|]. split; [|apply NoDup_singleton].
    intros v Hv. rewrite list_elem_of_singleton. intros ->. apply Hreg, Hlt in Hv. lia.
  - intros _. rewrite app_assoc.
    apply Forall_app. split; [|apply Forall_singleton, live_alloc].
    eapply Forall_impl; [exact (Il eq_refl)|]. intros v Hv. by apply live_app.
  - intros H. by apply broadcast_awake in H.
  - intros H%broadcast_exit. by apply Ix in H.
Qed.

(** A step of the owner that changes only where it is. *)
Lemma inv_owner s d :
  tp_inv s -> over (s_owner s) = false -> over d = false ->
  aborting d = aborting (s_owner s) ->
  (drained d = true -> tp_worker_queue (s_pool s) = []) ->
  tp_inv (mk_sys (s_pool s) (s_heap s) (s_threads s) d (s_reg s) (s_started s) (s_done s)).
Proof.
  intros [Io In If Ip Iw Ih Il Ia Id Ie Iq Ix] Ho Hd Ha Hq. constructor; cbn; try done.
  - intros _. by apply Il.
  - by rewrite Ha.
  - congruence.
Qed.

Lemma inv_owner_step s s' : tp_inv s -> owner_step s s' -> tp_inv s'.
Proof.
  intros I H. destruct H as [cb opaque w p h Hu E|type Hu|Hu|type p l Hu E|type h Hu Hx E].
  - by eapply inv_register.
  - pose proof (ti_abort s I) as Ha. rewrite Hu in Ha. cbn in Ha.
    apply inv_owner; [done|by rewrite Hu|..]; unfold destroy_enter; rewrite Ha, ?Hu; by destruct type.
  - apply inv_owner; [done|by rewrite Hu|..]; unfold destroy_poll;
      destruct (tp_worker_queue (s_pool s)); by rewrite ?Hu.
  - destruct I as [Io In If Ip Iw Ih Il Ia Id Ie Iq Ix]. rewrite Hu in *. injection E as <- <-.
    constructor; cbn in *; unfold all_of; cbn; rewrite ?broadcast_all by done; try done; try congruence.
    intros H. by apply broadcast_awake in H.
  - destruct I as [Io In If Ip Iw Ih Il Ia Id Ie Iq Ix]. rewrite Hu in *.
    constructor; cbn in *; try done; try congruence.
    by rewrite (free_all_length _ _ _ E).
Qed.

Lemma inv_reachable n s : rtc tp_step (tp_init n) s -> tp_inv s.
Proof.
  intros H. remember (tp_init n) as s0 eqn:E0. assert (tp_inv s0) as I by (subst; apply inv_init).
  clear E0. induction H as [|s0 s1 s2 H01 _ IH]; [done|]. apply IH.
  destruct H01; [by eapply inv_thread|by eapply inv_owner_step].
Qed.

(** ** Who can go on *)

(** The pool threads, and the owner. *)
Definition agent : Type := option nat.

Definition moves (a : agent) (s s' : tp_sys) : Prop :=
  match a with Some t => thread_step s t s' | None => owner_step s s' end.

(** Who needs nobody else for its next step: a thread that neither sleeps nor has left; the owner in
    a destruction, unless it joins a thread that is still there. *)
Definition able (a : agent) (s : tp_sys) : Prop :=
  match a with
  | Some t => exists x, s_threads s !! t = Some x /\ x <> TWait /\ x <> TExit
  | None => match s_owner s with
            | DPoll | DAbort _ => True
            | DJoin _ => Forall (fun x => x = TExit) (s_threads s)
            | DUse | DDone _ => False
            end
  end.

(** With the abort flag set every thread step brings a thread nearer to its exit. *)
Lemma abort_decreases s t s' :
  tp_inv s -> tp_abort (s_pool s) <> 0 -> thread_step s t s' ->
  (threads_weight (s_threads s') < threads_weight (s_threads s))%nat /\ s_owner s' = s_owner s.
Proof.
  intros I Ha H. apply Z.eqb_neq in Ha as Ha'.
  destruct H as [Ht|x p Ht E|Ht|w h Ht E|w r h Ht E|w p h Ht E]; cbn; (split; [|done]).
  - pose proof (weight_insert _ _ _ TExit Ht) as W. cbn in W. unfold routine_top. rewrite Ha'. lia.
  - unfold routine_take in E. rewrite Ha' in E. pose proof (weight_insert _ _ _ x Ht) as W. cbn in W.
    destruct (tp_worker_queue (s_pool s)); injection E as <- <-; cbn in W; lia.
  - by destruct (ti_wait s I (list_elem_of_lookup_2 _ _ _ Ht)).
  - pose proof (weight_insert _ _ _ (TRun w) Ht) as W. cbn in W. lia.
  - pose proof (weight_insert _ _ _ (TPosted w) Ht) as W. cbn in W. lia.
  - pose proof (weight_insert _ _ _ TTop Ht) as W. cbn in W. lia.
Qed.

(** As long as there are workers in the queue, every thread step is one towards its end. *)
Definition backlog (s : tp_sys) : nat :=
  match tp_worker_queue (s_pool s) with [] => 0%nat | q => (6 * length q + sum_list (map load_of (s_threads s)))%nat end.

Lemma backlog_decreases s t s' :
  tp_inv s -> tp_abort (s_pool s) = 0 -> tp_worker_queue (s_pool s) <> [] -> thread_step s t s' ->
  (backlog s' < backlog s)%nat /\ s_owner s' = s_owner s.
Proof.
  intros I Ha Hq H. destruct H as [Ht|x p Ht E|Ht|w h Ht E|w r h Ht E|w p h Ht E]; (split; [|done]).
  - pose proof (sum_insert load_of _ _ _ (routine_top (s_pool s)) Ht) as W. unfold routine_top in W at 2. rewrite Ha in W. cbn in W.
    unfold backlog. cbn [s_pool s_threads]. destruct (tp_worker_queue (s_pool s)); [done|lia].
  - unfold routine_take in E. destruct (tp_worker_queue (s_pool s)) as [|w q] eqn:Eq; [done|]. injection E as <- <-.
    pose proof (sum_insert load_of _ _ _ (TBusy w) Ht) as W. cbn in W. unfold backlog. cbn [s_pool s_threads tp_worker_queue]. rewrite Eq.
    destruct q; cbn [length]; lia.
  - by destruct (ti_wait s I (list_elem_of_lookup_2 _ _ _ Ht)).
  - pose proof (sum_insert load_of _ _ _ (TRun w) Ht) as W. cbn in W. unfold backlog. cbn [s_pool s_threads].
    destruct (tp_worker_queue (s_pool s)); [done|lia].
  - pose proof (sum_insert load_of _ _ _ (TPosted w) Ht) as W. cbn in W. unfold backlog. cbn [s_pool s_threads].
    destruct (tp_worker_queue (s_pool s)); [done|lia].
  - pose proof (sum_insert load_of _ _ _ TTop Ht) as W. cbn in W.
    assert (over (s_owner s) = false) as Ho by (by eapply not_over). rewrite (free_spec s t w I Ho Ht) in E. injection E as <- <-.
    unfold backlog. cbn [s_pool s_threads]. destruct (tp_worker_queue (s_pool s)); [done|lia].
Qed.

(** No thread adds to the queue, clears the abort flag or starts a thread. *)
Lemma thread_keeps s t s' : thread_step s t s' -> s_owner s' = s_owner s /\ length (s_threads s') = length (s_threads s) /\
  (tp_worker_queue (s_pool s) = [] -> tp_inv s -> tp_worker_queue (s_pool s') = []).
Proof.
  intros H. destruct H as [Ht|x p Ht E|Ht|w h Ht E|w r h Ht E|w p h Ht E]; cbn; rewrite length_insert; (split; [done|]); (split; [done|]); intros Hq I; try done.
  - unfold routine_take in E. rewrite Hq in E. by injection E as _ <-.
  - assert (over (s_owner s) = false) as Ho by (by eapply not_over). rewrite (free_spec s t w I Ho Ht) in E. by injection E as <- _.
Qed.

Lemma owner_keeps s s' : owner_step s s' -> length (s_threads s') = length (s_threads s).
Proof.
  intros H. destruct H as [cb opaque w p h Hu E|type Hu|Hu|type p l Hu E|type h Hu Hx E]; cbn; try done; [apply length_map|].
  injection E as _ <-. apply length_map.
Qed.

Lemma threads_count n s : rtc tp_step (tp_init n) s -> length (s_threads s) = n.
Proof.
  intros H. remember (tp_init n) as s0 eqn:E0. assert (length (s_threads s0) = n) as L by (subst; apply length_replicate).
  clear E0. induction H as [|s0 s1 s2 H01 _ IH]; [done|]. apply IH. rewrite <- L.
  destruct H01 as [t s1 H|s1 H]; [by apply thread_keeps in H as (_ & -> & _)|by apply owner_keeps].
Qed.

(** Whoever is [able] to step can. *)
Lemma able_moves `{Inhabited R} s a : tp_inv s -> able a s -> exists s', moves a s s'.
Proof.
  intros I. destruct a as [t|]; cbn [able moves].
  - intros (x & Ht & Hw & Hx). assert (over (s_owner s) = false) as Ho by (by eapply not_over).
    destruct x; try done.
    + eexists. by apply ts_top.
    + destruct (routine_take (s_pool s)) as [x p] eqn:E. eexists. eapply ts_take; eauto.
    + destruct (begin_spec s t w I Ho Ht) as (k & E). eexists. eapply ts_begin; eauto.
    + destruct (routine_run_spec s t w inhabitant I Ho Ht) as (k & E & _). eexists. eapply ts_run; eauto.
    + eexists. eapply ts_free; [done|]. by apply (free_spec s t).
  - destruct (s_owner s) as [| |type|type|type] eqn:Eo; try done; intros Hx.
    + eexists. by apply os_poll.
    + eexists. by eapply os_abort.
    + destruct (free_all_ok (tp_worker_queue (s_pool s)) (s_heap s)) as [h Eh]; [| |eexists; by eapply os_join].
      * pose proof (ti_owned s I) as Iw. by apply NoDup_app in Iw as (_ & _ & ?).
      * pose proof (ti_live s I) as Il. rewrite Eo in Il. by apply Forall_app in Il as [_ ?].
Qed.

Lemma all_exit l : {t : nat | exists x, l !! t = Some x /\ x <> TExit} + {Forall (fun x => x = TExit) l}.
Proof.
  induction l as [|x l [(t & Ht)|IH]]; [by right|left; by exists (S t)|].
  destruct (decide (weight x = 0%nat)) as [Hx|Hx].
  - right. constructor; [by destruct x|done].
  - left. exists 0%nat, x. split; [done|]. by intros ->.
Defined.

(** ** The end of a destruction *)

Section fair_schedule.
Context (n : nat) (f : nat -> tp_sys) (who : nat -> agent).
Definition of_pool (a : agent) : Prop := match a with Some t => (t < n)%nat | None => True end.
Context (Hsched : scheduled moves able f who) (Hfair : fair of_pool who).

(** What holds of every state of the schedule. *)
Record sound (s : tp_sys) : Prop := { sn_inv : tp_inv s; sn_count : length (s_threads s) = n }.

Lemma sound_step a s s' : sound s -> moves a s s' -> sound s'.
Proof.
  intros [I L] H. destruct a as [t|]; cbn in H.
  - split; [by eapply inv_thread|]. rewrite <- L. by apply thread_keeps in H as (_ & -> & _).
  - split; [by eapply inv_owner_step|]. rewrite <- L. by apply owner_keeps.
Qed.

Lemma first_thread s : sound s -> (0 < n)%nat -> tp_abort (s_pool s) = 0 -> tp_worker_queue (s_pool s) <> [] -> able (Some 0%nat) s.
Proof.
  intros [I L] Hn Ha Hq. destruct (s_threads s !! 0%nat) as [x|] eqn:E; [|apply lookup_ge_None in E; lia].
  exists x. split; [done|]. split; intros ->; apply list_elem_of_lookup_2 in E; [by destruct (ti_wait s I E)|by destruct (ti_left s I E)].
Qed.

Lemma poll_ends i : (0 < n)%nat -> sound (f i) -> s_owner (f i) = DPoll -> exists j, (i <= j)%nat /\ sound (f j) /\ s_owner (f j) = DAbort tp_kill_wait.
Proof using Hsched Hfair.
  intros Hn Hs Ho.
  refine (fair_leads_to moves able of_pool (fun s => sound s /\ s_owner s = DPoll) (fun s => sound s /\ s_owner s = DAbort tp_kill_wait) backlog
    (fun s => match tp_worker_queue (s_pool s) with [] => None | _ => Some 0%nat end) f who Hsched Hfair _ _ i (conj Hs Ho)); clear i Hs Ho.
  - intros s [Hs Ho]. destruct (tp_worker_queue (s_pool s)) eqn:Eq; [split; [done|cbn; by rewrite Ho]|].
    split; [done|]. apply first_thread; [done|done| |by rewrite Eq]. rewrite (ti_abort s (sn_inv s Hs)), Ho. done.
  - intros a s s' [Hs Ho] Hm. pose proof (sound_step a s s' Hs Hm) as Hs'. assert (tp_abort (s_pool s) = 0) as Ha by (rewrite (ti_abort s (sn_inv s Hs)), Ho; done).
    destruct a as [t|]; cbn in Hm.
    + pose proof (thread_keeps s t s' Hm) as (Eo & _ & Hq). right. split; [split; [done|congruence]|].
      destruct (tp_worker_queue (s_pool s)) eqn:Eq.
      * right. unfold backlog. rewrite Hq, Eq by (done || apply Hs). done.
      * left. apply (backlog_decreases s t s'); [apply Hs|done|by rewrite Eq|done].
    + destruct Hm as [cb opaque w p h Hu E|type Hu|Hu|type p l Hu E|type h Hu Hx E]; try congruence.
      cbn [s_owner s_pool] in *. unfold destroy_poll in *. unfold backlog. cbn [s_pool s_threads].
      destruct (tp_worker_queue (s_pool s)) eqn:Eq; [by left|]. right. split; [done|]. right. done.
Qed.

Lemma abort_ends i type : sound (f i) -> s_owner (f i) = DAbort type -> exists j, (i <= j)%nat /\ sound (f j) /\ s_owner (f j) = DJoin type.
Proof using Hsched Hfair.
  intros Hs Ho.
  refine (fair_leads_to moves able of_pool (fun s => sound s /\ s_owner s = DAbort type) (fun s => sound s /\ s_owner s = DJoin type) (fun _ => 0%nat)
    (fun _ => None) f who Hsched Hfair _ _ i (conj Hs Ho)); clear i Hs Ho.
  - intros s [Hs Ho]. split; [done|]. cbn. by rewrite Ho.
  - intros a s s' [Hs Ho] Hm. pose proof (sound_step a s s' Hs Hm) as Hs'. destruct a as [t|]; cbn in Hm.
    + right. pose proof (thread_keeps s t s' Hm) as (Eo & _ & _). split; [split; [done|congruence]|]. by right.
    + left. split; [done|]. destruct Hm as [cb opaque w p h Hu E|ty Hu|Hu|ty p l Hu E|ty h Hu Hx E]; cbn; congruence.
Qed.

Lemma join_ends i type : sound (f i) -> s_owner (f i) = DJoin type -> exists j, (i <= j)%nat /\ sound (f j) /\ s_owner (f j) = DDone type.
Proof using Hsched Hfair.
  intros Hs Ho.
  refine (fair_leads_to moves able of_pool (fun s => sound s /\ s_owner s = DJoin type) (fun s => sound s /\ s_owner s = DDone type)
    (fun s => threads_weight (s_threads s)) (fun s => match all_exit (s_threads s) with inleft t => Some (proj1_sig t) | inright _ => None end)
    f who Hsched Hfair _ _ i (conj Hs Ho)); clear i Hs Ho.
  - intros s [Hs Ho]. destruct (all_exit (s_threads s)) as [(t & x & Ht & Hx)|Hx]; cbn [proj1_sig]; [|split; [done|cbn; by rewrite Ho]].
    split; [cbn; rewrite <- (sn_count s Hs); by eapply lookup_lt_Some|]. exists x. split; [done|]. split; [|done]. intros ->.
    apply list_elem_of_lookup_2 in Ht. apply (ti_wait s (sn_inv s Hs)) in Ht as [_ Ha]. rewrite (ti_abort s (sn_inv s Hs)), Ho in Ha. done.
  - intros a s s' [Hs Ho] Hm. pose proof (sound_step a s s' Hs Hm) as Hs'. destruct a as [t|]; cbn in Hm.
    + right. destruct (abort_decreases s t s' (sn_inv s Hs)) as [Hw Eo]; [rewrite (ti_abort s (sn_inv s Hs)), Ho; done|done|].
      split; [split; [done|congruence]|by left].
    + left. split; [done|]. destruct Hm as [cb opaque w p h Hu E|ty Hu|Hu|ty p l Hu E|ty h Hu Hx E]; cbn; congruence.
Qed.

End fair_schedule.

(** ** Properties *)

(** C26: In every interleaving, with any number of threads, workers are taken off the queue in
    the order they were registered, none twice, each taken worker is processed at most once, and
    until the pool is freed no step of a thread touches a freed worker: marking it busy, storing
    its result and freeing it all succeed. *)
Theorem tp_workers_safe (n : nat) (s : tp_sys) :
  rtc tp_step (tp_init n) s ->
  s_started s ++ tp_worker_queue (s_pool s) = s_reg s /\ NoDup (s_reg s) /\ NoDup (s_done s) /\
  forall t w, (s_threads s !! t = Some (TBusy w) -> res_ok (routine_begin (s_heap s) w)) /\
    (s_threads s !! t = Some (TRun w) -> forall r, res_ok (routine_run (s_heap s) w r)) /\
    (s_threads s !! t = Some (TPosted w) -> res_ok (ep_tp_worker_free (s_pool s) (s_heap s) w)).
Proof.
  intros H. pose proof (inv_reachable n s H) as I.
  split; [apply I|]. split; [apply I|]. split.
  { pose proof (ti_nodup s I) as N. rewrite <- (ti_order s I), (ti_pending s I) in N.
    by apply NoDup_app in N as [N _]; apply NoDup_app in N as [N _]. }
  intros t w. split; [|split]; intros Ht; [|intros r|];
    assert (over (s_owner s) = false) as Ho by (by eapply not_over).
  - destruct (begin_spec s t w I Ho Ht) as (k & E). by eexists.
  - destruct (routine_run_spec s t w r I Ho Ht) as (k & E & _). by eexists.
  - eexists. by apply (free_spec s t).
Qed.

(** A destruction that waits (tp_kill_wait) frees the pool only after every registered worker
    was processed: none is dropped, none is left running. *)
Theorem tp_kill_wait_completes (n : nat) (s : tp_sys) :
  rtc tp_step (tp_init n) s -> s_owner s = DDone tp_kill_wait ->
  s_done s ≡ₚ s_reg s /\ Forall (fun x => x = TExit) (s_threads s).
Proof.
  intros H Hd. pose proof (inv_reachable n s H) as I.
  assert (Forall (fun x => x = TExit) (s_threads s)) as Hx by (apply I; by rewrite Hd).
  split; [|done]. rewrite <- (ti_order s I), (ti_drained s I), app_nil_r by (by rewrite Hd).
  rewrite (ti_pending s I). unfold all_of.
  replace (concat (map pending (s_threads s))) with (@nil nat); [by rewrite app_nil_r|].
  clear -Hx. induction Hx as [|x l -> _ IH]; [done|]. exact IH.
Qed.

(** The owner is in ep_tp_destroy. *)
Definition destroying (d : dstate) : Prop := match d with DPoll | DAbort _ | DJoin _ => True | DUse | DDone _ => False end.

(** C33: A destruction ends. Whatever a pool of at least one thread is doing when its owner is in
    ep_tp_destroy, of either kind, every fair schedule frees the pool: threads that sleep are woken by
    the broadcasts alone (a schedule need not wake anybody without one), the workers in the queue are
    processed when the destruction waits for them, every thread leaves, and the join ends. A schedule is fair when it
    picks the owner and each thread again and again; whoever is picked takes a step, or stays where
    it is when it sleeps, has left, or joins a thread that has not; everybody else can step. The
    callbacks of the workers return. *)
Theorem tp_shutdown_terminates `{Inhabited R} (n : nat) (f : nat -> tp_sys) (who : nat -> agent) :
  (0 < n)%nat -> rtc tp_step (tp_init n) (f 0%nat) -> destroying (s_owner (f 0%nat)) ->
  scheduled moves able f who -> fair (of_pool n) who ->
  (exists j type, s_owner (f j) = DDone type /\ Forall (fun x => x = TExit) (s_threads (f j))) /\
  forall i a, able a (f i) -> exists s', moves a (f i) s'.
Proof.
  intros Hn Hr Hd Hs Hf. assert (sound n (f 0%nat)) as S0 by (split; [by eapply inv_reachable|by eapply threads_count]).
  assert (forall i, sound n (f i)) as Sn.
  { induction i as [|i IH]; [done|]. destruct (Hs i) as [Hm|[-> _]]; [by eapply sound_step|done]. }
  split; [|intros i a; apply able_moves, Sn].
  assert (exists i type, s_owner (f i) = DJoin type) as (i & type & Hi).
  { assert (forall i type, s_owner (f i) = DAbort type -> exists i type, s_owner (f i) = DJoin type) as HA.
    { intros i type Hi. destruct (abort_ends n f who Hs Hf i type (Sn i) Hi) as (j & _ & _ & Hj). by exists j, type. }
    destruct (s_owner (f 0%nat)) as [| |type|type|type] eqn:E0; try done; [|by eapply HA|by exists 0%nat, type].
    destruct (poll_ends n f who Hs Hf 0%nat Hn S0 E0) as (j & _ & _ & Hj). by eapply HA. }
  destruct (join_ends n f who Hs Hf i type (Sn i) Hi) as (j & _ & Sj & Hj). exists j, type. split; [done|].
  apply (ti_exit _ (sn_inv _ _ Sj)). by rewrite Hj.
Qed.

End pool.
Arguments ep_tp_worker : clear implicits.
Arguments tp_sys : clear implicits.

(** One thread, one worker with opaque 7 whose callback returns 8: up to the free of the
    worker. *)
Definition demo_freed : tp_sys Z Z :=
  mk_sys (mk_tp [] 1 0) [None] [TTop] DUse [0%nat] [0%nat] [0%nat].

Lemma demo_run : rtc tp_step (tp_init 1) demo_freed.
Proof.
  eapply rtc_l; [eapply step_owner, (os_register _ true 7); reflexivity|].
  eapply rtc_l; [eapply (step_thread _ 0), ts_top; reflexivity|]. cbn.
  eapply rtc_l; [eapply (step_thread _ 0), ts_take; reflexivity|]. cbn.
  eapply rtc_l; [eapply (step_thread _ 0), ts_begin; reflexivity|]. cbn.
  eapply rtc_l; [eapply (step_thread _ 0), (ts_run _ _ _ 8); reflexivity|]. cbn.
  eapply rtc_l; [eapply (step_thread _ 0), ts_free; reflexivity|]. apply rtc_refl.
Qed.

Definition demo_join (s : tp_sys Z Z) : tp_sys Z Z :=
  mk_sys (tp_set_abort (s_pool s)) (s_heap s) (s_threads s) (DJoin tp_kill_wait)
    (s_reg s) (s_started s) (s_done s).

Lemma demo_join_run : rtc tp_step (tp_init 1) (demo_join demo_freed).
Proof.
  transitivity demo_freed; [exact demo_run|].
  eapply rtc_l; [eapply step_owner, (os_destroy _ tp_kill_wait); reflexivity|]. cbn.
  eapply rtc_l; [eapply step_owner, os_poll; reflexivity|]. cbn.
  eapply rtc_l; [eapply step_owner, os_abort; reflexivity|]. apply rtc_refl.
Qed.

(** The destruction of a pool whose only thread sleeps: the owner polls, aborts and wakes it, it
    leaves, the owner joins it; then nothing happens any more. *)
Definition demo_fall (i : nat) : tp_sys Z Z :=
  match i with
  | 0 => mk_sys (mk_tp [] 1 0) [] [TWait] DPoll [] [] []
  | 1 => mk_sys (mk_tp [] 1 0) [] [TWait] (DAbort tp_kill_wait) [] [] []
  | 2 => mk_sys (mk_tp [] 1 1) [] [TLock] (DJoin tp_kill_wait) [] [] []
  | 3 => mk_sys (mk_tp [] 1 1) [] [TExit] (DJoin tp_kill_wait) [] [] []
  | _ => mk_sys (mk_tp [] 1 1) [] [TExit] (DDone tp_kill_wait) [] [] []
  end%nat.
Definition demo_who (i : nat) : agent := if (i mod 3 =? 2)%nat then Some 0%nat else None.

Lemma demo_fall_start : rtc tp_step (tp_init 1) (demo_fall 0).
Proof.
  eapply rtc_l; [eapply (step_thread _ 0), ts_top; reflexivity|]. cbn.
  eapply rtc_l; [eapply (step_thread _ 0), ts_take; reflexivity|]. cbn.
  eapply rtc_l; [eapply step_owner, (os_destroy _ tp_kill_wait); reflexivity|]. apply rtc_refl.
Qed.

Lemma demo_scheduled : scheduled moves able demo_fall demo_who.
Proof.
  intros [|[|[|[|i]]]]; [left..|right].
  - exact (os_poll (demo_fall 0) eq_refl).
  - exact (os_abort (demo_fall 1) tp_kill_wait _ _ eq_refl eq_refl).
  - exact (ts_take (demo_fall 2) 0 TExit _ eq_refl eq_refl).
  - exact (os_join (demo_fall 3) tp_kill_wait [] eq_refl ltac:(by repeat constructor) eq_refl).
  - split; [done|]. unfold demo_who. destruct (_ =? _)%nat; [|intros H; exact H].
    intros (x & [= <-] & _ & H). by apply H.
Qed.

Lemma demo_fair : fair (of_pool 1) demo_who.
Proof.
  intros a i Ha. destruct a as [t|].
  - assert (t = 0%nat) as -> by (cbn in Ha; lia). exists (3 * i + 2)%nat. split; [lia|]. unfold demo_who.
    rewrite Nat.mul_comm, Nat.add_comm, Nat.Div0.mod_add. done.
  - exists (3 * i)%nat. split; [lia|]. unfold demo_who. rewrite Nat.mul_comm, Nat.Div0.mod_mul. done.
Qed.

Definition demo_done : tp_sys Z Z :=
  mk_sys (mk_tp [] 1 1) [None] [TExit] (DDone tp_kill_wait) [0%nat] [0%nat] [0%nat].

Lemma demo_done_run : rtc tp_step (tp_init 1) demo_done.
Proof.
  transitivity (demo_join demo_freed); [exact demo_join_run|].
  eapply rtc_l; [eapply (step_thread _ 0), ts_top; reflexivity|]. cbn.
  eapply rtc_l; [eapply step_owner, os_join; [done|repeat constructor|reflexivity]|]. apply rtc_refl.
Qed.

Lemma tp_workers_safe_witness : s_started demo_freed ++ [] = s_reg demo_freed /\ NoDup [0%nat].
Proof. destruct (tp_workers_safe 1 demo_freed demo_run) as (H1 & H2 & _). split; assumption. Defined.

Lemma tp_kill_wait_completes_witness : s_done demo_done ≡ₚ s_reg demo_done.
Proof. apply (tp_kill_wait_completes 1 demo_done demo_done_run eq_refl). Defined.

Lemma tp_shutdown_terminates_witness :
  exists j type, s_owner (demo_fall j) = DDone type /\ Forall (fun x => x = TExit) (s_threads (demo_fall j)).
Proof.
  exact (proj1 (tp_shutdown_terminates 1 demo_fall demo_who (le_n 1) demo_fall_start Logic.I demo_scheduled demo_fair)).
Defined.

(** The worker pointer that ep_tp_worker_register returns is not safe to wait on: the pool
    frees the worker when its callbacks are done, so in a run in which the thread is faster
    than the creator, ep_tp_worker_wait and ep_tp_worker_touch read a freed object. *)
Theorem tp_wait_use_after_free :
  exists s : tp_sys Z Z, rtc tp_step (tp_init 1) s /\ s_owner s = DUse /\ s_reg s = [0%nat] /\
    ep_tp_worker_wait (s_heap s) (Some 0%nat) = Fault UseAfterFree /\
    ep_tp_worker_touch (s_heap s) (Some 0%nat) = Fault UseAfterFree.
Proof. exists demo_freed. split; [exact demo_run|]. done. Qed.

End ThreadPool.
