(* ===== verification/Bson.v ===== *)
(** * Bson: the binary documents packets are made of

    Models the part of src/native/eventpack/3rdparty/bson/src/bson.c and encoding.c that
    ep_packet.c calls: the builder (a growing object, a write cursor, a stack of open
    subdocuments) and the iterator (a cursor into finished data). C strings are lists of bytes
    without their terminator; doubles are their 64-bit patterns. An allocation failure ends the
    process in this library, which is the fault [ProcessExit]. *)
From S2P Require Import Prelude Alloc Words.
Import Alloc Words.

Module Bson.

Definition BSON_OK : Z := 0.
Definition BSON_ERROR : Z := -1.
Definition BSON_NOT_UTF8 : Z := 2.
Definition BSON_FIELD_HAS_DOT : Z := 4.
Definition BSON_FIELD_INIT_DOLLAR : Z := 8.
Definition BSON_ALREADY_FINISHED : Z := 16.
Definition BSON_NOT_IN_SUBOBJECT : Z := 32.

Definition BSON_EOO : Z := 0.
Definition BSON_DOUBLE : Z := 1.
Definition BSON_STRING : Z := 2.
Definition BSON_OBJECT : Z := 3.
Definition BSON_ARRAY : Z := 4.
Definition BSON_BINDATA : Z := 5.
Definition BSON_BOOL : Z := 8.
Definition BSON_INT : Z := 16.
Definition BSON_LONG : Z := 18.

Record bson := mk_bson {
  b_data : list Z;
  b_cur : Z;
  b_finished : bool;
  b_err : Z;
  b_stack : list Z;       (* stackPtr[0 .. stackPos-1], the last pushed first *)
  b_stackSize : Z;
}.

(** ** UTF-8 validation (encoding.c) *)

Definition trailingBytesForUTF8 (c : Z) : Z :=
  if c <? 0xC0 then 0 else if c <? 0xE0 then 1 else if c <? 0xF0 then 2
  else if c <? 0xF8 then 3 else if c <? 0xFC then 4 else 5.

Definition byte_of (s : list Z) (i : nat) : Z := default 0 (s !! i).

(** The cases of the switch fall through from the length down to 1. *)
Definition isLegalUTF8 (s : list Z) (length : Z) : bool :=
  let trail a := negb ((a <? 0x80) || (0xBF <? a)) in
  let second :=
    let a := byte_of s 1 in
    negb (0xBF <? a) &&
    (if byte_of s 0 =? 0xE0 then negb (a <? 0xA0)
     else if byte_of s 0 =? 0xF0 then negb (a <? 0x90)
     else if byte_of s 0 =? 0xF4 then negb (0x8F <? a)
     else negb (a <? 0x80)) in
  let first :=
    negb ((0x80 <=? byte_of s 0) && (byte_of s 0 <? 0xC2)) && negb (0xF4 <? byte_of s 0) in
  if length =? 1 then first
  else if length =? 2 then second && first
  else if length =? 3 then trail (byte_of s 2) && second && first
  else if length =? 4 then trail (byte_of s 3) && trail (byte_of s 2) && second && first
  else false.

Definition bson_string_is_db_ref (s : list Z) : bool :=
  if 4 <=? zlen s then (byte_of s 1 =? 114) && (byte_of s 2 =? 101) && (byte_of s 3 =? 102)
  else if 3 <=? zlen s then
    ((byte_of s 1 =? 105) && (byte_of s 2 =? 100)) || ((byte_of s 1 =? 100) && (byte_of s 2 =? 98))
  else false.

(** The scan of the string, a code point at a time; the length is enough fuel. *)
Fixpoint validate_scan (fuel : nat) (s : list Z) (check_dot : bool) (err : Z) : Z * Z :=
  match fuel, s with
  | _, [] => (BSON_OK, err)
  | O, _ => (BSON_ERROR, err)
  | S fuel, c :: _ =>
    let err := if check_dot && (c =? 46) then Z.lor err BSON_FIELD_HAS_DOT else err in
    let sequence_length := trailingBytesForUTF8 c + 1 in
    if zlen s <? sequence_length then (BSON_ERROR, Z.lor err BSON_NOT_UTF8)
    else if negb (isLegalUTF8 s sequence_length) then (BSON_ERROR, Z.lor err BSON_NOT_UTF8)
    else validate_scan fuel (zdrop sequence_length s) check_dot err
  end.

Definition bson_validate_string (s : list Z) (check_dot check_dollar : bool) (err : Z) : Z * Z :=
  let err :=
    if check_dollar && (byte_of s 0 =? 36) && negb (bson_string_is_db_ref s)
    then Z.lor err BSON_FIELD_INIT_DOLLAR else err in
  validate_scan (length s) s check_dot err.

Definition bson_check_string (s : list Z) (err : Z) : Z * Z := bson_validate_string s false false err.
Definition bson_check_field_name (s : list Z) (err : Z) : Z * Z := bson_validate_string s true true err.

(** ** The builder *)

Definition bson_init_size (size : Z) : res bson :=
  if size <? 0 then Fault ProcessExit
  else Ok (mk_bson (junk size) 4 false 0 [] 0).

Definition initialBufferSize : Z := 128.
Definition bson_init : res bson := bson_init_size initialBufferSize.

(** The size in the first four bytes of a document. *)
Definition bson_finished_data_size (data : list Z) : res Z :=
  d ← slice data 0 4; Ok (i32 (le_load d)).

Definition bson_init_finished_data_with_copy (data : list Z) : res bson :=
  dataSize ← bson_finished_data_size data;
  b ← bson_init_size dataSize;
  src ← slice data 0 dataSize;
  d ← memcpy (b_data b) 0 src dataSize;
  Ok (mk_bson d (b_cur b) true (b_err b) (b_stack b) (b_stackSize b)).

Definition bson_size (b : bson) : res Z := bson_finished_data_size (b_data b).

Definition bson_ensure_space (b : bson) (bytesNeeded : Z) : res (Z * bson) :=
  let dataSize := zlen (b_data b) in
  if b_cur b + bytesNeeded <=? dataSize then Ok (BSON_OK, b) else
  new_size ← c_int (3 * (dataSize + bytesNeeded) / 2);
  Ok (BSON_OK, mk_bson (b_data b ++ junk (new_size - dataSize)) (b_cur b) (b_finished b) (b_err b)
                 (b_stack b) (b_stackSize b)).

(** [memcpy] to the cursor, which moves behind the bytes; the byte and word appends are this
    with one, four and eight bytes. *)
Definition bson_append (b : bson) (l : list Z) : res bson :=
  d ← memcpy (b_data b) (b_cur b) l (zlen l);
  Ok (mk_bson d (b_cur b + zlen l) (b_finished b) (b_err b) (b_stack b) (b_stackSize b)).

Definition bson_append_byte (b : bson) (c : Z) : res bson := bson_append b [u8 c].
Definition bson_append32 (b : bson) (z : Z) : res bson := bson_append b (le_bytes 4 z).
Definition bson_append64 (b : bson) (z : Z) : res bson := bson_append b (le_bytes 8 z).

Definition set_err (b : bson) (err : Z) : bson :=
  mk_bson (b_data b) (b_cur b) (b_finished b) err (b_stack b) (b_stackSize b).

Definition bson_append_estart (b : bson) (type : Z) (name : list Z) (dataSize : Z)
  : res (Z * bson) :=
  let len := zlen name + 1 in
  if b_finished b then Ok (BSON_ERROR, set_err b (Z.lor (b_err b) BSON_ALREADY_FINISHED)) else
  '(_, b) ← bson_ensure_space b (1 + len + dataSize);
  let '(r, err) := bson_check_field_name name (b_err b) in
  let b := set_err b err in
  if r =? BSON_ERROR then Ok (BSON_ERROR, b) else
  b ← bson_append_byte b type;
  b ← bson_append b (name ++ [0]);
  Ok (BSON_OK, b).

Definition bson_append_int (b : bson) (name : list Z) (i : Z) : res (Z * bson) :=
  '(r, b) ← bson_append_estart b BSON_INT name 4;
  if r =? BSON_ERROR then Ok (r, b) else b ← bson_append32 b i; Ok (BSON_OK, b).

Definition bson_append_long (b : bson) (name : list Z) (i : Z) : res (Z * bson) :=
  '(r, b) ← bson_append_estart b BSON_LONG name 8;
  if r =? BSON_ERROR then Ok (r, b) else b ← bson_append64 b i; Ok (BSON_OK, b).

Definition bson_append_double (b : bson) (name : list Z) (bits : Z) : res (Z * bson) :=
  '(r, b) ← bson_append_estart b BSON_DOUBLE name 8;
  if r =? BSON_ERROR then Ok (r, b) else b ← bson_append64 b bits; Ok (BSON_OK, b).

Definition bson_append_bool (b : bson) (name : list Z) (i : Z) : res (Z * bson) :=
  '(r, b) ← bson_append_estart b BSON_BOOL name 1;
  if r =? BSON_ERROR then Ok (r, b) else
  b ← bson_append_byte b (if i =? 0 then 0 else 1); Ok (BSON_OK, b).

Definition bson_append_string (b : bson) (name value : list Z) : res (Z * bson) :=
  let sl := zlen value + 1 in
  if INT_MAX <? sl then Ok (BSON_ERROR, set_err b 1) else
  let '(r, err) := bson_check_string value (b_err b) in
  let b := set_err b err in
  if r =? BSON_ERROR then Ok (BSON_ERROR, b) else
  '(r, b) ← bson_append_estart b BSON_STRING name (4 + sl);
  if r =? BSON_ERROR then Ok (r, b) else
  b ← bson_append32 b sl;
  b ← bson_append b value;
  b ← bson_append b [0];
  Ok (BSON_OK, b).

(** With the subtype BSON_BIN_BINARY (0), the only one ep_packet.c uses. *)
Definition bson_append_binary (b : bson) (name str : list Z) : res (Z * bson) :=
  '(r, b) ← bson_append_estart b BSON_BINDATA name (4 + 1 + zlen str);
  if r =? BSON_ERROR then Ok (r, b) else
  b ← bson_append32 b (zlen str);
  b ← bson_append_byte b 0;
  b ← bson_append b str;
  Ok (BSON_OK, b).

(** The stack of open subdocuments: 32 entries in the struct, then a doubling object. *)
Definition bson_append_grow_stack (stackSize : Z) : Z :=
  if stackSize =? 0 then 32 else 2 * stackSize.

Definition bson_append_start (type : Z) (b : bson) (name : list Z) : res (Z * bson) :=
  '(r, b) ← bson_append_estart b type name 5;
  if r =? BSON_ERROR then Ok (r, b) else
  let size := if b_stackSize b <=? zlen (b_stack b) then bson_append_grow_stack (b_stackSize b)
              else b_stackSize b in
  if size <=? zlen (b_stack b) then Fault OutOfBounds else
  let b := mk_bson (b_data b) (b_cur b) (b_finished b) (b_err b) (b_cur b :: b_stack b) size in
  b ← bson_append32 b 0;
  Ok (BSON_OK, b).

Definition bson_append_start_object := bson_append_start BSON_OBJECT.
Definition bson_append_start_array := bson_append_start BSON_ARRAY.

(** Ends the innermost subdocument: a zero byte, then its size where it starts. *)
Definition bson_append_finish_object (b : bson) : res (Z * bson) :=
  match b_stack b with
  | [] => Ok (BSON_ERROR, set_err b BSON_NOT_IN_SUBOBJECT)
  | start :: stack =>
    '(_, b) ← bson_ensure_space b 1;
    b ← bson_append_byte b 0;
    if INT_MAX <=? b_cur b - start
    then Ok (BSON_ERROR, mk_bson (b_data b) (b_cur b) (b_finished b) 1 stack (b_stackSize b)) else
    d ← memcpy (b_data b) start (le_bytes 4 (b_cur b - start)) 4;
    Ok (BSON_OK, mk_bson d (b_cur b) (b_finished b) (b_err b) stack (b_stackSize b))
  end.

Definition bson_finish (b : bson) : res (Z * bson) :=
  if negb (Z.land (b_err b) BSON_NOT_UTF8 =? 0) then Ok (BSON_ERROR, b) else
  if b_finished b then Ok (BSON_OK, b) else
  match b_stack b with
  | _ :: _ => Fault ProcessExit
  | [] =>
    '(_, b) ← bson_ensure_space b 1;
    b ← bson_append_byte b 0;
    if INT_MAX <=? b_cur b then Ok (BSON_ERROR, set_err b 1) else
    d ← memcpy (b_data b) 0 (le_bytes 4 (b_cur b)) 4;
    Ok (BSON_OK, mk_bson d (b_cur b) true (b_err b) (b_stack b) (b_stackSize b))
  end.

(** ** The iterator

    A cursor is an offset into the memory [m] the packet's data is in. *)

Record bson_iterator := mk_it { it_cur : Z; it_first : bool }.

Definition rd_byte (m : list Z) (off : Z) : res Z :=
  d ← slice m off 1; Ok (hd 0 d).

Fixpoint scan_nul (l : list Z) : option (list Z) :=
  match l with
  | [] => None
  | c :: l => if c =? 0 then Some [] else cons c <$> scan_nul l
  end.

(** The C string at an offset; running off the end of the memory is a fault. *)
Definition c_string (m : list Z) (off : Z) : res (list Z) :=
  if (0 <=? off) && (off <=? zlen m) then
    match scan_nul (zdrop off m) with Some s => Ok s | None => Fault OutOfBounds end
  else Fault OutOfBounds.

Definition bson_iterator_from_buffer (off : Z) : bson_iterator := mk_it (off + 4) true.

Definition bson_iterator_type (m : list Z) (i : bson_iterator) : res Z := rd_byte m (it_cur i).

Definition bson_iterator_key (m : list Z) (i : bson_iterator) : res (list Z) :=
  c_string m (it_cur i + 1).

Definition bson_iterator_value (m : list Z) (i : bson_iterator) : res Z :=
  s ← c_string m (it_cur i + 1); Ok (it_cur i + 1 + zlen s + 1).

Definition bson_iterator_int_raw (m : list Z) (i : bson_iterator) : res Z :=
  t ← bson_iterator_value m i; d ← slice m t 4; Ok (i32 (le_load d)).

Definition bson_iterator_long_raw (m : list Z) (i : bson_iterator) : res Z :=
  t ← bson_iterator_value m i; d ← slice m t 8; Ok (i64 (le_load d)).

(** The 64 bits of the double. *)
Definition bson_iterator_double_raw (m : list Z) (i : bson_iterator) : res Z :=
  t ← bson_iterator_value m i; d ← slice m t 8; Ok (le_load d).

Definition schar (c : Z) : Z := if c <? 128 then c else c - 256.

(** The size of the value, by its type; [None] is the type the library exits on. *)
Definition value_size (m : list Z) (i : bson_iterator) (type : Z) : res (option Z) :=
  if (type =? 6) || (type =? 10) || (type =? 255) || (type =? 127) then Ok (Some 0)
  else if type =? 8 then Ok (Some 1)
  else if type =? 16 then Ok (Some 4)
  else if (type =? 18) || (type =? 1) || (type =? 17) || (type =? 9) then Ok (Some 8)
  else if type =? 7 then Ok (Some 12)
  else if (type =? 2) || (type =? 14) || (type =? 13) then
    n ← bson_iterator_int_raw m i; Ok (Some (4 + n))
  else if type =? 5 then n ← bson_iterator_int_raw m i; Ok (Some (5 + n))
  else if (type =? 3) || (type =? 4) || (type =? 15) then
    n ← bson_iterator_int_raw m i; Ok (Some n)
  else if type =? 12 then n ← bson_iterator_int_raw m i; Ok (Some (4 + 12 + n))
  else if type =? 11 then
    s ← bson_iterator_value m i;
    s1 ← c_string m s; s2 ← c_string m (s + zlen s1 + 1);
    Ok (Some (zlen s1 + 1 + (zlen s2 + 1)))
  else Ok None.

Definition bson_iterator_next (m : list Z) (i : bson_iterator) : res (Z * bson_iterator) :=
  if it_first i then
    c ← rd_byte m (it_cur i); Ok (schar c, mk_it (it_cur i) false)
  else
  type ← bson_iterator_type m i;
  if type =? BSON_EOO then Ok (BSON_EOO, i) else
  ds ← value_size m i type;
  match ds with
  | None => Fault ProcessExit
  | Some ds =>
    s ← c_string m (it_cur i + 1);
    let i := mk_it (it_cur i + (1 + zlen s + 1 + ds)) (it_first i) in
    c ← rd_byte m (it_cur i);
    Ok (schar c, i)
  end.

(** Conversions between the 64-bit pattern of a double and integers: truncation toward zero
    ([None] for infinities and NaN), and rounding to the nearest, ties to even. *)
Definition double_trunc (bits : Z) : option Z :=
  let e := Z.land (Z.shiftr bits 52) 2047 in
  let f := Z.land bits (2 ^ 52 - 1) in
  if e =? 2047 then None else
  let mant := if e =? 0 then f else 2 ^ 52 + f in
  let a := Z.shiftl mant ((if e =? 0 then 1 else e) - 1075) in
  Some (if Z.testbit bits 63 then - a else a).

Definition double_of_Z (n : Z) : Z :=
  if n =? 0 then 0 else
  let a := Z.abs n in
  let k := Z.log2 a in
  let m :=
    if k <=? 52 then Z.shiftl a (52 - k) else
    let s := k - 52 in
    let q := Z.shiftr a s in
    let r := a - Z.shiftl q s in
    let half := Z.shiftl 1 (s - 1) in
    if (half <? r) || ((r =? half) && Z.odd q) then q + 1 else q in
  (if n <? 0 then 2 ^ 63 else 0) + (k + 1023) * 2 ^ 52 + (m - 2 ^ 52).

(** A cast of a double to a [w]-bit integer: undefined when the value does not fit. *)
Definition double_to_int (w bits : Z) : res Z :=
  match double_trunc bits with
  | Some z => if (- 2 ^ (w - 1) <=? z) && (z <? 2 ^ (w - 1)) then Ok z else Fault IntOverflow
  | None => Fault IntOverflow
  end.

Definition bson_iterator_int (m : list Z) (i : bson_iterator) : res Z :=
  type ← bson_iterator_type m i;
  if type =? BSON_INT then bson_iterator_int_raw m i
  else if type =? BSON_LONG then n ← bson_iterator_long_raw m i; Ok (i32 n)
  else if type =? BSON_DOUBLE then d ← bson_iterator_double_raw m i; double_to_int 32 d
  else Ok 0.

(** The 64 bits of the result. *)
Definition bson_iterator_double (m : list Z) (i : bson_iterator) : res Z :=
  type ← bson_iterator_type m i;
  if type =? BSON_INT then n ← bson_iterator_int_raw m i; Ok (double_of_Z n)
  else if type =? BSON_LONG then n ← bson_iterator_long_raw m i; Ok (double_of_Z n)
  else if type =? BSON_DOUBLE then bson_iterator_double_raw m i
  else Ok 0.

Definition bson_iterator_long (m : list Z) (i : bson_iterator) : res Z :=
  type ← bson_iterator_type m i;
  if type =? BSON_INT then bson_iterator_int_raw m i
  else if type =? BSON_LONG then bson_iterator_long_raw m i
  else if type =? BSON_DOUBLE then d ← bson_iterator_double_raw m i; double_to_int 64 d
  else Ok 0.

Definition bson_iterator_bool (m : list Z) (i : bson_iterator) : res Z :=
  type ← bson_iterator_type m i;
  if type =? BSON_BOOL then t ← bson_iterator_value m i; c ← rd_byte m t; Ok (schar c)
  else if type =? BSON_INT then n ← bson_iterator_int_raw m i; Ok (if n =? 0 then 0 else 1)
  else if type =? BSON_LONG then n ← bson_iterator_long_raw m i; Ok (if n =? 0 then 0 else 1)
  else if type =? BSON_DOUBLE then
    d ← bson_iterator_double_raw m i; Ok (if Z.land d (2 ^ 63 - 1) =? 0 then 0 else 1)
  else if (type =? BSON_EOO) || (type =? 10) then Ok 0
  else Ok 1.

Definition bson_iterator_string (m : list Z) (i : bson_iterator) : res (list Z) :=
  type ← bson_iterator_type m i;
  if (type =? BSON_STRING) || (type =? 14) then
    t ← bson_iterator_value m i; c_string m (t + 4)
  else Ok [].

Definition bson_iterator_bin_type (m : list Z) (i : bson_iterator) : res Z :=
  t ← bson_iterator_value m i; c ← rd_byte m (t + 4); Ok (schar c).

Definition bson_iterator_bin_len (m : list Z) (i : bson_iterator) : res Z :=
  type ← bson_iterator_bin_type m i;
  n ← bson_iterator_int_raw m i;
  if type =? 2 then Ok (n - 4) else Ok n.

Definition bson_iterator_bin_data (m : list Z) (i : bson_iterator) : res Z :=
  type ← bson_iterator_bin_type m i;
  t ← bson_iterator_value m i;
  if type =? 2 then Ok (t + 9) else Ok (t + 5).

(** ** Lemmas on the builder *)

Definition LIM : Z := 268435456.

(** The bytes written so far. *)
Definition written (b : bson) : list Z := ztake (b_cur b) (b_data b).

Record b_inv (b : bson) : Prop := {
  bv_cur : 4 <= b_cur b <= zlen (b_data b);
  bv_open : b_finished b = false;
  bv_utf8 : Z.land (b_err b) BSON_NOT_UTF8 = 0;
  bv_stack : 0 <= b_stackSize b;
}.

Lemma written_len b : b_inv b -> zlen (written b) = b_cur b.
Proof. intros [? _ _ _]. unfold written. rewrite zlen_ztake by lia. lia. Qed.

Lemma written_set_err b e : written (set_err b e) = written b.
Proof. done. Qed.

Lemma ensure_spec b n :
  b_inv b -> 0 <= n -> b_cur b + n <= LIM ->
  exists b', bson_ensure_space b n = Ok (BSON_OK, b') /\ b_inv b' /\ written b' = written b /\
    b_cur b' = b_cur b /\ b_cur b + n <= zlen (b_data b') /\ b_err b' = b_err b /\
    b_stack b' = b_stack b /\ b_stackSize b' = b_stackSize b.
Proof.
  intros I Hn Hl. pose proof I as [Hc Ho Hu Hs]. unfold LIM in Hl. unfold bson_ensure_space.
  destruct (Z.leb_spec (b_cur b + n) (zlen (b_data b))) as [Hle|Hgt].
  - exists b. done.
  - assert (zlen (b_data b) + n <= 3 * (zlen (b_data b) + n) / 2 <= 3 * LIM) as Hd.
    { unfold LIM. split; [apply Z.div_le_lower_bound; lia|].
      apply Z.lt_succ_r, Z.div_lt_upper_bound; lia. }
    rewrite c_int_ok by (unfold is_i32, LIM in *; lia). cbn [mbind res_bind].
    eexists. split; [done|].
    assert (zlen (b_data b ++ junk (3 * (zlen (b_data b) + n) / 2 - zlen (b_data b)))
            = 3 * (zlen (b_data b) + n) / 2) as L.
    { rewrite zlen_app, zlen_junk by lia. lia. }
    split; [constructor; cbn; try done; lia|]. cbn. split; [|split; [done|split; [lia|done]]].
    unfold written. cbn. unfold ztake. rewrite take_app_le; [done|]. unfold zlen in *. lia.
Qed.

Lemma append_spec b l :
  b_inv b -> b_cur b + zlen l <= zlen (b_data b) ->
  exists b', bson_append b l = Ok b' /\ b_inv b' /\ written b' = written b ++ l /\
    b_cur b' = b_cur b + zlen l /\ zlen (b_data b') = zlen (b_data b) /\ b_err b' = b_err b /\
    b_stack b' = b_stack b /\ b_stackSize b' = b_stackSize b.
Proof.
  intros [Hc Ho Hu Hs] Hl. unfold bson_append. pose proof (zlen_nonneg l).
  rewrite memcpy_ok by lia. cbn [mbind res_bind]. rewrite ztake_all by lia.
  assert (zlen (splice (b_data b) (b_cur b) l) = zlen (b_data b)) as L by (apply zlen_splice; lia).
  eexists. split; [done|]. split; [constructor; cbn; try done; lia|]. cbn.
  split; [|done]. unfold written. cbn. apply ztake_splice_after; lia.
Qed.

Lemma set_err_inv b e : b_inv b -> Z.land e BSON_NOT_UTF8 = 0 -> b_inv (set_err b e).
Proof. intros [? ? ? ?] He. by constructor. Qed.

(** A scan that succeeds leaves the UTF-8 bit of the error word as it was. *)
Lemma scan_err fuel : forall s dot err r err',
  validate_scan fuel s dot err = (r, err') -> r = BSON_OK ->
  Z.land err' BSON_NOT_UTF8 = Z.land err BSON_NOT_UTF8.
Proof.
  assert (forall e, Z.land (Z.lor e BSON_FIELD_HAS_DOT) BSON_NOT_UTF8 = Z.land e BSON_NOT_UTF8) as L.
  { intros e. rewrite Z.land_lor_distr_l. unfold BSON_FIELD_HAS_DOT, BSON_NOT_UTF8.
    change (Z.land 4 2) with 0. apply Z.lor_0_r. }
  induction fuel as [|fuel IH]; intros s dot err r err' E Hr; cbn in E.
  - destruct s; injection E as <- <-; [done|]. discriminate Hr.
  - destruct s as [|c s]; [by injection E as <- <-|].
    destruct (zlen (c :: s) <? trailingBytesForUTF8 c + 1);
      [by injection E as <- <-; discriminate Hr|].
    destruct (negb (isLegalUTF8 (c :: s) (trailingBytesForUTF8 c + 1)));
      [by injection E as <- <-; discriminate Hr|].
    rewrite (IH _ _ _ _ _ E Hr). destruct (dot && (c =? 46)); [apply L|done].
Qed.

Lemma validate_err s dot dollar err r err' :
  bson_validate_string s dot dollar err = (r, err') -> r = BSON_OK ->
  Z.land err' BSON_NOT_UTF8 = Z.land err BSON_NOT_UTF8.
Proof.
  unfold bson_validate_string. intros E Hr. rewrite (scan_err _ _ _ _ _ _ E Hr).
  destruct (_ && _ && _); [|done]. rewrite Z.land_lor_distr_l.
  change (Z.land BSON_FIELD_INIT_DOLLAR BSON_NOT_UTF8) with 0. apply Z.lor_0_r.
Qed.

(** Whether a string passes does not depend on the error word. *)
Definition utf8_ok (s : list Z) : bool := (bson_check_string s 0).1 =? BSON_OK.

Lemma scan_code fuel : forall s dot err dot' err',
  (validate_scan fuel s dot err).1 = (validate_scan fuel s dot' err').1.
Proof.
  induction fuel as [|fuel IH]; intros s dot err dot' err'; cbn.
  - by destruct s.
  - destruct s as [|c s]; [done|]. destruct (zlen (c :: s) <? _); [done|].
    destruct (negb _); [done|]. apply IH.
Qed.

Lemma validate_ok s dot dollar err :
  utf8_ok s = true -> exists err', bson_validate_string s dot dollar err = (BSON_OK, err') /\
    Z.land err' BSON_NOT_UTF8 = Z.land err BSON_NOT_UTF8.
Proof.
  intros H. destruct (bson_validate_string s dot dollar err) as [r err'] eqn:E.
  assert (r = BSON_OK) as ->.
  { unfold utf8_ok, bson_check_string, bson_validate_string in H. apply Z.eqb_eq in H.
    unfold bson_validate_string in E. apply (f_equal fst) in E. cbn [fst] in E.
    rewrite <- E, <- H. apply scan_code. }
  exists err'. split; [done|]. by eapply validate_err.
Qed.

Lemma estart_spec b type name n :
  b_inv b -> utf8_ok name = true -> 0 <= n -> b_cur b + 2 + zlen name + n <= LIM ->
  exists b', bson_append_estart b type name n = Ok (BSON_OK, b') /\ b_inv b' /\
    written b' = written b ++ u8 type :: name ++ [0] /\ b_cur b' = b_cur b + 2 + zlen name /\
    b_cur b' + n <= zlen (b_data b') /\ b_stack b' = b_stack b /\ b_stackSize b' = b_stackSize b.
Proof.
  intros I Hu Hn Hl. unfold bson_append_estart. rewrite (bv_open _ I).
  pose proof (zlen_nonneg name).
  destruct (ensure_spec b (1 + (zlen name + 1) + n)) as (b1 & -> & I1 & W1 & C1 & D1 & E1 & S1 & T1);
    [done|lia|lia|]. cbn [mbind res_bind].
  destruct (validate_ok name true true (b_err b1) Hu) as (err & Ev & Hv).
  unfold bson_check_field_name. rewrite Ev.
  change (BSON_OK =? BSON_ERROR) with false. cbv beta iota zeta.
  assert (b_inv (set_err b1 err)) as I1' by (apply set_err_inv; [done|]; rewrite Hv; apply I1).
  unfold bson_append_byte.
  destruct (append_spec (set_err b1 err) [u8 type]) as (b2 & -> & I2 & W2 & C2 & D2 & _ & S2 & T2);
    [done|rewrite zlen_cons, zlen_nil; cbn [set_err b_cur b_data]; lia|]. cbn [mbind res_bind].
  rewrite zlen_cons, zlen_nil in C2. cbn [set_err b_cur b_data] in C2, D2.
  destruct (append_spec b2 (name ++ [0])) as (b3 & -> & I3 & W3 & C3 & D3 & _ & S3 & T3);
    [done|rewrite zlen_app, zlen_cons, zlen_nil; lia|]. cbn [mbind res_bind].
  rewrite zlen_app, zlen_cons, zlen_nil in C3.
  exists b3. split; [done|]. split; [done|]. split; [|split; [lia|split; [lia|]]].
  - rewrite W3, W2, written_set_err, W1, <- app_assoc. done.
  - cbn in S2, T2. split; congruence.
Qed.

(** [b'] is [b] with [l] written behind it and room for [r] more bytes. *)
Record grows (b b' : bson) (l : list Z) (r : Z) : Prop := {
  gr_inv : b_inv b';
  gr_written : written b' = written b ++ l;
  gr_room : b_cur b' + r <= zlen (b_data b');
  gr_stack : b_stack b' = b_stack b;
  gr_size : b_stackSize b' = b_stackSize b;
}.

Lemma grows_cur b b' l r : b_inv b -> grows b b' l r -> b_cur b' = b_cur b + zlen l.
Proof.
  intros I [I' W _ _ _]. rewrite <- (written_len b' I'), W, zlen_app, (written_len b I). done.
Qed.

Lemma grows_append b b1 l1 r l2 :
  grows b b1 l1 r -> zlen l2 <= r ->
  exists b2, bson_append b1 l2 = Ok b2 /\ grows b b2 (l1 ++ l2) (r - zlen l2).
Proof.
  intros [I W R S T] Hr.
  destruct (append_spec b1 l2) as (b2 & -> & I2 & W2 & C2 & D2 & _ & S2 & T2); [done|lia|].
  exists b2. split; [done|]. constructor; [done| |lia|congruence|congruence].
  by rewrite W2, W, app_assoc.
Qed.

Lemma grows_estart b type name n :
  b_inv b -> utf8_ok name = true -> 0 <= n -> b_cur b + 2 + zlen name + n <= LIM ->
  exists b', bson_append_estart b type name n = Ok (BSON_OK, b') /\
    grows b b' (u8 type :: name ++ [0]) n.
Proof.
  intros I U Hn Hl. destruct (estart_spec b type name n I U Hn Hl) as (b' & E & I' & W & _ & R & S & T).
  exists b'. split; [done|]. by constructor.
Qed.

(** One step of a builder proof: the next append of the goal succeeds. *)
Ltac b_append :=
  match goal with
  | G : grows ?b ?b1 ?l1 ?r |- context [ bson_append ?b1 ?l2 ] =>
    let b2 := fresh "b" in let E := fresh "E" in let G' := fresh "G" in
    destruct (grows_append b b1 l1 r l2 G) as (b2 & E & G');
      [ rewrite ?zlen_le_bytes, ?zlen_cons, ?zlen_nil; lia
      | rewrite E; clear E G; rename G' into G; cbn [mbind res_bind] ]
  end.

Ltac b_estart :=
  match goal with
  | |- context [ bson_append_estart ?b ?t ?name ?n ] =>
    let b2 := fresh "b" in let E := fresh "E" in let G' := fresh "G" in
    destruct (grows_estart b t name n) as (b2 & E & G');
      [ assumption | assumption | try lia | try lia
      | rewrite E; clear E; cbn [mbind res_bind]; change (BSON_OK =? BSON_ERROR) with false;
        cbv beta iota ]
  end.

Lemma append_int_spec b name i :
  b_inv b -> utf8_ok name = true -> b_cur b + 2 + zlen name + 4 <= LIM ->
  exists b' r, bson_append_int b name i = Ok (BSON_OK, b') /\
    grows b b' ((16 :: name ++ [0]) ++ le_bytes 4 i) r.
Proof.
  intros. unfold bson_append_int, bson_append32. b_estart. b_append. by eexists _, _.
Qed.

Lemma append_long_spec b name i :
  b_inv b -> utf8_ok name = true -> b_cur b + 2 + zlen name + 8 <= LIM ->
  exists b' r, bson_append_long b name i = Ok (BSON_OK, b') /\
    grows b b' ((18 :: name ++ [0]) ++ le_bytes 8 i) r.
Proof.
  intros. unfold bson_append_long, bson_append64. b_estart. b_append. by eexists _, _.
Qed.

Lemma append_double_spec b name i :
  b_inv b -> utf8_ok name = true -> b_cur b + 2 + zlen name + 8 <= LIM ->
  exists b' r, bson_append_double b name i = Ok (BSON_OK, b') /\
    grows b b' ((1 :: name ++ [0]) ++ le_bytes 8 i) r.
Proof.
  intros. unfold bson_append_double, bson_append64. b_estart. b_append. by eexists _, _.
Qed.

Lemma append_bool_spec b name i :
  b_inv b -> utf8_ok name = true -> b_cur b + 2 + zlen name + 1 <= LIM ->
  exists b' r, bson_append_bool b name i = Ok (BSON_OK, b') /\
    grows b b' ((8 :: name ++ [0]) ++ [if i =? 0 then 0 else 1]) r.
Proof.
  intros. unfold bson_append_bool, bson_append_byte. b_estart. b_append. eexists _, _.
  split; [done|]. by destruct (i =? 0).
Qed.

Lemma append_binary_spec b name str :
  b_inv b -> utf8_ok name = true -> b_cur b + 2 + zlen name + 5 + zlen str <= LIM ->
  exists b' r, bson_append_binary b name str = Ok (BSON_OK, b') /\
    grows b b' ((5 :: name ++ [0]) ++ le_bytes 4 (zlen str) ++ [0] ++ str) r.
Proof.
  intros. pose proof (zlen_nonneg str).
  unfold bson_append_binary, bson_append32, bson_append_byte. b_estart. b_append. b_append.
  b_append. eexists _, _. split; [done|]. rewrite <- !app_assoc in *. done.
Qed.

Lemma append_string_spec b name s :
  b_inv b -> utf8_ok name = true -> utf8_ok s = true -> b_cur b + 2 + zlen name + 5 + zlen s <= LIM ->
  exists b' r, bson_append_string b name s = Ok (BSON_OK, b') /\
    grows b b' ((2 :: name ++ [0]) ++ le_bytes 4 (zlen s + 1) ++ s ++ [0]) r.
Proof.
  intros I Un Us Hl. pose proof (zlen_nonneg s). pose proof (zlen_nonneg name).
  pose proof (bv_cur b I). unfold bson_append_string, bson_append32.
  destruct (Z.ltb_spec INT_MAX (zlen s + 1)); [unfold INT_MAX, LIM in *; lia|].
  destruct (validate_ok s false false (b_err b) Us) as (err & Ev & Hv).
  unfold bson_check_string. rewrite Ev. change (BSON_OK =? BSON_ERROR) with false. cbv beta iota zeta.
  assert (b_inv (set_err b err)) as I' by (apply set_err_inv; [done|]; rewrite Hv; apply I).
  b_estart; [cbn [set_err b_cur]; lia|]. b_append. b_append. b_append. eexists _, _. split; [done|].
  rewrite <- !app_assoc in *. destruct G as [? W ? ? ?]. by constructor.
Qed.

Lemma append_start_spec type b name :
  b_inv b -> utf8_ok name = true -> b_cur b + 2 + zlen name + 5 <= LIM ->
  zlen (b_stack b) <= b_stackSize b ->
  exists b', bson_append_start type b name = Ok (BSON_OK, b') /\ b_inv b' /\
    written b' = written b ++ (u8 type :: name ++ [0]) ++ le_bytes 4 0 /\
    b_stack b' = b_cur b + 2 + zlen name :: b_stack b /\ zlen (b_stack b') <= b_stackSize b' /\
    b_stackSize b <= b_stackSize b'.
Proof.
  intros I U Hl Hs. unfold bson_append_start, bson_append32. b_estart.
  pose proof (grows_cur _ _ _ _ I G) as C. rewrite zlen_cons, zlen_app, zlen_cons, zlen_nil in C.
  pose proof (gr_stack _ _ _ _ G) as S. pose proof (gr_size _ _ _ _ G) as T.
  set (size := if b_stackSize b0 <=? zlen (b_stack b0)
               then bson_append_grow_stack (b_stackSize b0) else b_stackSize b0).
  assert (zlen (b_stack b) < size /\ b_stackSize b <= size) as [Hsize Hgrow].
  { unfold size, bson_append_grow_stack. rewrite S, T. pose proof (zlen_nonneg (b_stack b)).
    case_zbool; lia. }
  rewrite S. destruct (Z.leb_spec size (zlen (b_stack b))); [lia|].
  set (b1 := mk_bson _ _ _ _ _ _).
  assert (b_inv b1) as I1.
  { pose proof (zlen_nonneg (b_stack b)). destruct G as [[? ? ? ?] ? ? ? ?].
    constructor; cbn [b1 b_cur b_data b_finished b_err b_stackSize]; try done. lia. }
  destruct (append_spec b1 (le_bytes 4 0)) as (b2 & -> & I2 & W2 & C2 & D2 & _ & S2 & T2); [done| |].
  { rewrite zlen_le_bytes. unfold b1. cbn [b_cur b_data]. pose proof (gr_room _ _ _ _ G). lia. }
  cbn [mbind res_bind]. exists b2. split; [done|]. split; [done|]. split; [|split; [|split]].
  - rewrite W2. change (written b1) with (written b0). rewrite (gr_written _ _ _ _ G).
    by rewrite <- app_assoc.
  - rewrite S2. unfold b1. cbn [b_stack]. f_equal. lia.
  - rewrite S2, T2. unfold b1. cbn [b_stack b_stackSize]. rewrite zlen_cons. lia.
  - rewrite T2. exact Hgrow.
Qed.

(** Writing a size over the four bytes behind [pre]. *)
Lemma patch_spec b pre h rest v :
  b_inv b -> written b = pre ++ h ++ rest -> zlen h = 4 ->
  exists d, memcpy (b_data b) (zlen pre) (le_bytes 4 v) 4 = Ok d /\
    ztake (b_cur b) d = pre ++ le_bytes 4 v ++ rest /\ zlen d = zlen (b_data b).
Proof.
  intros I W Hh. pose proof (bv_cur _ I) as B. pose proof (written_len _ I) as C.
  rewrite W, !zlen_app, Hh in C. pose proof (zlen_nonneg pre). pose proof (zlen_nonneg rest).
  rewrite memcpy_ok by (rewrite ?zlen_le_bytes; lia).
  rewrite ztake_all by (by rewrite zlen_le_bytes).
  eexists. split; [done|]. split; [|apply zlen_splice; rewrite ?zlen_le_bytes; lia].
  rewrite ztake_splice_in by (rewrite ?zlen_le_bytes; lia).
  change (ztake (b_cur b) (b_data b)) with (written b). rewrite W. unfold splice.
  rewrite zlen_le_bytes, ztake_app_l by done. f_equal. f_equal.
  rewrite (app_assoc pre h). apply zdrop_app_l. rewrite zlen_app. lia.
Qed.

(** The zero byte that ends a document. *)
Lemma end_spec b :
  b_inv b -> b_cur b + 1 <= LIM ->
  exists b1 b2, bson_ensure_space b 1 = Ok (BSON_OK, b1) /\ bson_append_byte b1 0 = Ok b2 /\
    b_inv b2 /\ written b2 = written b ++ [0] /\ b_cur b2 = b_cur b + 1 /\
    b_stack b2 = b_stack b /\ b_stackSize b2 = b_stackSize b.
Proof.
  intros I Hl. destruct (ensure_spec b 1) as (b1 & E1 & I1 & W1 & C1 & D1 & _ & S1 & T1); [done|lia|done|].
  destruct (append_spec b1 [0]) as (b2 & E2 & I2 & W2 & C2 & D2 & _ & S2 & T2);
    [done|rewrite zlen_cons, zlen_nil; lia|].
  rewrite zlen_cons, zlen_nil in C2. exists b1, b2. split; [done|]. split; [exact E2|].
  split; [done|]. split; [congruence|]. split; [lia|]. split; congruence.
Qed.

(** Ending the subdocument whose size field starts at [zlen pre]. *)
Lemma append_finish_spec b pre h body stk :
  b_inv b -> written b = pre ++ h ++ body -> zlen h = 4 -> b_stack b = zlen pre :: stk ->
  b_cur b + 1 <= LIM ->
  exists b', bson_append_finish_object b = Ok (BSON_OK, b') /\ b_inv b' /\
    written b' = pre ++ le_bytes 4 (zlen body + 5) ++ body ++ [0] /\
    b_stack b' = stk /\ b_stackSize b' = b_stackSize b.
Proof.
  intros I W Hh S Hl. unfold bson_append_finish_object. rewrite S.
  destruct (end_spec b I Hl) as (b1 & b2 & -> & E2 & I2 & W2 & C2 & S2 & T2).
  cbn [mbind res_bind]. rewrite E2. cbn [mbind res_bind].
  assert (b_cur b = zlen pre + 4 + zlen body) as Cb
    by (rewrite <- (written_len b I), W, !zlen_app, Hh; lia).
  pose proof (zlen_nonneg pre). pose proof (zlen_nonneg body).
  destruct (Z.leb_spec INT_MAX (b_cur b2 - zlen pre)); [unfold INT_MAX, LIM in *; lia|].
  replace (b_cur b2 - zlen pre) with (zlen body + 5) by lia.
  destruct (patch_spec b2 pre h (body ++ [0]) (zlen body + 5)) as (d & -> & Wd & Ld);
    [done|by rewrite W2, W, <- !app_assoc|done|].
  cbn [mbind res_bind]. eexists. split; [done|]. split.
  { destruct I2. constructor; cbn [b_cur b_data b_finished b_err b_stackSize]; try done. lia. }
  done.
Qed.

Lemma finish_spec b h body :
  b_inv b -> written b = h ++ body -> zlen h = 4 -> b_stack b = [] -> b_cur b + 1 <= LIM ->
  exists b', bson_finish b = Ok (BSON_OK, b') /\ b_finished b' = true /\
    written b' = le_bytes 4 (zlen body + 5) ++ body ++ [0] /\ b_cur b' = zlen body + 5 /\
    b_cur b' <= zlen (b_data b') /\ Z.land (b_err b') BSON_NOT_UTF8 = 0.
Proof.
  intros I W Hh S Hl. unfold bson_finish. rewrite (bv_utf8 _ I), (bv_open _ I), S. cbn [negb].
  change (0 =? 0) with true. cbn [negb].
  destruct (end_spec b I Hl) as (b1 & b2 & -> & E2 & I2 & W2 & C2 & S2 & T2).
  cbn [mbind res_bind]. rewrite E2. cbn [mbind res_bind].
  assert (b_cur b = 4 + zlen body) as Cb by (rewrite <- (written_len b I), W, zlen_app, Hh; lia).
  destruct (Z.leb_spec INT_MAX (b_cur b2)); [unfold INT_MAX, LIM in *; lia|].
  destruct (patch_spec b2 [] h (body ++ [0]) (b_cur b2)) as (d & Ed & Wd & Ld);
    [done|by rewrite W2, W, <- !app_assoc|done|].
  rewrite zlen_nil in Ed. rewrite Ed.
  cbn [mbind res_bind]. eexists. split; [done|]. split; [done|].
  replace (zlen body + 5) with (b_cur b2) by lia. split; [exact Wd|]. split; [done|].
  cbn [b_cur b_data b_err]. destruct I2. split; [lia|done].
Qed.

(** ** Lemmas on the iterator *)

(** The memory [m] holds [l] from offset [off] on. *)
Definition sfx (m : list Z) (off : Z) (l : list Z) : Prop :=
  0 <= off <= zlen m /\ zdrop off m = l.

Lemma sfx_app m off l k : sfx m off (l ++ k) -> sfx m (off + zlen l) k.
Proof.
  intros [Ho E]. pose proof (zlen_nonneg l). pose proof (zlen_nonneg k).
  assert (zlen m - off = zlen l + zlen k) as L
    by (rewrite <- zlen_app, <- E, zlen_zdrop by lia; lia).
  split; [lia|]. rewrite <- (zdrop_app_l l k (zlen l)) by done. rewrite <- E.
  by rewrite zdrop_zdrop by lia.
Qed.

Lemma sfx_cons m off c k : sfx m off (c :: k) -> sfx m (off + 1) k.
Proof. intros H. by apply (sfx_app m off [c]). Qed.

Lemma sfx_slice m off l k n : sfx m off (l ++ k) -> n = zlen l -> slice m off n = Ok l.
Proof.
  intros H ->. pose proof (sfx_app _ _ _ _ H) as [Hb _]. destruct H as [Ho E].
  pose proof (zlen_nonneg l). rewrite slice_ok by lia. rewrite E. by rewrite ztake_app_l.
Qed.

Lemma sfx_byte m off c k : sfx m off (c :: k) -> rd_byte m off = Ok c.
Proof. intros H. unfold rd_byte. by rewrite (sfx_slice m off [c] k 1 H eq_refl). Qed.

Definition nul_free (s : list Z) : Prop := Forall (fun c => c <> 0) s.

Lemma scan_nul_app s k : nul_free s -> scan_nul (s ++ 0 :: k) = Some s.
Proof.
  induction 1 as [|c s Hc _ IH]; [done|]. cbn. destruct (Z.eqb_spec c 0); [done|]. by rewrite IH.
Qed.

Lemma sfx_string m off s k : sfx m off (s ++ 0 :: k) -> nul_free s -> c_string m off = Ok s.
Proof.
  intros [Ho E] Hs. unfold c_string. case_zbool. rewrite E. by rewrite scan_nul_app.
Qed.

(** A cursor at an element: its type byte, its name and its value. *)
Section element.
Context (m : list Z) (i : bson_iterator) (t : Z) (name val : list Z).
Hypothesis (Hs : sfx m (it_cur i) (t :: name ++ 0 :: val)) (Hn : nul_free name).

Lemma el_type : bson_iterator_type m i = Ok t.
Proof using Hs. by eapply sfx_byte. Qed.

Lemma el_key : bson_iterator_key m i = Ok name.
Proof using Hs Hn. eapply sfx_string; [by eapply sfx_cons|done]. Qed.

Lemma el_value :
  bson_iterator_value m i = Ok (it_cur i + (2 + zlen name)) /\
  sfx m (it_cur i + (2 + zlen name)) val.
Proof using Hs Hn.
  unfold bson_iterator_value. pose proof el_key as K. unfold bson_iterator_key in K. rewrite K.
  cbn [mbind res_bind]. split; [f_equal; lia|].
  apply sfx_cons in Hs as H1. change (0 :: val) with ([0] ++ val) in H1. rewrite app_assoc in H1.
  apply (sfx_app m (it_cur i + 1) (name ++ [0]) val) in H1.
  rewrite zlen_app, zlen_cons, zlen_nil in H1.
  by replace (it_cur i + (2 + zlen name)) with (it_cur i + 1 + (zlen name + (1 + 0))) by lia.
Qed.

Lemma el_raw l k n : val = l ++ k -> n = zlen l ->
  (t ← bson_iterator_value m i; slice m t n) = Ok l.
Proof using Hs Hn.
  intros E ->. destruct el_value as [-> Hv]. cbn [mbind res_bind]. rewrite E in Hv.
  by eapply sfx_slice.
Qed.

Lemma el_int l k : val = l ++ k -> zlen l = 4 ->
  bson_iterator_int_raw m i = Ok (i32 (le_load l)).
Proof using Hs Hn.
  intros E L. unfold bson_iterator_int_raw. destruct el_value as [-> Hv]. cbn [mbind res_bind].
  rewrite E in Hv. by rewrite (sfx_slice _ _ l k) by done.
Qed.

Lemma el_long l k : val = l ++ k -> zlen l = 8 ->
  bson_iterator_long_raw m i = Ok (i64 (le_load l)) /\
  bson_iterator_double_raw m i = Ok (le_load l).
Proof using Hs Hn.
  intros E L. unfold bson_iterator_long_raw, bson_iterator_double_raw.
  destruct el_value as [-> Hv]. cbn [mbind res_bind].
  rewrite E in Hv. by rewrite (sfx_slice _ _ l k) by done.
Qed.

(** The cursor moves behind a value of [ds] bytes. *)
Lemma el_next v c k ds :
  it_first i = false -> t <> 0 -> value_size m i t = Ok (Some ds) ->
  val = v ++ c :: k -> ds = zlen v ->
  exists i', bson_iterator_next m i = Ok (schar c, i') /\ it_first i' = false /\
    sfx m (it_cur i') (c :: k).
Proof using Hs Hn.
  intros Hf Ht Hd E ->. unfold bson_iterator_next. rewrite Hf, el_type. cbn [mbind res_bind].
  destruct (Z.eqb_spec t BSON_EOO); [done|]. rewrite Hd. cbn [mbind res_bind].
  pose proof el_key as K. unfold bson_iterator_key in K. rewrite K. cbn [mbind res_bind it_cur].
  destruct el_value as [_ Hv]. rewrite E in Hv. apply sfx_app in Hv as H'.
  replace (it_cur i + (1 + zlen name + 1 + zlen v)) with (it_cur i + (2 + zlen name) + zlen v) by lia.
  rewrite (sfx_byte _ _ _ _ H'). cbn [mbind res_bind]. eexists. split; [done|]. split; [done|]. exact H'.
Qed.

End element.

End Bson.
