(* ===== verification/Packet.v ===== *)
(** * Packet: the typed messages of eventpack

    Models src/native/eventpack/src/ep_packet.c on top of [Bson]. A packet is its bson builder;
    the append functions drop the library's return code, as the C code does. The reference
    definition of the format is [enc_fields] on trees of fields ([fields], [value]); [build] and
    [walk] are clients that write and read a tree through the packet interface. *)
From S2P Require Import Prelude Alloc Words Bson.
Import Alloc Words Bson.

Module Packet.

(** struct ep_pack *)
Record ep_pack := mk_pack { pk_b : bson }.

Inductive ep_pack_type : Set :=
  | PACKET_BINDATA | PACKET_STRING | PACKET_BOOL | PACKET_INT | PACKET_LONG | PACKET_DOUBLE
  | PACKET_ARRAY | PACKET_OBJECT | PACKET_UNKNOWN.

#[export] Instance ep_pack_type_eq_dec : EqDecision ep_pack_type.
Proof. solve_decision. Defined.

Definition sizeof_ep_pack : Z := 312.

Definition ep_pack_new (al : alloc) : res (option ep_pack * alloc) :=
  let '(ok, al) := ep_calloc al 1 sizeof_ep_pack in
  if negb ok then Ok (None, al) else
  b ← bson_init; Ok (Some (mk_pack b), al).

(** [data] is the memory the pointer reaches; a non-NULL pointer. *)
Definition ep_pack_create (al : alloc) (data : list Z) (len : Z) : res (option ep_pack * alloc) :=
  let '(ok, al) := ep_calloc al 1 sizeof_ep_pack in
  if negb ok then Ok (None, al) else
  c ← rd_byte data 0;
  if negb (c =? 0) && (0 <? len) then
    b ← bson_init_finished_data_with_copy data; Ok (Some (mk_pack b), al)
  else Ok (None, al).

Definition ep_pack_data (pack : ep_pack) : list Z := b_data (pk_b pack).

Definition ep_pack_size (pack : ep_pack) : res Z := bson_size (pk_b pack).

Definition ep_pack_finish (pack : ep_pack) : res ep_pack :=
  '(_, b) ← bson_finish (pk_b pack); Ok (mk_pack b).

(** The pointer after the call and the number of objects freed: the data and the struct. *)
Definition ep_pack_destroy (pack : option ep_pack) : option ep_pack * nat :=
  match pack with None => (None, 0%nat) | Some _ => (None, 2%nat) end.

(** ** Iterators *)

Definition ep_pack_iterator_get (pack : ep_pack) : bson_iterator := bson_iterator_from_buffer 0.

Definition ep_pack_iterator_key := bson_iterator_key.

Definition bson_type_to_ep_pack_type (type : Z) : ep_pack_type :=
  if type =? BSON_BINDATA then PACKET_BINDATA
  else if type =? BSON_STRING then PACKET_STRING
  else if type =? BSON_BOOL then PACKET_BOOL
  else if type =? BSON_INT then PACKET_INT
  else if type =? BSON_LONG then PACKET_LONG
  else if type =? BSON_DOUBLE then PACKET_DOUBLE
  else if type =? BSON_ARRAY then PACKET_ARRAY
  else if type =? BSON_OBJECT then PACKET_OBJECT
  else PACKET_UNKNOWN.

Definition ep_pack_iterator_type (m : list Z) (iter : bson_iterator) : res ep_pack_type :=
  t ← bson_iterator_type m iter; Ok (bson_type_to_ep_pack_type t).

Definition ep_pack_iterator_next (m : list Z) (iter : bson_iterator) : res (bool * bson_iterator) :=
  '(t, iter) ← bson_iterator_next m iter;
  Ok (negb (bool_decide (bson_type_to_ep_pack_type t = PACKET_UNKNOWN)), iter).

(** The offset of the bytes, and their number. *)
Definition ep_pack_iterator_bin_data := bson_iterator_bin_data.
Definition ep_pack_interator_bin_len := bson_iterator_bin_len.
Definition ep_pack_iterator_string := bson_iterator_string.
Definition ep_pack_iterator_bool := bson_iterator_bool.
Definition ep_pack_iterator_int := bson_iterator_int.
Definition ep_pack_iterator_long := bson_iterator_long.
Definition ep_pack_iterator_double := bson_iterator_double.

Definition ep_pack_interator_array (m : list Z) (iter : bson_iterator) : res bson_iterator :=
  t ← bson_iterator_value m iter; Ok (bson_iterator_from_buffer t).

(** ** Appends: the library's return code is dropped *)

Definition drop_code (r : res (Z * bson)) : res ep_pack := '(_, b) ← r; Ok (mk_pack b).

Definition ep_pack_append_binary (p : ep_pack) (name data : list Z) : res ep_pack :=
  drop_code (bson_append_binary (pk_b p) name data).
Definition ep_pack_append_string (p : ep_pack) (name data : list Z) : res ep_pack :=
  drop_code (bson_append_string (pk_b p) name data).
Definition ep_pack_append_bool (p : ep_pack) (name : list Z) (v : Z) : res ep_pack :=
  drop_code (bson_append_bool (pk_b p) name v).
Definition ep_pack_append_int (p : ep_pack) (name : list Z) (v : Z) : res ep_pack :=
  drop_code (bson_append_int (pk_b p) name v).
Definition ep_pack_append_long (p : ep_pack) (name : list Z) (v : Z) : res ep_pack :=
  drop_code (bson_append_long (pk_b p) name v).
Definition ep_pack_append_double (p : ep_pack) (name : list Z) (bits : Z) : res ep_pack :=
  drop_code (bson_append_double (pk_b p) name bits).
Definition ep_pack_append_start_array (p : ep_pack) (name : list Z) : res ep_pack :=
  drop_code (bson_append_start_array (pk_b p) name).
Definition ep_pack_append_finish_array (p : ep_pack) : res ep_pack :=
  drop_code (bson_append_finish_object (pk_b p)).
Definition ep_pack_append_start_object (p : ep_pack) (name : list Z) : res ep_pack :=
  drop_code (bson_append_start_object (pk_b p) name).
Definition ep_pack_append_finish_object (p : ep_pack) : res ep_pack :=
  drop_code (bson_append_finish_object (pk_b p)).

(** ** Trees of fields and their bytes *)

Inductive value : Type :=
  | VBin (l : list Z)
  | VStr (s : list Z)
  | VBool (b : bool)
  | VInt (z : Z)
  | VLong (z : Z)
  | VDouble (bits : Z)
  | VArr (f : fields)
  | VObj (f : fields)
with fields : Type :=
  | FNil
  | FCons (name : list Z) (v : value) (rest : fields).

Scheme value_mut := Induction for value Sort Prop
  with fields_mut := Induction for fields Sort Prop.
Combined Scheme tree_ind from value_mut, fields_mut.

Definition type_code (v : value) : Z :=
  match v with
  | VBin _ => 5 | VStr _ => 2 | VBool _ => 8 | VInt _ => 16 | VLong _ => 18 | VDouble _ => 1
  | VArr _ => 4 | VObj _ => 3
  end.

Definition doc (body : list Z) : list Z := le_bytes 4 (zlen body + 5) ++ body ++ [0].

Fixpoint enc_value (v : value) : list Z :=
  match v with
  | VBin l => le_bytes 4 (zlen l) ++ [0] ++ l
  | VStr s => le_bytes 4 (zlen s + 1) ++ s ++ [0]
  | VBool b => [if b then 1 else 0]
  | VInt z => le_bytes 4 z
  | VLong z => le_bytes 8 z
  | VDouble bits => le_bytes 8 bits
  | VArr f | VObj f => doc (enc_fields f)
  end
with enc_fields (f : fields) : list Z :=
  match f with
  | FNil => []
  | FCons n v r => (type_code v :: n ++ [0]) ++ enc_value v ++ enc_fields r
  end.

(** Names and strings are C strings in UTF-8; numbers fit their types. *)
Definition name_ok (s : list Z) : Prop := nul_free s /\ utf8_ok s = true.

Fixpoint value_ok (v : value) : Prop :=
  match v with
  | VBin l => Forall is_byte l
  | VStr s => name_ok s
  | VBool _ => True
  | VInt z => is_i32 z
  | VLong z => - 2 ^ 63 <= z < 2 ^ 63
  | VDouble bits => 0 <= bits < 2 ^ 64
  | VArr f | VObj f => fields_ok f
  end
with fields_ok (f : fields) : Prop :=
  match f with FNil => True | FCons n v r => name_ok n /\ value_ok v /\ fields_ok r end.

(** ** A writer and a reader of trees *)

Fixpoint build_value (p : ep_pack) (name : list Z) (v : value) : res ep_pack :=
  match v with
  | VBin l => ep_pack_append_binary p name l
  | VStr s => ep_pack_append_string p name s
  | VBool b => ep_pack_append_bool p name (if b then 1 else 0)
  | VInt z => ep_pack_append_int p name z
  | VLong z => ep_pack_append_long p name z
  | VDouble d => ep_pack_append_double p name d
  | VArr f =>
    p ← ep_pack_append_start_array p name; p ← build_fields p f; ep_pack_append_finish_array p
  | VObj f =>
    p ← ep_pack_append_start_object p name; p ← build_fields p f; ep_pack_append_finish_object p
  end
with build_fields (p : ep_pack) (f : fields) : res ep_pack :=
  match f with
  | FNil => Ok p
  | FCons n v r => p ← build_value p n v; build_fields p r
  end.

(** The value of the element at a cursor; [sub] reads a subdocument. *)
Definition read_value (sub : bson_iterator -> res fields) (m : list Z) (iter : bson_iterator)
    (t : ep_pack_type) : res value :=
  match t with
  | PACKET_BINDATA =>
    n ← ep_pack_interator_bin_len m iter; off ← ep_pack_iterator_bin_data m iter;
    l ← slice m off n; Ok (VBin l)
  | PACKET_STRING => s ← ep_pack_iterator_string m iter; Ok (VStr s)
  | PACKET_BOOL => z ← ep_pack_iterator_bool m iter; Ok (VBool (negb (z =? 0)))
  | PACKET_INT => z ← ep_pack_iterator_int m iter; Ok (VInt z)
  | PACKET_LONG => z ← ep_pack_iterator_long m iter; Ok (VLong z)
  | PACKET_DOUBLE => d ← ep_pack_iterator_double m iter; Ok (VDouble d)
  | PACKET_ARRAY => it ← ep_pack_interator_array m iter; f ← sub it; Ok (VArr f)
  | _ => it ← ep_pack_interator_array m iter; f ← sub it; Ok (VObj f)
  end.

(** Reads the elements from a cursor on; one unit of fuel per element and per document. *)
Fixpoint walk (fuel : nat) (m : list Z) (iter : bson_iterator) : res fields :=
  match fuel with
  | O => Fault OutOfFuel
  | S fuel =>
    '(more, iter) ← ep_pack_iterator_next m iter;
    if negb more then Ok FNil else
    key ← ep_pack_iterator_key m iter;
    t ← ep_pack_iterator_type m iter;
    v ← read_value (walk fuel m) m iter t;
    rest ← walk fuel m iter;
    Ok (FCons key v rest)
  end.

Fixpoint vsize (v : value) : nat :=
  match v with VArr f | VObj f => fsize f | _ => 0 end
with fsize (f : fields) : nat :=
  match f with FNil => 1 | FCons _ v r => S (vsize v + fsize r) end.

(** A packet built from a tree and finished. *)
Definition build_pack (al : alloc) (f : fields) : res (option ep_pack) :=
  '(p, _) ← ep_pack_new al;
  match p with
  | None => Ok None
  | Some p => p ← build_fields p f; p ← ep_pack_finish p; Ok (Some p)
  end.

(** A packet read back: its elements from the first on. *)
Definition read_pack (fuel : nat) (p : ep_pack) : res fields :=
  walk fuel (ep_pack_data p) (ep_pack_iterator_get p).

(** ** Lemmas: building *)

Lemma type_code_range v : 0 < type_code v < 128.
Proof. destruct v; cbn; lia. Qed.

Lemma zlen_doc l : zlen (doc l) = zlen l + 5.
Proof. unfold doc. rewrite !zlen_app, zlen_le_bytes, zlen_cons, zlen_nil. lia. Qed.

(** What a writer does to a builder: it appends [l] and leaves the stack as it was. *)
Definition writes (w : ep_pack -> res ep_pack) (l : list Z) : Prop :=
  forall p, b_inv (pk_b p) -> b_cur (pk_b p) + zlen l <= LIM ->
    zlen (b_stack (pk_b p)) <= b_stackSize (pk_b p) ->
    exists p', w p = Ok p' /\ b_inv (pk_b p') /\ written (pk_b p') = written (pk_b p) ++ l /\
      b_stack (pk_b p') = b_stack (pk_b p) /\ b_stackSize (pk_b p) <= b_stackSize (pk_b p').

Lemma drop_code_ok r b' :
  r = Ok (BSON_OK, b') -> drop_code r = Ok (mk_pack b').
Proof. by intros ->. Qed.

Lemma writes_leaf (w : bson -> res (Z * bson)) l :
  (forall b, b_inv b -> b_cur b + zlen l <= LIM ->
     exists b' r, w b = Ok (BSON_OK, b') /\ grows b b' l r) ->
  writes (fun p => drop_code (w (pk_b p))) l.
Proof.
  intros H p I Hl _. destruct (H _ I Hl) as (b' & r & E & [I' W _ S T]).
  exists (mk_pack b'). rewrite (drop_code_ok _ _ E). cbn. split; [done|]. split; [done|].
  split; [done|]. split; [done|]. lia.
Qed.

Lemma writes_sub type name body (w : ep_pack -> res ep_pack) :
  0 < type < 128 -> name_ok name -> writes w body ->
  writes (fun p => p ← drop_code (bson_append_start type (pk_b p) name); p ← w p;
                   drop_code (bson_append_finish_object (pk_b p)))
    ((type :: name ++ [0]) ++ doc body).
Proof.
  intros Ht [_ U] Hw p I Hl Hs.
  rewrite zlen_app, zlen_cons, zlen_app, zlen_cons, zlen_nil, zlen_doc in Hl.
  pose proof (zlen_nonneg body). pose proof (zlen_nonneg name).
  destruct (append_start_spec type (pk_b p) name I U ltac:(lia) Hs) as (b1 & E1 & I1 & W1 & S1 & T1 & G1).
  rewrite (drop_code_ok _ _ E1). cbn [mbind res_bind].
  rewrite wrap_u_small in W1 by lia.
  pose proof (written_len _ I) as C0. pose proof (written_len _ I1) as C1.
  rewrite W1, !zlen_app, zlen_cons, zlen_app, zlen_cons, zlen_nil, zlen_le_bytes, C0 in C1.
  destruct (Hw (mk_pack b1) I1 ltac:(cbn [pk_b]; lia) T1) as (p2 & -> & I2 & W2 & S2 & T2).
  cbn [mbind res_bind pk_b] in *.
  set (pre := written (pk_b p) ++ type :: name ++ [0]).
  assert (zlen pre = b_cur (pk_b p) + 2 + zlen name) as Lp.
  { unfold pre. rewrite zlen_app, zlen_cons, zlen_app, zlen_cons, zlen_nil, C0. lia. }
  assert (written (pk_b p2) = pre ++ le_bytes 4 0 ++ body) as W2'.
  { rewrite W2, W1. unfold pre. rewrite <- !app_assoc. cbn. by rewrite <- !app_assoc. }
  pose proof (written_len _ I2) as C2. rewrite W2, zlen_app, (written_len _ I1) in C2.
  destruct (append_finish_spec (pk_b p2) pre (le_bytes 4 0) body (b_stack (pk_b p)) I2 W2')
    as (b3 & E3 & I3 & W3 & S3 & T3); [done|by rewrite S2, S1, Lp|lia|].
  exists (mk_pack b3). rewrite (drop_code_ok _ _ E3). cbn [pk_b]. split; [done|]. split; [done|].
  split; [|split; [done|]].
  - rewrite W3. unfold pre, doc. rewrite <- !app_assoc. done.
  - lia.
Qed.

Lemma writes_seq w1 w2 l1 l2 :
  writes w1 l1 -> writes w2 l2 -> writes (fun p => p ← w1 p; w2 p) (l1 ++ l2).
Proof.
  intros H1 H2 p I Hl Hs. rewrite zlen_app in Hl. pose proof (zlen_nonneg l2).
  destruct (H1 p I ltac:(lia) Hs) as (p1 & -> & I1 & W1 & S1 & T1). cbn [mbind res_bind].
  pose proof (written_len _ I1) as C1. rewrite W1, zlen_app, (written_len _ I) in C1.
  destruct (H2 p1 I1 ltac:(lia) ltac:(rewrite S1; lia)) as (p2 & -> & I2 & W2 & S2 & T2).
  exists p2. split; [done|]. split; [done|]. rewrite W2, W1, app_assoc.
  split; [done|]. split; [congruence|]. lia.
Qed.

Lemma build_writes :
  (forall v, value_ok v -> forall name, name_ok name ->
     writes (fun p => build_value p name v) ((type_code v :: name ++ [0]) ++ enc_value v)) /\
  (forall f, fields_ok f -> writes (fun p => build_fields p f) (enc_fields f)).
Proof.
  apply tree_ind.
  - intros l _ name [_ U]. refine (writes_leaf (fun b => bson_append_binary b name l) _ _). intros b I Hl.
    apply append_binary_spec; [done..|].
    cbn [enc_value type_code] in Hl. autorewrite with ymlen in Hl.
    rewrite zlen_le_bytes in Hl. lia.
  - intros s' [_ Us] name [_ U]. refine (writes_leaf (fun b => bson_append_string b name s') _ _). intros b I Hl.
    apply append_string_spec; [done..|].
    cbn [enc_value type_code] in Hl. autorewrite with ymlen in Hl.
    rewrite zlen_le_bytes in Hl. lia.
  - intros x _ name [_ U]. refine (writes_leaf (fun b => bson_append_bool b name (if x then 1 else 0)) _ _). intros b I Hl.
    replace (enc_value (VBool x)) with [if (if x then 1 else 0) =? 0 then 0 else 1] by (by destruct x).
    apply append_bool_spec; [done..|].
    cbn [enc_value type_code] in Hl. autorewrite with ymlen in Hl. lia.
  - intros z _ name [_ U]. refine (writes_leaf (fun b => bson_append_int b name z) _ _). intros b I Hl.
    apply append_int_spec; [done..|].
    cbn [enc_value type_code] in Hl. autorewrite with ymlen in Hl.
    rewrite zlen_le_bytes in Hl. lia.
  - intros z _ name [_ U]. refine (writes_leaf (fun b => bson_append_long b name z) _ _). intros b I Hl.
    apply append_long_spec; [done..|].
    cbn [enc_value type_code] in Hl. autorewrite with ymlen in Hl.
    rewrite zlen_le_bytes in Hl. lia.
  - intros z _ name [_ U]. refine (writes_leaf (fun b => bson_append_double b name z) _ _). intros b I Hl.
    apply append_double_spec; [done..|].
    cbn [enc_value type_code] in Hl. autorewrite with ymlen in Hl.
    rewrite zlen_le_bytes in Hl. lia.
  - intros f IH Hf name Hn. apply (writes_sub 4 name (enc_fields f)); [lia|done|by apply IH].
  - intros f IH Hf name Hn. apply (writes_sub 3 name (enc_fields f)); [lia|done|by apply IH].
  - intros _ p I _ _. exists p. cbn. rewrite app_nil_r. split; [done|]. split; [done|]. by split.
  - intros name v IHv r IHr (Hn & Hv & Hr). cbn [enc_fields build_fields].
    rewrite app_assoc. apply writes_seq; [by apply IHv|by apply IHr].
Qed.

Lemma build_pack_spec f :
  fields_ok f -> zlen (enc_fields f) + 5 <= LIM ->
  exists p, build_pack [] f = Ok (Some p) /\ b_finished (pk_b p) = true /\
    ep_pack_size p = Ok (zlen (enc_fields f) + 5) /\
    ztake (zlen (enc_fields f) + 5) (ep_pack_data p) = doc (enc_fields f) /\
    zlen (enc_fields f) + 5 <= zlen (ep_pack_data p).
Proof.
  intros Hf Hl. pose proof (zlen_nonneg (enc_fields f)).
  set (p0 := mk_pack (mk_bson (junk 128) 4 false 0 [] 0)).
  assert (b_inv (pk_b p0)) as I0 by (constructor; cbn; rewrite ?zlen_junk by lia; lia || done).
  destruct (proj2 build_writes f Hf p0 I0) as (p1 & E1 & I1 & W1 & S1 & T1);
    [cbn [p0 pk_b b_cur]; lia|done|].
  pose proof (written_len _ I1) as C1. rewrite W1, zlen_app, (written_len _ I0) in C1.
  cbn [p0 pk_b b_cur] in C1.
  destruct (finish_spec (pk_b p1) (ztake 4 (junk 128)) (enc_fields f) I1) as (b2 & E2 & F2 & W2 & C2 & D2 & _);
    [by rewrite W1|done|by rewrite S1|lia|].
  exists (mk_pack b2). unfold build_pack, ep_pack_new. rewrite ep_calloc_plenty by (unfold sizeof_ep_pack; lia).
  cbn [negb bson_init mbind res_bind]. change (bson_init ≫= _) with (Ok (Some p0, @nil bool)).
  cbn [mbind res_bind]. rewrite E1. cbn [mbind res_bind]. unfold ep_pack_finish. rewrite E2.
  cbn [mbind res_bind]. split; [done|]. split; [done|].
  unfold ep_pack_data. cbn [pk_b]. unfold written in W2. rewrite C2 in W2. rewrite W2.
  split; [|split; [done|lia]].
  unfold ep_pack_size, bson_size, bson_finished_data_size. cbn [pk_b].
  rewrite slice_ok by lia. cbn [mbind res_bind]. rewrite zdrop_0.
  replace (ztake 4 (b_data b2)) with (ztake 4 (ztake (zlen (enc_fields f) + 5) (b_data b2)))
    by (unfold ztake; rewrite take_take; f_equal; lia).
  rewrite W2, ztake_app_l by (by rewrite zlen_le_bytes). rewrite le_load_bytes.
  f_equal. change (256 ^ Z.of_nat 4) with (2 ^ 32). unfold LIM in Hl.
  rewrite Z.mod_small by lia. apply i32_id. unfold is_i32. lia.
Qed.

(** ** Lemmas: reading *)

(** The next step of the cursor reaches [l]. *)
Definition next_at (m : list Z) (iter : bson_iterator) (l : list Z) : Prop :=
  exists c l' iter', l = c :: l' /\ bson_iterator_next m iter = Ok (schar c, iter') /\
    it_first iter' = false /\ sfx m (it_cur iter') l.

Lemma next_at_first m off c l : sfx m (off + 4) (c :: l) -> next_at m (bson_iterator_from_buffer off) (c :: l).
Proof.
  intros H. exists c, l, (mk_it (off + 4) false). unfold bson_iterator_next. cbn [it_first bson_iterator_from_buffer it_cur].
  by rewrite (sfx_byte _ _ _ _ H).
Qed.

Lemma le_load_small n z : 0 <= z < 256 ^ Z.of_nat n -> le_load (le_bytes n z) = z.
Proof. intros. rewrite le_load_bytes. by apply Z.mod_small. Qed.

Lemma load_i32 z : is_i32 z -> i32 (le_load (le_bytes 4 z)) = z.
Proof.
  intros H. rewrite le_load_bytes. change (256 ^ Z.of_nat 4) with (2 ^ 32).
  change (i32 (wrap_u 32 z) = z). rewrite wrap_s_wrap_u by lia. by apply i32_id.
Qed.

Lemma load_i64 z : - 2 ^ 63 <= z < 2 ^ 63 -> i64 (le_load (le_bytes 8 z)) = z.
Proof.
  intros H. rewrite le_load_bytes. change (256 ^ Z.of_nat 8) with (2 ^ 64).
  change (i64 (wrap_u 64 z) = z). rewrite wrap_s_wrap_u by lia. by apply wrap_s_small.
Qed.

Lemma doc_split body k : doc body ++ k = le_bytes 4 (zlen body + 5) ++ body ++ 0 :: k.
Proof. unfold doc. by rewrite <- !app_assoc. Qed.

Definition reads_fields (f : fields) : Prop :=
  fields_ok f -> zlen (enc_fields f) <= LIM -> forall fuel m iter k,
  (fsize f <= fuel)%nat -> next_at m iter (enc_fields f ++ 0 :: k) -> walk fuel m iter = Ok f.

Definition reads_value (v : value) : Prop :=
  value_ok v -> zlen (enc_value v) <= LIM -> forall fuel m iter name k,
  (vsize v <= fuel)%nat -> nul_free name ->
  sfx m (it_cur iter) (type_code v :: name ++ 0 :: enc_value v ++ k) ->
  read_value (walk fuel m) m iter (bson_type_to_ep_pack_type (type_code v)) = Ok v /\
  Bson.value_size m iter (type_code v) = Ok (Some (zlen (enc_value v))).

(** The cursor of a subdocument is at its first element. *)
Lemma sub_at m iter t name f k :
  sfx m (it_cur iter) (t :: name ++ 0 :: doc (enc_fields f) ++ k) -> nul_free name ->
  exists it, ep_pack_interator_array m iter = Ok it /\ next_at m it (enc_fields f ++ 0 :: k).
Proof.
  intros Hs Hn. destruct (el_value m iter t name _ Hs Hn) as [E Hv].
  unfold ep_pack_interator_array. rewrite E. cbn [mbind res_bind]. eexists. split; [done|].
  rewrite doc_split in Hv. apply sfx_app in Hv. rewrite zlen_le_bytes in Hv.
  destruct (enc_fields f ++ 0 :: k) as [|c l] eqn:El; [by destruct (enc_fields f)|].
  by apply next_at_first.
Qed.

Lemma reads_sub f (mk : fields -> value) t :
  reads_fields f -> (mk = VArr /\ t = 4 \/ mk = VObj /\ t = 3) ->
  fields_ok f -> zlen (doc (enc_fields f)) <= LIM -> forall fuel m iter name k,
  (fsize f <= fuel)%nat -> nul_free name ->
  sfx m (it_cur iter) (t :: name ++ 0 :: doc (enc_fields f) ++ k) ->
  read_value (walk fuel m) m iter (bson_type_to_ep_pack_type t) = Ok (mk f) /\
  Bson.value_size m iter t = Ok (Some (zlen (doc (enc_fields f)))).
Proof.
  intros IH Hmk Hf Hl fuel m iter name k Hfu Hn Hs. rewrite zlen_doc in *.
  pose proof (zlen_nonneg (enc_fields f)).
  destruct (sub_at m iter t name f k Hs Hn) as (it & Ei & Hat).
  assert (walk fuel m it = Ok f) as Ew by (eapply IH; [done|lia|done|done]).
  assert (bson_iterator_int_raw m iter = Ok (zlen (enc_fields f) + 5)) as Er.
  { rewrite (el_int m iter t name _ Hs Hn (le_bytes 4 (zlen (enc_fields f) + 5)) (enc_fields f ++ 0 :: k));
      [|apply doc_split|apply zlen_le_bytes].
    rewrite load_i32; [done|]. unfold is_i32, LIM in *. lia. }
  destruct Hmk as [[-> ->]|[-> ->]]; cbn -[ep_pack_interator_array]; rewrite Ei; cbn [mbind res_bind];
    rewrite Ew; cbn [mbind res_bind]; (split; [done|]);
    change (value_size m iter _) with (n ← bson_iterator_int_raw m iter; Ok (Some n));
    rewrite Er; done.
Qed.

Lemma reads_bin l : reads_value (VBin l).
Proof.
  intros _ Hl fuel m iter name k _ Hn Hs. cbn [enc_value type_code] in *.
  rewrite !zlen_app, zlen_le_bytes, zlen_cons, zlen_nil in Hl |- *. pose proof (zlen_nonneg l).
  assert (bson_iterator_int_raw m iter = Ok (zlen l)) as Er.
  { rewrite (el_int m iter 5 name _ Hs Hn (le_bytes 4 (zlen l)) ([0] ++ l ++ k));
      [|by rewrite <- !app_assoc|apply zlen_le_bytes].
    rewrite load_i32; [done|]. unfold is_i32, LIM in *. lia. }
  destruct (el_value m iter 5 name _ Hs Hn) as [E Hv]. rewrite <- !app_assoc in Hv.
  apply sfx_app in Hv. rewrite zlen_le_bytes in Hv. cbn [app] in Hv.
  change (Z.of_nat 4) with 4 in Hv.
  assert (bson_iterator_bin_type m iter = Ok 0) as Eb.
  { unfold bson_iterator_bin_type. rewrite E. cbn [mbind res_bind].
    rewrite (sfx_byte _ _ _ _ Hv). done. }
  split.
  - cbn [read_value bson_type_to_ep_pack_type]. change (bson_type_to_ep_pack_type 5) with PACKET_BINDATA.
    cbn [read_value]. unfold ep_pack_interator_bin_len, bson_iterator_bin_len,
      ep_pack_iterator_bin_data, bson_iterator_bin_data.
    rewrite Eb, Er, E. cbn [mbind res_bind]. change (0 =? 2) with false. cbn [mbind res_bind].
    apply sfx_cons in Hv. rewrite <- Z.add_assoc in Hv. change (4 + 1) with 5 in Hv.
    by rewrite (sfx_slice _ _ l k) by done.
  - change (Bson.value_size m iter 5) with (n ← bson_iterator_int_raw m iter; Ok (Some (5 + n))).
    rewrite Er. cbn [mbind res_bind]. do 2 f_equal; lia.
Qed.

Lemma reads_str s : reads_value (VStr s).
Proof.
  intros [Hz _] Hl fuel m iter name k _ Hn Hs. cbn [enc_value type_code] in *.
  rewrite !zlen_app, zlen_le_bytes, zlen_cons, zlen_nil in Hl |- *. pose proof (zlen_nonneg s).
  assert (bson_iterator_int_raw m iter = Ok (zlen s + 1)) as Er.
  { rewrite (el_int m iter 2 name _ Hs Hn (le_bytes 4 (zlen s + 1)) (s ++ [0] ++ k));
      [|by rewrite <- !app_assoc|apply zlen_le_bytes].
    rewrite load_i32; [done|]. unfold is_i32, LIM in *. lia. }
  destruct (el_value m iter 2 name _ Hs Hn) as [E Hv]. rewrite <- !app_assoc in Hv.
  apply sfx_app in Hv. rewrite zlen_le_bytes in Hv. cbn [app] in Hv.
  change (Z.of_nat 4) with 4 in Hv. split.
  - change (bson_type_to_ep_pack_type 2) with PACKET_STRING.
    cbn [read_value]. unfold ep_pack_iterator_string, bson_iterator_string.
    rewrite (el_type m iter 2 name _ Hs). cbn [mbind res_bind].
    change ((2 =? BSON_STRING) || (2 =? 14)) with true. cbv iota. rewrite E. cbn [mbind res_bind].
    by rewrite (sfx_string _ _ _ _ Hv Hz).
  - change (Bson.value_size m iter 2) with (n ← bson_iterator_int_raw m iter; Ok (Some (4 + n))).
    rewrite Er. cbn [mbind res_bind]. do 2 f_equal; lia.
Qed.

Lemma reads_bool b : reads_value (VBool b).
Proof.
  intros _ _ fuel m iter name k _ Hn Hs. cbn [enc_value type_code] in *. split; [|done].
  change (bson_type_to_ep_pack_type 8) with PACKET_BOOL. cbn [read_value].
  unfold ep_pack_iterator_bool, bson_iterator_bool.
  destruct (el_value m iter 8 name _ Hs Hn) as [E Hv].
  rewrite (el_type m iter 8 name _ Hs). cbn [mbind res_bind]. change (8 =? BSON_BOOL) with true.
  cbv iota. rewrite E. cbn [mbind res_bind]. cbn [app] in Hv.
  rewrite (sfx_byte _ _ _ _ Hv). by destruct b.
Qed.

Lemma reads_int z : reads_value (VInt z).
Proof.
  intros Hz _ fuel m iter name k _ Hn Hs. cbn [enc_value type_code] in *. split; [|done].
  change (bson_type_to_ep_pack_type 16) with PACKET_INT. cbn [read_value].
  unfold ep_pack_iterator_int, bson_iterator_int.
  rewrite (el_type m iter 16 name _ Hs). cbn [mbind res_bind]. change (16 =? BSON_INT) with true.
  cbv iota. rewrite (el_int m iter 16 name _ Hs Hn (le_bytes 4 z) k); [|done|apply zlen_le_bytes].
  by rewrite load_i32.
Qed.

Lemma reads_long z : reads_value (VLong z).
Proof.
  intros Hz _ fuel m iter name k _ Hn Hs. cbn [enc_value type_code] in *. split; [|done].
  change (bson_type_to_ep_pack_type 18) with PACKET_LONG. cbn [read_value].
  unfold ep_pack_iterator_long, bson_iterator_long.
  rewrite (el_type m iter 18 name _ Hs). cbn [mbind res_bind].
  change (18 =? BSON_INT) with false. change (18 =? BSON_LONG) with true. cbv iota.
  destruct (el_long m iter 18 name _ Hs Hn (le_bytes 8 z) k) as [-> _]; [done|apply zlen_le_bytes|].
  by rewrite load_i64.
Qed.

Lemma reads_double d : reads_value (VDouble d).
Proof.
  intros Hd _ fuel m iter name k _ Hn Hs. cbn [enc_value type_code] in *. split; [|done].
  change (bson_type_to_ep_pack_type 1) with PACKET_DOUBLE. cbn [read_value].
  unfold ep_pack_iterator_double, bson_iterator_double.
  rewrite (el_type m iter 1 name _ Hs). cbn [mbind res_bind].
  change (1 =? BSON_INT) with false. change (1 =? BSON_LONG) with false.
  change (1 =? BSON_DOUBLE) with true. cbv iota.
  destruct (el_long m iter 1 name _ Hs Hn (le_bytes 8 d) k) as [_ ->]; [done|apply zlen_le_bytes|].
  cbn [mbind res_bind]. by rewrite le_load_small.
Qed.

Lemma reads_nil : reads_fields FNil.
Proof.
  intros _ _ fuel m iter k Hfu (c & l & it & El & E & _). destruct fuel; [cbn in Hfu; lia|].
  injection El as <- <-. cbn [walk]. unfold ep_pack_iterator_next. rewrite E. done.
Qed.

Lemma reads_cons name v r : reads_value v -> reads_fields r -> reads_fields (FCons name v r).
Proof.
  intros Hv Hr ([Hn _] & Hvo & Hro) Hl fuel m iter k Hfu (c & l & it & El & E & Hf & Hs).
  destruct fuel as [|fuel]; [cbn in Hfu; lia|]. cbn [fsize] in Hfu.
  cbn [enc_fields] in *. rewrite <- !app_assoc in El, Hs. cbn [app] in El, Hs. rewrite <- !app_assoc in El, Hs.
  injection El as <- <-. cbn [app] in Hs.
  rewrite !zlen_app, zlen_cons in Hl. pose proof (zlen_nonneg (name ++ [0])).
  pose proof (zlen_nonneg (enc_value v)). pose proof (zlen_nonneg (enc_fields r)).
  pose proof (type_code_range v) as Rt.
  assert (schar (type_code v) = type_code v) as Es by (unfold schar; case_zbool; done).
  destruct (Hv Hvo ltac:(lia) fuel m it name (enc_fields r ++ 0 :: k) ltac:(lia) Hn Hs) as [Ev Ez].
  destruct (enc_fields r ++ 0 :: k) as [|c' k'] eqn:Er; [by destruct (enc_fields r)|].
  destruct (el_next m it _ name _ Hs Hn (enc_value v) c' k' (zlen (enc_value v)))
    as (it' & En & Hf' & Hs'); [done|lia|done|done|done|].
  cbn [walk]. unfold ep_pack_iterator_next at 1. rewrite E, Es. cbn [mbind res_bind].
  rewrite bool_decide_false by (by destruct v). cbn [negb].
  unfold ep_pack_iterator_key. rewrite (el_key m it _ name _ Hs Hn). cbn [mbind res_bind].
  unfold ep_pack_iterator_type. rewrite (el_type m it _ name _ Hs). cbn [mbind res_bind].
  rewrite Ev. cbn [mbind res_bind].
  rewrite (Hr Hro ltac:(lia) fuel m it k ltac:(lia)); [done|]. rewrite Er. by exists c', k', it'.
Qed.

Lemma reads_all : (forall v, reads_value v) /\ (forall f, reads_fields f).
Proof.
  apply tree_ind; auto using reads_bin, reads_str, reads_bool, reads_int, reads_long, reads_double,
    reads_nil, reads_cons.
  - intros f IH Hf Hl fuel m iter name k Hfu Hn Hs. by eapply (reads_sub f VArr 4); eauto.
  - intros f IH Hf Hl fuel m iter name k Hfu Hn Hs. by eapply (reads_sub f VObj 3); eauto.
Qed.

(** The cursor of a document at the start of the memory. *)
Lemma doc_at f m k : m = doc (enc_fields f) ++ k -> next_at m (bson_iterator_from_buffer 0) (enc_fields f ++ 0 :: k).
Proof.
  intros ->. assert (sfx (doc (enc_fields f) ++ k) 0 (doc (enc_fields f) ++ k)) as Hs.
  { split; [|done]. pose proof (zlen_nonneg (doc (enc_fields f) ++ k)). lia. }
  rewrite doc_split in Hs. apply sfx_app in Hs. rewrite zlen_le_bytes in Hs.
  rewrite <- doc_split in Hs. destruct (enc_fields f ++ 0 :: k) as [|c l] eqn:El; [by destruct (enc_fields f)|].
  apply next_at_first. exact Hs.
Qed.

(** Reading a packet whose data starts with the bytes of a tree. *)
Lemma read_doc f m fuel k :
  fields_ok f -> zlen (enc_fields f) <= LIM -> (fsize f <= fuel)%nat -> m = doc (enc_fields f) ++ k ->
  walk fuel m (bson_iterator_from_buffer 0) = Ok f.
Proof. intros Hf Hl Hfu Hm. apply (proj2 reads_all f Hf Hl fuel _ _ k Hfu). by apply doc_at. Qed.

Lemma scan_fails fuel : forall s dot err r err',
  (length s <= fuel)%nat -> validate_scan fuel s dot err = (r, err') -> r <> BSON_OK ->
  r = BSON_ERROR /\ Z.testbit err' 1 = true.
Proof.
  induction fuel as [|fuel IH]; intros s dot err r err' Hl E Hr; cbn in E.
  - destruct s; [|cbn in Hl; lia]. by injection E as <- <-.
  - destruct s as [|c s]; [by injection E as <- <-|].
    set (e := if dot && (c =? 46) then _ else _) in E.
    assert (Z.testbit (Z.lor e BSON_NOT_UTF8) 1 = true) as B
      by (rewrite Z.lor_spec; apply orb_true_r).
    destruct (zlen (c :: s) <? trailingBytesForUTF8 c + 1); [by injection E as <- <-|].
    destruct (negb _); [by injection E as <- <-|].
    eapply IH; [|exact E|done]. unfold zdrop. rewrite length_drop. cbn [length] in *.
    assert (0 <= trailingBytesForUTF8 c) by (unfold trailingBytesForUTF8; case_zbool; lia). lia.
Qed.

Lemma check_string_fails s err :
  utf8_ok s = false -> exists err', bson_check_string s err = (BSON_ERROR, err') /\ Z.testbit err' 1 = true.
Proof.
  unfold utf8_ok, bson_check_string, bson_validate_string. cbn [andb]. intros H. apply Z.eqb_neq in H.
  destruct (validate_scan (length s) s false err) as [r err'] eqn:E.
  assert (r <> BSON_OK) as Hr.
  { intros ->. apply H. rewrite (scan_code _ _ _ _ false err), E. done. }
  destruct (scan_fails _ _ _ _ _ _ (le_n _) E Hr) as [-> B]. by exists err'.
Qed.

Lemma doc_head body k : rd_byte (doc body ++ k) 0 = Ok ((zlen body + 5) mod 256).
Proof.
  rewrite doc_split. eapply sfx_byte. split; [|reflexivity].
  pose proof (zlen_nonneg (le_bytes 4 (zlen body + 5) ++ body ++ 0 :: k)). lia.
Qed.

Lemma doc_size body k :
  zlen body + 5 <= LIM -> bson_finished_data_size (doc body ++ k) = Ok (zlen body + 5).
Proof.
  intros Hl. pose proof (zlen_nonneg body). pose proof (zlen_nonneg k).
  unfold bson_finished_data_size. rewrite slice_ok by (rewrite ?zlen_app, ?zlen_doc; lia).
  cbn [mbind res_bind]. rewrite zdrop_0, doc_split, ztake_app_l by (by rewrite zlen_le_bytes).
  rewrite load_i32; [done|]. unfold is_i32, LIM in *. lia.
Qed.

(** The copy of a document with a positive size. *)
Lemma create_doc f k :
  zlen (enc_fields f) + 5 <= LIM -> (zlen (enc_fields f) + 5) mod 256 <> 0 ->
  exists q, ep_pack_create [] (doc (enc_fields f) ++ k) (zlen (enc_fields f) + 5) = Ok (Some q, []) /\
    ep_pack_data q = doc (enc_fields f).
Proof.
  intros Hl Hm. pose proof (zlen_nonneg (enc_fields f)). pose proof (zlen_nonneg k).
  unfold ep_pack_create. rewrite ep_calloc_plenty by (unfold sizeof_ep_pack; lia). cbn [negb].
  rewrite doc_head. cbn [mbind res_bind]. case_zbool.
  unfold bson_init_finished_data_with_copy. rewrite doc_size by done. cbn [mbind res_bind].
  unfold bson_init_size. case_zbool. cbn [mbind res_bind].
  pose proof (zlen_doc (enc_fields f)) as Ld.
  rewrite slice_ok by (rewrite ?zlen_app; lia). cbn [mbind res_bind b_data]. rewrite zdrop_0.
  rewrite ztake_app_l by done.
  rewrite memcpy_ok by (rewrite ?zlen_junk by lia; lia). cbn [mbind res_bind].
  rewrite ztake_all by lia. eexists. split; [done|]. unfold ep_pack_data. cbn [pk_b b_data].
  unfold splice. rewrite ztake_0 by lia. cbn [app].
  rewrite zdrop_all by (rewrite zlen_junk by lia; lia). by rewrite app_nil_r.
Qed.

(** ** Properties *)

(** C25: Every tree of fields survives the trip: building it with the append functions and
    finishing the packet, sending the packet's bytes, creating a packet from them on the other
    side and iterating over it gives the same names, types and values, nested to any depth.
    The size of the document must not be a multiple of 256 (see the next property). *)
Theorem pack_roundtrip (f : fields) (k : list Z) :
  fields_ok f -> zlen (enc_fields f) + 5 <= LIM -> (zlen (enc_fields f) + 5) mod 256 <> 0 ->
  exists p q n, build_pack [] f = Ok (Some p) /\ ep_pack_size p = Ok n /\
    ep_pack_create [] (ztake n (ep_pack_data p) ++ k) n = Ok (Some q, []) /\
    read_pack (fsize f) p = Ok f /\ read_pack (fsize f) q = Ok f.
Proof.
  intros Hf Hl Hm. destruct (build_pack_spec f Hf Hl) as (p & Ep & _ & Es & Ed & Ez).
  destruct (create_doc f k Hl Hm) as (q & Eq & Dq).
  exists p, q, (zlen (enc_fields f) + 5). split; [done|]. split; [done|]. rewrite Ed.
  split; [done|]. unfold read_pack, ep_pack_iterator_get. split.
  - eapply read_doc; [done|lia|done|]. rewrite <- Ed. symmetry. apply ztake_zdrop.
  - rewrite Dq. eapply read_doc; [done|lia|done|]. symmetry. apply app_nil_r.
Qed.

Definition demo_tree : fields :=
  FCons [117; 105; 100] (VStr [106; 111; 101])
    (FCons [100; 105; 115; 104] (VArr (FCons [105; 100] (VInt (-7)) (FCons [111; 107] (VBool true) FNil)))
       (FCons [107] (VBin [0; 255]) FNil)).

Lemma demo_tree_ok : fields_ok demo_tree.
Proof.
  cbn. unfold name_ok, nul_free, is_i32, is_byte.
  repeat match goal with
  | |- _ /\ _ => split
  | |- Forall _ _ => forall_lia
  | |- _ = true => reflexivity
  | |- True => done
  | |- _ <= _ => lia
  end.
Qed.

Lemma pack_roundtrip_witness :
  exists p q n, build_pack [] demo_tree = Ok (Some p) /\ ep_pack_size p = Ok n /\
    ep_pack_create [] (ztake n (ep_pack_data p) ++ [1; 2]) n = Ok (Some q, []) /\
    read_pack (fsize demo_tree) p = Ok demo_tree /\ read_pack (fsize demo_tree) q = Ok demo_tree.
Proof.
  refine (pack_roundtrip demo_tree [1; 2] demo_tree_ok _ _).
  - apply Z.leb_le. vm_compute. reflexivity.
  - apply Z.eqb_neq. vm_compute. reflexivity.
Defined.

(** A well-formed packet whose size is a multiple of 256 is refused by the receiver:
    ep_pack_create takes the low byte of the size for an empty document and gives NULL. *)
Theorem pack_create_refuses_256 (f : fields) (k : list Z) :
  fields_ok f -> zlen (enc_fields f) + 5 <= LIM -> (zlen (enc_fields f) + 5) mod 256 = 0 ->
  exists p n, build_pack [] f = Ok (Some p) /\ ep_pack_size p = Ok n /\ 0 < n /\
    ep_pack_create [] (ztake n (ep_pack_data p) ++ k) n = Ok (None, []).
Proof.
  intros Hf Hl Hm. destruct (build_pack_spec f Hf Hl) as (p & Ep & _ & Es & Ed & Ez).
  pose proof (zlen_nonneg (enc_fields f)).
  exists p, (zlen (enc_fields f) + 5). split; [done|]. split; [done|]. split; [lia|]. rewrite Ed.
  unfold ep_pack_create. rewrite ep_calloc_plenty by (unfold sizeof_ep_pack; lia). cbn [negb].
  rewrite doc_head. cbn [mbind res_bind]. by rewrite Hm.
Qed.

Lemma pack_create_refuses_256_witness :
  exists p n, build_pack [] (FCons [97] (VBin (replicate 243 1)) FNil) = Ok (Some p) /\
    ep_pack_size p = Ok n /\ 0 < n /\
    ep_pack_create [] (ztake n (ep_pack_data p) ++ []) n = Ok (None, []).
Proof.
  apply (pack_create_refuses_256 (FCons [97] (VBin (replicate 243 1)) FNil) []).
  - repeat split; [forall_lia|]. apply Forall_replicate. unfold is_byte. lia.
  - apply Z.leb_le. vm_compute. reflexivity.
  - vm_compute. reflexivity.
Defined.

(** The size of a received document is taken from its own first bytes and never compared
    with the number of bytes received: a body that declares more than it holds is copied from
    beyond its end, and one that declares a negative size makes the process exit. *)
Theorem pack_create_trusts_size (data : list Z) (len n : Z) :
  4 <= zlen data -> bson_finished_data_size data = Ok n -> rd_byte data 0 <> Ok 0 -> 0 < len ->
  (zlen data < n -> ep_pack_create [] data len = Fault OutOfBounds) /\
  (n < 0 -> ep_pack_create [] data len = Fault ProcessExit).
Proof.
  intros Hd En Hc Hl. unfold ep_pack_create.
  rewrite ep_calloc_plenty by (unfold sizeof_ep_pack; lia). cbn [negb].
  unfold rd_byte in *. rewrite slice_ok in * by lia. cbn [mbind res_bind] in *.
  destruct (Z.eqb_spec (hd 0 (ztake 1 (zdrop 0 data))) 0) as [E0|_]; [by rewrite E0 in Hc|].
  destruct (Z.ltb_spec 0 len); [|lia]. cbn [negb andb].
  unfold bson_init_finished_data_with_copy. rewrite En. cbn [mbind res_bind]. unfold bson_init_size.
  split; intros Hn.
  - destruct (Z.ltb_spec n 0); [lia|]. cbn [mbind res_bind]. unfold slice.
    replace (0 + n <=? zlen data) with false by (symmetry; lia). by rewrite andb_false_r.
  - destruct (Z.ltb_spec n 0); [done|lia].
Qed.

Lemma pack_create_trusts_size_witness :
  ep_pack_create [] [100; 0; 0; 0; 0] 5 = Fault OutOfBounds.
Proof. apply (pack_create_trusts_size [100; 0; 0; 0; 0] 5 100); vm_compute; done. Defined.

(** A string that is not UTF-8 spoils the whole packet without an error: the field is not
    written, and ep_pack_finish then neither ends the document nor writes its size, so the
    bytes that ep_pack_size reads are whatever the allocation held. *)
Theorem pack_non_utf8 (p : ep_pack) (name s : list Z) :
  zlen s < INT_MAX -> utf8_ok s = false ->
  exists p1, ep_pack_append_string p name s = Ok p1 /\ ep_pack_data p1 = ep_pack_data p /\
    b_finished (pk_b p1) = b_finished (pk_b p) /\ ep_pack_finish p1 = Ok p1.
Proof.
  intros Hl Hu. destruct (check_string_fails s (b_err (pk_b p)) Hu) as (err & E & B).
  exists (mk_pack (set_err (pk_b p) err)). split; [|split; [done|split; [done|]]].
  - unfold ep_pack_append_string, bson_append_string.
    destruct (Z.ltb_spec INT_MAX (zlen s + 1)); [lia|]. by rewrite E.
  - unfold ep_pack_finish, bson_finish. cbn [pk_b set_err b_err].
    destruct (Z.eqb_spec (Z.land err BSON_NOT_UTF8) 0) as [H0|_]; [|done].
    apply (f_equal (fun z => Z.testbit z 1)) in H0. rewrite Z.land_spec, B in H0. done.
Qed.

(** 0xB2CB is a character of the encoding GBK. *)
Lemma pack_non_utf8_witness :
  exists p1, ep_pack_append_string (mk_pack (mk_bson (junk 128) 4 false 0 [] 0)) [110] [178; 203] = Ok p1 /\
    ep_pack_data p1 = junk 128 /\ b_finished (pk_b p1) = false /\ ep_pack_finish p1 = Ok p1.
Proof.
  apply (pack_non_utf8 (mk_pack (mk_bson (junk 128) 4 false 0 [] 0)) [110] [178; 203]); vm_compute; done.
Defined.

End Packet.
