(* ===== verification/PackLoop.v ===== *)
(** * PackLoop: the loop that every request handler runs over a packet

    The handlers read a request by [while (ep_pack_iterator_next(&iter)) { ... }], comparing the
    key of each element and taking its value. [pack_for] is that loop, with a body that goes on
    with a new state or leaves the loop; [pack_for_fields] says what it does to the packet of a
    tree of fields: the body meets the fields one by one, in order. *)
From S2P Require Import Prelude Alloc Words Bson Packet.
Import Alloc Words Bson Packet.

Module PackLoop.

(** What a turn of the loop does: go on with a state, or leave with an answer. *)
Inductive turn (S R : Type) : Type :=
  | Next (s : S)
  | Leave (r : R).
Arguments Next {S R} _.
Arguments Leave {S R} _.

Section loop.
Context {S R : Type}.

Fixpoint pack_for (fuel : nat) (m : list Z) (iter : bson_iterator)
    (body : bson_iterator -> S -> res (turn S R)) (s : S) : res (turn S R) :=
  match fuel with
  | O => Fault OutOfFuel
  | Datatypes.S fuel =>
    '(more, iter) ← ep_pack_iterator_next m iter;
    if negb more then Ok (Next s) else
    t ← body iter s;
    match t with
    | Next s => pack_for fuel m iter body s
    | Leave r => Ok (Leave r)
    end
  end.

(** The loop over a packet. Every element takes a byte of the data at least, so the fuel is
    enough for every finished packet. *)
Definition pack_foreach (p : ep_pack) (body : list Z -> bson_iterator -> S -> res (turn S R)) (s : S)
  : res (turn S R) :=
  let m := ep_pack_data p in
  pack_for (Datatypes.S (length m)) m (ep_pack_iterator_get p) (body m) s.

(** The same loop over the fields of a tree. *)
Fixpoint fold_fields (abs : list Z -> value -> S -> turn S R) (f : fields) (s : S) : turn S R :=
  match f with
  | FNil => Next s
  | FCons n v f => match abs n v s with Next s => fold_fields abs f s | Leave r => Leave r end
  end.

End loop.

(** The cursor is at a field. *)
Definition at_field (m : list Z) (iter : bson_iterator) (name : list Z) (v : value) : Prop :=
  nul_free name /\ value_ok v /\ zlen (enc_value v) <= LIM /\
  exists k, sfx m (it_cur iter) (type_code v :: name ++ 0 :: enc_value v ++ k).

Lemma field_key m iter name v : at_field m iter name v -> ep_pack_iterator_key m iter = Ok name.
Proof. intros (Hn & _ & _ & k & Hs). by eapply el_key. Qed.

Lemma field_type m iter name v :
  at_field m iter name v -> ep_pack_iterator_type m iter = Ok (bson_type_to_ep_pack_type (type_code v)).
Proof. intros (Hn & _ & _ & k & Hs). unfold ep_pack_iterator_type. by rewrite (el_type m iter _ name _ Hs). Qed.

Lemma field_read m iter name v :
  at_field m iter name v ->
  read_value (walk (vsize v) m) m iter (bson_type_to_ep_pack_type (type_code v)) = Ok v.
Proof.
  intros (Hn & Hv & Hl & k & Hs).
  destruct (proj1 reads_all v Hv Hl (vsize v) m iter name k (le_n _) Hn Hs) as [E _]. exact E.
Qed.

Lemma field_int m iter name z : at_field m iter name (VInt z) -> ep_pack_iterator_int m iter = Ok z.
Proof.
  intros H%field_read. cbn [type_code] in H. change (bson_type_to_ep_pack_type 16) with PACKET_INT in H.
  cbn [read_value] in H. destruct (ep_pack_iterator_int m iter); cbn in H; by simplify_eq.
Qed.

Lemma field_str m iter name s : at_field m iter name (VStr s) -> ep_pack_iterator_string m iter = Ok s.
Proof.
  intros H%field_read. cbn [type_code] in H. change (bson_type_to_ep_pack_type 2) with PACKET_STRING in H.
  cbn [read_value] in H. destruct (ep_pack_iterator_string m iter); cbn in H; by simplify_eq.
Qed.

Lemma field_double m iter name b : at_field m iter name (VDouble b) -> ep_pack_iterator_double m iter = Ok b.
Proof.
  intros H%field_read. cbn [type_code] in H. change (bson_type_to_ep_pack_type 1) with PACKET_DOUBLE in H.
  cbn [read_value] in H. destruct (ep_pack_iterator_double m iter); cbn in H; by simplify_eq.
Qed.

Lemma slice_len {A} (l : list A) off n x : slice l off n = Ok x -> zlen x = n.
Proof.
  unfold slice. destruct ((0 <=? off) && (0 <=? n) && (off + n <=? zlen l)) eqn:E; [|done].
  intros [= <-]. split_bool. rewrite zlen_ztake, zlen_zdrop by lia. lia.
Qed.

Lemma field_bin m iter name l :
  at_field m iter name (VBin l) ->
  exists off, ep_pack_interator_bin_len m iter = Ok (zlen l) /\ ep_pack_iterator_bin_data m iter = Ok off /\
    slice m off (zlen l) = Ok l.
Proof.
  intros H%field_read. cbn [type_code] in H. change (bson_type_to_ep_pack_type 5) with PACKET_BINDATA in H.
  cbn [read_value] in H. destruct (ep_pack_interator_bin_len m iter) as [n|]; [|done]. cbn [mbind res_bind] in H.
  destruct (ep_pack_iterator_bin_data m iter) as [off|]; [|done]. cbn [mbind res_bind] in H.
  destruct (slice m off n) as [x|] eqn:E; [|done]. cbn in H. simplify_eq.
  exists off. pose proof (slice_len _ _ _ _ E) as <-. done.
Qed.

(** The cursor reaches the fields one by one, and the end after them. *)
Lemma next_field m iter name v f k :
  next_at m iter (enc_fields (FCons name v f) ++ 0 :: k) -> nul_free name -> value_ok v -> zlen (enc_value v) <= LIM ->
  exists it, ep_pack_iterator_next m iter = Ok (true, it) /\ at_field m it name v /\ next_at m it (enc_fields f ++ 0 :: k).
Proof.
  intros (c & l & it & El & E & Hf & Hs) Hn Hv Hl. cbn [enc_fields] in *. rewrite <- !app_assoc in El, Hs. cbn [app] in El, Hs.
  rewrite <- !app_assoc in El, Hs. injection El as <- <-. cbn [app] in Hs. exists it.
  assert (schar (type_code v) = type_code v) as Es by (pose proof (type_code_range v); unfold schar; case_zbool; done).
  split; [|split].
  - unfold ep_pack_iterator_next. rewrite E, Es. cbn [mbind res_bind]. by destruct v.
  - repeat split; try done. by eexists.
  - destruct (proj1 reads_all v Hv Hl (vsize v) m it name _ (le_n _) Hn Hs) as [_ Ez].
    destruct (enc_fields f ++ 0 :: k) as [|c' k'] eqn:Er; [by destruct (enc_fields f)|].
    destruct (el_next m it _ name _ Hs Hn (enc_value v) c' k' (zlen (enc_value v)))
      as (it' & En & Hf2 & Hs'); [done|by destruct v|done|done|done|]. by exists c', k', it'.
Qed.

Lemma next_end m iter k : next_at m iter (enc_fields FNil ++ 0 :: k) -> exists it, ep_pack_iterator_next m iter = Ok (false, it).
Proof.
  intros (c & l & it & El & E & _). injection El as <- <-. exists it. unfold ep_pack_iterator_next. by rewrite E.
Qed.

(** The cursor of a packet whose data starts with a document. *)
Lemma first_at p f k : ep_pack_data p = doc (enc_fields f) ++ k -> next_at (ep_pack_data p) (ep_pack_iterator_get p) (enc_fields f ++ 0 :: k).
Proof.
  intros Hd. unfold ep_pack_iterator_get. rewrite Hd. assert (sfx (doc (enc_fields f) ++ k) 0 (doc (enc_fields f) ++ k)) as Hs.
  { split; [|done]. pose proof (zlen_nonneg (doc (enc_fields f) ++ k)). lia. }
  rewrite doc_split in Hs. apply sfx_app in Hs. rewrite zlen_le_bytes in Hs.
  rewrite <- doc_split in Hs. destruct (enc_fields f ++ 0 :: k) as [|c l] eqn:El; [by destruct (enc_fields f)|].
  apply next_at_first. exact Hs.
Qed.

(** The cursor of an array or of an object. *)
Lemma field_sub m iter name f v :
  at_field m iter name v -> v = VArr f \/ v = VObj f ->
  exists it k, ep_pack_interator_array m iter = Ok it /\ next_at m it (enc_fields f ++ 0 :: k).
Proof.
  intros (Hn & _ & _ & k & Hs) Hv. assert (enc_value v = doc (enc_fields f)) as E by (by destruct Hv as [-> | ->]).
  rewrite E in Hs. destruct (sub_at m iter _ name f k Hs Hn) as (it & Ei & Hi). by exists it, k.
Qed.

(** Every field of a tree, at its top level, satisfies [P]. *)
Fixpoint all_fields (P : list Z -> value -> Prop) (f : fields) : Prop :=
  match f with FNil => True | FCons n v f => P n v /\ all_fields P f end.

Section spec.
Context {S R : Type} (m : list Z) (body : bson_iterator -> S -> res (turn S R))
  (abs : list Z -> value -> S -> turn S R) (P : list Z -> value -> Prop) (I : S -> Prop)
  (Hbody : forall it name v s, at_field m it name v -> P name v -> I s -> body it s = Ok (abs name v s))
  (HI : forall name v s s', P name v -> I s -> abs name v s = Next s' -> I s').

Fixpoint flen (f : fields) : nat := match f with FNil => 0 | FCons _ _ f => Datatypes.S (flen f) end.

Lemma pack_for_spec f : forall fuel iter k s,
  fields_ok f -> all_fields P f -> I s -> zlen (enc_fields f) <= LIM -> (flen f < fuel)%nat ->
  next_at m iter (enc_fields f ++ 0 :: k) ->
  pack_for fuel m iter body s = Ok (fold_fields abs f s).
Proof using Hbody HI.
  induction f as [|name v f IH]; intros fuel iter k s Hok HP Hi Hl Hfu Hat;
    (destruct fuel as [|fuel]; [lia|]); cbn [flen] in Hfu.
  - destruct (next_end _ _ _ Hat) as (it & E). cbn [pack_for]. by rewrite E.
  - destruct Hok as ([Hn _] & Hv & Hf'). destruct HP as [HP HPf]. pose proof Hl as Hl0. cbn [enc_fields] in Hl. rewrite !zlen_app, zlen_cons in Hl.
    pose proof (zlen_nonneg (name ++ [0])). pose proof (zlen_nonneg (enc_value v)). pose proof (zlen_nonneg (enc_fields f)).
    destruct (next_field _ _ _ _ _ _ Hat Hn Hv ltac:(lia)) as (it & E & Hf & Hat').
    cbn [pack_for fold_fields]. rewrite E. cbn [mbind res_bind negb]. rewrite (Hbody _ _ _ _ Hf HP Hi). cbn [mbind res_bind].
    destruct (abs name v s) as [s'|r] eqn:Ea; [|done].
    eapply (IH fuel it k); [done|done|by eapply HI|lia|lia|done].
Qed.

End spec.

Lemma flen_le f : Z.of_nat (flen f) <= zlen (enc_fields f).
Proof.
  induction f as [|name v f IH]; [done|]. cbn [flen enc_fields]. rewrite !zlen_app, zlen_cons.
  pose proof (zlen_nonneg (name ++ [0])). pose proof (zlen_nonneg (enc_value v)). lia.
Qed.

(** The loop over a packet whose data starts with the document of [f]: [abs] says what the body does
    to a field that satisfies [P] in a state that satisfies [I]. *)
Lemma pack_for_fields {S R} p f k (body : list Z -> bson_iterator -> S -> res (turn S R)) abs P (I : S -> Prop) s :
  ep_pack_data p = doc (enc_fields f) ++ k -> fields_ok f -> all_fields P f -> zlen (enc_fields f) <= LIM -> I s ->
  (forall it name v s, at_field (ep_pack_data p) it name v -> P name v -> I s ->
     body (ep_pack_data p) it s = Ok (abs name v s)) ->
  (forall name v s s', P name v -> I s -> abs name v s = Next s' -> I s') ->
  pack_foreach p body s = Ok (fold_fields abs f s).
Proof.
  intros Hd Hf HP Hl Hi Hb HI. unfold pack_foreach. apply (pack_for_spec _ _ _ P I Hb HI f _ _ k); [done|done|done|done| |].
  - rewrite Hd. pose proof (flen_le f). pose proof (zlen_doc (enc_fields f)). unfold zlen in *. rewrite length_app. lia.
  - by apply first_at.
Qed.

(** A fault in the first turn is a fault of the loop. *)
Lemma pack_first_fault {S R} p n v f k (body : list Z -> bson_iterator -> S -> res (turn S R)) s e :
  ep_pack_data p = doc (enc_fields (FCons n v f)) ++ k -> nul_free n ->
  (forall it, sfx (ep_pack_data p) (it_cur it) (type_code v :: n ++ 0 :: enc_value v ++ enc_fields f ++ 0 :: k) ->
     body (ep_pack_data p) it s = Fault e) ->
  pack_foreach p body s = Fault e.
Proof.
  intros Hd Hn Hb. unfold pack_foreach. cbn [pack_for]. unfold ep_pack_iterator_get.
  assert (sfx (ep_pack_data p) 0 (doc (enc_fields (FCons n v f)) ++ k)) as Hs.
  { split; [|by rewrite Hd]. pose proof (zlen_nonneg (ep_pack_data p)). lia. }
  rewrite doc_split in Hs. apply sfx_app in Hs. rewrite zlen_le_bytes in Hs.
  cbn [enc_fields] in Hs. rewrite <- !app_assoc in Hs. cbn [app] in Hs. rewrite <- !app_assoc in Hs. cbn [app] in Hs.
  destruct (next_at_first _ 0 _ _ Hs) as (c & l & it & El & E & _ & Hit). injection El as <- <-.
  assert (schar (type_code v) = type_code v) as Es by (pose proof (type_code_range v); unfold schar; case_zbool; done).
  unfold ep_pack_iterator_next. rewrite E, Es. cbn [mbind res_bind].
  rewrite bool_decide_false by (by destruct v). cbn [negb].
  rewrite Hb by done. done.
Qed.

(** ** A packet on its way to the other side *)

(** The sender finishes the packet and sends its bytes; the receiver creates a packet from them. *)
Definition transfer (p : ep_pack) : res (option ep_pack) :=
  p ← ep_pack_finish p;
  n ← ep_pack_size p;
  bytes ← slice (ep_pack_data p) 0 n;
  '(q, _) ← ep_pack_create [] bytes n;
  Ok q.

Definition fresh : ep_pack := mk_pack (mk_bson (junk 128) 4 false 0 [] 0).

Lemma pack_new_fresh : ep_pack_new [] = Ok (Some fresh, []).
Proof. reflexivity. Qed.

Definition fits (f : fields) : Prop :=
  fields_ok f /\ zlen (enc_fields f) + 5 <= LIM.

Lemma build_finish f :
  fits f -> exists p1 p2, build_fields fresh f = Ok p1 /\ ep_pack_finish p1 = Ok p2 /\
    ep_pack_size p2 = Ok (zlen (enc_fields f) + 5) /\
    slice (ep_pack_data p2) 0 (zlen (enc_fields f) + 5) = Ok (doc (enc_fields f)).
Proof.
  intros [Hf Hl]. destruct (build_pack_spec f Hf Hl) as (p & E & _ & Es & Ed & Ez).
  unfold build_pack in E. rewrite pack_new_fresh in E. cbn [mbind res_bind] in E.
  destruct (build_fields fresh f) as [p1|]; [|done]. cbn [mbind res_bind] in E.
  destruct (ep_pack_finish p1) as [p2|] eqn:E2; [|done]. cbn in E. simplify_eq.
  exists p1, p. pose proof (zlen_nonneg (enc_fields f)).
  rewrite slice_ok by lia. change (zdrop 0 (ep_pack_data p)) with (ep_pack_data p). by rewrite Ed.
Qed.

Lemma build_transfer f :
  fits f -> (zlen (enc_fields f) + 5) mod 256 <> 0 ->
  exists p q, build_fields fresh f = Ok p /\ transfer p = Ok (Some q) /\ ep_pack_data q = doc (enc_fields f).
Proof.
  intros Hf Hm. destruct (build_finish f Hf) as (p1 & p2 & E1 & E2 & Es & Ed).
  destruct (create_doc f [] (proj2 Hf) Hm) as (q & Eq & Dq). rewrite app_nil_r in Eq.
  exists p1, q. split; [done|]. split; [|done]. unfold transfer. rewrite E2. cbn [mbind res_bind].
  rewrite Es. cbn [mbind res_bind]. rewrite Ed. cbn [mbind res_bind]. by rewrite Eq.
Qed.

End PackLoop.
