(* ===== verification/Io.v ===== *)
(** * Io: connections, framing and the request pipeline

    Models src/native/eventpack/src/ep_io.c. A manager ([ep_io_mgr]) lists its connections by
    address; connections ([ep_io]), bodies ([ep_buffer]) and workers are heap objects, because
    queues and lists hold pointers to them that outlive a free. A [world] is a manager with its
    heaps, the state [cb] of the callbacks and the allocator's script. Every function runs under
    the manager's mutex from its lock to its unlock, so it is one step; the sender thread's
    routine is cut into rounds. The send callback of the configuration and the bytes that can
    be read behind a chunk ([beyond], see [Buffer]) are parameters. *)
From S2P Require Import Prelude Alloc RingBuffer Queue Words Buffer Dispatch ThreadPool Bson Packet.
Import Alloc RingBuffer Queue Words Buffer Dispatch ThreadPool Bson Packet.

Module Io.

Inductive ep_io_refor : Set := ep_io_refor_server | ep_io_refor_client.

Definition crypt_type_encrypt : Z := 1.
Definition compress_type_none : Z := 0.
Definition compress_type_compress : Z := 1.
Definition compress_type_auto : Z := 2.
Definition req_type_get : Z := 0.
Definition req_type_post : Z := 1.

Record ep_io := mk_io {
  io_send : ep_queue nat;        (* addresses of buffers *)
  io_recv : ep_rb;
  io_shell : ep_shell;
  io_b_shell_cached : Z;
  io_aes : ep_aes_key;
  io_fd : Z;
  io_fd_extra : Z;
}.

Record ep_io_task := mk_task { t_fd : Z; t_shell : ep_shell; t_in : option nat }.

Definition sizeof_ep_io : Z := 112.
Definition sizeof_ep_io_task : Z := 48.
Definition sizeof_ep_io_mgr : Z := 176.

Definition shell_zero : ep_shell := mk_shell 0 (mk_proto 0 0 0 0 0 0 0) 0 0 0.

Section io.
Context `{C : Codec} {W : Type} (beyond : list Z).

Record ep_io_mgr := mk_mgr {
  mg_refor : ep_io_refor;
  mg_disp : ep_disp_mgr ep_pack W;
  mg_send_queue : ep_queue nat;  (* addresses of connections *)
  mg_send_abort : Z;
  mg_pool : ep_tp;
  mg_def_capacity : Z;
  mg_max_capacity : Z;
  mg_mini_compress_if : Z;
  mg_io_list : list nat;
}.

Record world := mk_world {
  w_mgr : ep_io_mgr;
  w_ios : heap ep_io;
  w_bufs : heap ep_buffer;
  w_workers : heap (ep_tp_worker ep_io_task unit);
  w_cb : W;
  w_al : alloc;
}.

Definition set_mgr (w : world) x := mk_world x (w_ios w) (w_bufs w) (w_workers w) (w_cb w) (w_al w).
Definition set_ios (w : world) x := mk_world (w_mgr w) x (w_bufs w) (w_workers w) (w_cb w) (w_al w).
Definition set_bufs (w : world) x := mk_world (w_mgr w) (w_ios w) x (w_workers w) (w_cb w) (w_al w).
Definition set_workers (w : world) x := mk_world (w_mgr w) (w_ios w) (w_bufs w) x (w_cb w) (w_al w).
Definition set_cb (w : world) x := mk_world (w_mgr w) (w_ios w) (w_bufs w) (w_workers w) x (w_al w).
Definition set_al (w : world) x := mk_world (w_mgr w) (w_ios w) (w_bufs w) (w_workers w) (w_cb w) x.

Definition mgr_send_queue (m : ep_io_mgr) q :=
  mk_mgr (mg_refor m) (mg_disp m) q (mg_send_abort m) (mg_pool m) (mg_def_capacity m)
    (mg_max_capacity m) (mg_mini_compress_if m) (mg_io_list m).
Definition mgr_pool (m : ep_io_mgr) p :=
  mk_mgr (mg_refor m) (mg_disp m) (mg_send_queue m) (mg_send_abort m) p (mg_def_capacity m)
    (mg_max_capacity m) (mg_mini_compress_if m) (mg_io_list m).
Definition mgr_io_list (m : ep_io_mgr) l :=
  mk_mgr (mg_refor m) (mg_disp m) (mg_send_queue m) (mg_send_abort m) (mg_pool m)
    (mg_def_capacity m) (mg_max_capacity m) (mg_mini_compress_if m) l.
Definition mgr_abort (m : ep_io_mgr) a :=
  mk_mgr (mg_refor m) (mg_disp m) (mg_send_queue m) a (mg_pool m) (mg_def_capacity m)
    (mg_max_capacity m) (mg_mini_compress_if m) (mg_io_list m).

Definition io_set_send (io : ep_io) q :=
  mk_io q (io_recv io) (io_shell io) (io_b_shell_cached io) (io_aes io) (io_fd io) (io_fd_extra io).
Definition io_set_recv (io : ep_io) rb :=
  mk_io (io_send io) rb (io_shell io) (io_b_shell_cached io) (io_aes io) (io_fd io) (io_fd_extra io).
Definition io_set_shell (io : ep_io) s cached :=
  mk_io (io_send io) (io_recv io) s cached (io_aes io) (io_fd io) (io_fd_extra io).
Definition io_set_aes (io : ep_io) k :=
  mk_io (io_send io) (io_recv io) (io_shell io) (io_b_shell_cached io) k (io_fd io) (io_fd_extra io).

(** ** Connections *)

Fixpoint io_find (ios : heap ep_io) (l : list nat) (fd : Z) : res (option nat) :=
  match l with
  | [] => Ok None
  | a :: l =>
    tmp ← h_load ios a;
    if io_fd tmp =? fd then Ok (Some a) else io_find ios l fd
  end.

Definition ep_io_find (w : world) (fd : Z) : res (option nat) :=
  io_find (w_ios w) (mg_io_list (w_mgr w)) fd.

(** [ep_queue_get] with the manager's mutex held: nobody can push meanwhile, so a wait with a
    deadline ends with a timeout and one without never ends. *)
Definition queue_get_locked {V} (q : ep_queue V) (timeout : Z) : res (Z * option V * ep_queue V) :=
  match ep_queue_get_enter q timeout 0 0 with
  | GetRet ret body q => Ok (ret, body, q)
  | GetWait (Some _) => Ok (0, None, q)
  | GetWait None => Fault Blocked
  end.

Definition queue_push {V} (al : alloc) (q : ep_queue V) (v : V) : ep_queue V * alloc :=
  let '(_, q', al) := ep_queue_push al (Some q) v in (default q q', al).

Definition ep_io_get (w : world) (fd timeout : Z) : res (Z * option nat * world) :=
  child ← ep_io_find w fd;
  match child with
  | None => Ok (0, None, w)
  | Some a =>
    io ← h_load (w_ios w) a;
    '(ret, out, q) ← queue_get_locked (io_send io) timeout;
    ios ← h_store (w_ios w) a (io_set_send io q);
    Ok (ret, out, set_ios w ios)
  end.

Definition ep_io_add (w : world) (fd extra : Z) : res (Z * world) :=
  child ← ep_io_find w fd;
  match child with
  | Some _ => Ok (0, w)
  | None =>
    let '(ok, al) := ep_calloc (w_al w) 1 sizeof_ep_io in
    if negb ok then Ok (0, set_al w al) else
    let '(recv, al) := ep_rb_new al (mg_def_capacity (w_mgr w)) (mg_max_capacity (w_mgr w)) in
    match recv with
    | None => Ok (0, set_al w al)
    | Some recv =>
      let '(send, al) := ep_queue_new al in
      match send with
      | None => Ok (0, set_al w al)
      | Some send =>
        let '(a, ios) :=
          h_alloc (w_ios w) (mk_io send recv shell_zero 0 (mk_aes (zeros 16) (zeros 16)) fd extra) in
        let w := set_al (set_ios w ios) al in
        Ok (1, set_mgr w (mgr_io_list (w_mgr w) (mg_io_list (w_mgr w) ++ [a])))
      end
    end
  end.

Definition ep_io_update_aes (w : world) (fd : Z) (aes : ep_aes_key) : res (Z * world) :=
  tmp ← ep_io_find w fd;
  match tmp with
  | None => Ok (0, w)
  | Some a =>
    io ← h_load (w_ios w) a;
    ios ← h_store (w_ios w) a (io_set_aes io aes);
    Ok (1, set_ios w ios)
  end.

(** The key, or [None] for the result 0. *)
Definition ep_io_get_aes (w : world) (fd : Z) : res (option ep_aes_key) :=
  tmp ← ep_io_find w fd;
  match tmp with
  | None => Ok None
  | Some a => io ← h_load (w_ios w) a; Ok (Some (io_aes io))
  end.

Definition ep_io_stop (w : world) (fd : Z) : res world :=
  tmp ← ep_io_find w fd;
  match tmp with
  | None => Ok w
  | Some a =>
    io ← h_load (w_ios w) a;
    let '(_, q) := ep_queue_stop (Some (io_send io)) in
    ios ← h_store (w_ios w) a (io_set_send io (default (io_send io) q));
    Ok (set_ios w ios)
  end.

(** [ep_buffer_free] on each buffer of a drained queue: the struct is read, then freed. *)
Fixpoint free_bufs (bufs : heap ep_buffer) (l : list nat) : res (heap ep_buffer) :=
  match l with
  | [] => Ok bufs
  | b :: l => _ ← h_load bufs b; bufs ← h_free bufs b; free_bufs bufs l
  end.

(** Stops, drains and frees the connection at [a]. *)
Definition io_release (w : world) (a : nat) : res world :=
  io ← h_load (w_ios w) a;
  let '(_, q) := ep_queue_stop (Some (io_send io)) in
  let q := default (io_send io) q in
  '(l, q) ← ep_queue_drain (S (length (q_items q))) q;
  bufs ← free_bufs (w_bufs w) l;
  ios ← h_free (w_ios w) a;
  Ok (set_ios (set_bufs w bufs) ios).

(** The walk stops at the first connection of the descriptor. *)
Fixpoint del_walk (ios : heap ep_io) (fd : Z) (l : list nat) : res (option nat * list nat) :=
  match l with
  | [] => Ok (None, [])
  | a :: l =>
    tmp ← h_load ios a;
    if io_fd tmp =? fd then Ok (Some a, l) else
    '(r, l) ← del_walk ios fd l; Ok (r, a :: l)
  end.

Definition ep_io_del (w : world) (fd : Z) : res (Z * world) :=
  '(found, l) ← del_walk (w_ios w) fd (mg_io_list (w_mgr w));
  match found with
  | None => Ok (0, w)
  | Some a =>
    w ← io_release (set_mgr w (mgr_io_list (w_mgr w) l)) a;
    Ok (1, w)
  end.

(** ** Bodies *)

(** What a buffer function did to the buffer at [a]: overwritten, or freed for the result
    NULL. *)
Definition buf_put (w : world) (a : nat) (b : option ep_buffer) (al : alloc)
  : res (option nat * world) :=
  match b with
  | Some b => bufs ← h_store (w_bufs w) a b; Ok (Some a, set_al (set_bufs w bufs) al)
  | None => bufs ← h_free (w_bufs w) a; Ok (None, set_al (set_bufs w bufs) al)
  end.

Definition buf_new (w : world) (src : list Z) (size : Z) : res (option nat * world) :=
  '(b, al) ← ep_buffer_new (w_al w) src size;
  match b with
  | None => Ok (None, set_al w al)
  | Some b => let '(a, bufs) := h_alloc (w_bufs w) b in Ok (Some a, set_al (set_bufs w bufs) al)
  end.

(** [ep_buffer_free(&p)] on a pointer that may be NULL or dangling. *)
Definition buf_free (w : world) (a : option nat) : res world :=
  match a with
  | None => Ok w
  | Some a => _ ← h_load (w_bufs w) a; bufs ← h_free (w_bufs w) a; Ok (set_bufs w bufs)
  end.

Definition is_client (w : world) : bool :=
  match mg_refor (w_mgr w) with ep_io_refor_client => true | ep_io_refor_server => false end.

Definition set_compress (client : bool) (s : ep_shell) (z : Z) : ep_shell :=
  let p := s_proto s in
  let p' :=
    if client
    then mk_proto (p_category p) (p_type p) (p_c_crypt p) z (p_s_crypt p) (p_s_compress p) (p_serverd p)
    else mk_proto (p_category p) (p_type p) (p_c_crypt p) (p_c_compress p) (p_s_crypt p) z (p_serverd p) in
  mk_shell (s_magic s) p' (s_shell_size s) (s_decrypt_size s) (s_pack_size s).

Definition set_pack_size (s : ep_shell) z :=
  mk_shell (s_magic s) (s_proto s) (s_shell_size s) (s_decrypt_size s) z.
Definition set_decrypt_size (s : ep_shell) z :=
  mk_shell (s_magic s) (s_proto s) (s_shell_size s) z (s_pack_size s).
Definition set_shell_size (s : ep_shell) z :=
  mk_shell (s_magic s) (s_proto s) z (s_decrypt_size s) (s_pack_size s).
Definition set_type (s : ep_shell) z :=
  let p := s_proto s in
  mk_shell (s_magic s)
    (mk_proto (p_category p) z (p_c_crypt p) (p_c_compress p) (p_s_crypt p) (p_s_compress p) (p_serverd p))
    (s_shell_size s) (s_decrypt_size s) (s_pack_size s).

Definition buf_compress (w : world) (a : nat) : res (option nat * world) :=
  b ← h_load (w_bufs w) a;
  '(b, al) ← ep_buffer_compress (w_al w) b;
  buf_put w a b al.

(** The compression of an outgoing body: by request, or by size when left to the program. *)
Definition combine_compress (w : world) (s : ep_shell) (a : nat)
  : res (option nat * ep_shell * world) :=
  let client := is_client w in
  let compress := if client then p_c_compress (s_proto s) else p_s_compress (s_proto s) in
  if compress =? compress_type_compress then
    '(a, w) ← buf_compress w a; Ok (a, s, w)
  else if compress =? compress_type_auto then
    b ← h_load (w_bufs w) a;
    if mg_mini_compress_if (w_mgr w) <? ep_buffer_size b then
      '(a, w) ← buf_compress w a;
      Ok (a, set_compress client s compress_type_compress, w)
    else Ok (Some a, set_compress client s compress_type_none, w)
  else Ok (Some a, s, w).

(** The encryption of an outgoing body; [None] also when the connection has no key. *)
Definition combine_crypt (w : world) (fd : Z) (crypt : Z) (a : nat) : res (option nat * world) :=
  if crypt =? crypt_type_encrypt then
    k ← ep_io_get_aes w fd;
    match k with
    | None => Ok (None, w)
    | Some aes =>
      b ← h_load (w_bufs w) a;
      '(b, _, al) ← ep_buffer_encrypt (w_al w) beyond b aes;
      buf_put w a b al
    end
  else Ok (Some a, w).

(** The header and [size] bytes of [src] in a new buffer; the header is left converted. *)
Definition combine_out (w : world) (s : ep_shell) (src : list Z) (size : Z)
  : res (option nat * ep_shell * world) :=
  let '(ok, al) := ep_malloc (w_al w) (sizeof_ep_shell + size + 1) in
  let w := set_al w al in
  if negb ok then Ok (None, s, w) else
  let s := shell_hton (set_shell_size s size) in
  out ← memcpy (junk (sizeof_ep_shell + size + 1)) 0 (shell_mem s) sizeof_ep_shell;
  out ← memcpy out sizeof_ep_shell src size;
  '(o, w) ← buf_new w out (sizeof_ep_shell + size);
  Ok (o, s, w).

Definition ep_io_combine_shell (w : world) (fd : Z) (s : ep_shell) (in_ : option nat)
  : res (option nat * ep_shell * world) :=
  match in_ with
  | None => combine_out w (set_pack_size s 0) [] 0
  | Some a =>
    b ← h_load (w_bufs w) a;
    let s := set_pack_size s (ep_buffer_size b) in
    let crypt := if is_client w then p_c_crypt (s_proto s) else p_s_crypt (s_proto s) in
    '(r, s, w) ← combine_compress w s a;
    match r with
    | None => Ok (None, s, w)
    | Some a =>
      b ← h_load (w_bufs w) a;
      let s := set_decrypt_size s (ep_buffer_size b) in
      '(r, w) ← combine_crypt w fd crypt a;
      match r with
      | None => Ok (None, s, w)
      | Some a =>
        b ← h_load (w_bufs w) a;
        combine_out w s (ep_buffer_ptr b) (ep_buffer_size b)
      end
    end
  end.

(** A NULL body is passed on to the buffer functions, which read through it. *)
Definition ep_io_recombine_original (w : world) (fd : Z) (s : ep_shell) (in_ : option nat)
  : res (option nat * world) :=
  let compress := if is_client w then p_s_compress (s_proto s) else p_c_compress (s_proto s) in
  let crypt := if is_client w then p_s_crypt (s_proto s) else p_c_crypt (s_proto s) in
  '(stop, in_, w) ←
    (if crypt =? crypt_type_encrypt then
       k ← ep_io_get_aes w fd;
       match k with
       | None => Ok (true, None, w)
       | Some aes =>
         match in_ with
         | None => Fault NullDeref
         | Some a =>
           b ← h_load (w_bufs w) a;
           '(b, _, al) ← ep_buffer_decrypt (w_al w) beyond b aes (s_decrypt_size s);
           '(r, w) ← buf_put w a b al;
           Ok (bool_decide (r = None), r, w)
         end
       end
     else Ok (false, in_, w));
  if stop : bool then Ok (None, w) else
  if compress =? compress_type_compress then
    match in_ with
    | None => Fault NullDeref
    | Some a =>
      b ← h_load (w_bufs w) a;
      '(b, al) ← ep_buffer_decompress (w_al w) b (s_pack_size s);
      buf_put w a b al
    end
  else Ok (in_, w).

(** ** Requests *)

Definition ep_io_request_dispatcher (w : world) (fd : Z) (s : ep_shell) (in_ : option nat)
  : world :=
  let '(ok, al) := ep_calloc (w_al w) 1 sizeof_ep_io_task in
  if negb ok then set_al w al else
  let '(_, pool, workers, al) :=
    ep_tp_worker_register al (Some (mg_pool (w_mgr w))) (w_workers w) true false (mk_task fd s in_) in
  let w := set_al (set_workers w workers) al in
  set_mgr w (mgr_pool (w_mgr w) (default (mg_pool (w_mgr w)) pool)).

(** The response of a request goes into the connection's send queue, and the connection into
    the sender's, unless the connection is gone. *)
Definition processor_reply (w : world) (fd : Z) (body : nat) : res world :=
  child ← ep_io_find w fd;
  match child with
  | Some a =>
    io ← h_load (w_ios w) a;
    let '(q, al) := queue_push (w_al w) (io_send io) body in
    ios ← h_store (w_ios w) a (io_set_send io q);
    let '(sq, al) := queue_push al (mg_send_queue (w_mgr w)) a in
    let w := set_al (set_ios w ios) al in
    Ok (set_mgr w (mgr_send_queue (w_mgr w) sq))
  | None => buf_free w (Some body)
  end.

(** The categories whose callback was registered with the manager itself as its opaque pointer:
    their callbacks work on the manager. *)
Context (internal : Z -> option (world -> Z -> option ep_pack -> res (option ep_pack * world))).

Definition processor_dispatch (w : world) (category fd : Z) (pack : option ep_pack) : res (option ep_pack * world) :=
  match internal category with
  | Some cb => cb w fd pack
  | None =>
      let '(ret, _, cb) := ep_disp_processor (w_cb w) (mg_disp (w_mgr w)) category fd pack in Ok (ret, set_cb w cb)
  end.

(** From the request packet to the response: dispatch, and the reply when one is wanted. *)
Definition processor_run (w : world) (fd : Z) (s : ep_shell) (pack : option ep_pack) : res world :=
  '(ret, w) ← processor_dispatch w (p_category (s_proto s)) fd pack;
  ret ← match ret with Some p => p ← ep_pack_finish p; Ok (Some p) | None => Ok None end;
  if p_type (s_proto s) =? req_type_post then Ok w else
  let s := set_type s req_type_post in
  match ret with
  | None => Ok w
  | Some p =>
    size ← ep_pack_size p;
    if size =? 0 then Ok w else
    p ← ep_pack_finish p;
    size ← ep_pack_size p;
    '(in_, w) ← buf_new w (ep_pack_data p) size;
    match in_ with
    | None => Ok w
    | Some a =>
      '(body, _, w) ← ep_io_combine_shell w fd s (Some a);
      w ← buf_free w (Some a);
      match body with
      | None => Ok w
      | Some body => processor_reply w fd body
      end
    end
  end.

Definition ep_io_processor (w : world) (task : ep_io_task) : res world :=
  let s := t_shell task in
  let fd := t_fd task in
  '(stop, in_, w) ←
    (if negb (s_shell_size s =? 0) then
       '(r, w) ← ep_io_recombine_original w fd s (t_in task);
       Ok (bool_decide (r = None), r, w)
     else Ok (false, t_in task, w));
  if stop : bool then Ok w else
  match in_ with
  | None => processor_run w fd s None
  | Some a =>
    b ← h_load (w_bufs w) a;
    '(pack, al) ← ep_pack_create (w_al w) (ep_buffer_ptr b) (ep_buffer_size b);
    w ← buf_free (set_al w al) (Some a);
    match pack with
    | None => Ok w
    | Some p => processor_run w fd s (Some p)
    end
  end.

(** ** Receiving *)

(** The loop over the bytes in the ring: the result code, the connection and the world. *)
Fixpoint enqueue_loop (fuel : nat) (w : world) (fd : Z) (child : ep_io)
  : res (Z * ep_io * world) :=
  match fuel with
  | O => Fault OutOfFuel
  | S fuel =>
    if (io_b_shell_cached child =? 0) && (ep_rb_can_read (io_recv child) <? sizeof_ep_shell)
    then Ok (0, child, w) else
    '(child, w) ←
      (if io_b_shell_cached child =? 0 then
         '(n, p, rb, al) ← ep_rb_read (w_al w) (io_recv child) sizeof_ep_shell;
         m ← rb_load rb p sizeof_ep_shell;
         Ok (io_set_shell (io_set_recv child rb) (shell_ntoh (mem_shell m)) 0, set_al w al)
       else Ok (child, w));
    if negb (s_magic (io_shell child) =? EP_MAGIC_NUMBER) then Ok (-1, child, w) else
    if mg_max_capacity (w_mgr w) <? s_shell_size (io_shell child) then Ok (-2, child, w) else
    if ep_rb_can_read (io_recv child) <? s_shell_size (io_shell child) then
      Ok (1, io_set_shell child (io_shell child) 1, w)
    else
    '(in_, child, w) ←
      (if negb (s_shell_size (io_shell child) =? 0) then
         '(n, p, rb, al) ← ep_rb_read (w_al w) (io_recv child) (s_shell_size (io_shell child));
         body ← (if 0 <? s_shell_size (io_shell child)
                 then rb_load rb p (s_shell_size (io_shell child)) else Ok []);
         '(in_, w) ← buf_new (set_al w al) body (s_shell_size (io_shell child));
         Ok (in_, io_set_recv child rb, w)
       else Ok (None, child, w));
    let w := ep_io_request_dispatcher w fd (io_shell child) in_ in
    enqueue_loop fuel w fd (io_set_shell child (io_shell child) 0)
  end.

Definition ep_io_enqueue (fuel : nat) (w : world) (fd : Z) (inbuf : list Z) (insize : Z)
  : res (Z * world) :=
  found ← ep_io_find w fd;
  match found with
  | None => Ok (-3, w)
  | Some a =>
    child ← h_load (w_ios w) a;
    '(writed, rb, al) ← ep_rb_write (w_al w) (io_recv child) inbuf insize;
    let child := io_set_recv child rb in
    let w := set_al w al in
    '(ret, child, w) ←
      (if writed <? insize then Ok (-2, child, w) else enqueue_loop fuel w fd child);
    ios ← h_store (w_ios w) a child;
    Ok (ret, set_ios w ios)
  end.

(** ** Sending *)

Fixpoint notify_walk (w : world) (curfd notify_type : Z) (in_ : nat) (l : list nat) (cnt : Z)
  : res (Z * world) :=
  match l with
  | [] => Ok (cnt, w)
  | a :: l =>
    tmp ← h_load (w_ios w) a;
    if (if notify_type =? 1 then negb (io_fd tmp =? curfd)
        else if notify_type =? 2 then io_fd tmp =? curfd else false)
    then notify_walk w curfd notify_type in_ l cnt else
    let '(q, al) := queue_push (w_al w) (io_send tmp) in_ in
    ios ← h_store (w_ios w) a (io_set_send tmp q);
    let '(sq, al) := queue_push al (mg_send_queue (w_mgr w)) a in
    let w := set_al (set_ios w ios) al in
    notify_walk (set_mgr w (mgr_send_queue (w_mgr w) sq)) curfd notify_type in_ l (cnt + 1)
  end.

(** Every connection concerned gets the same buffer. *)
Definition ep_io_nodify_fd (w : world) (curfd notify_type : Z) (in_ : nat) : res (Z * world) :=
  notify_walk w curfd notify_type in_ (mg_io_list (w_mgr w)) 0.

(** The callbacks of the configuration: [send] gets the descriptor, the bytes and the extra
    pointer and gives the number of bytes sent; [send_err] is told a descriptor that failed. Both
    may work on the manager. *)
Context (send : world -> Z -> list Z -> Z -> res (Z * world)) (send_err : world -> Z -> res world).

(** The inner loop of the routine: everything queued for the connection at [a], which is read again
    after each call. *)
Fixpoint routine_send (fuel : nat) (w : world) (a : nat) : res world :=
  match fuel with
  | O => Fault OutOfFuel
  | S fuel =>
    io ← h_load (w_ios w) a;
    '(got, buffer, w) ← ep_io_get w (io_fd io) 0;
    if negb (got =? 1) then Ok w else
    match buffer with
    | None => Fault NullDeref
    | Some b =>
      buf ← h_load (w_bufs w) b;
      bufs ← h_free (w_bufs w) b;
      let w := set_bufs w bufs in
      data ← slice (buf_chunk buf) 0 (ep_buffer_size buf);
      io ← h_load (w_ios w) a;
      '(sent, w) ← send w (io_fd io) data (io_fd_extra io);
      if sent <=? 0 then io ← h_load (w_ios w) a; send_err w (io_fd io) else routine_send fuel w a
    end
  end.

(** A round of the sender thread: it leaves the loop, sleeps, or has served a connection. *)
Inductive routine_out : Set := RExit | RWait | RNext.

Definition ep_io_routine_round (fuel : nat) (w : world) : res (routine_out * world) :=
  if negb (mg_send_abort (w_mgr w) =? 0) then Ok (RExit, w) else
  match ep_queue_get_enter (mg_send_queue (w_mgr w)) (-1) 0 0 with
  | GetWait _ => Ok (RWait, w)
  | GetRet got io q =>
    let w := set_mgr w (mgr_send_queue (w_mgr w) q) in
    if negb (got =? 1) then Ok (RExit, w) else
    match io with
    | None => Fault NullDeref
    | Some a => w ← routine_send fuel w a; Ok (RNext, w)
    end
  end.

(** ** The life of a manager *)

(** [mini_compress_if] is written back to the caller's configuration. *)
Definition ep_io_init (al : alloc) (refor : ep_io_refor) (disp : ep_disp_mgr ep_pack W)
    (nprocessors def_capacity max_capacity mini_compress_if : Z)
  : option ep_io_mgr * Z * alloc :=
  let '(ok, al) := ep_calloc al 1 sizeof_ep_io_mgr in
  if negb ok then (None, mini_compress_if, al) else
  let '(q, al) := ep_queue_new al in
  match q with
  | None => (None, mini_compress_if, al)
  | Some q =>
    let '(pool, al) := ep_tp_create al nprocessors in
    match pool with
    | None => (None, mini_compress_if, al)
    | Some pool =>
      let mini := if mini_compress_if <=? 0 then 4096 else mini_compress_if in
      (Some (mk_mgr refor disp q 0 pool def_capacity
               (if max_capacity =? 0 then def_capacity else max_capacity) mini []), mini, al)
    end
  end.

Fixpoint release_all (w : world) (l : list nat) : res world :=
  match l with
  | [] => Ok w
  | a :: l => w ← io_release (set_mgr w (mgr_io_list (w_mgr w) l)) a; release_all w l
  end.

(** What is left for the connection of an entry of the sender's queue; the entry is read for
    its descriptor in every round. *)
Fixpoint drain_sender (fuel : nat) (w : world) (a : nat) : res world :=
  match fuel with
  | O => Fault OutOfFuel
  | S fuel =>
    io ← h_load (w_ios w) a;
    '(got, b, w) ← ep_io_get w (io_fd io) 0;
    if got =? 1 then w ← buf_free w b; drain_sender fuel w a else Ok w
  end.

Fixpoint drain_senders (fuel : nat) (w : world) (l : list nat) : res world :=
  match l with
  | [] => Ok w
  | a :: l => w ← drain_sender fuel w a; drain_senders fuel w l
  end.

(** After the sender thread was joined. *)
Definition ep_io_destroy (fuel : nat) (w : world) : res world :=
  let m := mgr_abort (w_mgr w) 1 in
  let '(_, q) := ep_queue_stop (Some (mg_send_queue m)) in
  let w := set_mgr w (mgr_send_queue m (default (mg_send_queue m) q)) in
  w ← release_all w (mg_io_list (w_mgr w));
  '(l, q) ← ep_queue_drain (S (length (q_items (mg_send_queue (w_mgr w))))) (mg_send_queue (w_mgr w));
  w ← drain_senders fuel w l;
  Ok (set_mgr w (mgr_send_queue (w_mgr w) q)).

(** ** The specification of the framing

    A stream of bytes is a sequence of headers with bodies. [parse max cached bytes] splits off
    the complete frames; [cached] is the header of a frame whose body is still to come. *)

Record frame := mk_frame { f_shell : ep_shell; f_body : list Z }.

Inductive pstat : Set :=
  | PHeader                  (* the next header is incomplete *)
  | PBody (s : ep_shell)     (* a header whose body is incomplete *)
  | PBadMagic
  | PTooBig
  | PNegative                (* a header that declares a negative size *)
  | PFuel.

Definition parse_header (cached : option ep_shell) (bytes : list Z) : option (ep_shell * list Z) :=
  match cached with
  | Some s => Some (s, bytes)
  | None =>
    if zlen bytes <? sizeof_ep_shell then None
    else Some (shell_ntoh (mem_shell (ztake sizeof_ep_shell bytes)), zdrop sizeof_ep_shell bytes)
  end.

Fixpoint parse (fuel : nat) (max : Z) (cached : option ep_shell) (bytes : list Z)
  : list frame * pstat * list Z :=
  match fuel with
  | O => ([], PFuel, bytes)
  | S fuel =>
    match parse_header cached bytes with
    | None => ([], PHeader, bytes)
    | Some (s, rest) =>
      if negb (s_magic s =? EP_MAGIC_NUMBER) then ([], PBadMagic, rest)
      else if max <? s_shell_size s then ([], PTooBig, rest)
      else if s_shell_size s <? 0 then ([], PNegative, rest)
      else if zlen rest <? s_shell_size s then ([], PBody s, rest)
      else
        let '(fs, st, r) := parse fuel max None (zdrop (s_shell_size s) rest) in
        (mk_frame s (ztake (s_shell_size s) rest) :: fs, st, r)
    end
  end.

Definition code_of (st : pstat) : Z :=
  match st with PHeader => 0 | PBody _ => 1 | PBadMagic => -1 | _ => -2 end.

Definition cached_of (st : pstat) : option ep_shell := match st with PBody s => Some s | _ => None end.

(** The header a connection has read ahead. *)
Definition io_cached (io : ep_io) : option ep_shell :=
  if io_b_shell_cached io =? 0 then None else Some (io_shell io).

(** The requests in the pool's queue: descriptor, header and body. *)
Definition body_of (w : world) (in_ : option nat) : list Z :=
  match in_ with
  | None => []
  | Some a => match w_bufs w !! a with Some (Some b) => buf_data b | _ => [] end
  end.

Definition task_of (w : world) (id : nat) : Z * ep_shell * list Z :=
  match w_workers w !! id with
  | Some (Some k) => (t_fd (w_opaque k), t_shell (w_opaque k), body_of w (t_in (w_opaque k)))
  | _ => (0, shell_zero, [])
  end.

Definition queued (w : world) : list (Z * ep_shell * list Z) :=
  map (task_of w) (tp_worker_queue (mg_pool (w_mgr w))).

Definition in_live (w : world) (in_ : option nat) : Prop :=
  match in_ with None => True | Some a => live (w_bufs w) a end.

(** The pool is running and the tasks in its queue are there. *)
Record pool_ok (w : world) : Prop := {
  po_abort : tp_abort (mg_pool (w_mgr w)) = 0;
  po_al : w_al w = [];
  po_tasks : Forall (fun id => exists k, w_workers w !! id = Some (Some k) /\ in_live w (t_in (w_opaque k)))
    (tp_worker_queue (mg_pool (w_mgr w)));
}.

(** [w'] is [w] with [items] added to the pool's queue. *)
Record pooled (w w' : world) (items : list (Z * ep_shell * list Z)) : Prop := {
  pd_ok : pool_ok w';
  pd_queued : queued w' = queued w ++ items;
  pd_ios : w_ios w' = w_ios w;
  pd_cb : w_cb w' = w_cb w;
  pd_mgr : exists p, w_mgr w' = mgr_pool (w_mgr w) p;
}.

(** ** Lemmas: framing *)

Lemma live_lookup_app {A} (h : heap A) a x o : live h a -> h !! a = o -> (h ++ [x]) !! a = o.
Proof. intros [y Hy] <-. rewrite Hy. by apply lookup_app_l_Some. Qed.

Lemma pooled_refl w : pool_ok w -> pooled w w [].
Proof.
  intros H. constructor; try done; [by rewrite app_nil_r|]. exists (mg_pool (w_mgr w)).
  by destruct (w_mgr w).
Qed.

Lemma pooled_trans w1 w2 w3 l1 l2 : pooled w1 w2 l1 -> pooled w2 w3 l2 -> pooled w1 w3 (l1 ++ l2).
Proof.
  intros [A1 B1 C1 D1 [p1 E1]] [A2 B2 C2 D2 [p2 E2]]. constructor; [done| | | |].
  - by rewrite B2, B1, app_assoc.
  - congruence.
  - congruence.
  - exists p2. rewrite E2, E1. done.
Qed.

Lemma pooled_max w w' l : pooled w w' l -> mg_max_capacity (w_mgr w') = mg_max_capacity (w_mgr w).
Proof. intros [_ _ _ _ [p ->]]. done. Qed.

(** Adding a buffer changes no task. *)
Lemma pooled_buf w b : pool_ok w -> pooled w (set_bufs w (w_bufs w ++ [Some b])) [].
Proof.
  intros [Ha Hal Ht].
  assert (forall a, live (w_bufs w) a -> live (w_bufs w ++ [Some b]) a) as L by eauto with ym.
  constructor; [constructor; [done|done|]| |done|done|].
  - cbn. eapply Forall_impl; [exact Ht|]. cbn. intros id (k & Hk & Hl). exists k. split; [done|].
    destruct (t_in (w_opaque k)); [by apply L|done].
  - rewrite app_nil_r. unfold queued. cbn. apply map_ext_in. intros id Hid.
    rewrite Forall_forall in Ht. destruct (Ht id) as (k & Hk & Hl); [by apply list_elem_of_In|].
    unfold task_of. cbn. rewrite Hk. f_equal. destruct (t_in (w_opaque k)) as [a|]; [|done].
    cbn. destruct Hl as [x Hx]. rewrite Hx.
    by rewrite (live_lookup_app _ _ _ _ (ex_intro _ x Hx) Hx).
  - exists (mg_pool (w_mgr w)). cbn. by destruct (w_mgr w).
Qed.

Lemma dispatcher_spec w fd s in_ :
  pool_ok w -> in_live w in_ ->
  pooled w (ep_io_request_dispatcher w fd s in_) [(fd, s, body_of w in_)].
Proof.
  intros [Ha Hal Ht] Hin. unfold ep_io_request_dispatcher. rewrite Hal.
  rewrite ep_calloc_plenty by (unfold sizeof_ep_io_task; lia). cbn [negb].
  unfold ep_tp_worker_register. rewrite Ha.
  rewrite ep_calloc_plenty by (unfold sizeof_ep_tp_worker; lia). cbn.
  set (k := mk_worker (mk_task fd s in_) false None tp_state_idle 0).
  assert (forall id k', w_workers w !! id = Some (Some k') -> (w_workers w ++ [Some k]) !! id = Some (Some k')) as L.
  { intros id k' H. by apply lookup_app_l_Some. }
  constructor; [constructor; cbn; [done|done|]| |done|done|].
  - apply Forall_app. split.
    + eapply Forall_impl; [exact Ht|]. cbn. intros id (k' & Hk & Hl). exists k'. auto.
    + apply Forall_singleton. exists k. split; [by apply list_lookup_middle|done].
  - unfold queued. cbn. rewrite map_app. f_equal.
    + apply map_ext_in. intros id Hid. rewrite Forall_forall in Ht.
      destruct (Ht id) as (k' & Hk & _); [by apply list_elem_of_In|].
      unfold task_of. cbn. by rewrite Hk, (L id k' Hk).
    + cbn. unfold task_of. cbn. rewrite list_lookup_middle by done. done.
  - by eexists.
Qed.

(** A read of bytes that are there. *)
Lemma rb_read_full rb n :
  rb_inv rb -> 0 <= n <= zlen (rb_contents rb) ->
  exists p rb', ep_rb_read [] rb n = Ok (n, p, rb', []) /\
    rb_load rb' p n = Ok (ztake n (rb_contents rb)) /\ rb_contents rb' = zdrop n (rb_contents rb) /\
    rb_capacity rb' = rb_capacity rb /\ rb_limit rb' = rb_limit rb /\ rb_inv rb'.
Proof.
  intros I Hn. destruct (read_spec rb n I ltac:(lia)) as (p & rb' & E & L & A & _ & I').
  rewrite Z.min_l in E, L by lia. exists p, rb'. split; [done|]. split; [done|].
  unfold rb_abs, fifo_read in A. injection A as A1 A2 A3. done.
Qed.

(** A new buffer is the last object of its heap; nothing else changes. *)
Lemma buf_new_full w src size :
  w_al w = [] -> 0 < size <= zlen src -> size <= BODY_MAX ->
  exists b, buf_new w src size = Ok (Some (length (w_bufs w)), set_bufs w (w_bufs w ++ [Some b])) /\
    buf_inv b /\ buf_used b = size /\ buf_data b = ztake size src.
Proof.
  intros Hal Hs Hm. unfold buf_new. rewrite Hal. destruct (buffer_new_spec src size Hs Hm) as (b & -> & I & Hu & Hd & _).
  cbn [mbind res_bind h_alloc]. exists b. split; [|done]. unfold set_al, set_bufs. cbn. by rewrite Hal.
Qed.

Lemma buf_new_ok w src size :
  pool_ok w -> 0 < size <= zlen src -> size <= BODY_MAX ->
  exists a w', buf_new w src size = Ok (Some a, w') /\ pooled w w' [] /\ in_live w' (Some a) /\
    body_of w' (Some a) = ztake size src.
Proof.
  intros P Hs Hm. destruct (buf_new_full w src size (po_al _ P) Hs Hm) as (b & -> & _ & _ & Hd).
  eexists _, _. split; [done|]. split; [by apply pooled_buf|]. split; [cbn; apply live_alloc|].
  cbn. by rewrite list_lookup_middle.
Qed.

(** What a connection keeps over the loop. *)
Definition same_conn (c c' : ep_io) : Prop :=
  io_send c' = io_send c /\ io_aes c' = io_aes c /\ io_fd c' = io_fd c /\
  io_fd_extra c' = io_fd_extra c /\ rb_capacity (io_recv c') = rb_capacity (io_recv c) /\
  rb_limit (io_recv c') = rb_limit (io_recv c).

Definition tagged (fd : Z) (fs : list frame) : list (Z * ep_shell * list Z) :=
  map (fun f => (fd, f_shell f, f_body f)) fs.

(** The header step of the loop. *)
Lemma loop_header w child s rest :
  rb_inv (io_recv child) -> w_al w = [] ->
  parse_header (io_cached child) (rb_contents (io_recv child)) = Some (s, rest) ->
  (io_b_shell_cached child =? 0) && (ep_rb_can_read (io_recv child) <? sizeof_ep_shell) = false /\
  exists child',
    (if io_b_shell_cached child =? 0 then
       '(n, p, rb, al) ← ep_rb_read (w_al w) (io_recv child) sizeof_ep_shell;
       m ← rb_load rb p sizeof_ep_shell;
       Ok (io_set_shell (io_set_recv child rb) (shell_ntoh (mem_shell m)) 0, set_al w al)
     else Ok (child, w)) = Ok (child', w) /\
    rb_inv (io_recv child') /\ rb_contents (io_recv child') = rest /\ io_shell child' = s /\
    same_conn child child'.
Proof.
  intros I Hal. unfold parse_header, io_cached. rewrite Hal, <- (contents_len _ I).
  destruct (Z.eqb_spec (io_b_shell_cached child) 0) as [Hc|Hc].
  - destruct (Z.ltb_spec (zlen (rb_contents (io_recv child))) sizeof_ep_shell) as [|Hl]; [done|].
    intros [= <- <-]. split; [done|].
    destruct (rb_read_full (io_recv child) sizeof_ep_shell I) as (p & rb & E & L & A & B & D & I');
      [unfold sizeof_ep_shell in *; lia|].
    rewrite E. cbn [mbind res_bind]. rewrite L. cbn [mbind res_bind].
    replace (set_al w []) with w by (destruct w; cbn in *; by subst).
    eexists. split; [done|].
    split; [exact I'|]. split; [exact A|]. split; [done|]. by repeat split.
  - intros [= <- <-]. split; [done|]. exists child. split; [done|]. split; [done|].
    split; [done|]. split; [done|]. by repeat split.
Qed.

(** The body step of the loop: the task of one frame is queued. *)
Lemma loop_body w child :
  rb_inv (io_recv child) -> pool_ok w ->
  0 <= s_shell_size (io_shell child) <= zlen (rb_contents (io_recv child)) ->
  s_shell_size (io_shell child) <= BODY_MAX ->
  let n := s_shell_size (io_shell child) in
  exists in_ child' w',
    (if negb (n =? 0) then
       '(_, p, rb, al) ← ep_rb_read (w_al w) (io_recv child) n;
       body ← (if 0 <? n then rb_load rb p n else Ok []);
       '(in_, w) ← buf_new (set_al w al) body n;
       Ok (in_, io_set_recv child rb, w)
     else Ok (None, child, w)) = Ok (in_, child', w') /\
    rb_inv (io_recv child') /\ rb_contents (io_recv child') = zdrop n (rb_contents (io_recv child)) /\
    io_shell child' = io_shell child /\ same_conn child child' /\
    pooled w w' [] /\ in_live w' in_ /\ body_of w' in_ = ztake n (rb_contents (io_recv child)).
Proof.
  intros I P Hn Hm n. subst n. pose proof (po_al _ P) as Hal. rewrite Hal.
  destruct (Z.eqb_spec (s_shell_size (io_shell child)) 0) as [E0|E0]; cbn [negb].
  - exists None, child, w. rewrite E0, zdrop_0, ztake_0 by lia. split; [done|]. split; [done|].
    split; [done|]. split; [done|]. split; [by repeat split|]. split; [by apply pooled_refl|done].
  - destruct (rb_read_full (io_recv child) (s_shell_size (io_shell child)) I Hn)
      as (p & rb & E & L & A & B & D & I').
    rewrite E. cbn [mbind res_bind]. case_zbool. rewrite L. cbn [mbind res_bind].
    replace (set_al w []) with w by (destruct w; cbn in *; by subst).
    destruct (buf_new_ok w (ztake (s_shell_size (io_shell child)) (rb_contents (io_recv child)))
      (s_shell_size (io_shell child)) P) as (a & w' & -> & Q & La & Lb);
      [rewrite zlen_ztake by lia; lia|done|].
    cbn [mbind res_bind]. eexists _, _, _. split; [done|]. cbn [io_recv io_set_recv io_shell].
    split; [done|]. split; [done|]. split; [done|]. split; [by repeat split|]. split; [done|].
    split; [done|]. rewrite Lb. apply ztake_all. rewrite zlen_ztake by lia. lia.
Qed.

Definition good (st : pstat) : bool := match st with PNegative | PFuel => false | _ => true end.

(** The loop does what the specification says, in lockstep: one round per frame. *)
Lemma loop_spec fuel : forall w fd child fs st rest,
  rb_inv (io_recv child) -> pool_ok w -> mg_max_capacity (w_mgr w) <= BODY_MAX ->
  parse fuel (mg_max_capacity (w_mgr w)) (io_cached child) (rb_contents (io_recv child)) = (fs, st, rest) ->
  good st = true ->
  exists child' w', enqueue_loop fuel w fd child = Ok (code_of st, child', w') /\
    rb_inv (io_recv child') /\ rb_contents (io_recv child') = rest /\
    (0 <= code_of st -> io_cached child' = cached_of st) /\ same_conn child child' /\
    pooled w w' (tagged fd fs).
Proof.
  induction fuel as [|fuel IH]; intros w fd child fs st rest I P Hmax E G;
    [injection E as <- <- <-; discriminate G|].
  cbn [parse] in E. cbn [enqueue_loop].
  destruct (parse_header (io_cached child) (rb_contents (io_recv child))) as [[s r]|] eqn:Eh.
  2:{ injection E as <- <- <-. unfold parse_header, io_cached in Eh.
      destruct (Z.eqb_spec (io_b_shell_cached child) 0) as [Hc|Hc]; [|done].
      rewrite <- (contents_len _ I). destruct (_ <? sizeof_ep_shell); [|done].
      eexists _, _. split; [done|]. split; [done|]. split; [done|]. split; [|split; [by repeat split|]].
      - intros _. unfold io_cached. by rewrite Hc.
      - by apply pooled_refl. }
  destruct (loop_header w child s r I (po_al _ P) Eh) as (-> & c1 & -> & I1 & R1 & S1 & K1).
  cbn [mbind res_bind]. rewrite S1.
  destruct (negb (s_magic s =? EP_MAGIC_NUMBER)).
  { injection E as <- <- <-. eexists _, _. split; [done|]. split; [done|]. split; [done|].
    split; [done|]. split; [done|]. by apply pooled_refl. }
  destruct (mg_max_capacity (w_mgr w) <? s_shell_size s) eqn:Eb.
  { injection E as <- <- <-. eexists _, _. split; [done|]. split; [done|]. split; [done|].
    split; [done|]. split; [done|]. by apply pooled_refl. }
  destruct (Z.ltb_spec (s_shell_size s) 0) as [Hneg|Hpos]; [injection E as <- <- <-; discriminate G|].
  rewrite <- (contents_len _ I1), R1.
  destruct (zlen r <? s_shell_size s) eqn:El.
  { injection E as <- <- <-. eexists _, _. split; [done|]. split; [done|]. split; [done|].
    split; [|split; [done|]].
    - intros _. unfold io_cached. cbn. done.
    - by apply pooled_refl. }
  apply Z.ltb_ge in Eb, El.
  destruct (loop_body w c1 I1 P) as (in_ & c2 & w2 & E2 & I2 & R2 & S2 & K2 & Q2 & L2 & B2);
    [rewrite S1, R1; lia|rewrite S1; lia|].
  cbn zeta in E2. rewrite S1 in E2, R2, B2. rewrite E2. cbn [mbind res_bind]. rewrite S2, S1.
  destruct (parse fuel (mg_max_capacity (w_mgr w)) None (zdrop (s_shell_size s) r)) as [[fs' st'] r'] eqn:Ep.
  injection E as <- <- <-.
  pose proof (dispatcher_spec w2 fd s in_ (pd_ok _ _ _ Q2) L2) as Q3. rewrite B2, R1 in Q3.
  set (w3 := ep_io_request_dispatcher w2 fd s in_) in *.
  assert (mg_max_capacity (w_mgr w3) = mg_max_capacity (w_mgr w)) as Em
    by (rewrite (pooled_max _ _ _ Q3); apply (pooled_max _ _ _ Q2)).
  destruct (IH w3 fd (io_set_shell c2 s 0) fs' st' r') as (c4 & w4 & -> & I4 & R4 & C4 & K4 & Q4);
    [exact I2|apply Q3|by rewrite Em|by cbn [io_recv io_set_shell]; rewrite R2, R1, Em|done|].
  exists c4, w4. split; [done|]. split; [done|]. split; [done|]. split; [done|]. split.
  - destruct K1 as (? & ? & ? & ? & ? & ?), K2 as (? & ? & ? & ? & ? & ?), K4 as (? & ? & ? & ? & ? & ?).
    cbn in *. repeat split; congruence.
  - apply (pooled_trans _ _ _ _ _ (pooled_trans _ _ _ _ _ Q2 Q3) Q4).
Qed.

(** Fuel: one round per frame, and a frame takes at least a byte or uses the cached header. *)
Definition parse_fuel (c : option ep_shell) (bytes : list Z) : nat :=
  length bytes + match c with Some _ => 1 | None => 0 end.

Definition awaits (st : pstat) : bool := match st with PHeader | PBody _ => true | _ => false end.

Lemma parse_header_len c bytes s rest :
  parse_header c bytes = Some (s, rest) -> (length rest < parse_fuel c bytes)%nat.
Proof.
  unfold parse_header, parse_fuel, sizeof_ep_shell. destruct c as [s0|].
  - intros [= <- <-]. lia.
  - case_zbool; [done|]. intros [= <- <-]. unfold zdrop, zlen in *. rewrite length_drop. lia.
Qed.

Lemma parse_enough m : forall max c bytes fs st r,
  parse m max c bytes = (fs, st, r) -> (parse_fuel c bytes < m)%nat -> st <> PFuel.
Proof.
  induction m as [|m IH]; intros max c bytes fs st r E Hm; [lia|]. cbn [parse] in E.
  destruct (parse_header c bytes) as [[s rest]|] eqn:Eh; [|by injection E as <- <- <-].
  apply parse_header_len in Eh.
  repeat (match type of E with context [ if ?b then _ else _ ] => destruct b end;
    [by injection E as <- <- <-|]).
  destruct (parse m max None (zdrop (s_shell_size s) rest)) as [[fs' st'] r'] eqn:Ep.
  injection E as <- <- <-. eapply IH; [exact Ep|].
  unfold parse_fuel, zdrop in *. rewrite length_drop. lia.
Qed.

Lemma parse_mono n : forall m max c bytes fs st r,
  parse n max c bytes = (fs, st, r) -> st <> PFuel -> (n <= m)%nat -> parse m max c bytes = (fs, st, r).
Proof.
  induction n as [|n IH]; intros m max c bytes fs st r E Hs Hm; [by injection E as <- <- <-|].
  destruct m as [|m]; [lia|]. cbn [parse] in *.
  destruct (parse_header c bytes) as [[s rest]|]; [|done].
  repeat (match type of E with context [ if ?b then _ else _ ] => destruct b end; [done|]).
  destruct (parse n max None (zdrop (s_shell_size s) rest)) as [[fs' st'] r'] eqn:Ep.
  injection E as <- <- <-. by rewrite (IH m _ _ _ _ _ _ Ep Hs ltac:(lia)).
Qed.

Lemma parse_unique n m max c bytes :
  (parse_fuel c bytes < n)%nat -> (parse_fuel c bytes < m)%nat ->
  parse n max c bytes = parse m max c bytes.
Proof.
  intros Hn Hm. destruct (parse n max c bytes) as [[fs st] r] eqn:E.
  pose proof (parse_enough _ _ _ _ _ _ _ E Hn) as Hs.
  destruct (parse m max c bytes) as [[fs' st'] r'] eqn:E'.
  pose proof (parse_enough _ _ _ _ _ _ _ E' Hm) as Hs'.
  destruct (Nat.le_ge_cases n m) as [L|L].
  - by rewrite <- E', (parse_mono _ m _ _ _ _ _ _ E Hs L).
  - rewrite <- E. by apply (parse_mono _ n _ _ _ _ _ _ E' Hs' L).
Qed.

Lemma parse_header_app c x y s rest :
  parse_header c x = Some (s, rest) -> parse_header c (x ++ y) = Some (s, rest ++ y).
Proof.
  unfold parse_header, sizeof_ep_shell. destruct c as [s0|]; [by intros [= <- <-]|].
  rewrite zlen_app. pose proof (zlen_nonneg y).
  destruct (Z.ltb_spec (zlen x) 18); [done|]. intros [= <- <-].
  destruct (Z.ltb_spec (zlen x + zlen y) 18); [lia|].
  do 2 f_equal.
  - unfold ztake. rewrite take_app_le; [done|]. unfold zlen in *. lia.
  - unfold zdrop. rewrite drop_app_le; [done|]. unfold zlen in *. lia.
Qed.

Lemma parse_rest_len n : forall max c x fs st r,
  parse n max c x = (fs, st, r) -> st <> PFuel -> (parse_fuel (cached_of st) r <= parse_fuel c x)%nat.
Proof.
  induction n as [|n IH]; intros max c x fs st r E Hs; [by injection E as <- <- <-|].
  cbn [parse] in E. destruct (parse_header c x) as [[s rest]|] eqn:Eh.
  2:{ injection E as <- <- <-. cbn [cached_of]. unfold parse_fuel. destruct c; lia. }
  apply parse_header_len in Eh. unfold parse_fuel in *.
  repeat (match type of E with context [ if ?b then _ else _ ] => destruct b end;
    [injection E as <- <- <-; cbn [cached_of]; lia|]).
  destruct (parse n max None (zdrop (s_shell_size s) rest)) as [[fs' st'] r'] eqn:Ep.
  injection E as <- <- <-. apply (IH _ _ _ _ _ _ Ep) in Hs. unfold zdrop in Hs.
  rewrite length_drop in Hs. lia.
Qed.

Lemma parse_fuel_app c x y : parse_fuel c (x ++ y) = (parse_fuel c x + length y)%nat.
Proof. unfold parse_fuel. rewrite length_app. lia. Qed.

(** Bytes that arrive later continue the parse where it stopped, unless it stopped at an
    error. *)
Lemma parse_app n : forall max c x y m m' fs st r,
  parse n max c x = (fs, st, r) -> st <> PFuel ->
  (parse_fuel c (x ++ y) < m)%nat -> (parse_fuel c (x ++ y) < m')%nat ->
  parse m max c (x ++ y) =
    if awaits st then
      let '(fs2, st2, r2) := parse m' max (cached_of st) (r ++ y) in (fs ++ fs2, st2, r2)
    else (fs, st, r ++ y).
Proof.
  induction n as [|n IH]; intros max c x y m m' fs st r E Hs Hm Hm'; [by injection E as <- <- <-|].
  cbn [parse] in E. destruct (parse_header c x) as [[s rest]|] eqn:Eh.
  2:{ injection E as <- <- <-. cbn [awaits cached_of app]. destruct c as [s0|]; [by cbn in Eh|].
      rewrite (parse_unique m' m) by done. by destruct (parse m max None (x ++ y)) as [[? ?] ?]. }
  pose proof (parse_header_app _ _ y _ _ Eh) as Eh'.
  pose proof (parse_header_len _ _ _ _ Eh') as Lh. rewrite length_app in Lh.
  destruct m as [|m]; [lia|].
  assert (parse (S m) max c (x ++ y) = parse (S m) max (Some s) (rest ++ y)) as ->
    by (cbn [parse]; rewrite Eh'; done).
  assert (parse_fuel (Some s) (rest ++ y) < S m /\ parse_fuel (Some s) (rest ++ y) < m')%nat as [F1 F2]
    by (unfold parse_fuel in *; rewrite !length_app in *; lia).
  destruct (negb (s_magic s =? EP_MAGIC_NUMBER)) eqn:E1;
    [injection E as <- <- <-; cbn [parse parse_header]; by rewrite E1|].
  destruct (max <? s_shell_size s) eqn:E2;
    [injection E as <- <- <-; cbn [parse parse_header]; by rewrite E1, E2|].
  destruct (s_shell_size s <? 0) eqn:E3;
    [injection E as <- <- <-; cbn [parse parse_header]; by rewrite E1, E2, E3|].
  apply Z.ltb_ge in E3 as Hp. destruct (Z.ltb_spec (zlen rest) (s_shell_size s)) as [Hb|Hb].
  { injection E as <- <- <-. cbn [awaits cached_of app]. rewrite (parse_unique m' (S m)) by done.
    by destruct (parse (S m) max (Some s) (rest ++ y)) as [[? ?] ?]. }
  destruct (parse n max None (zdrop (s_shell_size s) rest)) as [[fs' st'] r'] eqn:Ep.
  injection E as <- <- <-. cbn [parse parse_header]. rewrite E1, E2, E3.
  rewrite zlen_app. pose proof (zlen_nonneg y).
  destruct (Z.ltb_spec (zlen rest + zlen y) (s_shell_size s)); [lia|].
  assert (ztake (s_shell_size s) (rest ++ y) = ztake (s_shell_size s) rest) as ->
    by (unfold ztake; rewrite take_app_le; [done|unfold zlen in *; lia]).
  assert (zdrop (s_shell_size s) (rest ++ y) = zdrop (s_shell_size s) rest ++ y) as ->
    by (unfold zdrop; rewrite drop_app_le; [done|unfold zlen in *; lia]).
  assert (parse_fuel None (zdrop (s_shell_size s) rest ++ y) < m /\
          parse_fuel None (zdrop (s_shell_size s) rest ++ y) < m')%nat as [F3 F4].
  { unfold parse_fuel in *. rewrite !length_app in *. unfold zdrop. rewrite length_drop. lia. }
  rewrite (IH _ _ _ y m m' _ _ _ Ep Hs F3 F4). destruct (awaits st'); [|done].
  by destruct (parse m' max (cached_of st') (r' ++ y)) as [[? ?] ?].
Qed.

(** [w'] is [w] after it queued [items], with connections that may have changed. *)
Record delivered (w w' : world) (items : list (Z * ep_shell * list Z)) : Prop := {
  dl_ok : pool_ok w';
  dl_queued : queued w' = queued w ++ items;
  dl_mgr : exists p, w_mgr w' = mgr_pool (w_mgr w) p;
}.

(** A connection between two calls: where it is, what is pending, and its limits. *)
Record conn_at (w : world) (fd : Z) (a : nat) (io : ep_io) : Prop := {
  ca_find : ep_io_find w fd = Ok (Some a);
  ca_load : w_ios w !! a = Some (Some io);
  ca_inv : rb_inv (io_recv io);
  ca_limit : rb_limit (io_recv io) = mg_max_capacity (w_mgr w);
}.

Lemma find_store ios a io io' l fd r :
  ios !! a = Some (Some io) -> io_fd io' = io_fd io ->
  io_find ios l fd = Ok r -> io_find (<[a := Some io']> ios) l fd = Ok r.
Proof.
  intros Ha Hfd. induction l as [|b l IH]; cbn [io_find]; [done|].
  unfold h_load. destruct (decide (a = b)) as [<-|Hne].
  - rewrite list_lookup_insert_eq by (by apply lookup_lt_Some in Ha). rewrite Ha.
    cbn [mbind res_bind]. rewrite Hfd. destruct (_ =? _); [done|exact IH].
  - rewrite list_lookup_insert_ne by done.
    destruct (ios !! b) as [[tmp|]|]; [|done..]. cbn [mbind res_bind].
    destruct (_ =? _); [done|exact IH].
Qed.

Lemma rb_write_full rb d :
  rb_inv rb -> zlen d <= rb_limit rb -> rb_capacity rb + zlen d <= INT_MAX ->
  exists rb', ep_rb_write [] rb d (zlen d) = Ok (zlen d, rb', []) /\
    rb_contents rb' = rb_contents rb ++ d /\ rb_limit rb' = rb_limit rb /\
    rb_capacity rb' <= rb_capacity rb + zlen d /\ rb_inv rb'.
Proof.
  intros I Hl Hc. pose proof (zlen_nonneg d).
  destruct (write_spec rb d I) as (rb' & E & A & I'); [lia|].
  pose proof (contents_len _ I) as L. pose proof (can_read_range _ I) as R.
  unfold fifo_write, fifo_grown in *. cbn in E, A.
  assert (Z.min (zlen d) ((if zlen d <=? rb_capacity rb - zlen (rb_contents rb) then rb_capacity rb
          else rb_capacity rb + Z.min (zlen d) (rb_limit rb)) - zlen (rb_contents rb)) = zlen d) as En
    by (case_zbool; lia).
  rewrite En in E, A. rewrite ztake_all in A by lia. exists rb'. split; [done|].
  unfold rb_abs in A. injection A as -> A2 ->. split; [done|]. split; [done|].
  split; [|done]. rewrite A2. case_zbool; lia.
Qed.

Lemma enqueue_full fuel w fd a io d fs st rest :
  conn_at w fd a io -> pool_ok w -> mg_max_capacity (w_mgr w) <= BODY_MAX ->
  zlen d <= mg_max_capacity (w_mgr w) -> rb_capacity (io_recv io) + zlen d <= INT_MAX ->
  parse fuel (mg_max_capacity (w_mgr w)) (io_cached io) (rb_contents (io_recv io) ++ d) = (fs, st, rest) ->
  good st = true ->
  exists io' w', ep_io_enqueue fuel w fd d (zlen d) = Ok (code_of st, w') /\
    conn_at w' fd a io' /\ rb_contents (io_recv io') = rest /\
    (0 <= code_of st -> io_cached io' = cached_of st) /\
    rb_capacity (io_recv io') <= rb_capacity (io_recv io) + zlen d /\
    delivered w w' (tagged fd fs) /\
    w_ios w' = <[a := Some io']> (w_ios w) /\ io_send io' = io_send io /\ io_fd io' = io_fd io /\ w_cb w' = w_cb w.
Proof.
  intros [Hf Ha I Hl] P Hmax Hd Hc Ep G. unfold ep_io_enqueue. rewrite Hf. cbn [mbind res_bind].
  unfold h_load. rewrite Ha. cbn [mbind res_bind]. rewrite (po_al _ P).
  destruct (rb_write_full (io_recv io) d I) as (rb & Ew & Rw & Lw & Cw & Iw); [by rewrite Hl|done|].
  rewrite Ew. cbn [mbind res_bind]. rewrite Z.ltb_irrefl.
  replace (set_al w []) with w by (destruct w; pose proof (po_al _ P); cbn in *; by subst).
  destruct (loop_spec fuel w fd (io_set_recv io rb) fs st rest) as (io' & w' & -> & I' & R' & C' & K' & Q');
    [done|done|done|by cbn [io_recv io_set_recv]; rewrite Rw|done|].
  cbn [mbind res_bind]. destruct K' as (Ks & _ & Kfd & _ & Kc & Kl). cbn in Ks, Kfd, Kc, Kl.
  destruct Q' as [Pw Qq Qi Qc Qm]. rewrite Qi. rewrite (h_store_ok _ _ _ _ Ha). cbn [mbind res_bind].
  eexists io', _. split; [done|]. split; [|split; [done|split; [done|split; [lia|split; [|done]]]]].
  - destruct Qm as [p Qm]. constructor; cbn.
    + unfold ep_io_find. cbn. rewrite Qm. cbn. eapply find_store; [done|done|exact Hf].
    + apply list_lookup_insert_eq. by apply lookup_lt_Some in Ha.
    + done.
    + rewrite Qm. cbn. lia.
  - constructor; [|exact Qq|exact Qm]. destruct Pw as [A B D]. by constructor.
Qed.

Lemma enqueue_spec fuel w fd a io d fs st rest :
  conn_at w fd a io -> pool_ok w -> mg_max_capacity (w_mgr w) <= BODY_MAX ->
  zlen d <= mg_max_capacity (w_mgr w) -> rb_capacity (io_recv io) + zlen d <= INT_MAX ->
  parse fuel (mg_max_capacity (w_mgr w)) (io_cached io) (rb_contents (io_recv io) ++ d) = (fs, st, rest) ->
  good st = true ->
  exists io' w', ep_io_enqueue fuel w fd d (zlen d) = Ok (code_of st, w') /\
    conn_at w' fd a io' /\ rb_contents (io_recv io') = rest /\
    (0 <= code_of st -> io_cached io' = cached_of st) /\
    rb_capacity (io_recv io') <= rb_capacity (io_recv io) + zlen d /\
    delivered w w' (tagged fd fs).
Proof.
  intros. destruct (enqueue_full fuel w fd a io d fs st rest) as (io' & w' & ? & ? & ? & ? & ? & ? & _); try done.
  by exists io', w'.
Qed.

(** The calls for a sequence of chunks, and their results. *)
Fixpoint enqueue_all (fuel : nat) (w : world) (fd : Z) (chunks : list (list Z))
  : res (list Z * world) :=
  match chunks with
  | [] => Ok ([], w)
  | d :: chunks =>
    '(r, w) ← ep_io_enqueue fuel w fd d (zlen d);
    '(rs, w) ← enqueue_all fuel w fd chunks;
    Ok (r :: rs, w)
  end.

Lemma delivered_trans w1 w2 w3 l1 l2 :
  delivered w1 w2 l1 -> delivered w2 w3 l2 -> delivered w1 w3 (l1 ++ l2).
Proof.
  intros [A1 B1 [p1 E1]] [A2 B2 [p2 E2]]. constructor; [done|by rewrite B2, B1, app_assoc|].
  exists p2. by rewrite E2, E1.
Qed.

Lemma stream_spec chunks : forall fuel w fd a io fs st rest,
  conn_at w fd a io -> pool_ok w -> mg_max_capacity (w_mgr w) <= BODY_MAX ->
  Forall (fun d => zlen d <= mg_max_capacity (w_mgr w)) chunks ->
  rb_capacity (io_recv io) + zlen (concat chunks) <= INT_MAX ->
  (parse_fuel (io_cached io) (rb_contents (io_recv io) ++ concat chunks) < fuel)%nat ->
  parse fuel (mg_max_capacity (w_mgr w)) (io_cached io) (rb_contents (io_recv io) ++ concat chunks)
    = (fs, st, rest) ->
  awaits st = true ->
  (chunks = [] -> fs = []) ->
  exists rs io' w', enqueue_all fuel w fd chunks = Ok (rs, w') /\ Forall (fun r => 0 <= r) rs /\
    conn_at w' fd a io' /\ delivered w w' (tagged fd fs).
Proof.
  induction chunks as [|d chunks IH]; intros fuel w fd a io fs st rest Hc P Hm Hd Hk Hfu E Ha He.
  { rewrite He by done. exists [], io, w. split; [done|]. split; [done|]. split; [done|].
    constructor; [done|by rewrite app_nil_r|]. exists (mg_pool (w_mgr w)). by destruct (w_mgr w). }
  apply Forall_cons in Hd as [Hd Hds]. cbn [concat] in *.
  rewrite zlen_app in Hk. pose proof (zlen_nonneg (concat chunks)). pose proof (zlen_nonneg d).
  rewrite app_assoc in Hfu, E. pose proof E as E0.
  destruct (parse fuel (mg_max_capacity (w_mgr w)) (io_cached io) (rb_contents (io_recv io) ++ d))
    as [[fs1 st1] r1] eqn:E1.
  assert (parse_fuel (io_cached io) (rb_contents (io_recv io) ++ d) < fuel)%nat as Hfu1
    by (rewrite parse_fuel_app in Hfu; lia).
  pose proof (parse_enough _ _ _ _ _ _ _ E1 Hfu1) as Hs1.
  rewrite (parse_app _ _ _ _ (concat chunks) fuel fuel _ _ _ E1 Hs1 Hfu Hfu) in E.
  destruct (awaits st1) eqn:Ea1; [|injection E as <- <- <-; congruence].
  destruct (enqueue_spec fuel w fd a io d fs1 st1 r1) as (io1 & w1 & Ew & Hc1 & R1 & C1 & K1 & D1);
    [done|done|done|done|lia|done|by destruct st1|].
  assert (io_cached io1 = cached_of st1) as C1' by (apply C1; by destruct st1).
  destruct (parse fuel _ (cached_of st1) (r1 ++ concat chunks)) as [[fs2 st2] r2] eqn:E2.
  injection E as <- <- <-.
  pose proof (parse_rest_len _ _ _ _ _ _ _ E1 Hs1) as Hr1.
  assert (mg_max_capacity (w_mgr w1) = mg_max_capacity (w_mgr w)) as Em
    by (destruct D1 as [_ _ [p ->]]; done).
  destruct (IH fuel w1 fd a io1 fs2 st2 r2) as (rs & io2 & w2 & E3 & F3 & Hc2 & D2).
  - done.
  - apply D1.
  - by rewrite Em.
  - by rewrite Em.
  - lia.
  - rewrite C1', R1, parse_fuel_app. rewrite parse_fuel_app in Hfu. lia.
  - by rewrite Em, C1', R1.
  - done.
  - intros ->. cbn [concat] in E0. rewrite app_nil_r, E1 in E0. injection E0 as E0 _ _.
    apply (f_equal length) in E0. rewrite length_app in E0. by destruct fs2; [|cbn in E0; lia].
  - cbn [enqueue_all]. rewrite Ew. cbn [mbind res_bind]. rewrite E3. cbn [mbind res_bind].
    exists (code_of st1 :: rs), io2, w2. split; [done|]. split; [constructor; [by destruct st1|done]|].
    split; [done|]. unfold tagged in *. rewrite map_app. by eapply delivered_trans.
Qed.

End io.
Arguments ep_io_mgr : clear implicits.
Arguments world : clear implicits.

End Io.
