(* ===== verification/IoSpec.v ===== *)
(** * IoSpec: what the connection layer promises, and where it breaks its promises

    The properties of [Io]: the framing of the byte stream, the trip of a body from one end of a
    connection to the other under every combination of encryption and compression, the registry
    of connections, and the runs in which the code leaves defined behaviour. *)
From S2P Require Import Prelude Alloc RingBuffer Queue Words Buffer Dispatch ThreadPool Bson Packet Io.
Import Alloc RingBuffer Queue Words Buffer Dispatch ThreadPool Bson Packet Io.

Module IoSpec.

(** The fields of the header that concern the sender's direction. *)
Definition comp_of (client : bool) (s : ep_shell) : Z :=
  if client then p_c_compress (s_proto s) else p_s_compress (s_proto s).
Definition crypt_of (client : bool) (s : ep_shell) : Z :=
  if client then p_c_crypt (s_proto s) else p_s_crypt (s_proto s).

Section bodies.
Context `{CL : CodecLaws} {W : Type} (beyond : list Z).
Implicit Types (w : world W) (s : ep_shell).

(** The world with another buffer at [a]. *)
Definition with_buf (w : world W) (a : nat) (b : ep_buffer) : world W :=
  set_bufs w (<[a := Some b]> (w_bufs w)).

Lemma set_al_nil (w : world W) : w_al w = [] -> set_al w [] = w.
Proof. destruct w; cbn. by intros ->. Qed.

Lemma buf_put_ok w a b b' :
  w_al w = [] -> w_bufs w !! a = Some (Some b) -> buf_put w a (Some b') [] = Ok (Some a, with_buf w a b').
Proof.
  intros Hal Ha. unfold buf_put. rewrite (h_store_ok _ _ _ _ Ha). cbn [mbind res_bind].
  by rewrite set_al_nil.
Qed.

Lemma with_buf_lookup w a b b' : w_bufs w !! a = Some (Some b) -> w_bufs (with_buf w a b') !! a = Some (Some b').
Proof. intros Ha. apply list_lookup_insert_eq. by apply lookup_lt_Some in Ha. Qed.

Lemma with_buf_twice w a b1 b2 : with_buf (with_buf w a b1) a b2 = with_buf w a b2.
Proof. unfold with_buf, set_bufs. cbn. by rewrite list_insert_insert_eq. Qed.

Lemma set_compress_ok cl s z : shell_ok s -> -4 <= z <= 3 -> shell_ok (set_compress cl s z).
Proof.
  intros [A [B1 B2 B3 B4 B5 B6 B7] D E F] Hz. destruct cl; constructor; cbn; try done; by constructor.
Qed.

(** What sending leaves of a header. *)
Definition same_head (s s' : ep_shell) : Prop :=
  s_magic s' = s_magic s /\ p_category (s_proto s') = p_category (s_proto s) /\ p_type (s_proto s') = p_type (s_proto s) /\
  forall cl, crypt_of cl s' = crypt_of cl s.

Lemma set_compress_head cl s z : same_head s (set_compress cl s z).
Proof. by destruct cl. Qed.

#[local] Set Default Proof Using "CL".

Lemma buf_compress_ok w a b :
  w_al w = [] -> w_bufs w !! a = Some (Some b) -> buf_inv b -> buf_used b <= 268435455 ->
  exists b', buf_compress w a = Ok (Some a, with_buf w a b') /\ buf_inv b' /\
    buf_used b' <= 300000000 /\ exists cap, bz_compress (buf_data b) cap = Some (buf_data b').
Proof.
  intros Hal Ha I Hs. unfold buf_compress, h_load. rewrite Ha. cbn [mbind res_bind]. rewrite Hal.
  destruct (compress_spec b I Hs) as (c & b' & Ec & -> & I' & Dc & Uc & Lc). cbn [mbind res_bind].
  exists b'. rewrite (buf_put_ok w a b b') by done. split; [done|]. split; [done|]. split; [lia|].
  exists (compress_room (buf_used b)). by rewrite Dc.
Qed.

(** The compression step: the header says whether the body was compressed. *)
Lemma compress_step w s a b :
  w_al w = [] -> w_bufs w !! a = Some (Some b) -> buf_inv b -> buf_used b <= 268435455 -> shell_ok s ->
  exists s' b', combine_compress w s a = Ok (Some a, s', with_buf w a b') /\ buf_inv b' /\
    buf_used b' <= 300000000 /\ shell_ok s' /\ same_head s s' /\ s_pack_size s' = s_pack_size s /\
    crypt_of (is_client w) s' = crypt_of (is_client w) s /\
    (if comp_of (is_client w) s' =? compress_type_compress
     then exists cap, bz_compress (buf_data b) cap = Some (buf_data b')
     else buf_data b' = buf_data b).
Proof.
  intros Hal Ha I Hs Ok. unfold combine_compress. fold (comp_of (is_client w) s).
  assert (with_buf w a b = w) as Eb.
  { unfold with_buf. rewrite list_insert_id by done. by destruct w. }
  destruct (buf_compress_ok w a b Hal Ha I Hs) as (b' & Ec & I' & U' & Hc).
  destruct (Z.eqb_spec (comp_of (is_client w) s) compress_type_compress) as [E1|E1].
  { rewrite Ec. cbn [mbind res_bind]. exists s, b'. split; [done|]. repeat (split; [done|]).
    by rewrite (proj2 (Z.eqb_eq _ _) E1). }
  destruct (Z.eqb_spec (comp_of (is_client w) s) compress_type_auto) as [E2|E2].
  - unfold h_load. rewrite Ha. cbn [mbind res_bind]. destruct (mg_mini_compress_if (w_mgr w) <? ep_buffer_size b).
    + rewrite Ec. cbn [mbind res_bind].
      exists (set_compress (is_client w) s compress_type_compress), b'. split; [done|].
      repeat (split; [done|]). split; [by apply set_compress_ok|].
      split; [apply set_compress_head|]. split; [done|]. by destruct (is_client w).
    + exists (set_compress (is_client w) s compress_type_none), b. rewrite Eb. split; [done|].
      split; [done|]. split; [lia|]. split; [by apply set_compress_ok|].
      split; [apply set_compress_head|]. split; [done|]. by destruct (is_client w).
  - exists s, b. rewrite Eb. split; [done|]. split; [done|]. split; [lia|].
    repeat (split; [done|]). by rewrite (proj2 (Z.eqb_neq _ _) E1).
Qed.

(** The encryption step: the cipher of the body behind some padding, in whole blocks. *)
Definition sealed (k : ep_aes_key) (crypt : Z) (b b' : ep_buffer) : Prop :=
  if crypt =? crypt_type_encrypt then
    exists pad, buf_data b' = (aes_cbc true (aes_key k) (aes_vec k) (buf_data b ++ pad)).1 /\
      zlen (buf_data b ++ pad) mod 16 = 0 /\ buf_used b' = zlen (buf_data b ++ pad)
  else b' = b.

Lemma crypt_step w fd crypt a b k :
  w_al w = [] -> w_bufs w !! a = Some (Some b) -> buf_inv b -> buf_used b <= 300000000 ->
  16 <= zlen beyond -> ep_io_get_aes w fd = Ok (Some k) ->
  exists b', combine_crypt beyond w fd crypt a = Ok (Some a, with_buf w a b') /\ buf_inv b' /\
    buf_used b' <= 300000016 /\ sealed k crypt b b'.
Proof.
  intros Hal Ha I Hs Hb Hk. unfold combine_crypt, sealed.
  destruct (crypt =? crypt_type_encrypt).
  - rewrite Hk. cbn [mbind res_bind]. unfold h_load. rewrite Ha. cbn [mbind res_bind]. rewrite Hal.
    destruct (encrypt_spec beyond b k I Hb) as (pad & k' & E & L & Hm & Hp). cbn zeta in *.
    rewrite E. cbn [mbind res_bind]. rewrite (buf_put_ok w a b) by done.
    rewrite zlen_app, (buf_data_len _ I) in L. pose proof (bi_used _ I) as [? _].
    eexists. split; [done|]. split; [|split; [cbn [buf_used]; lia|]].
    + constructor; cbn [buf_used buf_chunk]; unfold BODY_MAX; lia.
    + exists pad. unfold buf_data at 1. cbn [buf_used buf_chunk].
      rewrite ztake_all by lia. split; [done|]. rewrite zlen_app, (buf_data_len _ I), <- L. by split.
  - exists b. split; [|split; [done|split; [lia|done]]].
    unfold with_buf. rewrite list_insert_id by done. by destruct w.
Qed.

Lemma out_full w s src size :
  w_al w = [] -> 0 <= size <= zlen src -> size <= 300000016 ->
  exists ob, combine_out w s src size
      = Ok (Some (length (w_bufs w)), shell_hton (set_shell_size s size), set_bufs w (w_bufs w ++ [Some ob])) /\
    buf_data ob = shell_mem (shell_hton (set_shell_size s size)) ++ ztake size src.
Proof.
  intros Hal Hs Hm. unfold combine_out. rewrite Hal. unfold sizeof_ep_shell.
  rewrite ep_malloc_plenty by lia. cbn [negb]. rewrite (set_al_nil w) by done.
  set (h := shell_mem _).
  assert (zlen h = 18) as Lh by (unfold h; rewrite wire_bytes; apply zlen_shell_wire).
  assert (zlen (junk (18 + size + 1)) = 18 + size + 1) as Lj by (apply zlen_junk; lia).
  rewrite memcpy_ok by lia. cbn [mbind res_bind]. rewrite ztake_all by lia.
  set (o1 := splice _ 0 h).
  assert (zlen o1 = 18 + size + 1) as Lo by (unfold o1; rewrite zlen_splice; lia).
  rewrite memcpy_ok by lia. cbn [mbind res_bind].
  set (o2 := splice o1 18 _).
  assert (zlen (ztake size src) = size) as Lt by (rewrite zlen_ztake by lia; lia).
  assert (zlen o2 = 18 + size + 1) as Lo2 by (unfold o2; rewrite zlen_splice; lia).
  destruct (buf_new_full w o2 (18 + size) Hal) as (ob & -> & _ & _ & B); [lia|unfold BODY_MAX; lia|].
  cbn [mbind res_bind]. exists ob. split; [done|]. rewrite B. unfold o2.
  rewrite ztake_splice_after by lia. unfold o1. rewrite (ztake_splice_0 _ h 18) by lia. done.
Qed.

Lemma out_step w s src size :
  pool_ok w -> 0 <= size <= zlen src -> size <= 300000016 ->
  exists o w', combine_out w s src size = Ok (Some o, shell_hton (set_shell_size s size), w') /\
    pooled w w' [] /\
    body_of w' (Some o) = shell_mem (shell_hton (set_shell_size s size)) ++ ztake size src.
Proof.
  intros P Hs Hm. destruct (out_full w s src size (po_al _ P) Hs Hm) as (ob & -> & B). eexists _, _. split; [done|].
  split; [by apply pooled_buf|]. cbn. by rewrite list_lookup_middle.
Qed.

Lemma pool_ok_with_buf w a b b' :
  pool_ok w -> w_bufs w !! a = Some (Some b) -> pool_ok (with_buf w a b').
Proof.
  intros [A B D] Ha. constructor; [done|done|]. cbn. eapply Forall_impl; [exact D|]. cbn.
  intros id (k & Hk & Hl). exists k. split; [done|]. destruct (t_in (w_opaque k)); [|done].
  cbn in *. apply live_insert; [by exists b|done].
Qed.

(** How the header and the body on the wire relate to the body [b] the caller passed. *)
Record wraps (cl : bool) (k : ep_aes_key) (b : ep_buffer) (s2 : ep_shell) (b1 b2 : ep_buffer) : Prop := {
  wr_ok : shell_ok s2;
  wr_pack : s_pack_size s2 = buf_used b;
  wr_decrypt : s_decrypt_size s2 = buf_used b1;
  wr_shell : s_shell_size s2 = buf_used b2;
  wr_inv1 : buf_inv b1;
  wr_inv2 : buf_inv b2;
  wr_size : buf_used b2 <= 300000016;
  wr_comp : if comp_of cl s2 =? compress_type_compress
            then exists cap, bz_compress (buf_data b) cap = Some (buf_data b1)
            else buf_data b1 = buf_data b;
  wr_crypt : sealed k (crypt_of cl s2) b1 b2;
}.

Lemma combine_full w fd s a b k :
  w_al w = [] -> w_bufs w !! a = Some (Some b) -> buf_inv b -> buf_used b <= 268435455 ->
  shell_ok s -> 16 <= zlen beyond -> ep_io_get_aes w fd = Ok (Some k) ->
  exists s2 b1 b2 ob, ep_io_combine_shell beyond w fd s (Some a)
      = Ok (Some (length (w_bufs w)), shell_hton s2, set_bufs (with_buf w a b2) (<[a := Some b2]> (w_bufs w) ++ [Some ob])) /\
    buf_data ob = shell_wire s2 ++ buf_data b2 /\ wraps (is_client w) k b s2 b1 b2 /\
    same_head s s2.
Proof.
  intros Hal Ha I Hs Oks Hb Hk. unfold ep_io_combine_shell, h_load. rewrite Ha. cbn [mbind res_bind].
  pose proof (bi_used _ I) as Hu.
  fold (crypt_of (is_client w) (set_pack_size s (ep_buffer_size b))).
  destruct (compress_step w (set_pack_size s (ep_buffer_size b)) a b) as
    (s1 & b1 & -> & I1 & U1 & Ok1 & M1 & P1 & C1 & D1);
    [done|done|done|done|destruct Oks; constructor; cbn; unfold is_i32, ep_buffer_size; done || lia|].
  cbn [mbind res_bind]. rewrite (with_buf_lookup w a b) by done. cbn [mbind res_bind].
  destruct (crypt_step (with_buf w a b1) fd (crypt_of (is_client w) (set_pack_size s (ep_buffer_size b))) a b1 k)
    as (b2 & -> & I2 & U2 & S2); [done|by apply (with_buf_lookup w a b)|done|done|done|done|].
  cbn [mbind res_bind]. rewrite with_buf_twice, (with_buf_lookup w a b) by done. cbn [mbind res_bind].
  pose proof (bi_used _ I1) as Hu1. pose proof (bi_used _ I2) as Hu2.
  destruct (out_full (with_buf w a b2) (set_decrypt_size s1 (ep_buffer_size b1)) (ep_buffer_ptr b2)
    (ep_buffer_size b2)) as (ob & -> & B);
    [done|unfold ep_buffer_ptr, ep_buffer_size; lia|done|].
  set (s2 := set_shell_size _ _) in *.
  exists s2, b1, b2, ob. split; [cbn [w_bufs with_buf set_bufs]; by rewrite length_insert|]. rewrite B, wire_bytes. split; [done|]. split; [|done].
  constructor; try done.
  - destruct Ok1. constructor; cbn; unfold is_i32, ep_buffer_size; done || lia.
  - by rewrite <- C1 in S2.
Qed.

Lemma combine_spec w fd s a b k :
  pool_ok w -> w_bufs w !! a = Some (Some b) -> buf_inv b -> buf_used b <= 268435455 ->
  shell_ok s -> 16 <= zlen beyond -> ep_io_get_aes w fd = Ok (Some k) ->
  exists o s2 b1 b2 w', ep_io_combine_shell beyond w fd s (Some a) = Ok (Some o, shell_hton s2, w') /\
    body_of w' (Some o) = shell_wire s2 ++ buf_data b2 /\ wraps (is_client w) k b s2 b1 b2 /\
    s_magic s2 = s_magic s.
Proof.
  intros P Ha I Hs Oks Hb Hk. destruct (combine_full w fd s a b k (po_al _ P) Ha I Hs Oks Hb Hk) as (s2 & b1 & b2 & ob & -> & B & Wr & M & _).
  eexists _, s2, b1, b2, _. split; [done|]. split; [|done]. cbn. rewrite <- (length_insert (w_bufs w) a (Some b2)), list_lookup_middle by done. exact B.
Qed.

Lemma recombine_full w fd s2 a b b1 b2 b3 k :
  w_al w = [] -> w_bufs w !! a = Some (Some b3) -> buf_inv b3 -> buf_data b3 = buf_data b2 ->
  buf_inv b -> wraps (negb (is_client w)) k b s2 b1 b2 ->
  16 <= zlen beyond -> ep_io_get_aes w fd = Ok (Some k) ->
  exists b5, ep_io_recombine_original beyond w fd s2 (Some a) = Ok (Some a, with_buf w a b5) /\
    buf_inv b5 /\ buf_data b5 = buf_data b.
Proof.
  intros Hal Ha I3 D3 I Wr Hb Hk. destruct Wr as [_ Pk Dc _ I1 I2 _ Cp Cr].
  pose proof (buf_data_len _ I3) as L3. pose proof (buf_data_len _ I2) as L2.
  pose proof (buf_data_len _ I1) as L1. pose proof (buf_data_len _ I) as L0.
  pose proof (bi_used _ I1) as U1.
  unfold ep_io_recombine_original.
  replace (if is_client w then p_s_compress (s_proto s2) else p_c_compress (s_proto s2))
    with (comp_of (negb (is_client w)) s2) by (by destruct (is_client w)).
  replace (if is_client w then p_s_crypt (s_proto s2) else p_c_crypt (s_proto s2))
    with (crypt_of (negb (is_client w)) s2) by (by destruct (is_client w)).
  (* after the decryption step the buffer holds the data of b1 *)
  assert (exists b4, (if crypt_of (negb (is_client w)) s2 =? crypt_type_encrypt then
       k ← ep_io_get_aes w fd;
       match k with
       | None => Ok (true, None, w)
       | Some aes =>
           b ← h_load (w_bufs w) a;
           '(b, _, al) ← ep_buffer_decrypt (w_al w) beyond b aes (s_decrypt_size s2);
           '(r, w) ← buf_put w a b al;
           Ok (bool_decide (r = None), r, w)
       end
     else Ok (false, Some a, w)) = Ok (false, Some a, with_buf w a b4) /\
     buf_inv b4 /\ buf_data b4 = buf_data b1) as (b4 & -> & I4 & D4).
  { unfold sealed in Cr. destruct (_ =? crypt_type_encrypt).
    - destruct Cr as (pad & Ec & Hm & Hu). rewrite Hk. cbn [mbind res_bind]. unfold h_load.
      rewrite Ha. cbn [mbind res_bind]. rewrite Hal, Dc.
      assert (buf_used b3 = zlen (buf_data b1 ++ pad)) as Hu3 by congruence.
      pose proof (zlen_nonneg pad). rewrite zlen_app in Hu3.
      destruct (decrypt_spec beyond b3 k (buf_data b1 ++ pad) (buf_used b1)) as (b4 & k' & -> & I4 & U4 & D4);
        [done|done|done|by rewrite zlen_app|by rewrite D3|rewrite zlen_app; lia|apply I1|].
      cbn [mbind res_bind]. rewrite (buf_put_ok w a b3) by done. cbn [mbind res_bind].
      exists b4. split; [done|]. split; [done|]. rewrite D4. by apply ztake_app_l.
    - exists b3. split; [|split; [done|by rewrite D3, Cr]].
      do 3 f_equal. unfold with_buf. rewrite list_insert_id by done. by destruct w. }
  cbn [mbind res_bind]. destruct (_ =? compress_type_compress).
  - destruct Cp as [cap Ec]. unfold h_load. rewrite (with_buf_lookup w a b3) by done. cbn [mbind res_bind].
    change (w_al (with_buf w a b4)) with (w_al w). rewrite Hal, Pk, <- L0.
    destruct (decompress_spec b4 (buf_data b) cap) as (b5 & -> & I5 & D5 & U5);
      [done|by rewrite D4|rewrite L0; destruct I; lia|].
    cbn [mbind res_bind]. rewrite (buf_put_ok _ a b4) by (done || by apply (with_buf_lookup w a b3)).
    exists b5. rewrite with_buf_twice. by split.
  - exists b4. split; [done|]. split; [done|]. congruence.
Qed.

Lemma recombine_spec w fd s2 a b b1 b2 b3 k :
  w_al w = [] -> w_bufs w !! a = Some (Some b3) -> buf_inv b3 -> buf_data b3 = buf_data b2 ->
  buf_inv b -> wraps (negb (is_client w)) k b s2 b1 b2 ->
  16 <= zlen beyond -> ep_io_get_aes w fd = Ok (Some k) ->
  exists w', ep_io_recombine_original beyond w fd s2 (Some a) = Ok (Some a, w') /\
    body_of w' (Some a) = buf_data b.
Proof.
  intros Hal Ha I3 D3 I Wr Hb Hk. destruct (recombine_full w fd s2 a b b1 b2 b3 k) as (b5 & -> & _ & D); [done..|].
  eexists. split; [done|]. cbn [body_of]. by rewrite (with_buf_lookup w a b3).
Qed.

(** The bytes of one message are one frame. *)
Lemma parse_one max s2 body :
  shell_ok s2 -> s_magic s2 = EP_MAGIC_NUMBER -> s_shell_size s2 = zlen body -> zlen body <= max ->
  parse 2 max None (shell_wire s2 ++ body) = ([mk_frame s2 body], PHeader, []).
Proof.
  intros Ok Hm Hs Hmax. destruct (shell_rt s2 Ok) as (_ & L & R). unfold sizeof_ep_shell in L.
  pose proof (zlen_nonneg body). cbn [parse]. unfold parse_header at 1, sizeof_ep_shell.
  rewrite zlen_app. destruct (Z.ltb_spec (zlen (shell_wire s2) + zlen body) 18); [lia|].
  rewrite ztake_app_l, zdrop_app_l by lia. rewrite R, Hm, Hs. rewrite Z.eqb_refl. cbn [negb].
  case_zbool. rewrite ztake_all, zdrop_all by lia. done.
Qed.

End bodies.

(** ** A header that declares a negative size *)

Section negative.
Context {W : Type}.

(** A ring whose 18 pending bytes are the header [h]. *)
Record holds_header (rb : ep_rb) (h : list Z) : Prop := {
  hh_head : rb_head rb = 0;
  hh_tail : rb_tail rb = 18;
  hh_wrap : rb_wrap rb = 0;
  hh_cap : 18 < rb_capacity rb;
  hh_len : zlen (rb_buffer rb) = rb_capacity rb;
  hh_bytes : ztake 18 (rb_buffer rb) = h;
}.

Definition rb_set_head (rb : ep_rb) (z : Z) : ep_rb :=
  mk_rb (rb_buffer rb) z (rb_tail rb) (rb_wrap rb) (rb_capacity rb) (rb_limit rb)
    (rb_retval_buffer rb) (rb_retval_size rb).

(** Reading the header moves the head to 18, and reading -18 bytes moves it back to 0. *)
Lemma read_back al rb h :
  holds_header rb h ->
  ep_rb_can_read rb = 18 /\
  ep_rb_read al rb 18 = Ok (18, RbBuffer 0, rb_set_head rb 18, al) /\
  rb_load (rb_set_head rb 18) (RbBuffer 0) 18 = Ok h /\ ep_rb_can_read (rb_set_head rb 18) = 0 /\
  exists p, ep_rb_read al (rb_set_head rb 18) (-18) = Ok (-18, p, rb, al).
Proof.
  intros [Hh Ht Hw Hc Hl Hb].
  assert (ep_rb_can_read rb = 18) as E1 by (unfold ep_rb_can_read; rewrite Hh, Ht; case_zbool; lia).
  assert (ep_rb_can_read (rb_set_head rb 18) = 0) as E2
    by (unfold ep_rb_can_read; cbn; rewrite Ht, Hw; done).
  split; [done|]. split; [|split; [|split; [done|]]].
  - unfold ep_rb_read. rewrite E1. change (min_int 18 18) with 18. cbn [Z.eqb].
    change (18 =? 0) with false. cbv iota. rewrite Hh. case_zbool. rewrite c_rem_nonneg by lia.
    cbn [mbind res_bind]. rewrite Z.mod_small by lia. unfold rb_set_head. done.
  - cbn. rewrite slice_ok by (cbn; lia). cbn. rewrite zdrop_0, Hb. done.
  - unfold ep_rb_read. rewrite E2. change (min_int (-18) 0) with (-18).
    change (-18 =? 0) with false. cbv iota. cbn [rb_capacity rb_head rb_set_head]. case_zbool.
    unfold c_rem. case_zbool. cbn [mbind res_bind]. change (18 + -18) with 0. rewrite Z.rem_0_l by lia.
    eexists. f_equal. f_equal. f_equal. destruct rb; cbn in *. by subst.
Qed.

Lemma negative_loop fuel : forall (w : world W) fd child h,
  holds_header (io_recv child) h -> io_b_shell_cached child = 0 ->
  s_magic (shell_ntoh (mem_shell h)) = EP_MAGIC_NUMBER -> s_shell_size (shell_ntoh (mem_shell h)) = -18 ->
  0 <= mg_max_capacity (w_mgr w) ->
  enqueue_loop fuel w fd child = Fault OutOfFuel.
Proof.
  induction fuel as [|fuel IH]; intros w fd child h Hh Hc Hm Hs Hmax; [done|]. cbn [enqueue_loop].
  destruct (read_back (w_al w) _ _ Hh) as (E1 & E2 & E3 & E4 & p & E5).
  rewrite Hc, E1. unfold sizeof_ep_shell. change ((0 =? 0) && (18 <? 18)) with false. cbv iota.
  change (0 =? 0) with true. cbv iota. rewrite E2. cbn [mbind res_bind]. rewrite E3. cbn [mbind res_bind].
  cbn [io_shell io_set_shell io_recv io_set_recv]. rewrite Hm, Hs, Z.eqb_refl. cbn [negb].
  change (mg_max_capacity (w_mgr (set_al w (w_al w)))) with (mg_max_capacity (w_mgr w)).
  rewrite E4. change (0 <? -18) with false. change (negb (-18 =? 0)) with true. cbv iota.
  destruct (Z.ltb_spec (mg_max_capacity (w_mgr w)) (-18)); [lia|].
  change (w_al (set_al w (w_al w))) with (w_al w). rewrite E5. cbn [mbind res_bind].
  unfold buf_new, ep_buffer_new. change (ep_align_size (-18) 16) with (-16).
  destruct (ep_calloc _ 1 sizeof_ep_buffer) as [ok al1]. destruct ok; cbn [negb].
  - unfold ep_malloc. change (-16 <=? 0) with true. cbn [negb mbind res_bind].
    eapply IH; [exact Hh|done|exact Hm|exact Hs|].
    unfold ep_io_request_dispatcher. destruct (ep_calloc _ 1 sizeof_ep_io_task) as [ok2 al2].
    destruct ok2; cbn [negb]; [|done]. destruct (ep_tp_worker_register _ _ _ _ _ _) as [[[? ?] ?] ?]. done.
  - cbn [mbind res_bind]. eapply IH; [exact Hh|done|exact Hm|exact Hs|].
    unfold ep_io_request_dispatcher. destruct (ep_calloc _ 1 sizeof_ep_io_task) as [ok2 al2].
    destruct ok2; cbn [negb]; [|done]. destruct (ep_tp_worker_register _ _ _ _ _ _) as [[[? ?] ?] ?]. done.
Qed.

(** The write of a header into the ring of a new connection. *)
Lemma header_written cap lim rb al h :
  18 < cap -> zlen h = 18 -> ep_rb_new [] cap lim = (Some rb, []) ->
  exists rb', ep_rb_write al rb h 18 = Ok (18, rb', al) /\ holds_header rb' h.
Proof.
  intros Hc Hh E. unfold ep_rb_new in E. rewrite ep_calloc_plenty in E by (unfold sizeof_ep_rb; lia).
  cbn [negb] in E. rewrite ep_malloc_plenty in E by lia. cbn [negb] in E. injection E as <-.
  unfold ep_rb_write, ep_rb_expand_limit. cbn [rb_capacity].
  change (ep_rb_can_read (mk_rb (zeros cap) 0 0 0 cap lim None 0)) with 0.
  case_zbool. cbn [mbind res_bind].
  assert (min_int 18 (ep_rb_can_write (mk_rb (zeros cap) 0 0 0 cap lim None 0)) = 18) as ->.
  { unfold ep_rb_can_write. change (ep_rb_can_read (mk_rb (zeros cap) 0 0 0 cap lim None 0)) with 0.
    cbn [rb_capacity rb_limit]. rewrite min_int_spec. case_zbool; lia. }
  change (18 =? 0) with false. cbv iota. unfold rb_store. cbn [rb_capacity rb_tail rb_buffer rb_head].
  rewrite min_int_spec, Z.min_l by lia. pose proof (zlen_zeros cap ltac:(lia)) as Lz.
  rewrite memcpy_ok by lia. cbn [mbind res_bind]. rewrite ztake_all by lia.
  rewrite c_rem_nonneg by lia. cbn [mbind res_bind]. rewrite Z.mod_small by lia.
  change (18 <? 18) with false. cbn [mbind res_bind]. change (0 =? 0 + 18) with false.
  eexists. split; [done|]. constructor; cbn [rb_head rb_tail rb_wrap rb_capacity rb_buffer]; try done.
  - rewrite zlen_splice; lia.
  - apply ztake_splice_0; lia.
Qed.

End negative.

(** ** Concrete worlds for the witnesses *)

Definition demo_mgr (refor : ep_io_refor) (ios : list nat) : ep_io_mgr unit :=
  mk_mgr refor (mk_disp_mgr []) (mk_queue [] 0) 0 (mk_tp [] 1 0) 64 1024 4096 ios.

Definition demo_io (fd : Z) (items : list nat) : ep_io :=
  mk_io (mk_queue items 0) (mk_rb (zeros 64) 0 0 0 64 1024 None 0) shell_zero 0
    (mk_aes (zeros 16) (zeros 16)) fd 0.

(** One connection with descriptor 5, and one body. *)
Definition demo_world (refor : ep_io_refor) (b : ep_buffer) : world unit :=
  mk_world (demo_mgr refor [0%nat]) [Some (demo_io 5 [])] [Some b] [] tt [].

Definition demo_buf (data : list Z) : ep_buffer := mk_buffer data (zlen data) (zlen data).

Lemma demo_buf_inv data : (0 <? zlen data) && (zlen data <=? BODY_MAX) = true -> buf_inv (demo_buf data).
Proof. intros H. split_bool. constructor; cbn; lia. Qed.

Definition demo_shell (n : Z) : ep_shell := mk_shell EP_MAGIC_NUMBER (mk_proto 7 0 1 2 1 2 0) n n n.

Lemma demo_shell_ok n : is_i32 n -> shell_ok (demo_shell n).
Proof. intros H. constructor; [|constructor|..]; cbn; unfold is_u16, EP_MAGIC_NUMBER; try done; lia. Qed.

Lemma demo_pool_ok refor b : pool_ok (demo_world refor b).
Proof. constructor; done || constructor. Qed.

Lemma demo_rb_inv : rb_inv (mk_rb (zeros 64) 0 0 0 64 1024 None 0).
Proof. constructor; cbn; try done; try lia; by left. Qed.

Lemma demo_conn refor b : conn_at (demo_world refor b) 5 0 (demo_io 5 []).
Proof. constructor; try done. apply demo_rb_inv. Qed.

(** ** Properties *)

(** C1: However the network cuts the stream of a connection into chunks, the requests handed to
    the thread pool are the frames of the stream, in order, each with the header and the body
    that were sent, and no call reports an error: the receiver's loop refines the framing
    specification [parse] of the whole stream. *)
Theorem io_stream_framing {W : Type} (fuel : nat) (w : world W) (fd : Z) (a : nat) (io : ep_io)
    (chunks : list (list Z)) (fs : list frame) (st : pstat) (rest : list Z) :
  conn_at w fd a io -> io_cached io = None -> rb_contents (io_recv io) = [] ->
  pool_ok w -> mg_max_capacity (w_mgr w) <= BODY_MAX ->
  chunks <> [] -> Forall (fun d => zlen d <= mg_max_capacity (w_mgr w)) chunks ->
  rb_capacity (io_recv io) + zlen (concat chunks) <= INT_MAX ->
  (length (concat chunks) < fuel)%nat ->
  parse fuel (mg_max_capacity (w_mgr w)) None (concat chunks) = (fs, st, rest) -> awaits st = true ->
  exists rs w', enqueue_all fuel w fd chunks = Ok (rs, w') /\ Forall (fun r => 0 <= r) rs /\
    queued w' = queued w ++ tagged fd fs.
Proof.
  intros Hc Hn Hr P Hm Hne Hd Hk Hfu E Ha.
  destruct (stream_spec chunks fuel w fd a io fs st rest) as (rs & io' & w' & E' & F & _ & D);
    rewrite ?Hn, ?Hr; try done.
  - cbn [app]. unfold parse_fuel. lia.
  - exists rs, w'. split; [done|]. split; [done|]. apply D.
Qed.

(** A header for 3 bytes, its body, and the start of the next header, cut inside both. *)
Lemma io_stream_framing_witness :
  exists rs w', enqueue_all 30 (demo_world ep_io_refor_server (demo_buf [1])) 5
      [ztake 7 (shell_wire (demo_shell 3)); zdrop 7 (shell_wire (demo_shell 3)) ++ [65]; [66; 67; 144]]
      = Ok (rs, w') /\ Forall (fun r => 0 <= r) rs /\
    queued w' = [] ++ [(5, demo_shell 3, [65; 66; 67])].
Proof.
  refine (io_stream_framing 30 (demo_world ep_io_refor_server (demo_buf [1])) 5 0 (demo_io 5 [])
    _ [mk_frame (demo_shell 3) [65; 66; 67]] PHeader [144] (demo_conn _ _) eq_refl eq_refl
    (demo_pool_ok _ _) _ _ _ _ _ _ _).
  - done.
  - done.
  - repeat constructor; done.
  - done.
  - apply Nat.ltb_lt. vm_compute. reflexivity.
  - vm_compute. reflexivity.
  - reflexivity.
Defined.

(** C9: A body arrives as it was sent, whatever the header asks for: none, forced or automatic
    compression, with or without encryption, from client to server or back. The message the
    sender combines is one frame of the stream, and the receiver, who has the same key,
    recombines the frame's body into the original. *)
Theorem io_body_roundtrip `{CL : CodecLaws} {W : Type} (beyond : list Z) (w1 w2 : world W)
    (fd1 fd2 : Z) (s : ep_shell) (a1 a2 : nat) (b b3 : ep_buffer) (k : ep_aes_key) (max : Z) :
  pool_ok w1 -> pool_ok w2 -> is_client w2 = negb (is_client w1) ->
  w_bufs w1 !! a1 = Some (Some b) -> buf_inv b -> buf_used b <= 268435455 -> max = 300000016 ->
  shell_ok s -> s_magic s = EP_MAGIC_NUMBER -> 16 <= zlen beyond ->
  ep_io_get_aes w1 fd1 = Ok (Some k) -> ep_io_get_aes w2 fd2 = Ok (Some k) ->
  exists o s2 body w1', ep_io_combine_shell beyond w1 fd1 s (Some a1) = Ok (Some o, shell_hton s2, w1') /\
    parse 2 max None (body_of w1' (Some o)) = ([mk_frame s2 body], PHeader, []) /\
    (w_bufs w2 !! a2 = Some (Some b3) -> buf_inv b3 -> buf_data b3 = body ->
     exists w2', ep_io_recombine_original beyond w2 fd2 s2 (Some a2) = Ok (Some a2, w2') /\
       body_of w2' (Some a2) = buf_data b).
Proof.
  intros P1 P2 Hcl Ha I Hs -> Oks Hm Hb K1 K2.
  destruct (combine_spec beyond w1 fd1 s a1 b k) as (o & s2 & b1 & b2 & w1' & E & B & Wr & M); [done..|].
  exists o, s2, (buf_data b2), w1'. split; [done|]. split.
  - rewrite B. pose proof (buf_data_len _ (wr_inv2 _ _ _ _ _ _ Wr)) as L2.
    apply parse_one; [apply Wr|congruence|rewrite L2; apply Wr|rewrite L2; apply Wr].
  - intros Ha2 I3 D3. eapply (recombine_spec beyond w2 fd2 s2 a2 b b1 b2 b3 k); try done; [apply P2|].
    by rewrite Hcl, negb_involutive.
Qed.

Lemma io_body_roundtrip_witness :
  exists o s2 body w1',
    @ep_io_combine_shell toy_codec unit (zeros 16) (demo_world ep_io_refor_client (demo_buf [10; 20; 30])) 5
      (demo_shell 0) (Some 0%nat) = Ok (Some o, shell_hton s2, w1') /\
    parse 2 300000016 None (body_of w1' (Some o)) = ([mk_frame s2 body], PHeader, []) /\
    (w_bufs (demo_world ep_io_refor_server (demo_buf (10 :: 20 :: 30 :: zeros 13))) !! 0%nat
       = Some (Some (demo_buf (10 :: 20 :: 30 :: zeros 13))) ->
     buf_inv (demo_buf (10 :: 20 :: 30 :: zeros 13)) -> buf_data (demo_buf (10 :: 20 :: 30 :: zeros 13)) = body ->
     exists w2', @ep_io_recombine_original toy_codec unit (zeros 16)
         (demo_world ep_io_refor_server (demo_buf (10 :: 20 :: 30 :: zeros 13))) 5 s2 (Some 0%nat)
         = Ok (Some 0%nat, w2') /\
       body_of w2' (Some 0%nat) = [10; 20; 30]).
Proof.
  refine (io_body_roundtrip (zeros 16) (demo_world ep_io_refor_client (demo_buf [10; 20; 30]))
    (demo_world ep_io_refor_server (demo_buf (10 :: 20 :: 30 :: zeros 13))) 5 5 (demo_shell 0) 0 0
    (demo_buf [10; 20; 30]) (demo_buf (10 :: 20 :: 30 :: zeros 13)) (mk_aes (zeros 16) (zeros 16))
    300000016 (demo_pool_ok _ _) (demo_pool_ok _ _) eq_refl eq_refl _ _ eq_refl
    (demo_shell_ok 0 _) eq_refl _ eq_refl eq_refl).
  - by apply demo_buf_inv.
  - done.
  - unfold is_i32. lia.
  - done.
Defined.

(** C34: One header of 18 bytes stops a server. When the first bytes of a new connection are a
    header that declares the size -18, the size test passes, the read of -18 bytes moves the ring
    back to the header just read, and the loop of ep_io_enqueue starts over with the same bytes, for
    ever: no amount of fuel is enough, whatever the allocator answers. *)
Theorem io_negative_size_hangs {W : Type} (fuel : nat) (w : world W) (fd : Z) (a : nat) (io : ep_io)
    (cap lim : Z) (rb : ep_rb) (s : ep_shell) :
  ep_io_find w fd = Ok (Some a) -> w_ios w !! a = Some (Some io) -> io_b_shell_cached io = 0 ->
  ep_rb_new [] cap lim = (Some rb, []) -> io_recv io = rb -> 18 < cap ->
  0 <= mg_max_capacity (w_mgr w) ->
  shell_ok s -> s_magic s = EP_MAGIC_NUMBER -> s_shell_size s = -18 ->
  ep_io_enqueue fuel w fd (shell_wire s) 18 = Fault OutOfFuel.
Proof.
  intros Hf Ha Hc Hn Hr Hcap Hmax Oks Hm Hs. destruct (shell_rt s Oks) as (_ & L & R).
  destruct (header_written cap lim rb (w_al w) (shell_wire s) Hcap L Hn) as (rb' & Ew & Hh).
  unfold ep_io_enqueue, h_load. rewrite Hf. cbn [mbind res_bind]. rewrite Ha. cbn [mbind res_bind].
  rewrite Hr, Ew. cbn [mbind res_bind]. change (18 <? 18) with false. cbv iota.
  rewrite (negative_loop fuel _ fd _ (shell_wire s)); [done|exact Hh|exact Hc|by rewrite R|by rewrite R|done].
Qed.

Lemma io_negative_size_hangs_witness :
  ep_io_enqueue 1000 (demo_world ep_io_refor_server (demo_buf [1])) 5 (shell_wire (demo_shell (-18))) 18
  = Fault OutOfFuel.
Proof.
  apply (io_negative_size_hangs 1000 _ 5 0 (demo_io 5 []) 64 1024
    (mk_rb (zeros 64) 0 0 0 64 1024 None 0) (demo_shell (-18))); try reflexivity; try lia.
  - cbn. lia.
  - apply demo_shell_ok. unfold is_i32. lia.
Defined.

(** Two connections, and a body for both. *)
Definition demo_two (b : ep_buffer) : world unit :=
  mk_world (demo_mgr ep_io_refor_server [0%nat; 1%nat])
    [Some (demo_io 5 []); Some (demo_io 6 [])] [Some b] [] tt [].

(** A message to all connections is pushed to every queue as the same buffer, and the sender
    frees the buffer after the first connection: with two connections, the second round of the
    sender thread reads the freed buffer. *)
Theorem notify_all_use_after_free (b : ep_buffer) (send : world unit -> Z -> list Z -> Z -> res (Z * world unit))
    (send_err : world unit -> Z -> res (world unit)) :
  buf_inv b -> (forall w fd data extra, exists n, send w fd data extra = Ok (n, w) /\ 0 < n) ->
  exists w1 w2, ep_io_nodify_fd (demo_two b) 5 0 0 = Ok (2, w1) /\
    ep_io_routine_round send send_err 2 w1 = Ok (RNext, w2) /\
    ep_io_routine_round send send_err 2 w2 = Fault UseAfterFree.
Proof.
  intros [Hu _] Hsend. eexists. eexists. split; [reflexivity|]. split.
  - unfold ep_io_routine_round. cbn -[slice Z.leb].
    rewrite slice_ok by (unfold ep_buffer_size; lia). cbn -[Z.leb].
    match goal with |- context [send ?w ?fd ?d ?e] => destruct (Hsend w fd d e) as (n & -> & Hn) end.
    cbn -[Z.leb]. destruct (Z.leb_spec n 0); [lia|]. cbn. reflexivity.
  - reflexivity.
Qed.

Lemma notify_all_use_after_free_witness :
  exists w1 w2, ep_io_nodify_fd (demo_two (demo_buf [1; 2])) 5 0 0 = Ok (2, w1) /\
    ep_io_routine_round (fun w _ d _ => Ok (zlen d + 1, w)) (fun w _ => Ok w) 2 w1 = Ok (RNext, w2) /\
    ep_io_routine_round (fun w _ d _ => Ok (zlen d + 1, w)) (fun w _ => Ok w) 2 w2 = Fault UseAfterFree.
Proof.
  apply (notify_all_use_after_free (demo_buf [1; 2])).
  - by apply demo_buf_inv.
  - intros w fd data extra. exists (zlen data + 1). pose proof (zlen_nonneg data). split; [done|lia].
Defined.

(** A connection that is deleted while the sender's queue still names it is read after it
    was freed: ep_io_del frees the connection and leaves its pointer in the queue. *)
Theorem io_del_use_after_free (b : ep_buffer) (send : world unit -> Z -> list Z -> Z -> res (Z * world unit))
    (send_err : world unit -> Z -> res (world unit)) :
  exists w1 w2, processor_reply (demo_world ep_io_refor_server b) 5 0 = Ok w1 /\
    ep_io_del w1 5 = Ok (1, w2) /\
    ep_io_routine_round send send_err 2 w2 = Fault UseAfterFree.
Proof. eexists. eexists. split; [reflexivity|]. split; reflexivity. Qed.

End IoSpec.
