(* ===== verification/Request.v ===== *)
(** * Request: the requests of a client (eventpack/src/ep_request.c)

    A request registers a callback for its category, sends its packet, and waits for what the
    callback queues. The handles are heap objects, because the registry keeps pointers to them. The
    client is its connection manager ([Io]) whose callbacks work on the heap of handles; the
    allocations of the thread that dispatches are a script of their own. *)
From stdpp Require Import gmap.
From S2P Require Import Prelude Alloc Queue Words Buffer Dispatch ThreadPool Bson Packet Io IoSpec.
Import Alloc Queue Words Buffer Dispatch ThreadPool Bson Packet Io IoSpec.

Module Request.

Inductive ep_client_disc : Set := ep_disc_socket_close | ep_disc_bad_request | ep_disc_capacity_overflow | ep_disc_user_abort.

(** [rq_req] is never set: [ep_calloc] leaves it 0. *)
Record ep_req := mk_req { rq_category : Z; rq_req : Z; rq_queue : option (ep_queue (option ep_pack)) }.

Record ep_req_param := mk_param {
  pr_type : Z;
  pr_category : Z;
  pr_c_crypt : Z;
  pr_c_compress : Z;
  pr_s_crypt : Z;
  pr_s_compress : Z;
  pr_pack : option ep_pack;
}.

Definition sizeof_ep_req : Z := 24.

(** What the callbacks work on. *)
Record requests := mk_requests { rs_handles : heap ep_req; rs_al : alloc }.
Definition cstate : Type := res requests.

Definition set_queue (h : ep_req) q : ep_req := mk_req (rq_category h) (rq_req h) q.

Definition req_push (r : requests) (a : nat) (pack : option ep_pack) : res requests :=
  h ← h_load (rs_handles r) a;
  let '(_, q, al) := ep_queue_push (rs_al r) (rq_queue h) pack in
  hs ← h_store (rs_handles r) a (set_queue h q);
  Ok (mk_requests hs al).

(** The opaque pointer of the callback is the handle at [a]; the packet is not reclaimed. *)
Definition ep_req_default_dispatcher (a : nat) : pfn_ep_cb ep_pack cstate :=
  fun s fd pack => (None, false, r ← s; req_push r a pack).

(** The client: its descriptor, the limit of its configuration, its manager, and the calls of
    [disc_cb], if one was set. *)
Record client := mk_client {
  cl_fd : Z;
  cl_io_max_capacity : Z;
  cl_io : world cstate;
  cl_disc_cb : bool;
  cl_disc : list ep_client_disc;
}.

Definition set_io (c : client) w : client := mk_client (cl_fd c) (cl_io_max_capacity c) w (cl_disc_cb c) (cl_disc c).
Definition disconnected (c : client) (t : ep_client_disc) : client :=
  mk_client (cl_fd c) (cl_io_max_capacity c) (cl_io c) (cl_disc_cb c) (if cl_disc_cb c then cl_disc c ++ [t] else cl_disc c).

Definition set_disp (w : world cstate) (m : ep_disp_mgr ep_pack cstate) : world cstate :=
  let g := w_mgr w in
  set_mgr w (mk_mgr (mg_refor g) m (mg_send_queue g) (mg_send_abort g) (mg_pool g) (mg_def_capacity g)
    (mg_max_capacity g) (mg_mini_compress_if g) (mg_io_list g)).

Section request.
Context `{C : Codec} (beyond : list Z).

(** [ep_queue_destroy] and [ep_free] of the handle at [a]. *)
Definition req_free (w : world cstate) (a : nat) : res (world cstate) :=
  rs ← w_cb w;
  h ← h_load (rs_handles rs) a;
  let '(_, _) := ep_queue_destroy (rq_queue h) in
  hs ← h_free (rs_handles rs) a;
  Ok (set_cb w (Ok (mk_requests hs (rs_al rs)))).

Definition req_shell (p : ep_req_param) : ep_shell :=
  mk_shell EP_MAGIC_NUMBER
    (mk_proto (pr_category p) (pr_type p) (pr_c_crypt p) (pr_c_compress p) (pr_s_crypt p) (pr_s_compress p) 0) 0 0 0.

(** The message of a packet, or [None] for a failure. *)
Definition frame_pack {W} (w : world W) (fd : Z) (s : ep_shell) (pack : option ep_pack) : res (option nat * world W) :=
  '(stop, buffer, w) ←
    match pack with
    | Some k =>
        k ← ep_pack_finish k; n ← ep_pack_size k;
        '(b, w) ← buf_new w (ep_pack_data k) n; Ok (bool_decide (b = None), b, w)
    | None => Ok (false, None, w)
    end;
  if stop : bool then Ok (None, w) else
  '(shellbuf, _, w) ← ep_io_combine_shell beyond w fd s buffer;
  w ← buf_free w buffer;
  Ok (shellbuf, w).

(** The message is queued for the connection; [false] is a failure. *)
Definition req_send (w : world cstate) (fd : Z) (p : ep_req_param) (pack : option ep_pack) : res (bool * world cstate) :=
  '(shellbuf, w) ← frame_pack w fd (req_shell p) pack;
  match shellbuf with
  | None => Ok (false, w)
  | Some sb => '(ret, w) ← ep_io_nodify_fd w fd 1 sb; Ok (negb (ret =? 0), w)
  end.

(** The handle, the result and the client. A failure after the registration frees the handle and
    leaves the registration. *)
Definition ep_req_new (c : option client) (p : ep_req_param) : res (option nat * Z * option client) :=
  match c with
  | None => Ok (None, -1, None)
  | Some c =>
      if cl_fd c =? -1 then Ok (None, -1, Some c) else
      '(pack, pack_size) ←
        match pr_pack p with
        | Some k => k ← ep_pack_finish k; n ← ep_pack_size k; Ok (Some k, n)
        | None => Ok (None, 0)
        end;
      if cl_io_max_capacity c <? pack_size then Ok (None, -1, Some (disconnected c ep_disc_capacity_overflow)) else
      let w := cl_io c in
      let '(ok, al) := ep_calloc (w_al w) 1 sizeof_ep_req in
      if negb ok then Ok (None, -1, Some (set_io c (set_al w al))) else
      let '(q, al) := ep_queue_new al in
      rs ← w_cb w;
      let '(a, hs) := h_alloc (rs_handles rs) (mk_req (pr_category p) 0 q) in
      let '(ret, m, al) := ep_disp_add_cb al (mg_disp (w_mgr w)) (pr_category p) (ep_req_default_dispatcher a) in
      let w := set_disp (set_al (set_cb w (Ok (mk_requests hs (rs_al rs)))) al) m in
      if ret =? 0 then w ← req_free w a; Ok (None, -2, Some (set_io c w)) else
      '(sent, w) ← req_send w (cl_fd c) p pack;
      if sent : bool then Ok (Some a, 0, Some (set_io c w)) else
      w ← req_free w a; Ok (None, -1, Some (set_io c w))
  end.

(** ** Waiting *)

Inductive wait_step : Type := WRet (ret : Z) (pack : option ep_pack) (c : client) | WWait (deadline : option (Z * Z)).

Definition wait_result (c : client) (rs : requests) (h : ep_req) (a : nat) (ret : Z) (body : option (option ep_pack))
    (q : ep_queue (option ep_pack)) : res (Z * option ep_pack * client) :=
  hs ← h_store (rs_handles rs) a (set_queue h (Some q));
  Ok (if ret =? 1 then 1 else 0, default None body, set_io c (set_cb (cl_io c) (Ok (mk_requests hs (rs_al rs))))).

(** To the wait, or to the end. *)
Definition ep_req_wait_enter (c : client) (a : nat) (timeout sec usec : Z) : res wait_step :=
  rs ← w_cb (cl_io c);
  h ← h_load (rs_handles rs) a;
  if rq_req h =? req_type_post then Ok (WRet 2 None c) else
  match rq_queue h with
  | None => Ok (WRet 0 None c)
  | Some q =>
      match ep_queue_get_enter q timeout sec usec with
      | GetRet ret body q => '(r, k, c) ← wait_result c rs h a ret body q; Ok (WRet r k c)
      | GetWait d => Ok (WWait d)
      end
  end.

(** From the end of the wait, [wait_r] what the condition variable answered. *)
Definition ep_req_wait_wake (c : client) (a : nat) (wait_r : Z) : res (Z * option ep_pack * client) :=
  rs ← w_cb (cl_io c);
  h ← h_load (rs_handles rs) a;
  match rq_queue h with
  | None => Fault NullDeref
  | Some q => let '(ret, body, q) := ep_queue_get_wake q wait_r in wait_result c rs h a ret body q
  end.

(** ** Destruction *)

Definition ep_req_destroy (c : client) (a : nat) : res client :=
  let w := cl_io c in
  rs ← w_cb w;
  h ← h_load (rs_handles rs) a;
  let w := (if negb (cl_fd c =? -1) then set_disp w (ep_disp_del (mg_disp (w_mgr w)) (rq_category h)).2 else w) in
  h ← (match rq_queue h with
       | None => Ok h
       | Some q =>
           match ep_queue_get_enter q 0 0 0 with
           | GetRet _ _ q => Ok (set_queue h (Some q))
           | GetWait _ => Fault Blocked
           end
       end);
  hs ← h_store (rs_handles rs) a h;
  w ← req_free (set_cb w (Ok (mk_requests hs (rs_al rs)))) a;
  Ok (set_io c w).

(** ** What arrives: the dispatcher of the client is called with a response *)

Definition respond (c : client) (category fd : Z) (pack : option ep_pack) : bool * client :=
  let w := cl_io c in
  let '(_, reclaimed, s) := ep_disp_processor (w_cb w) (mg_disp (w_mgr w)) category fd pack in
  (reclaimed, set_io c (set_cb w s)).

End request.

(** ** The specification: a queue of responses for each request in flight *)

(** The requests by handle, each with its category and the responses it has not taken; what was
    handed to the connection; the disconnections reported. *)
Record flight := mk_flight {
  fl_next : nat;
  fl_pend : gmap nat (Z * list (option ep_pack));
  fl_sent : list (ep_req_param * option (list Z));
  fl_disc : list ep_client_disc;
}.

Inductive req_op : Type :=
  | RNew (p : ep_req_param)
  | RWait (a : nat) (timeout sec usec : Z)
  | RWake (a : nat) (wait_r : Z)
  | RDestroy (a : nat)
  | RResponse (category fd : Z) (pack : option ep_pack).

Inductive req_out : Type :=
  | ONew (a : option nat) (result : Z)
  | OWait (ret : Z) (pack : option ep_pack)
  | OBlocked (deadline : option (Z * Z))
  | ODone
  | OResponse (reclaimed : bool).

Definition busy (base : gset Z) (s : flight) (category : Z) : Prop :=
  category ∈ base \/ map_Exists (fun _ x => x.1 = category) (fl_pend s).

#[global] Instance busy_dec base s category : Decision (busy base s category).
Proof. unfold busy. apply _. Defined.

Definition set_pend (s : flight) x : flight := mk_flight (fl_next s) x (fl_sent s) (fl_disc s).

(** The bytes of the packet of a request once it is finished. *)
Definition pack_bytes (p : ep_req_param) : option (list Z) :=
  match pr_pack p with
  | None => None
  | Some k => match ep_pack_finish k with
              | Ok k => match ep_pack_size k with Ok n => Some (ztake n (ep_pack_data k)) | Fault _ => None end
              | Fault _ => None
              end
  end.

Definition pack_len (p : ep_req_param) : Z := from_option zlen 0 (pack_bytes p).

Section spec.
Context (base : gset Z) (limit : Z) (disc_cb : bool).

Definition spec_new (s : flight) (p : ep_req_param) : req_out * flight :=
  if limit <? pack_len p then
    (ONew None (-1), mk_flight (fl_next s) (fl_pend s) (fl_sent s)
       (if disc_cb then fl_disc s ++ [ep_disc_capacity_overflow] else fl_disc s))
  else if decide (busy base s (pr_category p)) then
    (ONew None (-2), mk_flight (S (fl_next s)) (fl_pend s) (fl_sent s) (fl_disc s))
  else
    (ONew (Some (fl_next s)) 0,
     mk_flight (S (fl_next s)) (<[fl_next s := (pr_category p, [])]> (fl_pend s))
       (fl_sent s ++ [(p, pack_bytes p)]) (fl_disc s)).

(** The oldest response, or [empty] when there is none. *)
Definition spec_take (s : flight) (a : nat) (empty : req_out) : option (req_out * flight) :=
  match fl_pend s !! a with
  | None => None
  | Some (_, []) => Some (empty, s)
  | Some (c, r :: l) => Some (OWait 1 r, set_pend s (<[a := (c, l)]> (fl_pend s)))
  end.

(** [None] is the use of a handle that is not there. *)
Definition spec_step (s : flight) (o : req_op) : option (req_out * flight) :=
  match o with
  | RNew p => Some (spec_new s p)
  | RWait a timeout sec usec =>
      spec_take s a (if 0 <? timeout then OBlocked (Some (sec + timeout, usec * 1000))
                     else if timeout =? 0 then OWait 0 None else OBlocked None)
  | RWake a _ => spec_take s a (OWait 0 None)
  | RDestroy a =>
      match fl_pend s !! a with
      | None => None
      | Some _ => Some (ODone, set_pend s (delete a (fl_pend s)))
      end
  | RResponse category _ pack =>
      Some (OResponse (negb (bool_decide (busy ∅ s category)) && bool_decide (is_Some pack)),
            set_pend s ((fun x => if x.1 =? category then (x.1, x.2 ++ [pack]) else x) <$> fl_pend s))
  end.

Fixpoint spec_run (s : flight) (os : list req_op) : option (list req_out * flight) :=
  match os with
  | [] => Some ([], s)
  | o :: os =>
      match spec_step s o with
      | None => None
      | Some (r, s) => match spec_run s os with None => None | Some (rs, s) => Some (r :: rs, s) end
      end
  end.
End spec.

(** The same operations on the client. *)
Section run.
Context `{C : Codec} (beyond : list Z).

Definition req_step (c : client) (o : req_op) : res (req_out * client) :=
  match o with
  | RNew p =>
      '(a, r, c') ← ep_req_new beyond (Some c) p; Ok (ONew a r, default c c')
  | RWait a timeout sec usec =>
      r ← ep_req_wait_enter c a timeout sec usec;
      match r with WRet ret k c => Ok (OWait ret k, c) | WWait d => Ok (OBlocked d, c) end
  | RWake a wait_r => '(ret, k, c) ← ep_req_wait_wake c a wait_r; Ok (OWait ret k, c)
  | RDestroy a => c ← ep_req_destroy c a; Ok (ODone, c)
  | RResponse category fd pack => let '(r, c) := respond c category fd pack in Ok (OResponse r, c)
  end.

Fixpoint req_run (c : client) (os : list req_op) : res (list req_out * client) :=
  match os with
  | [] => Ok ([], c)
  | o :: os => '(r, c) ← req_step c o; '(rs, c) ← req_run c os; Ok (r :: rs, c)
  end.
End run.

(** ** The relation *)

(** A packet that [ep_pack_finish] finishes, with its size in range. *)
Definition packable (k : ep_pack) : Prop :=
  exists k1 n, ep_pack_finish k = Ok k1 /\ ep_pack_finish k1 = Ok k1 /\ ep_pack_size k1 = Ok n /\
    0 < n <= zlen (ep_pack_data k1) /\ n <= 268435455.

Definition param_ok (p : ep_req_param) : Prop :=
  proto_ok (s_proto (req_shell p)) /\ match pr_pack p with None => True | Some k => packable k end.

Definition op_ok (base : gset Z) (o : req_op) : Prop :=
  match o with RNew p => param_ok p | RResponse category _ _ => category ∉ base | _ => True end.

(** The bytes of a request: its header, and its packet compressed and encrypted. *)
Definition framed `{C : Codec} (k : ep_aes_key) (x : ep_req_param * option (list Z)) (bytes : list Z) : Prop :=
  exists s2, same_head (req_shell x.1) s2 /\
    match x.2 with
    | None => bytes = shell_wire s2 /\ s_shell_size s2 = 0 /\ s_pack_size s2 = 0
    | Some data => exists b b1 b2, bytes = shell_wire s2 ++ buf_data b2 /\ wraps true k b s2 b1 b2 /\ buf_inv b /\ buf_data b = data
    end.

Definition handle_of (x : Z * list (option ep_pack)) : ep_req := mk_req x.1 0 (Some (mk_queue x.2 0)).

Record handles_ok (hs : heap ep_req) (next : nat) (pend : gmap nat (Z * list (option ep_pack))) : Prop := {
  ho_len : length hs = next;
  ho_at : forall a, (a < next)%nat -> hs !! a = Some (handle_of <$> pend !! a);
  ho_fresh : forall a, (next <= a)%nat -> pend !! a = None;
}.

(** The registry: the other callbacks of the client, and one for each request in flight. *)
Record registry_ok (base : gset Z) (m : ep_disp_mgr ep_pack cstate) (pend : gmap nat (Z * list (option ep_pack))) : Prop := {
  ro_pend : forall a c l, pend !! a = Some (c, l) -> disp_map m !! c = Some (ep_req_default_dispatcher a) /\ c ∉ base;
  ro_inv : forall c, is_Some (disp_map m !! c) <-> c ∈ base \/ map_Exists (fun _ x => x.1 = c) pend;
  ro_unique : forall a b c l l', pend !! a = Some (c, l) -> pend !! b = Some (c, l') -> a = b;
}.

Record sender_ok `{C : Codec} (w : world cstate) (fd : Z) (ca : nat) (k : ep_aes_key)
    (sent : list (ep_req_param * option (list Z))) : Prop := {
  so_al : w_al w = [];
  so_client : is_client w = true;
  so_list : mg_io_list (w_mgr w) = [ca];
  so_out : exists io, w_ios w !! ca = Some (Some io) /\ io_fd io = fd /\ io_aes io = k /\
    Forall2 (fun x b => exists ob, w_bufs w !! b = Some (Some ob) /\ framed k x (buf_data ob)) sent (q_items (io_send io));
}.

Record in_flight `{C : Codec} (base : gset Z) (c : client) (ca : nat) (k : ep_aes_key) (s : flight) : Prop := {
  if_fd : cl_fd c <> -1;
  if_sender : sender_ok (cl_io c) (cl_fd c) ca k (fl_sent s);
  if_handles : exists hs, w_cb (cl_io c) = Ok (mk_requests hs []) /\ handles_ok hs (fl_next s) (fl_pend s);
  if_registry : registry_ok base (mg_disp (w_mgr (cl_io c))) (fl_pend s);
  if_disc : cl_disc c = fl_disc s;
}.

(** ** Lemmas: handles *)

Lemma handles_load hs next pend a x : handles_ok hs next pend -> pend !! a = Some x -> hs !! a = Some (Some (handle_of x)).
Proof.
  intros [L A F] H. destruct (decide (a < next)%nat) as [Hl|Hl]; [by rewrite A, H|].
  rewrite F in H by lia. done.
Qed.

Lemma handles_missing hs next pend a : handles_ok hs next pend -> pend !! a = None -> exists f, h_load hs a = Fault f.
Proof.
  intros [L A F] H. unfold h_load. destruct (decide (a < next)%nat) as [Hl|Hl].
  - rewrite A, H by done. by exists UseAfterFree.
  - rewrite lookup_ge_None_2 by lia. by exists NullDeref.
Qed.

Lemma handles_insert hs next pend a x y :
  handles_ok hs next pend -> pend !! a = Some x ->
  handles_ok (<[a := Some (handle_of y)]> hs) next (<[a := y]> pend).
Proof.
  intros Hh Hx. pose proof (handles_load _ _ _ _ _ Hh Hx) as Hl. destruct Hh as [L A F].
  assert (a < next)%nat by (apply lookup_lt_Some in Hl; lia).
  constructor; [by rewrite length_insert| |].
  - intros b Hb. destruct (decide (a = b)) as [<-|Hn].
    + rewrite lookup_insert_eq, list_lookup_insert_eq by lia. done.
    + rewrite lookup_insert_ne, list_lookup_insert_ne by done. by apply A.
  - intros b Hb. rewrite lookup_insert_ne by lia. by apply F.
Qed.

Lemma handles_delete hs next pend a :
  handles_ok hs next pend -> (a < next)%nat -> handles_ok (<[a := None]> hs) next (delete a pend).
Proof.
  intros [L A F] Ha. constructor; [by rewrite length_insert| |].
  - intros b Hb. destruct (decide (a = b)) as [<-|Hn].
    + rewrite lookup_delete_eq, list_lookup_insert_eq by lia. done.
    + rewrite lookup_delete_ne, list_lookup_insert_ne by done. by apply A.
  - intros b Hb. rewrite lookup_delete_ne by lia. by apply F.
Qed.

Lemma handles_alloc hs next pend x :
  handles_ok hs next pend -> handles_ok (hs ++ [Some (handle_of x)]) (S next) (<[next := x]> pend).
Proof.
  intros [L A F]. constructor; [rewrite length_app; cbn; lia| |].
  - intros b Hb. destruct (decide (b = next)) as [->|Hn].
    + rewrite lookup_insert_eq. rewrite <- L, list_lookup_middle by done. done.
    + rewrite lookup_insert_ne by done. rewrite lookup_app_l by lia. apply A. lia.
  - intros b Hb. rewrite lookup_insert_ne by lia. apply F. lia.
Qed.

(** ** Lemmas: the registry *)

Lemma disp_del_map {P W} (m : ep_disp_mgr P W) c : disp_map (ep_disp_del m c).2 = delete c (disp_map m).
Proof. unfold ep_disp_del. rewrite del_walk_spec. destruct m as [l]. apply del_map. Qed.

Lemma disp_insert_map {P W} (m : ep_disp_mgr P W) d : disp_map (disp_insert m d) = <[d_category d := d_cb d]> (disp_map m).
Proof. done. Qed.

Lemma registry_busy base m s c : registry_ok base m (fl_pend s) -> is_Some (disp_map m !! c) <-> busy base s c.
Proof. intros [_ I _]. apply I. Qed.

Lemma registry_new base m pend a c cb :
  registry_ok base m pend -> pend !! a = None -> disp_map m !! c = None -> cb = ep_req_default_dispatcher a ->
  registry_ok base (disp_insert m (mk_disp c cb)) (<[a := (c, [])]> pend).
Proof.
  intros [P I U] Ha Hc ->. assert (~ (c ∈ base \/ map_Exists (fun _ x => x.1 = c) pend)) as Hn.
  { rewrite <- I, Hc. intros [? ?]. done. }
  assert (forall b l, pend !! b = Some (c, l) -> False) as Hf.
  { intros b l Hb. apply Hn. right. exists b. by exists (c, l). }
  constructor.
  - intros b c' l. rewrite disp_insert_map. cbn [d_category d_cb]. destruct (decide (a = b)) as [<-|Hab].
    + rewrite lookup_insert_eq. intros [= <- <-]. rewrite lookup_insert_eq. split; [done|]. intros ?. apply Hn. by left.
    + rewrite lookup_insert_ne by done. intros Hb. destruct (decide (c = c')) as [<-|Hcc]; [by destruct (Hf b l)|].
      rewrite lookup_insert_ne by done. by apply (P b c' l).
  - intros c'. rewrite disp_insert_map. cbn [d_category d_cb]. rewrite map_Exists_insert by done. cbn.
    destruct (decide (c = c')) as [<-|Hcc].
    + rewrite lookup_insert_eq. split; [by right; left|by eexists].
    + rewrite lookup_insert_ne, I by done. split; [intros [?|?]; auto|intros [?|[?|?]]; done || auto].
  - intros b1 b2 c' l l'. rewrite !lookup_insert_Some. intros [[<- [= <- <-]]|[Hn1 H1]] [[<- [= <-]]|[Hn2 H2]]; try done.
    + by destruct (Hf b2 l').
    + by destruct (Hf b1 l).
    + by apply (U b1 b2 c' l l').
Qed.

Lemma registry_delete base m pend a c l :
  registry_ok base m pend -> pend !! a = Some (c, l) -> registry_ok base (ep_disp_del m c).2 (delete a pend).
Proof.
  intros [P I U] Ha. constructor.
  - intros b c' l' Hb. apply lookup_delete_Some in Hb as [Hab Hb]. rewrite disp_del_map, lookup_delete_ne; [by apply (P b c' l')|].
    intros <-. by apply Hab, (U a b c l l').
  - intros c'. rewrite disp_del_map. destruct (P a c l Ha) as [_ Hcb]. destruct (decide (c = c')) as [<-|Hcc].
    + rewrite lookup_delete_eq. split; [by intros [? ?]|]. intros [?|(b & x & Hb & Hx)]; [done|].
      apply lookup_delete_Some in Hb as [Hab Hb]. destruct x as [c' l']. cbn in Hx. subst c'. by destruct Hab; apply (U a b c l l').
    + rewrite lookup_delete_ne, I by done. split; (intros [?|(b & x & Hb & Hx)]; [by left|right; exists b, x; split; [|done]]).
      * rewrite lookup_delete_ne; [done|]. intros <-. rewrite Ha in Hb. injection Hb as <-. done.
      * by apply lookup_delete_Some in Hb as [_ Hb].
  - intros b1 b2 c' l1 l2 H1 H2. apply lookup_delete_Some in H1 as [_ H1], H2 as [_ H2]. by apply (U b1 b2 c' l1 l2).
Qed.

(** Only the responses changed. *)
Lemma registry_same base m pend pend' :
  registry_ok base m pend -> (forall a, fst <$> pend' !! a = fst <$> pend !! a) -> registry_ok base m pend'.
Proof.
  intros [P I U] E.
  assert (forall p q : gmap nat (Z * list (option ep_pack)), (forall a, fst <$> p !! a = fst <$> q !! a) ->
    forall a c l, p !! a = Some (c, l) -> exists l', q !! a = Some (c, l')) as T.
  { intros p q Epq a c l H. specialize (Epq a). rewrite H in Epq. destruct (q !! a) as [[c' l']|]; [|done].
    injection Epq as ->. by exists l'. }
  constructor.
  - intros a c l H. destruct (T _ _ E a c l H) as [l' H']. by apply (P a c l').
  - intros c. rewrite I. split; (intros [?|(a & [c' l] & H & Hx)]; [by left|right]).
    + destruct (T _ _ (fun a => eq_sym (E a)) a c' l H) as [l' H']. exists a, (c', l'). done.
    + destruct (T _ _ E a c' l H) as [l' H']. exists a, (c', l'). done.
  - intros a b c l1 l2 H1 H2. destruct (T _ _ E a c l1 H1) as [l1' H1'], (T _ _ E b c l2 H2) as [l2' H2'].
    by apply (U a b c l1' l2').
Qed.

(** ** Lemmas: sending *)

Section sending.
Context `{CL : CodecLaws} (beyond : list Z) (Hbeyond : 16 <= zlen beyond).
#[local] Set Default Proof Using "Type*".

(** The buffer at [ob] is given to the connection; every other buffer stays as it is. *)
Lemma sender_push w fd ca k sent b ob x :
  sender_ok w fd ca k sent -> w_bufs w !! b = Some (Some ob) -> framed k x (buf_data ob) ->
  exists w', ep_io_nodify_fd w fd 1 b = Ok (1, w') /\ sender_ok w' fd ca k (sent ++ [x]) /\
    w_cb w' = w_cb w /\ mg_disp (w_mgr w') = mg_disp (w_mgr w).
Proof.
  intros [Al Cl Li (io & Hio & Hfd & Hk & Hf)] Hb Hx. unfold ep_io_nodify_fd. rewrite Li. cbn [notify_walk].
  unfold h_load. rewrite Hio. cbn [mbind res_bind]. rewrite Hfd, Z.eqb_refl. cbn [negb].
  unfold queue_push, ep_queue_push. rewrite Al, ep_calloc_plenty by (unfold sizeof_ep_queue_body; lia). cbn.
  rewrite (h_store_ok _ _ _ io) by done. cbn [mbind res_bind].
  rewrite Z.eqb_refl. cbn [negb]. eexists. split; [done|]. split; [|done].
  constructor; [done|done|done|]. cbn. rewrite list_lookup_insert_eq by (by eapply lookup_lt_Some).
  eexists. split; [done|]. split; [done|]. split; [done|]. cbn. apply Forall2_app; [done|]. constructor; [|done]. by exists ob.
Qed.

(** The buffers of what was sent are not touched. *)
Lemma sender_bufs w fd ca k sent bufs :
  sender_ok w fd ca k sent -> (forall b x, w_bufs w !! b = Some (Some x) -> bufs !! b = Some (Some x)) ->
  sender_ok (set_bufs w bufs) fd ca k sent.
Proof.
  intros [Al Cl Li (io & Hio & Hfd & Hk & Hf)] Hb. constructor; [done|done|done|]. exists io. do 3 (split; [done|]).
  eapply Forall2_impl; [exact Hf|]. cbn. intros x b (ob & H1 & H2). exists ob. auto.
Qed.

Lemma sender_aes w fd ca k sent : sender_ok w fd ca k sent -> ep_io_get_aes w fd = Ok (Some k).
Proof.
  intros [_ _ Li (io & Hio & Hfd & Hk & _)]. unfold ep_io_get_aes, ep_io_find. rewrite Li. cbn [io_find].
  unfold h_load. rewrite Hio. cbn [mbind res_bind]. rewrite Hfd, Z.eqb_refl. cbn [mbind res_bind]. by rewrite Hio, <- Hk.
Qed.

Lemma req_shell_ok p : proto_ok (s_proto (req_shell p)) -> shell_ok (req_shell p).
Proof. intros H. constructor; [by cbn|done|by cbn..]. Qed.

Lemma send_none w fd ca k sent p :
  sender_ok w fd ca k sent -> exists w', req_send beyond w fd p None = Ok (true, w') /\ sender_ok w' fd ca k (sent ++ [(p, None)]) /\
    w_cb w' = w_cb w /\ mg_disp (w_mgr w') = mg_disp (w_mgr w).
Proof.
  intros S. unfold req_send, frame_pack. cbn [mbind res_bind]. unfold ep_io_combine_shell.
  destruct (out_full w (set_pack_size (req_shell p) 0) [] 0) as (ob & -> & B); [apply S|done|done|]. cbn [mbind res_bind buf_free].
  destruct (sender_push (set_bufs w (w_bufs w ++ [Some ob])) fd ca k sent (length (w_bufs w)) ob (p, None)) as (w' & -> & S' & Hc & Hm).
  - apply sender_bufs; [done|]. intros b x Hb. by apply lookup_app_l_Some.
  - cbn. by rewrite list_lookup_middle.
  - exists (set_shell_size (set_pack_size (req_shell p) 0) 0). split; [done|]. cbn [snd]. by rewrite B, wire_bytes, app_nil_r.
  - cbn [mbind res_bind]. by eexists.
Qed.

Lemma send_some w fd ca k sent p k1 n :
  sender_ok w fd ca k sent -> proto_ok (s_proto (req_shell p)) ->
  ep_pack_finish k1 = Ok k1 -> ep_pack_size k1 = Ok n -> 0 < n <= zlen (ep_pack_data k1) -> n <= 268435455 ->
  exists w', req_send beyond w fd p (Some k1) = Ok (true, w') /\
    sender_ok w' fd ca k (sent ++ [(p, Some (ztake n (ep_pack_data k1)))]) /\
    w_cb w' = w_cb w /\ mg_disp (w_mgr w') = mg_disp (w_mgr w).
Proof.
  intros So Hp Hf Hn Hr Hm. unfold req_send, frame_pack. rewrite Hf. cbn [mbind res_bind]. rewrite Hn. cbn [mbind res_bind].
  destruct (buf_new_full w (ep_pack_data k1) n (so_al _ _ _ _ _ So) Hr) as (b & -> & I & U & D); [unfold BODY_MAX; lia|].
  cbn [mbind res_bind]. rewrite bool_decide_false by done. set (n0 := length (w_bufs w)).
  set (w1 := set_bufs w (w_bufs w ++ [Some b])).
  assert (sender_ok w1 fd ca k sent) as S1 by (apply sender_bufs; [done|]; intros; by apply lookup_app_l_Some).
  assert (w_bufs w1 !! n0 = Some (Some b)) as Hb by (cbn; by rewrite list_lookup_middle).
  destruct (combine_full beyond w1 fd (req_shell p) n0 b k) as (s2 & b1 & b2 & ob & -> & Ob & Wr & Hd);
    [apply S1|done|done|lia|by apply req_shell_ok|done|by eapply sender_aes|].
  rewrite (so_client _ _ _ _ _ S1) in Wr. cbn [mbind res_bind].
  set (bufs2 := <[n0 := Some b2]> (w_bufs w1) ++ [Some ob]). unfold buf_free, h_load. cbn [w_bufs set_bufs].
  assert (length (w_bufs w1) = S n0) as L1 by (cbn; rewrite length_app; cbn; unfold n0; lia).
  assert (bufs2 !! n0 = Some (Some b2)) as Hb2.
  { unfold bufs2. apply lookup_app_l_Some, list_lookup_insert_eq. lia. }
  rewrite Hb2. cbn [mbind res_bind]. rewrite (h_free_ok _ _ b2) by done. cbn [mbind res_bind].
  change (set_bufs (set_bufs (with_buf w1 n0 b2) bufs2) (<[n0 := None]> bufs2)) with (set_bufs w1 (<[n0 := None]> bufs2)).
  set (w2 := set_bufs w1 (<[n0 := None]> bufs2)).
  assert (w2 = set_bufs w (<[n0 := None]> bufs2)) as E2 by done.
  destruct (sender_push w2 fd ca k sent (length (w_bufs w1)) ob (p, Some (ztake n (ep_pack_data k1)))) as (w' & -> & S' & Hc & Hg).
  - rewrite E2. apply sender_bufs; [done|]. intros a x Ha. pose proof (lookup_lt_Some _ _ _ Ha).
    rewrite list_lookup_insert_ne by (unfold n0; lia). unfold bufs2. apply lookup_app_l_Some.
    rewrite list_lookup_insert_ne by (unfold n0; lia). cbn. by apply lookup_app_l_Some.
  - cbn [w2 w_bufs set_bufs]. rewrite list_lookup_insert_ne by lia. unfold bufs2.
    rewrite <- (length_insert (w_bufs w1) n0 (Some b2)). by rewrite list_lookup_middle.
  - exists s2. split; [done|]. exists b, b1, b2. rewrite Ob. by rewrite D.
  - cbn [mbind res_bind]. eexists. split; [done|]. split; [done|]. by rewrite Hc, Hg.
Qed.

(** Nothing of what the sender needs is in the callbacks' state or in the registry. *)
Lemma sender_other w fd ca k sent cb m : sender_ok w fd ca k sent -> sender_ok (set_disp (set_al (set_cb w cb) []) m) fd ca k sent.
Proof. by intros [Al Cl Li Hf]. Qed.

Lemma sender_cb w fd ca k sent cb : sender_ok w fd ca k sent -> sender_ok (set_cb w cb) fd ca k sent.
Proof. by intros [Al Cl Li Hf]. Qed.

Lemma sender_disp w fd ca k sent m : sender_ok w fd ca k sent -> sender_ok (set_disp w m) fd ca k sent.
Proof. by intros [Al Cl Li Hf]. Qed.

Lemma send_any w fd ca k sent p :
  sender_ok w fd ca k sent -> param_ok p ->
  exists pk, match pr_pack p with
    | Some k => k ← ep_pack_finish k; n ← ep_pack_size k; Ok (Some k, n)
    | None => Ok (None, 0)
    end = Ok (pk, pack_len p) /\
  exists w', req_send beyond w fd p pk = Ok (true, w') /\ sender_ok w' fd ca k (sent ++ [(p, pack_bytes p)]) /\
    w_cb w' = w_cb w /\ mg_disp (w_mgr w') = mg_disp (w_mgr w).
Proof.
  intros So [Hp Hk]. unfold pack_len, pack_bytes. destruct (pr_pack p) as [k0|].
  - destruct Hk as (k1 & n & E1 & E2 & E3 & Hn & Hm). rewrite E1. cbn [mbind res_bind]. rewrite E3. cbn [mbind res_bind from_option].
    rewrite zlen_ztake, Z.min_l by lia. exists (Some k1). split; [done|]. by apply send_some.
  - exists None. split; [done|]. by apply send_none.
Qed.

Lemma new_step base c ca k s p :
  in_flight base c ca k s -> param_ok p ->
  exists a r c', ep_req_new beyond (Some c) p = Ok (a, r, Some c') /\
    ONew a r = (spec_new base (cl_io_max_capacity c) (cl_disc_cb c) s p).1 /\
    in_flight base c' ca k (spec_new base (cl_io_max_capacity c) (cl_disc_cb c) s p).2 /\
    cl_io_max_capacity c' = cl_io_max_capacity c /\ cl_disc_cb c' = cl_disc_cb c.
Proof.
  intros F Hp. destruct F as [Fd So (hs & Hcb & Hh) Re Di]. unfold ep_req_new.
  rewrite (proj2 (Z.eqb_neq _ _) Fd).
  set (g := mk_disp_mgr (mk_disp (pr_category p) (ep_req_default_dispatcher (length hs)) :: disp_list (mg_disp (w_mgr (cl_io c))))).
  destruct (send_any (set_disp (set_al (set_cb (cl_io c) (Ok (mk_requests (hs ++ [Some (mk_req (pr_category p) 0 (Some (mk_queue [] 0)))]) []))) []) g)
    (cl_fd c) ca k (fl_sent s) p (sender_other _ _ _ _ _ _ _ So) Hp) as (pk & -> & w' & Es & So' & Cb' & Dm').
  cbn [mbind res_bind]. unfold spec_new. destruct (Z.ltb_spec (cl_io_max_capacity c) (pack_len p)) as [Hl|Hl].
  { eexists _, _, _. split; [done|]. split; [done|]. split; [|done]. constructor; cbn; try done; [by exists hs|]. by rewrite Di. }
  rewrite (so_al _ _ _ _ _ So), ep_calloc_plenty by (unfold sizeof_ep_req; lia). cbn [negb].
  unfold ep_queue_new. rewrite ep_calloc_plenty by (unfold sizeof_ep_queue; lia). cbn [negb].
  rewrite Hcb. cbn [mbind res_bind h_alloc rs_handles rs_al]. rewrite add_spec.
  pose proof (registry_busy base _ s (pr_category p) Re) as Hb.
  destruct (disp_map (mg_disp (w_mgr (cl_io c))) !! pr_category p) as [cb|] eqn:Ed.
  - rewrite decide_True by (apply Hb; by eexists). change (0 =? 0) with true. cbv iota. unfold req_free. cbn [w_cb set_disp set_mgr set_al set_cb mbind res_bind rs_handles rs_al].
    unfold h_load, h_free. rewrite list_lookup_middle by done. cbn [mbind res_bind ep_queue_destroy ep_queue_stop].
    eexists _, _, _. split; [done|]. split; [done|]. split; [|done].
    constructor; [done|by apply sender_cb, sender_other| | |done].
    + eexists. split; [done|]. rewrite insert_app_r_alt, Nat.sub_diag by lia. cbn [insert list_insert].
      destruct Hh as [L A Fr]. constructor; [rewrite length_app; cbn; lia| |].
      * intros b Hlt. cbn in Hlt. destruct (decide (b = length hs)) as [->|Hn].
        -- rewrite list_lookup_middle by done. cbn. by rewrite Fr by lia.
        -- rewrite lookup_app_l by lia. apply A. lia.
      * intros b Hge. apply Fr. cbn in Hge. lia.
    + cbn. by destruct (mg_disp (w_mgr (cl_io c))).
  - rewrite decide_False by (rewrite <- Hb; by intros [? ?]). change (1 =? 0) with false. cbv iota.
    unfold disp_insert. fold g. rewrite Es. cbn [mbind res_bind].
    eexists _, _, _. split; [done|]. rewrite (ho_len _ _ _ Hh). split; [done|]. split; [|done].
    constructor; [done|done| | |done].
    + eexists. split; [cbn; rewrite Cb'; done|]. cbn. by apply (handles_alloc hs (fl_next s) (fl_pend s) (pr_category p, [])).
    + cbn. rewrite Dm'. cbn. apply registry_new; [done|apply Hh; lia|done|]. by rewrite (ho_len _ _ _ Hh).
Qed.

(** ** Lemmas: the steps *)

(** A request took a response, or has one more. *)
Lemma flight_update base c ca k s hs pend' :
  in_flight base c ca k s -> handles_ok hs (fl_next s) pend' -> (forall a, fst <$> pend' !! a = fst <$> fl_pend s !! a) ->
  in_flight base (set_io c (set_cb (cl_io c) (Ok (mk_requests hs [])))) ca k (set_pend s pend').
Proof.
  intros [Fd So _ Re Di] Hh E. constructor; [done|by apply sender_cb|by exists hs|by eapply registry_same|done].
Qed.

Lemma wait_result_ok base c ca k s hs a x ret body l :
  in_flight base c ca k s -> handles_ok hs (fl_next s) (fl_pend s) -> fl_pend s !! a = Some x ->
  exists c', wait_result c (mk_requests hs []) (handle_of x) a ret body (mk_queue l 0) =
      Ok (if ret =? 1 then 1 else 0, default None body, c') /\
    in_flight base c' ca k (set_pend s (<[a := (x.1, l)]> (fl_pend s))) /\
    cl_io_max_capacity c' = cl_io_max_capacity c /\ cl_disc_cb c' = cl_disc_cb c.
Proof.
  intros F Hh Hx. unfold wait_result. cbn [rs_handles rs_al].
  rewrite (h_store_ok _ _ _ (handle_of x)) by (by eapply handles_load). cbn [mbind res_bind].
  eexists. split; [done|]. split; [|done]. apply flight_update; [done|by apply (handles_insert hs _ _ a x (x.1, l))|].
  intros b. destruct (decide (a = b)) as [<-|Hn]; [by rewrite lookup_insert_eq, Hx|by rewrite lookup_insert_ne].
Qed.

Definition step_agrees base c ca k s (o : req_op) : Prop :=
  match spec_step base (cl_io_max_capacity c) (cl_disc_cb c) s o with
  | Some (r, s') => exists c', req_step beyond c o = Ok (r, c') /\ in_flight base c' ca k s' /\
      cl_io_max_capacity c' = cl_io_max_capacity c /\ cl_disc_cb c' = cl_disc_cb c
  | None => exists f, req_step beyond c o = Fault f
  end.

Lemma set_pend_id s : set_pend s (fl_pend s) = s.
Proof. by destruct s. Qed.

Lemma wait_step_ok base c ca k s a timeout sec usec : in_flight base c ca k s -> step_agrees base c ca k s (RWait a timeout sec usec).
Proof.
  intros F. pose proof (if_handles _ _ _ _ _ F) as (hs & Hcb & Hh). unfold step_agrees, spec_step, spec_take, req_step, ep_req_wait_enter.
  rewrite Hcb. cbn [mbind res_bind rs_handles]. destruct (fl_pend s !! a) as [[ct l]|] eqn:Ha.
  2: { destruct (handles_missing _ _ _ _ Hh Ha) as [f ->]. by exists f. }
  unfold h_load. rewrite (handles_load _ _ _ _ _ Hh Ha). cbn [mbind res_bind handle_of rq_req rq_queue].
  change (0 =? req_type_post) with false. cbv iota. unfold ep_queue_get_enter. cbn [q_items q_stop_sign fst snd].
  destruct l as [|r l].
  - change (0 =? 0) with true. cbv iota. destruct (0 <? timeout); [by exists c|]. destruct (timeout =? 0); [|by exists c].
    destruct (wait_result_ok base c ca k s hs a (ct, []) 0 None [] F Hh Ha) as (c' & E & F' & Hc). change (mk_req ct 0 (Some (mk_queue [] 0))) with (handle_of (ct, [])).
    rewrite E. cbn [mbind res_bind]. exists c'. split; [done|]. split; [|done]. rewrite insert_id in F' by done. by rewrite set_pend_id in F'.
  - cbn [get_take q_items]. destruct (wait_result_ok base c ca k s hs a (ct, r :: l) 1 (Some r) l F Hh Ha) as (c' & E & F' & Hc).
    change (mk_req ct 0 (Some (mk_queue (r :: l) 0))) with (handle_of (ct, r :: l)). cbn [q_stop_sign]. rewrite E. cbn [mbind res_bind].
    by exists c'.
Qed.

Lemma wake_step_ok base c ca k s a wait_r : in_flight base c ca k s -> step_agrees base c ca k s (RWake a wait_r).
Proof.
  intros F. pose proof (if_handles _ _ _ _ _ F) as (hs & Hcb & Hh). unfold step_agrees, spec_step, spec_take, req_step, ep_req_wait_wake.
  rewrite Hcb. cbn [mbind res_bind rs_handles]. destruct (fl_pend s !! a) as [[ct l]|] eqn:Ha.
  2: { destruct (handles_missing _ _ _ _ Hh Ha) as [f ->]. by exists f. }
  unfold h_load. rewrite (handles_load _ _ _ _ _ Hh Ha). cbn [mbind res_bind handle_of rq_queue fst snd].
  unfold ep_queue_get_wake. cbn [q_items q_stop_sign]. change (0 =? 0) with true. cbn [negb]. destruct l as [|r l].
  - assert (forall ret, ret <> 1 -> exists c', ('(r, k, c) ← wait_result c (mk_requests hs []) (handle_of (ct, [])) a ret None (mk_queue [] 0); Ok (OWait r k, c)) = Ok (OWait 0 None, c') /\
      in_flight base c' ca k s /\ cl_io_max_capacity c' = cl_io_max_capacity c /\ cl_disc_cb c' = cl_disc_cb c) as T.
    { intros ret Hr. destruct (wait_result_ok base c ca k s hs a (ct, []) ret None [] F Hh Ha) as (c' & E & F' & Hc). rewrite E.
      cbn [mbind res_bind]. rewrite (proj2 (Z.eqb_neq _ _) Hr). exists c'. split; [done|]. split; [|done]. rewrite insert_id in F' by done. by rewrite set_pend_id in F'. }
    destruct (negb (wait_r =? 0)); by apply T.
  - cbn [get_take q_items]. destruct (wait_result_ok base c ca k s hs a (ct, r :: l) 1 (Some r) l F Hh Ha) as (c' & E & F' & Hc).
    change (mk_req ct 0 (Some (mk_queue (r :: l) 0))) with (handle_of (ct, r :: l)). cbn [q_stop_sign]. rewrite E. cbn [mbind res_bind].
    by exists c'.
Qed.

Lemma destroy_step_ok base c ca k s a : in_flight base c ca k s -> step_agrees base c ca k s (RDestroy a).
Proof.
  intros F. pose proof (if_handles _ _ _ _ _ F) as (hs & Hcb & Hh). unfold step_agrees, spec_step, req_step, ep_req_destroy.
  rewrite Hcb. cbn [mbind res_bind rs_handles]. destruct (fl_pend s !! a) as [[ct l]|] eqn:Ha.
  2: { destruct (handles_missing _ _ _ _ Hh Ha) as [f ->]. by exists f. }
  pose proof (handles_load _ _ _ _ _ Hh Ha) as Hl. unfold h_load. rewrite Hl. cbn [mbind res_bind handle_of rq_queue fst snd].
  destruct F as [Fd So _ Re Di]. rewrite (proj2 (Z.eqb_neq _ _) Fd). cbn [negb].
  assert (exists q ret body, ep_queue_get_enter (mk_queue l 0) 0 0 0 = GetRet ret body q) as (q & ret & body & E).
  { unfold ep_queue_get_enter. cbn. destruct l; by eexists _, _, _. }
  rewrite E. cbn [mbind res_bind]. rewrite (h_store_ok _ _ _ _ Hl). cbn [mbind res_bind].
  assert (a < length hs)%nat by (by eapply lookup_lt_Some). unfold req_free.
  cbn [w_cb set_cb mbind res_bind rs_handles rs_al]. unfold h_load, h_free. rewrite list_lookup_insert_eq by done.
  cbn [mbind res_bind set_queue rq_queue ep_queue_destroy ep_queue_stop]. eexists. split; [done|]. split; [|done].
  constructor; [done|by apply sender_cb, sender_cb, sender_disp| | |done].
  - eexists. split; [done|]. cbn. rewrite list_insert_insert_eq. apply handles_delete; [done|]. rewrite <- (ho_len _ _ _ Hh). done.
  - cbn. by apply (registry_delete base _ _ a ct l).
Qed.

Lemma response_step_ok base c ca k s category fd pack :
  in_flight base c ca k s -> category ∉ base -> step_agrees base c ca k s (RResponse category fd pack).
Proof.
  intros F Hb. pose proof (if_handles _ _ _ _ _ F) as (hs & Hcb & Hh). unfold step_agrees, spec_step, req_step, respond, ep_disp_processor.
  pose proof (if_registry _ _ _ _ _ F) as Re. destruct (mg_disp (w_mgr (cl_io c))) as [dl] eqn:Ed. cbn [disp_list]. rewrite call_spec.
  destruct (decide (map_Exists (fun _ x => x.1 = category) (fl_pend s))) as [He|He].
  - destruct He as (a & [ct l] & Ha & E). cbn in E. subst ct. destruct (ro_pend _ _ _ Re a category l Ha) as [Hd _].
    match goal with |- context [match ?x with Some cb => cb _ _ _ | None => _ end] => replace x with (Some (ep_req_default_dispatcher a)) by (symmetry; exact Hd) end.
    unfold ep_req_default_dispatcher at 1. rewrite Hcb. cbn [mbind res_bind]. unfold req_push, h_load. cbn [rs_handles rs_al].
    rewrite (handles_load _ _ _ _ _ Hh Ha). cbn [mbind res_bind handle_of rq_queue ep_queue_push].
    rewrite ep_calloc_plenty by (unfold sizeof_ep_queue_body; lia). cbn [negb].
    rewrite (h_store_ok _ _ _ _ (handles_load _ _ _ _ _ Hh Ha)). cbn [mbind res_bind andb q_items q_stop_sign fst snd].
    rewrite bool_decide_true by (right; by exists a, (category, l)). eexists. split; [done|]. split; [|done].
    assert ((fun x => if x.1 =? category then (x.1, x.2 ++ [pack]) else x) <$> fl_pend s = <[a := (category, l ++ [pack])]> (fl_pend s)) as ->.
    { apply map_eq. intros b. rewrite lookup_fmap. destruct (decide (a = b)) as [<-|Hn].
      - rewrite Ha, lookup_insert_eq. cbn. by rewrite Z.eqb_refl.
      - rewrite lookup_insert_ne by done. destruct (fl_pend s !! b) as [[c2 l2]|] eqn:Hb2; [|done]. cbn.
        destruct (Z.eqb_spec c2 category) as [->|]; [|done]. by destruct Hn; apply (ro_unique _ _ _ Re a b category l l2). }
    apply flight_update; [done|by apply (handles_insert hs _ _ a (category, l) (category, l ++ [pack]))|].
    intros b. destruct (decide (a = b)) as [<-|Hn]; [by rewrite lookup_insert_eq, Ha|by rewrite lookup_insert_ne].
  - match goal with |- context [match ?x with Some cb => cb _ _ _ | None => _ end] => destruct x as [cb|] eqn:Ec end.
    { exfalso. by destruct (proj1 (ro_inv _ _ _ Re category) (ex_intro _ cb Ec)) as [?|?]. }
    rewrite (bool_decide_false (busy ∅ s category)) by (intros [?|?]; set_solver). eexists. split; [done|]. split; [|done]. rewrite Hcb.
    apply flight_update; [done| |]; [|intros b; rewrite lookup_fmap; destruct (fl_pend s !! b) as [[? ?]|]; cbn; [by destruct (_ =? _)|done]].
    assert ((fun x => if x.1 =? category then (x.1, x.2 ++ [pack]) else x) <$> fl_pend s = fl_pend s) as ->; [|done].
    apply map_eq. intros b. rewrite lookup_fmap. destruct (fl_pend s !! b) as [[c2 l2]|] eqn:Hb2; [|done]. cbn.
    destruct (Z.eqb_spec c2 category) as [->|]; [|done]. destruct He. by exists b, (category, l2).
Qed.

Lemma step_ok base c ca k s o : in_flight base c ca k s -> op_ok base o -> step_agrees base c ca k s o.
Proof.
  intros F Ho. destruct o as [p|a timeout sec usec|a wait_r|a|category fd pack]; cbn in Ho.
  - destruct (new_step base c ca k s p F Ho) as (a & r & c' & E & Er & F' & Hc). unfold step_agrees, req_step. cbn [spec_step].
    rewrite E. cbn [mbind res_bind]. rewrite Er. destruct (spec_new _ _ _ s p) as [r' s']. by exists c'.
  - by apply wait_step_ok.
  - by apply wake_step_ok.
  - by apply destroy_step_ok.
  - by apply response_step_ok.
Qed.

Lemma requests_run os : forall base c ca k s, in_flight base c ca k s -> Forall (op_ok base) os ->
  match spec_run base (cl_io_max_capacity c) (cl_disc_cb c) s os with
  | Some (rs, s') => exists c', req_run beyond c os = Ok (rs, c') /\ in_flight base c' ca k s'
  | None => exists f, req_run beyond c os = Fault f
  end.
Proof.
  induction os as [|o os IH]; intros base c ca k s F Ho; cbn [spec_run req_run]; [by exists c|].
  apply Forall_cons in Ho as [Ho Hos]. pose proof (step_ok base c ca k s o F Ho) as St. unfold step_agrees in St.
  destruct (spec_step _ _ _ s o) as [[r s1]|]; [|destruct St as [f ->]; by exists f].
  destruct St as (c1 & -> & F1 & M & D). cbn [mbind res_bind]. specialize (IH base c1 ca k s1 F1 Hos). rewrite M, D in IH.
  destruct (spec_run _ _ _ s1 os) as [[rs s2]|]; [|destruct IH as [f ->]; by exists f].
  destruct IH as (c2 & -> & F2). by exists c2.
Qed.

End sending.

(** ** Properties *)

(** A request that is not a post: the one whose response is waited for. *)
Definition answered (o : req_op) : Prop := match o with RNew p => pr_type p <> req_type_post | _ => True end.

(** C7: The requests of a client are a queue of responses per request in flight: over any sequence
    of new requests that are not posts, responses, waits, wake-ups and destructions, the results are
    those of that specification. A new request is refused with -2 while its category is in use, and
    with -1 and a report when its packet is over the limit; else its header and packet are handed to
    the connection. Each response goes to the request of its category, in order, and is taken
    once; one that comes after the request was destroyed is dropped. The only faults are uses of a
    handle that is not in flight. Posts are left out: the header documents the answer 2 for a wait on
    one, and the code waits for it like for any other ([post_wait_blocks]). *)
Theorem requests_refine `{CL : CodecLaws} (beyond : list Z) base c ca k s os :
  16 <= zlen beyond -> in_flight base c ca k s -> Forall (op_ok base) os -> Forall answered os ->
  match spec_run base (cl_io_max_capacity c) (cl_disc_cb c) s os with
  | Some (rs, s') => exists c', req_run beyond c os = Ok (rs, c') /\ in_flight base c' ca k s'
  | None => exists f, req_run beyond c os = Fault f
  end.
Proof. intros Hb H Ho _. by apply requests_run. Qed.

Definition demo_key : ep_aes_key := mk_aes (zeros 16) (zeros 16).
Definition demo_client : client :=
  mk_client 5 1000
    (mk_world (mk_mgr ep_io_refor_client (mk_disp_mgr []) (mk_queue [] 0) 0 (mk_tp [] 1 0) 64 1024 4096 [0%nat])
       [Some (demo_io 5 [])] [] [] (Ok (mk_requests [] [])) []) true [].

Lemma demo_in_flight `{C : Codec} : in_flight ∅ demo_client 0 demo_key (mk_flight 0 ∅ [] []).
Proof.
  constructor; [done| | | |done].
  - constructor; try done. by exists (demo_io 5 []).
  - exists []. split; [done|]. constructor; [done|cbn; lia|done].
  - constructor; [done| |done]. intros c. cbn. rewrite lookup_empty. split; [by intros [? ?]|].
    intros [?|(a & x & Hx & _)]; [set_solver|done].
Qed.

Definition demo_pack : ep_pack := match build_pack [] (FCons [107] (VInt 3) FNil) with Ok (Some p) => p | _ => mk_pack (mk_bson [] 0 true 0 [] 0) end.
Definition demo_param : ep_req_param := mk_param 0 7 1 2 1 2 (Some demo_pack).

Lemma demo_param_ok ty : ty = 0 \/ ty = req_type_post -> param_ok (mk_param ty 7 1 2 1 2 (Some demo_pack)).
Proof.
  intros [->| ->]; (split; [constructor; cbn; unfold is_u16, req_type_post; lia|]; eexists _, _;
    do 3 (split; [vm_compute; reflexivity|]); split; [by vm_compute|done]).
Qed.

(** A wait on a post blocks for its whole timeout: nothing sets the type of the handle. *)
Theorem post_wait_blocks :
  exists c', req_run (C := toy_codec) (junk 16) demo_client [RNew (mk_param req_type_post 7 1 2 1 2 (Some demo_pack)); RWait 0 2 100 0]
    = Ok ([ONew (Some 0%nat) 0; OBlocked (Some (102, 0))], c').
Proof.
  pose proof (requests_run (CL := toy_laws) (junk 16) ltac:(by vm_compute)
    [RNew (mk_param req_type_post 7 1 2 1 2 (Some demo_pack)); RWait 0 2 100 0] ∅ demo_client 0 demo_key (mk_flight 0 ∅ [] []) demo_in_flight) as H.
  destruct H as (c' & H & _); [|by exists c'].
  rewrite !Forall_cons. exact (conj (demo_param_ok _ (or_intror eq_refl)) (conj Logic.I (Forall_nil_2 _))).
Qed.

Lemma requests_refine_witness :
  exists c', req_run (C := toy_codec) (junk 16) demo_client
      [RNew demo_param; RNew demo_param; RWait 0 2 100 0; RResponse 7 5 (Some demo_pack); RWake 0 0; RDestroy 0;
       RResponse 7 5 (Some demo_pack); RNew demo_param]
    = Ok ([ONew (Some 0%nat) 0; ONew None (-2); OBlocked (Some (102, 0)); OResponse false; OWait 1 (Some demo_pack); ODone;
           OResponse true; ONew (Some 2%nat) 0], c') /\
  in_flight (C := toy_codec) ∅ c' 0 demo_key
    (mk_flight 3 {[2%nat := (7, [])]} [(demo_param, pack_bytes demo_param); (demo_param, pack_bytes demo_param)] []).
Proof.
  pose proof (requests_refine (CL := toy_laws) (junk 16) ∅ demo_client 0 demo_key (mk_flight 0 ∅ [] [])
    [RNew demo_param; RNew demo_param; RWait 0 2 100 0; RResponse 7 5 (Some demo_pack); RWake 0 0; RDestroy 0;
     RResponse 7 5 (Some demo_pack); RNew demo_param] ltac:(by vm_compute) demo_in_flight) as H.
  apply H; [|by repeat (apply Forall_cons; split; [done|])]. pose proof (demo_param_ok 0 ltac:(by left)) as P.
  rewrite !Forall_cons. refine (conj P (conj P (conj Logic.I (conj (not_elem_of_empty 7) (conj Logic.I (conj Logic.I (conj (not_elem_of_empty 7) (conj P _)))))))).
  by apply Forall_nil.
Defined.

(** C38: A request whose packet cannot be handed to its connection leaves a registration behind that
    points to a freed handle: when the connection has just been removed, [ep_req_new] answers -1
    and frees the handle, the category stays taken (the next request for it answers -2), and a
    response that was already received is pushed into the freed handle. *)
Theorem request_failed_dangling `{CL : CodecLaws} (beyond : list Z) (c : client) (p : ep_req_param) hs fd pack :
  cl_fd c <> -1 -> mg_io_list (w_mgr (cl_io c)) = [] -> w_al (cl_io c) = [] -> w_cb (cl_io c) = Ok (mk_requests hs []) ->
  disp_map (mg_disp (w_mgr (cl_io c))) !! pr_category p = None -> pr_pack p = None -> 0 <= cl_io_max_capacity c ->
  exists c' c'', ep_req_new beyond (Some c) p = Ok (None, -1, Some c') /\
    ep_req_new beyond (Some c') p = Ok (None, -2, Some c'') /\
    w_cb (cl_io (respond c' (pr_category p) fd pack).2) = Fault UseAfterFree.
Proof.
  intros Hf Hl Hal Hcb Hd Hp Hm. unfold ep_req_new. rewrite (proj2 (Z.eqb_neq _ _) Hf), Hp. cbn [mbind res_bind].
  rewrite (proj2 (Z.ltb_ge (cl_io_max_capacity c) 0)) by done. rewrite Hal, Hcb. cbn [mbind res_bind].
  unfold ep_queue_new. rewrite !ep_calloc_plenty by (unfold sizeof_ep_req, sizeof_ep_queue; lia). cbn [negb h_alloc rs_handles rs_al]. rewrite add_spec, Hd. change (1 =? 0) with false. cbv iota.
  set (w0 := set_disp _ _).
  destruct (out_full (CL := CL) w0 (set_pack_size (req_shell p) 0) [] 0) as (ob & Eo & _); [done|done|done|].
  unfold req_send, frame_pack. cbn [mbind res_bind ep_io_combine_shell]. rewrite Eo. cbn [mbind res_bind buf_free].
  unfold ep_io_nodify_fd. cbn [set_bufs w0 w_mgr set_disp set_mgr mg_io_list set_al set_cb]. rewrite Hl. cbn [notify_walk mbind res_bind negb].
  change (0 =? 0) with true. cbn [negb]. unfold req_free. cbn [w_cb set_bufs w0 set_disp set_mgr set_al set_cb mbind res_bind rs_handles rs_al].
  unfold h_load, h_free. rewrite list_lookup_middle by done. cbn [mbind res_bind ep_queue_destroy ep_queue_stop rq_queue].
  eexists _, _. split; [done|]. rewrite insert_app_r_alt, Nat.sub_diag by lia. cbn [insert list_insert].
  cbn [set_io cl_fd cl_io_max_capacity cl_io w_al w_cb set_cb mbind res_bind rs_handles rs_al w_mgr mg_disp].
  rewrite (proj2 (Z.eqb_neq _ _) Hf), (proj2 (Z.ltb_ge (cl_io_max_capacity c) 0)) by done.
  rewrite !ep_calloc_plenty by (unfold sizeof_ep_req, sizeof_ep_queue; lia). cbn [negb]. rewrite add_spec.
  change (mg_disp (w_mgr (set_bufs w0 (w_bufs w0 ++ [Some ob])))) with (disp_insert (mg_disp (w_mgr (cl_io c))) (mk_disp (pr_category p) (ep_req_default_dispatcher (length hs)))).
  rewrite disp_insert_map. cbn [d_category d_cb].
  rewrite lookup_insert_eq. change (0 =? 0) with true. cbv iota.
  cbn [w_cb set_bufs set_disp set_mgr set_al set_cb mbind res_bind rs_handles rs_al].
  rewrite list_lookup_middle by done. cbn [mbind res_bind ep_queue_destroy ep_queue_stop rq_queue]. split; [done|].
  unfold respond, ep_disp_processor. cbn [cl_io set_io w_mgr mg_disp disp_insert disp_list disp_call d_category set_cb set_bufs w0 set_disp set_mgr].
  rewrite Z.eqb_refl. cbn [d_cb]. unfold ep_req_default_dispatcher. cbn [w_cb set_cb mbind res_bind snd set_io cl_io].
  unfold req_push, h_load. cbn [rs_handles]. by rewrite list_lookup_middle.
Qed.

Definition removed_client : client := set_io demo_client (set_mgr (cl_io demo_client) (mgr_io_list (w_mgr (cl_io demo_client)) [])).

Lemma request_failed_dangling_witness :
  exists c' c'', ep_req_new (C := toy_codec) (junk 16) (Some removed_client) (mk_param 0 7 1 2 1 2 None) = Ok (None, -1, Some c') /\
    ep_req_new (C := toy_codec) (junk 16) (Some c') (mk_param 0 7 1 2 1 2 None) = Ok (None, -2, Some c'') /\
    w_cb (cl_io (respond c' 7 5 (Some demo_pack)).2) = Fault UseAfterFree.
Proof. by apply (request_failed_dangling (CL := toy_laws) (junk 16) removed_client (mk_param 0 7 1 2 1 2 None) [] 5 (Some demo_pack)). Defined.

End Request.
