(* ===== verification/Cstr.v ===== *)
(** * Cstr: C strings in arrays of characters

    A string lives in an array: its characters are the cells before the first zero. The routines
    of string.h that the server uses walk the cells and leave the array when there is no zero in
    it, which is a fault here. *)
From S2P Require Import Prelude.

Module Cstr.

(** The characters before the first zero; [None] when the array holds no zero. *)
Fixpoint cstr (buf : list Z) : option (list Z) :=
  match buf with
  | [] => None
  | c :: buf => if c =? 0 then Some [] else (fun s => c :: s) <$> cstr buf
  end.

Definition terminated (buf : list Z) : Prop := is_Some (cstr buf).

#[export] Instance terminated_dec buf : Decision (terminated buf).
Proof. unfold terminated. destruct (cstr buf); [left|right]; [done|by intros [? ?]]. Defined.

(** The string, for an array that holds one. *)
Definition text (buf : list Z) : list Z := default [] (cstr buf).

Definition strlen (buf : list Z) : res Z :=
  match cstr buf with Some s => Ok (zlen s) | None => Fault OutOfBounds end.

(** [strcmp(a, b) == 0] *)
Fixpoint strcmp_eq (a b : list Z) : res bool :=
  match a, b with
  | x :: a, y :: b =>
      if x =? y then (if x =? 0 then Ok true else strcmp_eq a b) else Ok false
  | _, _ => Fault OutOfBounds
  end.

(** [strcpy(dst, src)] copies the zero too. *)
Definition strcpy (dst src : list Z) : res (list Z) :=
  match cstr src with
  | Some s => memcpy dst 0 (s ++ [0]) (zlen s + 1)
  | None => Fault OutOfBounds
  end.

(** The [n] cells [strncpy] writes: the string, filled up with zeros, and no zero when the
    string does not leave room for one. *)
Fixpoint strncpy_cells (n : nat) (src : list Z) : res (list Z) :=
  match n with
  | O => Ok []
  | S k =>
      match src with
      | [] => Fault OutOfBounds
      | c :: src => if c =? 0 then Ok (replicate n 0) else l ← strncpy_cells k src; Ok (c :: l)
      end
  end.

Definition strncpy (dst src : list Z) (n : Z) : res (list Z) :=
  cells ← strncpy_cells (Z.to_nat n) src; memcpy dst 0 cells n.

Definition strcat (dst src : list Z) : res (list Z) :=
  match cstr dst, cstr src with
  | Some d, Some s => memcpy dst (zlen d) (s ++ [0]) (zlen s + 1)
  | _, _ => Fault OutOfBounds
  end.

(** [tolower] in the C locale. *)
Definition tolower (c : Z) : Z := if (65 <=? c) && (c <=? 90) then c + 32 else c.

(** The loop that turns a string to lower case in place, the final zero included. *)
Fixpoint lower_loop (buf : list Z) : res (list Z) :=
  match buf with
  | [] => Fault OutOfBounds
  | c :: buf =>
      let c' := tolower c in
      if c' =? 0 then Ok (c' :: buf) else l ← lower_loop buf; Ok (c' :: l)
  end.

(** ** Lemmas *)

Definition no_zero (s : list Z) : Prop := Forall (fun c => c <> 0) s.

Lemma cstr_app s rest : no_zero s -> cstr (s ++ 0 :: rest) = Some s.
Proof.
  induction 1 as [|c s Hc _ IH]; [done|]. cbn [app cstr]. destruct (Z.eqb_spec c 0); [done|].
  by rewrite IH.
Qed.

Lemma text_app s rest : no_zero s -> text (s ++ 0 :: rest) = s.
Proof. intros H. unfold text. by rewrite cstr_app. Qed.

Lemma terminated_app s rest : no_zero s -> terminated (s ++ 0 :: rest).
Proof. intros H. exists s. by apply cstr_app. Qed.

Lemma cstr_inv buf s : cstr buf = Some s -> no_zero s /\ exists rest, buf = s ++ 0 :: rest.
Proof.
  revert s. induction buf as [|c buf IH]; intros s; [done|]. cbn [cstr].
  destruct (Z.eqb_spec c 0) as [->|Hc].
  - intros [= <-]. split; [constructor|]. by exists buf.
  - destruct (cstr buf) as [s'|]; [|done]. intros [= <-].
    destruct (IH s' eq_refl) as [N [rest ->]]. split; [by constructor|]. by exists rest.
Qed.

Lemma strcmp_text a b : terminated a -> terminated b -> strcmp_eq a b = Ok (bool_decide (text a = text b)).
Proof.
  intros [s Hs] [t Ht]. unfold text. rewrite Hs, Ht. cbn [default from_option id].
  apply cstr_inv in Hs as [Ns [ra ->]]. apply cstr_inv in Ht as [Nt [rb ->]].
  revert t Nt. induction Ns as [|x s Hx _ IH]; intros t Nt; destruct Nt as [|y t Hy Nt];
    cbn [app strcmp_eq]; [done| | |].
  - destruct (Z.eqb_spec 0 y); [by subst|]. by rewrite bool_decide_eq_false_2.
  - destruct (Z.eqb_spec x 0); [done|]. by rewrite bool_decide_eq_false_2.
  - destruct (Z.eqb_spec x y) as [->|Hne].
    + destruct (Z.eqb_spec y 0); [done|]. rewrite IH by done. f_equal. apply bool_decide_ext. naive_solver.
    + rewrite bool_decide_eq_false_2; [done|]. naive_solver.
Qed.

Lemma text_no_zero buf : no_zero (text buf).
Proof. unfold text. destruct (cstr buf) as [s|] eqn:E; [|constructor]. by apply cstr_inv in E as [? _]. Qed.

Lemma terminated_split buf : terminated buf -> exists rest, buf = text buf ++ 0 :: rest.
Proof. intros [s Hs]. unfold text. rewrite Hs. by apply cstr_inv in Hs as [_ ?]. Qed.

Lemma strlen_text buf : terminated buf -> strlen buf = Ok (zlen (text buf)).
Proof. intros [s Hs]. unfold strlen, text. by rewrite Hs. Qed.

Lemma strcpy_ok dst src :
  terminated src -> zlen (text src) + 1 <= zlen dst ->
  strcpy dst src = Ok (text src ++ 0 :: zdrop (zlen (text src) + 1) dst).
Proof.
  intros [s Hs] L. unfold strcpy, text in *. rewrite Hs in *. cbn [default from_option id] in *.
  pose proof (zlen_nonneg s). rewrite memcpy_ok by (rewrite ?zlen_app; change (zlen [0]) with 1; lia).
  unfold splice. rewrite (ztake_all (zlen s + 1)) by (rewrite zlen_app; change (zlen [0]) with 1; lia).
  rewrite zlen_app. change (zlen [0]) with 1. unfold ztake at 1. cbn [Z.to_nat take app].
  by rewrite <- app_assoc.
Qed.

(** A string that is shorter than the copy is filled up with zeros. *)
Lemma strncpy_cells_fill n s rest : no_zero s -> (length s < n)%nat -> strncpy_cells n (s ++ 0 :: rest) = Ok (s ++ replicate (n - length s) 0).
Proof.
  intros N. revert n. induction N as [|c s Hc _ IH]; intros n L; (destruct n as [|n]; [cbn in L; lia|]); [done|].
  cbn [app strncpy_cells]. destruct (Z.eqb_spec c 0); [done|]. rewrite IH by (cbn [length] in L; lia). done.
Qed.

Lemma tolower_zero c : tolower c = 0 <-> c = 0.
Proof. unfold tolower. case_zbool; lia. Qed.

Lemma lower_no_zero s : no_zero s -> no_zero (map tolower s).
Proof. intros H. apply Forall_map. eapply Forall_impl; [exact H|]. intros c Hc E. by apply Hc, tolower_zero. Qed.

Lemma lower_loop_ok s rest : no_zero s -> lower_loop (s ++ 0 :: rest) = Ok (map tolower s ++ 0 :: rest).
Proof.
  induction 1 as [|c s Hc _ IH]; [done|]. cbn [app lower_loop map].
  destruct (Z.eqb_spec (tolower c) 0) as [E|_]; [exfalso; apply Hc; by apply tolower_zero|]. by rewrite IH.
Qed.

Lemma strcat_ok d rest s :
  no_zero d -> no_zero s -> zlen s <= zlen rest ->
  strcat (d ++ 0 :: rest) (s ++ [0]) = Ok ((d ++ s) ++ 0 :: zdrop (zlen s) rest).
Proof.
  intros Nd Ns L. unfold strcat. rewrite cstr_app, (cstr_app s []) by done.
  pose proof (zlen_nonneg d). pose proof (zlen_nonneg s).
  rewrite memcpy_ok by (rewrite ?zlen_app, ?zlen_cons; change (zlen (@nil Z)) with 0; lia).
  f_equal. unfold splice. rewrite (ztake_all (zlen s + 1)) by (rewrite zlen_app; change (zlen [0]) with 1; lia).
  rewrite ztake_app_l by done. rewrite zlen_app. change (zlen [0]) with 1. unfold zdrop, zlen in *.
  rewrite drop_app. rewrite (drop_ge d) by lia. cbn [app].
  replace (Z.to_nat (Z.of_nat (length d) + (Z.of_nat (length s) + 1)) - length d)%nat
    with (S (length s)) by lia.
  cbn [drop]. rewrite <- !app_assoc. cbn [app]. by rewrite Nat2Z.id.
Qed.

End Cstr.
