(* ===== verification/Checksum.v ===== *)
(** * Checksum: the Adler-32 and CRC-32 routines (utils/adler32.c, utils/crc32.c)

    Both routines take a running checksum, a buffer and a length, and return the checksum of the
    longer stream. [w] is the width of C's unsigned long, 32 on some targets and 64 on others.
    The buffer is [None] for a null pointer, otherwise the cells that may be read. The length is an
    integer of any size; the calls there are pass an [unsigned int] or an [int]. *)
From S2P Require Import Prelude Words.
Import Words.

Module Adler.

(** ** The routine *)

Definition BASE : Z := 65521.
Definition NMAX : Z := 5552.

(** What the unrolled additions work on: the bytes still ahead of [buf], [s1] and [s2]. *)
Record sums := mk_sums { a_buf : list Z; a_s1 : Z; a_s2 : Z }.

Section routine.
Context (w : Z).

Definition DO1 (st : sums) : res sums :=
  match a_buf st with
  | [] => Fault OutOfBounds
  | b :: rest =>
      let s1 := wrap_u w (a_s1 st + b) in
      let s2 := wrap_u w (a_s2 st + s1) in
      Ok (mk_sums rest s1 s2)
  end.
Definition DO2 (st : sums) : res sums := st ← DO1 st; DO1 st.
Definition DO4 (st : sums) : res sums := st ← DO2 st; DO2 st.
Definition DO8 (st : sums) : res sums := st ← DO4 st; DO4 st.
Definition DO16 (st : sums) : res sums := st ← DO8 st; DO8 st.

(** [while (k >= 16) { DO16(buf); k -= 16; }] *)
Fixpoint adler_by16 (fuel : nat) (k : Z) (st : sums) : res (Z * sums) :=
  match fuel with
  | O => Fault OutOfFuel
  | S fuel => if 16 <=? k then st ← DO16 st; adler_by16 fuel (k - 16) st else Ok (k, st)
  end.

(** [do { DO1(buf); } while (--k)] *)
Fixpoint adler_rest (fuel : nat) (k : Z) (st : sums) : res sums :=
  match fuel with
  | O => Fault OutOfFuel
  | S fuel => st ← DO1 st; if k - 1 =? 0 then Ok st else adler_rest fuel (k - 1) st
  end.

Fixpoint adler_chunks (fuel : nat) (len : Z) (st : sums) : res sums :=
  match fuel with
  | O => Fault OutOfFuel
  | S fuel =>
      if 0 <? len then
        let k := if len <? NMAX then len else NMAX in
        '(k', st) ← adler_by16 (S (Z.to_nat k)) k st;
        st ← (if k' =? 0 then Ok st else adler_rest (S (Z.to_nat k')) k' st);
        adler_chunks fuel (len - k) (mk_sums (a_buf st) (a_s1 st mod BASE) (a_s2 st mod BASE))
      else Ok st
  end.

Definition adler32 (adler : Z) (buf : option (list Z)) (len : Z) : res Z :=
  let s1 := Z.land adler 0xffff in
  let s2 := Z.land (Z.shiftr adler 16) 0xffff in
  match buf with
  | None => Ok 1
  | Some buf =>
      st ← adler_chunks (S (Z.to_nat len)) len (mk_sums buf s1 s2);
      Ok (Z.lor (wrap_u w (Z.shiftl (a_s2 st) 16)) (a_s1 st))
  end.

End routine.

(** ** The checksum of RFC 1950

    One reduction per byte. *)

Definition adler_byte (s : Z * Z) (b : Z) : Z * Z :=
  ((s.1 + b) mod BASE, (s.2 + s.1 + b) mod BASE).

Definition adler_sums (s : Z * Z) (bytes : list Z) : Z * Z := foldl adler_byte s bytes.

Definition adler_join (s : Z * Z) : Z := s.2 * 65536 + s.1.
Definition adler_split (adler : Z) : Z * Z := (adler mod 65536, (adler / 65536) mod 65536).

Definition adler_ref (adler : Z) (bytes : list Z) : Z :=
  adler_join (adler_sums (adler_split adler) bytes).

(** ** The unrolled loops add the bytes one by one *)

(** [n] times [DO1]. *)
Fixpoint do_n (w : Z) (n : nat) (st : sums) : res sums :=
  match n with O => Ok st | S n => st ← DO1 w st; do_n w n st end.

Lemma bind_ok {A} (m : res A) : (m ≫= Ok) = m.
Proof. by destruct m. Qed.

Lemma bind_bind {A B C} (m : res A) (f : A -> res B) (g : B -> res C) :
  ((m ≫= f) ≫= g) = (m ≫= fun a => f a ≫= g).
Proof. by destruct m. Qed.

Lemma do_n_add w n m st : do_n w (n + m) st = (do_n w n st ≫= do_n w m).
Proof.
  revert st. induction n as [|n IH]; intros st; [done|]. cbn [Nat.add do_n].
  rewrite bind_bind. destruct (DO1 w st); [apply IH|done].
Qed.

Lemma DO1_n w st : DO1 w st = do_n w 1 st.
Proof. cbn [do_n]. by rewrite bind_ok. Qed.

Lemma DO16_n w st : DO16 w st = do_n w 16 st.
Proof.
  assert (H2 : forall s, DO2 w s = do_n w 2 s).
  { intros s. unfold DO2. rewrite (do_n_add w 1 1), <- DO1_n. by destruct (DO1 w s); [apply DO1_n|]. }
  assert (H4 : forall s, DO4 w s = do_n w 4 s).
  { intros s. unfold DO4. rewrite (do_n_add w 2 2), <- H2. by destruct (DO2 w s); [apply H2|]. }
  assert (H8 : forall s, DO8 w s = do_n w 8 s).
  { intros s. unfold DO8. rewrite (do_n_add w 4 4), <- H4. by destruct (DO4 w s); [apply H4|]. }
  unfold DO16. rewrite (do_n_add w 8 8), <- H8. by destruct (DO8 w st); [apply H8|].
Qed.

Lemma by16_spec w fuel k st :
  0 <= k < Z.of_nat fuel ->
  adler_by16 w fuel k st = (st' ← do_n w (Z.to_nat (k - k mod 16)) st; Ok (k mod 16, st')).
Proof.
  revert k st. induction fuel as [|fuel IH]; intros k st Hk; [lia|]. cbn [adler_by16].
  destruct (Z.leb_spec 16 k) as [Hge|Hlt].
  - pose proof (Z.mod_pos_bound k 16). pose proof (Z.div_mod k 16).
    replace (Z.to_nat (k - k mod 16)) with (16 + Z.to_nat (k - 16 - (k - 16) mod 16))%nat.
    + rewrite do_n_add, <- DO16_n, bind_bind. destruct (DO16 w st) as [st'|]; [|done].
      cbn [mbind res_bind]. rewrite IH by lia. by replace ((k - 16) mod 16) with (k mod 16)
        by (replace (k - 16) with (k + (-1) * 16) by lia; by rewrite Z.mod_add).
    + replace ((k - 16) mod 16) with (k mod 16)
        by (replace (k - 16) with (k + (-1) * 16) by lia; by rewrite Z.mod_add). lia.
  - rewrite Z.mod_small by lia. by replace (k - k) with 0 by lia.
Qed.

Lemma rest_spec w fuel k st :
  0 < k < Z.of_nat fuel -> adler_rest w fuel k st = do_n w (Z.to_nat k) st.
Proof.
  revert k st. induction fuel as [|fuel IH]; intros k st Hk; [lia|]. cbn [adler_rest].
  replace (Z.to_nat k) with (S (Z.to_nat (k - 1))) by lia. cbn [do_n].
  destruct (DO1 w st); [|done]. cbn [mbind res_bind].
  destruct (Z.eqb_spec (k - 1) 0) as [->|]; [done|]. apply IH. lia.
Qed.

(** Both inner loops of a chunk of [k] bytes are [k] steps. *)
Lemma chunk_spec w k st :
  0 <= k ->
  ('(k', st) ← adler_by16 w (S (Z.to_nat k)) k st;
   if k' =? 0 then Ok st else adler_rest w (S (Z.to_nat k')) k' st) = do_n w (Z.to_nat k) st.
Proof.
  intros Hk. rewrite by16_spec by lia. pose proof (Z.mod_pos_bound k 16).
  pose proof (Z.mod_le k 16).
  assert (E : Z.to_nat k = (Z.to_nat (k - k mod 16) + Z.to_nat (k mod 16))%nat) by lia.
  rewrite E, do_n_add. clear E. destruct (do_n w _ st) as [st'|]; [|done]. cbn [mbind res_bind].
  destruct (Z.eqb_spec (k mod 16) 0) as [->|]; [done|]. apply rest_spec. lia.
Qed.

(** ** No chunk overflows, and the late reduction agrees with the reduction per byte *)

Definition raw_byte (s : Z * Z) (b : Z) : Z * Z := (s.1 + b, s.2 + s.1 + b).
Definition raw_sums (s : Z * Z) (bytes : list Z) : Z * Z := foldl raw_byte s bytes.

Lemma do_n_raw w bytes rest s1 s2 :
  32 <= w -> Forall is_byte bytes -> 0 <= s1 -> 0 <= s2 ->
  2 * s2 + 2 * zlen bytes * s1 + 255 * zlen bytes * (zlen bytes + 1) < 2 ^ 33 ->
  do_n w (length bytes) (mk_sums (bytes ++ rest) s1 s2)
  = Ok (mk_sums rest (raw_sums (s1, s2) bytes).1 (raw_sums (s1, s2) bytes).2).
Proof.
  intros Hw Hb. revert s1 s2. induction Hb as [|b bytes Hb _ IH]; intros s1 s2 H1 H2 Hlt; [done|].
  assert (Hp : 2 ^ 32 <= 2 ^ w) by (apply Z.pow_le_mono_r; lia).
  unfold zlen in *. cbn [length] in Hlt. unfold is_byte in Hb.
  cbn [length do_n app DO1 a_buf a_s1 a_s2 mbind res_bind].
  unfold wrap_u. rewrite (Z.mod_small (s1 + b)) by nia. rewrite Z.mod_small by nia.
  cbn [mbind res_bind]. rewrite IH by nia.
  by replace (s2 + (s1 + b)) with (s2 + s1 + b) by lia.
Qed.

Definition cong (s t : Z * Z) : Prop := s.1 mod BASE = t.1 mod BASE /\ s.2 mod BASE = t.2 mod BASE.

Lemma raw_cong bytes s t : cong s t -> cong (raw_sums s bytes) (adler_sums t bytes).
Proof.
  revert s t. induction bytes as [|b bytes IH]; intros s t [H1 H2]; [done|]. apply IH.
  unfold cong, raw_byte, adler_byte. cbn [fst snd]. rewrite !Z.mod_mod by done.
  split; [by rewrite Z.add_mod, H1, <- Z.add_mod|].
  rewrite <- !Z.add_assoc. rewrite (Z.add_mod s.2), (Z.add_mod s.1), H1, H2 by done.
  by rewrite <- (Z.add_mod t.1), <- Z.add_mod.
Qed.

Lemma adler_sums_app s l k : adler_sums s (l ++ k) = adler_sums (adler_sums s l) k.
Proof. apply foldl_app. Qed.

Definition reduced (s : Z * Z) : Prop := 0 <= s.1 < BASE /\ 0 <= s.2 < BASE.

Lemma adler_sums_reduced s bytes : reduced s \/ bytes <> [] -> reduced (adler_sums s bytes).
Proof.
  revert s. induction bytes as [|b bytes IH]; intros s [H|H]; [done|done| |]; apply IH; left;
    (split; apply Z.mod_pos_bound; done).
Qed.

Lemma reduce_raw s bytes :
  bytes <> [] ->
  ((raw_sums s bytes).1 mod BASE, (raw_sums s bytes).2 mod BASE) = adler_sums s bytes.
Proof.
  intros Hne. destruct (raw_cong bytes s s) as [H1 H2]; [done|].
  destruct (adler_sums_reduced s bytes) as [R1 R2]; [by right|].
  rewrite H1, H2, !Z.mod_small by done. by destruct (adler_sums s bytes).
Qed.

Definition half (z : Z) : Prop := 0 <= z < 65536.

Lemma chunks_spec w fuel bytes rest s1 s2 :
  32 <= w -> Forall is_byte bytes -> half s1 -> half s2 -> zlen bytes < Z.of_nat fuel ->
  adler_chunks w fuel (zlen bytes) (mk_sums (bytes ++ rest) s1 s2)
  = Ok (mk_sums rest (adler_sums (s1, s2) bytes).1 (adler_sums (s1, s2) bytes).2).
Proof.
  intros Hw. revert bytes s1 s2. induction fuel as [|fuel IH]; intros bytes s1 s2 Hb H1 H2 Hf; [unfold zlen in Hf; lia|].
  cbn [adler_chunks]. destruct (Z.ltb_spec 0 (zlen bytes)) as [Hpos|Hz].
  2: { by assert (bytes = []) as -> by (destruct bytes; [done|unfold zlen in Hz; cbn in Hz; lia]). }
  set (k := if zlen bytes <? NMAX then zlen bytes else NMAX).
  assert (Hk : 0 < k <= zlen bytes /\ k <= NMAX).
  { unfold k, NMAX. case_zbool; lia. }
  clearbody k.
  rewrite <- (take_drop (Z.to_nat k) bytes). set (b1 := take _ bytes). set (b2 := drop _ bytes).
  assert (L1 : zlen b1 = k) by (unfold b1, zlen; rewrite length_take; unfold zlen in Hk; lia).
  assert (L2 : zlen (b1 ++ b2) - k = zlen b2) by (unfold zlen in *; rewrite length_app; lia).
  assert (L3 : zlen b2 = zlen bytes - k) by (unfold b2, zlen in *; rewrite length_drop; lia).
  assert (Hb1 : Forall is_byte b1) by by apply Forall_take.
  assert (Hb2 : Forall is_byte b2) by by apply Forall_drop.
  assert (Hne : b1 <> []) by (intros E; rewrite E in L1; unfold zlen in L1; cbn in L1; lia).
  pose proof (chunk_spec w k (mk_sums ((b1 ++ b2) ++ rest) s1 s2) ltac:(lia)) as C.
  replace (do_n w (Z.to_nat k)) with (do_n w (length b1)) in C by (f_equal; unfold zlen in L1; lia).
  rewrite <- app_assoc in C |- *. unfold half, NMAX in *.
  rewrite do_n_raw in C; [|done|done|lia|lia|rewrite L1; nia].
  destruct (adler_by16 _ _ _ _) as [[k' st']|]; cbn [mbind res_bind] in C |- *; [|done].
  rewrite C. cbn [mbind res_bind a_buf a_s1 a_s2]. rewrite L2.
  pose proof (reduce_raw (s1, s2) b1 Hne) as R. destruct (adler_sums (s1, s2) b1) as [t1 t2] eqn:ET.
  injection R as -> ->. destruct (adler_sums_reduced (s1, s2) b1) as [R1 R2]; [by right|].
  rewrite ET in R1, R2. unfold BASE in *. cbn [fst snd] in *.
  rewrite IH; [|done|unfold half; lia..|lia]. by rewrite adler_sums_app, ET.
Qed.

Lemma adler_join_ok w s1 s2 :
  32 <= w -> half s1 -> half s2 -> Z.lor (wrap_u w (Z.shiftl s2 16)) s1 = adler_join (s1, s2).
Proof.
  intros Hw H1 H2. unfold half, adler_join, wrap_u in *. cbn [fst snd].
  assert (2 ^ 32 <= 2 ^ w) by (apply Z.pow_le_mono_r; lia).
  rewrite Z.shiftl_mul_pow2 by lia. rewrite Z.mod_small by lia.
  rewrite Z.lor_comm, <- Z.shiftl_mul_pow2, lor_fields by lia. lia.
Qed.

Lemma adler_sums_half s bytes : half s.1 -> half s.2 ->
  half (adler_sums s bytes).1 /\ half (adler_sums s bytes).2.
Proof.
  intros. destruct bytes as [|b bytes]; [done|].
  destruct (adler_sums_reduced s (b :: bytes)) as [R1 R2]; [by right|].
  unfold half, BASE in *. lia.
Qed.

Lemma adler_split_and adler :
  (Z.land adler 0xffff, Z.land (Z.shiftr adler 16) 0xffff) = adler_split adler.
Proof.
  unfold adler_split. change 0xffff with (Z.ones 16). rewrite !Z.land_ones by lia.
  by rewrite Z.shiftr_div_pow2 by lia.
Qed.

Lemma adler32_run w adler bytes rest :
  32 <= w -> Forall is_byte bytes ->
  adler32 w adler (Some (bytes ++ rest)) (zlen bytes) = Ok (adler_ref adler bytes).
Proof.
  intros Hw Hb. unfold adler32, adler_ref. rewrite <- adler_split_and.
  set (s := (_, _)). change (Z.land adler 0xffff) with s.1.
  change (Z.land (Z.shiftr adler 16) 0xffff) with s.2.
  assert (half s.1 /\ half s.2) as [H1 H2].
  { unfold s, half. rewrite adler_split_and. split; apply Z.mod_pos_bound; lia. }
  rewrite chunks_spec by (done || lia). cbn [mbind res_bind a_s1 a_s2].
  destruct (adler_sums_half s bytes H1 H2) as [A B]. rewrite adler_join_ok by done.
  by destruct s, (adler_sums _ bytes).
Qed.

Lemma adler32_all w adler bytes :
  32 <= w -> Forall is_byte bytes -> adler32 w adler (Some bytes) (zlen bytes) = Ok (adler_ref adler bytes).
Proof. intros. pose proof (adler32_run w adler bytes [] ltac:(done) ltac:(done)) as H'. by rewrite app_nil_r in H'. Qed.

Lemma adler_ref_app adler l k : adler_ref (adler_ref adler l) k = adler_ref adler (l ++ k).
Proof.
  unfold adler_ref. rewrite adler_sums_app. f_equal. f_equal.
  assert (H : half (adler_split adler).1 /\ half (adler_split adler).2).
  { split; apply Z.mod_pos_bound; lia. }
  destruct (adler_sums_half (adler_split adler) l) as [A B]; [apply H..|].
  destruct (adler_sums _ l) as [x y]. unfold half, adler_join, adler_split in *. cbn [fst snd] in *.
  f_equal; [rewrite Z.add_comm, Z.mod_add by lia; by apply Z.mod_small|].
  rewrite Z.add_comm, Z.div_add, Z.div_small, Z.add_0_l by lia. by apply Z.mod_small.
Qed.

(** The loop of the header's usage example: the checksum of a stream read piece by piece. *)
Definition adler_stream (w : Z) (pieces : list (list Z)) : res Z :=
  init ← adler32 w 0 None 0;
  foldl (fun acc p => a ← acc; adler32 w a (Some p) (zlen p)) (Ok init) pieces.

(** C28: The routine computes the checksum of RFC 1950, one reduction per byte, although it unrolls
    its additions by sixteen and reduces only every 5552 bytes: no 32-bit sum overflows, whatever
    running value it starts from, and the loop of the header, which hands a stream over piece by
    piece, gives the checksum of the whole stream. *)
Theorem adler32_correct w :
  32 <= w ->
  (forall adler bytes rest, Forall is_byte bytes ->
     adler32 w adler (Some (bytes ++ rest)) (zlen bytes) = Ok (adler_ref adler bytes)) /\
  (forall pieces, Forall is_byte (concat pieces) ->
     adler_stream w pieces = Ok (adler_ref 1 (concat pieces))).
Proof.
  intros Hw. split; [intros; by apply adler32_run|]. intros pieces. unfold adler_stream.
  change (adler32 w 0 None 0) with (Ok (adler_ref 1 [])). cbn [mbind res_bind].
  change (concat pieces) with ([] ++ concat pieces). generalize (@nil Z) as l.
  induction pieces as [|p ps IH]; intros l Hb; [by rewrite app_nil_r|].
  cbn [concat foldl mbind res_bind] in Hb |- *. pose proof Hb as Hp.
  rewrite !Forall_app in Hp. rewrite app_assoc in Hb |- *.
  rewrite adler32_all, adler_ref_app by tauto.
  by apply IH.
Qed.

Lemma adler32_correct_witness :
  adler_stream 32 [[87; 105; 107]; []; [105; 112; 101; 100; 105; 97]] = Ok 0x11E60398.
Proof.
  refine (eq_trans (proj2 (adler32_correct 32 _) [[87; 105; 107]; []; [105; 112; 101; 100; 105; 97]] _) _).
  - lia.
  - repeat constructor; lia.
  - reflexivity.
Defined.

End Adler.

Module Crc.

(** ** The routine *)

Definition crc_table : list Z :=
  [0x00000000; 0x77073096; 0xee0e612c; 0x990951ba; 0x076dc419; 0x706af48f;
   0xe963a535; 0x9e6495a3; 0x0edb8832; 0x79dcb8a4; 0xe0d5e91e; 0x97d2d988;
   0x09b64c2b; 0x7eb17cbd; 0xe7b82d07; 0x90bf1d91; 0x1db71064; 0x6ab020f2;
   0xf3b97148; 0x84be41de; 0x1adad47d; 0x6ddde4eb; 0xf4d4b551; 0x83d385c7;
   0x136c9856; 0x646ba8c0; 0xfd62f97a; 0x8a65c9ec; 0x14015c4f; 0x63066cd9;
   0xfa0f3d63; 0x8d080df5; 0x3b6e20c8; 0x4c69105e; 0xd56041e4; 0xa2677172;
   0x3c03e4d1; 0x4b04d447; 0xd20d85fd; 0xa50ab56b; 0x35b5a8fa; 0x42b2986c;
   0xdbbbc9d6; 0xacbcf940; 0x32d86ce3; 0x45df5c75; 0xdcd60dcf; 0xabd13d59;
   0x26d930ac; 0x51de003a; 0xc8d75180; 0xbfd06116; 0x21b4f4b5; 0x56b3c423;
   0xcfba9599; 0xb8bda50f; 0x2802b89e; 0x5f058808; 0xc60cd9b2; 0xb10be924;
   0x2f6f7c87; 0x58684c11; 0xc1611dab; 0xb6662d3d; 0x76dc4190; 0x01db7106;
   0x98d220bc; 0xefd5102a; 0x71b18589; 0x06b6b51f; 0x9fbfe4a5; 0xe8b8d433;
   0x7807c9a2; 0x0f00f934; 0x9609a88e; 0xe10e9818; 0x7f6a0dbb; 0x086d3d2d;
   0x91646c97; 0xe6635c01; 0x6b6b51f4; 0x1c6c6162; 0x856530d8; 0xf262004e;
   0x6c0695ed; 0x1b01a57b; 0x8208f4c1; 0xf50fc457; 0x65b0d9c6; 0x12b7e950;
   0x8bbeb8ea; 0xfcb9887c; 0x62dd1ddf; 0x15da2d49; 0x8cd37cf3; 0xfbd44c65;
   0x4db26158; 0x3ab551ce; 0xa3bc0074; 0xd4bb30e2; 0x4adfa541; 0x3dd895d7;
   0xa4d1c46d; 0xd3d6f4fb; 0x4369e96a; 0x346ed9fc; 0xad678846; 0xda60b8d0;
   0x44042d73; 0x33031de5; 0xaa0a4c5f; 0xdd0d7cc9; 0x5005713c; 0x270241aa;
   0xbe0b1010; 0xc90c2086; 0x5768b525; 0x206f85b3; 0xb966d409; 0xce61e49f;
   0x5edef90e; 0x29d9c998; 0xb0d09822; 0xc7d7a8b4; 0x59b33d17; 0x2eb40d81;
   0xb7bd5c3b; 0xc0ba6cad; 0xedb88320; 0x9abfb3b6; 0x03b6e20c; 0x74b1d29a;
   0xead54739; 0x9dd277af; 0x04db2615; 0x73dc1683; 0xe3630b12; 0x94643b84;
   0x0d6d6a3e; 0x7a6a5aa8; 0xe40ecf0b; 0x9309ff9d; 0x0a00ae27; 0x7d079eb1;
   0xf00f9344; 0x8708a3d2; 0x1e01f268; 0x6906c2fe; 0xf762575d; 0x806567cb;
   0x196c3671; 0x6e6b06e7; 0xfed41b76; 0x89d32be0; 0x10da7a5a; 0x67dd4acc;
   0xf9b9df6f; 0x8ebeeff9; 0x17b7be43; 0x60b08ed5; 0xd6d6a3e8; 0xa1d1937e;
   0x38d8c2c4; 0x4fdff252; 0xd1bb67f1; 0xa6bc5767; 0x3fb506dd; 0x48b2364b;
   0xd80d2bda; 0xaf0a1b4c; 0x36034af6; 0x41047a60; 0xdf60efc3; 0xa867df55;
   0x316e8eef; 0x4669be79; 0xcb61b38c; 0xbc66831a; 0x256fd2a0; 0x5268e236;
   0xcc0c7795; 0xbb0b4703; 0x220216b9; 0x5505262f; 0xc5ba3bbe; 0xb2bd0b28;
   0x2bb45a92; 0x5cb36a04; 0xc2d7ffa7; 0xb5d0cf31; 0x2cd99e8b; 0x5bdeae1d;
   0x9b64c2b0; 0xec63f226; 0x756aa39c; 0x026d930a; 0x9c0906a9; 0xeb0e363f;
   0x72076785; 0x05005713; 0x95bf4a82; 0xe2b87a14; 0x7bb12bae; 0x0cb61b38;
   0x92d28e9b; 0xe5d5be0d; 0x7cdcefb7; 0x0bdbdf21; 0x86d3d2d4; 0xf1d4e242;
   0x68ddb3f8; 0x1fda836e; 0x81be16cd; 0xf6b9265b; 0x6fb077e1; 0x18b74777;
   0x88085ae6; 0xff0f6a70; 0x66063bca; 0x11010b5c; 0x8f659eff; 0xf862ae69;
   0x616bffd3; 0x166ccf45; 0xa00ae278; 0xd70dd2ee; 0x4e048354; 0x3903b3c2;
   0xa7672661; 0xd06016f7; 0x4969474d; 0x3e6e77db; 0xaed16a4a; 0xd9d65adc;
   0x40df0b66; 0x37d83bf0; 0xa9bcae53; 0xdebb9ec5; 0x47b2cf7f; 0x30b5ffe9;
   0xbdbdf21c; 0xcabac28a; 0x53b39330; 0x24b4a3a6; 0xbad03605; 0xcdd70693;
   0x54de5729; 0x23d967bf; 0xb3667a2e; 0xc4614ab8; 0x5d681b02; 0x2a6f2b94;
   0xb40bbe37; 0xc30c8ea1; 0x5a05df1b; 0x2d02ef8d].

(** One entry of [make_crc_table], which the shipped table was made with. *)
Definition crc_bit (c : Z) : Z :=
  if Z.odd c then Z.lxor 0xedb88320 (Z.shiftr c 1) else Z.shiftr c 1.
Definition make_crc_table : list Z := map (fun n => Nat.iter 8 crc_bit (Z.of_nat n)) (seq 0 256).

(** The index is computed as an int; the mask keeps it inside the table. *)
Definition crc_index (crc b : Z) : Z := Z.land (Z.lxor (i32 crc) b) 0xff.

Definition crc_next (crc b : Z) : res Z :=
  match crc_table !! Z.to_nat (crc_index crc b) with
  | Some t => Ok (Z.lxor t (Z.shiftr crc 8))
  | None => Fault OutOfBounds
  end.

(** [do { ... } while (--len)] *)
Fixpoint crc_loop (fuel : nat) (crc : Z) (buf : list Z) (len : Z) : res Z :=
  match fuel with
  | O => Fault OutOfFuel
  | S fuel =>
      match buf with
      | [] => Fault OutOfBounds
      | b :: rest => crc ← crc_next crc b; if len - 1 =? 0 then Ok crc else crc_loop fuel crc rest (len - 1)
      end
  end.

Definition crc32 (crc : Z) (buf : option (list Z)) (len : Z) : res Z :=
  match buf with
  | None => Ok 0
  | Some buf =>
      let crc := Z.lxor crc 0xffffffff in
      crc ← (if len =? 0 then Ok crc else crc_loop (S (Z.to_nat len)) crc buf len);
      Ok (Z.lxor crc 0xffffffff)
  end.

(** ** The reference: the shift register, one bit at a time *)

Definition crc_byte (c b : Z) : Z := Nat.iter 8 crc_bit (Z.lxor c b).
Definition crc_reg (c : Z) (bytes : list Z) : Z := foldl crc_byte c bytes.
Definition crc_ref (crc : Z) (bytes : list Z) : Z :=
  Z.lxor (crc_reg (Z.lxor crc 0xffffffff) bytes) 0xffffffff.

(** ** The register is linear, and no state but zero leads to zero *)

Ltac xor_solve :=
  apply Z.bits_inj'; intros ? ?; rewrite ?Z.lxor_spec;
  repeat match goal with |- context [Z.testbit ?a ?n] => destruct (Z.testbit a n) end; reflexivity.

Lemma crc_bit_lxor x y : crc_bit (Z.lxor x y) = Z.lxor (crc_bit x) (crc_bit y).
Proof.
  unfold crc_bit. rewrite <- !Z.bit0_odd, Z.lxor_spec, Z.shiftr_lxor.
  destruct (Z.testbit x 0), (Z.testbit y 0); cbn [xorb]; xor_solve.
Qed.

Lemma crc_iter_lxor n x y :
  Nat.iter n crc_bit (Z.lxor x y) = Z.lxor (Nat.iter n crc_bit x) (Nat.iter n crc_bit y).
Proof. induction n as [|n IH]; [done|]. by rewrite !Nat.iter_succ, IH, crc_bit_lxor. Qed.

Lemma crc_iter_0 n : Nat.iter n crc_bit 0 = 0.
Proof. induction n as [|n IH]; [done|]. by rewrite Nat.iter_succ, IH. Qed.

Lemma crc_iter_shift n h : Nat.iter n crc_bit (Z.shiftl h (Z.of_nat n)) = h.
Proof.
  induction n as [|n IH]; [apply Z.shiftl_0_r|]. rewrite Nat.iter_succ_r.
  replace (crc_bit (Z.shiftl h (Z.of_nat (S n)))) with (Z.shiftl h (Z.of_nat n)); [done|].
  unfold crc_bit. rewrite <- Z.bit0_odd, Z.shiftl_spec_low by lia.
  rewrite Z.shiftr_shiftl_l by lia. f_equal. lia.
Qed.

Lemma lxor_u32 x y : is_u32 x -> is_u32 y -> is_u32 (Z.lxor x y).
Proof.
  unfold is_u32. change 4294967296 with (2 ^ 32). intros Hx Hy.
  assert (H : Z.lxor x y = Z.lxor x y mod 2 ^ 32).
  { rewrite <- Z.land_ones by lia. apply Z.bits_inj'. intros i Hi. rewrite Z.land_spec, Z.ones_spec by lia.
    case_bool_decide; [by rewrite andb_true_r|]. rewrite andb_false_r, Z.lxor_spec.
    replace x with (x mod 2 ^ 32) by (by apply Z.mod_small).
    replace y with (y mod 2 ^ 32) by (by apply Z.mod_small).
    by rewrite !Z.mod_pow2_bits_high by lia. }
  rewrite H. apply Z.mod_pos_bound. lia.
Qed.

Lemma crc_bit_u32 x : is_u32 x -> is_u32 (crc_bit x).
Proof.
  intros Hx. assert (is_u32 (Z.shiftr x 1)).
  { unfold is_u32 in *. rewrite Z.shiftr_div_pow2 by lia. pose proof (Z.div_mod x (2 ^ 1)).
    pose proof (Z.mod_pos_bound x (2 ^ 1)). lia. }
  unfold crc_bit. destruct (Z.odd x); [|done]. by apply lxor_u32.
Qed.

Lemma crc_bit_kernel x : is_u32 x -> crc_bit x = 0 -> x = 0.
Proof.
  unfold crc_bit, is_u32. intros Hx. rewrite Z.shiftr_div_pow2 by lia.
  pose proof (Z.div_mod x (2 ^ 1)). pose proof (Zmod_odd x).
  change (2 ^ 1) with 2 in *. destruct (Z.odd x); [|lia].
  intros E%Z.lxor_eq. lia.
Qed.

Lemma crc_iter_kernel n x : is_u32 x -> Nat.iter n crc_bit x = 0 -> x = 0.
Proof.
  revert x. induction n as [|n IH]; intros x Hx; [done|]. rewrite Nat.iter_succ_r. intros E.
  apply crc_bit_kernel; [done|]. apply IH; [by apply crc_bit_u32|done].
Qed.

(** ** The table step is eight bit steps *)

Lemma crc_table_made : crc_table = make_crc_table.
Proof. vm_compute. reflexivity. Qed.

Lemma crc_index_mod crc b : crc_index crc b = Z.land (Z.lxor crc b) 0xff.
Proof.
  unfold crc_index. apply Z.bits_inj'. intros i Hi. change 0xff with (Z.ones 8).
  rewrite !Z.land_spec, !Z.lxor_spec, Z.ones_spec by lia.
  case_bool_decide; [|by rewrite !andb_false_r]. do 2 f_equal.
  rewrite <- (Z.mod_pow2_bits_low (i32 crc) 32), <- (Z.mod_pow2_bits_low crc 32) by lia.
  f_equal. apply (wrap_u_s 32). lia.
Qed.

Lemma split_low x : x = Z.lxor (Z.land x 0xff) (Z.shiftl (Z.shiftr x 8) 8).
Proof.
  apply Z.bits_inj'. intros i Hi. change 0xff with (Z.ones 8).
  rewrite Z.lxor_spec, Z.land_spec, Z.ones_spec by lia.
  case_bool_decide.
  - by rewrite Z.shiftl_spec_low, andb_true_r, xorb_false_r by lia.
  - rewrite Z.shiftl_spec_high, Z.shiftr_spec, andb_false_r by lia.
    by replace (i - 8 + 8) with i by lia.
Qed.

Lemma crc_next_byte crc b : is_byte b -> crc_next crc b = Ok (crc_byte crc b).
Proof.
  intros Hb. unfold crc_next. rewrite crc_index_mod.
  set (x := Z.lxor crc b). assert (Hx : 0 <= Z.land x 0xff < 256).
  { change 0xff with (Z.ones 8). rewrite Z.land_ones by lia. apply Z.mod_pos_bound. lia. }
  rewrite crc_table_made. unfold make_crc_table.
  rewrite list_lookup_fmap, lookup_seq_lt by lia. cbn [fmap option_fmap option_map].
  rewrite Nat.add_0_l, Z2Nat.id by lia. f_equal. unfold crc_byte. fold x.
  rewrite (split_low x) at 2. rewrite crc_iter_lxor, (crc_iter_shift 8). f_equal.
  unfold x. rewrite Z.shiftr_lxor. unfold is_byte in Hb.
  rewrite (Z.shiftr_div_pow2 b), (Z.div_small b), Z.lxor_0_r by lia. done.
Qed.

Lemma crc_loop_spec fuel crc bytes rest :
  Forall is_byte bytes -> 0 < zlen bytes < Z.of_nat fuel ->
  crc_loop fuel crc (bytes ++ rest) (zlen bytes) = Ok (crc_reg crc bytes).
Proof.
  revert crc bytes. induction fuel as [|fuel IH]; intros crc bytes Hb Hl; [lia|].
  destruct bytes as [|b bytes]; [unfold zlen in Hl; cbn [length] in Hl; lia|].
  apply Forall_cons in Hb as [Hb Hbs]. cbn [crc_loop app].
  rewrite crc_next_byte by done. cbn [mbind res_bind].
  assert (E : zlen (b :: bytes) - 1 = zlen bytes) by (unfold zlen; cbn [length]; lia).
  rewrite E. destruct (Z.eqb_spec (zlen bytes) 0) as [Z0|Z0].
  - by destruct bytes; [|cbn in Z0].
  - rewrite IH by (done || unfold zlen in *; lia). done.
Qed.

Lemma crc32_run crc bytes rest :
  Forall is_byte bytes -> crc32 crc (Some (bytes ++ rest)) (zlen bytes) = Ok (crc_ref crc bytes).
Proof.
  intros Hb. unfold crc32. destruct (Z.eqb_spec (zlen bytes) 0) as [Z0|Z0].
  - destruct bytes; [done|by cbn in Z0].
  - rewrite crc_loop_spec by (done || unfold zlen in *; lia). done.
Qed.

Lemma crc_ref_app crc l k : crc_ref (crc_ref crc l) k = crc_ref crc (l ++ k).
Proof.
  unfold crc_ref, crc_reg. rewrite foldl_app. do 2 f_equal.
  by rewrite Z.lxor_assoc, Z.lxor_nilpotent, Z.lxor_0_r.
Qed.

Lemma low_high_disjoint b h : is_byte b -> Z.land b (Z.shiftl h 8) = 0.
Proof.
  intros Hb. apply Z.bits_inj'. intros i Hi. rewrite Z.land_spec, Z.bits_0.
  destruct (Z.ltb_spec i 8); [by rewrite Z.shiftl_spec_low, andb_false_r by lia|].
  replace b with (b mod 2 ^ 8) by (by apply Z.mod_small). by rewrite Z.mod_pow2_bits_high by lia.
Qed.

(** The whole register after a message: the message enters as one number. *)
Lemma crc_reg_load c bytes :
  Forall is_byte bytes -> crc_reg c bytes = Nat.iter (8 * length bytes) crc_bit (Z.lxor c (le_load bytes)).
Proof.
  intros Hb. revert c. induction Hb as [|b bytes Hb Hbs IH]; intros c; [by rewrite Z.lxor_0_r|].
  cbn [crc_reg foldl]. change (foldl crc_byte ?x bytes) with (crc_reg x bytes). rewrite IH.
  replace (8 * length (b :: bytes))%nat with (8 * length bytes + 8)%nat by (cbn [length]; lia).
  rewrite Nat.iter_add. f_equal. unfold crc_byte.
  rewrite <- (crc_iter_shift 8 (le_load bytes)) at 1. rewrite <- crc_iter_lxor. f_equal.
  rewrite Z.lxor_assoc. f_equal. cbn [le_load foldr].
  transitivity (b + le_load bytes * 2 ^ 8); [|unfold le_load; lia].
  rewrite <- (lor_fields b (le_load bytes) 8) by done.
  apply Z.lxor_lor, low_high_disjoint. exact Hb.
Qed.

(** Two registers that meet the same bytes keep the difference they start with, shifted. *)
Lemma crc_reg_lxor c d bytes :
  Forall is_byte bytes ->
  Z.lxor (crc_reg c bytes) (crc_reg d bytes) = Nat.iter (8 * length bytes) crc_bit (Z.lxor c d).
Proof. intros Hb. rewrite !crc_reg_load, <- crc_iter_lxor by done. f_equal. xor_solve. Qed.

Lemma crc_iter_u32 n x : is_u32 x -> is_u32 (Nat.iter n crc_bit x).
Proof. intros Hx. induction n as [|n IH]; [done|]. rewrite Nat.iter_succ. by apply crc_bit_u32. Qed.

Lemma le_load_u32 l : Forall is_byte l -> zlen l <= 4 -> is_u32 (le_load l).
Proof.
  intros Hl Hn. pose proof (le_load_range l Hl). unfold is_u32.
  assert (256 ^ zlen l <= 256 ^ 4) by (apply Z.pow_le_mono_r; lia). lia.
Qed.

(** Two messages that differ in one run of at most four bytes leave different registers. *)
Lemma crc_reg_burst c pre a b post :
  Forall is_byte (pre ++ a ++ post) -> Forall is_byte b -> length a = length b -> zlen a <= 4 ->
  crc_reg c (pre ++ a ++ post) = crc_reg c (pre ++ b ++ post) -> a = b.
Proof.
  rewrite !Forall_app. intros (Hp & Ha & Hq) Hb Hlen H4. unfold crc_reg. rewrite !foldl_app.
  fold (crc_reg c pre). set (d := crc_reg c pre).
  change (crc_reg (crc_reg d a) post = crc_reg (crc_reg d b) post -> a = b). intros E.
  pose proof (le_load_u32 a Ha H4) as Ua.
  assert (Ub : is_u32 (le_load b)) by (apply le_load_u32; [done|unfold zlen in *; lia]).
  pose proof (crc_reg_lxor (crc_reg d a) (crc_reg d b) post Hq) as X.
  rewrite E, Z.lxor_nilpotent in X. symmetry in X.
  rewrite (crc_reg_load d a), (crc_reg_load d b), <- Hlen, <- crc_iter_lxor in X by done.
  replace (Z.lxor (Z.lxor d (le_load a)) (Z.lxor d (le_load b)))
    with (Z.lxor (le_load a) (le_load b)) in X by xor_solve.
  pose proof (lxor_u32 _ _ Ua Ub) as U.
  apply crc_iter_kernel in X; [|by apply crc_iter_u32]. apply crc_iter_kernel in X; [|done].
  apply Z.lxor_eq in X. rewrite <- (le_bytes_load a Ha), <- (le_bytes_load b Hb), X. by rewrite Hlen.
Qed.

(** The loop of the header's usage example. *)
Definition crc_stream (pieces : list (list Z)) : res Z :=
  init ← crc32 0 None 0;
  foldl (fun acc p => c ← acc; crc32 c (Some p) (zlen p)) (Ok init) pieces.

Lemma crc32_all crc bytes :
  Forall is_byte bytes -> crc32 crc (Some bytes) (zlen bytes) = Ok (crc_ref crc bytes).
Proof. intros. pose proof (crc32_run crc bytes [] ltac:(done)) as H'. by rewrite app_nil_r in H'. Qed.

Lemma crc_stream_spec pieces :
  Forall is_byte (concat pieces) -> crc_stream pieces = Ok (crc_ref 0 (concat pieces)).
Proof.
  unfold crc_stream. change (crc32 0 None 0) with (Ok (crc_ref 0 [])). cbn [mbind res_bind].
  change (concat pieces) with ([] ++ concat pieces). generalize (@nil Z) as l.
  induction pieces as [|p ps IH]; intros l Hb; [by rewrite app_nil_r|].
  cbn [concat foldl mbind res_bind] in Hb |- *. pose proof Hb as Hp.
  rewrite !Forall_app in Hp. rewrite app_assoc in Hb |- *.
  rewrite crc32_all, crc_ref_app by tauto. by apply IH.
Qed.

(** C29: The table-driven routine computes the CRC of the polynomial 0xedb88320 bit by bit: the 256
    constants of the table are those that make_crc_table would compute, a table step is eight
    steps of the shift register, the index never leaves the table, and the loop of the header
    gives the CRC of the whole stream however the stream is cut. *)
Theorem crc32_correct :
  crc_table = make_crc_table /\
  (forall crc bytes rest, Forall is_byte bytes ->
     crc32 crc (Some (bytes ++ rest)) (zlen bytes) = Ok (crc_ref crc bytes)) /\
  (forall pieces, Forall is_byte (concat pieces) ->
     crc_stream pieces = Ok (crc_ref 0 (concat pieces))).
Proof. split; [exact crc_table_made|]. split; [exact crc32_run|exact crc_stream_spec]. Qed.

Lemma crc32_correct_witness :
  crc_stream [[49; 50; 51; 52]; [53; 54; 55]; []; [56; 57]] = Ok 0xCBF43926.
Proof.
  refine (eq_trans (proj2 (proj2 crc32_correct) [[49; 50; 51; 52]; [53; 54; 55]; []; [56; 57]] _) _).
  - repeat constructor; lia.
  - vm_compute. reflexivity.
Defined.

(** A corruption of at most four neighbouring bytes never goes unnoticed: two messages of the
    same length that differ only inside a run of four bytes have different checksums. *)
Theorem crc32_detects_bursts crc pre a b post :
  Forall is_byte (pre ++ a ++ post) -> Forall is_byte b ->
  length a = length b -> zlen a <= 4 -> a <> b ->
  crc32 crc (Some (pre ++ a ++ post)) (zlen (pre ++ a ++ post))
  <> crc32 crc (Some (pre ++ b ++ post)) (zlen (pre ++ b ++ post)).
Proof.
  intros Ha Hb Hlen H4 Hne. rewrite !crc32_all by (rewrite !Forall_app in *; tauto).
  intros E. injection E as E. apply Hne, (crc_reg_burst (Z.lxor crc 0xffffffff) pre a b post); [done..|].
  unfold crc_ref in E. apply (f_equal (fun x => Z.lxor x 0xffffffff)) in E.
  by rewrite !Z.lxor_assoc, Z.lxor_nilpotent, !Z.lxor_0_r in E.
Qed.

Lemma crc32_detects_bursts_witness :
  crc32 0 (Some ([1; 2] ++ [3; 4; 5; 6] ++ [7])) 7 <> crc32 0 (Some ([1; 2] ++ [6; 5; 4; 3] ++ [7])) 7.
Proof.
  refine (crc32_detects_bursts 0 [1; 2] [3; 4; 5; 6] [6; 5; 4; 3] [7] _ _ _ _ _); cbn;
    first [done | lia | repeat constructor; lia].
Defined.

End Crc.
