(* ===== verification/Sha.v ===== *)
(** * Sha: the SHA-1 routine that digests passwords (utils/sha.c)

    The context keeps the number of bytes seen, a block of 64 bytes that fills up, and the five
    words of the state. A shift such as [*p++ << 24], whose int result may exceed INT_MAX before
    it is stored in an unsigned word, has the wrapping meaning every supported compiler gives it.
    The reference is the definition of FIPS 180: padding, message schedule, rounds. *)
From S2P Require Import Prelude Words Cstr.
Import Words Cstr.

Module Sha.

Record SHA_CTX := mk_ctx { c_count : Z; c_buf : list Z; c_state : list Z }.

(** The registers A to E. *)
Record regs := mk_regs { rA : Z; rB : Z; rC : Z; rD : Z; rE : Z }.

Definition rol (bits value : Z) : Z :=
  Z.lor (u32 (Z.shiftl value bits)) (Z.shiftr value (32 - bits)).

Definition cell (l : list Z) (i : Z) : res Z :=
  match l !! Z.to_nat i with Some x => Ok x | None => Fault OutOfBounds end.

(** ** The block function *)

(** The first loop of [SHA1_transform]: sixteen words from the block. *)
Fixpoint load_words (n : nat) (p : list Z) : res (list Z) :=
  match n with
  | O => Ok []
  | S n =>
      match p with
      | b0 :: b1 :: b2 :: b3 :: p =>
          let tmp := u32 (Z.shiftl b0 24) in
          let tmp := Z.lor tmp (Z.shiftl b1 16) in
          let tmp := Z.lor tmp (Z.shiftl b2 8) in
          let tmp := Z.lor tmp b3 in
          ws ← load_words n p; Ok (tmp :: ws)
      | _ => Fault OutOfBounds
      end
  end.

(** The second loop: [n] more words behind those of [W]. *)
Fixpoint extend_words (n : nat) (W : list Z) : res (list Z) :=
  match n with
  | O => Ok W
  | S n =>
      let t := zlen W in
      w3 ← cell W (t - 3); w8 ← cell W (t - 8); w14 ← cell W (t - 14); w16 ← cell W (t - 16);
      extend_words n (W ++ [rol 1 (Z.lxor (Z.lxor (Z.lxor w3 w8) w14) w16)])
  end.

Definition round (t : Z) (Wt : Z) (r : regs) : regs :=
  let tmp := u32 (u32 (rol 5 (rA r) + rE r) + Wt) in
  let add :=
    if t <? 20 then u32 (Z.lxor (rD r) (Z.land (rB r) (Z.lxor (rC r) (rD r))) + 0x5A827999)
    else if t <? 40 then u32 (Z.lxor (Z.lxor (rB r) (rC r)) (rD r) + 0x6ED9EBA1)
    else if t <? 60 then
      u32 (Z.lor (Z.land (rB r) (rC r)) (Z.land (rD r) (Z.lor (rB r) (rC r))) + 0x8F1BBCDC)
    else u32 (Z.lxor (Z.lxor (rB r) (rC r)) (rD r) + 0xCA62C1D6) in
  mk_regs (u32 (tmp + add)) (rA r) (rol 30 (rB r)) (rC r) (rD r).

(** The third loop: [n] rounds from round [t] on. *)
Fixpoint rounds (n : nat) (t : Z) (W : list Z) (r : regs) : res regs :=
  match n with
  | O => Ok r
  | S n => Wt ← cell W t; rounds n (t + 1) W (round t Wt r)
  end.

Definition SHA1_transform (ctx : SHA_CTX) : res SHA_CTX :=
  W ← load_words 16 (c_buf ctx);
  W ← extend_words 64 W;
  match c_state ctx with
  | [s0; s1; s2; s3; s4] =>
      r ← rounds 80 0 W (mk_regs s0 s1 s2 s3 s4);
      Ok (mk_ctx (c_count ctx) (c_buf ctx)
            [u32 (s0 + rA r); u32 (s1 + rB r); u32 (s2 + rC r); u32 (s3 + rD r); u32 (s4 + rE r)])
  | _ => Fault OutOfBounds
  end.

(** ** The stream *)

Definition H0 : list Z := [0x67452301; 0xEFCDAB89; 0x98BADCFE; 0x10325476; 0xC3D2E1F0].

(** [SHA_init] leaves the block as it is. *)
Definition SHA_init (ctx : SHA_CTX) : SHA_CTX := mk_ctx 0 (c_buf ctx) H0.

(** [while (len--)]: a negative length runs on to the end of the data. *)
Fixpoint update_loop (ctx : SHA_CTX) (i : Z) (p : list Z) (len : Z) : res SHA_CTX :=
  if len =? 0 then Ok ctx else
  match p with
  | [] => Fault OutOfBounds
  | b :: p =>
      buf ← memcpy (c_buf ctx) i [b] 1;
      let ctx := mk_ctx (c_count ctx) buf (c_state ctx) in
      if i + 1 =? 64 then ctx ← SHA1_transform ctx; update_loop ctx 0 p (len - 1)
      else update_loop ctx (i + 1) p (len - 1)
  end.

Definition SHA_update (ctx : SHA_CTX) (data : list Z) (len : Z) : res SHA_CTX :=
  let i := c_count ctx mod 64 in
  update_loop (mk_ctx (u64 (c_count ctx + len)) (c_buf ctx) (c_state ctx)) i data len.

(** [while ((ctx->count % 64) != 56) SHA_update(ctx, "\0", 1)] *)
Fixpoint pad_loop (fuel : nat) (ctx : SHA_CTX) : res SHA_CTX :=
  match fuel with
  | O => Fault OutOfFuel
  | S fuel =>
      if c_count ctx mod 64 =? 56 then Ok ctx
      else ctx ← SHA_update ctx [0] 1; pad_loop fuel ctx
  end.

(** The eight bytes of the length; [&tmp] points at the low byte. *)
Fixpoint length_loop (n : nat) (cnt : Z) (ctx : SHA_CTX) : res SHA_CTX :=
  match n with
  | O => Ok ctx
  | S k =>
      let tmp := Z.shiftr cnt (Z.of_nat k * 8) in
      ctx ← SHA_update ctx [tmp mod 256] 1; length_loop k cnt ctx
  end.

Definition state_bytes (tmp : Z) : list Z :=
  [u8 (Z.shiftr tmp 24); u8 (Z.shiftr tmp 16); u8 (Z.shiftr tmp 8); u8 tmp].

(** The digest is left at the start of the block, which [SHA_final] returns. *)
Definition SHA_final (ctx : SHA_CTX) : res SHA_CTX :=
  let cnt := u64 (c_count ctx * 8) in
  ctx ← SHA_update ctx [128] 1;
  ctx ← pad_loop 65 ctx;
  ctx ← length_loop 8 cnt ctx;
  let out := flat_map state_bytes (take 5 (c_state ctx)) in
  buf ← memcpy (c_buf ctx) 0 out (zlen out);
  Ok (mk_ctx (c_count ctx) buf (c_state ctx)).

Definition SHA_DIGEST_SIZE : Z := 20.

(** [ctx] is the uninitialised local; the answer is the contents of [digest]. *)
Definition SHA (ctx : SHA_CTX) (data : list Z) (len : Z) (digest : list Z) : res (list Z) :=
  let ctx := SHA_init ctx in
  ctx ← SHA_update ctx data len;
  ctx ← SHA_final ctx;
  memcpy digest 0 (c_buf ctx) SHA_DIGEST_SIZE.

(** ** FIPS 180 *)

Definition ROTL (n x : Z) : Z := (x * 2 ^ n) mod 2 ^ 32 + x / 2 ^ (32 - n).

Definition Ch (x y z : Z) : Z := Z.lxor (Z.land x y) (Z.land (Z.lnot x) z).
Definition Parity (x y z : Z) : Z := Z.lxor (Z.lxor x y) z.
Definition Maj (x y z : Z) : Z := Z.lxor (Z.lxor (Z.land x y) (Z.land x z)) (Z.land y z).

Definition f_t (t : Z) : Z -> Z -> Z -> Z :=
  if t <? 20 then Ch else if t <? 40 then Parity else if t <? 60 then Maj else Parity.
Definition K_t (t : Z) : Z :=
  if t <? 20 then 0x5A827999 else if t <? 40 then 0x6ED9EBA1
  else if t <? 60 then 0x8F1BBCDC else 0xCA62C1D6.

(** The message schedule: [n] words from a window of sixteen. *)
Fixpoint schedule (n : nat) (win : list Z) : list Z :=
  match n with
  | O => []
  | S n =>
      let at_ i := default 0 (win !! i) in
      at_ 0%nat :: schedule n (tail win ++
        [ROTL 1 (Z.lxor (Z.lxor (Z.lxor (at_ 13%nat) (at_ 8%nat)) (at_ 2%nat)) (at_ 0%nat))])
  end.

Fixpoint words (block : list Z) : list Z :=
  match block with
  | b0 :: b1 :: b2 :: b3 :: rest => le_load [b3; b2; b1; b0] :: words rest
  | _ => []
  end.

Definition fips_round (r : regs) (tw : Z * Z) : regs :=
  let '(t, Wt) := tw in
  mk_regs ((ROTL 5 (rA r) + f_t t (rB r) (rC r) (rD r) + rE r + K_t t + Wt) mod 2 ^ 32)
    (rA r) (ROTL 30 (rB r)) (rC r) (rD r).

Definition compress (H : list Z) (block : list Z) : list Z :=
  match H with
  | [h0; h1; h2; h3; h4] =>
      let r := foldl fips_round (mk_regs h0 h1 h2 h3 h4) (zip (seqZ 0 80) (schedule 80 (words block))) in
      map (fun x => x mod 2 ^ 32) [h0 + rA r; h1 + rB r; h2 + rC r; h3 + rD r; h4 + rE r]
  | _ => H
  end.

Definition pad (msg : list Z) : list Z :=
  msg ++ [128] ++ replicate (Z.to_nat ((55 - zlen msg) mod 64)) 0 ++ be_bytes 8 (8 * zlen msg).

Fixpoint chunks (n : nat) (l : list Z) : list (list Z) :=
  match n with O => [] | S n => take 64 l :: chunks n (drop 64 l) end.

Definition sha1 (msg : list Z) : list Z :=
  let p := pad msg in
  flat_map (be_bytes 4) (foldl compress H0 (chunks (length p / 64)%nat p)).

Definition junk : SHA_CTX := mk_ctx 7 (replicate 64 0xaa) [1; 2; 3; 4; 5].

Example sha_abc :
  SHA junk [97; 98; 99] 3 (replicate 20 0) =
    Ok (be_bytes 20 0xa9993e364706816aba3e25717850c26c9cd0d89d).
Proof. vm_compute. reflexivity. Qed.

Example sha1_abc : sha1 [97; 98; 99] = be_bytes 20 0xa9993e364706816aba3e25717850c26c9cd0d89d.
Proof. vm_compute. reflexivity. Qed.

(** ** The bit tricks of the rounds *)

Ltac bits_solve :=
  apply Z.bits_inj'; intros ? ?;
  rewrite ?Z.lxor_spec, ?Z.land_spec, ?Z.lor_spec, ?Z.lnot_spec, ?Z.lxor_spec, ?Z.land_spec, ?Z.lor_spec by done;
  repeat match goal with |- context [Z.testbit ?a ?n] => destruct (Z.testbit a n) end; reflexivity.

Lemma ch_trick b c d : Z.lxor d (Z.land b (Z.lxor c d)) = Ch b c d.
Proof. unfold Ch. bits_solve. Qed.

Lemma maj_trick b c d : Z.lor (Z.land b c) (Z.land d (Z.lor b c)) = Maj b c d.
Proof. unfold Maj. bits_solve. Qed.

Lemma rol_ROTL n x : 0 <= n <= 32 -> is_u32 x -> rol n x = ROTL n x.
Proof.
  intros Hn Hx. unfold rol, ROTL, wrap_u.
  pose proof (Z.pow_pos_nonneg 2 n ltac:(lia) ltac:(lia)).
  pose proof (Z.pow_pos_nonneg 2 (32 - n) ltac:(lia) ltac:(lia)). rewrite Z.shiftl_mul_pow2, Z.shiftr_div_pow2 by lia.
  assert (E : (x * 2 ^ n) mod 2 ^ 32 = Z.shiftl (x mod 2 ^ (32 - n)) n).
  { replace (2 ^ 32) with (2 ^ n * 2 ^ (32 - n)) by (rewrite <- Z.pow_add_r by lia; f_equal; lia).
    rewrite (Z.mul_comm x), Zmult_mod_distr_l. rewrite Z.shiftl_mul_pow2 by lia. lia. }
  rewrite E, Z.lor_comm, lor_fields, Z.shiftl_mul_pow2; [lia|lia|lia|].
  unfold is_u32 in Hx. split; [apply Z.div_pos; lia|]. apply Z.div_lt_upper_bound; [lia|].
  rewrite <- Z.pow_add_r by lia. replace (32 - n + n) with 32 by lia. lia.
Qed.

Lemma ROTL_u32 n x : 0 <= n <= 32 -> is_u32 x -> is_u32 (ROTL n x).
Proof.
  intros Hn Hx. unfold ROTL, is_u32 in *.
  pose proof (Z.pow_pos_nonneg 2 n ltac:(lia) ltac:(lia)).
  pose proof (Z.pow_pos_nonneg 2 (32 - n) ltac:(lia) ltac:(lia)).
  replace (2 ^ 32) with (2 ^ n * 2 ^ (32 - n)) by (rewrite <- Z.pow_add_r by lia; f_equal; lia).
  rewrite (Z.mul_comm x), Zmult_mod_distr_l.
  pose proof (Z.mod_pos_bound x (2 ^ (32 - n))). 
  assert (0 <= x / 2 ^ (32 - n) < 2 ^ n).
  { split; [apply Z.div_pos; lia|]. apply Z.div_lt_upper_bound; [lia|].
    rewrite <- Z.pow_add_r by lia. replace (32 - n + n) with 32 by lia. lia. }
  assert (2 ^ n * 2 ^ (32 - n) = 4294967296) by (rewrite <- Z.pow_add_r by lia; by replace (n + (32 - n)) with 32 by lia).
  nia.
Qed.

Definition regs_ok (r : regs) : Prop :=
  is_u32 (rA r) /\ is_u32 (rB r) /\ is_u32 (rC r) /\ is_u32 (rD r) /\ is_u32 (rE r).

Lemma round_fips t w r : regs_ok r -> round t w r = fips_round r (t, w).
Proof.
  intros (HA & HB & HC & HD & HE). unfold round, fips_round, f_t, K_t.
  rewrite ch_trick, maj_trick, (rol_ROTL 5), (rol_ROTL 30) by (done || lia). unfold Parity, wrap_u.
  f_equal. case_zbool_with idtac; 
    repeat first [rewrite Z.add_mod_idemp_l by done | rewrite Z.add_mod_idemp_r by done];
    rewrite <- !Z.add_assoc, Z.add_mod_idemp_l by done; f_equal; lia.
Qed.

Lemma fips_round_ok r tw : regs_ok r -> regs_ok (fips_round r tw).
Proof.
  destruct tw as [t w]. intros (HA & HB & HC & HD & HE).
  repeat split; cbn [rA rB rC rD rE fips_round]; try apply HA; try apply HC; try apply HD;
    try (apply ROTL_u32; [lia|done]); apply Z.mod_pos_bound; lia.
Qed.

Lemma rounds_spec n t W r :
  0 <= t -> zlen W = t + Z.of_nat n -> regs_ok r ->
  rounds n t W r = Ok (foldl fips_round r (zip (seqZ t (Z.of_nat n)) (zdrop t W))).
Proof.
  revert t r. induction n as [|n IH]; intros t r Ht HW Hr; [done|].
  assert (Z.to_nat t < length W)%nat as Hlt by (unfold zlen in HW; lia).
  destruct (lookup_lt_is_Some_2 _ _ Hlt) as [x Hx]. cbn [rounds]. unfold cell. rewrite Hx.
  cbn [mbind res_bind]. unfold zdrop. rewrite (drop_S _ _ _ Hx), seqZ_cons by lia.
  cbn [zip_with foldl]. rewrite round_fips by done.
  rewrite IH by (lia || by apply fips_round_ok). unfold zdrop.
  by replace (Z.to_nat (t + 1)) with (S (Z.to_nat t)) by lia; replace (Z.pred (Z.of_nat (S n))) with (Z.of_nat n) by lia;
    replace (Z.succ t) with (t + 1) by lia.
Qed.

(** ** The block function is that of FIPS 180 *)

Definition words_ok (l : list Z) : Prop := Forall is_u32 l.

Lemma word_load b0 b1 b2 b3 :
  is_byte b0 -> is_byte b1 -> is_byte b2 -> is_byte b3 ->
  Z.lor (Z.lor (Z.lor (u32 (Z.shiftl b0 24)) (Z.shiftl b1 16)) (Z.shiftl b2 8)) b3
  = le_load [b3; b2; b1; b0].
Proof.
  intros H0 H1 H2 H3. rewrite <- or_bytes_load by (repeat (apply Forall_cons_2; [done|]); apply Forall_nil_2).
  unfold or_bytes. cbn [foldr]. unfold is_byte, wrap_u in *.
  rewrite (Z.shiftl_mul_pow2 b0 24), (Z.mod_small (b0 * 2 ^ 24)), <- (Z.shiftl_mul_pow2 b0 24) by lia.
  rewrite !Z.shiftl_lor, !Z.shiftl_shiftl, Z.shiftl_0_l, Z.lor_0_r by lia.
  change (8 + 8) with 16. change (16 + 8) with 24. change (8 + 16) with 24.
  bits_solve.
Qed.

Lemma load_words_spec n block :
  Forall is_byte block -> length block = (4 * n)%nat ->
  load_words n block = Ok (words block) /\ words_ok (words block) /\ length (words block) = n.
Proof.
  revert block. induction n as [|n IH]; intros block Hb Hl.
  - destruct block; [|done]. repeat split; constructor.
  - destruct block as [|b0 [|b1 [|b2 [|b3 rest]]]]; cbn [length] in Hl; try lia.
    rewrite !Forall_cons in Hb. destruct Hb as (H0 & H1 & H2 & H3 & Hb).
    destruct (IH rest) as (E & O & L); [done|lia|]. cbn [load_words words]. rewrite E, word_load by done.
    cbn [mbind res_bind length]. split; [done|]. split; [|lia]. constructor; [|done].
    pose proof (le_load_range [b3; b2; b1; b0]) as R. apply R. repeat (apply Forall_cons_2; [done|]); apply Forall_nil_2.
Qed.

Lemma lxor_word x y : is_u32 x -> is_u32 y -> is_u32 (Z.lxor x y).
Proof.
  unfold is_u32. change 4294967296 with (2 ^ 32). intros Hx Hy.
  replace (Z.lxor x y) with (Z.lxor x y mod 2 ^ 32); [apply Z.mod_pos_bound; lia|].
  rewrite <- Z.land_ones by lia. apply Z.bits_inj'. intros i Hi. rewrite Z.land_spec, Z.ones_spec by lia.
  case_bool_decide; [by rewrite andb_true_r|]. rewrite andb_false_r, Z.lxor_spec.
  rewrite <- (Z.mod_small x (2 ^ 32)), <- (Z.mod_small y (2 ^ 32)) by done.
  by rewrite !Z.mod_pow2_bits_high by lia.
Qed.

Lemma list_of_16 (l : list Z) : length l = 16%nat ->
  exists w0 w1 w2 w3 w4 w5 w6 w7 w8 w9 w10 w11 w12 w13 w14 w15,
    l = [w0; w1; w2; w3; w4; w5; w6; w7; w8; w9; w10; w11; w12; w13; w14; w15].
Proof. intros H. do 16 (destruct l as [|? l]; [done|]). destruct l; [|done]. by repeat eexists. Qed.

Lemma cell_back (pre win : list Z) k x d :
  win !! k = Some x -> length win = 16%nat -> (k < 16)%nat -> d = 16 - Z.of_nat k ->
  cell (pre ++ win) (zlen (pre ++ win) - d) = Ok x.
Proof.
  intros Hx Hl Hk ->. unfold cell. rewrite lookup_app_r; rewrite ?zlen_app; unfold zlen; [|lia].
  replace (Z.to_nat _ - length pre)%nat with k by lia. by rewrite Hx.
Qed.

Lemma extend_words_spec n pre win :
  words_ok win -> length win = 16%nat ->
  extend_words n (pre ++ win) = Ok (pre ++ schedule (n + 16) win).
Proof.
  revert pre win. induction n as [|n IH]; intros pre win Hok Hl.
  - destruct (list_of_16 win Hl) as (?&?&?&?&?&?&?&?&?&?&?&?&?&?&?&?&->). reflexivity.
  - cbn [extend_words Nat.add]. pose proof Hl as Hwin. apply list_of_16 in Hwin
      as (w0&w1&w2&w3&w4&w5&w6&w7&w8&w9&w10&w11&w12&w13&w14&w15&E).
    rewrite (cell_back pre win 13 w13 3), (cell_back pre win 8 w8 8),
      (cell_back pre win 2 w2 14), (cell_back pre win 0 w0 16) by (rewrite ?E; done || lia).
    cbn [mbind res_bind]. unfold words_ok in Hok. rewrite E, !Forall_cons in Hok.
    rewrite rol_ROTL; [|lia|repeat apply lxor_word; tauto].
    cbn [schedule]. rewrite E. cbn [lookup list_lookup default from_option tail id].
    match goal with |- context [ROTL 1 ?y] => set (x := ROTL 1 y) end.
    change ((pre ++ [w0; w1; w2; w3; w4; w5; w6; w7; w8; w9; w10; w11; w12; w13; w14; w15]) ++ [x])
      with ((pre ++ [w0] ++ [w1; w2; w3; w4; w5; w6; w7; w8; w9; w10; w11; w12; w13; w14; w15]) ++ [x]).
    rewrite (app_assoc pre), <- app_assoc, IH; [by rewrite <- app_assoc|..|done].
    assert (is_u32 x) by (apply ROTL_u32; [lia|repeat apply lxor_word; tauto]).
    unfold words_ok. cbn [app]. rewrite !Forall_cons. tauto.
Qed.

Lemma extend_words_all n m win :
  words_ok win -> length win = 16%nat -> m = (n + 16)%nat -> extend_words n win = Ok (schedule m win).
Proof. intros Hok Hl ->. exact (extend_words_spec n [] win Hok Hl). Qed.

Lemma length_schedule n win : length (schedule n win) = n.
Proof. revert win. induction n as [|n IH]; intros win; [done|]. cbn [schedule length]. by rewrite IH. Qed.

Definition state_ok (st : list Z) : Prop := words_ok st /\ length st = 5%nat.
Definition block_ok (b : list Z) : Prop := Forall is_byte b /\ length b = 64%nat.

Lemma list_of_5 (l : list Z) : length l = 5%nat -> exists a b c d e, l = [a; b; c; d; e].
Proof. intros H. do 5 (destruct l as [|? l]; [done|]). destruct l; [|done]. by repeat eexists. Qed.

Lemma compress_ok H block : state_ok H -> state_ok (compress H block).
Proof.
  intros [_ L]. apply list_of_5 in L as (a & b & c & d & e & ->). cbn [compress].
  split; [|done]. unfold words_ok. apply Forall_fmap, Forall_forall. intros x _. apply Z.mod_pos_bound. lia.
Qed.

Lemma transform_spec n buf st :
  block_ok buf -> state_ok st ->
  SHA1_transform (mk_ctx n buf st) = Ok (mk_ctx n buf (compress st buf)).
Proof.
  intros [Hb Hl] [Hs L]. unfold SHA1_transform. cbn [c_buf c_state c_count].
  destruct (load_words_spec 16 buf Hb Hl) as (-> & Hw & Lw). cbn [mbind res_bind].
  rewrite (extend_words_all 64 80 (words buf)) by done. cbn [mbind res_bind]. unfold words_ok in Hs.
  apply list_of_5 in L as (a & b & c & d & e & ->). rewrite !Forall_cons in Hs.
  rewrite rounds_spec; [|lia|unfold zlen; by rewrite length_schedule|unfold regs_ok; tauto].
  unfold compress, zdrop. rewrite drop_0. replace (Z.of_nat 80) with 80 by done.
  set (r := foldl fips_round _ _). reflexivity.
Qed.

(** ** The stream: what the context remembers of the message *)

(** The block and the state after [msg], cut into whole blocks and a rest. *)
Definition digested (ctx : SHA_CTX) (msg : list Z) : Prop :=
  zlen (c_buf ctx) = 64 /\
  exists blocks rest,
    msg = concat blocks ++ rest /\ Forall block_ok blocks /\ Forall is_byte rest /\ zlen rest < 64 /\
    ztake (zlen rest) (c_buf ctx) = rest /\ c_state ctx = foldl compress H0 blocks.

Definition sha_inv (ctx : SHA_CTX) (msg : list Z) : Prop :=
  c_count ctx = u64 (zlen msg) /\ digested ctx msg.

Lemma H0_ok : state_ok H0.
Proof. split; [|done]. unfold words_ok, H0. rewrite !Forall_cons. unfold is_u32. repeat split; done || lia. Qed.

Lemma blocks_state_ok blocks : state_ok (foldl compress H0 blocks).
Proof.
  rewrite <- (rev_involutive blocks). induction (rev blocks) as [|b bs IH]; [exact H0_ok|].
  cbn [rev]. rewrite foldl_app. by apply compress_ok.
Qed.

Lemma zlen_blocks blocks : Forall block_ok blocks -> zlen (concat blocks) = 64 * zlen blocks.
Proof.
  induction 1 as [|b bs [_ Hb] _ IH]; [done|]. cbn [concat].
  rewrite zlen_app, zlen_cons, IH. unfold zlen at 1. lia.
Qed.

(** The place in the block is the length of the part not yet digested. *)
Lemma rest_mod blocks rest :
  Forall block_ok blocks -> zlen rest < 64 -> zlen (concat blocks ++ rest) mod 64 = zlen rest.
Proof.
  intros Hb Hr. rewrite zlen_app, zlen_blocks by done. pose proof (zlen_nonneg rest).
  rewrite (Z.mul_comm 64), Z.add_comm, Z.mod_add by lia. by apply Z.mod_small.
Qed.

Lemma u64_mod64 z : u64 z mod 64 = z mod 64.
Proof.
  unfold wrap_u. replace (2 ^ 64) with (64 * 2 ^ 58) by done. apply Z.mod_mod_divide. by exists (2 ^ 58).
Qed.

(** One turn of the loop of [SHA_update]. *)
Definition put_byte (ctx : SHA_CTX) (i b : Z) : res SHA_CTX :=
  buf ← memcpy (c_buf ctx) i [b] 1;
  let ctx := mk_ctx (c_count ctx) buf (c_state ctx) in
  if i + 1 =? 64 then SHA1_transform ctx else Ok ctx.

Lemma mod64_succ i : 0 <= i -> (i + 1) mod 64 = if i mod 64 + 1 =? 64 then 0 else i mod 64 + 1.
Proof.
  intros Hi. rewrite (Z.div_mod i 64) at 1 by lia. pose proof (Z.mod_pos_bound i 64).
  replace (64 * (i / 64) + i mod 64 + 1) with (i mod 64 + 1 + (i / 64) * 64) by lia.
  rewrite Z.mod_add by lia. case_zbool; [by replace (i mod 64 + 1) with 64 by lia|].
  apply Z.mod_small. lia.
Qed.

Lemma update_loop_cons ctx msg b p len :
  len <> 0 ->
  update_loop ctx (zlen msg mod 64) (b :: p) len
  = (ctx ← put_byte ctx (zlen msg mod 64) b; update_loop ctx (zlen (msg ++ [b]) mod 64) p (len - 1)).
Proof.
  intros Hlen. cbn [update_loop]. destruct (Z.eqb_spec len 0); [done|]. unfold put_byte.
  rewrite zlen_app. change (zlen [b]) with 1. rewrite mod64_succ by apply zlen_nonneg.
  destruct (memcpy _ _ _ _) as [buf|]; [|done]. cbn [mbind res_bind].
  by destruct (_ =? 64).
Qed.

Lemma put_byte_spec ctx msg b :
  is_byte b -> digested ctx msg ->
  exists ctx', put_byte ctx (zlen msg mod 64) b = Ok ctx' /\ c_count ctx' = c_count ctx /\
    digested ctx' (msg ++ [b]).
Proof.
  intros Hb [L (blocks & rest & -> & Hbl & Hr & Lr & Er & Es)]. unfold put_byte.
  pose proof (zlen_nonneg rest). rewrite rest_mod, memcpy_ok by (done || change (zlen [b]) with 1; lia).
  cbn [mbind res_bind]. set (buf := splice _ _ _).
  assert (Lb : zlen buf = 64) by (unfold buf; rewrite zlen_splice; change (zlen (ztake 1 [b])) with 1; lia).
  assert (T : ztake (zlen rest + 1) buf = rest ++ [b]).
  { unfold buf. change (ztake 1 [b]) with [b]. rewrite ztake_splice_after; change (zlen [b]) with 1; [|lia..].
    by rewrite Er. }
  assert (Hrb : Forall is_byte (rest ++ [b])) by (apply Forall_app; split; [done|by constructor]).
  destruct (Z.eqb_spec (zlen rest + 1) 64) as [E|E].
  - assert (B : block_ok buf).
    { rewrite E, ztake_all in T by lia. rewrite T. split; [done|]. unfold zlen in *. rewrite length_app. cbn. lia. }
    rewrite Es, transform_spec by (done || apply blocks_state_ok). eexists. split; [done|]. split; [done|].
    split; [done|]. exists (blocks ++ [buf]), []. rewrite concat_app, foldl_app. cbn [concat foldl].
    rewrite !app_nil_r. rewrite E, ztake_all in T by lia. rewrite T, app_assoc.
    repeat split; try done. apply Forall_app. split; [done|]. rewrite <- T. by constructor.
  - eexists. split; [done|]. split; [done|]. split; [done|]. exists blocks, (rest ++ [b]).
    rewrite zlen_app. change (zlen [b]) with 1. repeat split; try done; [by rewrite app_assoc|lia].
Qed.

Lemma update_loop_spec data tail ctx msg :
  Forall is_byte data -> digested ctx msg ->
  exists ctx', update_loop ctx (zlen msg mod 64) (data ++ tail) (zlen data) = Ok ctx' /\
    c_count ctx' = c_count ctx /\ digested ctx' (msg ++ data).
Proof.
  intros Hd. revert ctx msg. induction Hd as [|b data Hb _ IH]; intros ctx msg D.
  - exists ctx. rewrite app_nil_r. split; [|done]. by destruct tail.
  - cbn [app]. rewrite update_loop_cons by (rewrite zlen_cons; pose proof (zlen_nonneg data); lia).
    destruct (put_byte_spec ctx msg b Hb D) as (c1 & -> & C1 & D1). cbn [mbind res_bind].
    replace (zlen (b :: data) - 1) with (zlen data) by (rewrite zlen_cons; lia).
    destruct (IH c1 (msg ++ [b]) D1) as (c2 & -> & C2 & D2). exists c2.
    rewrite <- app_assoc in D2. split; [done|]. by rewrite C2.
Qed.

Lemma update_spec ctx msg data tail :
  Forall is_byte data -> sha_inv ctx msg ->
  exists ctx', SHA_update ctx (data ++ tail) (zlen data) = Ok ctx' /\ sha_inv ctx' (msg ++ data).
Proof.
  intros Hd [C D]. unfold SHA_update. rewrite C, u64_mod64.
  destruct (update_loop_spec data tail (mk_ctx (u64 (u64 (zlen msg) + zlen data)) (c_buf ctx) (c_state ctx)) msg)
    as (c & -> & C' & D'); [done..|]. exists c. split; [done|]. split; [|done].
  rewrite C', zlen_app. cbn [c_count]. unfold wrap_u. by rewrite Z.add_mod_idemp_l.
Qed.

Lemma update_byte ctx msg b :
  is_byte b -> sha_inv ctx msg ->
  exists ctx', SHA_update ctx [b] 1 = Ok ctx' /\ sha_inv ctx' (msg ++ [b]).
Proof. intros Hb. apply (update_spec ctx msg [b] []). by constructor. Qed.

(** ** The padding and the digest *)

Lemma pad_loop_spec k : forall fuel ctx msg,
  sha_inv ctx msg -> (56 - zlen msg) mod 64 = Z.of_nat k -> (k < fuel)%nat ->
  exists ctx', pad_loop fuel ctx = Ok ctx' /\ sha_inv ctx' (msg ++ replicate k 0).
Proof.
  induction k as [|k IH]; intros fuel ctx msg I Hk Hf; (destruct fuel as [|fuel]; [lia|]); cbn [pad_loop];
    pose proof (proj1 I) as C; rewrite C, u64_mod64;
    pose proof (Z.div_mod (56 - zlen msg) 64 ltac:(lia)); pose proof (Z.div_mod (zlen msg) 64 ltac:(lia));
    pose proof (Z.mod_pos_bound (zlen msg) 64 ltac:(lia));
    pose proof (Z.mod_pos_bound (56 - zlen msg) 64 ltac:(lia)); destruct (Z.eqb_spec (zlen msg mod 64) 56); try lia.
  - exists ctx. by rewrite app_nil_r.
  - destruct (update_byte ctx msg 0) as (c1 & -> & I1); [unfold is_byte; lia|done|]. cbn [mbind res_bind].
    destruct (IH fuel c1 (msg ++ [0])) as (c2 & -> & I2); [done| |lia|].
    + rewrite zlen_app. change (zlen [0]) with 1. symmetry.
      apply (Z.mod_unique _ _ ((56 - zlen msg) / 64)); lia.
    + exists c2. split; [done|]. by rewrite <- app_assoc in I2.
Qed.

Lemma be_bytes_S n z : be_bytes (S n) z = Z.shiftr z (8 * Z.of_nat n) mod 256 :: be_bytes n z.
Proof.
  unfold be_bytes. rewrite !le_bytes_at0, seq_S, map_app, rev_app_distr. reflexivity.
Qed.

Lemma length_loop_spec n cnt : forall ctx msg,
  sha_inv ctx msg -> exists ctx', length_loop n cnt ctx = Ok ctx' /\ sha_inv ctx' (msg ++ be_bytes n cnt).
Proof.
  induction n as [|k IH]; intros ctx msg I; cbn [length_loop].
  - exists ctx. by rewrite app_nil_r.
  - destruct (update_byte ctx msg (Z.shiftr cnt (Z.of_nat k * 8) mod 256)) as (c1 & -> & I1);
      [apply Z.mod_pos_bound; lia|done|]. cbn [mbind res_bind].
    destruct (IH c1 _ I1) as (c2 & -> & I2). exists c2. split; [done|].
    rewrite <- app_assoc in I2. by rewrite be_bytes_S, (Z.mul_comm 8).
Qed.

Lemma state_bytes_be x : is_u32 x -> state_bytes x = be_bytes 4 x.
Proof.
  intros Hx. rewrite !be_bytes_S. unfold state_bytes, wrap_u. cbn [Z.of_nat Z.mul].
  by rewrite Z.shiftr_0_r.
Qed.

Lemma chunks_concat blocks : Forall block_ok blocks -> chunks (length blocks) (concat blocks) = blocks.
Proof.
  induction 1 as [|b bs [_ Hb] _ IH]; [done|]. cbn [length chunks concat].
  rewrite take_app_length', drop_app_length', IH by done. done.
Qed.

(** The digest of a context is that of the blocks of its message, once there is no rest. *)
Lemma digested_whole ctx msg :
  digested ctx msg -> zlen msg mod 64 = 0 ->
  c_state ctx = foldl compress H0 (chunks (length msg / 64)%nat msg) /\ zlen (c_buf ctx) = 64.
Proof.
  intros [L (blocks & rest & -> & Hbl & _ & Lr & _ & Es)] M. rewrite rest_mod in M by done.
  assert (rest = []) as -> by (destruct rest; [done|unfold zlen in M; cbn in M; lia]).
  rewrite app_nil_r. split; [|done]. rewrite Es. f_equal.
  replace (length (concat blocks) / 64)%nat with (length blocks); [by rewrite chunks_concat|].
  pose proof (zlen_blocks blocks Hbl) as Z1. unfold zlen in Z1.
  replace (length (concat blocks)) with (length blocks * 64)%nat by lia. by rewrite Nat.div_mul.
Qed.

Lemma digest_bytes st : state_ok st -> flat_map state_bytes (take 5 st) = flat_map (be_bytes 4) st.
Proof.
  intros [Hs L]. rewrite take_ge by lia. clear L. induction Hs as [|x l Hx Hl IH]; [done|].
  cbn [flat_map]. by rewrite state_bytes_be, IH.
Qed.

Lemma pad_mod msg : zlen (pad msg) mod 64 = 0.
Proof.
  unfold pad. rewrite !zlen_app, zlen_replicate, zlen_be_bytes. change (zlen [128]) with 1.
  pose proof (Z.mod_pos_bound (55 - zlen msg) 64 ltac:(lia)). pose proof (Z.div_mod (55 - zlen msg) 64 ltac:(lia)).
  symmetry. apply (Z.mod_unique _ _ (1 - (55 - zlen msg) / 64)); lia.
Qed.

Lemma final_spec ctx msg :
  sha_inv ctx msg -> zlen msg < 2 ^ 61 ->
  exists ctx', SHA_final ctx = Ok ctx' /\ zlen (c_buf ctx') = 64 /\ ztake 20 (c_buf ctx') = sha1 msg.
Proof.
  intros I Hlen. unfold SHA_final. pose proof (zlen_nonneg msg).
  assert (Hc : u64 (c_count ctx * 8) = 8 * zlen msg).
  { rewrite (proj1 I). unfold wrap_u. rewrite (Z.mod_small (zlen msg)) by lia. rewrite Z.mod_small by lia. lia. }
  rewrite Hc. destruct (update_byte ctx msg 128) as (c1 & -> & I1); [unfold is_byte; lia|done|].
  cbn [mbind res_bind]. set (k := Z.to_nat ((55 - zlen msg) mod 64)).
  pose proof (Z.mod_pos_bound (55 - zlen msg) 64 ltac:(lia)).
  destruct (pad_loop_spec k 65 c1 (msg ++ [128])) as (c2 & -> & I2); [done| |lia|].
  { rewrite zlen_app. change (zlen [128]) with 1.
    replace (56 - (zlen msg + 1)) with (55 - zlen msg) by lia. lia. }
  cbn [mbind res_bind]. destruct (length_loop_spec 8 (8 * zlen msg) c2 _ I2) as (c3 & -> & I3).
  cbn [mbind res_bind]. rewrite <- !app_assoc in I3. fold (pad msg) in I3. destruct I3 as [_ D].
  pose proof (digested_whole c3 (pad msg) D (pad_mod msg)) as [Es L].
  pose proof (blocks_state_ok (chunks (length (pad msg) / 64) (pad msg))) as Ok5.
  rewrite <- Es in Ok5. rewrite digest_bytes by done.
  assert (L20 : zlen (flat_map (be_bytes 4) (c_state c3)) = 20).
  { destruct Ok5 as [_ L5]. apply list_of_5 in L5 as (?&?&?&?&?&->). done. }
  rewrite memcpy_ok by lia. cbn [mbind res_bind c_buf]. eexists. split; [done|].
  rewrite ztake_all by lia. cbn [c_buf]. split; [rewrite zlen_splice; lia|].
  rewrite ztake_splice_0 by lia. unfold sha1. by rewrite Es.
Qed.

Lemma init_inv ctx : zlen (c_buf ctx) = 64 -> sha_inv (SHA_init ctx) [].
Proof.
  intros L. split; [done|]. split; [done|]. exists [], []. repeat split; try done; by constructor.
Qed.

Lemma sha_run ctx data rest digest :
  zlen (c_buf ctx) = 64 -> Forall is_byte data -> zlen data <= INT_MAX -> 20 <= zlen digest ->
  SHA ctx (data ++ rest) (zlen data) digest = Ok (sha1 data ++ zdrop 20 digest).
Proof.
  intros L Hd Hl Hg. pose proof (init_inv ctx L) as I. unfold SHA, INT_MAX in *.
  destruct (update_spec _ [] data rest Hd I) as (c1 & -> & I1). cbn [mbind res_bind].
  destruct (final_spec c1 data I1) as (c2 & -> & L2 & E2); [lia|]. cbn [mbind res_bind].
  unfold SHA_DIGEST_SIZE. rewrite memcpy_ok, E2 by lia. unfold splice.
  by rewrite <- E2, zlen_ztake, Z.min_l by lia.
Qed.

Lemma sha1_bytes msg : Forall is_byte (sha1 msg) /\ length (sha1 msg) = 20%nat.
Proof.
  unfold sha1. pose proof (blocks_state_ok (chunks (length (pad msg) / 64) (pad msg))) as [_ L].
  apply list_of_5 in L as (a & b & c & d & e & ->). split; [|done]. cbn [flat_map].
  rewrite !Forall_app. repeat split; try apply be_bytes_is_byte. constructor.
Qed.

(** A digest computed in several calls: [SHA_init], a [SHA_update] per piece, [SHA_final]. *)
Definition sha_stream (ctx : SHA_CTX) (pieces : list (list Z)) : res (list Z) :=
  ctx ← foldl (fun acc p => ctx ← acc; SHA_update ctx p (zlen p)) (Ok (SHA_init ctx)) pieces;
  ctx ← SHA_final ctx;
  slice (c_buf ctx) 0 SHA_DIGEST_SIZE.

Lemma updates_spec pieces : forall ctx msg,
  sha_inv ctx msg -> Forall is_byte (concat pieces) ->
  exists ctx', foldl (fun acc p => ctx ← acc; SHA_update ctx p (zlen p)) (Ok ctx) pieces = Ok ctx' /\
    sha_inv ctx' (msg ++ concat pieces).
Proof.
  induction pieces as [|p ps IH]; intros ctx msg I Hb; cbn [foldl concat mbind res_bind] in *.
  - exists ctx. by rewrite app_nil_r.
  - apply Forall_app in Hb as [Hp Hps]. destruct (update_spec ctx msg p [] Hp I) as (c1 & E1 & I1).
    rewrite app_nil_r in E1. rewrite E1. rewrite app_assoc. by apply IH.
Qed.

(** C24: The routine computes SHA-1 as FIPS 180 defines it (padding, message schedule, eighty rounds),
    for every message an int length can describe and whatever the uninitialised context held; and
    a message handed over in pieces, of up to 2^61 bytes in all, has the digest of the whole. *)
Theorem sha_correct ctx :
  zlen (c_buf ctx) = 64 ->
  (forall data rest digest, Forall is_byte data -> zlen data <= INT_MAX -> 20 <= zlen digest ->
     SHA ctx (data ++ rest) (zlen data) digest = Ok (sha1 data ++ zdrop 20 digest)) /\
  (forall pieces, Forall is_byte (concat pieces) -> zlen (concat pieces) < 2 ^ 61 ->
     sha_stream ctx pieces = Ok (sha1 (concat pieces))).
Proof.
  intros L. pose proof (init_inv ctx L) as I. split.
  - intros. by apply sha_run.
  - intros pieces Hb Hl. unfold sha_stream.
    destruct (updates_spec pieces _ [] I Hb) as (c1 & -> & I1). cbn [mbind res_bind].
    destruct (final_spec c1 (concat pieces) I1) as (c2 & -> & L2 & E2); [lia|]. cbn [mbind res_bind].
    unfold SHA_DIGEST_SIZE. rewrite slice_ok by lia. by rewrite <- E2.
Qed.

Lemma sha_correct_witness :
  sha_stream junk [[97]; [98; 99]] = Ok (be_bytes 20 0xa9993e364706816aba3e25717850c26c9cd0d89d).
Proof.
  refine (eq_trans (proj2 (sha_correct junk _) [[97]; [98; 99]] _ _) _).
  - vm_compute. reflexivity.
  - repeat constructor; lia.
  - vm_compute. reflexivity.
  - vm_compute. reflexivity.
Defined.

End Sha.

(** ** The password column (server/db_account.c) *)

Module Pwd.
Import Sha.

(** One byte by the format %02X. *)
Definition hex_digit (d : Z) : Z := if d <? 10 then 48 + d else 55 + d.
Definition hex2 (b : Z) : list Z := [hex_digit (b / 16); hex_digit (b mod 16)].

(** [for (int n = 19; n >= 0; n--)]: [k] bytes are still to be printed. *)
Fixpoint hex_loop (k : nat) (tmp_sha hashpwd : list Z) : res (list Z) :=
  match k with
  | O => Ok hashpwd
  | S n =>
      b ← cell tmp_sha (Z.of_nat n);
      hashpwd ← strcat hashpwd (hex2 b ++ [0]);
      hex_loop n tmp_sha hashpwd
  end.

(** [c1] and [c2] are the uninitialised contexts of the two calls, [tmp_sha] the uninitialised
    local; the second call reads and writes the same array. *)
Definition db_encrypt_pwd (c1 c2 : SHA_CTX) (tmp_sha pwd hashpwd : list Z) : res (list Z) :=
  n ← strlen pwd;
  tmp_sha ← SHA c1 pwd n tmp_sha;
  tmp_sha ← SHA c2 tmp_sha 20 tmp_sha;
  hashpwd ← memcpy hashpwd 20 [0] 1;
  hashpwd ← memcpy hashpwd 0 [0] 1;
  hex_loop 20 tmp_sha hashpwd.

Lemma hex2_no_zero b : is_byte b -> no_zero (hex2 b).
Proof.
  intros Hb. unfold is_byte in Hb. assert (0 <= b / 16) by (apply Z.div_pos; lia).
  pose proof (Z.mod_pos_bound b 16 ltac:(lia)). unfold hex2, hex_digit.
  repeat constructor; case_zbool; lia.
Qed.

Lemma hex_loop_spec k l tail done_ rest :
  Forall is_byte l -> length l = k -> no_zero done_ -> zlen rest = 2 * Z.of_nat k ->
  hex_loop k (l ++ tail) (done_ ++ 0 :: rest) = Ok ((done_ ++ flat_map hex2 (rev l)) ++ [0]).
Proof.
  revert l tail done_ rest. induction k as [|n IH]; intros l tail d rest Hl Ll Nd Lr.
  - destruct l; [|done]. assert (rest = []) as -> by (destruct rest; [done|unfold zlen in Lr; cbn in Lr; lia]).
    cbn [hex_loop rev flat_map]. by rewrite app_nil_r.
  - destruct l as [|b l' _] using rev_ind; [done|].
    rewrite length_app in Ll. cbn [length] in Ll. apply Forall_app in Hl as [Hl Hb]. apply Forall_cons in Hb as [Hb _].
    cbn [hex_loop]. unfold cell. rewrite <- app_assoc, lookup_app_r by lia.
    replace (Z.to_nat (Z.of_nat n) - length l')%nat with 0%nat by lia. cbn [app lookup list_lookup mbind res_bind].
    rewrite strcat_ok; [|done|by apply hex2_no_zero|change (zlen (hex2 b)) with 2; lia].
    cbn [mbind res_bind]. change (zlen (hex2 b)) with 2.
    rewrite IH; [|done|lia|by apply Forall_app; split; [|apply hex2_no_zero]|rewrite zlen_zdrop by lia; lia].
    rewrite rev_app_distr. cbn [rev app flat_map]. by rewrite <- !app_assoc.
Qed.

(** The digest printed from its last byte to its first. *)
Definition pwd_hash (pwd : list Z) : list Z := flat_map hex2 (rev (sha1 (sha1 pwd))).

Lemma memcpy_zero (l : list Z) i : 0 <= i < zlen l -> memcpy l i [0] 1 = Ok (splice l i [0]).
Proof. intros H. by rewrite memcpy_ok by (change (zlen [0]) with 1; lia). Qed.

Lemma hex2_range b : is_byte b -> Forall (fun c => 48 <= c <= 70) (hex2 b).
Proof.
  intros Hb. unfold is_byte in Hb. assert (0 <= b / 16 < 16) by (split; [apply Z.div_pos|apply Z.div_lt_upper_bound]; lia).
  pose proof (Z.mod_pos_bound b 16 ltac:(lia)). unfold hex2, hex_digit.
  repeat constructor; case_zbool; lia.
Qed.

(** Forty hexadecimal digits. *)
Lemma pwd_hash_shape s : zlen (pwd_hash s) = 40 /\ Forall (fun c => 48 <= c <= 70) (pwd_hash s).
Proof.
  destruct (sha1_bytes (sha1 s)) as [B2 S2]. unfold pwd_hash. set (d := rev (sha1 (sha1 s))).
  assert (Forall is_byte d /\ length d = 20%nat) as [Bd Sd].
  { unfold d. rewrite length_rev. split; [by apply Forall_rev|done]. }
  split.
  - unfold zlen. replace (length (flat_map hex2 d)) with (2 * length d)%nat; [lia|].
    clear. induction d as [|x d IH]; [done|]. cbn [flat_map length]. rewrite length_app, <- IH. cbn. lia.
  - clear - Bd. induction Bd as [|x d Hx _ IH]; [constructor|]. cbn [flat_map].
    apply Forall_app. split; [by apply hex2_range|done].
Qed.

Lemma encrypt_pwd_run c1 c2 tmp_sha pwd hashpwd :
  zlen (c_buf c1) = 64 -> zlen (c_buf c2) = 64 -> zlen tmp_sha = 20 -> zlen hashpwd = 41 ->
  terminated pwd -> Forall is_byte (text pwd) -> zlen (text pwd) <= INT_MAX ->
  db_encrypt_pwd c1 c2 tmp_sha pwd hashpwd = Ok (pwd_hash (text pwd) ++ [0]).
Proof.
  intros L1 L2 Lt Lh Ht Hb Hl. unfold db_encrypt_pwd. rewrite strlen_text by done.
  cbn [mbind res_bind]. destruct Ht as [s Hs]. unfold text in *. rewrite Hs in *.
  cbn [default from_option id] in *. apply cstr_inv in Hs as [Ns [rest ->]].
  destruct (sha1_bytes s) as [B1 S1]. destruct (sha1_bytes (sha1 s)) as [B2 S2].
  rewrite sha_run by (done || lia). cbn [mbind res_bind].
  rewrite (zdrop_all 20) by lia. rewrite app_nil_r.
  assert (Z1 : zlen (sha1 s) = 20) by (unfold zlen; lia).
  pose proof (sha_run c2 (sha1 s) [] (sha1 s) L2 B1) as R. rewrite app_nil_r, Z1, zdrop_all, app_nil_r in R by lia.
  rewrite R by (unfold INT_MAX; lia). cbn [mbind res_bind].
  rewrite memcpy_zero by lia. cbn [mbind res_bind].
  rewrite memcpy_zero by (rewrite zlen_splice; change (zlen [0]) with 1; lia). cbn [mbind res_bind].
  set (h := splice _ 20 _). assert (Lh' : zlen h = 41) by (unfold h; rewrite zlen_splice; change (zlen [0]) with 1; lia).
  change (splice h 0 [0]) with ([] ++ 0 :: zdrop 1 h).
  rewrite <- (app_nil_r (sha1 (sha1 s))) at 1.
  by rewrite hex_loop_spec; [|done|done|constructor|rewrite zlen_zdrop by lia; lia].
Qed.

(** The password column is the digest of the digest of the password, forty hexadecimal digits in
    upper case from the last byte to the first, and it fills the array of 41 cells exactly: no
    call writes outside it, whatever the locals held. *)
Theorem encrypt_pwd_correct c1 c2 tmp_sha pwd hashpwd :
  zlen (c_buf c1) = 64 -> zlen (c_buf c2) = 64 -> zlen tmp_sha = 20 -> zlen hashpwd = 41 ->
  terminated pwd -> Forall is_byte (text pwd) -> zlen (text pwd) <= INT_MAX ->
  db_encrypt_pwd c1 c2 tmp_sha pwd hashpwd = Ok (pwd_hash (text pwd) ++ [0]) /\
  zlen (pwd_hash (text pwd)) = 40 /\ no_zero (pwd_hash (text pwd)).
Proof.
  intros L1 L2 Lt Lh Ht Hb Hl. split; [by apply encrypt_pwd_run|].
  destruct (pwd_hash_shape (text pwd)) as [L R]. split; [done|].
  eapply Forall_impl; [exact R|]. cbn. lia.
Qed.

Definition youmenu : list Z := [121; 111; 117; 109; 101; 110; 117; 0].

(** The reserved account's password "youmenu". *)
Lemma encrypt_pwd_correct_witness :
  db_encrypt_pwd junk junk (replicate 20 1) youmenu (replicate 41 1)
  = Ok (pwd_hash (text youmenu) ++ [0]).
Proof.
  refine (proj1 (encrypt_pwd_correct junk junk (replicate 20 1) youmenu (replicate 41 1) _ _ _ _ _ _ _)).
  - reflexivity.
  - reflexivity.
  - reflexivity.
  - reflexivity.
  - exists [121; 111; 117; 109; 101; 110; 117]. reflexivity.
  - repeat constructor; lia.
  - apply Z.leb_le. vm_compute. reflexivity.
Defined.

End Pwd.
