(* ===== verification/Timer.v ===== *)
(** * Timer: periodic callbacks and a counter (utils/timer.c, utils/atomic.c)

    The timers of a clock are a list of items at addresses; the thread of the clock sleeps, takes the
    time that passed off every timer, and calls those that reach zero. The readings of the system
    clock are arguments. The callbacks work on a state of their own. *)
From S2P Require Import Prelude.
From stdpp Require Import gmap.
Open Scope Z_scope.

Module Timer.

(** Seconds and microseconds. *)
Definition timeval : Type := Z * Z.

(** The milliseconds from [last] to [now]. *)
Definition my_timer_sub (now last : timeval) : Z :=
  let usec := now.2 - last.2 in
  let '(sec, usec) := (if usec <? 0 then (now.1 - 1, usec + 1000000) else (now.1, usec)) in
  (sec - last.1) * 1000 + Z.quot usec 1000.

Record st_timer := mk_timer {
  tm_userdata : Z;
  tm_milliseconds : Z;
  tm_remaining : Z;
  tm_auto_delete : bool;
  tm_deleted : bool;
}.

(** The items in the order of the list; the address the next one gets. *)
Record timer := mk_clock {
  cl_items : list (nat * st_timer);
  cl_next : nat;
  cl_stop : bool;
  cl_last : timeval;
  cl_tickfps : Z;
}.

Definition set_items (t : timer) l : timer := mk_clock l (cl_next t) (cl_stop t) (cl_last t) (cl_tickfps t).
Definition set_remaining (x : st_timer) r : st_timer := mk_timer (tm_userdata x) (tm_milliseconds x) r (tm_auto_delete x) (tm_deleted x).
Definition sign_deleted (x : st_timer) : st_timer := mk_timer (tm_userdata x) (tm_milliseconds x) (tm_remaining x) (tm_auto_delete x) true.

(** [remaining -= elapsed_sec], an int minus a long, and never below zero. *)
Definition elapse (elapsed : Z) (x : st_timer) : st_timer :=
  if negb (tm_remaining x =? 0) then
    let r := i32 (tm_remaining x - elapsed) in set_remaining x (if r <? 0 then 0 else r)
  else x.

(** The walk of [timer_synchronize]: items signed as deleted are freed, all of them after the stop. *)
Fixpoint synchronize_walk (stop : bool) (elapsed : Z) (l : list (nat * st_timer)) : list (nat * st_timer) :=
  match l with
  | [] => []
  | (a, x) :: l =>
      if tm_deleted x || stop then synchronize_walk stop elapsed l
      else (a, elapse elapsed x) :: synchronize_walk stop elapsed l
  end.

(** [before] and [after] are the clock around the sleep. *)
Definition timer_synchronize (t : timer) (before after : timeval) : Z * timer :=
  let t := mk_clock (cl_items t) (cl_next t) (cl_stop t) before (cl_tickfps t) in
  let elapsed := my_timer_sub after before in
  let t := set_items t (synchronize_walk (cl_stop t) elapsed (cl_items t)) in
  if cl_stop t then (-1, t) else (0, t).

Section clock.
(** [cb w userdata]: what the callback does, and whether it asks for the end of its timer. *)
Context {W : Type} (cb : W -> Z -> bool * W).

Fixpoint call_walk (w : W) (l : list (nat * st_timer)) : list (nat * st_timer) * W :=
  match l with
  | [] => ([], w)
  | (a, x) :: l =>
      let '(x, w) :=
        (if tm_remaining x =? 0 then
           let '(b_abort_clock, w) := cb w (tm_userdata x) in
           if b_abort_clock : bool then (sign_deleted x, w) else (set_remaining x (tm_milliseconds x), w)
         else (x, w)) in
      let '(l, w) := call_walk w l in
      ((a, x) :: l, w)
  end.

Definition timer_step (t : timer) (w : W) (before after : timeval) : Z * timer * W :=
  let '(ret, t) := timer_synchronize t before after in
  if ret =? -1 then (ret, t, w) else
  let '(l, w) := call_walk w (cl_items t) in (0, set_items t l, w).

(** The thread, over the readings of the clock it has had. *)
Fixpoint timer_clock_proc (t : timer) (w : W) (ticks : list (timeval * timeval)) : timer * W :=
  match ticks with
  | [] => (t, w)
  | (before, after) :: ticks =>
      let '(ret, t, w) := timer_step t w before after in
      if ret =? -1 then (t, w) else timer_clock_proc t w ticks
  end.

Definition timer_init (tickfps : Z) (now : timeval) : timer := mk_clock [] 0 false now tickfps.

(** The address of the timer. *)
Definition timer_create (t : timer) (userdata milliseconds : Z) (b_auto_delete : bool) : nat * timer :=
  (cl_next t, mk_clock (cl_items t ++ [(cl_next t, mk_timer userdata milliseconds milliseconds b_auto_delete false)])
                (S (cl_next t)) (cl_stop t) (cl_last t) (cl_tickfps t)).

Fixpoint del_walk (a : nat) (l : list (nat * st_timer)) : Z * list (nat * st_timer) :=
  match l with
  | [] => (-1, [])
  | (b, x) :: l => if Nat.eqb b a then (0, (b, sign_deleted x) :: l) else let '(r, l) := del_walk a l in (r, (b, x) :: l)
  end.

Definition timer_del (t : option timer) (a : option nat) : Z * option timer :=
  match t, a with
  | Some t, Some a => let '(r, l) := del_walk a (cl_items t) in (r, Some (set_items t l))
  | _, _ => (-1, t)
  end.

(** The stop is signed, the thread comes to its end at its next tick, and what is left is freed: the
    timers still in the list after the thread has ended. *)
Definition timer_stop (t : timer) : timer := mk_clock (cl_items t) (cl_next t) true (cl_last t) (cl_tickfps t).

Definition timer_destroy (t : option timer) (w : W) (ticks : list (timeval * timeval)) : option timer * list nat * W :=
  match t with
  | None => (None, [], w)
  | Some t => let '(t, w) := timer_clock_proc (timer_stop t) w ticks in (None, (cl_items t).*1, w)
  end.

End clock.

(** ** Lemmas: one tick *)

Lemma my_timer_sub_floor now last :
  0 <= now.2 < 1000000 -> 0 <= last.2 < 1000000 ->
  my_timer_sub now last = ((now.1 * 1000000 + now.2) - (last.1 * 1000000 + last.2)) / 1000.
Proof.
  destruct now as [s1 u1], last as [s2 u2]. cbn [fst snd]. intros H1 H2. unfold my_timer_sub. cbn [fst snd].
  destruct (Z.ltb_spec (u1 - u2) 0); (rewrite Z.quot_div_nonneg by lia).
  - replace (s1 * 1000000 + u1 - (s2 * 1000000 + u2)) with ((s1 - 1 - s2) * 1000 * 1000 + (u1 - u2 + 1000000)) by lia. rewrite Z.div_add_l by lia. lia.
  - replace (s1 * 1000000 + u1 - (s2 * 1000000 + u2)) with ((s1 - s2) * 1000 * 1000 + (u1 - u2)) by lia. rewrite Z.div_add_l by lia. lia.
Qed.

(** A timer that runs. *)
Record running (x : st_timer) : Prop := {
  ru_period : 0 < tm_milliseconds x <= 2147483647;
  ru_left : 0 < tm_remaining x <= tm_milliseconds x;
  ru_live : tm_deleted x = false;
}.

(** The time passes: whether the timer rings, and what is left. *)
Definition rings (e : Z) (x : st_timer) : bool := tm_remaining x <=? e.
Definition tick (e : Z) (x : st_timer) : st_timer := set_remaining x (if rings e x then tm_milliseconds x else tm_remaining x - e).

Lemma tick_running e x : 0 <= e -> running x -> running (tick e x).
Proof. intros He [H1 H2 H3]. unfold tick, rings. destruct (Z.leb_spec (tm_remaining x) e); split; cbn; try done; lia. Qed.

Lemma elapse_spec e x : 0 <= e <= 2147483647 -> running x -> elapse e x = set_remaining x (if rings e x then 0 else tm_remaining x - e).
Proof.
  intros He [H1 H2 H3]. unfold elapse, rings. rewrite (proj2 (Z.eqb_neq (tm_remaining x) 0)) by lia. cbn [negb]. rewrite i32_id by (unfold is_i32; lia).
  destruct (Z.leb_spec (tm_remaining x) e), (Z.ltb_spec (tm_remaining x - e) 0); (done || lia || (f_equal; lia)).
Qed.

(** The callbacks write down whose they are. *)
Definition note (log : list Z) (u : Z) : bool * list Z := (false, log ++ [u]).

Definition rung (e : Z) (l : list (nat * st_timer)) : list Z := flat_map (fun p => if rings e p.2 then [tm_userdata p.2] else []) l.
Definition ticked (e : Z) (l : list (nat * st_timer)) : list (nat * st_timer) := map (fun p => (p.1, tick e p.2)) l.

Lemma walk_spec e l : forall log, 0 <= e <= 2147483647 -> Forall (fun p => running p.2) l ->
  call_walk note log (synchronize_walk false e l) = (ticked e l, log ++ rung e l).
Proof.
  induction l as [|[a x] l IH]; intros log He Hl; [by rewrite app_nil_r|]. apply Forall_cons in Hl as [Hx Hl]. cbn in Hx.
  cbn [synchronize_walk]. rewrite (ru_live _ Hx). cbn [orb call_walk]. rewrite (elapse_spec e x He Hx). cbn [tm_remaining set_remaining ticked map rung flat_map fst snd].
  unfold tick. pose proof (ru_left _ Hx). destruct (rings e x) eqn:R.
  - change (0 =? 0) with true. cbn [note tm_userdata tm_milliseconds set_remaining]. rewrite IH by done. unfold rung. rewrite <- app_assoc. reflexivity.
  - unfold rings in R. apply Z.leb_gt in R. rewrite (proj2 (Z.eqb_neq (tm_remaining x - e) 0)) by lia. rewrite IH by done. reflexivity.
Qed.

(** ** Lemmas: many ticks *)

Definition elapsed (b : timeval * timeval) : Z := my_timer_sub b.2 b.1.

(** How often a timer rings over the times [es], and what is left at the end. *)
Fixpoint countdown (p r : Z) (es : list Z) : nat * Z :=
  match es with
  | [] => (0%nat, r)
  | e :: es => if r <=? e then let '(n, r) := countdown p p es in (S n, r) else countdown p (r - e) es
  end.

Definition sum (es : list Z) : Z := foldr Z.add 0 es.

Lemma countdown_bounds p es : forall r, 0 < p -> 0 < r <= p -> Forall (fun e => 0 <= e) es ->
  let '(n, r') := countdown p r es in
  0 < r' <= p /\ Z.of_nat n * p <= p - r + sum es /\ (n <= length es)%nat /\ (r <= sum es -> (1 <= n)%nat).
Proof.
  induction es as [|e es IH]; intros r Hp Hr He; [cbn; repeat split; lia|]. apply Forall_cons in He as [He Hes]. cbn [countdown sum foldr length].
  fold (sum es). assert (0 <= sum es) as Hs by (clear - Hes; induction Hes; cbn; [lia|]; unfold sum in *; lia).
  destruct (Z.leb_spec r e).
  - specialize (IH p Hp ltac:(lia) Hes). destruct (countdown p p es) as [n r']. destruct IH as (H1 & H2 & H3 & H4). repeat split; lia.
  - specialize (IH (r - e) Hp ltac:(lia) Hes). destruct (countdown p (r - e) es) as [n r']. destruct IH as (H1 & H2 & H3 & H4). repeat split; lia.
Qed.

(** How often [u] was called. *)
Definition times (u : Z) (log : list Z) : nat := length (filter (eq u) log).

Lemma times_app u l l' : times u (l ++ l') = (times u l + times u l')%nat.
Proof. unfold times. by rewrite filter_app, length_app. Qed.

Lemma times_rung e l u : u ∉ map (fun p => tm_userdata p.2) l -> times u (rung e l) = 0%nat.
Proof.
  induction l as [|[a x] l IH]; intros Hu; [done|]. cbn [map fst snd] in Hu. apply not_elem_of_cons in Hu as [Hx Hl]. cbn [rung flat_map snd]. rewrite times_app.
  fold (rung e l). rewrite (IH Hl). destruct (rings e x); [|done]. unfold times. by rewrite filter_cons_False.
Qed.

Lemma times_rung_in e l a x :
  NoDup (map (fun p => tm_userdata p.2) l) -> (a, x) ∈ l -> times (tm_userdata x) (rung e l) = (if rings e x then 1 else 0)%nat.
Proof.
  induction l as [|[b y] l IH]; intros Hn Hin; [by apply elem_of_nil in Hin|]. cbn [map fst snd] in Hn. apply NoDup_cons in Hn as [Hy Hn].
  cbn [rung flat_map snd]. fold (rung e l). rewrite times_app. apply elem_of_cons in Hin as [E|Hin].
  - injection E as -> ->. rewrite (times_rung e l) by done. destruct (rings e y); [|done]. unfold times. by rewrite filter_cons_True.
  - rewrite IH by done. assert (tm_userdata x <> tm_userdata y) as Hne.
    { intros E. apply Hy. rewrite <- E. by apply (list_elem_of_fmap_2 (fun p : nat * st_timer => tm_userdata p.2) l (a, x)). }
    destruct (rings e y); [|done]. unfold times at 1. by rewrite filter_cons_False.
Qed.

Lemma ticked_userdata e l : map (fun p => tm_userdata p.2) (ticked e l) = map (fun p : nat * st_timer => tm_userdata p.2) l.
Proof. unfold ticked. rewrite map_map. done. Qed.

Lemma ticked_running e l : 0 <= e -> Forall (fun p => running p.2) l -> Forall (fun p => running p.2) (ticked e l).
Proof. intros He Hl. apply Forall_map. eapply Forall_impl; [exact Hl|]. intros [a x] Hx. by apply tick_running. Qed.

Definition in_range (b : timeval * timeval) : Prop := 0 <= elapsed b <= 2147483647.

Lemma proc_spec ticks : forall t log,
  cl_stop t = false -> Forall (fun p => running p.2) (cl_items t) -> NoDup (map (fun p => tm_userdata p.2) (cl_items t)) -> Forall in_range ticks ->
  let '(t', log') := timer_clock_proc note t log ticks in
  forall a x, (a, x) ∈ cl_items t ->
    let '(n, r) := countdown (tm_milliseconds x) (tm_remaining x) (map elapsed ticks) in
    times (tm_userdata x) log' = (times (tm_userdata x) log + n)%nat /\ (a, set_remaining x r) ∈ cl_items t'.
Proof.
  induction ticks as [|[b1 b2] ticks IH]; intros t log Hs Hl Hn Ht.
  - cbn. intros a x Hin. split; [lia|]. by destruct x.
  - apply Forall_cons in Ht as [He Ht]. unfold in_range in He. cbn [timer_clock_proc]. unfold timer_step, timer_synchronize. cbn [cl_stop set_items cl_items]. rewrite Hs. cbn [cl_stop set_items].
    change (0 =? -1) with false. cbv iota. cbn [cl_items set_items]. change (my_timer_sub b2 b1) with (elapsed (b1, b2)). rewrite walk_spec by done.
    change (0 =? -1) with false. cbv iota. set (e := elapsed (b1, b2)) in *.
    match goal with |- context [timer_clock_proc note ?t1 ?l1 ticks] => specialize (IH t1 l1) end. cbn [cl_stop cl_items set_items] in IH.
    specialize (IH eq_refl (ticked_running e _ (proj1 He) Hl)). rewrite ticked_userdata in IH. specialize (IH Hn Ht).
    destruct (timer_clock_proc note _ _ ticks) as [t' log']. intros a x Hin.
    specialize (IH a (tick e x) (list_elem_of_fmap_2 (fun p => (p.1, tick e p.2)) _ (a, x) Hin)).
    cbn [map countdown]. fold e. cbn [tick tm_milliseconds tm_userdata set_remaining tm_remaining] in IH. rewrite times_app, (times_rung_in e _ a x Hn Hin) in IH.
    unfold rings in IH. destruct (tm_remaining x <=? e).
    + destruct (countdown (tm_milliseconds x) (tm_milliseconds x) (map elapsed ticks)) as [n r]. destruct IH as [-> IH]. split; [lia|]. exact IH.
    + destruct (countdown (tm_milliseconds x) (tm_remaining x - e) (map elapsed ticks)) as [n r]. destruct IH as [-> IH]. split; [lia|]. exact IH.
Qed.

(** ** Properties *)


(** A tick shorter than a millisecond does not count. The thread sleeps [tickfps] microseconds
    ([usleep]) and takes whole milliseconds off the timers, measured around the sleep alone: when
    every sleep takes less than a millisecond, no timer that has time left is ever called, however
    long the clock runs and whatever the callbacks are. *)
Theorem timer_short_ticks {W} (cb : W -> Z -> bool * W) t w ticks :
  cl_stop t = false -> Forall (fun p => tm_remaining p.2 <> 0 /\ is_i32 (tm_remaining p.2) /\ 0 <= tm_remaining p.2 /\ tm_deleted p.2 = false) (cl_items t) ->
  Forall (fun b => 0 <= b.1.2 < 1000000 /\ 0 <= b.2.2 < 1000000 /\ 0 <= (b.2.1 * 1000000 + b.2.2) - (b.1.1 * 1000000 + b.1.2) < 1000) ticks ->
  (timer_clock_proc cb t w ticks).2 = w /\ cl_items (timer_clock_proc cb t w ticks).1 = cl_items t.
Proof.
  intros Hs Hl Ht. revert t Hs Hl. induction Ht as [|[b1 b2] ticks (H1 & H2 & H3) Ht IH]; intros t Hs Hl; [done|]. cbn [fst snd] in *.
  cbn [timer_clock_proc]. unfold timer_step, timer_synchronize. cbn [cl_stop set_items cl_items]. rewrite Hs. cbn [cl_stop set_items]. change (0 =? -1) with false. cbv iota. cbn [cl_items].
  rewrite my_timer_sub_floor by done. rewrite Z.div_small by lia.
  assert (synchronize_walk false 0 (cl_items t) = cl_items t) as ->.
  { induction Hl as [|[a x] l (Hx1 & Hx2 & Hx3 & Hx4) Hl IHl]; [done|]. cbn in *. rewrite Hx4. cbn [orb]. rewrite IHl. unfold elapse.
    rewrite (proj2 (Z.eqb_neq _ 0)), Z.sub_0_r, i32_id, (proj2 (Z.ltb_ge _ 0)) by done. by destruct x. }
  cbn [cl_items set_items]. assert (call_walk cb w (cl_items t) = (cl_items t, w)) as ->.
  { clear IH Hs. induction Hl as [|[a x] l (Hx1 & _) Hl IHl]; [done|]. cbn [call_walk fst snd] in *. by rewrite (proj2 (Z.eqb_neq _ 0)), IHl. }
  change (0 =? -1) with false. cbv iota. by destruct (IH (set_items (set_items (mk_clock (cl_items t) (cl_next t) false b1 (cl_tickfps t)) (cl_items t)) (cl_items t)) eq_refl Hl).
Qed.

(** Two timers over ten ticks of 30 milliseconds, and a clock that is too fast. *)
Definition demo_clock : timer := (timer_create (timer_create (timer_init 15000 (0, 0)) 7 100 false).2 8 45 false).2.
Definition demo_tick (n : nat) : timeval * timeval := ((Z.of_nat n, 0), (Z.of_nat n, 30000)).


(** [b_auto_delete] is stored and never read: a timer of 100 milliseconds that is to be deleted when
    it rings has rung three times after 390 milliseconds, and is still there. *)
Theorem timer_auto_delete_ignored :
  let '(a, t) := timer_create (timer_init 30 (0, 0)) 7 100 true in
  let '(t', log) := timer_clock_proc note t [] (map demo_tick (seq 0 13)) in
  times 7 log = 3%nat /\ map fst (cl_items t') = [a].
Proof. by vm_compute. Qed.

Lemma timer_short_ticks_witness :
  (timer_clock_proc note demo_clock [] (replicate 1000 ((0, 0), (0, 500)))).2 = [].
Proof.
  apply (timer_short_ticks note demo_clock [] (replicate 1000 ((0, 0), (0, 500)))).
  - done.
  - repeat constructor; cbn; unfold is_i32; lia.
  - apply Forall_replicate. cbn. lia.
Defined.

End Timer.

Module Atomic.

Record atomic := mk_atomic { counter : Z }.

Definition atomic_new : atomic := mk_atomic 0.

(** A step over the range of int is undefined. *)
Definition in_int (z : Z) : res Z := if (-2147483648 <=? z) && (z <=? 2147483647) then Ok z else Fault IntOverflow.

Definition atomic_inc (a : atomic) : res (Z * atomic) := c ← in_int (counter a + 1); Ok (counter a, mk_atomic c).
Definition atomic_dec (a : atomic) : res (Z * atomic) := c ← in_int (counter a - 1); Ok (counter a, mk_atomic c).
Definition atomic_cur (a : atomic) : Z := counter a.

(** The pointer of the caller is left as it is. *)
Definition atomic_destroy (a : option atomic) : option atomic * nat := (a, match a with None => 0 | Some _ => 1 end%nat).

(** Increments in a row give out consecutive numbers, up to the largest int. *)
Fixpoint take_numbers (n : nat) (a : atomic) : res (list Z * atomic) :=
  match n with O => Ok ([], a) | S n => '(c, a) ← atomic_inc a; '(l, a) ← take_numbers n a; Ok (c :: l, a) end.

Lemma atomic_numbers n : forall a, is_i32 (counter a) ->
  if counter a + Z.of_nat n <=? 2147483647 then take_numbers n a = Ok (map (fun k => counter a + Z.of_nat k) (seq 0 n), mk_atomic (counter a + Z.of_nat n))
  else take_numbers n a = Fault IntOverflow.
Proof.
  induction n as [|n IH]; intros [c] Hc; unfold is_i32 in *; cbn [counter] in *.
  - rewrite Z.add_0_r. rewrite (proj2 (Z.leb_le c 2147483647)) by lia. done.
  - cbn [take_numbers]. unfold atomic_inc, in_int. cbn [counter]. destruct (Z.leb_spec (c + Z.of_nat (S n)) 2147483647).
    + rewrite (proj2 (Z.leb_le (-2147483648) (c + 1))), (proj2 (Z.leb_le (c + 1) 2147483647)) by lia. cbn [andb mbind res_bind].
      specialize (IH (mk_atomic (c + 1)) ltac:(cbn; lia)). cbn [counter] in IH. rewrite (proj2 (Z.leb_le (c + 1 + Z.of_nat n) 2147483647)) in IH by lia. rewrite IH.
      cbn [mbind res_bind seq map]. rewrite Z.add_0_r, <- seq_shift, map_map. do 2 f_equal; [f_equal; apply map_ext; intros; lia|f_equal; lia].
    + rewrite (proj2 (Z.leb_le (-2147483648) (c + 1))) by lia. cbn [andb]. destruct (Z.leb_spec (c + 1) 2147483647); [|done]. cbn [mbind res_bind].
      specialize (IH (mk_atomic (c + 1)) ltac:(cbn; lia)). cbn [counter] in IH. rewrite (proj2 (Z.leb_gt (c + 1 + Z.of_nat n) 2147483647)) in IH by lia. by rewrite IH.
Qed.

End Atomic.
