(* ===== verification/Session.v ===== *)
(** * Session: the table of logged-in users (server/session.c, utils/pref.c)

    A session belongs to a connection ([session_fd]) or to a token that outlives it
    ([session_token]). The table is a linked list of nodes; a node carries a reference counter,
    and a reference to a session also holds the table's lock until [session_dref]. The counter is
    reached through its node only and is kept inside it. [w_lock] is the mutex [session_lock]:
    in a run of one thread nobody else will release it, so locking it twice is a fault. *)
From S2P Require Import Prelude Alloc Cstr.
Import Alloc Cstr.

(** ** The reference counter *)

Module Pref.

Record pref := mk_pref { refcount : Z }.

(** [calloc] is not checked: without memory the mutex is initialised through NULL. *)
Definition pref_init (al : alloc) : res (pref * alloc) :=
  let '(ok, al) := s_alloc al in
  if ok then Ok (mk_pref 0, al) else Fault NullDeref.

Definition pref_get (r : pref) : res (Z * pref) :=
  n ← c_int (refcount r + 1); Ok (n, mk_pref n).

Definition pref_put (r : pref) : res (Z * pref) :=
  n ← c_int (refcount r - 1); Ok (n, mk_pref n).

Definition pref_count (r : pref) : Z := refcount r.

(** [None] is the NULL pointer, which a release leaves behind. *)
Definition pref_try_release (r : option pref) : Z * option pref :=
  match r with
  | None => (0, None)
  | Some r => if refcount r =? 0 then (1, None) else (0, Some r)
  end.

(** Waits while the counter is not zero. *)
Definition pref_release (r : option pref) : res (option pref) :=
  match r with
  | None => Ok None
  | Some r => if refcount r =? 0 then Ok None else Fault Blocked
  end.

End Pref.

Module Session.
Import Pref.

Inductive session_type := session_fd | session_token.

#[export] Instance session_type_eq_dec : EqDecision session_type.
Proof. solve_decision. Defined.

Record session := mk_session {
  a_type : Z;
  uid : list Z;            (* char[17] *)
  admin : Z;
  s_type : session_type;
  token : list Z;          (* char[39] *)
  time_created : Z * Z;
  time_expired : Z * Z;
  fd : Z;
  time_heatbeat : Z * Z;
}.

#[export] Instance session_eq_dec : EqDecision session.
Proof. solve_decision. Defined.

Record session_list := mk_node { n_session : session; n_ref : option pref }.

Record sessions := mk_sessions {
  w_nodes : heap session_list;
  w_list : list nat;
  w_lock : bool;
  w_stop : Z;
  w_alloc : alloc;
}.

Definition set_nodes (w : sessions) h := mk_sessions h (w_list w) (w_lock w) (w_stop w) (w_alloc w).
Definition set_list (w : sessions) l := mk_sessions (w_nodes w) l (w_lock w) (w_stop w) (w_alloc w).
Definition set_lock (w : sessions) b := mk_sessions (w_nodes w) (w_list w) b (w_stop w) (w_alloc w).

Definition set_s_type (s : session) t :=
  mk_session (a_type s) (uid s) (admin s) t (token s) (time_created s) (time_expired s) (fd s) (time_heatbeat s).
Definition set_token (s : session) t :=
  mk_session (a_type s) (uid s) (admin s) (s_type s) t (time_created s) (time_expired s) (fd s) (time_heatbeat s).
Definition set_fd (s : session) d :=
  mk_session (a_type s) (uid s) (admin s) (s_type s) (token s) (time_created s) (time_expired s) d (time_heatbeat s).

Definition lock (w : sessions) : res sessions :=
  if w_lock w then Fault SelfDeadlock else Ok (set_lock w true).
Definition unlock (w : sessions) : res sessions :=
  if w_lock w then Ok (set_lock w false) else Fault BadUnlock.

(** [w] holds what the globals held before. *)
Definition session_init (w : sessions) : sessions := mk_sessions (w_nodes w) [] false 0 (w_alloc w).

(** Unlinks the node, waits for its references and frees it. *)
Definition release_node (w : sessions) (a : nat) : res sessions :=
  n ← h_load (w_nodes w) a;
  let w := set_list w (filter (fun b => b <> a) (w_list w)) in
  r ← pref_release (n_ref n);
  h ← h_store (w_nodes w) a (mk_node (n_session n) r);
  h ← h_free h a;
  Ok (set_nodes w h).

Fixpoint release_list (w : sessions) (l : list nat) : res sessions :=
  match l with
  | [] => Ok w
  | a :: l => w ← release_node w a; release_list w l
  end.

Definition session_destroy (w : sessions) : res sessions :=
  let w := mk_sessions (w_nodes w) (w_list w) (w_lock w) 1 (w_alloc w) in
  w ← lock w;
  w ← release_list w (w_list w);
  unlock w.

(** The body of the loop of [session_add]: whether the node is in the way of [s]. *)
Definition add_conflict (tmp s : session) : res bool :=
  if decide (s_type s = session_fd) then
    if fd tmp =? fd s then Ok true
    else if decide (s_type tmp = session_fd) then strcmp_eq (uid tmp) (uid s) else Ok false
  else
    if decide (s_type tmp = session_token) then strcmp_eq (token tmp) (token s) else Ok false.

Fixpoint add_scan (h : heap session_list) (l : list nat) (s : session) : res bool :=
  match l with
  | [] => Ok false
  | a :: l =>
      n ← h_load h a;
      c ← add_conflict (n_session n) s;
      if c : bool then Ok true else add_scan h l s
  end.

(** [calloc] is not checked. *)
Definition session_add (w : sessions) (s : session) : res (Z * sessions) :=
  w ← lock w;
  c ← add_scan (w_nodes w) (w_list w) s;
  if c : bool then w ← unlock w; Ok (0, w)
  else
    let '(ok, al) := s_alloc (w_alloc w) in
    if ok then
      '(r, al) ← pref_init al;
      let '(a, h) := h_alloc (w_nodes w) (mk_node s (Some r)) in
      w ← unlock (mk_sessions h (w_list w ++ [a]) (w_lock w) (w_stop w) al);
      Ok (1, w)
    else Fault NullDeref.

(** The caller's object is changed too; it is part of the answer. *)
Definition session_add_fd (w : sessions) (s : session) : res (Z * session * sessions) :=
  t ← memcpy (token s) 0 [0] 1;
  let s := set_token (set_s_type s session_fd) t in
  '(r, w) ← session_add w s; Ok (r, s, w).

Definition session_add_token (w : sessions) (s : session) : res (Z * session * sessions) :=
  let s := set_fd (set_s_type s session_token) (-1) in
  '(r, w) ← session_add w s; Ok (r, s, w).

(** The loop of the two deletions, over the nodes of [l] that [sel] selects. *)
Fixpoint del_matching (sel : session -> res bool) (w : sessions) (l : list nat) (r : Z)
  : res (Z * sessions) :=
  match l with
  | [] => Ok (r, w)
  | a :: l =>
      n ← h_load (w_nodes w) a;
      b ← sel (n_session n);
      if b : bool then w ← release_node w a; del_matching sel w l (r + 1)
      else del_matching sel w l r
  end.

Definition sel_fd (d : Z) (s : session) : res bool := Ok (fd s =? d).
Definition sel_uid (t : session_type) (u : list Z) (s : session) : res bool :=
  if decide (s_type s = t) then strcmp_eq (uid s) u else Ok false.
Definition sel_token (tok : list Z) (s : session) : res bool :=
  if decide (s_type s = session_token) then strcmp_eq (token s) tok else Ok false.

Definition del_with (sel : session -> res bool) (w : sessions) : res (Z * sessions) :=
  w ← lock w;
  '(r, w) ← del_matching sel w (w_list w) 0;
  w ← unlock w;
  Ok (if r =? 0 then 0 else 1, w).

Definition session_del_fd (w : sessions) (d : Z) : res (Z * sessions) := del_with (sel_fd d) w.
Definition session_del_token (w : sessions) (u : list Z) : res (Z * sessions) :=
  del_with (sel_uid session_token u) w.

Definition node_get (w : sessions) (a : nat) : res sessions :=
  n ← h_load (w_nodes w) a;
  match n_ref n with
  | None => Fault NullDeref
  | Some r => '(_, r) ← pref_get r; h ← h_store (w_nodes w) a (mk_node (n_session n) (Some r)); Ok (set_nodes w h)
  end.

(** The search of [session_ref_fd], without the lock: every match is counted and the last one is
    the answer. *)
Fixpoint ref_fd_scan (w : sessions) (l : list nat) (d : Z) (found : option nat) (r : Z)
  : res (option nat * Z * sessions) :=
  match l with
  | [] => Ok (found, r, w)
  | a :: l =>
      n ← h_load (w_nodes w) a;
      if fd (n_session n) =? d then w ← node_get w a; ref_fd_scan w l d (Some a) (r + 1)
      else ref_fd_scan w l d found r
  end.

Definition session_ref_fd (w : sessions) (d : Z) : res (Z * option nat * sessions) :=
  '(found, r, w) ← ref_fd_scan w (w_list w) d None 0;
  w ← (if 1 <=? r then lock w else Ok w);
  Ok (if r =? 0 then 0 else 1, found, w).

(** The first node that [sel] selects. *)
Fixpoint find_node (sel : session -> res bool) (h : heap session_list) (l : list nat) : res (option nat) :=
  match l with
  | [] => Ok None
  | a :: l =>
      n ← h_load h a;
      b ← sel (n_session n);
      if b : bool then Ok (Some a) else find_node sel h l
  end.

Definition session_ref_uid (w : sessions) (u : list Z) (t : session_type) : res (Z * option nat * sessions) :=
  found ← find_node (sel_uid t u) (w_nodes w) (w_list w);
  match found with
  | None => Ok (0, None, w)
  | Some a => w ← node_get w a; w ← lock w; Ok (1, Some a, w)
  end.

(** Here the lock is taken before the counter is raised. *)
Definition session_ref_token (w : sessions) (tok : list Z) : res (Z * option nat * sessions) :=
  found ← find_node (sel_token tok) (w_nodes w) (w_list w);
  match found with
  | None => Ok (0, None, w)
  | Some a => w ← lock w; w ← node_get w a; Ok (1, Some a, w)
  end.

(** Looks the session up by its address, and unlocks whether or not it is found. *)
Definition session_dref (w : sessions) (a : nat) : res sessions :=
  w ← (if decide (a ∈ w_list w) then
         n ← h_load (w_nodes w) a;
         match n_ref n with
         | None => Fault NullDeref
         | Some r =>
             '(_, r) ← pref_put r;
             h ← h_store (w_nodes w) a (mk_node (n_session n) (Some r));
             Ok (set_nodes w h)
         end
       else Ok w);
  unlock w.

(** ** The table as the callers see it *)

Definition is_fd (s : session) : bool := bool_decide (s_type s = session_fd).
Definition is_token (s : session) : bool := bool_decide (s_type s = session_token).

(** Whether [t], a session of the table, is in the way of the new session [s]. *)
Definition conflicts (s t : session) : bool :=
  if is_fd s then (fd t =? fd s) || (is_fd t && bool_decide (text (uid t) = text (uid s)))
  else is_token t && bool_decide (text (token t) = text (token s)).

Definition by_fd (d : Z) (s : session) : bool := fd s =? d.
Definition by_uid (ty : session_type) (u : list Z) (s : session) : bool :=
  bool_decide (s_type s = ty) && bool_decide (text (uid s) = text u).
Definition by_token (tok : list Z) (s : session) : bool :=
  is_token s && bool_decide (text (token s) = text tok).

Definition add_spec (T : list session) (s : session) : Z * list session :=
  if existsb (conflicts s) T then (0, T) else (1, T ++ [s]).
Definition del_spec (T : list session) (p : session -> bool) : Z * list session :=
  (if existsb p T then 1 else 0, List.filter (fun s => negb (p s)) T).

(** What a session must satisfy to be in the table: its arrays hold strings, and only a session
    of a connection has a descriptor. *)
Record sess_ok (s : session) : Prop := {
  ok_uid : terminated (uid s);
  ok_token : terminated (token s);
  ok_fd : s_type s = session_token <-> fd s = -1;
}.

(** No two connections share a descriptor or a user, no two tokens are equal. *)
Record unique (T : list session) : Prop := {
  u_fd : NoDup (map fd (List.filter is_fd T));
  u_uid : NoDup (map (fun s => text (uid s)) (List.filter is_fd T));
  u_token : NoDup (map (fun s => text (token s)) (List.filter is_token T));
}.

Definition node_at (h : heap session_list) (a : nat) (s : session) : Prop :=
  h !! a = Some (Some (mk_node s (Some (mk_pref 0)))).

(** The table [T] as the code stores it, while nobody holds a reference. *)
Record table (w : sessions) (T : list session) : Prop := {
  t_nodup : NoDup (w_list w);
  t_nodes : Forall2 (node_at (w_nodes w)) (w_list w) T;
  t_ok : Forall sess_ok T;
  t_alloc : w_alloc w = [];
}.

(** ** The searches *)

Lemma type_other s : s_type s <> session_fd -> s_type s = session_token.
Proof. by destruct (s_type s). Qed.

Lemma conflict_spec t s : sess_ok t -> sess_ok s -> add_conflict t s = Ok (conflicts s t).
Proof.
  intros [U1 K1 _] [U2 K2 _]. unfold add_conflict, conflicts, is_fd, is_token.
  destruct (decide (s_type s = session_fd)) as [E|E].
  - rewrite bool_decide_eq_true_2 by done. destruct (fd t =? fd s); [done|]. cbn [orb].
    destruct (decide (s_type t = session_fd)); [|by rewrite bool_decide_eq_false_2].
    rewrite bool_decide_eq_true_2 by done. by rewrite strcmp_text.
  - rewrite bool_decide_eq_false_2 by done.
    destruct (decide (s_type t = session_token)); [|by rewrite bool_decide_eq_false_2].
    rewrite bool_decide_eq_true_2 by done. by rewrite strcmp_text.
Qed.

Lemma sel_uid_spec ty u s : terminated u -> sess_ok s -> sel_uid ty u s = Ok (by_uid ty u s).
Proof.
  intros Hu [U _ _]. unfold sel_uid, by_uid. destruct (decide (s_type s = ty)).
  - rewrite bool_decide_eq_true_2 by done. by rewrite strcmp_text.
  - by rewrite bool_decide_eq_false_2.
Qed.

Lemma sel_token_spec tok s : terminated tok -> sess_ok s -> sel_token tok s = Ok (by_token tok s).
Proof.
  intros Hu [_ K _]. unfold sel_token, by_token, is_token. destruct (decide (s_type s = session_token)).
  - rewrite bool_decide_eq_true_2 by done. by rewrite strcmp_text.
  - by rewrite bool_decide_eq_false_2.
Qed.

Lemma node_load h a s : node_at h a s -> h_load h a = Ok (mk_node s (Some (mk_pref 0))).
Proof. intros H. by apply h_load_ok. Qed.

Lemma add_scan_spec h l T s :
  Forall2 (node_at h) l T -> Forall sess_ok T -> sess_ok s ->
  add_scan h l s = Ok (existsb (conflicts s) T).
Proof.
  intros H Hok Hs. induction H as [|a t l T Ha _ IH]; [done|]. apply Forall_cons in Hok as [Ht HT].
  cbn [add_scan existsb]. rewrite (node_load h a t Ha). cbn [mbind res_bind n_session].
  rewrite conflict_spec by done. cbn [mbind res_bind]. destruct (conflicts s t); [done|]. by apply IH.
Qed.

(** A selection of the code that decides the predicate [p] on the table. *)
Definition decides (sel : session -> res bool) (p : session -> bool) : Prop :=
  forall s, sess_ok s -> sel s = Ok (p s).

Lemma find_node_spec sel p h l T :
  decides sel p -> Forall2 (node_at h) l T -> Forall sess_ok T ->
  match List.find p T with
  | Some s => exists a, find_node sel h l = Ok (Some a) /\ a ∈ l /\ node_at h a s
  | None => find_node sel h l = Ok None
  end.
Proof.
  intros D H Hok. induction H as [|a t l T Ha _ IH]; [done|]. apply Forall_cons in Hok as [Ht HT].
  cbn [find_node List.find]. rewrite (node_load h a t Ha). cbn [mbind res_bind n_session].
  rewrite D by done. cbn [mbind res_bind]. destruct (p t).
  - exists a. split; [done|]. split; [apply list_elem_of_here|done].
  - specialize (IH HT). destruct (List.find p T); [|done]. destruct IH as (b & E & B & N).
    exists b. split; [done|]. split; [by apply list_elem_of_further|done].
Qed.

(** ** The deletion *)

Lemma filter_ne (l : list nat) a : a ∉ l -> filter (fun b => b <> a) l = l.
Proof.
  induction l as [|b l IH]; intros N; [done|]. apply not_elem_of_cons in N as [N1 N2].
  rewrite filter_cons_True by done. by rewrite IH.
Qed.

Lemma filter_out (d l : list nat) a :
  NoDup (d ++ a :: l) -> filter (fun b => b <> a) (d ++ a :: l) = d ++ l.
Proof.
  intros N. apply NoDup_app in N as (N1 & N2 & N3). apply NoDup_cons in N3 as [N4 N5].
  rewrite filter_app, filter_cons_False by auto. rewrite !filter_ne; [done|done|].
  intros Ha. apply (N2 a Ha), list_elem_of_here.
Qed.

Lemma release_node_spec w a s :
  node_at (w_nodes w) a s ->
  release_node w a = Ok (set_nodes (set_list w (filter (fun b => b <> a) (w_list w))) (<[a := None]> (w_nodes w))).
Proof.
  intros Ha. unfold release_node. rewrite (node_load _ _ _ Ha). cbn [mbind res_bind n_ref pref_release refcount].
  cbn [Z.eqb]. cbn [mbind res_bind n_session set_list w_nodes w_list].
  rewrite (h_store_ok _ _ _ _ Ha). cbn [mbind res_bind].
  rewrite (h_free_ok _ _ (mk_node s None)) by (apply list_lookup_insert_eq; by apply lookup_lt_Some in Ha).
  cbn [mbind res_bind]. by rewrite list_insert_insert_eq.
Qed.

Lemma nodes_insert_ne h a o l T :
  a ∉ l -> Forall2 (node_at h) l T -> Forall2 (node_at (<[a := o]> h)) l T.
Proof.
  intros N H. induction H as [|b t l T Hb _ IH]; [constructor|]. apply not_elem_of_cons in N as [N1 N2].
  constructor; [|by apply IH]. unfold node_at. by rewrite list_lookup_insert_ne.
Qed.

(** The loop over the nodes [l] of [T], behind the nodes [d] it has kept. *)
Lemma del_matching_spec sel p : decides sel p -> forall l T w d D r,
  w_list w = d ++ l -> NoDup (d ++ l) -> Forall2 (node_at (w_nodes w)) d D ->
  Forall2 (node_at (w_nodes w)) l T -> Forall sess_ok T ->
  exists h l', del_matching sel w l r
    = Ok (r + zlen (List.filter p T), set_nodes (set_list w (d ++ l')) h) /\
    NoDup (d ++ l') /\ Forall2 (node_at h) (d ++ l') (D ++ List.filter (fun s => negb (p s)) T).
Proof.
  intros Dp. induction l as [|a l IH]; intros T w d D r El N Hd Hl Hok.
  - apply Forall2_nil_inv_l in Hl as ->. exists (w_nodes w), []. cbn [del_matching List.filter].
    split; [|split; [done|by apply Forall2_app]]. rewrite Z.add_0_r. do 2 f_equal.
    rewrite <- El. by destruct w.
  - apply Forall2_cons_inv_l in Hl as (t & T' & Ha & Hl & ->). apply Forall_cons in Hok as [Ht HT].
    cbn [del_matching List.filter]. rewrite (node_load _ _ _ Ha). cbn [mbind res_bind n_session].
    rewrite Dp by done. cbn [mbind res_bind]. destruct (p t); cbn [negb].
    + rewrite (release_node_spec w a t Ha). cbn [mbind res_bind]. rewrite El, filter_out by done.
      apply NoDup_app in N as (N1 & N2 & N3). apply NoDup_cons in N3 as [N4 N5].
      assert (Nd : a ∉ d) by (intros Hx; apply (N2 a Hx), list_elem_of_here).
      destruct (IH T' (set_nodes (set_list w (d ++ l)) (<[a:=None]> (w_nodes w))) d D (r + 1))
        as (h & l' & E & Nl & F); [done| |by apply nodes_insert_ne|by apply nodes_insert_ne|done|].
      { apply NoDup_app. split; [done|]. split; [|done]. intros x Hx Hx'. apply (N2 x Hx). by apply list_elem_of_further. }
      exists h, l'. rewrite E, zlen_cons, Z.add_assoc. done.
    + destruct (IH T' w (d ++ [a]) (D ++ [t]) r) as (h & l' & E & Nl & F);
        [by rewrite <- app_assoc|by rewrite <- app_assoc|apply Forall2_app; [done|by repeat constructor]|done|done|].
      exists h, (a :: l'). rewrite E. rewrite <- !app_assoc in *. done.
Qed.

Lemma existsb_filter {A} (p : A -> bool) T : (zlen (List.filter p T) =? 0) = negb (existsb p T).
Proof.
  induction T as [|t T IH]; [done|]. cbn [List.filter existsb]. destruct (p t); [|done].
  rewrite zlen_cons. pose proof (zlen_nonneg (List.filter p T)). cbn [orb negb]. apply Z.eqb_neq. lia.
Qed.

Lemma sess_ok_filter p T : Forall sess_ok T -> Forall sess_ok (List.filter p T).
Proof. rewrite !List.Forall_forall. intros H x [Hx _]%List.filter_In. by apply H. Qed.

Lemma del_with_spec sel p w T :
  decides sel p -> table w T -> w_lock w = false ->
  exists w', del_with sel w = Ok ((del_spec T p).1, w') /\ table w' (del_spec T p).2 /\ w_lock w' = false.
Proof.
  intros Dp [N F O A] L. unfold del_with, lock. rewrite L. cbn [mbind res_bind].
  destruct (del_matching_spec sel p Dp (w_list w) T (set_lock w true) [] [] 0) as (h & l' & E & Nl & F');
    [done|done|constructor|done|done|]. cbn [app set_lock w_list] in *. rewrite E.
  cbn [mbind res_bind]. unfold unlock. cbn [set_nodes set_list w_lock mbind res_bind].
  rewrite Z.add_0_l, existsb_filter. unfold del_spec. cbn [fst snd].
  eexists. split; [by destruct (existsb p T)|]. split; [|done]. split; cbn; try done. by apply sess_ok_filter.
Qed.

(** ** The addition *)

Lemma nodes_elem h l T a : Forall2 (node_at h) l T -> a ∈ l -> exists t, node_at h a t.
Proof.
  intros F Ha. apply list_elem_of_lookup in Ha as [i Hi].
  destruct (Forall2_lookup_l _ _ _ _ _ F Hi) as (t & _ & Ht). by exists t.
Qed.

Lemma add_table w T s :
  table w T -> w_lock w = false -> sess_ok s ->
  exists w', session_add w s = Ok ((add_spec T s).1, w') /\ table w' (add_spec T s).2 /\ w_lock w' = false.
Proof.
  intros [N F O A] L Hs. unfold session_add, lock. rewrite L. cbn [mbind res_bind set_lock w_nodes w_list w_alloc].
  rewrite (add_scan_spec _ _ T) by done. cbn [mbind res_bind]. unfold add_spec. destruct (existsb (conflicts s) T).
  - unfold unlock. cbn. exists (set_lock (set_lock w true) false). split; [done|]. split; [|done].
    by split.
  - rewrite A. cbn [s_alloc pref_init mbind res_bind h_alloc]. unfold unlock. cbn [w_lock mbind res_bind fst snd].
    eexists. split; [done|]. split; [|done].
    assert (Hnew : length (w_nodes w) ∉ w_list w).
    { intros Hin. destruct (nodes_elem _ _ _ _ F Hin) as [t Ht]. apply lookup_lt_Some in Ht. lia. }
    split; cbn [w_list w_nodes w_alloc].
    + apply NoDup_app. split; [done|]. split; [|apply NoDup_singleton]. intros x Hx ->%list_elem_of_singleton. done.
    + apply Forall2_app; [|repeat constructor; apply list_lookup_middle; done].
      eapply Forall2_impl; [exact F|]. intros a t Ha. by apply lookup_app_l_Some.
    + apply Forall_app. split; [done|]. by constructor.
    + done.
Qed.


(** ** Uniqueness *)

Section nodup.
Context {B : Type} (f : session -> B) (p : session -> bool).

Lemma in_map_filter x T : x ∈ map f (List.filter p T) -> exists t, In t T /\ p t = true /\ f t = x.
Proof.
  intros H. apply list_elem_of_fmap in H as (t & -> & Ht). apply list_elem_of_In, List.filter_In in Ht.
  exists t. tauto.
Qed.

Lemma nodup_snoc T s :
  NoDup (map f (List.filter p T)) -> (forall t, In t T -> p t = true -> p s = true -> f t <> f s) ->
  NoDup (map f (List.filter p (T ++ [s]))).
Proof.
  intros N H. rewrite List.filter_app, map_app. cbn [List.filter]. destruct (p s) eqn:Es; cbn [map].
  - apply NoDup_app. split; [done|]. split; [|apply NoDup_singleton].
    intros x Hx ->%list_elem_of_singleton. apply in_map_filter in Hx as (t & Ht & Pt & E). by eapply H.
  - by rewrite app_nil_r.
Qed.

Lemma nodup_filter q T :
  NoDup (map f (List.filter p T)) -> NoDup (map f (List.filter p (List.filter q T))).
Proof.
  induction T as [|t T IH]; intros N; [done|]. cbn [List.filter] in *. destruct (q t); cbn [List.filter].
  - destruct (p t); [|by apply IH]. cbn [map] in *. apply NoDup_cons in N as [N1 N2].
    apply NoDup_cons. split; [|by apply IH]. intros Hx. apply N1.
    apply in_map_filter in Hx as (u & Hu & Pu & E). apply List.filter_In in Hu as [Hu _].
    apply list_elem_of_fmap. exists u. split; [done|]. apply list_elem_of_In, List.filter_In. done.
  - apply IH. destruct (p t); [|done]. cbn [map] in N. by apply NoDup_cons in N as [_ ?].
Qed.

End nodup.

Lemma existsb_none {A} (p : A -> bool) T : existsb p T = false -> forall t, In t T -> p t = false.
Proof.
  induction T as [|x T IH]; [done|]. cbn [existsb]. intros [H1 H2]%orb_false_elim t [->|Ht]; [done|].
  by apply IH.
Qed.

Lemma is_fd_token s : is_fd s = negb (is_token s).
Proof. unfold is_fd, is_token. by destruct (s_type s). Qed.

Lemma unique_add T s : unique T -> unique (add_spec T s).2.
Proof.
  intros [U1 U2 U3]. unfold add_spec. destruct (existsb _ T) eqn:E; [done|]. cbn [snd].
  assert (H := existsb_none _ _ E). unfold conflicts in H.
  split; apply nodup_snoc; try done; intros t Ht Pt Ps; specialize (H t Ht); rewrite ?is_fd_token in *;
    rewrite ?Ps, ?Pt in H; cbn [negb andb] in H.
  - apply orb_false_elim in H as [H _]. by apply Z.eqb_neq.
  - apply orb_false_elim in H as [_ H]. by apply bool_decide_eq_false in H.
  - by apply bool_decide_eq_false in H.
Qed.

Lemma unique_del T p : unique T -> unique (del_spec T p).2.
Proof. intros [U1 U2 U3]. split; by apply nodup_filter. Qed.

(** ** References *)

Lemma node_get_spec w a s :
  node_at (w_nodes w) a s ->
  node_get w a = Ok (set_nodes w (<[a := Some (mk_node s (Some (mk_pref 1)))]> (w_nodes w))).
Proof.
  intros Ha. unfold node_get. rewrite (node_load _ _ _ Ha). cbn [mbind res_bind n_ref].
  change (pref_get (mk_pref 0)) with (Ok (1, mk_pref 1)). cbn [mbind res_bind n_session].
  by rewrite (h_store_ok _ _ _ _ Ha).
Qed.

(** Whatever took a reference to the node [a] of an idle table, [session_dref] gives the table back. *)
Lemma dref_spec w a s :
  a ∈ w_list w -> node_at (w_nodes w) a s -> w_lock w = false ->
  session_dref (set_lock (set_nodes w (<[a := Some (mk_node s (Some (mk_pref 1)))]> (w_nodes w))) true) a = Ok w.
Proof.
  intros Hin Ha L. pose proof (lookup_lt_Some _ _ _ Ha) as Hlt.
  unfold session_dref. cbn [set_lock set_nodes w_list w_nodes]. rewrite decide_True by done.
  unfold h_load. rewrite list_lookup_insert_eq by done. cbn [mbind res_bind n_ref].
  change (pref_put (mk_pref 1)) with (Ok (0, mk_pref 0)). cbn [mbind res_bind n_session].
  rewrite (h_store_ok _ _ _ (mk_node s (Some (mk_pref 1))))
    by (by apply list_lookup_insert_eq).
  cbn [mbind res_bind]. unfold unlock, set_nodes, set_lock. cbn [w_lock w_list w_stop w_alloc].
  rewrite list_insert_insert_eq, list_insert_id by exact Ha.
  destruct w. cbn in *. by subst.
Qed.

(** At most one session has the descriptor of a connection. *)
Lemma find_fd_rest d t T :
  d <> -1 -> sess_ok t -> Forall sess_ok T -> by_fd d t = true ->
  NoDup (map fd (List.filter is_fd (t :: T))) -> List.find (by_fd d) T = None.
Proof.
  intros Hd Ht HT Bt N. unfold by_fd in *. apply Z.eqb_eq in Bt.
  assert (isf : forall s, sess_ok s -> fd s = d -> is_fd s = true).
  { intros s [_ _ H] E. apply bool_decide_eq_true. destruct (s_type s) eqn:Es; [done|]. exfalso. apply Hd. rewrite <- E. by apply H. }
  cbn [List.filter] in N. rewrite isf in N by done. cbn [map] in N. apply NoDup_cons in N as [N _].
  destruct (List.find _ T) as [u|] eqn:Eu; [|done]. exfalso. apply N.
  apply List.find_some in Eu as [Hu Bu%Z.eqb_eq]. apply list_elem_of_fmap. exists u. split; [lia|].
  apply list_elem_of_In, List.filter_In. split; [done|]. apply isf; [|done]. rewrite List.Forall_forall in HT. by apply HT.
Qed.

Lemma ref_fd_scan_spec d : d <> -1 -> forall l T w found r,
  Forall2 (node_at (w_nodes w)) l T -> Forall sess_ok T -> NoDup l -> NoDup (map fd (List.filter is_fd T)) ->
  match List.find (by_fd d) T with
  | None => ref_fd_scan w l d found r = Ok (found, r, w)
  | Some s => exists l1 a l2 T1, l = l1 ++ a :: l2 /\ Forall2 (node_at (w_nodes w)) l1 T1 /\
      Forall (fun t => fd t <> d) T1 /\ node_at (w_nodes w) a s /\
      ref_fd_scan w l d found r
      = Ok (Some a, r + 1, set_nodes w (<[a := Some (mk_node s (Some (mk_pref 1)))]> (w_nodes w)))
  end.
Proof.
  intros Hd. induction l as [|a l IH]; intros T w found r F Hok N U.
  - by apply Forall2_nil_inv_l in F as ->.
  - apply Forall2_cons_inv_l in F as (t & T' & Ha & F & ->). apply Forall_cons in Hok as [Ht HT].
    apply NoDup_cons in N as [Na Nl]. cbn [ref_fd_scan List.find]. rewrite (node_load _ _ _ Ha). cbn [mbind res_bind n_session].
    assert (U' : NoDup (map fd (List.filter is_fd T'))).
    { cbn [List.filter] in U. destruct (is_fd t); [by apply NoDup_cons in U as [_ ?]|done]. }
    destruct (by_fd d t) eqn:B; unfold by_fd in B; rewrite B.
    + rewrite (node_get_spec _ _ _ Ha). cbn [mbind res_bind].
      specialize (IH T' (set_nodes w (<[a := Some (mk_node t (Some (mk_pref 1)))]> (w_nodes w))) (Some a) (r + 1)).
      rewrite (find_fd_rest d t T') in IH by done. exists [], a, l, []. split; [done|]. split; [constructor|].
      split; [constructor|]. split; [done|]. apply IH; [by apply nodes_insert_ne|done..].
    + specialize (IH T' w found r F HT Nl U'). destruct (List.find _ T'); [|done].
      destruct IH as (l1 & b & l2 & T1 & -> & F1 & N1 & Nb & E). exists (a :: l1), b, l2, (t :: T1).
      split; [done|]. split; [by constructor|]. split; [|done]. constructor; [by apply Z.eqb_neq|done].
Qed.

(** ** Sequences of calls *)

(** A reference is taken, the session is read through it, and it is given back. *)
Definition with_ref (ref : res (Z * option nat * sessions)) : res (Z * option session * sessions) :=
  '(r, found, w) ← ref;
  match found with
  | None => Ok (r, None, w)
  | Some a => n ← h_load (w_nodes w) a; w ← session_dref w a; Ok (r, Some (n_session n), w)
  end.

Inductive call :=
  | AddFd (s : session)
  | AddToken (s : session)
  | DelFd (d : Z)
  | DelToken (u : list Z)
  | RefFd (d : Z)
  | RefUid (u : list Z) (ty : session_type)
  | RefToken (tok : list Z).

Definition run_call (w : sessions) (c : call) : res (Z * option session * sessions) :=
  match c with
  | AddFd s => '(r, _, w) ← session_add_fd w s; Ok (r, None, w)
  | AddToken s => '(r, _, w) ← session_add_token w s; Ok (r, None, w)
  | DelFd d => '(r, w) ← session_del_fd w d; Ok (r, None, w)
  | DelToken u => '(r, w) ← session_del_token w u; Ok (r, None, w)
  | RefFd d => with_ref (session_ref_fd w d)
  | RefUid u ty => with_ref (session_ref_uid w u ty)
  | RefToken tok => with_ref (session_ref_token w tok)
  end.

Fixpoint run_calls (w : sessions) (cs : list call) : res (list (Z * option session) * sessions) :=
  match cs with
  | [] => Ok ([], w)
  | c :: cs =>
      '(r, o, w) ← run_call w c;
      '(rs, w) ← run_calls w cs;
      Ok ((r, o) :: rs, w)
  end.

(** The same calls on a list of sessions. *)
Definition fd_session (s : session) : session := set_token (set_s_type s session_fd) (0 :: zdrop 1 (token s)).
Definition token_session (s : session) : session := set_fd (set_s_type s session_token) (-1).

Definition answer (o : option session) : Z * option session :=
  (match o with Some _ => 1 | None => 0 end, o).

Definition spec_call (T : list session) (c : call) : Z * option session * list session :=
  match c with
  | AddFd s => let '(r, T) := add_spec T (fd_session s) in (r, None, T)
  | AddToken s => let '(r, T) := add_spec T (token_session s) in (r, None, T)
  | DelFd d => let '(r, T) := del_spec T (by_fd d) in (r, None, T)
  | DelToken u => let '(r, T) := del_spec T (by_uid session_token u) in (r, None, T)
  | RefFd d => (answer (List.find (by_fd d) T), T)
  | RefUid u ty => (answer (List.find (by_uid ty u) T), T)
  | RefToken tok => (answer (List.find (by_token tok) T), T)
  end.

Fixpoint spec_calls (T : list session) (cs : list call) : list (Z * option session) * list session :=
  match cs with
  | [] => ([], T)
  | c :: cs =>
      let '(r, o, T) := spec_call T c in
      let '(rs, T) := spec_calls T cs in
      ((r, o) :: rs, T)
  end.

(** What the callers of this server respect: strings end inside their arrays, and -1, which marks
    the sessions without a connection, is not the descriptor of a connection. *)
Definition call_ok (c : call) : Prop :=
  match c with
  | AddFd s => terminated (uid s) /\ terminated (token s) /\ fd s <> -1
  | AddToken s => terminated (uid s) /\ terminated (token s)
  | DelFd d | RefFd d => d <> -1
  | DelToken u | RefUid u _ | RefToken u => terminated u
  end.

Lemma fd_session_ok s : terminated (uid s) -> fd s <> -1 -> sess_ok (fd_session s).
Proof. intros Hu Hd. split; [done|by exists []|]. by split. Qed.

Lemma token_session_ok s : terminated (uid s) -> terminated (token s) -> sess_ok (token_session s).
Proof. intros Hu Ht. by split. Qed.

(** A reference to what [find] gives. *)
Lemma with_found w a s r :
  a ∈ w_list w -> node_at (w_nodes w) a s -> w_lock w = false ->
  with_ref (Ok (r, Some a, set_lock (set_nodes w (<[a := Some (mk_node s (Some (mk_pref 1)))]> (w_nodes w))) true))
  = Ok (r, Some s, w).
Proof.
  intros Hin Ha L. pose proof (lookup_lt_Some _ _ _ Ha) as Hlt. unfold with_ref. cbn [mbind res_bind].
  unfold h_load at 1. cbn [set_lock set_nodes w_nodes]. rewrite list_lookup_insert_eq by done. cbn [mbind res_bind].
  rewrite (dref_spec w a s) by done. done.
Qed.

Lemma call_refines w T c :
  table w T -> w_lock w = false -> unique T -> call_ok c ->
  let '(r, o, T') := spec_call T c in
  exists w', run_call w c = Ok (r, o, w') /\ table w' T' /\ w_lock w' = false /\ unique T'.
Proof.
  intros HT L U Hc. pose proof HT as [N F O A]. destruct c as [s|s|d|u|d|u ty|tok]; cbn [call_ok spec_call run_call] in *.
  - destruct Hc as (Hu & Ht & Hd). unfold session_add_fd.
    destruct (add_table w T (fd_session s) HT L (fd_session_ok s Hu Hd)) as (w' & E & T' & L').
    pose proof (unique_add T (fd_session s) U) as U'.
    destruct (token s) as [|c tk] eqn:Et; [by destruct Ht|].
    rewrite memcpy_ok by (rewrite ?zlen_cons; pose proof (zlen_nonneg tk); change (zlen (@nil Z)) with 0; lia).
    cbn [mbind res_bind]. unfold fd_session in E, U', T' |- *. rewrite Et in *.
    change (splice (c :: tk) 0 (ztake 1 [0])) with (0 :: zdrop 1 (c :: tk)). rewrite E.
    cbn [mbind res_bind]. destruct (add_spec T _) as [r T1]. by exists w'.
  - destruct Hc as (Hu & Ht). unfold session_add_token.
    destruct (add_table w T (token_session s) HT L (token_session_ok s Hu Ht)) as (w' & E & T' & L').
    pose proof (unique_add T (token_session s) U) as U'. unfold token_session in *. rewrite E.
    cbn [mbind res_bind]. destruct (add_spec T _) as [r T1]. by exists w'.
  - destruct (del_with_spec (sel_fd d) (by_fd d) w T) as (w' & E & T' & L'); [done|done|done|].
    pose proof (unique_del T (by_fd d) U) as U'. unfold session_del_fd. rewrite E. cbn [mbind res_bind].
    destruct (del_spec T _) as [r T1]. by exists w'.
  - destruct (del_with_spec (sel_uid session_token u) (by_uid session_token u) w T) as (w' & E & T' & L');
      [intros x Hx; by apply sel_uid_spec|done|done|].
    pose proof (unique_del T (by_uid session_token u) U) as U'. unfold session_del_token. rewrite E. cbn [mbind res_bind].
    destruct (del_spec T _) as [r T1]. by exists w'.
  - exists w. split; [|done]. unfold session_ref_fd.
    pose proof (ref_fd_scan_spec d Hc (w_list w) T w None 0 F O N (u_fd _ U)) as S.
    destruct (List.find (by_fd d) T) as [s|]; cbn [answer].
    + destruct S as (l1 & a & l2 & T1 & El & _ & _ & Na & ->). cbn [mbind res_bind].
      assert (Ha : a ∈ w_list w) by (rewrite El; apply elem_of_app; right; apply list_elem_of_here). unfold lock. cbn [set_nodes w_lock]. rewrite L.
      by apply with_found.
    + rewrite S. done.
  - exists w. split; [|done]. unfold session_ref_uid.
    pose proof (find_node_spec (sel_uid ty u) (by_uid ty u) (w_nodes w) (w_list w) T
      (fun x Hx => sel_uid_spec ty u x Hc Hx) F O) as S.
    destruct (List.find (by_uid ty u) T) as [s|]; cbn [answer].
    + destruct S as (a & -> & Ha & Na). cbn [mbind res_bind]. rewrite (node_get_spec _ _ _ Na). cbn [mbind res_bind].
      unfold lock. cbn [set_nodes w_lock]. rewrite L. by apply with_found.
    + by rewrite S.
  - exists w. split; [|done]. unfold session_ref_token.
    pose proof (find_node_spec (sel_token tok) (by_token tok) (w_nodes w) (w_list w) T
      (fun x Hx => sel_token_spec tok x Hc Hx) F O) as S.
    destruct (List.find (by_token tok) T) as [s|]; cbn [answer].
    + destruct S as (a & -> & Ha & Na). cbn [mbind res_bind]. unfold lock. rewrite L. cbn [mbind res_bind].
      rewrite (node_get_spec (set_lock w true) a s) by done. exact (with_found w a s 1 Ha Na L).
    + by rewrite S.
Qed.

Lemma calls_refine cs : forall w T,
  table w T -> w_lock w = false -> unique T -> Forall call_ok cs ->
  exists w', run_calls w cs = Ok ((spec_calls T cs).1, w') /\ table w' (spec_calls T cs).2 /\
    w_lock w' = false /\ unique (spec_calls T cs).2.
Proof.
  induction cs as [|c cs IH]; intros w T HT L U Hc; [by exists w|].
  apply Forall_cons in Hc as [Hc Hcs]. pose proof (call_refines w T c HT L U Hc) as R.
  cbn [run_calls spec_calls]. destruct (spec_call T c) as [[r o] T1]. destruct R as (w1 & -> & T1' & L1 & U1).
  cbn [mbind res_bind]. destruct (IH w1 T1 T1' L1 U1 Hcs) as (w2 & -> & R2).
  cbn [mbind res_bind]. destruct (spec_calls T1 cs). by exists w2.
Qed.

Lemma release_list_spec l : forall T w,
  w_list w = l -> NoDup l -> Forall2 (node_at (w_nodes w)) l T ->
  exists h, release_list w l = Ok (set_nodes (set_list w []) h).
Proof.
  induction l as [|a l IH]; intros T w El N F; cbn [release_list].
  - exists (w_nodes w). by rewrite <- El; destruct w.
  - apply Forall2_cons_inv_l in F as (t & T' & Ha & F & ->). rewrite (release_node_spec w a t Ha).
    cbn [mbind res_bind]. rewrite El. change (a :: l) with ([] ++ a :: l). rewrite (filter_out [] l a N). apply NoDup_cons in N as [Na Nl].
    destruct (IH T' (set_nodes (set_list w l) (<[a:=None]> (w_nodes w)))) as [h E];
      [done|done|by apply nodes_insert_ne|]. exists h. cbn [app]. by rewrite E.
Qed.

Lemma destroy_spec w T : table w T -> w_lock w = false -> exists w', session_destroy w = Ok w' /\ w_list w' = [].
Proof.
  intros [N F O A] L. unfold session_destroy, lock. cbn [w_lock]. rewrite L. cbn [mbind res_bind].
  destruct (release_list_spec (w_list w) T (set_lock (mk_sessions (w_nodes w) (w_list w) false 1 (w_alloc w)) true))
    as [h E]; [done..|]. cbn [set_lock w_list] in *. rewrite E. cbn [mbind res_bind].
  unfold unlock. by eexists.
Qed.

(** C23: Used by one thread, the session table is a list of sessions in which no two connections
    share a descriptor or a user and no two tokens are equal. Every sequence of additions,
    deletions and references (each given back) runs without a fault, and its answers are those of
    the list: an addition is refused exactly when it would break uniqueness, a deletion removes
    exactly the matching sessions, a reference finds the session that matches. The table can then
    be destroyed. *)
Theorem session_table_refines w0 cs :
  w_alloc w0 = [] -> Forall call_ok cs ->
  exists w, run_calls (session_init w0) cs = Ok ((spec_calls [] cs).1, w) /\
    table w (spec_calls [] cs).2 /\ unique (spec_calls [] cs).2 /\
    exists w', session_destroy w = Ok w' /\ w_list w' = [].
Proof.
  intros A Hcs. destruct (calls_refine cs (session_init w0) []) as (w & E & T & L & U).
  - split; try done; constructor.
  - done.
  - split; constructor.
  - done.
  - exists w. split; [done|]. split; [done|]. split; [done|]. by eapply destroy_spec.
Qed.

Definition cells (n : nat) (s : list Z) : list Z := s ++ replicate (n - length s) 0.
Definition empty_sessions : sessions := mk_sessions [] [] false 0 [].
Definition user (name : list Z) (d : Z) : session :=
  mk_session 1 (cells 17 name) 0 session_fd (cells 39 []) (0, 0) (0, 0) d (0, 0).

(** A user logs in on connection 5, again on connection 6, is found, and logs out. *)
Definition calls_example : list call :=
  [AddFd (user [97; 98] 5); AddFd (user [97; 98] 6); AddFd (user [99] 5); RefFd 5;
   RefUid (cells 17 [97; 98]) session_fd; DelFd 5; RefFd 5].

Lemma session_table_refines_witness :
  exists w, run_calls empty_sessions calls_example
    = Ok ([(1, None); (0, None); (0, None); (1, Some (user [97; 98] 5)); (1, Some (user [97; 98] 5));
           (1, None); (0, None)], w).
Proof.
  refine (match session_table_refines empty_sessions calls_example _ _ with
          | ex_intro _ w (conj E _) => ex_intro _ w E end).
  - reflexivity.
  - unfold calls_example.
    repeat (apply Forall_cons_2; [cbn; repeat split; first [done | lia | by eexists]|]). apply Forall_nil_2.
Defined.

End Session.

(** ** Two threads on the table *)

Module SessionRace.
Import Pref Session.

(** Where a thread stands in [session_ref_fd] and [session_dref], or in [session_del_fd]. *)
Inductive pc :=
  | RefStart (d : Z)                         (* about to search, without the lock *)
  | RefFound (a : nat)                       (* counted in, about to lock *)
  | RefHeld (a : nat)                        (* the reference is the caller's *)
  | DelStart (d : Z)                         (* about to lock *)
  | DelWalk (d : Z) (l : list nat)           (* the nodes still to look at *)
  | DelWait (d : Z) (a : nat) (l : list nat) (* unlinked, waiting for the references of [a] *)
  | Done.

(** One thread moves. A lock is taken only when it is free, and the wait of [pref_release] ends
    only when the counter is zero. *)
Inductive move : sessions * pc -> sessions * pc -> Prop :=
  | m_search w w' d a :
      ref_fd_scan w (w_list w) d None 0 = Ok (Some a, 1, w') -> move (w, RefStart d) (w', RefFound a)
  | m_search_none w w' d :
      ref_fd_scan w (w_list w) d None 0 = Ok (None, 0, w') -> move (w, RefStart d) (w', Done)
  | m_ref_lock w w' a : lock w = Ok w' -> move (w, RefFound a) (w', RefHeld a)
  | m_dref w w' a : session_dref w a = Ok w' -> move (w, RefHeld a) (w', Done)
  | m_del_lock w w' d : lock w = Ok w' -> move (w, DelStart d) (w', DelWalk d (w_list w'))
  | m_skip w d a l n :
      h_load (w_nodes w) a = Ok n -> fd (n_session n) <> d -> move (w, DelWalk d (a :: l)) (w, DelWalk d l)
  | m_unlink w d a l n :
      h_load (w_nodes w) a = Ok n -> fd (n_session n) = d ->
      move (w, DelWalk d (a :: l)) (set_list w (filter (fun b => b <> a) (w_list w)), DelWait d a l)
  | m_free w w' d a l : release_node w a = Ok w' -> move (w, DelWait d a l) (w', DelWalk d l)
  | m_del_unlock w w' d : unlock w = Ok w' -> move (w, DelWalk d []) (w', Done).

(** The interleavings of the threads. *)
Inductive step : sessions * list pc -> sessions * list pc -> Prop :=
  | s_move w w' ts i p p' :
      ts !! i = Some p -> move (w, p) (w', p') -> step (w, ts) (w', <[i := p']> ts).

Definition deadlocked (st : sessions * list pc) : Prop :=
  (forall st', ~ step st st') /\ exists p, p ∈ st.2 /\ p <> Done.

Lemma walk_to w d l1 a l2 ts i n T :
  Forall2 (fun b s => exists r, w_nodes w !! b = Some (Some (mk_node s r)) /\ fd s <> d) l1 T ->
  h_load (w_nodes w) a = Ok n -> fd (n_session n) = d -> ts !! i = Some (DelWalk d (l1 ++ a :: l2)) ->
  rtc step (w, ts) (set_list w (filter (fun b => b <> a) (w_list w)), <[i := DelWait d a l2]> ts).
Proof.
  intros F Hn Hd. revert ts. induction F as [|b s l1 T [r [Hb Hs]] _ IH]; intros ts Hi.
  - apply rtc_once. eapply s_move; [exact Hi|]. by eapply m_unlink.
  - pose proof (lookup_lt_Some _ _ _ Hi) as Hlt. eapply rtc_l.
    + eapply s_move; [exact Hi|]. eapply m_skip; [by apply h_load_ok|done].
    + rewrite <- (list_insert_insert_eq ts i (DelWait d a l2) (DelWalk d (l1 ++ a :: l2))).
      apply IH. by apply list_lookup_insert_eq.
Qed.

(** C35: A lookup and a deletion of the same session, the latter being what the close of a connection
    triggers, can block each other for good: the lookup raises the counter before it asks for the
    lock, the deletion takes the lock and waits for the counter. From every table that holds the
    session, two such threads reach a state in which neither can move. *)
Theorem session_ref_del_deadlock w T d s :
  table w T -> w_lock w = false -> unique T -> d <> -1 -> List.find (by_fd d) T = Some s ->
  exists st, rtc step (w, [RefStart d; DelStart d]) st /\ deadlocked st.
Proof.
  intros [N F O A] L U Hd Hs. pose proof (ref_fd_scan_spec d Hd (w_list w) T w None 0 F O N (u_fd _ U)) as S.
  rewrite Hs in S. destruct S as (l1 & a & l2 & T1 & El & F1 & N1 & Na & E).
  assert (Hfd : fd s = d) by (apply List.find_some in Hs as [_ Hs]; by apply Z.eqb_eq).
  pose proof (lookup_lt_Some _ _ _ Na) as Hlt.
  set (w1 := set_nodes w (<[a := Some (mk_node s (Some (mk_pref 1)))]> (w_nodes w))) in *.
  assert (Hn : h_load (w_nodes w1) a = Ok (mk_node s (Some (mk_pref 1)))) by (apply h_load_ok; by apply list_lookup_insert_eq).
  set (w2 := set_lock w1 true).
  exists (set_list w2 (filter (fun b => b <> a) (w_list w2)), [RefFound a; DelWait d a l2]). split.
  - eapply rtc_l; [by eapply (s_move w w1 _ 0), m_search|].
    eapply rtc_l; [eapply (s_move w1 w2 _ 1), m_del_lock; [done|]; unfold lock; cbn; by rewrite L|].
    pose proof (walk_to w2 d l1 a l2 [RefFound a; DelWalk d (l1 ++ a :: l2)] 1 (mk_node s (Some (mk_pref 1))) T1) as W.
    rewrite <- El in W. eapply W; [|exact Hn|done|done].
    rewrite El in N. apply NoDup_app in N as (_ & N2 & _).
    assert (Hne : a ∉ l1) by (intros Ha; apply (N2 a Ha), list_elem_of_here).
    clear - F1 N1 Hne. induction F1 as [|b t l1 T1 Hb _ IH]; [constructor|].
    apply Forall_cons in N1 as [Ht N1]. apply not_elem_of_cons in Hne as [H1 H2]. constructor; [|by apply IH].
    exists (Some (mk_pref 0)). split; [|done]. cbn. by rewrite list_lookup_insert_ne.
  - split.
    + intros st' H. inversion H as [? ? ? i p p' Hi M]; subst.
      destruct i as [|[|i]]; cbn in Hi; simplify_eq; inversion M; subst; [done|].
      match goal with H : release_node _ _ = Ok _ |- _ => unfold release_node in H; cbn [set_list w_nodes] in H;
        change (w_nodes w2) with (w_nodes w1) in H; rewrite Hn in H; done end.
    + exists (RefFound a). split; [apply list_elem_of_here|done].
Qed.

(** A user on connection 5 closes it while a request of his is served. *)
Lemma session_ref_del_deadlock_witness :
  exists st, rtc step (mk_sessions [Some (mk_node (user [97] 5) (Some (mk_pref 0)))] [0%nat] false 0 [],
                       [RefStart 5; DelStart 5]) st /\ deadlocked st.
Proof.
  refine (session_ref_del_deadlock _ [user [97] 5] 5 (user [97] 5) _ _ _ _ _).
  - split; cbn.
    + apply NoDup_singleton.
    + by repeat constructor.
    + apply Forall_cons_2; [|apply Forall_nil_2]. by split; [eexists|eexists|].
    + reflexivity.
  - reflexivity.
  - split; cbn; try apply NoDup_singleton. constructor.
  - lia.
  - reflexivity.
Defined.

End SessionRace.
