(* ===== verification/Cert.v ===== *)
(** * Cert: the exchange of the session keys (ep_cert.c, ep_cert_verify.c, ep_crypt.c)

    A client draws an AES key, derives the initial vector from it, and sends both to the server
    under the server's public RSA key; the server checks the vector against the key and stores
    both with the connection. The routines of openssl (MD5, the reading of a PEM key, RSA with
    PKCS#1 padding) are the class [Crypto]; what the exchange relies on is [CryptoLaws]. *)
From S2P Require Import Prelude Alloc Words Buffer Bson Packet PackLoop Io IoSpec.
Import Alloc Words Buffer Bson Packet PackLoop Io IoSpec.

Module Keys.

(** ** The two key files compiled into the library *)

Definition RSA_PRI_KEY : list Z :=
  [45; 45; 45; 45; 45; 66; 69; 71; 73; 78; 32; 82; 83; 65; 32; 80; 82; 73; 86; 65;
   84; 69; 32; 75; 69; 89; 45; 45; 45; 45; 45; 10; 77; 73; 73; 67; 88; 81; 73; 66;
   65; 65; 75; 66; 103; 81; 68; 85; 84; 119; 73; 120; 105; 87; 79; 56; 111; 67; 83; 103;
   43; 100; 118; 81; 81; 114; 90; 68; 97; 88; 57; 57; 88; 53; 114; 48; 111; 67; 51; 104;
   106; 78; 118; 109; 118; 98; 75; 76; 121; 83; 82; 50; 68; 48; 88; 55; 10; 100; 81; 84;
   78; 114; 83; 104; 100; 116; 98; 51; 119; 121; 108; 51; 75; 74; 80; 85; 113; 98; 70; 109;
   113; 117; 109; 43; 50; 86; 84; 107; 116; 74; 106; 52; 72; 68; 80; 72; 50; 116; 84; 50;
   104; 99; 116; 113; 75; 68; 108; 104; 43; 87; 67; 72; 107; 54; 52; 118; 121; 72; 116; 112;
   119; 10; 117; 103; 65; 54; 110; 70; 120; 119; 82; 89; 103; 113; 120; 101; 114; 113; 69; 103;
   65; 104; 75; 102; 66; 101; 88; 85; 56; 88; 102; 52; 117; 55; 50; 48; 112; 75; 90; 66;
   68; 99; 97; 115; 55; 43; 54; 73; 90; 69; 81; 107; 89; 67; 115; 122; 113; 121; 52; 119;
   73; 68; 65; 81; 65; 66; 10; 65; 111; 71; 66; 65; 76; 51; 53; 115; 78; 110; 73; 117;
   97; 70; 111; 110; 122; 52; 89; 78; 104; 82; 109; 68; 90; 102; 71; 121; 66; 106; 85; 117;
   117; 67; 89; 107; 70; 87; 97; 97; 73; 57; 82; 81; 88; 111; 74; 48; 52; 70; 56; 54;
   122; 56; 50; 70; 56; 85; 47; 89; 55; 90; 117; 10; 48; 80; 97; 115; 55; 106; 51; 97;
   48; 106; 74; 83; 51; 43; 50; 65; 104; 69; 80; 103; 103; 74; 103; 103; 57; 122; 66; 79;
   51; 87; 52; 90; 43; 77; 88; 78; 86; 100; 51; 99; 56; 43; 120; 53; 99; 122; 112; 109;
   69; 81; 66; 71; 115; 117; 72; 54; 90; 104; 73; 90; 98; 68; 72; 97; 10; 82; 111; 113;
   83; 97; 97; 107; 88; 71; 56; 87; 113; 101; 122; 110; 73; 81; 103; 110; 54; 101; 51; 84;
   73; 78; 118; 68; 111; 101; 55; 52; 104; 80; 75; 82; 116; 85; 99; 106; 72; 100; 101; 48;
   110; 117; 116; 115; 112; 65; 107; 69; 65; 47; 47; 114; 55; 75; 72; 99; 68; 100; 117; 112;
   51; 10; 53; 48; 43; 67; 85; 72; 102; 106; 114; 112; 47; 66; 57; 77; 118; 79; 107; 54;
   81; 108; 47; 72; 79; 104; 75; 117; 78; 106; 103; 75; 54; 76; 86; 51; 70; 99; 82; 48;
   120; 56; 54; 47; 86; 89; 109; 112; 118; 112; 112; 55; 43; 84; 79; 70; 67; 72; 82; 79;
   107; 72; 115; 119; 121; 112; 10; 76; 55; 108; 101; 54; 78; 80; 75; 49; 119; 74; 66; 65;
   78; 82; 84; 75; 57; 86; 48; 116; 99; 48; 102; 55; 71; 120; 83; 50; 70; 118; 81; 69;
   108; 55; 120; 51; 74; 88; 119; 81; 56; 88; 112; 68; 120; 81; 85; 103; 69; 87; 77; 112;
   43; 101; 47; 57; 68; 111; 109; 98; 115; 87; 54; 10; 104; 100; 90; 81; 99; 50; 73; 56;
   73; 115; 86; 67; 107; 87; 118; 107; 119; 51; 100; 82; 102; 99; 70; 70; 104; 114; 66; 53;
   75; 75; 71; 85; 119; 116; 85; 67; 81; 72; 97; 99; 78; 103; 112; 117; 56; 120; 85; 68;
   50; 101; 69; 57; 98; 122; 87; 89; 66; 57; 68; 102; 82; 56; 69; 70; 10; 79; 115; 103;
   103; 108; 70; 86; 103; 119; 114; 111; 98; 117; 80; 120; 107; 90; 68; 53; 49; 85; 88; 118;
   99; 68; 106; 112; 76; 97; 101; 51; 104; 57; 113; 100; 54; 49; 108; 50; 79; 117; 115; 56;
   77; 90; 122; 118; 111; 122; 118; 66; 70; 74; 90; 119; 101; 110; 117; 115; 67; 81; 69; 79;
   103; 10; 103; 104; 79; 111; 54; 115; 98; 56; 53; 103; 98; 83; 108; 69; 115; 97; 67; 78;
   47; 111; 49; 85; 79; 69; 108; 88; 71; 82; 43; 57; 86; 47; 101; 105; 79; 115; 50; 48;
   88; 55; 89; 56; 83; 112; 118; 82; 113; 74; 103; 70; 116; 48; 111; 71; 117; 110; 106; 56;
   79; 89; 111; 107; 122; 108; 10; 80; 107; 84; 103; 49; 100; 99; 98; 86; 47; 48; 90; 101;
   104; 71; 78; 71; 107; 107; 67; 81; 81; 68; 100; 51; 101; 67; 88; 109; 89; 101; 88; 81;
   89; 66; 53; 83; 82; 49; 57; 84; 80; 101; 55; 54; 110; 103; 79; 118; 98; 119; 66; 120;
   118; 108; 98; 73; 106; 119; 73; 50; 99; 102; 100; 10; 101; 71; 106; 101; 87; 106; 50; 103;
   103; 85; 66; 117; 102; 75; 121; 108; 50; 112; 103; 77; 57; 122; 87; 67; 78; 121; 70; 54;
   79; 80; 48; 107; 56; 49; 55; 102; 121; 120; 119; 55; 80; 115; 47; 68; 10; 45; 45; 45;
   45; 45; 69; 78; 68; 32; 82; 83; 65; 32; 80; 82; 73; 86; 65; 84; 69; 32; 75; 69;
   89; 45; 45; 45; 45; 45].

Definition RSA_PUB_KEY : list Z :=
  [45; 45; 45; 45; 45; 66; 69; 71; 73; 78; 32; 82; 83; 65; 32; 80; 85; 66; 76; 73;
   67; 32; 75; 69; 89; 45; 45; 45; 45; 45; 13; 10; 77; 73; 71; 74; 65; 111; 71; 66;
   65; 78; 82; 80; 65; 106; 71; 74; 89; 55; 121; 103; 74; 75; 68; 53; 50; 57; 66; 67;
   116; 107; 78; 112; 102; 51; 49; 102; 109; 118; 83; 103; 76; 101; 71; 77; 50; 43; 97; 57;
   115; 111; 118; 74; 74; 72; 89; 80; 82; 102; 116; 49; 66; 77; 50; 116; 13; 10; 75; 70;
   50; 49; 118; 102; 68; 75; 88; 99; 111; 107; 57; 83; 112; 115; 87; 97; 113; 54; 98; 55;
   90; 86; 79; 83; 48; 109; 80; 103; 99; 77; 56; 102; 97; 49; 80; 97; 70; 121; 50; 111;
   111; 79; 87; 72; 53; 89; 73; 101; 84; 114; 105; 47; 73; 101; 50; 110; 67; 54; 65; 68;
   113; 99; 13; 10; 88; 72; 66; 70; 105; 67; 114; 70; 54; 117; 111; 83; 65; 67; 69; 112;
   56; 70; 53; 100; 84; 120; 100; 47; 105; 55; 118; 98; 83; 107; 112; 107; 69; 78; 120; 113;
   122; 118; 55; 111; 104; 107; 82; 67; 82; 103; 75; 122; 79; 114; 76; 106; 65; 103; 77; 66;
   65; 65; 69; 61; 13; 10; 45; 45; 45; 45; 45; 69; 78; 68; 32; 82; 83; 65; 32; 80;
   85; 66; 76; 73; 67; 32; 75; 69; 89; 45; 45; 45; 45; 45].

(** ** Reading them: PEM, base 64, DER *)

(** The text between the first line and the dashes of the last, without line ends. *)
Fixpoint skip_line (l : list Z) : list Z :=
  match l with [] => [] | c :: l => if c =? 10 then l else skip_line l end.
Fixpoint until_dash (l : list Z) : list Z :=
  match l with [] => [] | c :: l => if c =? 45 then [] else c :: until_dash l end.
Definition pem_body (l : list Z) : list Z :=
  List.filter (fun c => negb ((c =? 10) || (c =? 13))) (until_dash (skip_line l)).

Definition b64_digit (c : Z) : Z :=
  if (65 <=? c) && (c <=? 90) then c - 65
  else if (97 <=? c) && (c <=? 122) then c - 71
  else if (48 <=? c) && (c <=? 57) then c + 4
  else if c =? 43 then 62 else if c =? 47 then 63 else 0.

Fixpoint b64_decode (l : list Z) : list Z :=
  match l with
  | a :: b :: c :: d :: l =>
      let v := ((b64_digit a * 64 + b64_digit b) * 64 + b64_digit c) * 64 + b64_digit d in
      let three := [v / 65536; (v / 256) mod 256; v mod 256] in
      (if d =? 61 then (if c =? 61 then take 1 three else take 2 three) else three) ++ b64_decode l
  | _ => []
  end.

Definition be_load (l : list Z) : Z := le_load (rev l).

(** The length octets of a DER element, and what follows them. *)
Definition der_length (l : list Z) : option (Z * list Z) :=
  match l with
  | n :: l =>
      if n <? 128 then Some (n, l)
      else let k := n - 128 in Some (be_load (ztake k l), zdrop k l)
  | [] => None
  end.

(** The INTEGERs of a SEQUENCE. *)
Fixpoint der_integers (fuel : nat) (l : list Z) : option (list Z) :=
  match fuel, l with
  | O, _ => None
  | _, [] => Some []
  | S fuel, tag :: l =>
      if tag =? 2 then
        '(n, l) ← der_length l;
        rest ← der_integers fuel (zdrop n l);
        Some (be_load (ztake n l) :: rest)
      else None
  end.

Definition der_sequence (l : list Z) : option (list Z) :=
  match l with
  | tag :: l => if tag =? 48 then '(n, l) ← der_length l; der_integers 10 (ztake n l) else None
  | [] => None
  end.

Definition key_numbers (pem : list Z) : option (list Z) := der_sequence (b64_decode (pem_body pem)).

(** The relations between the numbers of the two files, as a computation. *)
Definition numbers_match (pub pri : option (list Z)) : bool :=
  match pub, pri with
  | Some [n; e], Some [v; n'; e'; d; p; q; dp; dq; qi] =>
      (v =? 0) && (n =? n') && (e =? e') && (2 ^ 1023 <=? n) && (n <? 2 ^ 1024) && (n =? p * q) &&
      (1 <? p) && (1 <? q) && ((e * d) mod (p - 1) =? 1) && ((e * d) mod (q - 1) =? 1) &&
      (dp =? d mod (p - 1)) && (dq =? d mod (q - 1)) && ((qi * q) mod p =? 1)
  | _, _ => false
  end.

Lemma numbers_match_spec pub pri :
  numbers_match pub pri = true ->
  exists n e d p q dp dq qi,
    pub = Some [n; e] /\ pri = Some [0; n; e; d; p; q; dp; dq; qi] /\
    2 ^ 1023 <= n < 2 ^ 1024 /\ n = p * q /\ 1 < p /\ 1 < q /\
    (e * d) mod (p - 1) = 1 /\ (e * d) mod (q - 1) = 1 /\
    dp = d mod (p - 1) /\ dq = d mod (q - 1) /\ (qi * q) mod p = 1.
Proof.
  destruct pub as [[|n [|e [|? ?]]]|]; try done.
  destruct pri as [[|v [|n' [|e' [|d [|p [|q [|dp [|dq [|qi [|? ?]]]]]]]]]]|]; try done.
  cbn [numbers_match]. rewrite !andb_true_iff, !Z.eqb_eq, !Z.ltb_lt, Z.leb_le.
  intros ((((((((((((-> & <-) & <-) & H1) & H2) & H3) & H4) & H5) & H6) & H7) & H8) & H9) & H10).
  by exists n, e, d, p, q, dp, dq, qi.
Qed.

(** The two keys compiled into the library belong together: the files decode to RSA keys of 1024
    bits with the same modulus n and the same public exponent e, the modulus is the product of
    the private key's p and q, and the private exponent d inverts e modulo p-1 and modulo q-1. *)
Theorem rsa_keys_match :
  exists n e d p q dp dq qi,
    key_numbers RSA_PUB_KEY = Some [n; e] /\
    key_numbers RSA_PRI_KEY = Some [0; n; e; d; p; q; dp; dq; qi] /\
    2 ^ 1023 <= n < 2 ^ 1024 /\ n = p * q /\ 1 < p /\ 1 < q /\
    (e * d) mod (p - 1) = 1 /\ (e * d) mod (q - 1) = 1 /\
    dp = d mod (p - 1) /\ dq = d mod (q - 1) /\ (qi * q) mod p = 1.
Proof. apply numbers_match_spec. vm_compute. reflexivity. Qed.

End Keys.

Module Cert.
Import Keys.

(** ** The routines of openssl *)

(** [rsa_public_encrypt k seed m] pads [m] with the random bytes [seed]; [None] is the result -1. *)
Class Crypto := {
  md5 : list Z -> list Z;
  rsa : Type;
  pem_public : list Z -> option rsa;
  pem_private : list Z -> option rsa;
  rsa_size : rsa -> Z;
  rsa_public_encrypt : rsa -> list Z -> list Z -> option (list Z);
  rsa_private_decrypt : rsa -> list Z -> option (list Z);
}.

(** A digest has 16 bytes. The two files are keys of 1024 bits; the padding takes 11 of their 128
    bytes; deciphering with the private key undoes enciphering with the public one. *)
Class CryptoLaws (Cr : Crypto) : Prop := {
  md5_bytes : forall x, Forall is_byte (md5 x) /\ zlen (md5 x) = 16;
  rsa_inverse : exists kp ks,
    pem_public RSA_PUB_KEY = Some kp /\ pem_private RSA_PRI_KEY = Some ks /\
    rsa_size kp = 128 /\ rsa_size ks = 128 /\
    forall seed m, Forall is_byte m -> 0 < zlen m <= 117 ->
    exists c, rsa_public_encrypt kp seed m = Some c /\ zlen c = 128 /\ Forall is_byte c /\
      rsa_private_decrypt ks c = Some m;
}.

Section cert.
Context `{Cr : Crypto} {W : Type}.

Definition ep_crypt_md5 (buffer : list Z) (size : Z) : res (list Z) :=
  l ← slice buffer 0 size; Ok (md5 l).

(** What a call left in [*out_buffer]. *)
Inductive out_ptr := Unset | Null | Data (l : list Z).

(** The result, [*out_buffer] and [*out_size]. BIO_new_mem_buf is an allocation of openssl. *)
Definition ep_crypt_rsa (al : alloc) (seed key_buffer in_buffer : list Z) (in_size : Z) (enc : bool)
  : res (Z * out_ptr * Z * alloc) :=
  if (zlen key_buffer <=? 0) || (in_size <=? 0) then Ok (0, Unset, 0, al) else
  let '(bio, al) := s_alloc al in
  if negb bio then Ok (0, Unset, 0, al) else
  match (if enc then pem_public key_buffer else pem_private key_buffer) with
  | None => Ok (0, Unset, 0, al)
  | Some key =>
    let '(ok, al) := ep_malloc al (rsa_size key) in
    if negb ok then Ok (0, Null, 0, al) else
    x ← slice in_buffer 0 in_size;
    match (if enc then rsa_public_encrypt key seed x else rsa_private_decrypt key x) with
    | None => Ok (0, Null, 0, al)
    | Some r =>
      out ← memcpy (junk (rsa_size key)) 0 r (zlen r);
      Ok (1, Data out, zlen r, al)
    end
  end.

(** On failure the pointer is freed, set or not. *)
Definition ep_cert_client_encrypt (al : alloc) (seed buffer : list Z) (size : Z)
  : res (option ep_buffer * alloc) :=
  '(r, ptr, ptr_size, al) ← ep_crypt_rsa al seed RSA_PUB_KEY buffer size true;
  match ptr with
  | Unset => Fault WildPointer
  | Null => Ok (None, al)
  | Data out => ep_buffer_new al out ptr_size
  end.

Definition ep_cert_server_decrypt (al : alloc) (buffer : list Z) (size : Z)
  : res (option ep_buffer * alloc) :=
  '(r, ptr, ptr_size, al) ← ep_crypt_rsa al [] RSA_PRI_KEY buffer size false;
  match ptr with
  | Data out => ep_buffer_new al out ptr_size
  | _ => Ok (None, al)
  end.

(** ** Keys *)

(** [curtime] is the text of ctime. *)
Definition ep_cert_random (curtime : list Z) : res (list Z) := ep_crypt_md5 curtime (zlen curtime).

Definition EP_MAKEWORD (major minor : Z) : Z := Z.lor (Z.shiftl major 8) minor.

Definition ep_cert_gen_vec (key : list Z) : res (list Z) :=
  magic0 ← rd_byte key 1;
  magic1 ← rd_byte key 15;
  let magic := u16 (EP_MAKEWORD magic0 magic1) in
  vec_buf ← memcpy (junk 16) 0 (le_bytes 2 magic) 2;
  k ← slice key 0 1;
  vec_buf ← memcpy vec_buf 2 k 1;
  k ← slice key 2 13;
  vec_buf ← memcpy vec_buf 3 k 13;
  ep_crypt_md5 vec_buf 16.

Definition ep_cert_gen_client_key (curtime : list Z) : res ep_aes_key :=
  key ← ep_cert_random curtime;
  key ← memcpy key 0 [0] 1;
  vec ← ep_cert_gen_vec key;
  Ok (mk_aes key vec).

Definition ep_cert_verify_client_key (aes : ep_aes_key) : res Z :=
  k ← rd_byte (aes_key aes) 0;
  if negb (k =? 0) then Ok 0 else
  vec_buf ← ep_cert_gen_vec (aes_key aes);
  vec ← slice (aes_vec aes) 0 16;
  Ok (if decide (vec_buf = vec) then 1 else 0).

(** ** The server's side *)

Definition s_security : list Z := [115; 101; 99; 117; 114; 105; 116; 121].
Definition s_key : list Z := [107; 101; 121].
Definition s_vec : list Z := [118; 101; 99].
Definition s_result : list Z := [114; 101; 115; 117; 108; 116].

(** The state of the loop is the allocator's script; leaving it answers with the decrypted body,
    or [None] for the result 0. *)
Definition decrypt_body (m : list Z) (iter : bson_iterator) (al : alloc)
  : res (turn alloc (option ep_buffer * alloc)) :=
  _ ← ep_pack_iterator_type m iter;
  key ← ep_pack_iterator_key m iter;
  if decide (key = s_security) then
    bin ← ep_pack_iterator_bin_data m iter;
    bin_size ← ep_pack_interator_bin_len m iter;
    if negb (bin_size =? 128) then Ok (Leave (None, al)) else
    b ← ep_cert_server_decrypt al (zdrop bin m) bin_size;
    Ok (Leave b)
  else Ok (Next al).

Definition ep_cert_server_rsa_get_decrypt_buffer (al : alloc) (pack : option ep_pack)
  : res (option ep_buffer * alloc) :=
  match pack with
  | None => Fault NullDeref
  | Some pack =>
    t ← pack_foreach pack decrypt_body al;
    Ok (match t with Next al => (None, al) | Leave r => r end)
  end.

(** A fresh packet with the result. *)
Definition reply_result (w : world W) (r : Z) : res (option ep_pack * world W) :=
  '(p, al) ← ep_pack_new (w_al w);
  let w := set_al w al in
  match p with
  | None => Ok (None, w)
  | Some p => p ← ep_pack_append_int p s_result r; Ok (Some p, w)
  end.

(** [memcpy(aes.key, ep_pack_iterator_bin_data(iter), 16)], whatever the length of the element. *)
Definition key_body (m : list Z) (iter : bson_iterator) (aes : ep_aes_key) : res (turn ep_aes_key unit) :=
  _ ← ep_pack_iterator_type m iter;
  key ← ep_pack_iterator_key m iter;
  if decide (key = s_key) then
    off ← ep_pack_iterator_bin_data m iter; l ← slice m off 16;
    k ← memcpy (aes_key aes) 0 l 16; Ok (Next (mk_aes k (aes_vec aes)))
  else if decide (key = s_vec) then
    off ← ep_pack_iterator_bin_data m iter; l ← slice m off 16;
    v ← memcpy (aes_vec aes) 0 l 16; Ok (Next (mk_aes (aes_key aes) v))
  else Ok (Next aes).

(** The check and the storing of the key received. *)
Definition store_key (w : world W) (fd : Z) (aes : ep_aes_key) (p : ep_pack)
  : res (option ep_pack * world W) :=
  ok ← ep_cert_verify_client_key aes;
  if negb (ok =? 1) then p ← ep_pack_append_int p s_result (-1); Ok (Some p, w) else
  '(ret, w) ← ep_io_update_aes w fd aes;
  if ret =? 0 then p ← ep_pack_append_int p s_result (-1); Ok (Some p, w) else
  p ← ep_pack_append_int p s_result 1; Ok (Some p, w).

Definition ep_cert_server_security (w : world W) (fd : Z) (pack : option ep_pack)
  : res (option ep_pack * world W) :=
  '(buffer, al) ← ep_cert_server_rsa_get_decrypt_buffer (w_al w) pack;
  let w := set_al w al in
  match buffer with
  | None => reply_result w (-1)
  | Some buffer =>
    '(pack, al) ← ep_pack_create (w_al w) (ep_buffer_ptr buffer) (ep_buffer_size buffer);
    let w := set_al w al in
    match pack with
    | None => reply_result w (-1)
    | Some pack =>
      t ← pack_foreach pack key_body (mk_aes (zeros 16) (zeros 16));
      let aes := match t with Next aes => aes | Leave _ => mk_aes (zeros 16) (zeros 16) end in
      '(p, al) ← ep_pack_new (w_al w);
      let w := set_al w al in
      match p with
      | None => Ok (None, w)
      | Some p => store_key w fd aes p
      end
    end
  end.

(** ** The client's side *)

(** The first part of ep_cert_client_security: the packet to be sent, or [None] for the result
    -1. *)
Definition client_hello (w : world W) (fd : Z) (curtime seed : list Z) : res (option ep_pack * world W) :=
  aes ← ep_cert_gen_client_key curtime;
  '(ret, w) ← ep_io_update_aes w fd aes;
  if negb (ret =? 1) then Ok (None, w) else
  '(tmp, al) ← ep_pack_new (w_al w);
  match tmp with
  | None => Ok (None, set_al w al)
  | Some tmp =>
    tmp ← ep_pack_append_binary tmp s_key (aes_key aes);
    tmp ← ep_pack_append_binary tmp s_vec (aes_vec aes);
    tmp ← ep_pack_finish tmp;
    size ← ep_pack_size tmp;
    '(b, al) ← ep_cert_client_encrypt al seed (ep_pack_data tmp) size;
    match b with
    | None => Ok (None, set_al w al)
    | Some b =>
      '(pack, al) ← ep_pack_new al;
      match pack with
      | None => Ok (None, set_al w al)
      | Some pack =>
        body ← slice (ep_buffer_ptr b) 0 (ep_buffer_size b);
        pack ← ep_pack_append_binary pack s_security body;
        Ok (Some pack, set_al w al)
      end
    end
  end.

(** The last part: the result in the answer; it stays -1 when there is none. *)
Definition result_body (m : list Z) (iter : bson_iterator) (s : unit) : res (turn unit Z) :=
  _ ← ep_pack_iterator_type m iter;
  key ← ep_pack_iterator_key m iter;
  if decide (key = s_result) then r ← ep_pack_iterator_int m iter; Ok (Leave r) else Ok (Next s).

Definition client_answer (pack : ep_pack) : res Z :=
  t ← pack_foreach pack result_body tt;
  Ok (match t with Next _ => -1 | Leave r => r end).

End cert.

(** ** The vector of a key *)

(** The sixteen bytes that are digested: the last byte, the second, the first and the rest. *)
Definition vec_msg (key : list Z) : list Z :=
  match key with
  | k0 :: k1 :: rest => default 0 (rest !! 13%nat) :: k1 :: k0 :: take 13 rest
  | _ => []
  end.

Lemma makeword_bytes a b : is_byte a -> is_byte b -> le_bytes 2 (u16 (EP_MAKEWORD a b)) = [b; a].
Proof.
  unfold is_byte, EP_MAKEWORD, wrap_u. intros Ha Hb. rewrite Z.lor_comm, lor_fields by lia.
  rewrite Z.mod_small by lia. cbn [le_bytes]. change (2 ^ 8) with 256.
  rewrite Z.mod_add, (Z.mod_small b), Z.div_add, (Z.div_small b), Z.add_0_l, Z.mod_small by lia. done.
Qed.

Section proofs.
Context `{CL : CryptoLaws} {W : Type}.

Lemma gen_vec_spec key :
  Forall is_byte key -> zlen key = 16 -> ep_cert_gen_vec key = Ok (md5 (vec_msg key)).
Proof using Type.
  intros Hb Hl. unfold zlen in Hl. do 16 (destruct key as [|? key]; [cbn in Hl; lia|]).
  destruct key; [|cbn in Hl; lia]. rewrite !Forall_cons in Hb. unfold ep_cert_gen_vec.
  match goal with |- context [rd_byte (?a :: ?b :: _) 1] =>
    change (rd_byte _ 1) with (Ok b); cbn [mbind res_bind];
    match goal with |- context [rd_byte ?l 15] => change (rd_byte l 15) with (Ok (default 0 (l !! 15%nat))) end end.
  cbn [mbind res_bind lookup list_lookup default from_option id].
  rewrite makeword_bytes by tauto. reflexivity.
Qed.

#[local] Set Default Proof Using "CL".

(** The key a client draws at a moment: the digest of the text of the time, its first byte zero. *)
Definition client_key (curtime : list Z) : list Z := 0 :: zdrop 1 (md5 curtime).

Lemma client_key_ok curtime : Forall is_byte (client_key curtime) /\ zlen (client_key curtime) = 16.
Proof.
  destruct (md5_bytes curtime) as [B L]. unfold client_key. split.
  - constructor; [unfold is_byte; lia|by apply Forall_drop].
  - rewrite zlen_cons, zlen_zdrop by lia. lia.
Qed.

Definition client_aes (curtime : list Z) : ep_aes_key := mk_aes (client_key curtime) (md5 (vec_msg (client_key curtime))).

Lemma gen_client_key_spec curtime : ep_cert_gen_client_key curtime = Ok (client_aes curtime).
Proof.
  unfold ep_cert_gen_client_key, ep_cert_random, ep_crypt_md5.
  rewrite slice_ok by (pose proof (zlen_nonneg curtime); lia). cbn [mbind res_bind].
  change (zdrop 0 curtime) with curtime. rewrite ztake_all by lia.
  destruct (md5_bytes curtime) as [B L]. rewrite memcpy_ok by (change (zlen [0]) with 1; lia). cbn [mbind res_bind].
  change (splice (md5 curtime) 0 (ztake 1 [0])) with (client_key curtime).
  destruct (client_key_ok curtime). rewrite gen_vec_spec by done. done.
Qed.

Lemma verify_spec key vec :
  Forall is_byte key -> zlen key = 16 -> zlen vec = 16 ->
  ep_cert_verify_client_key (mk_aes key vec)
  = Ok (if (hd 0 key =? 0) && bool_decide (md5 (vec_msg key) = vec) then 1 else 0).
Proof.
  intros Hb Hk Hv. unfold ep_cert_verify_client_key. cbn [aes_key aes_vec].
  destruct key as [|k0 key]; [done|]. unfold rd_byte. rewrite (slice_ok (k0 :: key)) by lia.
  cbn [mbind res_bind]. change (hd 0 (ztake 1 (zdrop 0 (k0 :: key)))) with k0. cbn [mbind res_bind hd].
  destruct (k0 =? 0); cbn [negb andb]; [|done]. rewrite gen_vec_spec by done. cbn [mbind res_bind].
  rewrite slice_ok by lia. cbn [mbind res_bind]. change (zdrop 0 vec) with vec. rewrite ztake_all by lia.
  by case_decide; [rewrite bool_decide_eq_true_2|rewrite bool_decide_eq_false_2].
Qed.

Lemma client_aes_verifies curtime : ep_cert_verify_client_key (client_aes curtime) = Ok 1.
Proof.
  destruct (client_key_ok curtime). unfold client_aes.
  rewrite verify_spec by (done || apply md5_bytes). by rewrite bool_decide_eq_true_2.
Qed.

(** ** The fields of the exchange *)

Definition key_fields (aes : ep_aes_key) : fields :=
  FCons s_key (VBin (aes_key aes)) (FCons s_vec (VBin (aes_vec aes)) FNil).
Definition hello_fields (c : list Z) : fields := FCons s_security (VBin c) FNil.
Definition result_fields (r : Z) : fields := FCons s_result (VInt r) FNil.

Definition aes_ok (aes : ep_aes_key) : Prop :=
  Forall is_byte (aes_key aes) /\ zlen (aes_key aes) = 16 /\
  Forall is_byte (aes_vec aes) /\ zlen (aes_vec aes) = 16.

Lemma client_aes_ok curtime : aes_ok (client_aes curtime).
Proof. destruct (client_key_ok curtime). repeat split; try done; apply md5_bytes. Qed.

Ltac name_solve := repeat constructor; done || lia.

Lemma key_fields_fit aes : aes_ok aes -> fits (key_fields aes) /\ zlen (enc_fields (key_fields aes)) = 52.
Proof.
  intros (B1 & L1 & B2 & L2). assert (E : zlen (enc_fields (key_fields aes)) = 52).
  { cbn [key_fields enc_fields enc_value type_code]. rewrite !zlen_app, !zlen_le_bytes, L1, L2. reflexivity. }
  split; [|done]. split; [|rewrite E; by vm_compute]. repeat split; try done; name_solve.
Qed.

Lemma hello_fields_fit c :
  Forall is_byte c -> zlen c = 128 -> fits (hello_fields c) /\ zlen (enc_fields (hello_fields c)) = 143.
Proof.
  intros B L. assert (E : zlen (enc_fields (hello_fields c)) = 143).
  { cbn [hello_fields enc_fields enc_value type_code]. rewrite !zlen_app, !zlen_le_bytes, L. reflexivity. }
  split; [|done]. split; [|rewrite E; by vm_compute]. repeat split; try done; name_solve.
Qed.

Lemma result_fields_fit r : is_i32 r -> fits (result_fields r) /\ zlen (enc_fields (result_fields r)) = 12.
Proof.
  intros B. assert (E : zlen (enc_fields (result_fields r)) = 12).
  { cbn [result_fields enc_fields enc_value type_code]. rewrite !zlen_app, !zlen_le_bytes. reflexivity. }
  split; [|done]. split; [|rewrite E; by vm_compute]. repeat split; try apply B; try done; name_solve.
Qed.

Lemma doc_bytes body : Forall is_byte body -> Forall is_byte (doc body).
Proof.
  intros H. unfold doc. rewrite !Forall_app. split; [apply le_bytes_is_byte|]. split; [done|].
  constructor; [unfold is_byte; lia|constructor].
Qed.

Lemma key_doc_bytes aes : aes_ok aes -> Forall is_byte (doc (enc_fields (key_fields aes))).
Proof.
  intros (B1 & L1 & B2 & L2). apply doc_bytes. cbn [key_fields enc_fields enc_value type_code].
  rewrite !Forall_app. unfold is_byte.
  repeat first [ apply le_bytes_is_byte | done | split | constructor | lia ].
Qed.

(** ** RSA there and back *)

Lemma slice_prefix (l : list Z) n x : slice l 0 n = Ok x -> 0 <= n <= zlen l /\ x = ztake n l.
Proof.
  unfold slice. destruct (_ && _) eqn:E; [|done]. intros [= <-]. split_bool. split; [lia|done].
Qed.

(** The buffer made from the data of a call of openssl. *)
Lemma new_from_out (r : list Z) n :
  0 < zlen r <= n -> n <= 1024 ->
  exists out b, memcpy (junk n) 0 r (zlen r) = Ok out /\ ep_buffer_new [] out (zlen r) = Ok (Some b, []) /\
    slice (ep_buffer_ptr b) 0 (ep_buffer_size b) = Ok r /\ ep_buffer_size b = zlen r.
Proof.
  intros Hr Hn. assert (Lj : zlen (junk n) = n) by (apply zlen_junk; lia). rewrite memcpy_ok by lia.
  eexists. rewrite ztake_all by lia. destruct (buffer_new_spec (splice (junk n) 0 r) (zlen r))
    as (b & E & I & U & D & _); [rewrite zlen_splice; lia|unfold BODY_MAX; lia|].
  exists b. split; [done|]. split; [done|]. unfold ep_buffer_ptr, ep_buffer_size. rewrite U.
  pose proof (bi_used b I). rewrite slice_ok by lia. split; [|done]. f_equal.
  change (zdrop 0 (buf_chunk b)) with (buf_chunk b). unfold buf_data in D. rewrite U in D. rewrite D.
  apply ztake_splice_0; [done|lia].
Qed.

Lemma rsa_there_and_back seed buffer m :
  slice buffer 0 (zlen m) = Ok m -> Forall is_byte m -> 0 < zlen m <= 117 ->
  exists c b, ep_cert_client_encrypt [] seed buffer (zlen m) = Ok (Some b, []) /\
    slice (ep_buffer_ptr b) 0 (ep_buffer_size b) = Ok c /\ zlen c = 128 /\ Forall is_byte c /\
    exists b', slice (ep_buffer_ptr b') 0 (ep_buffer_size b') = Ok m /\ ep_buffer_size b' = zlen m /\
      forall rest, ep_cert_server_decrypt [] (c ++ rest) 128 = Ok (Some b', []).
Proof.
  intros Hs Hb Hl. destruct rsa_inverse as (kp & ks & Ep & Es & Sp & Ss & Inv).
  destruct (Inv seed m Hb Hl) as (c & Ec & Lc & Bc & Ed).
  destruct (new_from_out c 128) as (out & b & Eo & En & Sl & Sz); [lia|lia|]. exists c, b.
  split; [|split; [done|split; [done|split; [done|]]]].
  - unfold ep_cert_client_encrypt, ep_crypt_rsa.
    replace (zlen RSA_PUB_KEY <=? 0) with false by (symmetry; vm_compute; reflexivity).
    destruct (Z.leb_spec (zlen m) 0); [lia|]. cbn [orb s_alloc negb]. rewrite Ep, Sp, ep_malloc_plenty by lia.
    cbn [negb]. rewrite Hs. cbn [mbind res_bind]. rewrite Ec, Eo. cbn [mbind res_bind]. exact En.
  - destruct (new_from_out m 128) as (out' & b' & Eo' & En' & Sl' & Sz'); [lia|lia|]. exists b'.
    split; [done|]. split; [done|]. intros rest. unfold ep_cert_server_decrypt, ep_crypt_rsa.
    replace (zlen RSA_PRI_KEY <=? 0) with false by (symmetry; vm_compute; reflexivity).
    cbn [Z.leb Z.compare orb s_alloc negb]. rewrite Es, Ss, ep_malloc_plenty by lia. cbn [negb].
    rewrite slice_ok by (rewrite ?zlen_app; pose proof (zlen_nonneg rest); lia). cbn [mbind res_bind].
    change (zdrop 0 (c ++ rest)) with (c ++ rest). rewrite ztake_app_l by done.
    rewrite Ed, Eo'. cbn [mbind res_bind]. exact En'.
Qed.

(** ** What each side does *)

Lemma update_aes_spec (w : world W) fd a io aes :
  ep_io_find w fd = Ok (Some a) -> w_ios w !! a = Some (Some io) ->
  ep_io_update_aes w fd aes = Ok (1, set_ios w (<[a := Some (io_set_aes io aes)]> (w_ios w))) /\
  ep_io_get_aes (set_ios w (<[a := Some (io_set_aes io aes)]> (w_ios w))) fd = Ok (Some aes).
Proof using Type.
  intros Hf Ha. unfold ep_io_update_aes. rewrite Hf. cbn [mbind res_bind].
  assert (h_load (w_ios w) a = Ok io) as -> by by apply h_load_ok. cbn [mbind res_bind].
  rewrite (h_store_ok _ _ _ _ Ha). split; [done|].
  unfold ep_io_get_aes, ep_io_find, set_ios. cbn [w_ios w_mgr].
  rewrite (find_store (w_ios w) a io (io_set_aes io aes) _ _ (Some a)) by done. cbn [mbind res_bind].
  unfold h_load. rewrite list_lookup_insert_eq by (by apply lookup_lt_Some in Ha). done.
Qed.

Lemma append_one p n v : build_fields p (FCons n v FNil) = build_value p n v.
Proof using Type. cbn [build_fields]. by destruct (build_value p n v). Qed.

Lemma hello_spec (w : world W) fd a io curtime seed :
  ep_io_find w fd = Ok (Some a) -> w_ios w !! a = Some (Some io) -> w_al w = [] ->
  let aes := client_aes curtime in
  let w' := set_ios w (<[a := Some (io_set_aes io aes)]> (w_ios w)) in
  exists hello c, client_hello w fd curtime seed = Ok (Some hello, set_al w' []) /\
    build_fields fresh (hello_fields c) = Ok hello /\ zlen c = 128 /\ Forall is_byte c /\
    exists b, slice (ep_buffer_ptr b) 0 (ep_buffer_size b) = Ok (doc (enc_fields (key_fields aes))) /\
      ep_buffer_size b = 57 /\ forall rest, ep_cert_server_decrypt [] (c ++ rest) 128 = Ok (Some b, []).
Proof.
  intros Hf Ha Hal aes w'. unfold client_hello. rewrite gen_client_key_spec. fold aes. cbn [mbind res_bind].
  destruct (update_aes_spec w fd a io aes Hf Ha) as [-> _]. fold w'. cbn [mbind res_bind Z.eqb Pos.eqb negb].
  replace (w_al w') with (@nil bool) by (by symmetry). rewrite pack_new_fresh. cbn [mbind res_bind].
  destruct (key_fields_fit aes (client_aes_ok curtime)) as [Fk Lk].
  destruct (build_finish (key_fields aes) Fk) as (p1 & p2 & E1 & E2 & Es & Ed). rewrite Lk in Es, Ed.
  unfold key_fields in E1. cbn [build_fields build_value] in E1. fold (key_fields aes) in *.
  destruct (ep_pack_append_binary fresh s_key (aes_key aes)) as [q1|]; [|done]. cbn [mbind res_bind] in E1 |- *.
  destruct (ep_pack_append_binary q1 s_vec (aes_vec aes)) as [q2|]; [|done]. cbn [mbind res_bind] in E1 |- *.
  injection E1 as ->. rewrite E2. cbn [mbind res_bind]. rewrite Es. cbn [mbind res_bind].
  set (m := doc (enc_fields (key_fields aes))) in *. assert (Lm : zlen m = 52 + 5) by (unfold m; rewrite zlen_doc; lia).
  destruct (rsa_there_and_back seed (ep_pack_data p2) m) as (c & b & Ee & Sl & Lc & Bc & D);
    [by rewrite Lm|by apply key_doc_bytes, client_aes_ok|lia|]. rewrite Lm in Ee.
  rewrite Ee. cbn [mbind res_bind]. rewrite pack_new_fresh. cbn [mbind res_bind]. rewrite Sl. cbn [mbind res_bind].
  destruct (hello_fields_fit c Bc Lc) as [Fh _]. destruct (build_finish (hello_fields c) Fh) as (h1 & _ & Eh & _).
  unfold hello_fields in Eh. pose proof Eh as Eh'. rewrite append_one in Eh'. cbn [build_value] in Eh'. rewrite Eh'.
  cbn [mbind res_bind]. exists h1, c. split; [done|]. split; [done|]. split; [done|]. split; [done|].
  destruct D as (b' & D1 & D2 & D3). exists b'. split; [done|]. split; [by rewrite D2|done].
Qed.

Lemma decrypt_buffer_spec q c b :
  ep_pack_data q = doc (enc_fields (hello_fields c)) -> zlen c = 128 -> Forall is_byte c ->
  (forall rest, ep_cert_server_decrypt [] (c ++ rest) 128 = Ok (Some b, [])) ->
  ep_cert_server_rsa_get_decrypt_buffer [] (Some q) = Ok (Some b, []).
Proof.
  intros Hd Lc Bc D. destruct (hello_fields_fit c Bc Lc) as [[Fo _] Fl].
  unfold ep_cert_server_rsa_get_decrypt_buffer.
  rewrite (pack_for_fields q (hello_fields c) [] decrypt_body (fun _ _ _ => Leave (Some b, []))
             (fun name v => name = s_security /\ v = VBin c) (fun al => al = []) []);
    [done|by rewrite app_nil_r|done|done| |done| |by intros].
  - rewrite Fl. by vm_compute.
  - intros it name v al At [-> ->] ->. unfold decrypt_body. rewrite (field_type _ _ _ _ At). cbn [mbind res_bind].
    rewrite (field_key _ _ _ _ At). cbn [mbind res_bind]. rewrite decide_True by done.
    destruct (field_bin _ _ _ _ At) as (off & El & Eb & Es). rewrite Eb. cbn [mbind res_bind].
    rewrite El. cbn [mbind res_bind]. rewrite Lc in *. cbn [Z.eqb Pos.eqb negb].
    assert (zdrop off (ep_pack_data q) = c ++ zdrop 128 (zdrop off (ep_pack_data q))) as ->.
    { unfold slice in Es. destruct (_ && _); [|done]. injection Es as Es. rewrite <- Es at 1. symmetry. apply ztake_zdrop. }
    rewrite D. done.
Qed.

(** What the server takes from the fields of a key document. *)
Definition take_key (name : list Z) (v : value) (aes : ep_aes_key) : turn ep_aes_key unit :=
  match v with
  | VBin l =>
      if decide (name = s_key) then Next (mk_aes l (aes_vec aes))
      else if decide (name = s_vec) then Next (mk_aes (aes_key aes) l)
      else Next aes
  | _ => Next aes
  end.

Definition lens_ok (aes : ep_aes_key) : Prop := zlen (aes_key aes) = 16 /\ zlen (aes_vec aes) = 16.

Lemma overwrite_16 (d l : list Z) : zlen d = 16 -> zlen l = 16 -> memcpy d 0 l 16 = Ok l.
Proof using Type.
  intros Hd Hl. rewrite memcpy_ok by lia. rewrite ztake_all by lia. unfold splice.
  rewrite zdrop_all by lia. change (ztake 0 d) with (@nil Z). by rewrite app_nil_r.
Qed.

Lemma key_loop_spec q aes k :
  ep_pack_data q = doc (enc_fields (key_fields aes)) ++ k -> aes_ok aes ->
  pack_foreach q key_body (mk_aes (zeros 16) (zeros 16)) = Ok (Next aes).
Proof.
  intros Hd Ok. destruct (key_fields_fit aes Ok) as [[Fo _] Fl]. destruct Ok as (B1 & L1 & B2 & L2).
  rewrite (pack_for_fields q (key_fields aes) k key_body take_key
             (fun name v => exists l, v = VBin l /\ zlen l = 16 /\ (name = s_key \/ name = s_vec)) lens_ok);
    [by destruct aes|done|done| | |done| |].
  - split; [by exists (aes_key aes); auto|]. split; [by exists (aes_vec aes); auto|done].
  - rewrite Fl. by vm_compute.
  - intros it name v s At (l & -> & Ll & Hn) [S1 S2]. unfold key_body, take_key.
    rewrite (field_type _ _ _ _ At). cbn [mbind res_bind]. rewrite (field_key _ _ _ _ At). cbn [mbind res_bind].
    destruct (field_bin _ _ _ _ At) as (off & _ & Eb & Es). rewrite Ll in Es.
    destruct (decide (name = s_key)); [|rewrite decide_True by tauto];
      rewrite Eb; cbn [mbind res_bind]; rewrite Es; cbn [mbind res_bind]; rewrite overwrite_16 by done; [done|].
    by rewrite decide_True by tauto.
  - intros name v s s' (l & -> & Ll & Hn) [S1 S2] E. unfold take_key in E. destruct (decide _); [by simplify_eq|].
    destruct (decide _); by simplify_eq.
Qed.

Lemma server_spec (w : world W) fd a io aes q c b :
  ep_io_find w fd = Ok (Some a) -> w_ios w !! a = Some (Some io) -> w_al w = [] ->
  aes_ok aes -> ep_cert_verify_client_key aes = Ok 1 ->
  ep_pack_data q = doc (enc_fields (hello_fields c)) -> zlen c = 128 -> Forall is_byte c ->
  (forall rest, ep_cert_server_decrypt [] (c ++ rest) 128 = Ok (Some b, [])) ->
  slice (ep_buffer_ptr b) 0 (ep_buffer_size b) = Ok (doc (enc_fields (key_fields aes))) -> ep_buffer_size b = 57 ->
  exists reply w', ep_cert_server_security w fd (Some q) = Ok (Some reply, w') /\
    build_fields fresh (result_fields 1) = Ok reply /\ ep_io_get_aes w' fd = Ok (Some aes) /\
    w' = set_ios w (<[a := Some (io_set_aes io aes)]> (w_ios w)).
Proof.
  intros Hf Ha Hal Ok Hv Hq Lc Bc D Sl Sz. unfold ep_cert_server_security. rewrite Hal.
  rewrite (decrypt_buffer_spec q c b) by done. cbn [mbind res_bind].
  destruct (key_fields_fit aes Ok) as [Fk Lk].
  destruct (create_doc (key_fields aes) (zdrop 57 (ep_buffer_ptr b)) (proj2 Fk)) as (q2 & Eq & Dq); [by rewrite Lk|].
  rewrite Lk in Eq. cbn [set_al w_al]. rewrite Sz in Sl |- *. apply slice_prefix in Sl as [_ Sl].
  rewrite Sl, ztake_zdrop in Eq. change (52 + 5) with 57 in Eq. rewrite Eq. cbn [mbind res_bind].
  rewrite (key_loop_spec q2 aes []) by (by rewrite ?app_nil_r). cbn [mbind res_bind set_al w_al].
  rewrite pack_new_fresh. cbn [mbind res_bind]. unfold store_key. rewrite Hv. cbn [mbind res_bind Z.eqb Pos.eqb negb].
  match goal with |- context [ep_io_update_aes ?x fd aes] => set (w1 := x) end.
  destruct (update_aes_spec w1 fd a io aes) as [-> G]; [done|done|]. cbn [mbind res_bind Z.eqb].
  destruct (result_fields_fit 1) as [Fr _]; [by vm_compute|].
  destruct (build_finish (result_fields 1) Fr) as (p1 & _ & E1 & _). pose proof E1 as E1'.
  unfold result_fields in E1'. rewrite append_one in E1'. cbn [build_value] in E1'. rewrite E1'. cbn [mbind res_bind].
  exists p1, (set_ios w1 (<[a := Some (io_set_aes io aes)]> (w_ios w1))). split_and!; try done.
  unfold w1. destruct w. cbn in *. by subst.
Qed.

Lemma answer_spec q r k :
  ep_pack_data q = doc (enc_fields (result_fields r)) ++ k -> is_i32 r -> client_answer q = Ok r.
Proof.
  intros Hd Hr. destruct (result_fields_fit r Hr) as [[Fo _] Fl]. unfold client_answer.
  rewrite (pack_for_fields q (result_fields r) k result_body (fun _ _ _ => Leave r)
             (fun name v => name = s_result /\ v = VInt r) (fun _ => True)); [done|done|done|done| |done| |done].
  - rewrite Fl. by vm_compute.
  - intros it name v s At [-> ->] _. unfold result_body. rewrite (field_type _ _ _ _ At). cbn [mbind res_bind].
    rewrite (field_key _ _ _ _ At). cbn [mbind res_bind]. rewrite decide_True by done.
    by rewrite (field_int _ _ _ _ At).
Qed.

End proofs.

(** ** Nothing else changes the keys *)

Lemma reply_keeps {W} (w w' : world W) r p : reply_result w r = Ok (p, w') -> w_ios w' = w_ios w.
Proof.
  unfold reply_result. destruct (ep_pack_new _) as [[[q|] al]|]; cbn [mbind res_bind]; [|by intros [= <- <-]|done].
  destruct (ep_pack_append_int _ _ _); [|done]. by intros [= <- <-].
Qed.

Lemma store_key_keeps `{Cr : Crypto} {W} (w w' : world W) fd aes p r :
  store_key w fd aes p = Ok (r, w') ->
  w_ios w' = w_ios w \/
  exists aes a io, ep_cert_verify_client_key aes = Ok 1 /\ ep_io_find w fd = Ok (Some a) /\
    w_ios w !! a = Some (Some io) /\ w_ios w' = <[a := Some (io_set_aes io aes)]> (w_ios w).
Proof.
  unfold store_key. destruct (ep_cert_verify_client_key aes) as [ok|] eqn:Ev; [|done]. cbn [mbind res_bind].
  destruct (Z.eqb_spec ok 1) as [->|]; cbn [negb].
  2: { destruct (ep_pack_append_int _ _ _); [|done]. intros [= <- <-]. by left. }
  destruct (ep_io_update_aes w fd aes) as [[ret w1]|] eqn:Eu; [|done]. cbn [mbind res_bind]. intros H.
  assert (w1 = w') as ->.
  { destruct (ret =? 0); destruct (ep_pack_append_int _ _ _); try done; by injection H as _ <-. }
  unfold ep_io_update_aes in Eu. destruct (ep_io_find w fd) as [[a|]|] eqn:Ef; [| |done]; cbn [mbind res_bind] in Eu.
  - destruct (h_load (w_ios w) a) as [io|] eqn:El; [|done]. apply h_load_ok in El. cbn [mbind res_bind] in Eu.
    rewrite (h_store_ok _ _ _ _ El) in Eu. injection Eu as <- <-. right. by exists aes, a, io.
  - injection Eu as _ <-. by left.
Qed.

(** The copy of a short last element runs off the memory. *)
Lemma short_key_fault m it l aes :
  sfx m (it_cur it) (type_code (VBin l) :: s_key ++ 0 :: enc_value (VBin l) ++ enc_fields FNil ++ [0]) ->
  zlen l < 15 -> key_body m it aes = Fault OutOfBounds.
Proof.
  intros Hs Hl. assert (Hn : nul_free s_key) by (unfold s_key; repeat constructor; lia).
  unfold key_body, ep_pack_iterator_type. rewrite (el_type m it _ s_key _ Hs). cbn [mbind res_bind].
  unfold ep_pack_iterator_key. rewrite (el_key m it _ s_key _ Hs Hn). cbn [mbind res_bind].
  rewrite decide_True by done. destruct (el_value m it _ s_key _ Hs Hn) as [E Hv].
  cbn [enc_value enc_fields app] in Hv. rewrite <- !app_assoc in Hv. apply sfx_app in Hv. rewrite zlen_le_bytes in Hv.
  cbn [app] in Hv. unfold ep_pack_iterator_bin_data, bson_iterator_bin_data, bson_iterator_bin_type. rewrite E.
  cbn [mbind res_bind]. change (Z.of_nat 4) with 4 in Hv. rewrite (sfx_byte _ _ _ _ Hv). cbn [mbind res_bind].
  change (schar 0 =? 2) with false. cbv iota. cbn [mbind res_bind]. apply sfx_cons, sfx_app, sfx_cons in Hv as [Hr Hz].
  apply (f_equal zlen) in Hz. rewrite zlen_zdrop in Hz by lia. change (zlen (@nil Z)) with 0 in Hz.
  unfold slice. match goal with |- context [?o + 16 <=? ?n] => destruct (Z.leb_spec (o + 16) n) end; [lia|].
  by rewrite andb_false_r.
Qed.

(** The exchange of keys works: the packet a client sends is accepted by the server, whatever the
    time and the random padding; the client reads the result 1; and afterwards both sides hold
    the same key and vector for the connection, which pass the server's check. *)
Theorem cert_handshake `{CL : CryptoLaws} {W1 W2} (wc : world W1) (ws : world W2) fdc fds ac as_ ioc ios curtime seed :
  ep_io_find wc fdc = Ok (Some ac) -> w_ios wc !! ac = Some (Some ioc) -> w_al wc = [] ->
  ep_io_find ws fds = Ok (Some as_) -> w_ios ws !! as_ = Some (Some ios) -> w_al ws = [] ->
  exists hello wc' q reply ws' r aes,
    client_hello wc fdc curtime seed = Ok (Some hello, wc') /\ transfer hello = Ok (Some q) /\
    ep_cert_server_security ws fds (Some q) = Ok (Some reply, ws') /\ transfer reply = Ok (Some r) /\
    client_answer r = Ok 1 /\
    ep_io_get_aes wc' fdc = Ok (Some aes) /\ ep_io_get_aes ws' fds = Ok (Some aes) /\
    ep_cert_verify_client_key aes = Ok 1.
Proof.
  intros Fc Hc Ac Fs Hs As.
  destruct (hello_spec wc fdc ac ioc curtime seed Fc Hc Ac) as (hello & c & Eh & Bh & Lc & Bc & b & Sb & Zb & D).
  destruct (hello_fields_fit c Bc Lc) as [Fh Lh].
  destruct (build_transfer (hello_fields c) Fh) as (h & q & Bh' & Tq & Dq); [by rewrite Lh|].
  rewrite Bh in Bh'. injection Bh' as <-.
  destruct (server_spec ws fds as_ ios (client_aes curtime) q c b) as (reply & ws' & Es & Br & Gs & _);
    [done|done|done|by apply client_aes_ok|apply client_aes_verifies|done|done|done|done|done|done|].
  destruct (result_fields_fit 1) as [Fr Lr]; [by vm_compute|].
  destruct (build_transfer (result_fields 1) Fr) as (r' & r & Br' & Tr & Dr); [by rewrite Lr|].
  rewrite Br in Br'. injection Br' as <-.
  do 7 eexists. split; [exact Eh|]. split; [exact Tq|]. split; [exact Es|]. split; [exact Tr|].
  split; [apply (answer_spec r 1 []); [by rewrite app_nil_r|by vm_compute]|].
  split; [|split; [exact Gs|apply client_aes_verifies]].
  exact (proj2 (update_aes_spec wc fdc ac ioc (client_aes curtime) Fc Hc)).
Qed.

(** Crypto that is no crypto: the digest repeats a sum, RSA prepends the length and fills up. *)
#[local] Instance toy_crypto : Crypto := {
  md5 x := replicate 16 (foldr Z.add 0 x mod 256);
  rsa := unit;
  pem_public _ := Some tt;
  pem_private _ := Some tt;
  rsa_size _ := 128;
  rsa_public_encrypt _ _ m := Some (zlen m :: m ++ replicate (127 - length m) 0);
  rsa_private_decrypt _ c := match c with n :: r => Some (ztake n r) | [] => None end;
}.

#[local] Instance toy_crypto_laws : CryptoLaws toy_crypto.
Proof.
  split.
  - intros x. cbn [md5 toy_crypto]. split; [|by rewrite zlen_replicate].
    apply Forall_replicate. apply Z.mod_pos_bound. lia.
  - exists tt, tt. do 4 (split; [done|]). intros seed m Hb Hl. eexists. split; [done|]. unfold zlen in Hl.
    split; [rewrite zlen_cons, zlen_app, zlen_replicate; unfold zlen; lia|]. split.
    + constructor; [unfold is_byte, zlen; lia|]. apply Forall_app. split; [done|].
      apply Forall_replicate. unfold is_byte. lia.
    + cbn [rsa_private_decrypt toy_crypto]. by rewrite ztake_app_l.
Qed.

(** The text of a moment in 2014. *)
Definition demo_time : list Z :=
  [84; 104; 117; 32; 65; 112; 114; 32; 49; 48; 32; 49; 50; 58; 48; 48; 58; 48; 48; 32; 50; 48; 49; 52; 10].

Lemma cert_handshake_witness :
  exists hello wc' q reply ws' r aes,
    client_hello (demo_world ep_io_refor_client (demo_buf [1])) 5 demo_time [] = Ok (Some hello, wc') /\
    transfer hello = Ok (Some q) /\
    ep_cert_server_security (demo_world ep_io_refor_server (demo_buf [1])) 5 (Some q) = Ok (Some reply, ws') /\
    transfer reply = Ok (Some r) /\ client_answer r = Ok 1 /\
    ep_io_get_aes wc' 5 = Ok (Some aes) /\ ep_io_get_aes ws' 5 = Ok (Some aes) /\
    ep_cert_verify_client_key aes = Ok 1.
Proof.
  refine (cert_handshake (demo_world ep_io_refor_client (demo_buf [1]))
            (demo_world ep_io_refor_server (demo_buf [1])) 5 5 0 0 (demo_io 5 []) (demo_io 5 []) demo_time [] _ _ _ _ _ _);
    reflexivity.
Defined.

(** C22: A connection gets a key only through the check: whatever a client sends, the server's handler
    either leaves the keys of all connections alone, or stores, with the connection the request
    came from and no other, a key and a vector that passed the check. *)
Theorem cert_only_verified `{Cr : Crypto} {W} (w w' : world W) fd pack r :
  ep_cert_server_security w fd pack = Ok (r, w') ->
  w_ios w' = w_ios w \/
  exists aes a io, ep_cert_verify_client_key aes = Ok 1 /\ ep_io_find w fd = Ok (Some a) /\
    w_ios w !! a = Some (Some io) /\ w_ios w' = <[a := Some (io_set_aes io aes)]> (w_ios w).
Proof.
  unfold ep_cert_server_security. intros H.
  destruct (ep_cert_server_rsa_get_decrypt_buffer _ _) as [[b al]|]; [|done]. cbn [mbind res_bind] in H.
  destruct b as [b|]; [|left; by eapply reply_keeps in H].
  destruct (ep_pack_create _ _ _) as [[p al2]|]; [|done]. cbn [mbind res_bind] in H.
  destruct p as [p|]; [|left; by eapply reply_keeps in H].
  destruct (pack_foreach _ _ _) as [t|]; [|done]. cbn [mbind res_bind] in H.
  destruct (ep_pack_new _) as [[q al3]|]; [|done]. cbn [mbind res_bind] in H.
  destruct q as [q|]; [|by injection H as _ <-; left].
  by eapply store_key_keeps in H.
Qed.

(** The packet of a client with the toy routines, as the server receives it. *)
Definition demo_hello : ep_pack :=
  match client_hello (demo_world ep_io_refor_client (demo_buf [1])) 5 demo_time [] with
  | Ok (Some h, _) => match transfer h with Ok (Some q) => q | _ => fresh end
  | _ => fresh
  end.

Lemma cert_only_verified_witness :
  exists r w', ep_cert_server_security (demo_world ep_io_refor_server (demo_buf [1])) 5 (Some demo_hello) = Ok (r, w') /\
    (w_ios w' = w_ios (demo_world ep_io_refor_server (demo_buf [1])) \/
     exists aes a io, ep_cert_verify_client_key aes = Ok 1 /\
       ep_io_find (demo_world ep_io_refor_server (demo_buf [1])) 5 = Ok (Some a) /\
       w_ios (demo_world ep_io_refor_server (demo_buf [1])) !! a = Some (Some io) /\
       w_ios w' = <[a := Some (io_set_aes io aes)]> (w_ios (demo_world ep_io_refor_server (demo_buf [1])))).
Proof.
  assert (E : exists rw, ep_cert_server_security (demo_world ep_io_refor_server (demo_buf [1])) 5 (Some demo_hello) = Ok rw)
    by (eexists; vm_compute; reflexivity).
  destruct E as [[r w'] E]. exists r, w'. split; [exact E|].
  exact (cert_only_verified (demo_world ep_io_refor_server (demo_buf [1])) w' 5 (Some demo_hello) r E).
Defined.

(** A key shorter than 15 bytes makes the server read beyond the request: the handler copies
    sixteen bytes from the element without looking at its length, and nothing follows the last
    element but one byte. The public key is all a client needs to send such a request. *)
Theorem cert_short_key_overread `{CL : CryptoLaws} {W} (w : world W) fd l seed c b q :
  w_al w = [] -> Forall is_byte l -> zlen l < 15 ->
  let m := doc (enc_fields (FCons s_key (VBin l) FNil)) in
  ep_cert_client_encrypt [] seed m (zlen m) = Ok (Some b, []) ->
  slice (ep_buffer_ptr b) 0 (ep_buffer_size b) = Ok c ->
  ep_pack_data q = doc (enc_fields (hello_fields c)) ->
  ep_cert_server_security w fd (Some q) = Fault OutOfBounds.
Proof.
  intros Hal Bl Ll m Ee Sc Dq. pose proof (zlen_nonneg l).
  set (f := FCons s_key (VBin l) FNil) in *.
  assert (Lf : zlen (enc_fields f) = zlen l + 10).
  { cbn [f enc_fields enc_value type_code]. rewrite !zlen_app, !zlen_le_bytes. unfold s_key, zlen. cbn [length app]. lia. }
  assert (Lm : zlen m = zlen l + 15) by (unfold m; rewrite zlen_doc; lia).
  assert (Bm : Forall is_byte m).
  { apply doc_bytes. cbn [f enc_fields enc_value type_code]. rewrite !Forall_app. unfold is_byte.
    repeat first [ apply le_bytes_is_byte | done | split | constructor | lia ]. }
  destruct (rsa_there_and_back seed m m) as (c' & b' & E' & S' & Lc & Bc & b2 & S2 & Z2 & D);
    [rewrite slice_ok by lia; change (zdrop 0 m) with m; by rewrite ztake_all by lia|done|lia|].
  rewrite Ee in E'. injection E' as <-. rewrite Sc in S'. injection S' as <-.
  unfold ep_cert_server_security. rewrite Hal, (decrypt_buffer_spec q c b2) by done. cbn [mbind res_bind set_al w_al].
  destruct (create_doc f (zdrop (zlen m) (ep_buffer_ptr b2))) as (q2 & Eq & Dq2);
    [rewrite Lf; unfold LIM; lia|rewrite Lf, Z.mod_small by lia; lia|].
  rewrite Z2 in S2 |- *. apply slice_prefix in S2 as [_ S2]. fold m in Eq. rewrite S2 in Eq at 1.
  rewrite ztake_zdrop, Lf in Eq. replace (zlen m) with (zlen l + 10 + 5) by lia. rewrite Eq. cbn [mbind res_bind].
  rewrite (pack_first_fault q2 s_key (VBin l) FNil [] key_body _ OutOfBounds); [done|by rewrite app_nil_r| |].
  - unfold s_key. repeat constructor; lia.
  - rewrite Dq2. intros it Hs. eapply short_key_fault; [exact Hs|exact Ll].
Qed.

Definition short_doc : list Z := doc (enc_fields (FCons s_key (VBin [1]) FNil)).
Definition short_cipher : list Z := zlen short_doc :: short_doc ++ replicate (127 - length short_doc) 0.
Definition short_hello : ep_pack := mk_pack (mk_bson (doc (enc_fields (hello_fields short_cipher))) 0 true 0 [] 0).

Lemma cert_short_key_overread_witness :
  ep_cert_server_security (demo_world ep_io_refor_server (demo_buf [1])) 5 (Some short_hello) = Fault OutOfBounds.
Proof.
  refine (cert_short_key_overread (demo_world ep_io_refor_server (demo_buf [1])) 5 [1] [] short_cipher
            (mk_buffer short_cipher 128 128) short_hello _ _ _ _ _ _).
  - reflexivity.
  - repeat constructor; lia.
  - reflexivity.
  - vm_compute. reflexivity.
  - vm_compute. reflexivity.
  - reflexivity.
Defined.

End Cert.
