(* ===== verification/Service.v ===== *)
(** * Service: the listening side (eventpack/src/ep_service.c and ep_socket.c)

    The service owns the connection manager of the server ([Io]) and tells the program what happens
    to connections; the event loop calls it when a connection is accepted, readable or closed. What
    the system calls and the loop's library answer is an argument of the handlers. *)
From stdpp Require Import gmap.
From S2P Require Import Prelude Alloc RingBuffer Queue Words Buffer Dispatch ThreadPool Bson Packet Io IoSpec Request Cert.
Import Alloc RingBuffer Queue Words Buffer Dispatch ThreadPool Bson Packet Io IoSpec Request Cert.

Module Service.

Inductive ep_event_type := event_fd_accept | event_fd_close | event_io_overflow | event_io_exception.

Definition EP_CATEGORY_INTERNAL_KEY : Z := 65535.

Section service.
Context {W : Type}.

Definition ep_event_cb : Type := W -> ep_event_type -> Z -> W.

(** [s_io_mgr] says that the manager is there; without it only the callbacks' state and the
    allocator of the world are used. [s_disp_mgr] is the registry in the manager. *)
Record service := mk_service {
  s_io_mgr : bool;
  s_disp_mgr : bool;
  s_world : world W;
  s_started : bool;
  s_event_cb : option ep_event_cb;
}.

Definition set_world (s : service) w : service := mk_service (s_io_mgr s) (s_disp_mgr s) w (s_started s) (s_event_cb s).
Definition set_managers (s : service) (io disp : bool) w : service := mk_service io disp w (s_started s) (s_event_cb s).
Definition set_started (s : service) b : service := mk_service (s_io_mgr s) (s_disp_mgr s) (s_world s) b (s_event_cb s).

(** [s_event_cb(s_event_opaque, type, fd)], when a callback is set. *)
Definition notify (s : service) (type : ep_event_type) (fd : Z) : service :=
  match s_event_cb s with
  | None => s
  | Some cb => set_world s (set_cb (s_world s) (cb (w_cb (s_world s)) type fd))
  end.

(** ** Connections *)

Definition ep_service_on_accept (s : service) (fd extra : Z) : res service :=
  if negb (s_io_mgr s) then Ok s else
  '(ret, w) ← ep_io_add (s_world s) fd extra;
  let s := set_world s w in
  if ret =? 0 then Ok s else Ok (notify s event_fd_accept fd).

Definition read_event (ret : Z) : ep_event_type :=
  if ret =? -1 then event_io_exception else if ret =? -2 then event_io_overflow else event_fd_close.

Definition ep_service_on_read (fuel : nat) (s : service) (fd : Z) (buffer : list Z) (size : Z) : res (Z * service) :=
  if negb (s_io_mgr s) then Ok (0, s) else
  '(ret, w) ← ep_io_enqueue fuel (s_world s) fd buffer size;
  if 0 <=? ret then Ok (1, set_world s w) else
  '(_, w) ← ep_io_del w fd;
  Ok (0, notify (set_world s w) (read_event ret) fd).

Definition ep_service_on_close (s : service) (fd : Z) : res service :=
  '(stop, s) ←
    (if s_io_mgr s then '(ret, w) ← ep_io_del (s_world s) fd; Ok (ret =? 0, set_world s w) else Ok (false, s));
  if stop : bool then Ok s else Ok (notify s event_fd_close fd).

Definition ep_service_send_error_cb (s : service) (fd : Z) : res service := ep_service_on_close s fd.

(** ** The event loop *)

(** Whether the loop runs, the listening descriptor, the keepalive, the descriptors it watches for
    reading, and those closed, in order. *)
Record core := mk_core {
  cr_loop : bool;
  cr_fd : Z;
  cr_keepalive : Z;
  cr_events : gset Z;
  cr_closed : list Z;
  cr_service : service;
}.

Definition set_service (c : core) s : core := mk_core (cr_loop c) (cr_fd c) (cr_keepalive c) (cr_events c) (cr_closed c) s.
Definition unwatch (c : core) (fd : Z) : core :=
  mk_core (cr_loop c) (cr_fd c) (cr_keepalive c) (cr_events c ∖ {[fd]}) (cr_closed c ++ [fd]) (cr_service c).
Definition watch (c : core) (fd : Z) : core :=
  mk_core (cr_loop c) (cr_fd c) (cr_keepalive c) ({[fd]} ∪ cr_events c) (cr_closed c) (cr_service c).

Definition aeClientClose (c : core) (fd : Z) : res core :=
  let c := unwatch c fd in
  s ← ep_service_on_close (cr_service c) fd; Ok (set_service c s).

(** [r] is what [read] answered, [buffer] the bytes it stored. *)
Definition aeReadFromClient (fuel : nat) (c : core) (fd r : Z) (buffer : list Z) : res core :=
  if r <=? 0 then aeClientClose c fd else
  '(ret, s) ← ep_service_on_read fuel (cr_service c) fd buffer r;
  let c := set_service c s in
  if negb (ret =? 1) then aeClientClose c fd else Ok c.

(** [c_fd] is what [anetTcpAccept] answered, [created] that the loop accepted to watch it. *)
Definition aeAcceptTcpHandler (c : core) (c_fd extra : Z) (created : bool) : res core :=
  if negb created then Ok (mk_core (cr_loop c) (cr_fd c) (cr_keepalive c) (cr_events c) (cr_closed c ++ [c_fd]) (cr_service c)) else
  let c := watch c c_fd in
  s ← ep_service_on_accept (cr_service c) c_fd extra; Ok (set_service c s).

(** [listen] is what [anetTcpServer] answered, -1 for an error. *)
Definition service_core_start (c : core) (listen keepalive : Z) (created : bool) : Z * core :=
  let c := mk_core (cr_loop c) listen (cr_keepalive c) (cr_events c) (cr_closed c) (cr_service c) in
  if listen =? -1 then (0, c) else
  let c := (if 0 <? keepalive then mk_core (cr_loop c) (cr_fd c) keepalive (cr_events c) (cr_closed c) (cr_service c) else c) in
  let c := mk_core true (cr_fd c) (cr_keepalive c) (cr_events c) (cr_closed c) (cr_service c) in
  if negb created then (0, c) else (1, watch c listen).

(** [r] is what [write] answered. *)
Definition service_core_send (c : core) (fd size r : Z) : res (Z * core) :=
  if r =? -1 then c ← aeClientClose c fd; Ok (0, c) else Ok (size, c).

Definition service_core_stop (c : core) : core := if cr_loop c then unwatch c (cr_fd c) else c.

(** ** The life of the service *)

Record ep_service_conf := mk_service_conf {
  sc_listenport : Z;
  sc_keepalive : Z;
  sc_nprocessors : Z;
  sc_io_def_capacity : Z;
  sc_io_max_capacity : Z;
  sc_mini_compress_if : Z;
}.

(** [key] is the callback of the key exchange in the registry. *)
Definition ep_service_init (key : pfn_ep_cb ep_pack W) (s : service) (nprocessors def_capacity max_capacity mini_compress_if : Z)
  : Z * service :=
  let w := s_world s in
  let '(disp, al) := ep_disp_init (w_al w) in
  match disp with
  | None => (0, set_managers s (s_io_mgr s) false (set_al w al))
  | Some disp =>
      let nprocessors := (if nprocessors <=? 0 then 1 else nprocessors) in
      let '(mgr, _, al) := ep_io_init al ep_io_refor_server disp nprocessors def_capacity max_capacity mini_compress_if in
      match mgr with
      | None => (0, set_managers s false false (set_al w al))
      | Some mgr =>
          let '(_, disp, al) := ep_disp_add_cb al disp EP_CATEGORY_INTERNAL_KEY key in
          let mgr := mk_mgr (mg_refor mgr) disp (mg_send_queue mgr) (mg_send_abort mgr) (mg_pool mgr) (mg_def_capacity mgr)
                       (mg_max_capacity mgr) (mg_mini_compress_if mgr) (mg_io_list mgr) in
          (1, set_managers s true true (mk_world mgr [] [] [] (w_cb w) al))
      end
  end.

Definition ep_service_start (key : pfn_ep_cb ep_pack W) (fuel : nat) (c : core) (conf : ep_service_conf) (listen : Z) (created : bool)
  : res (Z * core) :=
  if s_started (cr_service c) then Ok (1, c) else
  let '(ret, s) := ep_service_init key (cr_service c) (sc_nprocessors conf) (sc_io_def_capacity conf) (sc_io_max_capacity conf)
                     (sc_mini_compress_if conf) in
  let c := set_service c s in
  if negb (ret =? 1) then Ok (0, c) else
  let '(ret, c) := service_core_start c listen (sc_keepalive conf) created in
  if negb (ret =? 1) then
    w ← ep_io_destroy fuel (s_world (cr_service c));
    Ok (0, set_service c (set_managers (cr_service c) false false w))
  else Ok (1, set_service c (set_started (cr_service c) true)).

Definition ep_service_event (s : service) (cb : option ep_event_cb) : service :=
  mk_service (s_io_mgr s) (s_disp_mgr s) (s_world s) (s_started s) cb.

Definition ep_service_register (s : service) (category : Z) (cb : pfn_ep_cb ep_pack W) : res (Z * service) :=
  if negb (s_disp_mgr s) then Fault NullDeref else
  let w := s_world s in
  let '(ret, m, al) := ep_disp_add_cb (w_al w) (mg_disp (w_mgr w)) category cb in
  let g := w_mgr w in
  Ok (ret, set_world s (set_mgr (set_al w al)
    (mk_mgr (mg_refor g) m (mg_send_queue g) (mg_send_abort g) (mg_pool g) (mg_def_capacity g)
       (mg_max_capacity g) (mg_mini_compress_if g) (mg_io_list g)))).

(** The category and the modes are the caller's, the type is always a post. *)
Definition push_shell (p : ep_req_param) : ep_shell :=
  mk_shell EP_MAGIC_NUMBER
    (mk_proto (pr_category p) req_type_post (pr_c_crypt p) (pr_c_compress p) (pr_s_crypt p) (pr_s_compress p) 0) 0 0 0.

Definition ep_service_push `{C : Codec} (beyond : list Z) (s : service) (fd notify_type : Z) (p : ep_req_param) : res (Z * service) :=
  if negb (s_io_mgr s) then Fault NullDeref else
  '(buffer, w) ← frame_pack beyond (s_world s) fd (push_shell p) (pr_pack p);
  match buffer with
  | None => Ok (0, set_world s w)
  | Some b => '(ret, w) ← ep_io_nodify_fd w fd notify_type b; Ok (ret, set_world s w)
  end.

Definition ep_service_stop (fuel : nat) (c : core) : res core :=
  if negb (s_started (cr_service c)) then Ok c else
  let c := service_core_stop c in
  w ← ep_io_destroy fuel (s_world (cr_service c));
  Ok (set_service c (set_started (set_managers (cr_service c) false false w) false)).

End service.
Arguments service : clear implicits.
Arguments core : clear implicits.
Arguments ep_event_cb : clear implicits.

(** The callback of the key exchange has the manager as its opaque pointer. *)
Definition service_internal `{Cr : Crypto} {W : Type} (category : Z) : option (world W -> Z -> option ep_pack -> res (option ep_pack * world W)) :=
  if category =? EP_CATEGORY_INTERNAL_KEY then Some ep_cert_server_security else None.

(** ** The specification: a parser per connection *)

(** A connection is the header it has read ahead and the bytes not yet consumed. *)
Record line := mk_line { ln_cached : option ep_shell; ln_bytes : list Z }.

(** The connections by descriptor, the requests handed to the pool, and the events told. *)
Record net := mk_net {
  nt_lines : gmap Z line;
  nt_tasks : list (Z * ep_shell * list Z);
  nt_events : list (ep_event_type * Z);
}.

Inductive net_op : Type :=
  | NAccept (fd extra : Z)
  | NRead (fd : Z) (bytes : list Z)
  | NClose (fd : Z).

Definition net_told (n : net) (type : ep_event_type) (fd : Z) (lines : gmap Z line) (tasks : list (Z * ep_shell * list Z)) : net :=
  mk_net lines (nt_tasks n ++ tasks) (nt_events n ++ [(type, fd)]).

(** [None] is a header with a negative size, on which the code does not come back. *)
Definition net_read (max : Z) (n : net) (fd : Z) (bytes : list Z) : option (Z * net) :=
  match nt_lines n !! fd with
  | None => Some (0, net_told n event_fd_close fd (nt_lines n) [])
  | Some ln =>
      let all := ln_bytes ln ++ bytes in
      let '(fs, st, rest) := parse (S (parse_fuel (ln_cached ln) all)) max (ln_cached ln) all in
      match st with
      | PHeader | PBody _ =>
          Some (1, mk_net (<[fd := mk_line (cached_of st) rest]> (nt_lines n)) (nt_tasks n ++ tagged fd fs) (nt_events n))
      | PBadMagic => Some (0, net_told n event_io_exception fd (delete fd (nt_lines n)) (tagged fd fs))
      | PTooBig => Some (0, net_told n event_io_overflow fd (delete fd (nt_lines n)) (tagged fd fs))
      | PNegative | PFuel => None
      end
  end.

Definition net_step (max : Z) (n : net) (o : net_op) : option (Z * net) :=
  match o with
  | NAccept fd _ =>
      match nt_lines n !! fd with
      | Some _ => Some (0, n)
      | None => Some (0, net_told n event_fd_accept fd (<[fd := mk_line None []]> (nt_lines n)) [])
      end
  | NRead fd bytes => net_read max n fd bytes
  | NClose fd =>
      match nt_lines n !! fd with
      | None => Some (0, n)
      | Some _ => Some (0, net_told n event_fd_close fd (delete fd (nt_lines n)) [])
      end
  end.

Fixpoint net_run (max : Z) (n : net) (os : list net_op) : option (list Z * net) :=
  match os with
  | [] => Some ([], n)
  | o :: os =>
      match net_step max n o with
      | None => None
      | Some (r, n) => match net_run max n os with None => None | Some (rs, n) => Some (r :: rs, n) end
      end
  end.

(** The same calls on the service; 0 stands for a call without a result. *)
Definition service_step {W} (fuel : nat) (s : service W) (o : net_op) : res (Z * service W) :=
  match o with
  | NAccept fd extra => s ← ep_service_on_accept s fd extra; Ok (0, s)
  | NRead fd bytes => ep_service_on_read fuel s fd bytes (zlen bytes)
  | NClose fd => s ← ep_service_on_close s fd; Ok (0, s)
  end.

Fixpoint service_run {W} (fuel : nat) (s : service W) (os : list net_op) : res (list Z * service W) :=
  match os with
  | [] => Ok ([], s)
  | o :: os => '(r, s) ← service_step fuel s o; '(rs, s) ← service_run fuel s os; Ok (r :: rs, s)
  end.

Definition op_bytes (o : net_op) : list Z := match o with NRead _ bytes => bytes | _ => [] end.
Definition total (os : list net_op) : Z := zlen (concat (map op_bytes os)).

(** ** The relation *)

Section relation.
Context {W : Type}.

Definition line_of (io : ep_io) : line := mk_line (io_cached io) (rb_contents (io_recv io)).

(** A connection with nothing to send, whose ring has not grown over [cap]. *)
Record conn_ok (max cap : Z) (io : ep_io) : Prop := {
  co_inv : rb_inv (io_recv io);
  co_limit : rb_limit (io_recv io) = max;
  co_cap : rb_capacity (io_recv io) <= cap;
  co_send : q_items (io_send io) = [];
}.

Definition fds (l : list (nat * ep_io)) : list Z := (fun x => io_fd x.2) <$> l.

(** The connections of the manager, in its order. *)
Record conns_ok (w : world W) (max cap : Z) (l : list (nat * ep_io)) : Prop := {
  cs_list : mg_io_list (w_mgr w) = l.*1;
  cs_live : Forall (fun x => w_ios w !! x.1 = Some (Some x.2) /\ conn_ok max cap x.2) l;
  cs_addr : NoDup l.*1;
  cs_fds : NoDup (fds l);
}.

Definition lines_of (l : list (nat * ep_io)) : gmap Z line := list_to_map ((fun x => (io_fd x.2, line_of x.2)) <$> l).

Record served (s : service W) (cb : ep_event_cb W) (w0 : W) (max cap : Z) (n : net) : Prop := {
  sd_live : s_io_mgr s = true;
  sd_cb : s_event_cb s = Some cb;
  sd_state : w_cb (s_world s) = fold_left (fun w e => cb w e.1 e.2) (nt_events n) w0;
  sd_pool : pool_ok (s_world s);
  sd_tasks : queued (s_world s) = nt_tasks n;
  sd_conf : 0 < mg_def_capacity (w_mgr (s_world s)) <= cap /\ 0 < max <= BODY_MAX /\ mg_max_capacity (w_mgr (s_world s)) = max;
  sd_conns : exists l, conns_ok (s_world s) max cap l /\ nt_lines n = lines_of l;
}.

(** ** Lemmas: the connections as a map *)

Lemma lines_none l fd : lines_of l !! fd = None <-> fd ∉ fds l.
Proof. unfold lines_of. rewrite <- not_elem_of_list_to_map. by rewrite <- list_fmap_compose. Qed.

Lemma lines_split w max cap l fd ln :
  conns_ok w max cap l -> lines_of l !! fd = Some ln ->
  exists l1 a io l2, l = l1 ++ (a, io) :: l2 /\ io_fd io = fd /\ ln = line_of io /\
    Forall (fun x => io_fd x.2 <> fd) l1 /\ Forall (fun x => io_fd x.2 <> fd) l2.
Proof.
  intros [_ _ _ N] H. unfold lines_of in H. apply elem_of_list_to_map_2 in H. apply list_elem_of_fmap in H as ([a io] & E & H).
  injection E as E1 E2. apply list_elem_of_split in H as (l1 & l2 & ->). exists l1, a, io, l2. split; [done|]. split; [done|]. split; [done|].
  unfold fds in N. rewrite fmap_app in N. cbn in N. apply NoDup_app in N as (_ & N2 & N3). apply NoDup_cons in N3 as [N3 _].
  split; apply Forall_forall; intros x Hx Ex.
  - apply (N2 fd); [rewrite <- Ex; by apply (list_elem_of_fmap_2 (fun x => io_fd x.2))|]. rewrite E1. left.
  - apply N3. cbn in E1. rewrite <- E1, <- Ex. by apply (list_elem_of_fmap_2 (fun x => io_fd x.2)).
Qed.

Lemma lines_delete l1 a io l2 :
  Forall (fun x => io_fd x.2 <> io_fd io) l1 -> Forall (fun x => io_fd x.2 <> io_fd io) l2 ->
  lines_of (l1 ++ l2) = delete (io_fd io) (lines_of (l1 ++ (a, io) :: l2)).
Proof.
  intros H1 H2.
  apply map_eq. intros fd. destruct (decide (fd = io_fd io)) as [->|Hn].
  - rewrite lookup_delete_eq. apply lines_none. unfold fds. rewrite fmap_app, elem_of_app. rewrite Forall_forall in H1, H2.
    intros [H|H]; apply list_elem_of_fmap in H as (x & E & Hx); [by apply (H1 x)|by apply (H2 x)].
  - rewrite lookup_delete_ne by done. unfold lines_of. rewrite !fmap_app, fmap_cons. rewrite !list_to_map_app. cbn [list_to_map foldr uncurry fst snd].
    rewrite !lookup_union. by rewrite lookup_insert_ne.
Qed.

Lemma lines_update l1 a io io' l2 :
  io_fd io' = io_fd io -> Forall (fun x => io_fd x.2 <> io_fd io) l1 ->
  lines_of (l1 ++ (a, io') :: l2) = <[io_fd io := line_of io']> (lines_of (l1 ++ (a, io) :: l2)).
Proof.
  intros E H1. unfold lines_of. rewrite !fmap_app, !fmap_cons. cbn [fst snd]. rewrite !list_to_map_app, E. cbn [list_to_map foldr uncurry fst snd].
  apply map_eq. intros fd. destruct (decide (fd = io_fd io)) as [->|Hn].
  - rewrite lookup_insert_eq, lookup_union_r; [by rewrite lookup_insert_eq|]. apply lines_none. rewrite Forall_forall in H1.
    intros H. apply list_elem_of_fmap in H as (x & Ex & Hx). by apply (H1 x).
  - by rewrite lookup_insert_ne, !lookup_union, !lookup_insert_ne.
Qed.

(** ** Lemmas: the manager's list *)

Definition loads (w : world W) (x : nat * ep_io) : Prop := w_ios w !! x.1 = Some (Some x.2).

Lemma find_none w l fd : Forall (loads w) l -> fd ∉ fds l -> io_find (w_ios w) l.*1 fd = Ok None.
Proof.
  induction l as [|[a io] l IH]; intros F H; [done|]. apply Forall_cons in F as [Fa F]. cbn in *. unfold h_load. rewrite Fa. cbn [mbind res_bind].
  apply not_elem_of_cons in H as [Hn H]. rewrite (proj2 (Z.eqb_neq _ _)) by done. by apply IH.
Qed.

Lemma find_split w l1 a io l2 :
  Forall (loads w) (l1 ++ (a, io) :: l2) -> Forall (fun x => io_fd x.2 <> io_fd io) l1 ->
  io_find (w_ios w) (l1 ++ (a, io) :: l2).*1 (io_fd io) = Ok (Some a).
Proof.
  induction l1 as [|[b io'] l1 IH]; cbn; intros F H; apply Forall_cons in F as [Fa F]; unfold h_load; cbn in Fa; rewrite Fa; cbn [mbind res_bind].
  - by rewrite Z.eqb_refl.
  - apply Forall_cons in H as [Hn H]. rewrite (proj2 (Z.eqb_neq _ _)) by done. by apply IH.
Qed.

Lemma walk_none w l fd : Forall (loads w) l -> fd ∉ fds l -> del_walk (w_ios w) fd l.*1 = Ok (None, l.*1).
Proof.
  induction l as [|[a io] l IH]; intros F H; [done|]. apply Forall_cons in F as [Fa F]. cbn in *. unfold h_load. rewrite Fa. cbn [mbind res_bind].
  apply not_elem_of_cons in H as [Hn H]. rewrite (proj2 (Z.eqb_neq _ _)) by done. unfold fds in *. by rewrite IH.
Qed.

Lemma walk_split w l1 a io l2 :
  Forall (loads w) (l1 ++ (a, io) :: l2) -> Forall (fun x => io_fd x.2 <> io_fd io) l1 ->
  del_walk (w_ios w) (io_fd io) (l1 ++ (a, io) :: l2).*1 = Ok (Some a, (l1 ++ l2).*1).
Proof.
  induction l1 as [|[b io'] l1 IH]; cbn; intros F H; apply Forall_cons in F as [Fa F]; unfold h_load; cbn in Fa; rewrite Fa; cbn [mbind res_bind].
  - by rewrite Z.eqb_refl.
  - apply Forall_cons in H as [Hn H]. rewrite (proj2 (Z.eqb_neq _ _)) by done. by rewrite IH.
Qed.

Lemma conns_loads w max cap l : conns_ok w max cap l -> Forall (loads w) l.
Proof. intros [_ L _ _]. eapply Forall_impl; [exact L|]. by intros x [? _]. Qed.

(** What of the world is about connections. *)
Lemma conns_world w w' max cap l :
  mg_io_list (w_mgr w') = mg_io_list (w_mgr w) -> w_ios w' = w_ios w -> conns_ok w max cap l -> conns_ok w' max cap l.
Proof. intros E1 E2 [A B C D]. constructor; [by rewrite E1|by rewrite E2|done|done]. Qed.

Lemma del_none w max cap l fd : conns_ok w max cap l -> lines_of l !! fd = None -> ep_io_del w fd = Ok (0, w).
Proof.
  intros H Hn. unfold ep_io_del. rewrite (cs_list _ _ _ _ H), walk_none; [done|by eapply conns_loads|by apply lines_none].
Qed.

Lemma nodup_middle {A B} (f : A -> B) l1 x l2 : NoDup (f <$> (l1 ++ x :: l2)) -> NoDup (f <$> (l1 ++ l2)).
Proof.
  rewrite !fmap_app, fmap_cons. intros H. apply NoDup_app in H as (N1 & N2 & N3). apply NoDup_cons in N3 as [_ N3].
  apply NoDup_app. split; [done|]. split; [|done]. intros y Hy Hy2. apply (N2 y Hy). by right.
Qed.

(** The connection is released: the world without it, and nothing else. *)
Lemma del_some w max cap l1 a io l2 :
  conns_ok w max cap (l1 ++ (a, io) :: l2) -> pool_ok w -> Forall (fun x => io_fd x.2 <> io_fd io) l1 ->
  exists w', ep_io_del w (io_fd io) = Ok (1, w') /\ conns_ok w' max cap (l1 ++ l2) /\ pool_ok w' /\ queued w' = queued w /\
    w_cb w' = w_cb w /\ mg_def_capacity (w_mgr w') = mg_def_capacity (w_mgr w) /\ mg_max_capacity (w_mgr w') = mg_max_capacity (w_mgr w).
Proof.
  intros H P H1. pose proof (conns_loads _ _ _ _ H) as L. destruct H as [Hl Hv Na Nf]. unfold ep_io_del. rewrite Hl, walk_split by done.
  cbn [mbind res_bind]. assert (w_ios w !! a = Some (Some io)) as Ha.
  { apply Forall_app in L as [_ L]. by apply Forall_cons in L as [La _]. }
  assert (q_items (io_send io) = []) as Hq.
  { apply Forall_app in Hv as [_ Hv]. apply Forall_cons in Hv as [[_ Hc] _]. apply Hc. }
  unfold io_release, h_load. cbn [w_ios set_mgr]. rewrite Ha. cbn [mbind res_bind ep_queue_stop default]. cbn. rewrite Hq. cbn.
  rewrite (h_free_ok _ _ io) by done. cbn [mbind res_bind]. eexists. split; [done|]. split; [|split; [|done]].
  - constructor; cbn; [done| |by eapply nodup_middle|by eapply nodup_middle].
    assert (a ∉ (l1 ++ l2).*1) as Hni.
    { rewrite fmap_app, fmap_cons in Na. apply NoDup_app in Na as (_ & N2 & N3). apply NoDup_cons in N3 as [N3 _].
      rewrite fmap_app, elem_of_app. intros [E|E]; [apply (N2 a E); left|by apply N3]. }
    apply Forall_forall. intros [b io'] Hb.
    assert (a <> b) as Hab by (intros <-; apply Hni; by apply (list_elem_of_fmap_2 fst _ (a, io'))).
    rewrite list_lookup_insert_ne by done. rewrite Forall_forall in Hv. apply Hv. rewrite elem_of_app, elem_of_cons. apply elem_of_app in Hb as [?|?]; auto.
  - destruct P as [A B D]. by constructor.
Qed.

Lemma conn_ok_mono max cap cap' io : cap <= cap' -> conn_ok max cap io -> conn_ok max cap' io.
Proof. intros Hc [A B C D]. constructor; [done|done|lia|done]. Qed.

Lemma conns_mono w max cap cap' l : cap <= cap' -> conns_ok w max cap l -> conns_ok w max cap' l.
Proof.
  intros Hc [A B C D]. constructor; [done| |done|done]. eapply Forall_impl; [exact B|]. intros x [? ?]. split; [done|].
  by eapply conn_ok_mono.
Qed.

Lemma add_none w max cap l fd extra :
  conns_ok w max cap l -> pool_ok w -> lines_of l !! fd = None ->
  0 < mg_def_capacity (w_mgr w) <= cap -> 0 < max -> mg_max_capacity (w_mgr w) = max ->
  exists a io w', ep_io_add w fd extra = Ok (1, w') /\ io_fd io = fd /\ line_of io = mk_line None [] /\
    conns_ok w' max cap (l ++ [(a, io)]) /\ pool_ok w' /\ queued w' = queued w /\
    w_cb w' = w_cb w /\ mg_def_capacity (w_mgr w') = mg_def_capacity (w_mgr w) /\ mg_max_capacity (w_mgr w') = mg_max_capacity (w_mgr w).
Proof.
  intros H P Hn Hd Hm Hmax. pose proof (conns_loads _ _ _ _ H) as L. destruct H as [Hl Hv Na Nf]. apply lines_none in Hn.
  unfold ep_io_add, ep_io_find. rewrite Hl, find_none by done. cbn [mbind res_bind].
  rewrite (po_al _ P), ep_calloc_plenty by (unfold sizeof_ep_io; lia). cbn [negb].
  destruct (new_spec (mg_def_capacity (w_mgr w)) (mg_max_capacity (w_mgr w))) as (rb & -> & Ab & I); [lia|lia|].
  unfold rb_abs in Ab. injection Ab as Ac Ad Ae. unfold ep_queue_new. rewrite ep_calloc_plenty by (unfold sizeof_ep_queue; lia). cbn [negb h_alloc].
  eexists (length (w_ios w)), (mk_io (mk_queue [] 0) rb shell_zero 0 (mk_aes (zeros 16) (zeros 16)) fd extra), _.
  split; [done|]. split; [done|]. split; [unfold line_of; cbn; by rewrite Ac|]. split; [|split; [|done]].
  - constructor; cbn.
    + rewrite fmap_app, Hl. done.
    + apply Forall_app. split.
      * eapply Forall_impl; [exact Hv|]. intros x [? ?]. split; [|done]. by apply lookup_app_l_Some.
      * constructor; [|done]. cbn. split; [by rewrite list_lookup_middle|]. constructor; cbn; [done|congruence|lia|done].
    + rewrite fmap_app. apply NoDup_app. split; [done|]. split; [|apply NoDup_singleton]. intros b Hb E. apply list_elem_of_singleton in E. cbn in E. subst b.
      apply list_elem_of_fmap in Hb as (x & Ex & Hx). rewrite Forall_forall in L. specialize (L x Hx). apply lookup_lt_Some in L. rewrite <- Ex in L. lia.
    + unfold fds in *. rewrite fmap_app. apply NoDup_app. split; [done|]. split; [|apply NoDup_singleton]. intros b Hb E. apply list_elem_of_singleton in E as ->. done.
  - destruct P as [A B D]. by constructor.
Qed.

Lemma parse_both fuel max c bytes :
  (parse_fuel c bytes < fuel)%nat -> parse fuel max c bytes = parse (S (parse_fuel c bytes)) max c bytes.
Proof. intros H. apply parse_unique; lia. Qed.

(** A chunk for a connection: what the parser says, in the connection and in the pool. *)
Lemma enqueue_some fuel w max cap l1 a io l2 d fs st rest :
  conns_ok w max cap (l1 ++ (a, io) :: l2) -> pool_ok w -> Forall (fun x => io_fd x.2 <> io_fd io) l1 ->
  mg_max_capacity (w_mgr w) = max -> max <= BODY_MAX -> zlen d <= max -> cap + zlen d <= INT_MAX -> cap + zlen d + 1 < Z.of_nat fuel ->
  parse (S (parse_fuel (io_cached io) (rb_contents (io_recv io) ++ d))) max (io_cached io) (rb_contents (io_recv io) ++ d) = (fs, st, rest) ->
  good st = true ->
  exists io' w', ep_io_enqueue fuel w (io_fd io) d (zlen d) = Ok (code_of st, w') /\ io_fd io' = io_fd io /\
    (awaits st = true -> line_of io' = mk_line (cached_of st) rest) /\
    conns_ok w' max (cap + zlen d) (l1 ++ (a, io') :: l2) /\ pool_ok w' /\ queued w' = queued w ++ tagged (io_fd io) fs /\
    w_cb w' = w_cb w /\ mg_def_capacity (w_mgr w') = mg_def_capacity (w_mgr w) /\ mg_max_capacity (w_mgr w') = mg_max_capacity (w_mgr w).
Proof.
  intros H P H1 Hmax Hm Hd Hc Hfu Ep G. pose proof (conns_loads _ _ _ _ H) as L. destruct H as [Hl Hv Na Nf].
  pose proof Hv as Hv0. apply Forall_app in Hv0 as [Hv1 Hv2]. apply Forall_cons in Hv2 as [[Ha Ho] Hv2]. cbn in Ha, Ho.
  pose proof (contents_len _ (co_inv _ _ _ Ho)) as Lc. pose proof (can_read_range _ (co_inv _ _ _ Ho)) as Lr. pose proof (co_cap _ _ _ Ho) as Cp.
  assert (parse_fuel (io_cached io) (rb_contents (io_recv io) ++ d) < fuel)%nat as Hfu'.
  { unfold parse_fuel. rewrite length_app. unfold zlen in *. destruct (io_cached io); lia. }
  rewrite <- (parse_both fuel) in Ep by done. pose proof (zlen_nonneg d).
  destruct (enqueue_full fuel w (io_fd io) a io d fs st rest) as (io' & w' & E & [Cf Cl Ci Cm] & R & K & Cq & [Dp Dq [pl Dm]] & Ei & Es & Ef & Ecb);
    [|done|lia|lia|lia|by rewrite Hmax|done|].
  { constructor; [|done|apply Ho|rewrite Hmax; apply Ho]. unfold ep_io_find. rewrite Hl. by apply find_split. }
  exists io', w'. split; [done|]. split; [done|]. split.
  { intros Ha'. unfold line_of. rewrite R, K; [done|]. by destruct st. }
  split; [|rewrite Dm; done]. constructor.
  - rewrite Dm. cbn. by rewrite Hl, !fmap_app, !fmap_cons.
  - assert (Forall (fun x => x.1 <> a) (l1 ++ l2)) as Hna.
    { rewrite fmap_app, fmap_cons in Na. apply NoDup_app in Na as (_ & N2 & N3). apply NoDup_cons in N3 as [N3 _]. cbn in *.
      apply Forall_app. split; apply Forall_forall; intros x Hx E1; subst a.
      - apply (N2 x.1); [by apply (list_elem_of_fmap_2 fst)|left].
      - apply N3. by apply (list_elem_of_fmap_2 fst). }
    apply Forall_app in Hna as [Hn1 Hn2].
    assert (forall l, Forall (fun x => x.1 <> a) l -> Forall (fun x => w_ios w !! x.1 = Some (Some x.2) /\ conn_ok max cap x.2) l ->
      Forall (fun x => w_ios w' !! x.1 = Some (Some x.2) /\ conn_ok max (cap + zlen d) x.2) l) as T.
    { intros l A B. rewrite Forall_forall in A, B. apply Forall_forall. intros x Hx. destruct (B x Hx) as [Bx Cx].
      rewrite Ei, list_lookup_insert_ne by (apply not_eq_sym; by apply A). split; [done|]. eapply conn_ok_mono; [|done]. lia. }
    apply Forall_app. split; [by apply T|]. constructor; [|by apply T]. cbn. split; [done|]. constructor; [done| |lia|].
    + rewrite Dm in Cm. cbn in Cm. congruence.
    + rewrite Es. apply Ho.
  - by rewrite fmap_app, fmap_cons in *.
  - unfold fds in *. rewrite fmap_app, fmap_cons in *. cbn. by rewrite Ef.
Qed.

(** ** Lemmas: the steps *)

Lemma lines_of_app l a io : io_fd io ∉ fds l -> lines_of (l ++ [(a, io)]) = <[io_fd io := line_of io]> (lines_of l).
Proof.
  intros H. unfold lines_of. rewrite fmap_app, list_to_map_app. cbn. apply map_eq. intros fd. rewrite lookup_union.
  destruct (decide (fd = io_fd io)) as [->|Hn].
  - rewrite !lookup_insert_eq. assert (lines_of l !! io_fd io = None) as E by (by apply lines_none). unfold lines_of in E. by rewrite E.
  - rewrite !lookup_insert_ne, lookup_empty by done. by destruct (_ !! fd).
Qed.

(** The service after an event about [fd], with its connections and tasks replaced. *)
Lemma served_told s cb w0 max cap cap' n w l lines tasks type fd :
  served s cb w0 max cap n -> cap <= cap' -> conns_ok w max cap' l -> lines = lines_of l -> pool_ok w ->
  queued w = nt_tasks n ++ tasks -> w_cb w = w_cb (s_world s) -> mg_def_capacity (w_mgr w) = mg_def_capacity (w_mgr (s_world s)) ->
  mg_max_capacity (w_mgr w) = mg_max_capacity (w_mgr (s_world s)) ->
  served (notify (set_world s w) type fd) cb w0 max cap' (net_told n type fd lines tasks).
Proof.
  intros [A B C D E F G] Hc Hl -> Hp Hq Hcb Hd Hm. unfold notify. cbn [set_world s_event_cb]. rewrite B. constructor; cbn; try done.
  - rewrite fold_left_app. cbn. by rewrite Hcb, C.
  - destruct Hp. by constructor.
  - rewrite Hd, Hm. destruct F as (F1 & F2 & F3). split; [lia|done].
  - exists l. split; [|done]. by eapply conns_world; [..|exact Hl].
Qed.

Lemma served_quiet s cb w0 max cap cap' n w l lines tasks :
  served s cb w0 max cap n -> cap <= cap' -> conns_ok w max cap' l -> lines = lines_of l -> pool_ok w ->
  queued w = nt_tasks n ++ tasks -> w_cb w = w_cb (s_world s) -> mg_def_capacity (w_mgr w) = mg_def_capacity (w_mgr (s_world s)) ->
  mg_max_capacity (w_mgr w) = mg_max_capacity (w_mgr (s_world s)) ->
  served (set_world s w) cb w0 max cap' (mk_net lines (nt_tasks n ++ tasks) (nt_events n)).
Proof.
  intros [A B C D E F G] Hc Hl -> Hp Hq Hcb Hd Hm. constructor; cbn; try done.
  - by rewrite Hcb, C.
  - rewrite Hd, Hm. destruct F as (F1 & F2 & F3). split; [lia|done].
  - by exists l.
Qed.

Lemma set_world_id (s : service W) : set_world s (s_world s) = s.
Proof. by destruct s. Qed.

Lemma served_mono s cb w0 max cap cap' n : cap <= cap' -> served s cb w0 max cap n -> served s cb w0 max cap' n.
Proof.
  intros Hc [A B C D E (F1 & F2) (l & G1 & G2)]. constructor; try done; [split; [lia|done]|]. exists l. split; [|done]. by eapply conns_mono.
Qed.

Lemma accept_ok s cb w0 max cap n fd extra :
  served s cb w0 max cap n ->
  exists s' n', ep_service_on_accept s fd extra = Ok s' /\ net_step max n (NAccept fd extra) = Some (0, n') /\ served s' cb w0 max cap n'.
Proof.
  intros S. pose proof S as [Hi Hcb Hst Hp Hq (Hd & Hm & Hmx) (l & Hl & Hn)]. unfold ep_service_on_accept. rewrite Hi. cbn [negb net_step].
  destruct (nt_lines n !! fd) as [ln|] eqn:E; rewrite Hn in E.
  - destruct (lines_split _ _ _ _ _ _ Hl E) as (l1 & a & io & l2 & -> & <- & _ & H1 & _). unfold ep_io_add, ep_io_find.
    rewrite (cs_list _ _ _ _ Hl), find_split by (done || by eapply conns_loads). cbn [mbind res_bind]. rewrite set_world_id.
    change (0 =? 0) with true. cbv iota. by eexists _, _.
  - destruct (add_none _ _ _ _ fd extra Hl Hp E Hd (proj1 Hm) Hmx) as (a & io & w' & -> & Hf & Hln & Hl' & Hp' & Hq' & Hc' & Hd' & Hm').
    cbn [mbind res_bind]. change (1 =? 0) with false. cbv iota. eexists _, _. split; [done|]. split; [done|].
    eapply served_told; [exact S|lia|exact Hl'| |done|by rewrite Hq', app_nil_r|done|done|done].
    rewrite lines_of_app, Hn, Hf, Hln; [done|]. rewrite Hf. by apply lines_none.
Qed.

Lemma close_ok s cb w0 max cap n fd :
  served s cb w0 max cap n ->
  exists s' n', ep_service_on_close s fd = Ok s' /\ net_step max n (NClose fd) = Some (0, n') /\ served s' cb w0 max cap n'.
Proof.
  intros S. pose proof S as [Hi Hcb Hst Hp Hq Hcf (l & Hl & Hn)]. unfold ep_service_on_close. rewrite Hi. cbn [net_step].
  destruct (nt_lines n !! fd) as [ln|] eqn:E; rewrite Hn in E.
  - destruct (lines_split _ _ _ _ _ _ Hl E) as (l1 & a & io & l2 & -> & <- & _ & H1 & H2).
    destruct (del_some _ _ _ _ _ _ _ Hl Hp H1) as (w' & -> & Hl' & Hp' & Hq' & Hc' & Hd' & Hm').
    cbn [mbind res_bind]. change (1 =? 0) with false. cbv iota. eexists _, _. split; [done|]. split; [done|].
    eapply served_told; [exact S|lia|exact Hl'| |done|by rewrite Hq', app_nil_r|done|done|done].
    rewrite Hn. symmetry. by apply lines_delete.
  - rewrite (del_none _ _ _ _ _ Hl E). cbn [mbind res_bind]. rewrite set_world_id. change (0 =? 0) with true. by eexists _, _.
Qed.

Lemma read_ok fuel s cb w0 max cap n fd d r n' :
  served s cb w0 max cap n -> zlen d <= max -> cap + zlen d <= INT_MAX -> cap + zlen d + 1 < Z.of_nat fuel ->
  net_read max n fd d = Some (r, n') ->
  exists s', ep_service_on_read fuel s fd d (zlen d) = Ok (r, s') /\ served s' cb w0 max (cap + zlen d) n'.
Proof.
  intros S Hd Hc Hfu. pose proof S as [Hi Hcb Hst Hp Hq (Hdc & Hm & Hmx) (l & Hl & Hn)]. unfold net_read, ep_service_on_read.
  rewrite Hi. cbn [negb]. pose proof (zlen_nonneg d). destruct (nt_lines n !! fd) as [ln|] eqn:E; rewrite Hn in E.
  2: { intros [= <- <-]. unfold ep_io_enqueue, ep_io_find. rewrite (cs_list _ _ _ _ Hl), find_none by (by eapply conns_loads || by apply lines_none).
       cbn [mbind res_bind]. change (0 <=? -3) with false. cbv iota. rewrite (del_none _ _ _ _ _ Hl E). cbn [mbind res_bind].
       eexists. split; [done|]. eapply served_told; [exact S|lia| |by rewrite Hn|done|by rewrite app_nil_r|done|done|done].
       eapply conns_mono; [|exact Hl]. lia. }
  destruct (lines_split _ _ _ _ _ _ Hl E) as (l1 & a & io & l2 & -> & <- & -> & H1 & H2). cbn [line_of ln_cached ln_bytes].
  destruct (parse _ max (io_cached io) _) as [[fs st] rest] eqn:Ep. intros Hr. assert (good st = true) as G by (by destruct st).
  destruct (enqueue_some fuel _ _ _ _ _ _ _ d fs st rest Hl Hp H1 Hmx) as (io' & w' & -> & Hf & Hln & Hl' & Hp' & Hq' & Hc' & Hd' & Hm'); [lia|lia|lia|done|exact Ep|done|].
  cbn [mbind res_bind].
  assert (awaits st = true -> served (set_world s w') cb w0 max (cap + zlen d)
    (mk_net (<[io_fd io := mk_line (cached_of st) rest]> (nt_lines n)) (nt_tasks n ++ tagged (io_fd io) fs) (nt_events n))) as Good.
  { intros Ha. eapply served_quiet; [exact S|lia|exact Hl'| |done|by rewrite Hq', Hq|done|done|done].
    rewrite Hn, <- (Hln Ha). symmetry. by apply lines_update. }
  assert (forall type, exists w2, ep_io_del w' (io_fd io) = Ok (1, w2) /\
    served (notify (set_world s w2) type (io_fd io)) cb w0 max (cap + zlen d) (net_told n type (io_fd io) (delete (io_fd io) (nt_lines n)) (tagged (io_fd io) fs))) as Bad.
  { intros type. rewrite <- Hf in H1, H2 |- *. destruct (del_some _ _ _ _ _ _ _ Hl' Hp' H1) as (w2 & Ew & Hl2 & Hp2 & Hq2 & Hc2 & Hd2 & Hm2).
    exists w2. split; [done|]. eapply served_told; [exact S|lia|exact Hl2| |done|by rewrite Hq2, Hq', Hq, Hf|congruence|congruence|congruence].
    rewrite Hn, Hf, (lines_delete l1 a io l2) by (by rewrite Hf in H1, H2). done. }
  destruct st; cbn [code_of] in *; [change (0 <=? 0) with true|change (0 <=? 1) with true|change (0 <=? -1) with false|change (0 <=? -2) with false|done|done];
    cbv iota; injection Hr as <- <-.
  - eexists. split; [done|]. by apply Good.
  - eexists. split; [done|]. by apply Good.
  - destruct (Bad event_io_exception) as (w2 & -> & Sv). cbn [mbind res_bind]. by eexists.
  - destruct (Bad event_io_overflow) as (w2 & -> & Sv). cbn [mbind res_bind]. by eexists.
Qed.

Lemma service_agrees os : forall fuel s cb w0 max cap n rs n',
  served s cb w0 max cap n -> Forall (fun o => zlen (op_bytes o) <= max) os ->
  cap + total os <= INT_MAX -> cap + total os + 1 < Z.of_nat fuel -> net_run max n os = Some (rs, n') ->
  exists s', service_run fuel s os = Ok (rs, s') /\ served s' cb w0 max (cap + total os) n'.
Proof.
  induction os as [|o os IH]; intros fuel s cb w0 max cap n rs n' S Ho Hc Hfu; cbn [net_run service_run].
  { intros [= <- <-]. exists s. split; [done|]. eapply served_mono; [|exact S]. change (total []) with 0. lia. }
  apply Forall_cons in Ho as [Ho Hos]. assert (total (o :: os) = zlen (op_bytes o) + total os) as Et by (unfold total; cbn; by rewrite zlen_app).
  rewrite Et in *. pose proof (zlen_nonneg (op_bytes o)). assert (0 <= total os) by apply zlen_nonneg.
  destruct (net_step max n o) as [[r n1]|] eqn:En; [|done]. destruct (net_run max n1 os) as [[rs' n2]|] eqn:Er; [|done]. intros [= <- <-].
  assert (exists s1, service_step fuel s o = Ok (r, s1) /\ served s1 cb w0 max (cap + zlen (op_bytes o)) n1) as (s1 & -> & S1).
  { destruct o as [fd extra|fd d|fd]; cbn [service_step op_bytes] in *.
    - destruct (accept_ok s cb w0 max cap n fd extra S) as (s1 & n1' & -> & En' & S1). rewrite En in En'. injection En' as -> ->.
      exists s1. split; [done|]. eapply served_mono; [|exact S1]. rewrite zlen_nil. lia.
    - apply (read_ok fuel s cb w0 max cap n fd d r n1); [done|done|lia|lia|exact En].
    - destruct (close_ok s cb w0 max cap n fd S) as (s1 & n1' & -> & En' & S1). rewrite En in En'. injection En' as -> ->.
      exists s1. split; [done|]. eapply served_mono; [|exact S1]. rewrite zlen_nil. lia. }
  cbn [mbind res_bind]. destruct (IH fuel s1 cb w0 max _ n1 rs' n2 S1 Hos) as (s2 & -> & S2); [lia|lia|done|].
  cbn [mbind res_bind]. exists s2. split; [done|]. by rewrite Z.add_assoc.
Qed.

End relation.

(** ** The event loop *)

Inductive loop_op : Type :=
  | LAccept (fd extra : Z)
  | LRead (fd r : Z) (bytes : list Z).

Definition loop_step {W} (fuel : nat) (c : core W) (o : loop_op) : res (core W) :=
  match o with
  | LAccept fd extra => aeAcceptTcpHandler c fd extra true
  | LRead fd r bytes => aeReadFromClient fuel c fd r bytes
  end.

Fixpoint loop_run {W} (fuel : nat) (c : core W) (os : list loop_op) : res (core W) :=
  match os with [] => Ok c | o :: os => c ← loop_step fuel c o; loop_run fuel c os end.

(** The specification. The system accepts descriptors that are not open, and the loop reads only
    those it watches: anything else is [None], as is a header with a negative size. *)
Definition loop_spec (max listen : Z) (n : net) (o : loop_op) : option net :=
  match o with
  | LAccept fd _ =>
      match nt_lines n !! fd with
      | Some _ => None
      | None => if fd =? listen then None else Some (net_told n event_fd_accept fd (<[fd := mk_line None []]> (nt_lines n)) [])
      end
  | LRead fd r bytes =>
      match nt_lines n !! fd with
      | None => None
      | Some _ =>
          if r <=? 0 then Some (net_told n event_fd_close fd (delete fd (nt_lines n)) [])
          else if r =? zlen bytes then snd <$> net_read max n fd bytes else None
      end
  end.

Fixpoint loop_specs (max listen : Z) (n : net) (os : list loop_op) : option net :=
  match os with
  | [] => Some n
  | o :: os => match loop_spec max listen n o with None => None | Some n => loop_specs max listen n os end
  end.

Definition loop_bytes (o : loop_op) : list Z := match o with LRead _ _ bytes => bytes | _ => [] end.
Definition loop_total (os : list loop_op) : Z := zlen (concat (map loop_bytes os)).

(** The descriptors that are open after a sequence of events, if every connection is told to begin
    before it is told to end, and neither twice. *)
Fixpoint paired (opened : gset Z) (l : list (ep_event_type * Z)) : option (gset Z) :=
  match l with
  | [] => Some opened
  | (event_fd_accept, fd) :: l => if decide (fd ∈ opened) then None else paired ({[fd]} ∪ opened) l
  | (_, fd) :: l => if decide (fd ∈ opened) then paired (opened ∖ {[fd]}) l else None
  end.

Lemma paired_app o l1 l2 : paired o (l1 ++ l2) = match paired o l1 with Some o => paired o l2 | None => None end.
Proof.
  revert o. induction l1 as [|[t fd] l1 IH]; intros o; [done|]. cbn. destruct t; destruct (decide _); done || apply IH.
Qed.

Section loop.
Context {W : Type}.

Record looped (c : core W) (cb : ep_event_cb W) (w0 : W) (max cap : Z) (n : net) : Prop := {
  lo_served : served (cr_service c) cb w0 max cap n;
  lo_listen : nt_lines n !! cr_fd c = None;
  lo_watched : cr_events c = {[cr_fd c]} ∪ dom (nt_lines n);
  lo_paired : paired ∅ (nt_events n) = Some (dom (nt_lines n));
}.

(** An end of a connection that is there is paired. *)
Lemma paired_end (n : net) fd type tasks ln :
  paired ∅ (nt_events n) = Some (dom (nt_lines n)) -> nt_lines n !! fd = Some ln -> type <> event_fd_accept ->
  paired ∅ (nt_events (net_told n type fd (delete fd (nt_lines n)) tasks)) = Some (dom (delete fd (nt_lines n))).
Proof.
  intros P H Ht. cbn. rewrite paired_app, P, dom_delete_L. assert (fd ∈ dom (nt_lines n)) as Hin by (by eapply elem_of_dom_2).
  destruct type; [done|..]; cbn; by rewrite decide_True.
Qed.

Lemma looped_close c cb w0 max cap n fd ln :
  served (cr_service c) cb w0 max cap n -> nt_lines n !! cr_fd c = None -> cr_events c = {[cr_fd c]} ∪ dom (nt_lines n) ->
  paired ∅ (nt_events n) = Some (dom (nt_lines n)) -> nt_lines n !! fd = Some ln ->
  exists c', aeClientClose c fd = Ok c' /\ cr_fd c' = cr_fd c /\
    looped c' cb w0 max cap (net_told n event_fd_close fd (delete fd (nt_lines n)) []).
Proof.
  intros S Hl Hw Hp Hf. unfold aeClientClose. cbn [unwatch cr_service].
  destruct (close_ok (cr_service c) cb w0 max cap n fd S) as (s' & n' & -> & En & S'). cbn [net_step] in En. rewrite Hf in En.
  injection En as <-. cbn [mbind res_bind]. eexists. split; [done|]. split; [done|]. constructor; cbn [set_service unwatch cr_service cr_fd cr_events].
  - done.
  - cbn. rewrite lookup_delete_ne; [done|]. intros ->. congruence.
  - cbn. rewrite Hw, dom_delete_L. assert (fd <> cr_fd c) by (intros ->; congruence). set_solver.
  - by apply (paired_end n fd event_fd_close [] ln).
Qed.

Lemma looped_step fuel c cb w0 max cap n o n' :
  looped c cb w0 max cap n -> zlen (loop_bytes o) <= max -> cap + zlen (loop_bytes o) <= INT_MAX ->
  cap + zlen (loop_bytes o) + 1 < Z.of_nat fuel -> loop_spec max (cr_fd c) n o = Some n' ->
  exists c', loop_step fuel c o = Ok c' /\ cr_fd c' = cr_fd c /\ looped c' cb w0 max (cap + zlen (loop_bytes o)) n'.
Proof.
  intros [S Hl Hw Hp] Hb Hc Hfu. pose proof (zlen_nonneg (loop_bytes o)). destruct o as [fd extra|fd r d]; cbn [loop_spec loop_step loop_bytes] in *.
  - destruct (nt_lines n !! fd) as [ln|] eqn:Ef; [done|]. destruct (Z.eqb_spec fd (cr_fd c)) as [|Hn]; [done|]. intros [= <-].
    unfold aeAcceptTcpHandler. cbn [negb watch cr_service].
    destruct (accept_ok (cr_service c) cb w0 max cap n fd extra S) as (s' & n' & -> & En & S'). cbn [net_step] in En. rewrite Ef in En.
    injection En as <-. cbn [mbind res_bind]. eexists. split; [done|]. split; [done|]. constructor; cbn.
    + eapply served_mono; [|exact S']. lia.
    + by rewrite lookup_insert_ne.
    + rewrite Hw, dom_insert_L. set_solver.
    + rewrite paired_app, Hp, dom_insert_L. cbn. by rewrite decide_False by (by apply not_elem_of_dom).
  - destruct (nt_lines n !! fd) as [ln|] eqn:Ef; [|done]. unfold aeReadFromClient. destruct (r <=? 0).
    { intros [= <-]. destruct (looped_close c cb w0 max cap n fd ln S Hl Hw Hp Ef) as (c' & -> & Hfd & [A B C D]).
      exists c'. split; [done|]. split; [done|]. constructor; try done. eapply served_mono; [|exact A]. lia. }
    destruct (Z.eqb_spec r (zlen d)) as [->|]; [|done]. destruct (net_read max n fd d) as [[r1 n1]|] eqn:En; [|done]. cbn. intros [= <-].
    destruct (read_ok fuel (cr_service c) cb w0 max cap n fd d r1 n1 S Hb Hc Hfu En) as (s' & -> & S'). cbn [mbind res_bind].
    unfold net_read in En. rewrite Ef in En. destruct (parse _ max _ _) as [[fs st] rest].
    assert (forall type tasks, type <> event_fd_accept -> served s' cb w0 max (cap + zlen d) (net_told n type fd (delete fd (nt_lines n)) tasks) ->
      exists c', aeClientClose (set_service c s') fd = Ok c' /\ cr_fd c' = cr_fd c /\
        looped c' cb w0 max (cap + zlen d) (net_told n type fd (delete fd (nt_lines n)) tasks)) as Bad.
    { intros type tasks Ht S1. unfold aeClientClose. cbn [unwatch cr_service set_service].
      destruct (close_ok s' cb w0 max _ _ fd S1) as (s2 & n2 & -> & En2 & S2). cbn [net_step net_told nt_lines] in En2. rewrite lookup_delete_eq in En2.
      injection En2 as <-. cbn [mbind res_bind]. eexists. split; [done|]. split; [done|].
      assert (fd <> cr_fd c) by (intros ->; congruence). constructor; cbn; [done|by rewrite lookup_delete_ne|rewrite Hw, dom_delete_L; set_solver|by apply (paired_end n fd type tasks ln)]. }
    assert (fd <> cr_fd c) as Hfd by (intros ->; congruence). assert (fd ∈ dom (nt_lines n)) as Hin by (by eapply elem_of_dom_2).
    assert (forall ln' tasks, served s' cb w0 max (cap + zlen d) (mk_net (<[fd := ln']> (nt_lines n)) tasks (nt_events n)) ->
      looped (set_service c s') cb w0 max (cap + zlen d) (mk_net (<[fd := ln']> (nt_lines n)) tasks (nt_events n))) as Good.
    { intros ln' tasks S1. constructor; cbn; [done|by rewrite lookup_insert_ne|rewrite Hw, dom_insert_L; set_solver|].
      rewrite Hp, dom_insert_L. f_equal. set_solver. }
    destruct st; try done; injection En as <- <-; cbn [negb Z.eqb Pos.eqb].
    + exists (set_service c s'). split; [done|]. split; [done|]. by apply Good.
    + exists (set_service c s'). split; [done|]. split; [done|]. by apply Good.
    + by apply Bad.
    + by apply Bad.
Qed.

Lemma looped_run os : forall fuel c cb w0 max cap n n',
  looped c cb w0 max cap n -> Forall (fun o => zlen (loop_bytes o) <= max) os ->
  cap + loop_total os <= INT_MAX -> cap + loop_total os + 1 < Z.of_nat fuel -> loop_specs max (cr_fd c) n os = Some n' ->
  exists c', loop_run fuel c os = Ok c' /\ looped c' cb w0 max (cap + loop_total os) n'.
Proof.
  induction os as [|o os IH]; intros fuel c cb w0 max cap n n' L Ho Hc Hfu; cbn [loop_specs loop_run].
  { intros [= <-]. exists c. split; [done|]. change (loop_total []) with 0. by rewrite Z.add_0_r. }
  apply Forall_cons in Ho as [Ho Hos]. assert (loop_total (o :: os) = zlen (loop_bytes o) + loop_total os) as Et by (unfold loop_total; cbn; by rewrite zlen_app).
  rewrite Et in *. pose proof (zlen_nonneg (loop_bytes o)). assert (0 <= loop_total os) by apply zlen_nonneg.
  destruct (loop_spec max (cr_fd c) n o) as [n1|] eqn:En; [|done]. intros Er.
  destruct (looped_step fuel c cb w0 max cap n o n1 L Ho) as (c1 & -> & Hfd & L1); [lia|lia|done|]. cbn [mbind res_bind].
  destruct (IH fuel c1 cb w0 max _ n1 n' L1 Hos) as (c2 & -> & L2); [lia|lia|by rewrite Hfd|]. exists c2. split; [done|]. by rewrite Z.add_assoc.
Qed.

End loop.

(** ** Properties *)

(** C4: The loop, the sockets and the service together are one frame parser per connection: over
    any sequence of accepted connections and reads, with any interleaving of the connections and
    any division into chunks, the requests handed to the pool are the frames of the streams, in
    order; a connection with a bad header, with a frame over the limit, or that was closed is
    forgotten, with the event that says why. The program is told of each connection exactly once
    that it began and once that it ended, and the loop watches exactly the connections that have
    begun and not ended. *)
Theorem loop_refines {W : Type} (fuel : nat) (c : core W) cb w0 max cap n os n' :
  looped c cb w0 max cap n -> Forall (fun o => zlen (loop_bytes o) <= max) os ->
  cap + loop_total os <= INT_MAX -> cap + loop_total os + 1 < Z.of_nat fuel -> loop_specs max (cr_fd c) n os = Some n' ->
  exists c', loop_run fuel c os = Ok c' /\ queued (s_world (cr_service c')) = nt_tasks n' /\
    w_cb (s_world (cr_service c')) = fold_left (fun w e => cb w e.1 e.2) (nt_events n') w0 /\
    paired ∅ (nt_events n') = Some (dom (nt_lines n')) /\ cr_events c' = {[cr_fd c']} ∪ dom (nt_lines n').
Proof.
  intros L Ho Hc Hf Hs. destruct (looped_run os fuel c cb w0 max cap n n' L Ho Hc Hf Hs) as (c' & E & [S _ Hw Hp]).
  exists c'. split; [exact E|]. split; [apply S|]. split; [apply S|]. by split.
Qed.

(** A listening service that logs its events, before any connection. *)
Definition demo_core : core (list (ep_event_type * Z)) :=
  mk_core true 3 60 {[3]} []
    (mk_service true true
       (mk_world (mk_mgr ep_io_refor_server (mk_disp_mgr []) (mk_queue [] 0) 0 (mk_tp [] 1 0) 64 1024 4096 []) [] [] [] [] [])
       true (Some (fun w t fd => w ++ [(t, fd)]))).

Lemma demo_looped : looped demo_core (fun w t fd => w ++ [(t, fd)]) [] 1024 64 (mk_net ∅ [] []).
Proof.
  constructor; [|done|set_solver|done]. constructor; [done|done|done|by constructor|done|cbn; unfold BODY_MAX; lia|].
  exists []. split; [|done]. constructor; try done; apply NoDup_nil_2.
Qed.

(** Two connections; the first sends a frame in two chunks, the second a bad header, and the first
    is closed. *)
Definition demo_ops : list loop_op :=
  [LAccept 5 0; LAccept 6 0; LRead 5 20 (shell_wire (demo_shell 3) ++ [65; 66]); LRead 6 18 (zeros 18); LRead 5 1 [67]; LRead 5 0 []].

Lemma loop_refines_witness :
  exists c', loop_run 200 demo_core demo_ops = Ok c' /\ queued (s_world (cr_service c')) = [(5, demo_shell 3, [65; 66; 67])] /\
    w_cb (s_world (cr_service c')) = [(event_fd_accept, 5); (event_fd_accept, 6); (event_io_exception, 6); (event_fd_close, 5)] /\
    cr_events c' = {[3]}.
Proof.
  destruct (loop_refines 200 demo_core _ [] 1024 64 _ demo_ops
    (mk_net ∅ [(5, demo_shell 3, [65; 66; 67])] [(event_fd_accept, 5); (event_fd_accept, 6); (event_io_exception, 6); (event_fd_close, 5)])
    demo_looped) as (c' & E & Q & Wc & _ & Ev).
  - repeat constructor; by vm_compute.
  - by vm_compute.
  - by vm_compute.
  - vm_compute. reflexivity.
  - exists c'. split; [exact E|]. split; [exact Q|]. split; [exact Wc|].
    assert (cr_fd c' = 3) as Hf.
    { revert E. clear. intros E. assert (match loop_run 200 demo_core demo_ops with Ok c => cr_fd c | Fault _ => 0 end = 3) as H by (vm_compute; reflexivity).
      by rewrite E in H. }
    rewrite Ev, Hf. set_solver.
Defined.

(** The callbacks of the sender thread, for the service in [c]; [write] is the answer of the system
    call. *)
Definition sender_send {W} (c : core W) (write : Z -> list Z -> Z) (w : world W) (fd : Z) (data : list Z) (extra : Z)
  : res (Z * world W) :=
  '(r, c) ← service_core_send (set_service c (set_world (cr_service c) w)) fd (zlen data) (write fd data);
  Ok (r, s_world (cr_service c)).

Definition sender_err {W} (c : core W) (w : world W) (fd : Z) : res (world W) :=
  s ← ep_service_send_error_cb (set_world (cr_service c) w) fd; Ok (s_world s).

Lemma notify_ios {W} (s : service W) type fd : w_ios (s_world (notify s type fd)) = w_ios (s_world s).
Proof. unfold notify. by destruct (s_event_cb s). Qed.

(** A failed write of the last message of the only connection frees the connection. *)
Lemma send_fails {W} (c : core W) (w : world W) (write : Z -> list Z -> Z) a io data extra :
  s_io_mgr (cr_service c) = true -> mg_io_list (w_mgr w) = [a] -> w_ios w !! a = Some (Some io) -> q_items (io_send io) = [] ->
  write (io_fd io) data = -1 ->
  exists w', sender_send c write w (io_fd io) data extra = Ok (0, w') /\ w_ios w' !! a = Some None.
Proof.
  intros Hi Hl Hio Hs Hw. assert (a < length (w_ios w))%nat by (by eapply lookup_lt_Some).
  unfold sender_send, service_core_send, aeClientClose. rewrite Hw. change (-1 =? -1) with true. cbv iota.
  cbn [unwatch set_service cr_service]. unfold ep_service_on_close. cbn [set_world s_io_mgr s_world]. rewrite Hi.
  unfold ep_io_del. rewrite Hl. cbn [del_walk]. unfold h_load. rewrite Hio. cbn [mbind res_bind]. rewrite Z.eqb_refl. cbn [mbind res_bind].
  unfold io_release, h_load. cbn [w_ios set_mgr]. rewrite Hio. cbn [mbind res_bind ep_queue_stop default]. cbn. rewrite Hs. cbn.
  unfold h_free. rewrite Hio. cbn. eexists. split; [done|]. rewrite notify_ios. cbn. by apply list_lookup_insert_eq.
Qed.

(** C37: A message that cannot be written makes the sender thread read a freed connection: the failed
    [write] closes the client, which removes and frees the connection, and [ep_io_routine] then reads
    its descriptor for the error callback. *)
Theorem send_error_use_after_free {W : Type} (fuel : nat) (c : core W) (w : world W) (write : Z -> list Z -> Z) a io b buf rest :
  s_io_mgr (cr_service c) = true -> mg_send_abort (w_mgr w) = 0 -> q_items (mg_send_queue (w_mgr w)) = a :: rest ->
  mg_io_list (w_mgr w) = [a] -> w_ios w !! a = Some (Some io) -> q_items (io_send io) = [b] ->
  w_bufs w !! b = Some (Some buf) -> buf_inv buf -> (forall data, write (io_fd io) data = -1) ->
  ep_io_routine_round (sender_send c write) (sender_err c) (S fuel) w = Fault UseAfterFree.
Proof.
  intros Hi Ha Hq Hl Hio Hs Hb I Hw. unfold ep_io_routine_round. rewrite Ha. change (0 =? 0) with true. cbn [negb].
  unfold ep_queue_get_enter. rewrite Hq. unfold get_take. rewrite Hq. change (1 =? 1) with true. cbn [negb routine_send].
  unfold ep_io_get, ep_io_find, h_load. cbn [set_mgr w_ios w_mgr mgr_send_queue mg_io_list w_bufs]. rewrite Hio. cbn [mbind res_bind]. rewrite Hl. cbn [io_find]. unfold h_load. rewrite Hio. cbn [mbind res_bind].
  rewrite Z.eqb_refl. cbn [mbind res_bind]. rewrite Hio. cbn [mbind res_bind]. unfold queue_get_locked, ep_queue_get_enter, get_take. rewrite Hs.
  cbn [mbind res_bind]. rewrite (h_store_ok _ _ _ io) by done. cbn [mbind res_bind w_bufs set_ios w_mgr w_ios]. change (1 =? 1) with true. cbn [negb]. unfold h_load. cbn [w_bufs set_ios set_mgr].
  rewrite Hb. cbn [mbind res_bind]. rewrite (h_free_ok _ _ buf) by done. cbn [mbind res_bind].
  pose proof (bi_used _ I). rewrite slice_ok by (unfold ep_buffer_size; lia). cbn [mbind res_bind w_ios set_bufs set_ios].
  assert (a < length (w_ios w))%nat by (by eapply lookup_lt_Some). rewrite list_lookup_insert_eq by done. cbn [mbind res_bind io_fd io_set_send io_fd_extra].
  match goal with |- context [sender_send c write ?w1 (io_fd io) ?d ?e] =>
    destruct (send_fails c w1 write a (io_set_send io (mk_queue [] (q_stop_sign (io_send io)))) d e) as (w2 & E & Ew) end;
    [done|done|by apply list_lookup_insert_eq|done|done|].
  cbn [io_fd io_set_send] in E. rewrite E. cbn [mbind res_bind]. change (0 <=? 0) with true. cbv iota. by rewrite Ew.
Qed.

Definition demo_failed : world (list (ep_event_type * Z)) :=
  mk_world (mk_mgr ep_io_refor_server (mk_disp_mgr []) (mk_queue [0%nat] 0) 0 (mk_tp [] 1 0) 64 1024 4096 [0%nat])
    [Some (demo_io 5 [0%nat])] [Some (demo_buf [1; 2; 3])] [] [] [].

Lemma send_error_use_after_free_witness :
  ep_io_routine_round (sender_send demo_core (fun _ _ => -1)) (sender_err demo_core) 2 demo_failed = Fault UseAfterFree.
Proof. by apply (send_error_use_after_free 1 demo_core demo_failed (fun _ _ => -1) 0 (demo_io 5 [0%nat]) 0 (demo_buf [1; 2; 3]) []); [..|apply demo_buf_inv|]. Defined.

End Service.
