(* ===== verification/Client.v ===== *)
(** * Client: the connection of a client (eventpack/src/ep_client.c, and the client's part of ep_cert.c)

    A client owns a connection manager with one connection, a thread that receives, and the requests
    of [Request]. What the system calls answer is an argument; what other threads do to the client
    while a call waits is the function [env]. *)
From stdpp Require Import gmap.
From S2P Require Import Prelude Alloc RingBuffer Queue Words Buffer Dispatch ThreadPool Bson Packet PackLoop Io IoSpec Request Cert Service.
Import Alloc RingBuffer Queue Words Buffer Dispatch ThreadPool Bson Packet PackLoop Io IoSpec Request Cert.
Import Service(conns_ok, cs_list, cs_live, cs_addr, cs_fds, conn_ok, co_send, enqueue_some, del_some, line_of).

Module Client.

(** ** A request from its start to its end *)

(** [ep_req_wait]: when the queue is empty the thread waits, [env] happens, and the wait ends with
    [wait_r]. *)
Definition ep_req_wait (env : client -> res client) (c : client) (a : nat) (timeout sec usec wait_r : Z)
  : res (Z * option ep_pack * client) :=
  t ← ep_req_wait_enter c a timeout sec usec;
  match t with
  | WRet ret pack c => Ok (ret, pack, c)
  | WWait _ => c ← env c; ep_req_wait_wake c a wait_r
  end.

Section handshake.
Context `{C : Codec} `{Cr : Crypto} (beyond : list Z).

Definition security_param (pack : ep_pack) : ep_req_param :=
  mk_param req_type_get Service.EP_CATEGORY_INTERNAL_KEY 0 compress_type_auto crypt_type_encrypt compress_type_auto (Some pack).

(** [curtime] and [seed] are the bytes the key is made of and the padding of RSA. *)
Definition ep_cert_client_security (env : client -> res client) (c : client) (curtime seed : list Z) (wait_timeout sec usec wait_r : Z)
  : res (Z * client) :=
  '(pack, w) ← client_hello (cl_io c) (cl_fd c) curtime seed;
  let c := set_io c w in
  match pack with
  | None => Ok (-1, c)
  | Some pack =>
      '(handle, _, c') ← ep_req_new beyond (Some c) (security_param pack);
      let c := default c c' in
      match handle with
      | None => Ok (0, c)
      | Some a =>
          '(ret, pack, c) ← ep_req_wait env c a wait_timeout sec usec wait_r;
          if ret =? 0 then c ← ep_req_destroy c a; Ok (0, c) else
          match pack with
          | None => Fault NullDeref
          | Some pack => result ← client_answer pack; c ← ep_req_destroy c a; Ok (result, c)
          end
      end
  end.

End handshake.

(** ** The client *)

(** The managers that are there, the receiving thread, its flag, and the descriptors closed. *)
Record ep_client := mk_ep_client {
  ec_client : client;
  ec_io_mgr : bool;
  ec_disp_mgr : bool;
  ec_thread : bool;
  ec_recv_loop : Z;
  ec_closed : list Z;
}.

Definition set_client (e : ep_client) c : ep_client := mk_ep_client c (ec_io_mgr e) (ec_disp_mgr e) (ec_thread e) (ec_recv_loop e) (ec_closed e).
Definition set_recv_loop (e : ep_client) z : ep_client := mk_ep_client (ec_client e) (ec_io_mgr e) (ec_disp_mgr e) (ec_thread e) z (ec_closed e).
Definition set_mgrs (e : ep_client) io disp : ep_client := mk_ep_client (ec_client e) io disp (ec_thread e) (ec_recv_loop e) (ec_closed e).
Definition closed (e : ep_client) (fd : Z) : ep_client :=
  mk_ep_client (ec_client e) (ec_io_mgr e) (ec_disp_mgr e) (ec_thread e) (ec_recv_loop e) (ec_closed e ++ [fd]).
Definition set_fd (c : client) fd : client := mk_client fd (cl_io_max_capacity c) (cl_io c) (cl_disc_cb c) (cl_disc c).

(** ** Receiving *)

(** A turn of the loop: another thread has cleared the flag, or [recv] answered [n] and [line]. *)
Inductive recv_in : Type := RStopped | RData (n : Z) (line : list Z).

Definition enqueue_disc (ret : Z) : ep_client_disc :=
  if ret =? -1 then ep_disc_bad_request else if ret =? -2 then ep_disc_capacity_overflow else ep_disc_socket_close.

(** The loop: the type and the last result once it is left, or [None] while it goes on. *)
Fixpoint recv_loop (fuel : nat) (e : ep_client) (ret : Z) (ins : list recv_in) : res (option (ep_client_disc * Z) * ep_client) :=
  match ins with
  | [] => Ok (None, e)
  | RStopped :: _ => Ok (Some (ep_disc_socket_close, ret), set_recv_loop e 0)
  | RData n line :: ins =>
      if 0 <? n then
        if negb (ec_io_mgr e) then Fault NullDeref else
        '(ret, w) ← ep_io_enqueue fuel (cl_io (ec_client e)) (cl_fd (ec_client e)) line n;
        let e := set_client e (set_io (ec_client e) w) in
        if ret <? 0 then Ok (Some (enqueue_disc ret, ret), e) else recv_loop fuel e ret ins
      else Ok (Some (ep_disc_socket_close, ret), e)
  end.

(** What the thread does when it has left the loop. *)
Definition routine_exit (e : ep_client) (type : ep_client_disc) (ret : Z) : res ep_client :=
  if negb (ec_io_mgr e) then Fault NullDeref else
  let c := ec_client e in
  '(_, w) ← ep_io_del (cl_io c) (cl_fd c);
  let e := closed (set_client e (set_fd (set_io c w) (-1))) (cl_fd c) in
  let type := (if (0 <=? ret) && (ec_recv_loop e =? 0) then ep_disc_user_abort else type) in
  Ok (set_client e (disconnected (ec_client e) type)).

(** The receiving thread. The flag [recv_loop] is read at the test of the loop, and again for the
    reason of the end; [ins] are the calls of [recv] it has had, and a stop that another thread asks
    for between two of them is seen at the next test. *)
Definition ep_client_routine (fuel : nat) (e : ep_client) (ins : list recv_in) : res ep_client :=
  '(out, e) ← recv_loop fuel (set_recv_loop e 1) 0 ins;
  match out with
  | None => Ok e
  | Some (type, ret) => routine_exit e type ret
  end.

(** ** Sending *)

(** [(int)send_size], where [r] is what [send] answered. *)
Definition ep_io_client_send (r : Z) : Z := i32 (u64 r).

(** The words of the manager's struct, by their offset: [send.abort] with its padding is at 48, the
    fields before it are pointers. *)
Definition offsetof_io_mgr : Z := 48.
Definition mgr_word {W} (m : ep_io_mgr W) (offset : Z) : option Z := if offset =? 48 then Some (mg_send_abort m) else None.

(** The opaque pointer is the manager, which is read as a client: its [io_mgr] is the word at 48. *)
Definition ep_client_send_error_cb (opaque : world cstate) (server_fd : Z) : res (world cstate) :=
  match mgr_word (w_mgr opaque) offsetof_io_mgr with
  | Some 0 => Fault NullDeref
  | _ => Fault WildPointer
  end.

(** ** The life of a client *)

Record ep_client_conf := mk_client_conf {
  cc_keepalive : Z;
  cc_io_def_capacity : Z;
  cc_io_max_capacity : Z;
  cc_mini_compress_if : Z;
}.

Definition sizeof_ep_client : Z := 104.

(** Up to the join of the receiving thread. *)
Definition stop_begin (fuel : nat) (e : ep_client) : res ep_client :=
  let fd := cl_fd (ec_client e) in
  let e := closed (set_recv_loop e 0) fd in
  e ← (if ec_io_mgr e then
         w ← ep_io_stop (cl_io (ec_client e)) fd;
         '(_, w) ← ep_io_del w fd;
         w ← ep_io_destroy fuel w;
         Ok (set_mgrs (set_client e (set_io (ec_client e) w)) false (ec_disp_mgr e))
       else Ok e);
  if negb (ec_thread e) then Fault WildPointer else Ok e.

(** [thread] is what is left of the receiving thread when it is joined. The struct is freed. *)
Definition ep_client_stop (fuel : nat) (thread : ep_client -> res ep_client) (e : option ep_client) : res (option ep_client) :=
  match e with
  | None => Ok None
  | Some e => e ← stop_begin fuel e; _ ← thread e; Ok None
  end.

Definition ep_client_event (e : ep_client) (disc_cb : bool) : ep_client :=
  let c := ec_client e in set_client e (mk_client (cl_fd c) (cl_io_max_capacity c) (cl_io c) disc_cb (cl_disc c)).

Definition ep_client_register (e : ep_client) (category : Z) (cb : pfn_ep_cb ep_pack cstate) : res (Z * ep_client) :=
  if negb (ec_disp_mgr e) then Fault NullDeref else
  let w := cl_io (ec_client e) in
  let '(ret, m, al) := ep_disp_add_cb (w_al w) (mg_disp (w_mgr w)) category cb in
  Ok (ret, set_client e (set_io (ec_client e) (set_disp (set_al w al) m))).

(** A manager that was never initialised. *)
Definition mgr_zero : ep_io_mgr cstate := mk_mgr ep_io_refor_server (mk_disp_mgr []) (mk_queue [] 0) 0 (mk_tp [] 0 0) 0 0 0 [].

Section start.
Context `{C : Codec} `{Cr : Crypto} (beyond : list Z).

(** [fd] is what [socket] answered, [conn] what [connect] answered; the script of the allocations
    is [al], that of the dispatching thread is empty. *)
Definition ep_client_start (env : client -> res client) (thread : ep_client -> res ep_client) (fuel : nat) (al : alloc) (conf : ep_client_conf)
    (fd conn : Z) (curtime seed : list Z) (wait_timeout sec usec wait_r : Z) : res (Z * option ep_client) :=
  if fd =? -1 then Ok (0, None) else
  let '(ok, al) := ep_calloc al 1 sizeof_ep_client in
  if negb ok then Ok (-3, None) else
  let max := Z.max (cc_io_max_capacity conf) (cc_io_def_capacity conf) in
  let world0 al m := mk_world m [] [] [] (Ok (mk_requests [] [])) al in
  let client0 w := mk_client fd max w false [] in
  if negb (conn =? 0) then Ok (-2, None) else
  let '(disp, al) := ep_disp_init al in
  match disp with
  | None => e ← ep_client_stop fuel thread (Some (mk_ep_client (client0 (world0 al mgr_zero)) false false false 0 [])); Ok (-3, e)
  | Some disp =>
      let '(mgr, _, al) := ep_io_init al ep_io_refor_client disp 1 (cc_io_def_capacity conf) (cc_io_max_capacity conf) (cc_mini_compress_if conf) in
      match mgr with
      | None => e ← ep_client_stop fuel thread (Some (mk_ep_client (client0 (world0 al mgr_zero)) false true false 0 [])); Ok (-3, e)
      | Some mgr =>
          '(ret, w) ← ep_io_add (world0 al mgr) fd 0;
          if negb (ret =? 1) then
            e ← ep_client_stop fuel thread (Some (mk_ep_client (client0 w) true true false 0 [])); Ok (-3, e)
          else
          '(ret, c) ← ep_cert_client_security beyond env (client0 w) curtime seed wait_timeout sec usec wait_r;
          let e := mk_ep_client c true true true 1 [] in
          if negb (ret =? 1) then e ← ep_client_stop fuel thread (Some e); Ok (-1, e) else Ok (ret, Some e)
      end
  end.

End start.

(** ** The specification of the receiving thread *)

(** What it hands over, why it ends (if it does), and the header and bytes it keeps. *)
Fixpoint recv_spec (max : Z) (cached : option ep_shell) (bytes : list Z) (ins : list recv_in)
  : option (list frame * option ep_client_disc) :=
  match ins with
  | [] => Some ([], None)
  | RStopped :: _ => Some ([], Some ep_disc_user_abort)
  | RData n line :: ins =>
      if n <=? 0 then Some ([], Some ep_disc_socket_close) else
      if negb (n =? zlen line) then None else
      let all := bytes ++ line in
      let '(fs, st, rest) := parse (S (parse_fuel cached all)) max cached all in
      match st with
      | PHeader | PBody _ =>
          match recv_spec max (cached_of st) rest ins with None => None | Some (fs', r) => Some (fs ++ fs', r) end
      | PBadMagic => Some (fs, Some ep_disc_bad_request)
      | PTooBig => Some (fs, Some ep_disc_capacity_overflow)
      | PNegative | PFuel => None
      end
  end.

Definition recv_bytes (i : recv_in) : list Z := match i with RData _ line => line | RStopped => [] end.
Definition recv_total (ins : list recv_in) : Z := zlen (concat (map recv_bytes ins)).

(** ** Lemmas *)

(** A client that is connected, with nothing to send. *)
Record connected (e : ep_client) (max cap : Z) (a : nat) (io : ep_io) : Prop := {
  cn_mgr : ec_io_mgr e = true;
  cn_conns : conns_ok (cl_io (ec_client e)) max cap [(a, io)];
  cn_fd : io_fd io = cl_fd (ec_client e);
  cn_pool : pool_ok (cl_io (ec_client e));
  cn_max : mg_max_capacity (w_mgr (cl_io (ec_client e))) = max /\ 0 < max <= BODY_MAX;
}.

(** The client after its thread has ended, told why. *)
Definition gone (e e' : ep_client) (type : ep_client_disc) (fs : list frame) : Prop :=
  cl_fd (ec_client e') = -1 /\ mg_io_list (w_mgr (cl_io (ec_client e'))) = [] /\
  queued (cl_io (ec_client e')) = queued (cl_io (ec_client e)) ++ tagged (cl_fd (ec_client e)) fs /\
  cl_disc (ec_client e') = (if cl_disc_cb (ec_client e) then cl_disc (ec_client e) ++ [type] else cl_disc (ec_client e)) /\
  ec_closed e' = ec_closed e ++ [cl_fd (ec_client e)].

Lemma exit_ok e max cap a io type ret :
  connected e max cap a io ->
  exists e', routine_exit e type ret = Ok e' /\
    gone e e' (if (0 <=? ret) && (ec_recv_loop e =? 0) then ep_disc_user_abort else type) [].
Proof.
  intros [Hm Hc Hf Hp _]. unfold routine_exit. rewrite Hm. cbn [negb]. rewrite <- Hf.
  destruct (del_some _ _ _ [] a io [] Hc Hp) as (w' & -> & Hc' & _ & Hq & _); [done|]. cbn [mbind res_bind]. eexists. split; [done|].
  cbn [closed set_client ec_recv_loop]. split; [done|]. split; [apply (cs_list _ _ _ _ Hc')|].
  split; [cbn; rewrite app_nil_r; exact Hq|]. split; [reflexivity|]. cbn. by rewrite Hf.
Qed.

(** What a chunk that was taken leaves. *)
Lemma chunk_ok fuel e max cap a io d fs st rest :
  connected e max cap a io -> zlen d <= max -> cap + zlen d <= INT_MAX -> cap + zlen d + 1 < Z.of_nat fuel ->
  parse (S (parse_fuel (io_cached io) (rb_contents (io_recv io) ++ d))) max (io_cached io) (rb_contents (io_recv io) ++ d) = (fs, st, rest) ->
  good st = true ->
  exists w' io', ep_io_enqueue fuel (cl_io (ec_client e)) (cl_fd (ec_client e)) d (zlen d) = Ok (code_of st, w') /\
    connected (set_client e (set_io (ec_client e) w')) max (cap + zlen d) a io' /\
    (awaits st = true -> io_cached io' = cached_of st /\ rb_contents (io_recv io') = rest) /\
    queued w' = queued (cl_io (ec_client e)) ++ tagged (cl_fd (ec_client e)) fs.
Proof.
  intros [Hm Hc Hf Hp (Hx & Hx2)] Hd Hi Hfu Ep G. rewrite <- Hf.
  destruct (enqueue_some fuel _ _ _ [] a io [] d fs st rest Hc Hp) as (io' & w' & E & Hf' & Hl & Hc' & Hp' & Hq' & Hcb & Hd' & Hm');
    [done|done|lia|done|done|done|exact Ep|done|].
  exists w', io'. split; [done|]. split.
  { constructor; cbn; [done|done|congruence|done|]. split; [congruence|done]. }
  split; [|done]. intros Ha. specialize (Hl Ha). unfold line_of in Hl. by injection Hl.
Qed.

Lemma recv_ok ins : forall fuel e max cap a io fs r last,
  connected e max cap a io -> ec_recv_loop e = 1 -> 0 <= last ->
  Forall (fun i => zlen (recv_bytes i) <= max) ins ->
  cap + recv_total ins <= INT_MAX -> cap + recv_total ins + 1 < Z.of_nat fuel ->
  recv_spec max (io_cached io) (rb_contents (io_recv io)) ins = Some (fs, r) ->
  exists out e', recv_loop fuel e last ins = Ok (out, e') /\
    match r, out with
    | None, None => queued (cl_io (ec_client e')) = queued (cl_io (ec_client e)) ++ tagged (cl_fd (ec_client e)) fs
    | Some type, Some (t, ret) => exists e2, routine_exit e' t ret = Ok e2 /\ gone e e2 type fs
    | _, _ => False
    end.
Proof.
  induction ins as [|i ins IH]; intros fuel e max cap a io fs r last Hc Hr Hl Ho Hi Hfu; cbn [recv_spec recv_loop].
  { intros [= <- <-]. exists None, e. split; [done|]. by rewrite app_nil_r. }
  destruct i as [|n line].
  { intros [= <- <-]. eexists _, _. split; [done|]. destruct (exit_ok (set_recv_loop e 0) max cap a io ep_disc_socket_close last) as (e2 & E & G).
    - destruct Hc. by constructor.
    - exists e2. split; [exact E|]. cbn [set_recv_loop ec_recv_loop] in G. rewrite (proj2 (Z.leb_le 0 last)) in G by done. exact G. }
  apply Forall_cons in Ho as [Ho Hos]. cbn [recv_bytes] in Ho.
  assert (recv_total (RData n line :: ins) = zlen line + recv_total ins) as Et by (unfold recv_total; cbn; by rewrite zlen_app).
  rewrite Et in *. pose proof (zlen_nonneg line). assert (0 <= recv_total ins) by apply zlen_nonneg.
  destruct (Z.leb_spec n 0) as [Hn|Hn].
  { intros [= <- <-]. rewrite (proj2 (Z.ltb_ge 0 n)) by done. eexists _, _. split; [done|].
    destruct (exit_ok e max cap a io ep_disc_socket_close last Hc) as (e2 & E & G). exists e2. split; [exact E|]. rewrite Hr in G. by rewrite andb_false_r in G. }
  rewrite (proj2 (Z.ltb_lt 0 n)) by done. rewrite (cn_mgr _ _ _ _ _ Hc). cbn [negb].
  destruct (Z.eqb_spec n (zlen line)) as [->|]; [|done]. cbn [negb].
  destruct (parse _ max (io_cached io) _) as [[fs1 st] rest] eqn:Ep. intros Hs. assert (good st = true) as G by (by destruct st).
  destruct (chunk_ok fuel e max cap a io line fs1 st rest Hc Ho) as (w' & io' & -> & Hc' & Ha & Hq); [lia|lia|done|done|]. cbn [mbind res_bind].
  set (e1 := set_client e (set_io (ec_client e) w')) in *.
  assert (awaits st = true -> match recv_spec max (cached_of st) rest ins with None => None | Some (fs', r) => Some (fs1 ++ fs', r) end = Some (fs, r) ->
    forall last', 0 <= last' ->
    exists out e', recv_loop fuel e1 last' ins = Ok (out, e') /\
    match r, out with
    | None, None => queued (cl_io (ec_client e')) = queued (cl_io (ec_client e)) ++ tagged (cl_fd (ec_client e)) fs
    | Some type, Some (t, ret) => exists e2, routine_exit e' t ret = Ok e2 /\ gone e e2 type fs
    | _, _ => False
    end) as Good.
  { intros Hw Hsp last' Hl'. destruct (Ha Hw) as [A1 A2]. rewrite <- A1, <- A2 in Hsp. destruct (recv_spec max (io_cached io') _ ins) as [[fs2 r2]|] eqn:E2; [|done].
    injection Hsp as <- <-. destruct (IH fuel e1 max _ a io' fs2 r2 last' Hc' Hr Hl' Hos) as (out & e' & E & P); [lia|lia|done|].
    exists out, e'. split; [exact E|]. unfold tagged in *. rewrite map_app, app_assoc, <- Hq.
    destruct r2 as [type|], out as [[t ret]|]; try done. destruct P as (e2 & E2' & (G1 & G2 & G3 & G4)). exists e2. split; [done|].
    split; [done|]. split; [done|]. split; [|done]. unfold tagged in *. rewrite G3. cbn. by rewrite Hq, map_app, app_assoc. }
  destruct st; cbn [code_of] in *; try discriminate G.
  - change (0 <? 0) with false. cbv iota. by apply Good.
  - change (1 <? 0) with false. cbv iota. by apply Good.
  - injection Hs as <- <-. change (-1 <? 0) with true. cbv iota. eexists _, _. split; [done|].
    destruct (exit_ok e1 max _ a io' ep_disc_bad_request (-1) Hc') as (e2 & E & (G1 & G2 & G3 & G4)). exists e2. split; [exact E|].
    split; [done|]. split; [done|]. split; [|done]. rewrite G3. cbn. by rewrite app_nil_r.
  - injection Hs as <- <-. change (-2 <? 0) with true. cbv iota. eexists _, _. split; [done|].
    destruct (exit_ok e1 max _ a io' ep_disc_capacity_overflow (-2) Hc') as (e2 & E & (G1 & G2 & G3 & G4)). exists e2. split; [exact E|].
    split; [done|]. split; [done|]. split; [|done]. rewrite G3. cbn. by rewrite app_nil_r.
Qed.

(** ** Properties *)

(** C20: The receiving thread of a client hands exactly the frames of the stream to the pool, in
    order and however the stream is cut, and ends in one way: the connection is removed and closed,
    the descriptor of the client is -1, and the program is told once why, a bad header, a frame
    over the limit, the end of the stream, or its own stop. *)
Theorem client_receives (fuel : nat) (e : ep_client) max cap a io ins fs r :
  connected e max cap a io -> Forall (fun i => zlen (recv_bytes i) <= max) ins ->
  cap + recv_total ins <= INT_MAX -> cap + recv_total ins + 1 < Z.of_nat fuel ->
  recv_spec max (io_cached io) (rb_contents (io_recv io)) ins = Some (fs, r) ->
  exists e', ep_client_routine fuel e ins = Ok e' /\
    match r with
    | None => queued (cl_io (ec_client e')) = queued (cl_io (ec_client e)) ++ tagged (cl_fd (ec_client e)) fs
    | Some type => gone e e' type fs
    end.
Proof.
  intros Hc Ho Hi Hf Hs. unfold ep_client_routine.
  destruct (recv_ok ins fuel (set_recv_loop e 1) max cap a io fs r 0) as (out & e' & -> & P); [by destruct Hc|done|done|done|done|done|done|].
  cbn [mbind res_bind]. destruct r as [type|], out as [[t ret]|]; try (by destruct P).
  - destruct P as (e2 & E & G). exists e2. split; [exact E|exact G].
  - exists e'. split; [done|exact P].
Qed.

Definition demo_ep_client : ep_client := mk_ep_client demo_client true true true 0 [].

Lemma demo_client_connected : connected demo_ep_client 1024 64 0 (demo_io 5 []).
Proof.
  constructor; [done| |done|by constructor|cbn; unfold BODY_MAX; lia]. constructor; [done| |apply NoDup_singleton|apply NoDup_singleton].
  apply Forall_singleton. split; [done|]. constructor; [apply demo_rb_inv|done|cbn; lia|done].
Qed.

(** A frame in two chunks, then a bad header. *)
Lemma client_receives_witness :
  exists e', ep_client_routine 200 demo_ep_client [RData 20 (shell_wire (demo_shell 3) ++ [65; 66]); RData 19 (67 :: zeros 18)] = Ok e' /\
    gone demo_ep_client e' ep_disc_bad_request [mk_frame (demo_shell 3) [65; 66; 67]].
Proof.
  apply (client_receives 200 demo_ep_client 1024 64 0 (demo_io 5 [])
    [RData 20 (shell_wire (demo_shell 3) ++ [65; 66]); RData 19 (67 :: zeros 18)] [mk_frame (demo_shell 3) [65; 66; 67]] (Some ep_disc_bad_request)).
  - exact demo_client_connected.
  - repeat constructor; by vm_compute.
  - by vm_compute.
  - by vm_compute.
  - vm_compute. reflexivity.
Defined.

(** Stopping a client makes its receiving thread use the manager that was just destroyed:
    [ep_client_stop] closes the socket and destroys the manager before it joins the thread, and the
    thread, woken by the close, calls [ep_io_del] with the manager that is now NULL. *)
Theorem client_stop_null_deref (fuel : nat) (e : ep_client) max cap a io type ret :
  connected e max cap a io -> ec_thread e = true -> q_items (mg_send_queue (w_mgr (cl_io (ec_client e)))) = [] ->
  ep_client_stop fuel (fun e => routine_exit e type ret) (Some e) = Fault NullDeref.
Proof.
  intros [Hm Hc Hf Hp Hx] Ht Hq. unfold ep_client_stop, stop_begin. cbn [closed set_recv_loop ec_io_mgr ec_client]. rewrite Hm. rewrite <- Hf.
  pose proof (cs_list _ _ _ _ Hc) as Hl. pose proof (cs_live _ _ _ _ Hc) as Hv. apply Forall_singleton in Hv as [Ha Ho]. cbn in Hl, Ha, Ho.
  pose proof (co_send _ _ _ Ho) as Hs.
  unfold ep_io_stop, ep_io_find. rewrite Hl. cbn [io_find]. unfold h_load. rewrite Ha. cbn [mbind res_bind]. rewrite Z.eqb_refl. cbn [mbind res_bind].
  rewrite Ha. cbn [mbind res_bind ep_queue_stop default]. rewrite (h_store_ok _ _ _ io) by done. cbn [mbind res_bind].
  match goal with |- context [ep_io_del ?w _] => set (w1 := w) end.
  set (io1 := io_set_send io (mk_queue (q_items (io_send io)) 1)).
  assert (conns_ok w1 max cap [(a, io1)]) as Hc1.
  { constructor; [exact Hl| |apply NoDup_singleton|apply NoDup_singleton]. apply Forall_singleton. split.
    - cbn. rewrite list_lookup_insert_eq by (by eapply lookup_lt_Some). done.
    - destruct Ho. by constructor. }
  destruct (del_some w1 max cap [] a io1 [] Hc1) as (w2 & E2 & Hc2 & Hp2 & _); [by destruct Hp|done|].
  change (io_fd io1) with (io_fd io) in E2. pose proof E2 as E3. unfold ep_io_del in E3.
  assert (mg_send_queue (w_mgr w2) = mg_send_queue (w_mgr (cl_io (ec_client e)))) as Hsq.
  { revert E3. cbn. rewrite Hl. cbn [del_walk]. unfold h_load. rewrite list_lookup_insert_eq by (by eapply lookup_lt_Some). cbn. rewrite Z.eqb_refl. cbn.
    unfold io_release, h_load. cbn. rewrite list_lookup_insert_eq by (by eapply lookup_lt_Some). cbn. rewrite Hs. cbn.
    unfold h_free. rewrite list_lookup_insert_eq by (by eapply lookup_lt_Some). cbn. intros [= <-]. done. }
  rewrite E2. cbn [mbind res_bind]. unfold ep_io_destroy. cbn [ep_queue_stop default mgr_abort]. cbn. rewrite (cs_list _ _ _ _ Hc2). cbn. rewrite Hsq, Hq. cbn.
  rewrite Ht. done.
Qed.

Lemma client_stop_null_deref_witness :
  ep_client_stop 10 (fun e => routine_exit e ep_disc_socket_close 0) (Some demo_ep_client) = Fault NullDeref.
Proof. by apply (client_stop_null_deref 10 demo_ep_client 1024 64 0 (demo_io 5 []) ep_disc_socket_close 0 demo_client_connected). Defined.

End Client.
