(* ===== verification/Rpc.v ===== *)
(** * Rpc: a request over the wire and back

    The pieces of the two sides put together: what [ep_req_new] queues ([Request]) is what the
    server's [ep_io_processor] recombines and dispatches, and what it answers is what the client's
    processor hands to the waiting request. The bytes travel as one frame of the streams of [Service]
    and [Client]. *)
From stdpp Require Import gmap.
From S2P Require Import Prelude Alloc RingBuffer Queue Words Buffer Dispatch ThreadPool Bson Packet PackLoop Io IoSpec Request Cert Service.
Import Alloc RingBuffer Queue Words Buffer Dispatch ThreadPool Bson Packet PackLoop Io IoSpec Request.

Module Rpc.

(** The largest body of a message. *)
Definition WIRE_MAX : Z := 300000016.

(** A packet that, once finished, is the document of [f]. *)
Definition finishes_as (p : ep_pack) (f : fields) : Prop :=
  exists p1, ep_pack_finish p = Ok p1 /\ ep_pack_finish p1 = Ok p1 /\ ep_pack_size p1 = Ok (zlen (enc_fields f) + 5) /\
    ztake (zlen (enc_fields f) + 5) (ep_pack_data p1) = doc (enc_fields f) /\ zlen (enc_fields f) + 5 <= zlen (ep_pack_data p1).

(** A packet that was built from its fields. *)
Lemma built_finishes f p : fits f -> build_fields fresh f = Ok p -> finishes_as p f.
Proof.
  intros [Hf Hl] E0. destruct (build_pack_spec f Hf Hl) as (q & E & Hfin & Es & Ed & Ez). unfold build_pack in E.
  rewrite pack_new_fresh in E. cbn [mbind res_bind] in E. rewrite E0 in E. cbn [mbind res_bind] in E.
  destruct (ep_pack_finish p) as [p2|] eqn:E2; [|done]. cbn in E. simplify_eq. exists q. split; [exact E2|]. split; [|done].
  unfold ep_pack_finish, bson_finish. rewrite Hfin. destruct q as [b]. cbn [pk_b]. by destruct (negb _).
Qed.

(** Packets of a size the other side accepts: [ep_pack_create] takes the first byte of a packet for
    a flag, so that it refuses those whose size is a multiple of 256. *)
Definition sendable (f : fields) : Prop := zlen (enc_fields f) + 5 <= 268435455 /\ (zlen (enc_fields f) + 5) mod 256 <> 0.

(** A task made of a message that is one frame. *)
Definition arrived {W} (w : world W) (fd : Z) (bytes : list Z) (t : ep_io_task) : Prop :=
  exists s body a b, parse 2 WIRE_MAX None bytes = ([mk_frame s body], PHeader, []) /\ t = mk_task fd s (Some a) /\
    w_bufs w !! a = Some (Some b) /\ buf_inv b /\ buf_data b = body.

Section rpc.
Context `{CL : CodecLaws} (beyond : list Z) (Hbeyond : 16 <= zlen beyond).
#[local] Set Default Proof Using "Type*".

(** The message of [data] with the head of [s], from a client or from a server. *)
Definition message (cl : bool) (k : ep_aes_key) (s : ep_shell) (data bytes : list Z) : Prop :=
  exists s2 b b1 b2, same_head s s2 /\ bytes = shell_wire s2 ++ buf_data b2 /\ wraps cl k b s2 b1 b2 /\ buf_inv b /\ buf_data b = data.

(** A connection with the key [k]. *)
Record line_ok {W} (w : world W) (fd : Z) (a : nat) (io : ep_io) (k : ep_aes_key) : Prop := {
  li_al : w_al w = [];
  li_find : ep_io_find w fd = Ok (Some a);
  li_load : w_ios w !! a = Some (Some io);
  li_key : io_aes io = k;
}.

Lemma line_aes {W} (w : world W) fd a io k : line_ok w fd a io k -> ep_io_get_aes w fd = Ok (Some k).
Proof. intros [_ F L K]. unfold ep_io_get_aes, h_load. rewrite F. cbn [mbind res_bind]. by rewrite L, <- K. Qed.

(** ** Receiving *)

Definition without {W} (w : world W) (a : nat) : world W := set_bufs w (<[a := None]> (w_bufs w)).

Lemma process_in {W} internal (w : world W) fd a io k cl s f bytes t :
  line_ok w fd a io k -> cl = negb (is_client w) -> s_magic s = EP_MAGIC_NUMBER -> sendable f ->
  message cl k s (doc (enc_fields f)) bytes -> arrived w fd bytes t ->
  exists s2 q x, ep_io_processor beyond internal w t = processor_run beyond internal (without w x) fd s2 (Some q) /\
    (live (w_bufs w) x /\ t_in t = Some x) /\ ep_pack_data q = doc (enc_fields f) /\ shell_ok s2 /\ same_head s s2.
Proof.
  intros L -> Hm [Sz Smod] (s2 & b & b1 & b2 & Hh & Hb & Wr & Ib & Db) (s' & body & x & b3 & Hp & -> & Hx & I3 & D3).
  assert (parse 2 WIRE_MAX None bytes = ([mk_frame s2 (buf_data b2)], PHeader, [])) as E.
  { rewrite Hb. pose proof (buf_data_len _ (wr_inv2 _ _ _ _ _ _ Wr)) as L2. pose proof (wr_size _ _ _ _ _ _ Wr).
    apply parse_one; [apply Wr|destruct Hh; congruence|rewrite L2; apply Wr|unfold WIRE_MAX; lia]. }
  rewrite Hp in E. injection E as -> ->.
  destruct (recombine_full beyond w fd s2 x b b1 b2 b3 k) as (b5 & Er & I5 & D5);
    [apply L|done|done|done|done|done|done|by eapply line_aes|].
  pose proof (bi_used _ (wr_inv2 _ _ _ _ _ _ Wr)) as [U2 _]. rewrite <- (wr_shell _ _ _ _ _ _ Wr) in U2.
  unfold ep_io_processor. cbn [t_shell t_fd t_in]. rewrite (proj2 (Z.eqb_neq (s_shell_size s2) 0)) by lia. cbn [negb].
  rewrite Er. cbn [mbind res_bind]. rewrite bool_decide_false by done. unfold h_load. rewrite (with_buf_lookup w x b3) by done. cbn [mbind res_bind].
  change (w_al (with_buf w x b5)) with (w_al w). rewrite (li_al _ _ _ _ _ L).
  assert (ep_buffer_size b5 = zlen (enc_fields f) + 5) as Es.
  { unfold ep_buffer_size. by rewrite <- (buf_data_len _ I5), D5, Db, zlen_doc. }
  assert (ep_buffer_ptr b5 = doc (enc_fields f) ++ zdrop (buf_used b5) (buf_chunk b5)) as Ep.
  { unfold ep_buffer_ptr. rewrite <- Db, <- D5. unfold buf_data. symmetry. apply ztake_zdrop. }
  destruct (create_doc f (zdrop (buf_used b5) (buf_chunk b5))) as (q & Eq & Dq); [unfold LIM; lia|done|].
  rewrite Ep, Es, Eq. cbn [mbind res_bind buf_free]. unfold h_load. cbn [w_bufs set_al with_buf set_bufs].
  assert (x < length (w_bufs w))%nat as Hlt by (by eapply lookup_lt_Some).
  rewrite list_lookup_insert_eq by done. cbn [mbind res_bind]. unfold h_free. rewrite list_lookup_insert_eq by done. cbn [mbind res_bind].
  exists s2, q, x. split; [|split; [by split; [exists b3|]|split; [done|split; [apply Wr|done]]]].
  unfold without. rewrite list_insert_insert_eq. f_equal. destruct w, L. cbn in *. by subst.
Qed.

(** ** Answering *)

Lemma message_own {W} (w : world W) fd a io k s s2 b b1 b2 :
  line_ok w fd a io k -> same_head s s2 -> wraps (is_client w) k b s2 b1 b2 -> buf_inv b ->
  message (is_client w) k s (buf_data b) (shell_wire s2 ++ buf_data b2).
Proof. intros _ Hh Wr I. by exists s2, b, b1, b2. Qed.

(** The answer [p] is queued for the connection, as one message. *)
Lemma process_out {W} internal (w w1 : world W) fd a io k s pack p g :
  processor_dispatch internal w (p_category (s_proto s)) fd pack = Ok (Some p, w1) ->
  line_ok w1 fd a io k -> shell_ok s -> p_type (s_proto s) <> req_type_post -> finishes_as p g -> zlen (enc_fields g) + 5 <= 268435455 ->
  exists w' o ob, processor_run beyond internal w fd s pack = Ok w' /\ w_cb w' = w_cb w1 /\
    w_ios w' = <[a := Some (io_set_send io (mk_queue (q_items (io_send io) ++ [o]) (q_stop_sign (io_send io))))]> (w_ios w1) /\
    mg_io_list (w_mgr w') = mg_io_list (w_mgr w1) /\
    w_bufs w' !! o = Some (Some ob) /\ message (is_client w1) k (set_type s req_type_post) (doc (enc_fields g)) (buf_data ob).
Proof.
  intros Hd L Oks Ht (p1 & F1 & F2 & Sz & Dt & Ln) Hg. unfold processor_run. rewrite Hd. cbn [mbind res_bind]. rewrite F1. cbn [mbind res_bind].
  rewrite (proj2 (Z.eqb_neq _ _) Ht). rewrite Sz. cbn [mbind res_bind]. pose proof (zlen_nonneg (enc_fields g)).
  rewrite (proj2 (Z.eqb_neq (zlen (enc_fields g) + 5) 0)) by lia. rewrite F2. cbn [mbind res_bind]. rewrite Sz. cbn [mbind res_bind].
  destruct (buf_new_full w1 (ep_pack_data p1) (zlen (enc_fields g) + 5) (li_al _ _ _ _ _ L)) as (b & -> & I & U & D); [lia|unfold BODY_MAX; lia|].
  cbn [mbind res_bind]. set (n0 := length (w_bufs w1)). set (w2 := set_bufs w1 (w_bufs w1 ++ [Some b])).
  assert (line_ok w2 fd a io k) as L2 by (destruct L; by constructor).
  assert (w_bufs w2 !! n0 = Some (Some b)) as Hb by (cbn; by rewrite list_lookup_middle).
  destruct (combine_full beyond w2 fd (set_type s req_type_post) n0 b k) as (s2 & b1 & b2 & ob & -> & Ob & Wr & Hh);
    [apply L2|done|done|lia| |done|by eapply line_aes|].
  { destruct Oks as [A [] X1 X2 X3]. by constructor. }
  cbn [mbind res_bind buf_free]. set (bufs3 := <[n0 := Some b2]> (w_bufs w2) ++ [Some ob]). unfold h_load. cbn [w_bufs set_bufs].
  assert (length (w_bufs w2) = S n0) as Ln2 by (cbn; rewrite length_app; cbn; unfold n0; lia).
  assert (bufs3 !! n0 = Some (Some b2)) as Hb2 by (unfold bufs3; apply lookup_app_l_Some, list_lookup_insert_eq; lia).
  rewrite Hb2. cbn [mbind res_bind]. rewrite (h_free_ok _ _ b2) by done. cbn [mbind res_bind].
  unfold processor_reply, ep_io_find. cbn [set_bufs with_buf w_ios w_mgr].
  change (w_ios w2) with (w_ios w1). change (w_mgr w2) with (w_mgr w1).
  pose proof (li_find _ _ _ _ _ L) as Hf. unfold ep_io_find in Hf. rewrite Hf. cbn [mbind res_bind]. unfold h_load. rewrite (li_load _ _ _ _ _ L). cbn [mbind res_bind].
  unfold queue_push, ep_queue_push. match goal with |- context [ep_calloc (w_al ?x)] => change (w_al x) with (w_al w1) end.
  rewrite (li_al _ _ _ _ _ L), ep_calloc_plenty by (unfold sizeof_ep_queue_body; lia).
  cbn [negb default from_option]. rewrite (h_store_ok _ _ _ io) by apply L. cbn [mbind res_bind].
  rewrite ep_calloc_plenty by (unfold sizeof_ep_queue_body; lia). cbn [negb default from_option].
  eexists _, (length (w_bufs w2)), ob. split; [done|]. split; [done|]. split; [done|]. split; [done|]. split.
  - cbn [w_bufs set_mgr set_al set_ios set_bufs]. fold w2 bufs3. rewrite list_lookup_insert_ne by lia. unfold bufs3. rewrite <- (length_insert (w_bufs w2) n0 (Some b2)). by rewrite list_lookup_middle.
  - rewrite Ob. change (is_client w1) with (is_client w2). rewrite <- Dt, <- D. by eapply (message_own w2 fd a io k).
Qed.

(** The last message queued for the connection. *)
Definition outgoing {W} (w : world W) (fd : Z) (bytes : list Z) : Prop :=
  exists a io o ob, ep_io_find w fd = Ok (Some a) /\ w_ios w !! a = Some (Some io) /\ last (q_items (io_send io)) = Some o /\
    w_bufs w !! o = Some (Some ob) /\ buf_data ob = bytes.

Lemma sender_line w fd ca k sent : sender_ok w fd ca k sent -> exists io, line_ok w fd ca io k.
Proof.
  intros [Al Cl Li (io & Hio & Hfd & Hk & _)]. exists io. constructor; [done| |done|done]. unfold ep_io_find. rewrite Li. cbn [io_find].
  unfold h_load. rewrite Hio. cbn [mbind res_bind]. by rewrite Hfd, Z.eqb_refl.
Qed.

(** What the sender last took is going out. *)
Lemma sender_outgoing w fd ca k sent x : sender_ok w fd ca k (sent ++ [x]) -> exists bytes, outgoing w fd bytes /\ framed k x bytes.
Proof.
  intros S. destruct (sender_line _ _ _ _ _ S) as [io' Li]. destruct S as [_ _ _ (io & Hio & _ & _ & Hf)].
  apply Forall2_app_inv_l in Hf as (l1 & l2 & _ & H2 & El). apply Forall2_cons_inv_l in H2 as (o & l3 & (ob & Ho & Hfr) & H3 & ->).
  apply Forall2_nil_inv_l in H3 as ->. exists (buf_data ob). split; [|done]. exists ca, io, o, ob.
  split; [apply Li|]. split; [done|]. split; [by rewrite El, last_snoc|]. done.
Qed.

Lemma framed_message k p data bytes : framed k (p, Some data) bytes -> message true k (req_shell p) data bytes.
Proof.
  intros (s2 & Hh & b & b1 & b2 & Hb & Wr & Ib & Db). by exists s2, b, b1, b2.
Qed.

(** The client's side of an answer: it is queued for the request of its category. *)
Lemma client_takes (w : world cstate) rs fd s2 q a m :
  w_cb w = Ok rs -> mg_disp (w_mgr w) = m -> disp_map m !! p_category (s_proto s2) = Some (ep_req_default_dispatcher a) ->
  p_type (s_proto s2) = req_type_post ->
  processor_run beyond (fun _ => None) w fd s2 (Some q) = Ok (set_cb w (req_push rs a (Some q))).
Proof.
  intros Hcb Hm Hd Ht. unfold processor_run, processor_dispatch. rewrite Hm, (processor_some _ _ _ _ _ _ Hd).
  unfold ep_req_default_dispatcher. rewrite Hcb. cbn [mbind res_bind]. by rewrite Ht.
Qed.

(** A server connection whose category is answered by [cb]. *)
Record serving {W} (internal : Z -> option (world W -> Z -> option ep_pack -> res (option ep_pack * world W))) (w : world W) (fd : Z) (k : ep_aes_key) (category : Z) (cb : pfn_ep_cb ep_pack W) : Prop := {
  sg_line : exists a io, line_ok w fd a io k;
  sg_server : is_client w = false;
  sg_cb : disp_map (mg_disp (w_mgr w)) !! category = Some cb;
  sg_internal : internal category = None;
}.

Lemma server_turn {W} internal (w : world W) fd k p f g cb bytes t :
  serving internal w fd k (pr_category p) cb -> sendable f -> zlen (enc_fields g) + 5 <= 268435455 -> pr_type p = req_type_get ->
  message true k (req_shell p) (doc (enc_fields f)) bytes -> arrived w fd bytes t ->
  exists q, ep_pack_data q = doc (enc_fields f) /\
    forall r rc st, cb (w_cb w) fd (Some q) = (Some r, rc, st) -> finishes_as r g ->
    exists w' bytes', ep_io_processor beyond internal w t = Ok w' /\ w_cb w' = st /\ outgoing w' fd bytes' /\
      message false k (set_type (req_shell p) req_type_post) (doc (enc_fields g)) bytes'.
Proof.
  intros [(a & io & L) Sv Hcb Hi] Sf Sg Ht Hm Ha.
  destruct (process_in internal w fd a io k true (req_shell p) f bytes t L) as (s2 & q & x & Ep & Lx & Dq & Oks & Hh); [by rewrite Sv|done|done|done|done|].
  destruct Hh as (Hh1 & Hh2 & Hh3 & Hh4). cbn in Hh1, Hh2, Hh3. exists q. split; [done|]. intros r rc st Hr Hc.
  assert (processor_dispatch internal (without w x) (p_category (s_proto s2)) fd (Some q) = Ok (Some r, set_cb (without w x) st)) as Hd.
  { unfold processor_dispatch. rewrite Hh2, Hi. cbn [without w_mgr set_bufs w_cb]. by rewrite (processor_some _ _ _ _ _ cb Hcb), Hr. }
  destruct (process_out internal (without w x) (set_cb (without w x) st) fd a io k s2 (Some q) r g) as (w' & o & ob & E & Hst & Hio & Hli & Hob & Hms);
    [done|by destruct L|done|by rewrite Hh3, Ht|done|done|].
  exists w', (buf_data ob). rewrite Ep. split; [exact E|]. split; [by rewrite Hst|]. split.
  - exists a, (io_set_send io (mk_queue (q_items (io_send io) ++ [o]) (q_stop_sign (io_send io)))), o, ob. split; [|split; [|split; [|done]]].
    + unfold ep_io_find. rewrite Hli, Hio. cbn. eapply find_store; [apply L|done|]. apply (li_find _ _ _ _ _ L).
    + rewrite Hio. cbn. apply list_lookup_insert_eq. by eapply lookup_lt_Some, L.
    + cbn. by rewrite last_snoc.
  - cbn in Hms. change (is_client (set_cb (without w x) st)) with (is_client w) in Hms. rewrite Sv in Hms.
    destruct Hms as (s3 & b & b1 & b2 & (G1 & G2 & G3 & G4) & G). exists s3, b, b1, b2. split; [|exact G]. cbn in G1, G2, G3. split; [by rewrite G1|]. split; [by rewrite G2|]. split; [exact G3|]. intros cl. rewrite G4. apply (Hh4 cl).
Qed.

Lemma client_turn base c ca k s p g bytes t a timeout sec usec :
  in_flight base c ca k s -> fl_pend s !! a = Some (pr_category p, []) -> sendable g ->
  message false k (set_type (req_shell p) req_type_post) (doc (enc_fields g)) bytes -> arrived (cl_io c) (cl_fd c) bytes t ->
  exists q w' c', ep_io_processor beyond (fun _ => None) (cl_io c) t = Ok w' /\ ep_pack_data q = doc (enc_fields g) /\
    ep_req_wait_enter (set_io c w') a timeout sec usec = Ok (WRet 1 (Some q) c').
Proof.
  intros F Ha Sg Hm Har. destruct F as [Fd So (hs & Hcb & Hh) Re Di]. destruct (sender_line _ _ _ _ _ So) as [io L].
  destruct (process_in (fun _ => None) (cl_io c) (cl_fd c) ca io k false (set_type (req_shell p) req_type_post) g bytes t L) as (s2 & q & x & Ep & Lx & Dq & Oks & Hhd);
    [by rewrite (so_client _ _ _ _ _ So)|done|done|exact Hm|done|].
  destruct Hhd as (Hh1 & Hh2 & Hh3 & _). cbn in Hh1, Hh2, Hh3. destruct (ro_pend _ _ _ Re a _ _ Ha) as [Hd _].
  rewrite (client_takes (without (cl_io c) x) (mk_requests hs []) _ s2 q a (mg_disp (w_mgr (cl_io c)))) in Ep; [|done|done|by rewrite Hh2|done].
  exists q. pose proof (handles_load _ _ _ _ _ Hh Ha) as Hl.
  unfold req_push, h_load in Ep. cbn [rs_handles rs_al] in Ep. rewrite Hl in Ep. cbn [mbind res_bind handle_of rq_queue ep_queue_push] in Ep.
  rewrite ep_calloc_plenty in Ep by (unfold sizeof_ep_queue_body; lia). cbn [negb] in Ep.
  rewrite (h_store_ok _ _ _ _ Hl) in Ep. cbn [mbind res_bind] in Ep. rewrite Ep. eexists _, _. split; [done|]. split; [done|].
  unfold ep_req_wait_enter. cbn [set_io cl_io w_cb set_cb mbind res_bind rs_handles]. unfold h_load.
  assert (a < length hs)%nat by (by eapply lookup_lt_Some). rewrite list_lookup_insert_eq by done. cbn [mbind res_bind set_queue rq_req rq_queue handle_of].
  change (0 =? req_type_post) with false. cbv iota. unfold ep_queue_get_enter. cbn [q_items app fst snd get_take q_stop_sign].
  unfold wait_result. cbn [rs_handles]. unfold h_store. rewrite list_lookup_insert_eq by done. cbn [mbind res_bind default]. done.
Qed.

Lemma finishes_packable p f : finishes_as p f -> zlen (enc_fields f) + 5 <= 268435455 -> packable p.
Proof.
  intros (p1 & F1 & F2 & Sz & _ & Ln) H. pose proof (zlen_nonneg (enc_fields f)).
  exists p1, (zlen (enc_fields f) + 5). do 3 (split; [done|]). split; [lia|done].
Qed.

Lemma finishes_bytes ty cat cc cz sc sz p f : finishes_as p f -> pack_bytes (mk_param ty cat cc cz sc sz (Some p)) = Some (doc (enc_fields f)).
Proof. intros (p1 & F1 & _ & Sz & Dt & _). unfold pack_bytes. cbn. by rewrite F1, Sz, Dt. Qed.

(** The request is sent: the handle, and the message that goes out. *)
Lemma client_sends base c ca k s ty cat cc cz sc sz pk f :
  let p := mk_param ty cat cc cz sc sz (Some pk) in
  in_flight base c ca k s -> proto_ok (s_proto (req_shell p)) -> finishes_as pk f -> zlen (enc_fields f) + 5 <= 268435455 ->
  zlen (enc_fields f) + 5 <= cl_io_max_capacity c -> ~ busy base s cat ->
  exists a c1 s1 bytes, ep_req_new beyond (Some c) p = Ok (Some a, 0, Some c1) /\ in_flight base c1 ca k s1 /\
    fl_pend s1 !! a = Some (cat, []) /\ outgoing (cl_io c1) (cl_fd c1) bytes /\ message true k (req_shell p) (doc (enc_fields f)) bytes /\
    fl_pend s1 = <[a := (cat, [])]> (fl_pend s) /\ fl_pend s !! a = None.
Proof.
  intros p F Hp Hc Hs Hm Hb. assert (pack_bytes p = Some (doc (enc_fields f))) as Eb by (by apply finishes_bytes).
  destruct (new_step beyond Hbeyond base c ca k s p F) as (a & r & c1 & E & Er & F1 & _).
  { split; [done|]. cbn. by eapply finishes_packable. }
  unfold spec_new in Er, F1. assert (pack_len p = zlen (enc_fields f) + 5) as El by (unfold pack_len; rewrite Eb; cbn; apply zlen_doc).
  rewrite El in Er, F1. rewrite (proj2 (Z.ltb_ge (cl_io_max_capacity c) (zlen (enc_fields f) + 5))) in Er, F1 by done.
  change (pr_category p) with cat in Er, F1. rewrite decide_False in Er, F1 by done. cbn in Er. injection Er as -> ->.
  destruct (sender_outgoing _ _ _ _ _ _ (if_sender _ _ _ _ _ F1)) as (bytes & Ho & Hf). rewrite Eb in Hf.
  eexists (fl_next s), c1, _, bytes. split; [done|]. split; [exact F1|]. split; [cbn; by rewrite lookup_insert_eq|]. split; [done|].
  split; [by apply framed_message|]. split; [done|]. destruct (if_handles _ _ _ _ _ F) as (hs & _ & Hh). by apply (ho_fresh _ _ _ Hh).
Qed.

End rpc.

(** ** Properties *)

(** C3: A request makes the whole trip. [ep_req_new] queues one message for the client's connection.
    A server that receives it as a frame, with the same key, calls the callback registered for the
    category with a packet that holds exactly the fields of the request, and queues one message
    with the answer. A client that receives that message as a frame hands the waiting request a
    packet with exactly the fields of the answer. Any modes of compression and encryption. Both
    packets are [sendable]: their size is under the limit of a packet and not a multiple of 256,
    since the receiver refuses a packet of such a size ([pack_create_refuses_256]). *)
Theorem rpc_roundtrip `{CL : CodecLaws} {W : Type} (beyond : list Z) internal base c ca k s cat cc cz sc sz pk f g (ws : world W) fds cb :
  let p := mk_param req_type_get cat cc cz sc sz (Some pk) in
  16 <= zlen beyond -> in_flight base c ca k s -> proto_ok (s_proto (req_shell p)) -> finishes_as pk f -> sendable f -> sendable g ->
  zlen (enc_fields f) + 5 <= cl_io_max_capacity c -> ~ busy base s cat -> serving internal ws fds k cat cb ->
  exists a c1 s1 bytes, ep_req_new beyond (Some c) p = Ok (Some a, 0, Some c1) /\ in_flight base c1 ca k s1 /\
    fl_pend s1 !! a = Some (cat, []) /\ outgoing (cl_io c1) (cl_fd c1) bytes /\
  forall t, arrived ws fds bytes t ->
  exists q, ep_pack_data q = doc (enc_fields f) /\
  forall r rc st, cb (w_cb ws) fds (Some q) = (Some r, rc, st) -> finishes_as r g ->
  exists ws' bytes', ep_io_processor beyond internal ws t = Ok ws' /\ w_cb ws' = st /\ outgoing ws' fds bytes' /\
  forall c2 s2 t2 timeout sec usec, in_flight base c2 ca k s2 -> fl_pend s2 !! a = Some (cat, []) -> arrived (cl_io c2) (cl_fd c2) bytes' t2 ->
  exists q' w' c', ep_io_processor beyond (fun _ => None) (cl_io c2) t2 = Ok w' /\ ep_pack_data q' = doc (enc_fields g) /\
    ep_req_wait_enter (set_io c2 w') a timeout sec usec = Ok (WRet 1 (Some q') c').
Proof.
  intros p Hb F Hp Hc Sf Sg Hm Hn Sv.
  destruct (client_sends beyond Hb base c ca k s req_type_get cat cc cz sc sz pk f F Hp Hc (proj1 Sf) Hm Hn)
    as (a & c1 & s1 & bytes & E & F1 & Hp1 & Ho & Ms & _).
  exists a, c1, s1, bytes. do 4 (split; [done|]). intros t Ht.
  destruct (server_turn beyond Hb internal ws fds k p f g cb bytes t Sv Sf (proj1 Sg) eq_refl Ms Ht) as (q & Dq & Hq). exists q. split; [done|].
  intros r rc st Hr Hg. destruct (Hq r rc st Hr Hg) as (ws' & bytes' & Ep & Hst & Ho' & Ms'). exists ws', bytes'. do 3 (split; [done|]).
  intros c2 s2 t2 timeout sec usec F2 Hp2 Ht2. by eapply (client_turn beyond Hb base c2 ca k s2 p g bytes' t2).
Qed.

(** A server with the callback of category 7, which answers with [r]. *)
Definition demo_answer : ep_pack := match build_pack [] (FCons [114] (VStr [111; 107]) FNil) with Ok (Some p) => p | _ => demo_pack end.

Definition demo_server : world nat :=
  mk_world (mk_mgr ep_io_refor_server (mk_disp_mgr [mk_disp 7 (fun n _ _ => (Some demo_answer, true, S n))]) (mk_queue [] 0) 0 (mk_tp [] 1 0) 64 1024 4096 [0%nat])
    [Some (demo_io 5 [])] [] [] 0%nat [].

Lemma demo_finishes : finishes_as demo_pack (FCons [107] (VInt 3) FNil) /\ finishes_as demo_answer (FCons [114] (VStr [111; 107]) FNil).
Proof. split; (eexists; split; [vm_compute; reflexivity|]; split; [vm_compute; reflexivity|]; split; [vm_compute; reflexivity|]; split; [vm_compute; reflexivity|by vm_compute]). Qed.

Lemma demo_serving : serving (fun _ => None) demo_server 5 demo_key 7 (fun n _ _ => (Some demo_answer, true, S n)).
Proof. constructor; [|done|vm_compute; reflexivity|done]. by exists 0%nat, (demo_io 5 []). Qed.

(** The request is sent, and whatever task its message becomes at the server, the callback is
    called once and the answer goes out. *)
Lemma rpc_roundtrip_witness :
  exists a c1 bytes, ep_req_new (C := toy_codec) (junk 16) (Some demo_client) demo_param = Ok (Some a, 0, Some c1) /\
    outgoing (cl_io c1) (cl_fd c1) bytes /\
    forall t, arrived demo_server 5 bytes t ->
    exists ws' bytes', ep_io_processor (C := toy_codec) (junk 16) (fun _ => None) demo_server t = Ok ws' /\ w_cb ws' = 1%nat /\ outgoing ws' 5 bytes'.
Proof.
  destruct (rpc_roundtrip (CL := toy_laws) (junk 16) (fun _ => None) ∅ demo_client 0 demo_key (mk_flight 0 ∅ [] []) 7 1 2 1 2 demo_pack
    (FCons [107] (VInt 3) FNil) (FCons [114] (VStr [111; 107]) FNil) demo_server 5 (fun n _ _ => (Some demo_answer, true, S n)))
    as (a & c1 & s1 & bytes & E & _ & _ & Ho & H).
  - by vm_compute.
  - exact demo_in_flight.
  - constructor; cbn; unfold is_u16, req_type_get; lia.
  - exact (proj1 demo_finishes).
  - by vm_compute.
  - by vm_compute.
  - by vm_compute.
  - intros [H|(x & y & H & _)]; [by apply not_elem_of_empty in H|done].
  - exact demo_serving.
  - exists a, c1, bytes. split; [exact E|]. split; [exact Ho|]. intros t Ht. destruct (H t Ht) as (q & _ & Hq).
    destruct (Hq demo_answer true 1%nat eq_refl (proj2 demo_finishes)) as (ws' & bytes' & Ep & Hst & Ho' & _). exists ws', bytes'. exact (conj Ep (conj Hst Ho')).
Defined.

End Rpc.
