(* ===== verification/Handshake.v ===== *)
(** * Handshake: the exchange of keys over the wire

    [ep_cert_client_security] ([Client]) against [ep_cert_server_security] ([Cert]) with everything in
    between: the request ([Request]), the frames ([Io]), the dispatch of the internal category
    ([Service]) and the answer, which the server already encrypts with the new key. *)
From stdpp Require Import gmap.
From S2P Require Import Prelude Alloc RingBuffer Queue Words Buffer Dispatch ThreadPool Bson Packet PackLoop Io IoSpec Request Cert Service Client Rpc.
Import Alloc RingBuffer Queue Words Buffer Dispatch ThreadPool Bson Packet PackLoop Io IoSpec Request Cert Client Rpc.
Import Service(EP_CATEGORY_INTERNAL_KEY, service_internal).

Module Handshake.

(** ** Waiting for an answer *)

Section waiting.
Context `{CL : CodecLaws} (beyond : list Z) (Hbeyond : 16 <= zlen beyond).
#[local] Set Default Proof Using "Type*".

(** The only request of its category gets the answer. *)
Lemma only_answer (pend : gmap nat (Z * list (option ep_pack))) a id q :
  pend !! a = None -> ~ map_Exists (fun _ x => x.1 = id) pend ->
  (fun x : Z * list (option ep_pack) => if x.1 =? id then (x.1, x.2 ++ [Some q]) else x) <$> <[a := (id, [])]> pend = <[a := (id, [Some q])]> pend.
Proof.
  intros Ha Hn. rewrite fmap_insert. cbn. rewrite Z.eqb_refl. f_equal. apply map_eq. intros b. rewrite lookup_fmap.
  destruct (pend !! b) as [[c3 l3]|] eqn:Hb3; [|done]. cbn. destruct (Z.eqb_spec c3 id) as [->|]; [|done]. destruct Hn. by exists b, (id, l3).
Qed.

(** A request that has to wait, is answered meanwhile, and is destroyed. *)
Lemma wait_answered base env c1 c2 ca key s1 a id q timeout sec usec wait_r :
  in_flight base c1 ca key s1 -> fl_pend s1 !! a = Some (id, []) -> 0 < timeout -> env c1 = Ok c2 ->
  in_flight base c2 ca key (set_pend s1 (<[a := (id, [Some q])]> (fl_pend s1))) ->
  exists c3 c4, ep_req_wait env c1 a timeout sec usec wait_r = Ok (1, Some q, c3) /\ ep_req_destroy c3 a = Ok c4 /\
    in_flight base c4 ca key (set_pend s1 (delete a (fl_pend s1))) /\ cl_io_max_capacity c4 = cl_io_max_capacity c2 /\
    ep_io_get_aes (cl_io c4) (cl_fd c4) = Ok (Some key).
Proof using All.
  intros F1 Ha Ht Hv F2.
  pose proof (wait_step_ok beyond Hbeyond base c1 ca key s1 a timeout sec usec F1) as St.
  unfold step_agrees, spec_step, spec_take in St. rewrite Ha in St. rewrite (proj2 (Z.ltb_lt 0 timeout) Ht) in St.
  destruct St as (c0 & E2 & _). unfold req_step in E2. unfold ep_req_wait.
  destruct (ep_req_wait_enter c1 a timeout sec usec) as [[? ? ?|d]|]; [done| |done]. clear E2 c0. cbn [mbind res_bind]. rewrite Hv. cbn [mbind res_bind].
  set (s2 := set_pend s1 _) in F2.
  pose proof (wake_step_ok beyond Hbeyond base c2 ca key s2 a wait_r F2) as St. unfold step_agrees, spec_step, spec_take, req_step in St.
  assert (fl_pend s2 !! a = Some (id, [Some q])) as Ha2 by (cbn; by rewrite lookup_insert_eq). rewrite Ha2 in St. destruct St as (c3 & E3 & F3 & Hc3 & _).
  destruct (ep_req_wait_wake c2 a wait_r) as [[[ret p] c3']|]; [|done]. cbn [mbind res_bind] in E3 |- *. injection E3 as -> -> ->.
  set (s3 := set_pend s2 _) in F3. pose proof (destroy_step_ok beyond Hbeyond base c3 ca key s3 a F3) as St.
  unfold step_agrees, spec_step, req_step in St. assert (fl_pend s3 !! a = Some (id, [])) as Ha3 by (cbn; by rewrite lookup_insert_eq).
  rewrite Ha3 in St. destruct St as (c4 & E4 & F4 & Hc4 & _). destruct (ep_req_destroy c3 a) as [c4'|] eqn:Ed; [|done]. cbn [mbind res_bind] in E4 |- *.
  injection E4 as ->. exists c3, c4. split; [done|]. split; [done|]. split; [|split; [lia|]].
  - replace (set_pend s1 (delete a (fl_pend s1))) with (set_pend s3 (delete a (fl_pend s3))); [done|]. unfold set_pend. cbn. f_equal.
    rewrite !delete_insert_eq. done.
  - destruct (sender_line _ _ _ _ _ (if_sender _ _ _ _ _ F4)) as [io L]. by eapply line_aes.
Qed.

End waiting.

(** ** The two sides *)

Section exchange.
Context `{CL : CodecLaws} `{KL : CryptoLaws} (beyond : list Z) (Hbeyond : 16 <= zlen beyond).
#[local] Set Default Proof Using "All".

(** Without encryption the key plays no part. *)
Lemma message_plain cl k k' s data bytes : crypt_of cl s <> crypt_type_encrypt -> message cl k s data bytes -> message cl k' s data bytes.
Proof.
  intros Hc (s2 & b & b1 & b2 & Hh & Hb & Wr & I & D). exists s2, b, b1, b2. split_and!; try done.
  destruct Wr as [W1 W2 W3 W4 W5 W6 W7 W8 W9]. constructor; try done. revert W9. unfold sealed.
  destruct Hh as (_ & _ & _ & Hh). rewrite Hh. by rewrite (proj2 (Z.eqb_neq _ _) Hc).
Qed.

(** The frame of a message in a buffer, processed. *)
Definition deliver (s : ep_shell) (b : ep_buffer) (c : client) : res client :=
  let w := cl_io c in
  w ← ep_io_processor beyond (fun _ => None) (set_bufs w (w_bufs w ++ [Some b])) (mk_task (cl_fd c) s (Some (length (w_bufs w))));
  Ok (set_io c w).

Lemma more_bufs base c ca k s x : in_flight base c ca k s -> in_flight base (set_io c (set_bufs (cl_io c) (w_bufs (cl_io c) ++ [x]))) ca k s.
Proof.
  intros [Fd [S1 S2 S3 (io & H1 & H2 & H3 & H4)] Ha Re Di]. constructor; try done. constructor; try done. exists io. split_and!; try done.
  eapply Forall2_impl; [exact H4|]. intros y o (ob & Ho & Hf). exists ob. split; [by apply lookup_app_l_Some|done].
Qed.

(** The request of its category gets the packet of the message. *)
Lemma delivered base ca k s a p g bytes s2 b :
  fl_pend s !! a = None -> ~ busy base s (pr_category p) -> sendable g ->
  message false k (set_type (req_shell p) req_type_post) (doc (enc_fields g)) bytes ->
  parse 2 WIRE_MAX None bytes = ([mk_frame s2 (buf_data b)], PHeader, []) -> buf_inv b ->
  forall c1, in_flight base c1 ca k (set_pend s (<[a := (pr_category p, [])]> (fl_pend s))) ->
  exists q c2, deliver s2 b c1 = Ok c2 /\ ep_pack_data q = doc (enc_fields g) /\
    in_flight base c2 ca k (set_pend s (<[a := (pr_category p, [Some q])]> (fl_pend s))) /\ cl_io_max_capacity c2 = cl_io_max_capacity c1.
Proof.
  intros Hn Hbusy Sg Hm Hp Ib c1 F1. set (w := set_bufs (cl_io c1) (w_bufs (cl_io c1) ++ [Some b])).
  set (x := length (w_bufs (cl_io c1))). unfold deliver. fold w x.
  pose proof (more_bufs _ _ _ _ _ (Some b) F1) as Fw. fold w in Fw. destruct Fw as [Fd So (hs & Hcb & Hh) Re Di]. cbn [set_io cl_io cl_fd] in *.
  destruct (sender_line _ _ _ _ _ So) as [io L].
  destruct (process_in beyond Hbeyond (fun _ => None) w (cl_fd c1) ca io k false (set_type (req_shell p) req_type_post) g bytes (mk_task (cl_fd c1) s2 (Some x)) L)
    as (s3 & q & y & Ep & Ly & Dq & Oks & Hhd); [by rewrite (so_client _ _ _ _ _ So)|done|done|exact Hm| |].
  { exists s2, (buf_data b), x, b. split_and!; try done. cbn. by rewrite list_lookup_middle. }
  destruct Ly as [_ Ly]. injection Ly as <-. destruct Hhd as (Hh1 & Hh2 & Hh3 & _). cbn in Hh1, Hh2, Hh3.
  assert (Ha : fl_pend (set_pend s (<[a := (pr_category p, [])]> (fl_pend s))) !! a = Some (pr_category p, [])) by (cbn; by rewrite lookup_insert_eq).
  destruct (ro_pend _ _ _ Re a _ _ Ha) as [Hd _].
  rewrite (client_takes beyond Hbeyond (without w x) (mk_requests hs []) _ s3 q a (mg_disp (w_mgr (cl_io c1)))) in Ep; [|done|done|by rewrite Hh2|done].
  rewrite Ep. cbn [mbind res_bind]. exists q. eexists. split; [reflexivity|]. split; [done|].
  set (c0 := set_io c1 (without w x)).
  assert (F0 : in_flight base c0 ca k (set_pend s (<[a := (pr_category p, [])]> (fl_pend s)))).
  { pose proof (more_bufs _ _ _ _ _ None F1) as H. replace c0 with (set_io c1 (set_bufs (cl_io c1) (w_bufs (cl_io c1) ++ [None]))); [done|].
    unfold c0, without, w. cbn. f_equal. unfold set_bufs. cbn. f_equal. unfold x.
    rewrite insert_app_r_alt, Nat.sub_diag by lia. done. }
  pose proof (response_step_ok beyond Hbeyond base c0 ca k _ (pr_category p) (cl_fd c1) (Some q) F0) as St.
  assert (pr_category p ∉ base) as Hib by (intros ?; apply Hbusy; by left). specialize (St Hib).
  unfold step_agrees, spec_step, req_step in St. destruct St as (c2 & E2 & F2 & Hc2 & _).
  assert (Er : respond c0 (pr_category p) (cl_fd c1) (Some q) = ((respond c0 (pr_category p) (cl_fd c1) (Some q)).1, set_io c1 (set_cb (without w x) (req_push (mk_requests hs []) a (Some q))))).
  { unfold respond. cbn [c0 set_io cl_io]. change (mg_disp (w_mgr (without w x))) with (mg_disp (w_mgr (cl_io c1))).
    rewrite (processor_some _ _ _ _ _ _ Hd). unfold ep_req_default_dispatcher. change (w_cb (without w x)) with (w_cb w). rewrite Hcb. cbn. done. }
  rewrite Er in E2. injection E2 as _ <-. cbn [fl_pend set_pend] in F2. rewrite only_answer in F2; [exact (conj F2 eq_refl)|done|].
  intros (b' & y & Hy & Ey). apply Hbusy. right. by exists b', y.
Qed.

(** The client's key is in place before anything is sent. *)
Lemma hello_sent base c ca k s curtime seed :
  in_flight base c ca k s -> fl_sent s = [] ->
  exists hello x w b, client_hello (cl_io c) (cl_fd c) curtime seed = Ok (Some hello, w) /\
    in_flight base (set_io c w) ca (client_aes curtime) s /\ finishes_as hello (hello_fields x) /\ zlen x = 128 /\ Forall is_byte x /\
    slice (ep_buffer_ptr b) 0 (ep_buffer_size b) = Ok (doc (enc_fields (key_fields (client_aes curtime)))) /\
    ep_buffer_size b = 57 /\ forall rest, ep_cert_server_decrypt [] (x ++ rest) 128 = Ok (Some b, []).
Proof.
  intros F Hs. destruct F as [Fd So Ha Re Di]. destruct (sender_line _ _ _ _ _ So) as [io' L]. destruct So as [S1 S2 S3 (io & H1 & H2 & H3 & H4)].
  destruct (hello_spec (cl_io c) (cl_fd c) ca io curtime seed) as (hello & x & E & Eb & Lx & Bx & b & Sl & Sz & D); [apply L|done|done|].
  eexists hello, x, _, b. split; [exact E|]. split_and!; try done.
  - constructor; try done. cbn [set_io cl_io cl_fd]. constructor; try done. exists (io_set_aes io (client_aes curtime)). cbn.
    split; [apply list_lookup_insert_eq; by eapply lookup_lt_Some|]. split_and!; try done. rewrite Hs in *. apply Forall2_nil_inv_l in H4. by rewrite H4.
  - destruct (hello_fields_fit x Bx Lx) as [Fh _]. by apply built_finishes.
Qed.

(** The server answers the hello under the key it has just stored. *)
Lemma hello_answered {W} (ws : world W) fds a io k0 k p x b curtime bytes t :
  line_ok ws fds a io k0 -> is_client ws = false -> pr_category p = EP_CATEGORY_INTERNAL_KEY -> pr_type p = req_type_get -> pr_c_crypt p <> crypt_type_encrypt ->
  zlen x = 128 -> Forall is_byte x ->
  slice (ep_buffer_ptr b) 0 (ep_buffer_size b) = Ok (doc (enc_fields (key_fields (client_aes curtime)))) -> ep_buffer_size b = 57 ->
  (forall rest, ep_cert_server_decrypt [] (x ++ rest) 128 = Ok (Some b, [])) ->
  message true k (req_shell p) (doc (enc_fields (hello_fields x))) bytes -> arrived ws fds bytes t ->
  exists ws' bytes', ep_io_processor beyond service_internal ws t = Ok ws' /\ w_cb ws' = w_cb ws /\
    ep_io_get_aes ws' fds = Ok (Some (client_aes curtime)) /\ outgoing ws' fds bytes' /\
    message false (client_aes curtime) (set_type (req_shell p) req_type_post) (doc (enc_fields (result_fields 1))) bytes'.
Proof.
  intros L Sv Hcat Hty Hcc Lx Bx Sl Sz D Hm Har. destruct (hello_fields_fit x Bx Lx) as [Fh Lh].
  apply (message_plain true k k0) in Hm; [|done].
  destruct (process_in beyond Hbeyond service_internal ws fds a io k0 true (req_shell p) (hello_fields x) bytes t L)
    as (s2 & q & y & Ep & _ & Dq & Oks & Hh1 & Hh2 & Hh3 & Hh4); [by rewrite Sv|done|by unfold sendable; rewrite Lh|done|done|]. cbn in Hh1, Hh2, Hh3.
  set (aes := client_aes curtime) in *. assert (L1 : line_ok (without ws y) fds a io k0) by (by destruct L).
  destruct (server_spec (without ws y) fds a io aes q x b) as (reply & w1 & Es & Br & _ & Ew);
    [apply L1|apply L1|apply L1|apply client_aes_ok|apply client_aes_verifies|done..|].
  destruct (result_fields_fit 1) as [Fr Lr]; [by vm_compute|].
  assert (L2 : line_ok w1 fds a (io_set_aes io aes) aes).
  { rewrite Ew. destruct L1 as [A1 A2 A3 A4]. constructor; try done.
    - unfold ep_io_find, set_ios. cbn [w_ios w_mgr]. by rewrite (find_store _ _ io (io_set_aes io aes) _ _ (Some a)).
    - cbn. apply list_lookup_insert_eq. by eapply lookup_lt_Some. }
  destruct (process_out beyond Hbeyond service_internal (without ws y) w1 fds a (io_set_aes io aes) aes s2 (Some q) reply (result_fields 1))
    as (w' & o & ob & E & Hst & Hio & Hli & Hob & Hms); [|done|done|by rewrite Hh3, Hty|by apply built_finishes|by rewrite Lr|].
  { unfold processor_dispatch, service_internal. rewrite Hh2, Hcat, Z.eqb_refl. exact Es. }
  exists w', (buf_data ob). rewrite Ep. split; [exact E|]. split; [rewrite Hst, Ew; done|].
  set (io2 := io_set_send _ _) in Hio. assert (Ha : w_ios w' !! a = Some (Some io2)).
  { rewrite Hio. apply list_lookup_insert_eq. by eapply lookup_lt_Some, L2. }
  assert (Hf : ep_io_find w' fds = Ok (Some a)).
  { unfold ep_io_find. rewrite Hli, Hio. eapply find_store; [apply L2|done|]. apply (li_find _ _ _ _ _ L2). }
  split; [unfold ep_io_get_aes, h_load; rewrite Hf; cbn [mbind res_bind]; by rewrite Ha|]. split.
  - exists a, io2, o, ob. split_and!; try done. cbn. by rewrite last_snoc.
  - assert (Ec : is_client w1 = false) by (rewrite Ew; exact Sv). rewrite Ec in Hms.
    destruct Hms as (s3 & b0 & b1 & b2 & (G1 & G2 & G3 & G4) & G). exists s3, b0, b1, b2. split; [|exact G]. cbn in G1, G2, G3.
    split; [by rewrite G1|]. split; [by rewrite G2|]. split; [exact G3|]. intros cl. rewrite G4. apply (Hh4 cl).
Qed.

End exchange.

(** ** Properties *)

(** C5: The exchange of keys works over the wire. A client that has sent nothing yet queues one message
    that is not encrypted. A server that receives it as a frame, whatever key it has for the
    connection, stores the client's key, and queues an answer that is encrypted with it. When the
    frame of that answer is processed while [ep_cert_client_security] waits, the call answers 1,
    both sides hold the same key, and the request is gone. For any time, any random padding, and any
    implementation of compression, AES, MD5 and RSA that keeps their laws. *)
Theorem handshake_over_wire `{CL : CodecLaws} `{KL : CryptoLaws} {W : Type} (beyond : list Z) base c ca k s curtime seed (ws : world W) fds a io k0 :
  16 <= zlen beyond -> in_flight base c ca k s -> fl_sent s = [] -> ~ busy base s EP_CATEGORY_INTERNAL_KEY -> 200 <= cl_io_max_capacity c ->
  line_ok ws fds a io k0 -> is_client ws = false ->
  exists hello w h c1 bytes aes,
    client_hello (cl_io c) (cl_fd c) curtime seed = Ok (Some hello, w) /\
    ep_req_new beyond (Some (set_io c w)) (security_param hello) = Ok (Some h, 0, Some c1) /\ outgoing (cl_io c1) (cl_fd c1) bytes /\
  forall t, arrived ws fds bytes t ->
  exists ws' bytes', ep_io_processor beyond service_internal ws t = Ok ws' /\ w_cb ws' = w_cb ws /\
    ep_io_get_aes ws' fds = Ok (Some aes) /\ ep_cert_verify_client_key aes = Ok 1 /\ outgoing ws' fds bytes' /\
  forall s2 b timeout sec usec wait_r,
    parse 2 WIRE_MAX None bytes' = ([mk_frame s2 (buf_data b)], PHeader, []) -> buf_inv b -> 0 < timeout ->
  exists c' s', ep_cert_client_security beyond (deliver beyond s2 b) c curtime seed timeout sec usec wait_r = Ok (1, c') /\
    ep_io_get_aes (cl_io c') (cl_fd c') = Ok (Some aes) /\ in_flight base c' ca aes s' /\ fl_pend s' = fl_pend s.
Proof.
  intros Hb F Hs Hbusy Hcap L Sv.
  destruct (hello_sent beyond Hb base c ca k s curtime seed F Hs) as (hello & x & w & b & Eh & Fw & Fin & Lx & Bx & Sl & Sz & D).
  destruct (hello_fields_fit x Bx Lx) as [Fh Lh]. destruct (result_fields_fit 1) as [Fr Lr]; [by vm_compute|].
  destruct (client_sends beyond Hb base (set_io c w) ca (client_aes curtime) s req_type_get EP_CATEGORY_INTERNAL_KEY 0 compress_type_auto crypt_type_encrypt compress_type_auto hello (hello_fields x))
    as (h & c1 & s1 & bytes & En & F1 & Hp & Ho & Ms & Es1 & Hn);
    [done|by constructor; cbn; unfold is_u16, EP_CATEGORY_INTERNAL_KEY, req_type_get, compress_type_auto, crypt_type_encrypt; lia|done|by rewrite Lh|rewrite Lh; cbn; lia|done|].
  exists hello, w, h, c1, bytes, (client_aes curtime). split; [done|]. split; [exact En|]. split; [done|]. intros t Ht.
  destruct (hello_answered beyond Hb ws fds a io k0 (client_aes curtime) (security_param hello) x b curtime bytes t)
    as (ws' & bytes' & Ep & Ecb & Ga & Ho' & Ms'); try done.
  exists ws', bytes'. do 3 (split; [done|]). split; [apply client_aes_verifies|]. split; [done|].
  intros s2 b2 timeout sec usec wait_r Hparse Ib Ht0.
  assert (Ef : forall P, set_pend (set_pend s1 (fl_pend s)) P = set_pend s1 P) by done.
  assert (F1' : in_flight base c1 ca (client_aes curtime) (set_pend s1 (<[h := (EP_CATEGORY_INTERNAL_KEY, [])]> (fl_pend s)))) by (rewrite <- Es1, set_pend_id; done).
  destruct (delivered beyond Hb base ca (client_aes curtime) (set_pend s1 (fl_pend s)) h (security_param hello) (result_fields 1) bytes' s2 b2) with (c1 := c1)
    as (q & c2 & Ed & Dq & F2 & _); [exact Hn|exact Hbusy|by unfold sendable; rewrite Lr|exact Ms'|exact Hparse|exact Ib|exact F1'|].
  rewrite Ef in F2. cbn [fl_pend set_pend] in F2. change (pr_category (security_param hello)) with EP_CATEGORY_INTERNAL_KEY in F2.
  destruct (wait_answered beyond Hb base (deliver beyond s2 b2) c1 c2 ca (client_aes curtime) s1 h EP_CATEGORY_INTERNAL_KEY q timeout sec usec wait_r)
    as (c3 & c4 & Ew & Ex & F4 & _ & Gc); [done|done|done|done|by rewrite Es1, insert_insert_eq|].
  exists c4, (set_pend s1 (delete h (fl_pend s1))). split; [|split; [done|split; [done|]]].
  - unfold ep_cert_client_security. rewrite Eh. cbn [mbind res_bind]. unfold security_param. rewrite En. cbn [mbind res_bind default from_option id]. rewrite Ew. cbn [mbind res_bind].
    change (1 =? 0) with false. cbv iota. rewrite (answer_spec q 1 []); [|by rewrite app_nil_r|by vm_compute]. cbn [mbind res_bind]. by rewrite Ex.
  - cbn. rewrite Es1. by rewrite delete_insert_id.
Qed.

(** The last message queued for a connection, computed. *)
Definition sent_bytes {W} (w : world W) (fd : Z) : list Z :=
  match ep_io_find w fd with
  | Ok (Some a) =>
      match w_ios w !! a with
      | Some (Some io) => match last (q_items (io_send io)) with Some o => match w_bufs w !! o with Some (Some ob) => buf_data ob | _ => [] end | None => [] end
      | _ => []
      end
  | _ => []
  end.

Lemma outgoing_sent {W} (w : world W) fd bytes : outgoing w fd bytes -> bytes = sent_bytes w fd.
Proof. intros (a & io & o & ob & H1 & H2 & H3 & H4 & H5). unfold sent_bytes. by rewrite H1, H2, H3, H4. Qed.

(** The frame of some bytes, its body in a buffer. *)
Definition frame_of (bytes : list Z) : ep_shell * ep_buffer :=
  match parse 2 WIRE_MAX None bytes with
  | ([f], _, _) => (f_shell f, demo_buf (f_body f))
  | _ => (req_shell demo_param, demo_buf [])
  end.

(** The bytes the demo client sends, and the server that has received them. *)
Definition demo_hello_bytes : list Z :=
  match client_hello (Cr := toy_crypto) (cl_io demo_client) (cl_fd demo_client) demo_time [] with
  | Ok (Some hello, w) =>
      match ep_req_new (C := toy_codec) (junk 16) (Some (set_io demo_client w)) (security_param hello) with
      | Ok (_, _, Some c1) => sent_bytes (cl_io c1) (cl_fd c1)
      | _ => []
      end
  | _ => []
  end.

Definition demo_receiver : world nat :=
  mk_world (mk_mgr ep_io_refor_server (mk_disp_mgr []) (mk_queue [] 0) 0 (mk_tp [] 1 0) 64 1024 4096 [0%nat])
    [Some (demo_io 5 [])] [Some (frame_of demo_hello_bytes).2] [] 0%nat [].

Definition demo_process : res (world nat) :=
  ep_io_processor (C := toy_codec) (junk 16) (service_internal (Cr := toy_crypto)) demo_receiver (mk_task 5 (frame_of demo_hello_bytes).1 (Some 0%nat)).

Definition demo_reply_bytes : list Z := match demo_process with Ok ws => sent_bytes ws 5 | Fault _ => [] end.

Lemma handshake_over_wire_witness : exists ws' c' aes,
  demo_process = Ok ws' /\ ep_io_get_aes ws' 5 = Ok (Some aes) /\
  ep_cert_client_security (C := toy_codec) (Cr := toy_crypto) (junk 16) (deliver (C := toy_codec) (junk 16) (frame_of demo_reply_bytes).1 (frame_of demo_reply_bytes).2)
    demo_client demo_time [] 2 0 0 0 = Ok (1, c') /\ ep_io_get_aes (cl_io c') (cl_fd c') = Ok (Some aes).
Proof.
  destruct (handshake_over_wire (CL := toy_laws) (KL := toy_crypto_laws) (junk 16) ∅ demo_client 0 demo_key (mk_flight 0 ∅ [] []) demo_time [] demo_receiver 5 0 (demo_io 5 []) demo_key)
    as (hello & w & h & c1 & bytes & aes & E1 & E2 & Ho & H).
  - by vm_compute.
  - exact demo_in_flight.
  - reflexivity.
  - intros [H|(x & y & H & _)]; [by apply not_elem_of_empty in H|done].
  - by vm_compute.
  - constructor; reflexivity.
  - reflexivity.
  - assert (Eb : bytes = demo_hello_bytes).
    { apply outgoing_sent in Ho. unfold demo_hello_bytes. rewrite E1, E2. exact Ho. }
    subst bytes. clear Ho E2 E1.
    destruct (H (mk_task 5 (frame_of demo_hello_bytes).1 (Some 0%nat))) as (ws' & bytes' & Ep & _ & Ga & _ & Ho & Hc).
    { eexists _, _, 0%nat, _. split; [vm_compute; reflexivity|]. split; [vm_compute; reflexivity|]. split; [vm_compute; reflexivity|].
      split; [constructor; vm_compute; intuition congruence|vm_compute; reflexivity]. }
    clear H. assert (Eb : bytes' = demo_reply_bytes).
    { apply outgoing_sent in Ho. unfold demo_reply_bytes, demo_process. rewrite Ep. exact Ho. }
    subst bytes'. clear Ho.
    destruct (Hc (frame_of demo_reply_bytes).1 (frame_of demo_reply_bytes).2 2 0 0 0) as (c' & s' & Es & Gc & _).
    { vm_compute. reflexivity. }
    { constructor; vm_compute; intuition congruence. }
    { reflexivity. }
    exists ws', c', aes. exact (conj Ep (conj Ga (conj Es Gc))).
Defined.

End Handshake.
