(* ===== verification/Fmt.v ===== *)
(** * Fmt: printf and atoi as the database layer uses them

    The statements of the tables are built by [sprintf] from a format and arrays of characters,
    and the columns of their answers are read by [atoi]. The conversions are those the sources
    use: [%s], [%d], [%0.2f]. *)
From Stdlib Require Import String Ascii.
From S2P Require Import Prelude Cstr.

Import Cstr.

Module Fmt.

(** The characters of a string literal of the sources. *)
Definition lit (s : string) : list Z := map (fun a => Z.of_N (N_of_ascii a)) (list_ascii_of_string s).

(** ** Decimal numbers *)

Fixpoint digits (fuel : nat) (n : Z) (acc : list Z) : list Z :=
  match fuel with
  | O => acc
  | S fuel =>
      let acc := 48 + n mod 10 :: acc in
      if n / 10 =? 0 then acc else digits fuel (n / 10) acc
  end.

(** A number has no more decimal digits than binary ones. *)
Definition udec (n : Z) : list Z := digits (S (Z.to_nat (Z.log2 n))) n [].

(** [%d] *)
Definition dec (z : Z) : list Z := if z <? 0 then 45 :: udec (- z) else udec z.

Definition is_digit (c : Z) : bool := (48 <=? c) && (c <=? 57).

Fixpoint digits_value (v : Z) (s : list Z) : Z :=
  match s with
  | [] => v
  | c :: s => if is_digit c then digits_value (v * 10 + (c - 48)) s else v
  end.

(** White space and one sign are skipped, the digits that follow are read; a value outside int
    is undefined. *)
Fixpoint skip_space (s : list Z) : list Z :=
  match s with
  | [] => []
  | c :: s' => if (c =? 32) || ((9 <=? c) && (c <=? 13)) then skip_space s' else s
  end.

Definition atoi (buf : list Z) : res Z :=
  match cstr buf with
  | None => Fault OutOfBounds
  | Some s =>
      match skip_space s with
      | [] => Ok 0
      | c :: s' =>
          if c =? 45 then c_int (- digits_value 0 s')
          else if c =? 43 then c_int (digits_value 0 s')
          else c_int (digits_value 0 (c :: s'))
      end
  end.

(** ** sprintf *)

Inductive piece := PLit (c : Z) | PStr | PDec | PFix2.

(** An argument: an array of characters, an int, or a double with the text [%0.2f] gives it. *)
Inductive arg := AStr (buf : list Z) | AInt (z : Z) | ADouble (bits : Z).

Fixpoint pieces (fmt : list Z) : list piece :=
  match fmt with
  | [] => []
  | c :: fmt =>
      if c =? 37 then
        match fmt with
        | d :: fmt' =>
            if d =? 115 then PStr :: pieces fmt'
            else if d =? 100 then PDec :: pieces fmt'
            else match fmt' with
                 | _ :: _ :: _ :: fmt'' => PFix2 :: pieces fmt''
                 | _ => []
                 end
        | [] => []
        end
      else PLit c :: pieces fmt
  end.

(** The value of a double, in hundredths, rounded to the nearest and to even in the middle. *)
Definition round_even (num den : Z) : Z :=
  let q := num / den in
  let r := num mod den in
  if 2 * r <? den then q else if den <? 2 * r then q + 1 else if Z.even q then q else q + 1.

Definition mantissa (bits : Z) : Z :=
  let e := Z.shiftr bits 52 mod 2048 in
  if e =? 0 then bits mod 2 ^ 52 else bits mod 2 ^ 52 + 2 ^ 52.
Definition exponent (bits : Z) : Z :=
  let e := Z.shiftr bits 52 mod 2048 in (if e =? 0 then 1 else e) - 1075.

Definition hundredths (bits : Z) : Z :=
  let m := mantissa bits * 100 in
  let e := exponent bits in
  if 0 <=? e then m * 2 ^ e else round_even m (2 ^ (- e)).

(** The integer part of a finite double has at most 309 digits. *)
Definition int_digits : nat := 310.

Definition point2 (h : Z) : list Z :=
  digits int_digits (h / 100) [] ++ [46; 48 + h / 10 mod 10; 48 + h mod 10].

Definition fix2 (bits : Z) : list Z :=
  (if Z.testbit bits 63 then [45] else []) ++
  (if Z.shiftr bits 52 mod 2048 =? 2047 then
     (if bits mod 2 ^ 52 =? 0 then [105; 110; 102] else [110; 97; 110])
   else point2 (hundredths bits)).

(** The text; an argument that is missing or of another type is undefined. *)
Fixpoint format (ps : list piece) (args : list arg) : res (list Z) :=
  match ps with
  | [] => Ok []
  | PLit c :: ps => t ← format ps args; Ok (c :: t)
  | PStr :: ps =>
      match args with
      | AStr buf :: args =>
          match cstr buf with
          | Some s => t ← format ps args; Ok (s ++ t)
          | None => Fault OutOfBounds
          end
      | _ => Fault WildPointer
      end
  | PDec :: ps =>
      match args with
      | AInt z :: args => t ← format ps args; Ok (dec z ++ t)
      | _ => Fault WildPointer
      end
  | PFix2 :: ps =>
      match args with
      | ADouble b :: args => t ← format ps args; Ok (fix2 b ++ t)
      | _ => Fault WildPointer
      end
  end.

Definition sprintf (buf fmt : list Z) (args : list arg) : res (list Z) :=
  t ← format (pieces fmt) args; memcpy buf 0 (t ++ [0]) (zlen t + 1).

(** ** Lemmas *)

Definition all_digits (s : list Z) : Prop := Forall (fun c => is_digit c = true) s.

Lemma is_digit_range c : is_digit c = true <-> 48 <= c <= 57.
Proof. unfold is_digit. rewrite andb_true_iff, !Z.leb_le. done. Qed.

Lemma digit_ok n : is_digit (48 + n mod 10) = true.
Proof. apply is_digit_range. pose proof (Z.mod_pos_bound n 10 ltac:(lia)). lia. Qed.

Lemma digits_all fuel : forall n acc, all_digits acc -> all_digits (digits fuel n acc).
Proof.
  induction fuel as [|fuel IH]; intros n acc H; [done|]. cbn [digits].
  assert (all_digits (48 + n mod 10 :: acc)) by (constructor; [apply digit_ok|done]).
  destruct (n / 10 =? 0); [done|]. by apply IH.
Qed.

Lemma digits_value_digits fuel : forall n acc,
  0 <= n < 10 ^ Z.of_nat fuel -> (0 < fuel)%nat -> digits_value 0 (digits fuel n acc) = digits_value n acc.
Proof.
  induction fuel as [|fuel IH]; intros n acc Hn Hf; [lia|]. cbn [digits].
  pose proof (Z.div_mod n 10 ltac:(lia)) as E. pose proof (Z.mod_pos_bound n 10 ltac:(lia)).
  destruct (Z.eqb_spec (n / 10) 0) as [E0|E0].
  - cbn [digits_value]. rewrite digit_ok. f_equal. lia.
  - rewrite Nat2Z.inj_succ, Z.pow_succ_r in Hn by lia.
    assert (0 <= n / 10) by (apply Z.div_pos; lia).
    assert (n / 10 < 10 ^ Z.of_nat fuel) by (apply Z.div_lt_upper_bound; lia).
    destruct fuel as [|fuel]; [change (10 ^ Z.of_nat 0) with 1 in *; lia|].
    rewrite IH by lia. cbn [digits_value]. rewrite digit_ok. f_equal. lia.
Qed.

Lemma digits_head fuel : forall n acc c s,
  digits fuel n (c :: acc) = s -> is_digit c = true -> exists d s', s = d :: s' /\ is_digit d = true.
Proof.
  induction fuel as [|fuel IH]; intros n acc c s <- Hc; [by exists c, acc|]. cbn [digits].
  destruct (n / 10 =? 0); [eexists _, _; split; [done|apply digit_ok]|].
  eapply IH; [done|apply digit_ok].
Qed.

Lemma digits_cons fuel n acc : (0 < fuel)%nat -> exists d s, digits fuel n acc = d :: s /\ is_digit d = true.
Proof.
  destruct fuel as [|fuel]; [lia|]. intros _. cbn [digits]. destruct (n / 10 =? 0); [eexists _, _; split; [done|apply digit_ok]|].
  eapply digits_head; [done|apply digit_ok].
Qed.

Lemma udec_cons n : exists d s, udec n = d :: s /\ is_digit d = true.
Proof. apply digits_cons. lia. Qed.

Lemma udec_value n : 0 <= n -> digits_value 0 (udec n) = n.
Proof.
  intros H. unfold udec. rewrite digits_value_digits; [done| |lia]. split; [done|].
  rewrite Nat2Z.inj_succ, Z2Nat.id by apply Z.log2_nonneg.
  destruct (Z.eq_dec n 0) as [->|]; [done|]. destruct (Z.log2_spec n) as [_ L]; [lia|].
  eapply Z.lt_le_trans; [exact L|]. apply Z.pow_le_mono_l. lia.
Qed.

(** The text of an int: a sign, perhaps, and digits. *)
Lemma dec_shape z : exists s d r, dec z = (if z <? 0 then [45] else []) ++ s /\ all_digits s /\ s = d :: r.
Proof.
  unfold dec. destruct (z <? 0).
  - destruct (udec_cons (- z)) as (d & s & E & _). exists (udec (- z)), d, s.
    split; [done|]. split; [apply digits_all; constructor|done].
  - destruct (udec_cons z) as (d & s & E & _). exists (udec z), d, s.
    split; [done|]. split; [apply digits_all; constructor|done].
Qed.

Definition dec_char (c : Z) : Prop := 45 <= c <= 57.

Lemma dec_chars z : Forall dec_char (dec z).
Proof.
  destruct (dec_shape z) as (s & _ & _ & -> & H & _). apply Forall_app. split.
  - destruct (z <? 0); repeat constructor; unfold dec_char; lia.
  - eapply Forall_impl; [exact H|]. intros c Hc%is_digit_range. unfold dec_char. lia.
Qed.

Lemma dec_no_zero z : no_zero (dec z).
Proof. eapply Forall_impl; [apply dec_chars|]. unfold dec_char. lia. Qed.

Lemma skip_space_no c s : is_digit c = true \/ c = 45 -> skip_space (c :: s) = c :: s.
Proof.
  intros H. assert (45 <= c <= 57) by (destruct H as [H%is_digit_range| ->]; lia).
  cbn [skip_space]. case_zbool; done.
Qed.

(** The number a text stands for. *)
Definition int_value (s : list Z) : Z :=
  match s with
  | [] => 0
  | c :: r => if c =? 45 then - digits_value 0 r else digits_value 0 s
  end.

Lemma int_value_dec z : int_value (dec z) = z.
Proof.
  unfold int_value, dec. destruct (Z.ltb_spec z 0).
  - change (45 =? 45) with true. cbn iota. rewrite udec_value by lia. lia.
  - destruct (udec_cons z) as (d & s & E & Hd). rewrite E. apply is_digit_range in Hd.
    case_zbool. rewrite <- E. by apply udec_value.
Qed.

Lemma dec_inj z z' : dec z = dec z' -> z = z'.
Proof. intros E. by rewrite <- (int_value_dec z), E, int_value_dec. Qed.

Lemma atoi_dec z rest : is_i32 z -> atoi (dec z ++ 0 :: rest) = Ok z.
Proof.
  intros H. unfold atoi. rewrite cstr_app by apply dec_no_zero.
  pose proof (int_value_dec z) as E. destruct (dec_shape z) as (s & d & r & Es & A & Er).
  unfold int_value in E. destruct (Z.ltb_spec z 0); cbn [app] in Es; rewrite Es in *.
  - rewrite skip_space_no by auto. change (45 =? 45) with true in *. cbn iota in *. rewrite E. by apply c_int_ok.
  - rewrite Er in *. apply Forall_cons in A as [Hd _]. rewrite skip_space_no by auto. apply is_digit_range in Hd.
    revert E. case_zbool. intros ->. by apply c_int_ok.
Qed.

Lemma digits_length fuel : forall n acc k, 0 <= n < 10 ^ Z.of_nat k -> (0 < k)%nat -> zlen (digits fuel n acc) <= Z.of_nat k + zlen acc.
Proof.
  induction fuel as [|fuel IH]; intros n acc k Hn Hk; cbn [digits]; [lia|].
  destruct (Z.eqb_spec (n / 10) 0) as [E|E]; [rewrite zlen_cons; lia|].
  destruct k as [|[|k]]; [lia| |].
  - exfalso. apply E. apply Z.div_small. cbn in Hn. lia.
  - etransitivity; [apply (IH _ _ (S k)); [|lia]|rewrite zlen_cons; lia]. rewrite Nat2Z.inj_succ, Z.pow_succ_r in Hn by lia.
    split; [apply Z.div_pos; lia|]. apply Z.div_lt_upper_bound; lia.
Qed.

Lemma udec_all n : all_digits (udec n).
Proof. apply digits_all. constructor. Qed.

(** ** What sprintf writes *)

Lemma sprintf_text n fmt args t :
  format (pieces fmt) args = Ok t -> zlen t < Z.of_nat n ->
  sprintf (replicate n 170) fmt args = Ok ((t ++ [0]) ++ zdrop (zlen t + 1) (replicate n 170)).
Proof.
  intros E L. unfold sprintf. rewrite E. cbn [mbind res_bind]. pose proof (zlen_nonneg t).
  rewrite memcpy_ok by (rewrite ?zlen_app, ?zlen_replicate; change (zlen [0]) with 1; lia).
  unfold splice. rewrite (ztake_all (zlen t + 1)) by (rewrite zlen_app; change (zlen [0]) with 1; lia).
  rewrite zlen_app. change (zlen [0]) with 1. by rewrite ztake_0 by lia.
Qed.

End Fmt.
