(* ===== verification/Print.v ===== *)
(** * Print: the text of a packet

    ep_pack_print of ep_packet.c and bson_print_raw of bson.c, which it calls for what is nested.
    The first appends to the array of its caller, the second writes to the standard output; the
    two loops are copies of each other. *)
From Stdlib Require Import String.
From S2P Require Import Prelude Alloc Words Bson Packet Cstr Fmt.
Import Alloc Words Bson Packet Cstr Fmt.

Module Print.

(** The caller's array and the two streams. *)
Record out := mk_out { o_format : list Z; o_stdout : list Z; o_stderr : list Z }.

(** [sprintf(format + strlen(format), ...)] with the text it makes. *)
Definition append_format (t : list Z) (o : out) : res out :=
  n ← strlen (o_format o);
  f ← memcpy (o_format o) n (t ++ [0]) (zlen t + 1);
  Ok (mk_out f (o_stdout o) (o_stderr o)).

Definition bson_printf (t : list Z) (o : out) : res out :=
  Ok (mk_out (o_format o) (o_stdout o ++ t) (o_stderr o)).
Definition bson_errprintf (t : list Z) (o : out) : res out :=
  Ok (mk_out (o_format o) (o_stdout o) (o_stderr o ++ t)).

(** The end of a line. *)
Definition lf : list Z := [10].

(** [%f]: six decimals. *)
Definition millionths (bits : Z) : Z :=
  let m := mantissa bits * 10 ^ 6 in
  let e := exponent bits in
  if 0 <=? e then m * 2 ^ e else round_even m (2 ^ (- e)).

Definition point6 (h : Z) : list Z :=
  digits int_digits (h / 10 ^ 6) [] ++ 46 :: map (fun k => 48 + h / 10 ^ k mod 10) [5; 4; 3; 2; 1; 0].

Definition fix6 (bits : Z) : list Z :=
  (if Z.testbit bits 63 then [45] else []) ++
  (if Z.shiftr bits 52 mod 2048 =? 2047 then (if bits mod 2 ^ 52 =? 0 then lit "inf" else lit "nan")
   else point6 (millionths bits)).

(** ** The rest of the iterator *)

Definition hex (n : Z) : Z := if n <? 10 then 48 + n else 87 + n.

Definition bson_oid_to_string (oid : list Z) : list Z :=
  flat_map (fun c => [hex (Z.shiftr (Z.land c 240) 4); hex (Z.land c 15)]) oid.

Definition bson_iterator_oid (m : list Z) (i : bson_iterator) : res (list Z) :=
  off ← bson_iterator_value m i; slice m off 12.

Definition bson_iterator_date (m : list Z) (i : bson_iterator) : res Z := bson_iterator_long_raw m i.

Definition bson_iterator_regex (m : list Z) (i : bson_iterator) : res (list Z) :=
  off ← bson_iterator_value m i; c_string m off.

(** For the two types it is called with. *)
Definition bson_iterator_code (m : list Z) (i : bson_iterator) : res (list Z) :=
  type ← bson_iterator_type m i;
  off ← bson_iterator_value m i;
  c_string m (off + (if type =? 15 then 8 else 4)).

Definition bson_iterator_timestamp (m : list Z) (i : bson_iterator) : res (Z * Z) :=
  off ← bson_iterator_value m i;
  a ← slice m off 4; b ← slice m (off + 4) 4;
  Ok (i32 (le_load a), i32 (le_load b)).

(** Where the data of the scope begin; their size is read too. *)
Definition bson_iterator_code_scope_init (m : list Z) (i : bson_iterator) : res Z :=
  off ← bson_iterator_value m i;
  a ← slice m (off + 4) 4;
  let scope := off + 8 + i32 (le_load a) in
  _ ← slice m scope 4;
  Ok scope.

(** ** The loops *)

Section loops.
Context (printf errprintf : list Z -> out -> res out).

(** The loop that indents. *)
Fixpoint indent (depth : nat) (o : out) : res out :=
  match depth with O => Ok o | S d => o ← printf (lit "    ") o; indent d o end.

(** The switch on the type; [nested] and [scope] print the document at an offset. *)
Definition print_value (nested scope : Z -> out -> res out) (m : list Z) (i : bson_iterator) (t : Z) (o : out) : res out :=
  if t =? BSON_DOUBLE then d ← bson_iterator_double m i; printf (fix6 d ++ lf) o
  else if t =? BSON_STRING then s ← bson_iterator_string m i; printf (s ++ lf) o
  else if t =? 14 then s ← bson_iterator_string m i; printf (lit "SYMBOL: " ++ s ++ lf) o
  else if t =? 7 then oid ← bson_iterator_oid m i; printf (bson_oid_to_string oid ++ lf) o
  else if t =? BSON_BOOL then b ← bson_iterator_bool m i; printf ((if b =? 0 then lit "false" else lit "true") ++ lf) o
  else if t =? 9 then d ← bson_iterator_date m i; printf (dec d ++ lf) o
  else if t =? BSON_BINDATA then printf (lit "BSON_BINDATA" ++ lf) o
  else if t =? 6 then printf (lit "BSON_UNDEFINED" ++ lf) o
  else if t =? 10 then printf (lit "BSON_NULL" ++ lf) o
  else if t =? 11 then s ← bson_iterator_regex m i; printf (lit "BSON_REGEX: " ++ s ++ lf) o
  else if t =? 13 then s ← bson_iterator_code m i; printf (lit "BSON_CODE: " ++ s ++ lf) o
  else if t =? 15 then
    s ← bson_iterator_code m i; o ← printf (lit "BSON_CODE_W_SCOPE: " ++ s) o;
    off ← bson_iterator_code_scope_init m i;
    o ← printf (lf ++ 9 :: lit " SCOPE: ") o; o ← scope off o; printf lf o
  else if t =? BSON_INT then z ← bson_iterator_int m i; printf (dec z ++ lf) o
  else if t =? BSON_LONG then z ← bson_iterator_long m i; printf (dec z ++ lf) o
  else if t =? 17 then
    '(a, b) ← bson_iterator_timestamp m i; printf (lit "i: " ++ dec a ++ lit ", t: " ++ dec b ++ lf) o
  else if (t =? BSON_OBJECT) || (t =? BSON_ARRAY) then
    o ← printf lf o; off ← bson_iterator_value m i; nested off o
  else errprintf (lit "can't print type : " ++ dec t ++ lf) o.

(** One turn of the loop, [None] at its end. *)
Definition print_turn (nested scope : Z -> out -> res out) (m : list Z) (depth : nat) (i : bson_iterator) (o : out) : res (option bson_iterator * out) :=
  '(next, i) ← bson_iterator_next m i;
  if next =? 0 then Ok (None, o) else
  t ← bson_iterator_type m i;
  if t =? 0 then Ok (None, o) else
  key ← bson_iterator_key m i;
  o ← indent depth o;
  o ← printf (lit "> " ++ key ++ lit ": ") o;
  o ← print_value nested scope m i t o;
  Ok (Some i, o).

End loops.

(** One unit of fuel for each element and each document. *)
Fixpoint bson_print_loop (fuel : nat) (m : list Z) (depth : nat) (i : bson_iterator) (o : out) : res out :=
  match fuel with
  | O => Fault OutOfFuel
  | S fuel =>
    let raw depth off := bson_print_loop fuel m depth (bson_iterator_from_buffer off) in
    '(r, o) ← print_turn bson_printf bson_errprintf (raw (S depth)) (raw O) m depth i o;
    match r with Some i => bson_print_loop fuel m depth i o | None => Ok o end
  end.

Definition bson_print_raw (fuel : nat) (m : list Z) (depth : nat) (data : Z) (o : out) : res out :=
  bson_print_loop fuel m depth (bson_iterator_from_buffer data) o.

Fixpoint ep_bson_print_loop (fuel : nat) (m : list Z) (depth : nat) (i : bson_iterator) (o : out) : res out :=
  match fuel with
  | O => Fault OutOfFuel
  | S fuel =>
    '(r, o) ← print_turn append_format append_format (bson_print_raw fuel m (S depth)) (bson_print_raw fuel m O) m depth i o;
    match r with Some i => ep_bson_print_loop fuel m depth i o | None => Ok o end
  end.

Definition ep_bson_print_raw (fuel : nat) (m : list Z) (depth : nat) (data : Z) (o : out) : res out :=
  ep_bson_print_loop fuel m depth (bson_iterator_from_buffer data) o.

(** The packet is finished first. *)
Definition ep_pack_print (p : ep_pack) (o : out) : res (ep_pack * out) :=
  p ← ep_pack_finish p;
  f ← memcpy (o_format o) 0 [0] 1;
  o ← ep_bson_print_raw (S (length (ep_pack_data p))) (ep_pack_data p) O 0 (mk_out f (o_stdout o) (o_stderr o));
  Ok (p, o).

(** ** The text of a tree *)

(** What a value prints on its own line. *)
Definition leaf_text (v : value) : list Z :=
  match v with
  | VBin _ => lit "BSON_BINDATA"
  | VStr s => s
  | VBool b => if b then lit "true" else lit "false"
  | VInt z | VLong z => dec z
  | VDouble d => fix6 d
  | VArr _ | VObj _ => []
  end ++ lf.

Definition blanks (depth : nat) : list Z := replicate (depth * 4) 32.
Definition line (depth : nat) (name : list Z) (v : value) : list Z :=
  blanks depth ++ (lit "> " ++ name ++ lit ": ") ++ leaf_text v.

(** A tree, a field on a line, what is nested indented below it. *)
Fixpoint below (depth : nat) (v : value) : list Z :=
  match v with VArr f | VObj f => tree_text (S depth) f | _ => [] end
with tree_text (depth : nat) (f : fields) : list Z :=
  match f with FNil => [] | FCons n v r => line depth n v ++ below depth v ++ tree_text depth r end.

(** The lines of the outermost fields, and of those below them. *)
Fixpoint top_lines (f : fields) : list Z :=
  match f with FNil => [] | FCons n v r => line 0 n v ++ top_lines r end.
Fixpoint lower_lines (f : fields) : list Z :=
  match f with FNil => [] | FCons _ v r => below 0 v ++ lower_lines r end.

(** ** Lemmas *)

(** [a] appends [t] to the string in the caller's array, if it fits, and [s] to the standard
    output. *)
Definition shows (a : out -> res out) (t s : list Z) : Prop :=
  forall o d, cstr (o_format o) = Some d ->
  if zlen d + zlen t <? zlen (o_format o) then
    exists F, a o = Ok (mk_out F (o_stdout o ++ s) (o_stderr o)) /\ zlen F = zlen (o_format o) /\ cstr F = Some (d ++ t)
  else a o = Fault OutOfBounds.

Lemma cstr_room buf d : cstr buf = Some d -> zlen d < zlen buf.
Proof.
  intros [_ [rest ->]]%cstr_inv. rewrite zlen_app, zlen_cons. pose proof (zlen_nonneg rest). lia.
Qed.

Lemma shows_ret : shows (fun o => Ok o) [] [].
Proof.
  intros [F s e] d H. pose proof (cstr_room _ _ H) as R. cbn [o_format o_stdout o_stderr] in *. rewrite zlen_nil. case_zbool.
  exists F. by rewrite !app_nil_r.
Qed.

Lemma shows_seq a b t t' s s' : shows a t s -> shows b t' s' -> shows (fun o => o ← a o; b o) (t ++ t') (s ++ s').
Proof.
  intros A B o d H. specialize (A o d H). rewrite zlen_app. pose proof (zlen_nonneg t').
  destruct (Z.ltb_spec (zlen d + zlen t) (zlen (o_format o))) as [L|L].
  - destruct A as (F & -> & LF & CF). cbn [mbind res_bind].
    specialize (B (mk_out F (o_stdout o ++ s) (o_stderr o)) _ CF). cbn [o_format o_stdout o_stderr] in B.
    rewrite zlen_app, LF, <- Z.add_assoc in B.
    destruct (Z.ltb_spec (zlen d + (zlen t + zlen t')) (zlen (o_format o))); [|done].
    destruct B as (G & -> & LG & CG). exists G. by rewrite !app_assoc, LG.
  - rewrite A. case_zbool. done.
Qed.

Lemma shows_ext a b t s : (forall o, b o = a o) -> shows a t s -> shows b t s.
Proof. intros E A o d H. rewrite E. by apply A. Qed.

Lemma shows_format t : no_zero t -> shows (append_format t) t [].
Proof.
  intros N o d H. unfold append_format, strlen. rewrite H. cbn [mbind res_bind].
  pose proof (zlen_nonneg d). pose proof (zlen_nonneg t).
  assert (zlen (t ++ [0]) = zlen t + 1) as Lt by (rewrite zlen_app; done).
  destruct (Z.ltb_spec (zlen d + zlen t) (zlen (o_format o))) as [L|L].
  - rewrite memcpy_ok by lia. cbn [mbind res_bind]. rewrite ztake_all by lia. rewrite app_nil_r.
    eexists. split; [done|]. split; [apply zlen_splice; lia|].
    pose proof (cstr_inv _ _ H) as [Nd [rest E]]. unfold splice. rewrite E at 1. rewrite ztake_app_l by done.
    rewrite <- !app_assoc, app_assoc. apply cstr_app. by apply Forall_app.
  - unfold memcpy. case_zbool; try done; lia.
Qed.

Lemma shows_stdout t : shows (bson_printf t) [] t.
Proof.
  intros o d H. pose proof (cstr_room _ _ H). rewrite zlen_nil. case_zbool. exists (o_format o). by rewrite app_nil_r.
Qed.

(** What is printed of a tree has no zero in it. *)
Lemma lit_no_zero s : forallb (fun c => negb (c =? 0)) (lit s) = true -> no_zero (lit s).
Proof. intros H. apply Forall_forall. intros c Hc. rewrite forallb_forall in H. specialize (H c ltac:(by apply list_elem_of_In)). by destruct (Z.eqb_spec c 0). Qed.

Lemma digits_no_zero n : no_zero (digits int_digits n []).
Proof.
  eapply Forall_impl; [exact (digits_all _ n [] (Forall_nil_2 _))|]. intros c H%is_digit_range. lia.
Qed.

Lemma fix6_no_zero bits : no_zero (fix6 bits).
Proof.
  unfold fix6, no_zero, point6. apply Forall_app. split; [case_match; by repeat constructor|].
  case_match; [case_match; by apply lit_no_zero|]. apply Forall_app. split; [apply digits_no_zero|].
  constructor; [done|]. apply Forall_forall. intros c (k & -> & _)%list_elem_of_fmap.
  pose proof (Z.mod_pos_bound (millionths bits / 10 ^ k) 10 eq_refl) as H'. cbv beta. generalize dependent (millionths bits / 10 ^ k). lia.
Qed.

Lemma blanks_no_zero depth : no_zero (blanks depth).
Proof. by apply Forall_replicate. Qed.

Lemma leaf_no_zero v : value_ok v -> no_zero (leaf_text v).
Proof.
  intros H. apply Forall_app. split; [|by repeat constructor].
  destruct v; cbn in H; try (by apply lit_no_zero); try apply dec_no_zero; try apply fix6_no_zero; try constructor.
  - apply H.
  - case_match; by apply lit_no_zero.
Qed.

(** ** One turn of a loop *)

(** A leaf whose value [get] gives. *)
Ltac leaf get E P :=
  eapply shows_ext; [|exact P]; intros o; unfold print_value;
  cbn -[lit lf fix6 dec bson_iterator_string bson_iterator_int bson_iterator_long bson_iterator_double] in E |- *;
  unfold ep_pack_iterator_string, ep_pack_iterator_int, ep_pack_iterator_long, ep_pack_iterator_double in E;
  destruct get; [|discriminate E]; cbn [mbind res_bind] in E |- *; injection E as <-; done.

Section turn.
Context (printf errprintf : list Z -> out -> res out) (L R : list Z -> list Z).
Hypothesis printf_shows : forall t, no_zero t -> shows (printf t) (L t) (R t).
Hypothesis L_app : forall a b, L (a ++ b) = L a ++ L b.
Hypothesis R_app : forall a b, R (a ++ b) = R a ++ R b.
Hypothesis L_nil : L [] = [].
Hypothesis R_nil : R [] = [].

Lemma indent_shows depth : shows (indent printf depth) (L (blanks depth)) (R (blanks depth)).
Proof using All.
  induction depth as [|n IH]; [cbn; rewrite L_nil, R_nil; apply shows_ret|].
  change (blanks (S n)) with (lit "    " ++ blanks n). rewrite L_app, R_app.
  apply (shows_seq _ _ _ _ _ _ (printf_shows _ (lit_no_zero "    " eq_refl)) IH).
Qed.

(** What is nested is printed from its first element on. *)
Lemma sub_shows t f name k nested scope m i depth :
  t = 4 \/ t = 3 -> sfx m (it_cur i) (t :: name ++ 0 :: doc (enc_fields f) ++ k) -> nul_free name ->
  (forall off k, next_at m (bson_iterator_from_buffer off) (enc_fields f ++ 0 :: k) -> shows (nested off) [] (tree_text (S depth) f)) ->
  shows (print_value printf errprintf nested scope m i t) (L lf) (R lf ++ tree_text (S depth) f).
Proof using All.
  intros Ht Hs Hn Hsub. destruct (el_value m i t name _ Hs Hn) as [E _].
  destruct (sub_at m i t name f k Hs Hn) as (it & Ei & Hat). unfold ep_pack_interator_array in Ei.
  rewrite E in Ei. cbn [mbind res_bind] in Ei. injection Ei as <-.
  rewrite <- (app_nil_r (L lf)). apply (shows_ext (fun o => o ← printf lf o; nested (it_cur i + (2 + zlen name)) o)).
  - intros o. destruct Ht as [-> | ->]; unfold print_value; cbn -[lit lf bson_iterator_value]; rewrite E; done.
  - apply shows_seq; [apply printf_shows; by repeat constructor|]. by eapply Hsub.
Qed.

(** Every value prints its line and has what is below it printed. *)
Lemma value_shows nested scope m i name v depth k :
  value_ok v -> zlen (enc_value v) <= LIM -> nul_free name ->
  sfx m (it_cur i) (type_code v :: name ++ 0 :: enc_value v ++ k) ->
  (forall f off k, v = VArr f \/ v = VObj f -> next_at m (bson_iterator_from_buffer off) (enc_fields f ++ 0 :: k) ->
     shows (nested off) [] (tree_text (S depth) f)) ->
  shows (print_value printf errprintf nested scope m i (type_code v)) (L (leaf_text v)) (R (leaf_text v) ++ below depth v).
Proof using All.
  intros Hv Hl Hn Hs Hsub. pose proof (leaf_no_zero v Hv) as N.
  destruct (proj1 reads_all v Hv Hl _ m i name k (le_n _) Hn Hs) as [E _].
  pose proof (printf_shows _ N) as P.
  destruct v as [l|s|b|z|z|d|f|f]; cbn [below]; rewrite ?app_nil_r.
  - exact P.
  - leaf (bson_iterator_string m i) E P.
  - change (bson_type_to_ep_pack_type (type_code (VBool b))) with PACKET_BOOL in E. cbn [read_value] in E.
    change (ep_pack_iterator_bool m i) with (bson_iterator_bool m i) in E.
    apply (shows_ext (printf (leaf_text (VBool b)))); [|exact P]. intros o.
    change (print_value _ _ _ _ _ _ _ _) with (b ← bson_iterator_bool m i; printf ((if b =? 0 then lit "false" else lit "true") ++ lf) o).
    destruct (bson_iterator_bool m i) as [z|]; [|discriminate E]. cbn [mbind res_bind] in E |- *. injection E as <-.
    by destruct (z =? 0).
  - leaf (bson_iterator_int m i) E P.
  - leaf (bson_iterator_long m i) E P.
  - leaf (bson_iterator_double m i) E P.
  - apply (sub_shows 4 f name k); [lia|exact Hs|exact Hn|]. intros off k' A. apply (Hsub f off k'); [by left|done].
  - apply (sub_shows 3 f name k); [lia|exact Hs|exact Hn|]. intros off k' A. apply (Hsub f off k'); [by right|done].
Qed.
Lemma turn_nil nested scope m depth i k o :
  next_at m i (0 :: k) -> print_turn printf errprintf nested scope m depth i o = Ok (None, o).
Proof using All. intros (c & l & i' & [= <- <-] & E & _). unfold print_turn. by rewrite E. Qed.

Lemma turn_cons nested scope m depth i name v r k :
  fields_ok (FCons name v r) -> zlen (enc_fields (FCons name v r)) <= LIM ->
  next_at m i (enc_fields (FCons name v r) ++ 0 :: k) ->
  (forall f off k, v = VArr f \/ v = VObj f -> next_at m (bson_iterator_from_buffer off) (enc_fields f ++ 0 :: k) ->
     shows (nested off) [] (tree_text (S depth) f)) ->
  exists i' a, next_at m i' (enc_fields r ++ 0 :: k) /\
    (forall o, print_turn printf errprintf nested scope m depth i o = (o ← a o; Ok (Some i', o))) /\
    shows a (L (line depth name v)) (R (line depth name v) ++ below depth v).
Proof using All.
  intros ([Hn _] & Hvo & _) Hl (c & l & it & El & E & Hf & Hs) Hsub.
  cbn [enc_fields] in *. rewrite <- !app_assoc in El, Hs. cbn [app] in El, Hs. rewrite <- !app_assoc in El, Hs.
  injection El as <- <-. cbn [app] in Hs. rewrite !zlen_app, zlen_cons in Hl.
  pose proof (zlen_nonneg (name ++ [0])). pose proof (zlen_nonneg (enc_value v)). pose proof (zlen_nonneg (enc_fields r)).
  pose proof (type_code_range v) as Rt.
  assert (schar (type_code v) = type_code v) as Es by (unfold schar; case_zbool; done).
  destruct (proj1 reads_all v Hvo ltac:(lia) _ m it name (enc_fields r ++ 0 :: k) (le_n _) Hn Hs) as [_ Ez].
  pose proof (value_shows nested scope m it name v depth _ Hvo ltac:(lia) Hn Hs Hsub) as V.
  exists it, (fun o => o ← indent printf depth o; o ← printf (lit "> " ++ name ++ lit ": ") o;
    print_value printf errprintf nested scope m it (type_code v) o). split; [|split].
  - destruct (enc_fields r ++ 0 :: k) as [|c' k'] eqn:Er; [by destruct (enc_fields r)|].
    destruct (el_next m it _ name _ Hs Hn (enc_value v) c' k' (zlen (enc_value v))) as (it' & En & Hf' & Hs'); [done|lia|done..|].
    by exists c', k', it'.
  - intros o. unfold print_turn. rewrite E, Es. cbn [mbind res_bind].
    rewrite (el_type m it _ name _ Hs), (el_key m it _ name _ Hs Hn). cbn [mbind res_bind]. case_zbool.
    destruct (indent printf depth o) as [o1|]; [|done]. cbn [mbind res_bind].
    by destruct (printf _ o1) as [o2|].
  - unfold line. set (pre := lit "> " ++ name ++ lit ": ").
    rewrite (L_app (blanks depth)), (L_app pre), (R_app (blanks depth)), (R_app pre), <- !app_assoc.
    apply shows_seq; [apply indent_shows|].
    apply shows_seq; [|exact V]. apply printf_shows.
    apply Forall_app. split; [by apply lit_no_zero|]. apply Forall_app. split; [done|by apply lit_no_zero].
Qed.

(** What the two streams get of the fields of a document. *)
Fixpoint left_of (depth : nat) (f : fields) : list Z :=
  match f with FNil => [] | FCons n v r => L (line depth n v) ++ left_of depth r end.
Fixpoint right_of (depth : nat) (f : fields) : list Z :=
  match f with FNil => [] | FCons n v r => (R (line depth n v) ++ below depth v) ++ right_of depth r end.

Lemma loop_shows m depth (loop : nat -> bson_iterator -> out -> res out) (nested scope : nat -> Z -> out -> res out) :
  (forall fuel i o, loop (S fuel) i o =
     ('(r, o) ← print_turn printf errprintf (nested fuel) (scope fuel) m depth i o;
      match r with Some i => loop fuel i o | None => Ok o end)) ->
  forall f fuel i k, fields_ok f -> zlen (enc_fields f) <= LIM -> (fsize f <= fuel)%nat ->
  next_at m i (enc_fields f ++ 0 :: k) ->
  (forall fuel' g off k, (fuel' < fuel)%nat -> fields_ok g -> zlen (enc_fields g) <= LIM -> (fsize g <= fuel')%nat ->
     next_at m (bson_iterator_from_buffer off) (enc_fields g ++ 0 :: k) -> shows (nested fuel' off) [] (tree_text (S depth) g)) ->
  shows (loop fuel i) (left_of depth f) (right_of depth f).
Proof using All.
  intros Eloop f fuel. revert f. induction fuel as [|fuel IH]; intros f i k Hf Hl Hfu Hat Hsub; [destruct f; cbn in Hfu; lia|].
  destruct f as [|name v r].
  - eapply shows_ext; [|apply shows_ret]. intros o. rewrite Eloop. by rewrite (turn_nil _ _ _ _ _ k).
  - pose proof Hl as Hl'. pose proof Hf as (_ & Hvo & Hro). cbn [enc_fields fsize left_of right_of] in Hfu, Hl' |- *. rewrite !zlen_app in Hl'.
    pose proof (zlen_nonneg (enc_value v)). pose proof (zlen_nonneg (enc_fields r)). pose proof (zlen_nonneg (type_code v :: name ++ [0])).
    destruct (turn_cons (nested fuel) (scope fuel) m depth i name v r k Hf Hl Hat) as (i' & a & Hat' & Ea & Sa).
    + intros g off k' Hg. apply Hsub; [lia|destruct Hg as [-> | ->]..]; cbn [value_ok enc_value vsize] in *; try done; rewrite ?zlen_doc in *; lia.
    + eapply shows_ext; [|apply (shows_seq a (loop fuel i') _ _ _ _ Sa)].
      * intros o. rewrite Eloop, Ea. by destruct (a o).
      * apply (IH r i' k); [done|lia|lia|done|]. intros. eapply Hsub; eauto.
Qed.

End turn.

(** ** The loops *)

Lemma enc_fuel : (forall v, (vsize v <= length (enc_value v))%nat) /\ (forall f, (fsize f <= S (length (enc_fields f)))%nat).
Proof. apply tree_ind; intros; cbn [vsize fsize enc_value enc_fields]; unfold doc; rewrite ?length_app; cbn [length]; lia. Qed.

(** bson_print_raw writes the tree to the standard output. *)
Lemma bson_print_shows m fuel : forall depth f i k, fields_ok f -> zlen (enc_fields f) <= LIM -> (fsize f <= fuel)%nat ->
  next_at m i (enc_fields f ++ 0 :: k) -> shows (bson_print_loop fuel m depth i) [] (tree_text depth f).
Proof.
  induction fuel as [fuel IH] using lt_wf_ind. intros depth f i k Hf Hl Hfu Hat.
  pose proof (loop_shows bson_printf bson_errprintf (fun _ => []) id (fun t _ => shows_stdout t)
    (fun _ _ => eq_refl) (fun _ _ => eq_refl) eq_refl eq_refl m depth (fun fuel => bson_print_loop fuel m depth)
    (fun fuel off => bson_print_loop fuel m (S depth) (bson_iterator_from_buffer off))
    (fun fuel off => bson_print_loop fuel m 0 (bson_iterator_from_buffer off)) (fun _ _ _ => eq_refl) f fuel i k Hf Hl Hfu Hat) as S.
  replace (left_of (fun _ => []) depth f) with (@nil Z) in S by (clear; by induction f).
  replace (right_of id depth f) with (tree_text depth f) in S.
  - apply S. intros. eapply IH; eauto.
  - clear. induction f as [|n v r IH]; [done|]. cbn [tree_text right_of]. by rewrite IH, <- app_assoc.
Qed.

Lemma ep_bson_print_shows m fuel f i k : fields_ok f -> zlen (enc_fields f) <= LIM -> (fsize f <= fuel)%nat ->
  next_at m i (enc_fields f ++ 0 :: k) -> shows (ep_bson_print_loop fuel m 0 i) (top_lines f) (lower_lines f).
Proof.
  intros Hf Hl Hfu Hat.
  pose proof (loop_shows append_format append_format id (fun _ => []) shows_format
    (fun _ _ => eq_refl) (fun _ _ => eq_refl) eq_refl eq_refl m 0 (fun fuel => ep_bson_print_loop fuel m 0)
    (fun fuel => bson_print_raw fuel m 1) (fun fuel => bson_print_raw fuel m 0) (fun _ _ _ => eq_refl) f fuel i k Hf Hl Hfu Hat) as S.
  replace (left_of id 0 f) with (top_lines f) in S by (clear; induction f as [|n v r IH]; [done|]; cbn [top_lines left_of]; by rewrite IH).
  replace (right_of (fun _ => []) 0 f) with (lower_lines f) in S by (clear; induction f as [|n v r IH]; [done|]; cbn [lower_lines right_of app]; by rewrite IH).
  apply S. intros. eapply bson_print_shows; eauto.
Qed.

(** ** Properties *)

(** C40: Printing a packet appends one line for each outermost field to the caller's array, with the
    name and the value of the field, when the array is large enough, and leaves the array when it
    is not: its size is not an argument. What is nested does not reach the array: it is written,
    indented by its depth, to the standard output (line 174 calls bson_print_raw of the library
    instead of the function itself). *)
Theorem pack_print_shows f o :
  fields_ok f -> zlen (enc_fields f) + 5 <= LIM ->
  exists p, build_pack [] f = Ok (Some p) /\
  if zlen (top_lines f) <? zlen (o_format o) then
    exists F, ep_pack_print p o = Ok (p, mk_out F (o_stdout o ++ lower_lines f) (o_stderr o)) /\
      zlen F = zlen (o_format o) /\ text F = top_lines f
  else ep_pack_print p o = Fault OutOfBounds.
Proof.
  intros Hf Hl. destruct (build_pack_spec f Hf Hl) as (p & Ep & Fi & _ & Ed & Ez). exists p. split; [done|].
  assert (ep_pack_finish p = Ok p) as Efin.
  { unfold ep_pack_finish, bson_finish. rewrite Fi. destruct p. by destruct (negb _). }
  unfold ep_pack_print. rewrite Efin. cbn [mbind res_bind].
  destruct (o_format o) as [|c F0] eqn:EF.
  { pose proof (zlen_nonneg (top_lines f)). rewrite zlen_nil. by case_zbool. }
  rewrite memcpy_ok by (rewrite ?zlen_cons, ?zlen_nil; pose proof (zlen_nonneg F0); lia). cbn [mbind res_bind].
  change (splice (c :: F0) 0 (ztake 1 [0])) with (0 :: F0).
  assert (next_at (ep_pack_data p) (bson_iterator_from_buffer 0) (enc_fields f ++ 0 :: zdrop (zlen (enc_fields f) + 5) (ep_pack_data p))) as Hat.
  { apply doc_at. rewrite <- Ed. symmetry. apply ztake_zdrop. }
  assert (fsize f <= S (length (ep_pack_data p)))%nat as Hfu.
  { pose proof (proj2 enc_fuel f). unfold zlen in Ez. lia. }
  pose proof (ep_bson_print_shows _ _ f _ _ Hf ltac:(lia) Hfu Hat (mk_out (0 :: F0) (o_stdout o) (o_stderr o)) [] eq_refl) as S.
  cbn [o_format o_stdout o_stderr app] in S. rewrite zlen_nil, Z.add_0_l, zlen_cons in S. rewrite zlen_cons.
  unfold ep_bson_print_raw. destruct (_ <? _); [|by rewrite S].
  destruct S as (F & -> & LF & CF). exists F. split; [done|]. split; [done|]. unfold text. by rewrite CF.
Qed.

Lemma pack_print_shows_witness :
  exists p, build_pack [] demo_tree = Ok (Some p) /\
  if zlen (top_lines demo_tree) <? zlen (replicate 64 170) then
    exists F, ep_pack_print p (mk_out (replicate 64 170) [] []) = Ok (p, mk_out F (lower_lines demo_tree) []) /\
      zlen F = zlen (replicate 64 170) /\ text F = top_lines demo_tree
  else ep_pack_print p (mk_out (replicate 64 170) [] []) = Fault OutOfBounds.
Proof.
  refine (pack_print_shows demo_tree (mk_out (replicate 64 170) [] []) demo_tree_ok _).
  apply Z.leb_le. vm_compute. reflexivity.
Defined.

(** The lines of the example, and what is below them. *)
Example demo_lines : top_lines demo_tree = lit "> uid: joe" ++ lf ++ lit "> dish: " ++ lf ++ lit "> k: BSON_BINDATA" ++ lf /\
  lower_lines demo_tree = lit "    > id: -7" ++ lf ++ lit "    > ok: true" ++ lf.
Proof. split; reflexivity. Qed.

Example demo_doubles : map fix6 [double_of_Z 3; 4591870180066957722; 13837628687431468646; 9218868437227405312] =
  map lit ["3.000000"; "0.100000"; "-3.141590"; "inf"]%string.
Proof. vm_compute. reflexivity. Qed.

End Print.
