(* ===== verification/Log.v ===== *)
(** * Log: the log of the server (log/src/log.c, colored_fputs.c)

    A line of the log is formatted twice: the message into an array of 1000 characters, and the line,
    with the time, the level and the place, into one of 1024. It goes to the console in colour and
    to the file. The time, and whether the file could be opened, are arguments. *)
From Stdlib Require Import String.
From S2P Require Import Prelude Alloc Cstr Fmt.
From stdpp Require Import gmap.
Import Alloc Cstr Fmt.
Open Scope Z_scope.

Module Log.

Definition log_level_error : Z := 0.
Definition log_level_warn : Z := 1.
Definition log_level_info : Z := 2.
Definition log_level_debug : Z := 3.

(** The globals of log.c and colored_fputs.c, the files by their names, and what was written to
    stderr. [lg_fp] is the file that is open. *)
Record log := mk_log {
  a_level : Z;
  a_console_enable : bool;
  a_fp : option (list Z);
  use_color : Z;
  lg_files : gmap (list Z) (list Z);
  lg_stderr : list Z;
}.

(** The globals at the start of the program. *)
Definition log_start : log := mk_log log_level_debug true None (-1) ∅ [].

Definition set_fp (g : log) fp : log := mk_log (a_level g) (a_console_enable g) fp (use_color g) (lg_files g) (lg_stderr g).
Definition put_stderr (g : log) (s : list Z) : log :=
  mk_log (a_level g) (a_console_enable g) (a_fp g) (use_color g) (lg_files g) (lg_stderr g ++ s).
Definition put_file (g : log) (f s : list Z) : log :=
  mk_log (a_level g) (a_console_enable g) (a_fp g) (use_color g) (<[f := default [] (lg_files g !! f) ++ s]> (lg_files g)) (lg_stderr g).

Definition log_fini (g : log) : log := set_fp g None.

(** [opened]: whether [fopen (localfile, "a+")] gave a file; what is in it stays. *)
Definition log_init (g : log) (localfile : list Z) (opened : bool) : Z * log :=
  let g := log_fini g in
  if opened then (1, set_fp g (Some localfile)) else (0, g).

Definition log_set_level (g : log) (level : Z) : log :=
  mk_log level (a_console_enable g) (a_fp g) (use_color g) (lg_files g) (lg_stderr g).
Definition log_set_console (g : log) (enable : bool) : log :=
  mk_log (a_level g) enable (a_fp g) (use_color g) (lg_files g) (lg_stderr g).

(** ** The console *)

Definition color : list Z := [65; 17; 3; 9].

(** "\033[%d;3%dm" and "\033[0m" *)
Definition set_color (x : Z) : res (list Z) :=
  match color !! Z.to_nat x with
  | Some c => if x <? 0 then Fault OutOfBounds else Ok ([27; 91] ++ dec (Z.shiftr c 4) ++ [59; 51] ++ dec (Z.land c 15) ++ [109])
  | None => Fault OutOfBounds
  end.
Definition reset_color : list Z := [27; 91; 48; 109].

(** [apple]: the build for that system, where there is no colour. *)
Definition colored_fputs (apple : bool) (g : log) (level : Z) (str : list Z) : res log :=
  let g := (if (use_color g <? 0) && apple then mk_log (a_level g) (a_console_enable g) (a_fp g) 0 (lg_files g) (lg_stderr g) else g) in
  pre ← (if negb (use_color g =? 0) then set_color level else Ok []);
  let g := put_stderr g (pre ++ str) in
  Ok (if negb (use_color g =? 0) then put_stderr g reset_color else g).

(** ** Formatting *)

(** [snprintf (buf, n, ...)] of a text: at most n-1 characters and the end. *)
Definition snprintf (buf : list Z) (n : Z) (t : list Z) : res (list Z) :=
  memcpy buf 0 (ztake (n - 1) t ++ [0]) (zlen (ztake (n - 1) t) + 1).

(** [%0wd] of a number that is not negative, and [%-5s] *)
Definition pad0 (w : Z) (n : Z) : list Z := replicate (Z.to_nat (w - zlen (udec n))) 48 ++ udec n.
Definition left5 (s : list Z) : list Z := s ++ replicate (Z.to_nat (5 - zlen s)) 32.

(** [struct tm] as [localtime] gives it (the year and the month already as they are printed), and the
    microseconds. *)
Record moment := mk_moment { t_year : Z; t_mon : Z; t_mday : Z; t_hour : Z; t_min : Z; t_sec : Z; t_usec : Z }.

(** "%04d-%02d-%02d %02d:%02d:%02d.%03d". The milliseconds [tv_usec / 1000] are a long passed for
    the %03d; a value below 1000 is printed the same where a long argument takes a slot of its own,
    as on the 64-bit targets. *)
Definition stamp (t : moment) : list Z :=
  pad0 4 (t_year t) ++ [45] ++ pad0 2 (t_mon t) ++ [45] ++ pad0 2 (t_mday t) ++ [32] ++
  pad0 2 (t_hour t) ++ [58] ++ pad0 2 (t_min t) ++ [58] ++ pad0 2 (t_sec t) ++ [46] ++ pad0 3 (t_usec t / 1000).

(** What follows the last [c], as [strrchr] + 1 *)
Fixpoint after_last (c : Z) (s : list Z) : option (list Z) :=
  match s with
  | [] => None
  | x :: s => match after_last c s with Some r => Some r | None => if x =? c then Some s else None end
  end.

Definition suffix_file (c_file : list Z) : list Z :=
  match after_last 47 c_file with
  | Some s => s
  | None => match after_last 92 c_file with Some s => s | None => c_file end
  end.

Definition level_name (level : Z) : list Z :=
  if level =? log_level_debug then lit "DEBUG" else if level =? log_level_info then lit "INFO"
  else if level =? log_level_warn then lit "WARN" else lit "ERROR".

(** [fprintf (a_fp, string, NULL)]: the text is taken as a format. [nil] is the text of the pointer
    that is the only argument, for [%p]; every other conversion reads it as what it is not, or an
    argument that is not there. A pointer printed with a width or a flag counts as one of those; the
    theorems are about texts without a percent sign, or with one before a letter of [taking]. *)
Fixpoint printf_null (nil : option (list Z)) (fmt : list Z) : res (list Z) :=
  match fmt with
  | [] => Ok []
  | c :: fmt =>
      if c =? 37 then
        match fmt with
        | d :: fmt' =>
            if d =? 37 then t ← printf_null nil fmt'; Ok (37 :: t)
            else if d =? 112 then match nil with Some p => t ← printf_null None fmt'; Ok (p ++ t) | None => Fault WildPointer end
            else Fault WildPointer
        | [] => Fault WildPointer
        end
      else t ← printf_null nil fmt; Ok (c :: t)
  end.

(** The conversions that take an argument that is not a pointer to anything ([%s] and [%n] follow
    the pointer). *)
Definition taking : list Z := lit "diouxXcsneEfFgGaA".

(** ** The lines *)

Section output.
Context (apple : bool) (nil : list Z).

(** Both functions end with this, under the lock. *)
Definition write_line (g : log) (level : Z) (string : list Z) : res log :=
  g ← (if a_console_enable g then colored_fputs apple g level string else Ok g);
  match a_fp g with
  | Some f => t ← printf_null (Some nil) string; Ok (put_file g f t)
  | None => Ok g
  end.

(** [message]: [vsnprintf (log, sizeof (log) - 1, format, args)] *)
Definition message (format : list Z) (args : list arg) : res (list Z) :=
  t ← Fmt.format (pieces format) args; snprintf (junk 1000) 999 t.

Definition log_output (g : log) (t : moment) (level : Z) (c_file function : list Z) (line : Z) (format : list Z) (args : list arg) : res log :=
  if bool_decide (a_fp g = None) && negb (a_console_enable g) then Ok g else
  log ← message format args;
  let s := stamp t ++ [32] ++ left5 (level_name level) ++ lit " - " ++ text log ++ lit " [" ++ suffix_file c_file ++ [47] ++ function ++
           [40] ++ dec line ++ [41; 93; 13; 10] in
  string ← snprintf (junk 1024) 1023 s;
  write_line g level (text string).

Definition log_output2 (g : log) (t : moment) (format : list Z) (args : list arg) : res log :=
  if bool_decide (a_fp g = None) && negb (a_console_enable g) then Ok g else
  log ← message format args;
  let s := stamp t ++ replicate 9 32 ++ text log ++ [13; 10] in
  string ← snprintf (junk 1024) 1023 s;
  write_line g log_level_info (text string).

End output.

(** ** Lemmas *)

Lemma snprintf_text buf n t : no_zero t -> 0 < n <= zlen buf -> exists b, snprintf buf n t = Ok b /\ text b = ztake (n - 1) t /\ zlen b = zlen buf.
Proof.
  intros Hz Hn. unfold snprintf. set (s := ztake (n - 1) t).
  assert (Ls : zlen s <= n - 1) by (unfold s; rewrite zlen_ztake by lia; lia). pose proof (zlen_nonneg s).
  rewrite memcpy_ok by (rewrite ?zlen_app, ?zlen_cons, ?zlen_nil; lia). eexists. split; [reflexivity|].
  unfold splice. rewrite (ztake_all (zlen s + 1)) by (rewrite zlen_app, zlen_cons, zlen_nil; lia).
  rewrite (ztake_0 0) by lia. cbn [app]. rewrite <- app_assoc. cbn [app]. split.
  - apply text_app. unfold s, ztake. by apply Forall_take.
  - rewrite zlen_app, (zlen_cons 0 (zdrop _ _)), zlen_zdrop; rewrite ?zlen_app, ?(zlen_cons 0 []); change (zlen (@nil Z)) with 0; lia.
Qed.

Lemma printf_null_plain nil s : 37 ∉ s -> printf_null nil s = Ok s.
Proof.
  induction s as [|c s IH]; intros H; [done|]. cbn. destruct (Z.eqb_spec c 37) as [->|_]; [set_solver|]. rewrite IH by set_solver. done.
Qed.

Lemma printf_null_conversion nil s d r : 37 ∉ s -> d <> 37 -> d <> 112 -> printf_null nil (s ++ 37 :: d :: r) = Fault WildPointer.
Proof.
  intros Hs H1 H2. induction s as [|c s IH]; cbn.
  - destruct (Z.eqb_spec d 37); [done|]. by destruct (Z.eqb_spec d 112).
  - destruct (Z.eqb_spec c 37) as [->|_]; [set_solver|]. rewrite IH by set_solver. done.
Qed.

Lemma all_digits_no_zero s : all_digits s -> no_zero s.
Proof. intros H. eapply Forall_impl; [exact H|]. intros c Hc%is_digit_range. lia. Qed.

Lemma pad0_digits w n : all_digits (pad0 w n).
Proof. unfold pad0. apply Forall_app. split; [by apply Forall_replicate|apply udec_all]. Qed.

Lemma pad0_length w n : (0 < w)%nat -> 0 <= n < 10 ^ Z.of_nat w -> zlen (pad0 (Z.of_nat w) n) = Z.of_nat w.
Proof.
  intros Hw Hn. unfold pad0. rewrite zlen_app, zlen_replicate. pose proof (digits_length (S (Z.to_nat (Z.log2 n))) n [] w Hn Hw) as H.
  rewrite zlen_nil in H. unfold udec in *. lia.
Qed.

(** A time as [localtime] gives it, in the years the format has room for. *)
Definition calendar (t : moment) : Prop :=
  0 <= t_year t < 10000 /\ 0 <= t_mon t < 100 /\ 0 <= t_mday t < 100 /\ 0 <= t_hour t < 100 /\ 0 <= t_min t < 100 /\ 0 <= t_sec t < 100 /\
  0 <= t_usec t < 1000000.

Lemma stamp_length t : calendar t -> zlen (stamp t) = 23.
Proof.
  intros (H1 & H2 & H3 & H4 & H5 & H6 & H7). unfold stamp. rewrite !zlen_app.
  assert (0 <= t_usec t / 1000 < 1000) by (split; [apply Z.div_pos; lia|apply Z.div_lt_upper_bound; lia]).
  rewrite (pad0_length 4), !(pad0_length 2), (pad0_length 3) by (cbn; lia). reflexivity.
Qed.

(** A character that is no digit and none of the separators is not in the stamp. *)
Lemma stamp_chars t c : c ∈ stamp t -> 48 <= c <= 57 \/ c ∈ [45; 32; 58; 46].
Proof.
  assert (D : forall w n, c ∈ pad0 w n -> 48 <= c <= 57).
  { intros w n H. pose proof (pad0_digits w n) as A. unfold all_digits in A. rewrite Forall_forall in A. by apply is_digit_range, A. }
  unfold stamp. rewrite !elem_of_app. intros H.
  repeat match type of H with _ \/ _ => destruct H as [H|H] end; first [left; eapply D, H|right; set_solver].
Qed.

Lemma level_name_chars l c : c ∈ level_name l -> 65 <= c <= 90.
Proof.
  unfold level_name. intros H.
  assert (A : Forall (fun c => 65 <= c <= 90) (lit "DEBUG") /\ Forall (fun c => 65 <= c <= 90) (lit "INFO") /\
              Forall (fun c => 65 <= c <= 90) (lit "WARN") /\ Forall (fun c => 65 <= c <= 90) (lit "ERROR")).
  { split_and!; apply (bool_decide_unpack _); vm_compute; exact Logic.I. }
  destruct A as (A1 & A2 & A3 & A4). rewrite Forall_forall in *. repeat case_match; eauto.
Qed.

(** What a line consists of, before it is cut. *)
Definition line_head (tm : moment) (level : Z) : list Z := stamp tm ++ [32] ++ left5 (level_name level) ++ lit " - ".
Definition line_tail (c_file function : list Z) (line : Z) : list Z :=
  lit " [" ++ suffix_file c_file ++ [47] ++ function ++ [40] ++ dec line ++ [41; 93; 13; 10].
Definition line_text (tm : moment) (level : Z) (c_file function : list Z) (line : Z) (t : list Z) : list Z :=
  line_head tm level ++ ztake 998 t ++ line_tail c_file function line.

Lemma line_head_chars tm level c : c ∈ line_head tm level -> 32 <= c /\ c <> 37.
Proof.
  unfold line_head, left5. change (lit " - ") with [32; 45; 32]. rewrite !elem_of_app. intros H.
  repeat match type of H with _ \/ _ => destruct H as [H|H] end.
  - apply stamp_chars in H as [H|H]; [lia|]. repeat (apply elem_of_cons in H as [->|H]; [lia|]). set_solver.
  - apply list_elem_of_singleton in H as ->. lia.
  - apply level_name_chars in H. lia.
  - apply elem_of_replicate in H as [-> _]. lia.
  - repeat (apply elem_of_cons in H as [->|H]; [lia|]). set_solver.
Qed.

Lemma line_head_length tm level : calendar tm -> zlen (line_head tm level) = 32.
Proof.
  intros H. unfold line_head. rewrite !zlen_app, (stamp_length tm H). unfold level_name. repeat case_match; reflexivity.
Qed.

Lemma after_last_sub c s r : after_last c s = Some r -> exists p, s = p ++ r.
Proof.
  revert r. induction s as [|x s IH]; intros r; [done|]. cbn. destruct (after_last c s) as [r'|].
  - intros [= <-]. destruct (IH r' eq_refl) as [p ->]. by exists (x :: p).
  - destruct (x =? c); [|done]. intros [= <-]. by exists [x].
Qed.

Lemma suffix_file_sub s : exists p, s = p ++ suffix_file s.
Proof.
  unfold suffix_file. destruct (after_last 47 s) eqn:E1; [by eapply after_last_sub|].
  destruct (after_last 92 s) eqn:E2; [by eapply after_last_sub|by exists []].
Qed.

Lemma line_tail_chars c_file function line c : c ∈ line_tail c_file function line -> c ∈ c_file \/ c ∈ function \/ (c <> 0 /\ c <> 37).
Proof.
  unfold line_tail. change (lit " [") with [32; 91]. rewrite !elem_of_app. intros H.
  repeat match type of H with _ \/ _ => destruct H as [H|H] end.
  - right. right. repeat (apply elem_of_cons in H as [->|H]; [lia|]). set_solver.
  - left. destruct (suffix_file_sub c_file) as [p E]. rewrite E. set_solver.
  - right. right. apply list_elem_of_singleton in H as ->. lia.
  - by right; left.
  - right. right. apply list_elem_of_singleton in H as ->. lia.
  - right. right. pose proof (dec_chars line) as A. rewrite Forall_forall in A. specialize (A c H). unfold dec_char in A. lia.
  - right. right. repeat (apply elem_of_cons in H as [->|H]; [lia|]). set_solver.
Qed.

Lemma no_zero_spec s : no_zero s <-> 0 ∉ s.
Proof. unfold no_zero. rewrite Forall_forall. split; [intros H Hs; by apply (H 0)|intros H c Hc ->; done]. Qed.

Lemma line_no_zero tm level c_file function line t : no_zero t -> no_zero c_file -> no_zero function ->
  no_zero (line_text tm level c_file function line t).
Proof.
  rewrite !no_zero_spec. intros Ht Hf Hn H. unfold line_text in H. rewrite !elem_of_app in H. destruct H as [H|[H|H]].
  - apply line_head_chars in H. lia.
  - apply Ht. rewrite <- (ztake_zdrop 998 t). set_solver.
  - apply line_tail_chars in H as [H|[H|[H _]]]; done.
Qed.

(** The line the two formattings give. *)
Lemma log_output_line apple nil g tm level c_file function line fmt args t :
  Fmt.format (pieces fmt) args = Ok t -> no_zero t -> no_zero c_file -> no_zero function ->
  a_console_enable g = true \/ a_fp g <> None ->
  log_output apple nil g tm level c_file function line fmt args = write_line apple nil g level (ztake 1022 (line_text tm level c_file function line t)).
Proof.
  intros E Ht Hf Hn Ho. unfold log_output.
  replace (bool_decide (a_fp g = None) && negb (a_console_enable g)) with false by (symmetry; destruct Ho as [->|Ho]; [apply andb_false_r|by rewrite bool_decide_eq_false_2]).
  unfold message. rewrite E. cbn [mbind res_bind].
  destruct (snprintf_text (junk 1000) 999 t Ht) as (b & -> & Eb & _); [rewrite zlen_junk; lia|]. cbn [mbind res_bind]. rewrite Eb.
  set (s := stamp tm ++ _). assert (Es : s = line_text tm level c_file function line t).
  { unfold s, line_text, line_head, line_tail. by rewrite <- !app_assoc. }
  rewrite Es. destruct (snprintf_text (junk 1024) 1023 (line_text tm level c_file function line t)) as (b' & -> & Eb' & _);
    [by apply line_no_zero|rewrite zlen_junk; lia|]. cbn [mbind res_bind]. by rewrite Eb'.
Qed.

Lemma set_color_ok level : 0 <= level <= 3 -> exists c, set_color level = Ok c.
Proof. intros H. assert (level = 0 \/ level = 1 \/ level = 2 \/ level = 3) as [->|[->|[->| ->]]] by lia; by eexists. Qed.

Lemma colored_fputs_spec apple g level s : 0 <= level <= 3 ->
  exists g' pre post, colored_fputs apple g level s = Ok g' /\ lg_stderr g' = lg_stderr g ++ pre ++ s ++ post /\ a_fp g' = a_fp g /\ lg_files g' = lg_files g.
Proof.
  intros H. destruct (set_color_ok level H) as [c Ec]. unfold colored_fputs.
  set (g1 := if (use_color g <? 0) && apple then _ else g).
  assert (E1 : lg_stderr g1 = lg_stderr g /\ a_fp g1 = a_fp g /\ lg_files g1 = lg_files g) by (unfold g1; by destruct (_ && _)).
  destruct E1 as (<- & <- & <-). destruct (use_color g1 =? 0) eqn:Eu; cbn [negb mbind res_bind].
  - eexists _, [], []. split; [reflexivity|]. cbn [use_color put_stderr]. rewrite Eu. cbn. by rewrite app_nil_r.
  - rewrite Ec. cbn [mbind res_bind]. eexists _, c, reset_color. split; [reflexivity|]. cbn [use_color put_stderr]. rewrite Eu. cbn. by rewrite <- !app_assoc.
Qed.

Lemma dec_length n : is_i32 n -> zlen (dec n) <= 11.
Proof.
  intros H. unfold dec, is_i32, udec in *. case_zbool.
  - rewrite zlen_cons. pose proof (digits_length (S (Z.to_nat (Z.log2 (- n)))) (- n) [] 10) as L. change (zlen (@nil Z)) with 0 in L. change (10 ^ Z.of_nat 10) with 10000000000 in L. lia.
  - pose proof (digits_length (S (Z.to_nat (Z.log2 n))) n [] 10) as L. change (zlen (@nil Z)) with 0 in L. change (10 ^ Z.of_nat 10) with 10000000000 in L. lia.
Qed.

Lemma line_whole tm level c_file function line t : calendar tm -> is_i32 line ->
  zlen t + zlen (suffix_file c_file) + zlen function <= 971 -> zlen (line_text tm level c_file function line t) <= 1022.
Proof.
  intros Hc Hi H. unfold line_text, line_tail. rewrite !zlen_app, (line_head_length tm level Hc), zlen_ztake by lia.
  pose proof (dec_length line Hi). change (zlen (lit " [")) with 2. change (zlen [47]) with 1. change (zlen [40]) with 1. change (zlen [41; 93; 13; 10]) with 4. lia.
Qed.

Lemma ztake_app_ge n (s r : list Z) : zlen s <= n -> ztake n (s ++ r) = s ++ ztake (n - zlen s) r.
Proof. intros H. unfold ztake, zlen in *. rewrite take_app_ge by lia. do 2 f_equal. lia. Qed.

(** ** Properties *)

(** C30: A line of the log is what it should be, on both sides. When the level of the message is
    one that is shown (at most the level that was set) and neither the message nor the names
    of the place hold a percent sign, the file that is open gets exactly the line (time, level,
    message, file without its directories, function, number) and the console gets the same line
    between its colours; nothing is written outside the two arrays, because the message is cut after
    998 characters and the line after 1022; and a line whose message and names have at most 971
    characters together is whole, its line break included. Messages above the level that was set are
    written too, against the documentation ([log_level_ignored]). *)
Theorem log_line_written apple nil g tm level c_file function line fmt args t :
  Fmt.format (pieces fmt) args = Ok t -> no_zero t -> no_zero c_file -> no_zero function ->
  37 ∉ t -> 37 ∉ c_file -> 37 ∉ function -> 0 <= level <= 3 -> level <= a_level g -> calendar tm -> is_i32 line ->
  let whole := line_text tm level c_file function line t in let s := ztake 1022 whole in
  exists g', log_output apple nil g tm level c_file function line fmt args = Ok g' /\ a_fp g' = a_fp g /\
    lg_files g' = (match a_fp g with Some f => <[f := default [] (lg_files g !! f) ++ s]> (lg_files g) | None => lg_files g end) /\
    (if a_console_enable g then exists pre post, lg_stderr g' = lg_stderr g ++ pre ++ s ++ post else lg_stderr g' = lg_stderr g) /\
    (zlen t + zlen (suffix_file c_file) + zlen function <= 971 -> s = whole).
Proof.
  intros E Ht Hf Hn Pt Pf Pn Hl _ Hc Hi whole s.
  assert (Hs : 37 ∉ s).
  { intros H. assert (37 ∈ whole) as H' by (rewrite <- (ztake_zdrop 1022 whole); set_solver).
    unfold whole, line_text in H'. rewrite !elem_of_app in H'. destruct H' as [H'|[H'|H']].
    - apply line_head_chars in H'. lia.
    - apply Pt. rewrite <- (ztake_zdrop 998 t). set_solver.
    - apply line_tail_chars in H' as [H'|[H'|[_ H']]]; done. }
  assert (Hw : zlen t + zlen (suffix_file c_file) + zlen function <= 971 -> s = whole) by (intros H; by apply ztake_all, line_whole).
  destruct (decide (a_console_enable g = true \/ a_fp g <> None)) as [Ho|Ho].
  - rewrite (log_output_line _ _ _ _ _ _ _ _ _ _ t E Ht Hf Hn Ho). fold whole s. unfold write_line.
    destruct (a_console_enable g).
    + destruct (colored_fputs_spec apple g level s Hl) as (g' & pre & post & -> & Es & Ef & Efi). cbn [mbind res_bind]. rewrite Ef.
      destruct (a_fp g) as [f|] eqn:Eg; [rewrite (printf_null_plain _ _ Hs)|]; cbn [mbind res_bind]; eexists; (split; [reflexivity|]); cbn; rewrite ?Efi; eauto 10.
    + cbn [mbind res_bind]. destruct (a_fp g) as [f|] eqn:Eg; [rewrite (printf_null_plain _ _ Hs)|]; cbn [mbind res_bind]; eexists; (split; [reflexivity|]); cbn; rewrite ?Eg; done.
  - exists g. destruct (a_console_enable g) eqn:Ec; [by destruct Ho; left|]. destruct (a_fp g) eqn:Ef; [by destruct Ho; right|].
    unfold log_output. rewrite Ef, Ec. by split_and!.
Qed.

Definition demo_moment : moment := mk_moment 2013 5 17 9 4 33 250123.
Definition demo_log : log := (log_init log_start (lit "youmenu.log") true).2.

Lemma demo_calendar : calendar demo_moment.
Proof. unfold calendar, demo_moment. cbn. lia. Qed.

Ltac chars := first [apply (bool_decide_eq_true_1 (Forall (fun c => c <> 0) _))|apply (bool_decide_eq_true_1 (37 ∉ _))]; reflexivity.

Lemma log_line_written_witness : exists g',
  log_output false (lit "(nil)") demo_log demo_moment 0 (lit "src/server/server.c") (lit "server_init_network") 246 (lit "service start error, %s.") [AStr (lit "port in use" ++ [0])] = Ok g' /\
  lg_files g' = <[lit "youmenu.log" := lit "2013-05-17 09:04:33.250 ERROR - service start error, port in use. [server.c/server_init_network(246)]" ++ [13; 10]]> ∅.
Proof.
  destruct (log_line_written false (lit "(nil)") demo_log demo_moment 0 (lit "src/server/server.c") (lit "server_init_network") 246 (lit "service start error, %s.")
    [AStr (lit "port in use" ++ [0])] (lit "service start error, port in use.")) as (g' & E & _ & Ef & _ & Hw).
  - reflexivity.
  - chars.
  - chars.
  - chars.
  - chars.
  - chars.
  - chars.
  - lia.
  - vm_compute. discriminate.
  - exact demo_calendar.
  - unfold is_i32. lia.
  - exists g'. split; [exact E|]. rewrite Ef. reflexivity.
Defined.

Lemma taking_not d : d ∈ taking -> d <> 37 /\ d <> 112.
Proof. intros H. assert (Forall (fun d => d <> 37 /\ d <> 112) taking) as F by (cbn; repeat constructor; done). by apply (proj1 (Forall_forall _ _) F). Qed.

(** C39: A message is used as a format. [fprintf (a_fp, string, NULL)] gives the finished line to the
    file as a format string: when the text that was logged, say a string that came from outside and
    was printed with %s, holds a conversion such as %s or %d within its first 988 characters, the
    line is undefined behaviour as soon as a log file is open, although the message itself was
    formatted correctly. *)
Theorem log_format_string apple nil g f tm level c_file function line fmt args pre d post :
  a_fp g = Some f -> Fmt.format (pieces fmt) args = Ok (pre ++ 37 :: d :: post) -> no_zero (pre ++ 37 :: d :: post) -> no_zero c_file -> no_zero function ->
  37 ∉ pre -> d ∈ taking -> zlen pre <= 988 -> 0 <= level <= 3 -> calendar tm ->
  log_output apple nil g tm level c_file function line fmt args = Fault WildPointer.
Proof.
  intros Ef E Ht Hf Hn Pp [D1 D2]%taking_not Hl Hv Hc.
  rewrite (log_output_line _ _ _ _ _ _ _ _ _ _ _ E Ht Hf Hn) by (right; congruence).
  assert (exists r, ztake 1022 (line_text tm level c_file function line (pre ++ 37 :: d :: post)) = (line_head tm level ++ pre) ++ 37 :: d :: r) as [r ->].
  { unfold line_text. set (h := line_head tm level). set (k := line_tail _ _ _). assert (Lh : zlen h = 32) by (by apply line_head_length).
    pose proof (zlen_nonneg pre). exists (ztake (1022 - (32 + zlen pre + 2)) (ztake (998 - (zlen pre + 2)) post ++ k)).
    replace (pre ++ 37 :: d :: post) with ((pre ++ [37; d]) ++ post) by (by rewrite <- app_assoc).
    rewrite (ztake_app_ge 998 (pre ++ [37; d])) by (rewrite zlen_app; change (zlen [37; d]) with 2; lia).
    rewrite <- !app_assoc. rewrite (app_assoc h), (app_assoc (h ++ pre)).
    rewrite (ztake_app_ge 1022) by (rewrite !zlen_app; change (zlen [37; d]) with 2; lia).
    rewrite !zlen_app, Lh. change (zlen [37; d]) with 2. rewrite <- !app_assoc. cbn [app]. do 5 f_equal. }
  unfold write_line. assert (Hp : 37 ∉ line_head tm level ++ pre).
  { intros [H|H]%elem_of_app; [apply line_head_chars in H; lia|done]. }
  destruct (a_console_enable g).
  - destruct (colored_fputs_spec apple g level ((line_head tm level ++ pre) ++ 37 :: d :: r) Hv) as (g' & p & q & -> & _ & Eg & _). cbn [mbind res_bind].
    rewrite Eg, Ef, printf_null_conversion by done. done.
  - cbn [mbind res_bind]. rewrite Ef, printf_null_conversion by done. done.
Qed.

Lemma log_format_string_witness :
  log_output false (lit "(nil)") demo_log demo_moment 0 (lit "server.c") (lit "server_init_network") 246 (lit "service start error, %s.") [AStr (lit "100%done" ++ [0])] = Fault WildPointer.
Proof.
  apply (log_format_string false (lit "(nil)") demo_log (lit "youmenu.log") demo_moment 0 (lit "server.c") (lit "server_init_network") 246 (lit "service start error, %s.")
    [AStr (lit "100%done" ++ [0])] (lit "service start error, 100") 100 (lit "one.")).
  - reflexivity.
  - reflexivity.
  - chars.
  - chars.
  - chars.
  - chars.
  - apply (bool_decide_unpack _). vm_compute. exact I.
  - vm_compute. discriminate.
  - lia.
  - exact demo_calendar.
Defined.

(** The level that was set is not looked at: [CHECK_LEVEL] is used nowhere, so that a message of any
    level is written whatever [log_set_level] was given. *)
Theorem log_level_ignored apple nil g l tm level c_file function line fmt args :
  log_output apple nil (log_set_level g l) tm level c_file function line fmt args =
  (g' ← log_output apple nil g tm level c_file function line fmt args; Ok (log_set_level g' l)).
Proof.
  unfold log_output. cbn [a_fp a_console_enable log_set_level]. destruct (bool_decide _ && _); [done|].
  destruct (message fmt args) as [m|]; cbn [mbind res_bind]; [|done]. destruct (snprintf _ _ _) as [b|]; cbn [mbind res_bind]; [|done].
  unfold write_line, colored_fputs. cbn [a_fp a_console_enable log_set_level use_color]. destruct (a_console_enable g).
  - destruct ((use_color g <? 0) && apple); cbn [use_color log_set_level]; destruct (use_color g =? 0) eqn:Eu; cbn;
      try (destruct (set_color level); cbn; [|done]); rewrite ?Eu; cbn; destruct (a_fp g); cbn; try done; destruct (printf_null _ _); done.
  - cbn. destruct (a_fp g); cbn; [|done]. by destruct (printf_null _ _).
Qed.

End Log.
