(* ===== verification/Sock.v ===== *)
(** * Sock: socket options and addresses (eventpack/src/ep_util.c)

    The functions are wrappers of system calls, as a system with the interface of POSIX and the options
    of Linux has them: a table of descriptors with their flags, their options and the address of
    the other side. *)
From Stdlib Require Import String.
From S2P Require Import Prelude Words Cstr Fmt.
From stdpp Require Import gmap.
Import Words Cstr Fmt.
Open Scope Z_scope.

Module Sock.

(** [sin_addr] and [sin_port] as they are in memory: in network order. *)
Record sockaddr_in := mk_sin { sin_addr : list Z; sin_port : Z }.

Record sock := mk_sock {
  so_flags : Z;
  so_keepalive : Z;
  so_keepidle : Z;
  so_peer : option sockaddr_in;
}.

Abbreviation socks := (gmap Z sock).

Definition O_NONBLOCK : Z := 2048.

(** ** The calls of the system *)

Definition getfl (t : socks) (fd : Z) : Z := match t !! fd with Some s => so_flags s | None => -1 end.

Definition setfl (t : socks) (fd flags : Z) : Z * socks :=
  match t !! fd with
  | Some s => (0, <[fd := mk_sock flags (so_keepalive s) (so_keepidle s) (so_peer s)]> t)
  | None => (-1, t)
  end.

Definition close (t : socks) (fd : Z) : Z * socks := match t !! fd with Some _ => (0, delete fd t) | None => (-1, t) end.

Definition setsockopt_keepalive (t : socks) (fd on : Z) : Z * socks :=
  match t !! fd with
  | Some s => (0, <[fd := mk_sock (so_flags s) on (so_keepidle s) (so_peer s)]> t)
  | None => (-1, t)
  end.

(** The seconds are between 1 and 32767. *)
Definition setsockopt_keepidle (t : socks) (fd delay : Z) : Z * socks :=
  match t !! fd with
  | Some s =>
      if (delay <? 1) || (32767 <? delay) then (-1, t)
      else (0, <[fd := mk_sock (so_flags s) (so_keepalive s) delay (so_peer s)]> t)
  | None => (-1, t)
  end.

Definition getpeername (t : socks) (fd : Z) : option sockaddr_in := s ← t !! fd; so_peer s.

(** The four bytes in decimal, with dots between them. *)
Definition inet_ntoa (addr : list Z) : list Z :=
  match addr with
  | a :: b :: c :: d :: _ => udec a ++ [46] ++ udec b ++ [46] ++ udec c ++ [46] ++ udec d
  | _ => []
  end.

(** ** ep_util.c *)

(** Outside of Windows there is nothing to do. *)
Definition ep_sock_win32_init (init : Z) : Z := 1.

Definition ep_sock_setblock (t : socks) (fd lock : Z) : Z * socks :=
  let flags := getfl t fd in
  let flags := (if negb (lock =? 0) then Z.land flags (Z.lnot O_NONBLOCK) else Z.lor flags O_NONBLOCK) in
  let '(r, t) := setfl t fd flags in
  ((if negb (r =? -1) then 1 else 0), t).

Definition ep_sock_close (t : socks) (fd : Z) : Z * socks :=
  let '(r, t) := close t fd in ((if r =? 0 then 1 else 0), t).

(** With [TCP_KEEPIDLE], and without [TCP_KEEPALIVE], as on Linux. *)
Definition ep_sock_keepalive (t : socks) (fd on delay : Z) : Z * socks :=
  let '(r, t) := setsockopt_keepalive t fd on in
  if negb (r =? 0) then (0, t) else
  if negb (on =? 0) then
    let '(r, t) := setsockopt_keepidle t fd delay in
    if negb (r =? 0) then (0, t) else (1, t)
  else (1, t).

(** The array [ip] and the port. *)
Definition ep_sock_ip (t : socks) (fd : Z) (ip : list Z) : res (Z * list Z * Z) :=
  ip ← memcpy ip 0 [0] 1;
  match getpeername t fd with
  | Some sin =>
      ip ← strncpy ip (inet_ntoa (sin_addr sin) ++ [0]) 16;
      ip ← memcpy ip 16 [0] 1;
      Ok (1, ip, ntohs (sin_port sin))
  | None => Ok (0, ip, 0)
  end.

(** ** Lemmas *)

Lemma udec_length n : 0 <= n < 1000 -> zlen (udec n) <= 3.
Proof. intros H. unfold udec. pose proof (digits_length (S (Z.to_nat (Z.log2 n))) n [] 3) as L. change (zlen (@nil Z)) with 0 in L. change (10 ^ Z.of_nat 3) with 1000 in L. lia. Qed.

Lemma inet_ntoa_length a b c d r : is_byte a -> is_byte b -> is_byte c -> is_byte d -> zlen (inet_ntoa (a :: b :: c :: d :: r)) <= 15.
Proof.
  unfold is_byte. intros Ha Hb Hc Hd. cbn [inet_ntoa]. rewrite !zlen_app. change (zlen [46]) with 1.
  pose proof (udec_length a). pose proof (udec_length b). pose proof (udec_length c). pose proof (udec_length d). lia.
Qed.

Lemma inet_ntoa_no_zero addr : no_zero (inet_ntoa addr).
Proof.
  assert (U : forall n, no_zero (udec n)) by (intros n; eapply Forall_impl; [apply udec_all|]; intros x Hx%is_digit_range; lia).
  unfold inet_ntoa. destruct addr as [|a [|b [|c [|d r]]]]; try constructor.
  unfold no_zero. repeat (apply Forall_app; split); first [apply U|by repeat constructor].
Qed.

Fixpoint span_digits (s : list Z) : list Z * list Z :=
  match s with
  | [] => ([], [])
  | c :: s' => if is_digit c then let '(d, r) := span_digits s' in (c :: d, r) else ([], s)
  end.

Lemma span_digits_app s c r : all_digits s -> is_digit c = false -> span_digits (s ++ c :: r) = (s, c :: r).
Proof. induction 1 as [|x s Hx _ IH]; intros Hc; cbn; [by rewrite Hc|]. by rewrite Hx, IH. Qed.

Lemma span_digits_all s : all_digits s -> span_digits s = (s, []).
Proof. induction 1 as [|x s Hx _ IH]; cbn; [done|]. by rewrite Hx, IH. Qed.

(** The numbers between the dots. *)
Definition octets (s : list Z) : list Z :=
  let rest := fun s => tail (snd (span_digits s)) in
  let n := fun s => digits_value 0 (fst (span_digits s)) in
  [n s; n (rest s); n (rest (rest s)); n (rest (rest (rest s)))].

Lemma octets_ntoa a b c d : is_byte a -> is_byte b -> is_byte c -> is_byte d -> octets (inet_ntoa [a; b; c; d]) = [a; b; c; d].
Proof.
  unfold is_byte. intros Ha Hb Hc Hd. unfold octets, inet_ntoa. cbn [app].
  repeat (rewrite span_digits_app by (apply udec_all || done); cbn [fst snd tail]).
  rewrite (span_digits_all (udec d)) by apply udec_all. cbn [fst]. by rewrite !udec_value by lia.
Qed.

(** ** Properties *)

(** The address of a peer is reported in full. Of a descriptor that is connected, [ep_sock_ip]
    answers 1, the port in the order of the host, and in the array of 17 characters the address in
    decimal, always whole and ended (it has at most 15 characters, so the copy of 16 cuts nothing),
    from which the four bytes can be read again; of any other descriptor it answers 0, the empty
    text and the port 0. *)
Theorem sock_ip_reports t fd ip : zlen ip = 17 ->
  match getpeername t fd with
  | Some (mk_sin addr port) => forall a b c d p, addr = [a; b; c; d] -> is_byte a -> is_byte b -> is_byte c -> is_byte d -> is_u16 p -> port = htons p ->
      exists ip', ep_sock_ip t fd ip = Ok (1, ip', p) /\ zlen ip' = 17 /\ cstr ip' = Some (inet_ntoa addr) /\ octets (text ip') = addr
  | None => exists ip', ep_sock_ip t fd ip = Ok (0, ip', 0) /\ zlen ip' = 17 /\ cstr ip' = Some []
  end.
Proof.
  intros Hl. unfold ep_sock_ip. rewrite memcpy_ok by (change (zlen [0]) with 1; lia). cbn [mbind res_bind].
  set (ip1 := splice ip 0 (ztake 1 [0])). assert (E1 : ip1 = 0 :: zdrop 1 ip) by reflexivity.
  assert (L1 : zlen ip1 = 17) by (rewrite E1, zlen_cons, zlen_zdrop; lia).
  destruct (getpeername t fd) as [[addr port]|]; [|exists ip1; split_and!; [done|done|by rewrite E1]].
  intros a b c d p -> Ha Hb Hc Hd Hp ->. cbn [sin_addr sin_port].
  pose proof (inet_ntoa_length a b c d [] Ha Hb Hc Hd) as LN. pose proof (inet_ntoa_no_zero [a; b; c; d]) as NZ.
  pose proof (octets_ntoa a b c d Ha Hb Hc Hd) as EO. set (s := inet_ntoa [a; b; c; d]) in *. clearbody s ip1.
  unfold strncpy. change (Z.to_nat 16) with 16%nat. rewrite strncpy_cells_fill by (done || unfold zlen in LN; lia). cbn [mbind res_bind].
  assert (Lc : zlen (s ++ replicate (16 - length s) 0) = 16) by (rewrite zlen_app, zlen_replicate; unfold zlen in *; lia).
  set (k := s ++ replicate (16 - length s) 0) in *. rewrite memcpy_ok by lia. cbn [mbind res_bind].
  rewrite (ztake_all 16 k) by lia. set (ip2 := splice ip1 0 k). assert (E2 : ip2 = k ++ zdrop 16 ip1) by (unfold ip2, splice; rewrite Lc, ztake_0 by lia; done).
  assert (L2 : zlen ip2 = 17) by (rewrite E2, zlen_app, zlen_zdrop; lia).
  rewrite memcpy_ok by (change (zlen [0]) with 1; lia). cbn [mbind res_bind]. eexists. split; [do 3 f_equal|].
  - unfold htons, ntohs. rewrite bswap_16_u, bswap_16_involutive, wrap_u_wrap_u by lia. by apply wrap_u_small.
  - assert (Ek : exists r, splice ip2 16 (ztake 1 [0]) = s ++ 0 :: r).
    { unfold splice. rewrite E2, (ztake_app_l k) by lia. unfold k. destruct (16 - length s)%nat as [|n] eqn:En; [unfold zlen in LN; lia|].
      rewrite <- app_assoc. cbn [replicate app]. eauto. }
    destruct Ek as [r Ek]. split; [|rewrite Ek; rewrite text_app, cstr_app by done; done].
    rewrite zlen_splice by (change (zlen (ztake 1 [0])) with 1; lia). done.
Qed.

Definition demo_socks : socks := {[ 4 := mk_sock 2 0 0 (Some (mk_sin [192; 168; 1; 20] (htons 1356))) ]}.

Lemma sock_ip_reports_witness : exists ip', ep_sock_ip demo_socks 4 (replicate 17 170) = Ok (1, ip', 1356) /\ cstr ip' = Some (lit "192.168.1.20").
Proof.
  destruct (sock_ip_reports demo_socks 4 (replicate 17 170) eq_refl 192 168 1 20 1356) as (ip' & E & _ & H & _); try (unfold is_byte, is_u16; lia); try reflexivity.
  exists ip'. by split.
Defined.

(** The mode of a descriptor is one bit: the others stay, and a descriptor that is not open is
    refused. *)
Theorem sock_setblock_bit t fd lock :
  match t !! fd with
  | Some s => exists t', ep_sock_setblock t fd lock = (1, t') /\
      forall i, 0 <= i -> Z.testbit (getfl t' fd) i = if i =? 11 then (lock =? 0) else Z.testbit (so_flags s) i
  | None => ep_sock_setblock t fd lock = (0, t)
  end.
Proof.
  unfold ep_sock_setblock, getfl, setfl. destruct (t !! fd) as [s|]; [|done]. cbn. eexists. split; [reflexivity|]. intros i Hi.
  rewrite lookup_insert_eq. cbn [so_flags]. change O_NONBLOCK with (2 ^ 11).
  destruct (Z.eqb_spec lock 0); cbn [negb].
  - rewrite Z.lor_spec, Z.pow2_bits_eqb by lia. rewrite (Z.eqb_sym 11). destruct (i =? 11); [apply orb_true_r|apply orb_false_r].
  - rewrite Z.land_spec, Z.lnot_spec, Z.pow2_bits_eqb by lia. rewrite (Z.eqb_sym 11). destruct (i =? 11); [apply andb_false_r|apply andb_true_r].
Qed.

(** A delay the system refuses is answered with 0, and the keepalive is on all the same. *)
Theorem sock_keepalive_partial t fd on delay s : t !! fd = Some s -> on <> 0 -> delay < 1 \/ 32767 < delay ->
  exists t', ep_sock_keepalive t fd on delay = (0, t') /\ so_keepalive <$> t' !! fd = Some on.
Proof.
  intros E Ho Hd. unfold ep_sock_keepalive, setsockopt_keepalive, setsockopt_keepidle. rewrite E. cbn.
  apply Z.eqb_neq in Ho. rewrite Ho. cbn. rewrite lookup_insert_eq.
  replace ((delay <? 1) || (32767 <? delay)) with true by (symmetry; apply orb_true_iff; rewrite !Z.ltb_lt; lia).
  cbn. eexists. split; [reflexivity|]. by rewrite lookup_insert_eq.
Qed.

End Sock.
