(* ===== verification/Double.v ===== *)
(** * Double: the floating-point conversions of the bookings

    A quantity travels as a double (64 bits, IEEE 754), is narrowed to a float by the handler that
    books, is printed with two decimals and is read back with [atof]. The conversions round to the
    nearest, to even in the middle. *)
From Stdlib Require Import String.
From S2P Require Import Prelude Cstr Fmt.
Import Cstr Fmt.

Module Double.

Definition INF : Z := 2047 * 2 ^ 52.

(** The exponent [k] with 2^k <= n/d < 2^(k+1). *)
Definition ratio_log (n d : Z) : Z :=
  let k := Z.log2 n - Z.log2 d in
  if (if 0 <=? k then n <? d * 2 ^ k else n * 2 ^ (- k) <? d) then k - 1 else k.

(** [n/d] in units of 2^q, rounded. *)
Definition in_units (n d q : Z) : Z := if 0 <=? q then round_even n (d * 2 ^ q) else round_even (n * 2 ^ (- q)) d.

(** The double nearest to [n/d], for 0 <= n and 0 < d: 53 bits from the leading one on, the last
    place never below 2^-1074. A mantissa that rounds up to 2^53 carries into the exponent. *)
Definition double_of (n d : Z) : Z :=
  if n =? 0 then 0 else
  let q := Z.max (ratio_log n d - 52) (-1074) in
  Z.min INF (in_units n d q + (q + 1074) * 2 ^ 52).

Definition is_nan (bits : Z) : bool := (Z.shiftr bits 52 mod 2048 =? 2047) && negb (bits mod 2 ^ 52 =? 0).
Definition is_finite (bits : Z) : bool := negb (Z.shiftr bits 52 mod 2048 =? 2047).

(** [(float) x], as the double it is: 24 bits, the last place never below 2^-149, infinite from
    2^128 on. *)
Definition to_float (bits : Z) : Z :=
  if negb (is_finite bits) then bits else
  let s := if Z.testbit bits 63 then 2 ^ 63 else 0 in
  let '(n, d) := if 0 <=? exponent bits then (mantissa bits * 2 ^ exponent bits, 1) else (mantissa bits, 2 ^ (- exponent bits)) in
  if n =? 0 then s else
  let q := Z.max (ratio_log n d - 23) (-149) in
  let m := in_units n d q in
  s + (if 2 ^ 128 <=? m * 2 ^ Z.max 0 q then INF
       else if 0 <=? q then double_of (m * 2 ^ q) 1 else double_of m (2 ^ (- q))).

(** [x <= 0]: no NaN is. *)
Definition le_zero (bits : Z) : bool :=
  negb (is_nan bits) && (Z.testbit bits 63 || (bits mod 2 ^ 63 =? 0)).

(** [(int) x], towards zero; a value that is not an int is undefined. *)
Definition double_int (bits : Z) : res Z :=
  if negb (is_finite bits) then Fault IntOverflow else
  let e := exponent bits in
  let m := if 0 <=? e then mantissa bits * 2 ^ e else mantissa bits / 2 ^ (- e) in
  c_int (if Z.testbit bits 63 then - m else m).

(** ** atof *)

Fixpoint skip_digits (s : list Z) : list Z :=
  match s with c :: s' => if is_digit c then skip_digits s' else s | [] => [] end.

(** The digits at the head of [s], their number, and what follows. *)
Definition count_digits (s : list Z) : Z := zlen s - zlen (skip_digits s).

(** An exponent: [e], a sign, digits; without digits it is none. *)
Definition read_exp (s : list Z) : Z :=
  match s with
  | c :: s =>
      if (c =? 101) || (c =? 69) then
        match s with
        | g :: s' => if g =? 45 then - digits_value 0 s' else if g =? 43 then digits_value 0 s' else digits_value 0 (g :: s')
        | [] => 0
        end
      else 0
  | [] => 0
  end.

(** A decimal without its sign; the names of the infinite values and of NaN are left out, which
    the database does not print for the numbers stored here. *)
Definition read_decimal (s : list Z) : Z :=
  let '(v, k, s) :=
    match skip_digits s with
    | c :: r => if c =? 46 then (digits_value (digits_value 0 s) r, count_digits r, skip_digits r) else (digits_value 0 s, 0, c :: r)
    | [] => (digits_value 0 s, 0, [])
    end in
  let x := read_exp s - k in
  if 0 <=? x then double_of (v * 10 ^ x) 1 else double_of v (10 ^ (- x)).

Definition atof (buf : list Z) : res Z :=
  match cstr buf with
  | None => Fault OutOfBounds
  | Some s =>
      Ok (match skip_space s with
          | [] => 0
          | c :: r => if c =? 45 then 2 ^ 63 + read_decimal r else if c =? 43 then read_decimal r else read_decimal (c :: r)
          end)
  end.

(** ** Lemmas *)

Lemma round_even_exact n d : 0 < d -> round_even (n * d) d = n.
Proof.
  intros H. unfold round_even. rewrite Z.div_mul, Z.mod_mul by lia. by destruct (Z.ltb_spec (2 * 0) d); [|lia].
Qed.

(** Rounding moves a ratio by at most half a unit. *)
Lemma round_even_near n d : 0 < d -> 2 * Z.abs (round_even n d * d - n) <= d.
Proof.
  intros H. unfold round_even. pose proof (Z.div_mod n d ltac:(lia)) as E. pose proof (Z.mod_pos_bound n d H) as B.
  destruct (Z.ltb_spec (2 * (n mod d)) d); [nia|]. destruct (Z.ltb_spec d (2 * (n mod d))); [nia|]. destruct (Z.even (n / d)); nia.
Qed.

Lemma ratio_log_int n : 0 < n -> ratio_log n 1 = Z.log2 n.
Proof.
  intros H. unfold ratio_log. change (Z.log2 1) with 0. rewrite Z.sub_0_r. pose proof (Z.log2_nonneg n).
  destruct (Z.leb_spec 0 (Z.log2 n)); [|lia]. destruct (Z.log2_spec n H) as [L _]. destruct (Z.ltb_spec n (1 * 2 ^ Z.log2 n)); lia.
Qed.

(** An int is a double, and truncation gives it back. *)
Lemma double_int_of z : 0 <= z <= INT_MAX -> double_int (double_of z 1) = Ok z.
Proof.
  intros Hz. destruct (Z.eq_dec z 0) as [->|Hne]; [done|].
  assert (0 < z) as Hp by lia. set (k := Z.log2 z). pose proof (Z.log2_nonneg z) as K0. fold k in K0.
  assert (k <= 30) as K1 by (change 30 with (Z.log2 INT_MAX); apply Z.log2_le_mono; lia).
  destruct (Z.log2_spec z Hp) as [L1 L2]. fold k in L1, L2.
  assert (2 ^ 52 = 2 ^ k * 2 ^ (52 - k)) as E52 by (rewrite <- Z.pow_add_r by lia; f_equal; lia).
  assert (0 < 2 ^ (52 - k)) as P0 by (apply Z.pow_pos_nonneg; lia).
  set (m := z * 2 ^ (52 - k)). assert (2 ^ 52 <= m < 2 * 2 ^ 52) as Hm.
  { unfold m. rewrite Z.pow_succ_r in L2 by lia. nia. }
  assert (double_of z 1 = m + (k + 1022) * 2 ^ 52) as ->.
  { unfold double_of. destruct (Z.eqb_spec z 0); [lia|]. rewrite ratio_log_int by done. fold k.
    rewrite Z.max_l by lia. unfold in_units. destruct (Z.leb_spec 0 (k - 52)); [lia|].
    replace (- (k - 52)) with (52 - k) by lia. fold m.
    replace (round_even m 1) with m by (rewrite <- (Z.mul_1_r m) at 2; symmetry; apply round_even_exact; lia).
    replace (k - 52 + 1074) with (k + 1022) by lia. apply Z.min_r. unfold INF. nia. }
  assert (Z.shiftr (m + (k + 1022) * 2 ^ 52) 52 = k + 1023) as Es.
  { rewrite Z.shiftr_div_pow2 by lia. rewrite Z.div_add by lia.
    assert (m / 2 ^ 52 = 1); [|lia]. symmetry. apply Z.div_unique with (m - 2 ^ 52); lia. }
  assert ((m + (k + 1022) * 2 ^ 52) mod 2 ^ 52 = m - 2 ^ 52) as Em.
  { rewrite Z_mod_plus_full. symmetry. apply Z.mod_unique with 1; lia. }
  unfold double_int, is_finite, exponent, mantissa. rewrite Es, Em, (Z.mod_small (k + 1023)) by lia.
  destruct (Z.eqb_spec (k + 1023) 2047); [lia|]. destruct (Z.eqb_spec (k + 1023) 0); [lia|]. cbn [negb].
  destruct (Z.leb_spec 0 (k + 1023 - 1075)); [lia|].
  replace (m - 2 ^ 52 + 2 ^ 52) with m by lia. replace (- (k + 1023 - 1075)) with (52 - k) by lia.
  unfold m. rewrite Z.div_mul by lia. fold m.
  assert (Z.testbit (m + (k + 1022) * 2 ^ 52) 63 = false) as ->.
  { rewrite Z.testbit_false by lia. rewrite Z.div_small; [done|]. change (2 ^ 63) with (2048 * 2 ^ 52). nia. }
  apply c_int_ok. unfold is_i32, INT_MAX in *. lia.
Qed.

Lemma skip_digits_all s : all_digits s -> skip_digits s = [].
Proof. induction 1 as [|c s Hc _ IH]; [done|]. cbn [skip_digits]. by rewrite Hc. Qed.

Lemma atof_dec z rest : 0 <= z -> atof (dec z ++ 0 :: rest) = Ok (double_of z 1).
Proof.
  intros H. unfold atof. rewrite cstr_app by apply dec_no_zero. pose proof (int_value_dec z) as E.
  destruct (dec_shape z) as (s & d & r & Es & A & Er). destruct (Z.ltb_spec z 0); [lia|]. cbn [app] in Es. rewrite Es, Er in *.
  pose proof A as A'. apply Forall_cons in A' as [Hd _]. rewrite skip_space_no by auto. apply is_digit_range in Hd as Hr.
  unfold int_value in E. destruct (Z.eqb_spec d 45); [lia|]. destruct (Z.eqb_spec d 43); [lia|].
  unfold read_decimal. rewrite (skip_digits_all (d :: r) A). cbn [read_exp]. rewrite E. change (0 - 0) with 0. cbn [Z.leb Z.compare].
  by rewrite Z.mul_1_r.
Qed.

(** The number a column holds, read by [atof] and converted to an int. *)
Lemma atof_int z rest : 0 <= z <= INT_MAX -> (b ← atof (dec z ++ 0 :: rest); double_int b) = Ok z.
Proof. intros H. rewrite atof_dec by lia. cbn [mbind res_bind]. by apply double_int_of. Qed.

End Double.
