(* ===== verification/Sql.v ===== *)
(** * Sql: the fragment of SQL the tables are written in, and SQLite as a parameter

    SQLite is not part of the repository. Its routines that the provider calls are the class
    [Sqlite]; what the tables rely on is [SqliteLaws]: a statement text that reads, under SQL's
    lexical rules ([lex]) and grammar ([parse]), as a statement of the fragment does to the tables
    what that statement says, and a SELECT delivers its rows one by one, in some order. *)
From Stdlib Require Import String.
From S2P Require Import Prelude Cstr Fmt.
From stdpp Require Import gmap.
Import Cstr Fmt.
Open Scope Z_scope.

Module Sql.

(** ** Tokens *)

Inductive tok := TWord (w : list Z) | TNum (w : list Z) | TStr (s : list Z) | TPunct (c : Z) | TBad.

Inductive lstate :=
  | LStart
  | LWord (w : list Z)
  | LNumber (w : list Z)
  | LString (s : list Z)
  | LQuote (s : list Z)      (* a quote inside a string: its end, or the first of two *)
  | LDash
  | LComment.

Definition is_alpha (c : Z) : bool :=
  ((65 <=? c) && (c <=? 90)) || ((97 <=? c) && (c <=? 122)) || (c =? 95).

(** Key words and names are read without regard to case. *)
Definition lex_start (c : Z) : lstate * list tok :=
  if is_alpha c then (LWord [tolower c], [])
  else if is_digit c then (LNumber [c], [])
  else if c =? 39 then (LString [], [])
  else if c =? 45 then (LDash, [])
  else if (c =? 32) || ((9 <=? c) && (c <=? 13)) then (LStart, [])
  else (LStart, [TPunct c]).

Definition emit (t : tok) (r : lstate * list tok) : lstate * list tok := (r.1, t :: r.2).

Definition lex_char (st : lstate) (c : Z) : lstate * list tok :=
  match st with
  | LStart => lex_start c
  | LWord w => if is_alpha c || is_digit c then (LWord (w ++ [tolower c]), []) else emit (TWord w) (lex_start c)
  | LNumber w => if is_digit c || (c =? 46) then (LNumber (w ++ [c]), []) else emit (TNum w) (lex_start c)
  | LString s => if c =? 39 then (LQuote s, []) else (LString (s ++ [c]), [])
  | LQuote s => if c =? 39 then (LString (s ++ [39]), []) else emit (TStr s) (lex_start c)
  | LDash => if c =? 45 then (LComment, []) else emit (TPunct 45) (lex_start c)
  | LComment => if c =? 10 then (LStart, []) else (LComment, [])
  end.

Fixpoint lex_run (st : lstate) (s : list Z) : lstate * list tok :=
  match s with
  | [] => (st, [])
  | c :: s =>
      let '(st, ts) := lex_char st c in
      let '(st, ts') := lex_run st s in (st, ts ++ ts')
  end.

Definition lex_end (st : lstate) : list tok :=
  match st with
  | LStart | LComment => []
  | LWord w => [TWord w]
  | LNumber w => [TNum w]
  | LQuote s => [TStr s]
  | LString _ => [TBad]
  | LDash => [TPunct 45]
  end.

Definition lex (s : list Z) : list tok := let '(st, ts) := lex_run LStart s in ts ++ lex_end st.

(** ** Statements *)

Inductive literal := LitNum (neg : bool) (w : list Z) | LitStr (s : list Z).
Inductive operand := OCol (c : list Z) | OLit (l : literal).

(** A condition is a disjunction of conjunctions of equalities; [[[]]] holds always. *)
Definition where_clause := list (list (operand * operand)).

(** The affinity of a column; [AffDefault] is a column with a default of its own, which no statement
    of the program names. *)
Inductive affinity := AffText | AffInteger | AffReal | AffNumeric | AffDefault.

#[export] Instance affinity_eq_dec : EqDecision affinity.
Proof. solve_decision. Defined.

Inductive stmt :=
  | Create (t : list Z) (cols : list (list Z * affinity))
  | Insert (t : list Z) (names : list (list Z)) (vals : list literal)
  | Select (t : list Z) (proj : option (list (list Z))) (w : where_clause)   (* [None] is "*" *)
  | Count (t : list Z) (w : where_clause)
  | Update (t c : list Z) (v : literal) (w : where_clause)
  | Delete (t : list Z) (w : where_clause).

Definition is_word (w : list Z) (s : string) : bool := bool_decide (w = lit s).

Definition parse_literal (ts : list tok) : option (literal * list tok) :=
  match ts with
  | TNum w :: ts => Some (LitNum false w, ts)
  | TPunct c :: TNum w :: ts => if c =? 45 then Some (LitNum true w, ts) else None
  | TStr s :: ts => Some (LitStr s, ts)
  | _ => None
  end.

Definition parse_operand (ts : list tok) : option (operand * list tok) :=
  match ts with
  | TWord w :: ts => Some (OCol w, ts)
  | _ => '(l, ts) ← parse_literal ts; Some (OLit l, ts)
  end.

Definition eat (c : Z) (ts : list tok) : option (list tok) :=
  match ts with TPunct d :: ts => if c =? d then Some ts else None | _ => None end.

Definition eat_word (s : string) (ts : list tok) : option (list tok) :=
  match ts with TWord w :: ts => if is_word w s then Some ts else None | _ => None end.

(** AND binds closer than OR. *)
Fixpoint parse_cond (fuel : nat) (ts : list tok) : option where_clause :=
  match fuel with
  | O => None
  | S fuel =>
      '(a, ts) ← parse_operand ts;
      ts ← eat 61 ts;
      '(b, ts) ← parse_operand ts;
      match ts with
      | [] => Some [[(a, b)]]
      | TWord w :: ts =>
          W ← parse_cond fuel ts;
          if is_word w "and" then match W with c :: W => Some (((a, b) :: c) :: W) | [] => None end
          else if is_word w "or" then Some ([(a, b)] :: W) else None
      | _ => None
      end
  end.

Definition parse_where (ts : list tok) : option where_clause :=
  match ts with
  | [] => Some [[]]
  | _ => ts ← eat_word "where" ts; parse_cond (length ts) ts
  end.

(** Names separated by commas up to a closing parenthesis. *)
Fixpoint parse_names (ts : list tok) : option (list (list Z) * list tok) :=
  match ts with
  | TWord w :: TPunct c :: ts =>
      if c =? 44 then '(ws, ts) ← parse_names ts; Some (w :: ws, ts)
      else if c =? 41 then Some ([w], ts) else None
  | _ => None
  end.

(** The columns of a SELECT, up to FROM. *)
Fixpoint parse_proj (ts : list tok) : option (list (list Z) * list tok) :=
  match ts with
  | TWord w :: TPunct c :: ts =>
      if c =? 44 then '(ws, ts) ← parse_proj ts; Some (w :: ws, ts) else None
  | TWord w :: ts => Some ([w], ts)
  | _ => None
  end.

Fixpoint parse_values (fuel : nat) (ts : list tok) : option (list literal * list tok) :=
  match fuel with
  | O => None
  | S fuel =>
      '(l, ts) ← parse_literal ts;
      match ts with
      | TPunct c :: ts =>
          if c =? 44 then '(ls, ts) ← parse_values fuel ts; Some (l :: ls, ts)
          else if c =? 41 then Some ([l], ts) else None
      | _ => None
      end
  end.

(** The affinity of a declared type, by the substrings of its name. *)
Fixpoint occurs (s w : list Z) : bool :=
  bool_decide (take (length s) w = s) || match w with [] => false | _ :: w => occurs s w end.

Definition affinity_of (w : list Z) : affinity :=
  if occurs (lit "int") w then AffInteger
  else if occurs (lit "char") w || occurs (lit "clob") w || occurs (lit "text") w then AffText
  else if occurs (lit "real") w || occurs (lit "floa") w || occurs (lit "doub") w then AffReal
  else AffNumeric.

(** The rest of a column's declaration is skipped: its constraints, up to the comma or the
    parenthesis that ends it. The answer is whether it has a default and whether a comma ended it. *)
Fixpoint skip_decl (dflt : bool) (depth : nat) (ts : list tok) : option (bool * bool * list tok) :=
  match ts with
  | [] => None
  | TPunct c :: ts =>
      match depth with
      | O => if c =? 44 then Some (dflt, true, ts) else if c =? 41 then Some (dflt, false, ts)
             else if c =? 40 then skip_decl dflt 1 ts else skip_decl dflt 0 ts
      | S d => if c =? 41 then skip_decl dflt d ts else if c =? 40 then skip_decl dflt (S depth) ts else skip_decl dflt depth ts
      end
  | TWord w :: ts => skip_decl (dflt || is_word w "default") depth ts
  | _ :: ts => skip_decl dflt depth ts
  end.

Fixpoint parse_decls (fuel : nat) (ts : list tok) : option (list (list Z * affinity) * list tok) :=
  match fuel, ts with
  | S fuel, TWord w :: TWord ty :: ts =>
      '(dflt, more, ts) ← skip_decl false 0 ts;
      let c := (w, if dflt : bool then AffDefault else affinity_of ty) in
      if more : bool then '(ds, ts) ← parse_decls fuel ts; Some (c :: ds, ts)
      else Some ([c], ts)
  | _, _ => None
  end.

(** The first column is the primary key. *)
Definition parse_create (ts : list tok) : option stmt :=
  ts ← eat_word "table" ts; ts ← eat_word "if" ts; ts ← eat_word "not" ts; ts ← eat_word "exists" ts;
  match ts with
  | TWord t :: TPunct c :: TWord k :: TWord ty :: ts =>
      ts ← eat_word "primary" ts; ts ← eat_word "key" ts; ts ← eat 44 ts;
      '(ds, ts) ← parse_decls (length ts) ts;
      match ts with
      | [] => if c =? 40 then Some (Create t ((k, affinity_of ty) :: ds)) else None
      | _ => None
      end
  | _ => None
  end.

Definition parse_insert (ts : list tok) : option stmt :=
  ts ← eat_word "into" ts;
  match ts with
  | TWord t :: ts =>
      ts ← eat 40 ts; '(ns, ts) ← parse_names ts;
      ts ← eat_word "values" ts; ts ← eat 40 ts; '(vs, ts) ← parse_values (length ts) ts;
      match ts with [] => Some (Insert t ns vs) | _ => None end
  | _ => None
  end.

Definition parse_from (ts : list tok) : option (list Z * where_clause) :=
  match ts with TWord t :: ts => w ← parse_where ts; Some (t, w) | _ => None end.

Definition parse_select (ts : list tok) : option stmt :=
  match ts with
  | TPunct c :: ts =>
      if c =? 42 then ts ← eat_word "from" ts; '(t, w) ← parse_from ts; Some (Select t None w) else None
  | TWord f :: TPunct p :: TPunct s :: TPunct q :: ts =>
      if is_word f "count" && (p =? 40) && (s =? 42) && (q =? 41) then
        ts ← eat_word "as" ts; ts ← eat_word "count" ts;
        ts ← eat_word "from" ts; '(t, w) ← parse_from ts; Some (Count t w)
      else None
  | _ => '(cs, ts) ← parse_proj ts; ts ← eat_word "from" ts; '(t, w) ← parse_from ts; Some (Select t (Some cs) w)
  end.

Definition parse_update (ts : list tok) : option stmt :=
  match ts with
  | TWord t :: ts =>
      ts ← eat_word "set" ts;
      match ts with
      | TWord c :: ts => ts ← eat 61 ts; '(v, ts) ← parse_literal ts; w ← parse_where ts; Some (Update t c v w)
      | _ => None
      end
  | _ => None
  end.

Definition parse (ts : list tok) : option stmt :=
  match ts with
  | TWord k :: ts =>
      if is_word k "create" then parse_create ts
      else if is_word k "insert" then parse_insert ts
      else if is_word k "select" then parse_select ts
      else if is_word k "update" then parse_update ts
      else if is_word k "delete" then ts ← eat_word "from" ts; '(t, w) ← parse_from ts; Some (Delete t w)
      else None
  | _ => None
  end.

(** ** Tables *)

(** A cell is the text SQLite answers for it. The first column is the primary key. *)
Definition row := list (list Z).
Record table := mk_table { t_cols : list (list Z * affinity); t_rows : list row }.
Definition tables := gmap (list Z) table.

(** The decimal text of an int, as [dec] writes it. *)
Definition canonical (s : list Z) : bool := bool_decide (dec (int_value s) = s).

Definition number_text (neg : bool) (w : list Z) : list Z := if neg then 45 :: w else w.

(** What a literal is compared with in a column; [None] where the rules of affinity would go
    beyond comparing texts. *)
Definition compared (a : affinity) (l : literal) : option (list Z) :=
  match a, l with
  | AffText, LitStr s => Some s
  | AffInteger, LitStr s => if canonical s then Some s else None
  | AffInteger, LitNum n w => if canonical (number_text n w) then Some (number_text n w) else None
  | _, _ => None
  end.

Fixpoint col_aff (cols : list (list Z * affinity)) (c : list Z) : option affinity :=
  match cols with
  | [] => None
  | (d, a) :: cols => if decide (d = c) then Some a else col_aff cols c
  end.

Fixpoint cell (cols : list (list Z * affinity)) (r : row) (c : list Z) : list Z :=
  match cols, r with
  | (d, _) :: cols, x :: r => if decide (d = c) then x else cell cols r c
  | _, _ => []
  end.

Definition literal_number (l : literal) : option (list Z) :=
  match l with
  | LitNum n w => if canonical (number_text n w) then Some (number_text n w) else None
  | LitStr _ => None
  end.

Definition cmp_typed (cols : list (list Z * affinity)) (p : operand * operand) : bool :=
  match p with
  | (OCol c, OLit l) => match col_aff cols c with Some a => bool_decide (is_Some (compared a l)) | None => false end
  | (OLit a, OLit b) => bool_decide (is_Some (literal_number a)) && bool_decide (is_Some (literal_number b))
  | _ => false
  end.

Definition cmp_holds (cols : list (list Z * affinity)) (r : row) (p : operand * operand) : bool :=
  match p with
  | (OCol c, OLit l) =>
      match col_aff cols c with Some a => bool_decide (Some (cell cols r c) = compared a l) | None => false end
  | (OLit a, OLit b) => bool_decide (literal_number a = literal_number b)
  | _ => false
  end.

Definition where_typed cols (w : where_clause) : bool := forallb (forallb (cmp_typed cols)) w.
Definition where_holds cols (w : where_clause) (r : row) : bool := existsb (forallb (cmp_holds cols r)) w.

Definition matching (tb : table) (w : where_clause) : list row :=
  List.filter (where_holds (t_cols tb) w) (t_rows tb).

(** The rows a SELECT delivers. *)
Definition selected (T : tables) (s : stmt) : option (list row) :=
  match s with
  | Select t proj w =>
      tb ← T !! t;
      if where_typed (t_cols tb) w then
        match proj with
        | None => Some (matching tb w)
        | Some cs =>
            if forallb (fun c => bool_decide (is_Some (col_aff (t_cols tb) c))) cs
            then Some (map (fun r => map (cell (t_cols tb) r) cs) (matching tb w)) else None
        end
      else None
  | Count t w =>
      tb ← T !! t;
      if where_typed (t_cols tb) w then Some [[dec (zlen (matching tb w))]] else None
  | _ => None
  end.

Fixpoint value_of (names : list (list Z)) (vals : list literal) (c : list Z) : option literal :=
  match names, vals with
  | n :: names, v :: vals => if decide (n = c) then Some v else value_of names vals c
  | _, _ => None
  end.

Definition set_cell (cols : list (list Z * affinity)) (c x : list Z) (r : row) : row :=
  zip_with (fun d y => if decide (d.1 = c) then x else y) cols r.

(** The keys of a table with a numeric key, and the next one. *)
Definition key_numbers (tb : table) : list Z := map (fun r => int_value (default [] (r !! 0%nat))) (t_rows tb).
Definition next_key (tb : table) : Z := 1 + foldr Z.max 0 (key_numbers tb).

Section exec.
(** The text SQLite gives back for a number stored in a REAL column. *)
Context (real : list Z -> list Z).

(** What a literal becomes in a column. *)
Definition stored (a : affinity) (l : literal) : option (list Z) :=
  match a, l with
  | AffReal, LitNum n w => Some (real (number_text n w))
  | _, _ => compared a l
  end.

(** Every value fits its column, and a column that is not named is the key or has a default. *)
Definition insert_typed (tb : table) (names : list (list Z)) (vals : list literal) : bool :=
  bool_decide (length names = length vals) && bool_decide (NoDup names) &&
  forallb (fun c => bool_decide (c.1 ∈ names) || bool_decide (c.2 = AffDefault)) (tail (t_cols tb)) &&
  forallb (fun n => match col_aff (t_cols tb) n, value_of names vals n with
                    | Some a, Some v => bool_decide (is_Some (stored a v))
                    | _, _ => false end) names.

(** The row an INSERT makes: the columns named get their values, a key that is not named gets one
    more than the largest in use, the rest their defaults. *)
Definition new_row (tb : table) (names : list (list Z)) (vals : list literal) (r : row) : Prop :=
  length r = length (t_cols tb) /\
  (forall i c a v x, t_cols tb !! i = Some (c, a) -> value_of names vals c = Some v -> stored a v = Some x -> r !! i = Some x) /\
  (forall c a, t_cols tb !! 0%nat = Some (c, a) -> value_of names vals c = None ->
     Forall (fun n => 0 <= n <= INT_MAX) (key_numbers tb) -> r !! 0%nat = Some (dec (next_key tb))) /\
  (forall i c a, (0 < i)%nat -> t_cols tb !! i = Some (c, a) -> value_of names vals c = None ->
     exists x, r !! i = Some x /\ no_zero x).

Definition key_taken (tb : table) (r : row) : Prop := Exists (fun r' => r' !! 0%nat = r !! 0%nat) (t_rows tb).

(** What [sqlite3_exec] does: its result, 0 for success, and the tables. *)
Inductive exec_effect (T : tables) : stmt -> Z -> tables -> Prop :=
  | ex_exists t cols tb : T !! t = Some tb -> exec_effect T (Create t cols) 0 T
  | ex_create t cols : T !! t = None -> exec_effect T (Create t cols) 0 (<[t := mk_table cols []]> T)
  | ex_insert t names vals tb r :
      T !! t = Some tb -> new_row tb names vals r -> ~ key_taken tb r ->
      exec_effect T (Insert t names vals) 0 (<[t := mk_table (t_cols tb) (t_rows tb ++ [r])]> T)
  | ex_conflict t names vals tb r e :
      T !! t = Some tb -> new_row tb names vals r -> key_taken tb r -> e <> 0 ->
      exec_effect T (Insert t names vals) e T
  | ex_update t c v w tb a x :
      T !! t = Some tb -> col_aff (t_cols tb) c = Some a -> stored a v = Some x ->
      exec_effect T (Update t c v w) 0
        (<[t := mk_table (t_cols tb) (map (fun r => if where_holds (t_cols tb) w r then set_cell (t_cols tb) c x r else r)
                                        (t_rows tb))]> T)
  | ex_delete t w tb :
      T !! t = Some tb ->
      exec_effect T (Delete t w) 0
        (<[t := mk_table (t_cols tb) (List.filter (fun r => negb (where_holds (t_cols tb) w r)) (t_rows tb))]> T).

(** The statements the law of [sqlite3_exec] speaks of: names are those of the table, literals
    fit their columns, an UPDATE leaves the key alone. *)
Definition exec_typed (T : tables) (s : stmt) : bool :=
  match s with
  | Create t cols => true
  | Insert t names vals => match T !! t with Some tb => insert_typed tb names vals | None => false end
  | Update t c v w =>
      match T !! t with
      | Some tb =>
          match t_cols tb, col_aff (t_cols tb) c with
          | (k, _) :: _, Some a => negb (bool_decide (k = c)) && bool_decide (is_Some (stored a v)) && where_typed (t_cols tb) w
          | _, _ => false
          end
      | None => false
      end
  | Delete t w => match T !! t with Some tb => where_typed (t_cols tb) w | None => false end
  | _ => false
  end.
End exec.

(** ** SQLite *)

Definition SQLITE_OK : Z := 0.
Definition SQLITE_MISUSE : Z := 21.
Definition SQLITE_ROW : Z := 100.
Definition SQLITE_DONE : Z := 101.

(** An open database, a prepared statement with its position, and the routines. [None] from
    [sq_prepare] is an error, which leaves the statement NULL. [sq_column] is the text of a column
    of the current row, [None] for NULL. *)
Class Sqlite := {
  sq_db : Type;
  sq_stmt : Type;
  sq_open : list Z -> option sq_db;
  sq_prepare : sq_db -> list Z -> option sq_stmt;
  sq_step : sq_db -> sq_stmt -> Z * sq_stmt * sq_db;
  sq_data_count : sq_stmt -> Z;
  sq_column : sq_stmt -> Z -> option (list Z);
  sq_exec : sq_db -> list Z -> Z * sq_db;
}.

(** [sq_cursor q o rs]: [q] is a SELECT at the row [o], before the rows [rs]. *)
Class SqliteLaws (S : Sqlite) := {
  sq_tables : sq_db -> tables;
  sq_cursor : sq_stmt -> option row -> list row -> Prop;
  sq_real : list Z -> list Z;
  law_exec : forall d txt s,
    parse (lex txt) = Some s -> exec_typed sq_real (sq_tables d) s = true ->
    exists e d', sq_exec d txt = (e, d') /\ exec_effect sq_real (sq_tables d) s e (sq_tables d');
  law_real : forall w, no_zero w -> no_zero (sq_real w);
  law_no_column : forall d txt t c v w tb,
    parse (lex txt) = Some (Update t c v w) -> sq_tables d !! t = Some tb -> col_aff (t_cols tb) c = None ->
    exists e, sq_exec d txt = (e, d) /\ e <> 0;
  law_no_truncate : forall d txt ts,
    lex txt = TWord (lit "truncate") :: ts -> exists e, sq_exec d txt = (e, d) /\ e <> 0;
  law_prepare : forall d txt s rows,
    parse (lex txt) = Some s -> selected (sq_tables d) s = Some rows ->
    exists q rows', sq_prepare d txt = Some q /\ rows' ≡ₚ rows /\ sq_cursor q None rows';
  law_step_row : forall d q o r rs,
    sq_cursor q o (r :: rs) -> exists q', sq_step d q = (SQLITE_ROW, q', d) /\ sq_cursor q' (Some r) rs;
  law_step_done : forall d q o,
    sq_cursor q o [] -> exists q', sq_step d q = (SQLITE_DONE, q', d) /\ sq_cursor q' None [];
  law_data_count : forall q o rs,
    sq_cursor q o rs -> sq_data_count q = match o with Some r => zlen r | None => 0 end;
  law_column : forall q r rs i x,
    sq_cursor q (Some r) rs -> r !! i = Some x -> sq_column q (Z.of_nat i) = Some x;
}.

(** ** Reading what sprintf writes *)

Lemma lex_run_app st s t :
  lex_run st (s ++ t) = let '(st1, ts) := lex_run st s in let '(st2, ts') := lex_run st1 t in (st2, ts ++ ts').
Proof.
  revert st. induction s as [|c s IH]; intros st; [cbn; by destruct (lex_run st t)|].
  cbn [app lex_run]. destruct (lex_char st c) as [st1 ts1]. rewrite IH.
  destruct (lex_run st1 s) as [st2 ts2]. destruct (lex_run st2 t) as [st3 ts3]. by rewrite app_assoc.
Qed.

Definition no_quote (s : list Z) : Prop := Forall (fun c => c <> 39) s.

Lemma lex_run_string s : forall a, no_quote s -> lex_run (LString a) s = (LString (a ++ s), []).
Proof.
  induction s as [|c s IH]; intros a H; [by rewrite app_nil_r|]. inversion H; subst.
  cbn [lex_run lex_char]. destruct (Z.eqb_spec c 39); [done|]. rewrite IH by done. by rewrite <- app_assoc.
Qed.

Definition num_char (c : Z) : Prop := is_digit c || (c =? 46) = true.

Lemma lex_run_number s : forall a, Forall num_char s -> lex_run (LNumber a) s = (LNumber (a ++ s), []).
Proof.
  induction s as [|c s IH]; intros a H; [by rewrite app_nil_r|]. inversion H as [|? ? Hc Hs]; subst.
  cbn [lex_run lex_char]. rewrite Hc, IH by done. by rewrite <- app_assoc.
Qed.

Lemma lex_start_digit c : is_digit c = true -> lex_char LStart c = (LNumber [c], []).
Proof.
  intros H. cbn [lex_char]. unfold lex_start. rewrite H. apply is_digit_range in H.
  replace (is_alpha c) with false; [done|]. symmetry. unfold is_alpha. case_zbool; done.
Qed.

Lemma lex_number d s : is_digit d = true -> Forall num_char s -> lex_run LStart (d :: s) = (LNumber (d :: s), []).
Proof. intros Hd Hs. cbn [lex_run]. rewrite lex_start_digit by done. by rewrite lex_run_number. Qed.

Lemma digits_num s : all_digits s -> Forall num_char s.
Proof. intros H. eapply Forall_impl; [exact H|]. intros c Hc. unfold num_char. by rewrite Hc. Qed.

Lemma lex_dec z : 0 <= z -> lex_run LStart (dec z) = (LNumber (dec z), []).
Proof.
  intros H. destruct (dec_shape z) as (s & d & r & E & A & Es). destruct (Z.ltb_spec z 0); [lia|].
  cbn [app] in E. rewrite E, Es in *. inversion A; subst. apply lex_number; [done|by apply digits_num].
Qed.

Lemma dec_no_quote z : no_quote (dec z).
Proof. eapply Forall_impl; [apply dec_chars|]. unfold dec_char. lia. Qed.

Lemma int_digits_pos : (0 < int_digits)%nat.
Proof. unfold int_digits. lia. Qed.

Lemma int_digits_310 : Z.of_nat int_digits = 310.
Proof. reflexivity. Qed.

Lemma point2_shape h : exists d s, point2 h = d :: s /\ is_digit d = true /\ Forall num_char s.
Proof.
  unfold point2. destruct (digits_cons int_digits (h / 100) [] int_digits_pos) as (d & s & E & Hd).
  pose proof (digits_all int_digits (h / 100) [] ltac:(constructor)) as A. rewrite E in *.
  clear E. inversion A; subst.
  eexists d, _. split; [done|]. split; [done|]. apply Forall_app. split; [by apply digits_num|].
  repeat constructor; unfold num_char; by rewrite digit_ok.
Qed.

Lemma fix2_shape bits :
  Z.testbit bits 63 = false -> Z.shiftr bits 52 mod 2048 <> 2047 ->
  exists d s, fix2 bits = d :: s /\ is_digit d = true /\ Forall num_char s.
Proof.
  intros Hs He%Z.eqb_neq. unfold fix2. rewrite Hs, He. apply point2_shape.
Qed.

Lemma lex_fix2 bits :
  Z.testbit bits 63 = false -> Z.shiftr bits 52 mod 2048 <> 2047 ->
  lex_run LStart (fix2 bits) = (LNumber (fix2 bits), []).
Proof. intros Hs He. destruct (fix2_shape bits Hs He) as (d & s & -> & Hd & H). by apply lex_number. Qed.

(** The tokens of a formatted text, piece by piece: a string is an argument inside quotes, a
    number stands alone or inside quotes. *)
Fixpoint lex_pieces (st : lstate) (ps : list piece) (args : list arg) : option (lstate * list tok) :=
  match ps with
  | [] => Some (st, [])
  | PLit c :: ps =>
      let '(st, ts) := lex_char st c in
      '(st, ts') ← lex_pieces st ps args; Some (st, ts ++ ts')
  | PStr :: ps =>
      match st, args with
      | LString a, AStr s :: args => lex_pieces (LString (a ++ text s)) ps args
      | _, _ => None
      end
  | PDec :: ps =>
      match st, args with
      | LString a, AInt z :: args => lex_pieces (LString (a ++ dec z)) ps args
      | LStart, AInt z :: args => lex_pieces (LNumber (dec z)) ps args
      | _, _ => None
      end
  | PFix2 :: ps =>
      match st, args with
      | LStart, ADouble b :: args => lex_pieces (LNumber (fix2 b)) ps args
      | _, _ => None
      end
  end.

Definition arg_ok (a : arg) : Prop :=
  match a with
  | AStr s => terminated s /\ no_quote (text s)
  | AInt z => 0 <= z
  | ADouble b => Z.testbit b 63 = false /\ Z.shiftr b 52 mod 2048 <> 2047
  end.

Lemma lex_format ps : forall st args st' ts,
  Forall arg_ok args -> lex_pieces st ps args = Some (st', ts) ->
  exists t, format ps args = Ok t /\ lex_run st t = (st', ts).
Proof.
  induction ps as [|[c| | |] ps IH]; intros st args st' ts Ha; cbn [lex_pieces format].
  - intros [= <- <-]. by exists [].
  - destruct (lex_char st c) as [st1 ts1] eqn:Ec.
    destruct (lex_pieces st1 ps args) as [[st2 ts2]|] eqn:El; [|done]. cbn. intros [= <- <-].
    destruct (IH _ _ _ _ Ha El) as (t & -> & Et). exists (c :: t). split; [done|]. cbn [lex_run]. by rewrite Ec, Et.
  - destruct st; try done. destruct args as [|[b| |] args]; try done. intros El.
    apply Forall_cons in Ha as [[[u Hu] Hq] Ha']. destruct (IH _ _ _ _ Ha' El) as (t & -> & Et).
    unfold text in *. rewrite Hu in *. cbn [default from_option id] in *. exists (u ++ t). split; [done|].
    rewrite lex_run_app, lex_run_string by done. by rewrite Et.
  - destruct st; try done; destruct args as [|[|z|] args]; try done; intros El;
      apply Forall_cons in Ha as [Hz Ha']; destruct (IH _ _ _ _ Ha' El) as (t & -> & Et);
      exists (dec z ++ t); (split; [done|]); rewrite lex_run_app.
    + rewrite lex_dec by done. by rewrite Et.
    + rewrite lex_run_string by apply dec_no_quote. by rewrite Et.
  - destruct st; try done; destruct args as [|[| |b] args]; try done. intros El.
    apply Forall_cons in Ha as [[H1 H2] Ha']. destruct (IH _ _ _ _ Ha' El) as (t & -> & Et).
    exists (fix2 b ++ t). split; [done|]. rewrite lex_run_app, lex_fix2 by done. by rewrite Et.
Qed.

(** An upper bound of the length of a formatted text. *)
Definition arg_len (a : arg) : Z :=
  match a with AStr s => zlen (text s) | AInt z => 2 + Z.log2 (Z.abs z) | ADouble b => 314 end.
Definition fmt_len (ps : list piece) (args : list arg) : Z := zlen ps + foldr (fun a n => arg_len a + n) 0 args.

Lemma digits_len fuel : forall n acc, zlen (digits fuel n acc) <= zlen acc + Z.of_nat fuel.
Proof.
  induction fuel as [|fuel IH]; intros n acc; cbn [digits]; [lia|].
  destruct (n / 10 =? 0); rewrite ?zlen_cons; [lia|]. specialize (IH (n / 10) (48 + n mod 10 :: acc)).
  rewrite zlen_cons in IH. lia.
Qed.

Lemma dec_len z : zlen (dec z) <= 2 + Z.log2 (Z.abs z).
Proof.
  unfold dec, udec. destruct (Z.ltb_spec z 0); [rewrite Z.abs_neq by lia|rewrite Z.abs_eq by lia].
  - pose proof (digits_len (S (Z.to_nat (Z.log2 (- z)))) (- z) []). pose proof (Z.log2_nonneg (- z)).
    rewrite zlen_cons, zlen_nil in *. lia.
  - pose proof (digits_len (S (Z.to_nat (Z.log2 z))) z []). pose proof (Z.log2_nonneg z).
    rewrite zlen_nil in *. lia.
Qed.

Lemma dec_len_int z : is_i32 z -> zlen (dec z) <= 33.
Proof.
  intros H. pose proof (dec_len z). unfold is_i32 in H.
  pose proof (Z.log2_le_mono (Z.abs z) 2147483648 ltac:(lia)). change (Z.log2 2147483648) with 31 in *. lia.
Qed.

Lemma point2_len h : zlen (point2 h) <= 313.
Proof.
  unfold point2. pose proof (digits_len int_digits (h / 100) []). rewrite zlen_nil, int_digits_310 in *.
  rewrite zlen_app, !zlen_cons, zlen_nil. lia.
Qed.

Lemma fix2_len b : zlen (fix2 b) <= 314.
Proof.
  unfold fix2. pose proof (point2_len (hundredths b)). rewrite zlen_app.
  destruct (_ =? 2047), (Z.testbit b 63); try destruct (_ =? 0); rewrite ?zlen_cons, ?zlen_nil; lia.
Qed.

Lemma arg_len_nonneg args : 0 <= foldr (fun a n => arg_len a + n) 0 args.
Proof.
  induction args as [|[s|z|] args IH]; cbn [foldr arg_len]; [lia| | |lia].
  - pose proof (zlen_nonneg (text s)). lia.
  - pose proof (Z.log2_nonneg (Z.abs z)). lia.
Qed.

Lemma format_len ps : forall args t, format ps args = Ok t -> zlen t <= fmt_len ps args.
Proof.
  unfold fmt_len. induction ps as [|[c| | |] ps IH]; intros args t; cbn [format].
  - intros [= <-]. pose proof (arg_len_nonneg args). rewrite (@zlen_nil Z), (@zlen_nil piece). lia.
  - destruct (format ps args) as [u|] eqn:E; [|done]. cbn [mbind res_bind]. intros [= <-]. apply IH in E. rewrite !zlen_cons. lia.
  - destruct args as [|[b| |] args]; try done. destruct (cstr b) as [u|] eqn:Hb; [|done].
    destruct (format ps args) as [v|] eqn:E; [|done]. cbn [mbind res_bind]. intros [= <-]. apply IH in E.
    cbn [foldr arg_len]. unfold text. rewrite Hb. cbn [default from_option id]. rewrite zlen_app, zlen_cons. lia.
  - destruct args as [|[|z|] args]; try done.
    destruct (format ps args) as [v|] eqn:E; [|done]. cbn [mbind res_bind]. intros [= <-]. apply IH in E.
    pose proof (dec_len z). cbn [foldr arg_len]. rewrite zlen_app, zlen_cons. lia.
  - destruct args as [|[| |b] args]; try done.
    destruct (format ps args) as [v|] eqn:E; [|done]. cbn [mbind res_bind]. intros [= <-]. apply IH in E.
    pose proof (fix2_len b). cbn [foldr arg_len]. rewrite zlen_app, zlen_cons. lia.
Qed.

Definition piece_ok (p : piece) : bool := match p with PLit c => negb (c =? 0) | _ => true end.

Lemma fix2_no_zero b : no_zero (fix2 b).
Proof.
  unfold fix2, no_zero. apply Forall_app. split; [destruct (Z.testbit b 63); forall_lia|].
  destruct (_ =? 2047); [destruct (_ =? 0); forall_lia|].
  destruct (point2_shape (hundredths b)) as (d & s & -> & Hd & H). apply is_digit_range in Hd.
  constructor; [lia|]. eapply Forall_impl; [exact H|]. intros c Hc. unfold num_char in Hc.
  apply orb_prop in Hc as [Hc%is_digit_range|Hc%Z.eqb_eq]; lia.
Qed.

Lemma format_no_zero ps : forall args t, forallb piece_ok ps = true -> format ps args = Ok t -> no_zero t.
Proof.
  induction ps as [|[c| | |] ps IH]; intros args t Hp; cbn [format forallb piece_ok] in *.
  - intros [= <-]. constructor.
  - apply andb_prop in Hp as [Hc Hp]. destruct (format ps args) as [u|] eqn:E; [|done]. cbn [mbind res_bind]. intros [= <-].
    constructor; [|by eapply IH]. by destruct (Z.eqb_spec c 0).
  - destruct args as [|[b| |] args]; try done. destruct (cstr b) as [u|] eqn:Hb; [|done].
    destruct (format ps args) as [v|] eqn:E; [|done]. cbn [mbind res_bind]. intros [= <-].
    apply Forall_app. split; [by apply cstr_inv in Hb as [? _]|by eapply IH].
  - destruct args as [|[|z|] args]; try done.
    destruct (format ps args) as [v|] eqn:E; [|done]. cbn [mbind res_bind]. intros [= <-].
    apply Forall_app. split; [apply dec_no_zero|by eapply IH].
  - destruct args as [|[| |b] args]; try done.
    destruct (format ps args) as [v|] eqn:E; [|done]. cbn [mbind res_bind]. intros [= <-].
    apply Forall_app. split; [apply fix2_no_zero|by eapply IH].
Qed.

(** The statement that sprintf leaves in a buffer of [n] cells. *)
Lemma sprintf_sql n fmt args st ts s :
  Forall arg_ok args -> forallb piece_ok (pieces fmt) = true -> fmt_len (pieces fmt) args < Z.of_nat n ->
  lex_pieces LStart (pieces fmt) args = Some (st, ts) -> parse (ts ++ lex_end st) = Some s ->
  exists buf t, sprintf (replicate n 170) fmt args = Ok buf /\ cstr buf = Some t /\ parse (lex t) = Some s.
Proof.
  intros Ha Hp Hl Hlex Hparse. destruct (lex_format _ _ _ _ _ Ha Hlex) as (t & Ef & Et).
  pose proof (format_len _ _ _ Ef). pose proof (format_no_zero _ _ _ Hp Ef).
  eexists _, t. split; [apply sprintf_text; [exact Ef|lia]|]. split.
  - rewrite <- app_assoc. by apply cstr_app.
  - unfold lex. by rewrite Et.
Qed.

Lemma canonical_dec z : canonical (dec z) = true.
Proof. unfold canonical. rewrite int_value_dec. by apply bool_decide_eq_true_2. Qed.

End Sql.

(** ** An instance: a database that is its tables *)

Module SqlToy.
Import Sql.

Definition toy_real (w : list Z) : list Z := w.

Definition toy_cell (tb : table) names vals (i : nat) (c : list Z * affinity) : list Z :=
  match value_of names vals c.1 with
  | Some v => default [] (stored toy_real c.2 v)
  | None => match i with O => dec (next_key tb) | S _ => [] end
  end.

Definition toy_row (tb : table) names vals : row := imap (toy_cell tb names vals) (t_cols tb).

#[export] Instance key_taken_dec tb r : Decision (key_taken tb r).
Proof. unfold key_taken. apply _. Defined.

Definition toy_exec (T : tables) (s : stmt) : Z * tables :=
  match s with
  | Create t cols => match T !! t with Some _ => (0, T) | None => (0, <[t := mk_table cols []]> T) end
  | Insert t names vals =>
      match T !! t with
      | Some tb =>
          let r := toy_row tb names vals in
          if decide (key_taken tb r) then (19, T)
          else (0, <[t := mk_table (t_cols tb) (t_rows tb ++ [r])]> T)
      | None => (1, T)
      end
  | Update t c v w =>
      match T !! t with
      | Some tb =>
          match col_aff (t_cols tb) c with
          | Some a =>
              let x := default [] (stored toy_real a v) in
              (0, <[t := mk_table (t_cols tb) (map (fun r => if where_holds (t_cols tb) w r then set_cell (t_cols tb) c x r else r)
                                            (t_rows tb))]> T)
          | None => (1, T)
          end
      | None => (1, T)
      end
  | Delete t w =>
      match T !! t with
      | Some tb => (0, <[t := mk_table (t_cols tb) (List.filter (fun r => negb (where_holds (t_cols tb) w r)) (t_rows tb))]> T)
      | None => (1, T)
      end
  | _ => (1, T)
  end.

#[export] Instance toy_sqlite : Sqlite := {|
  sq_db := tables;
  sq_stmt := option row * list row;
  sq_open _ := Some ∅;
  sq_prepare d txt := s ← parse (lex txt); rows ← selected d s; Some (None, rows);
  sq_step d q := match q.2 with
                 | r :: rs => (SQLITE_ROW, (Some r, rs), d)
                 | [] => (SQLITE_DONE, (None, []), d)
                 end;
  sq_data_count q := match q.1 with Some r => zlen r | None => 0 end;
  sq_column q i := r ← q.1; r !! Z.to_nat i;
  sq_exec d txt := match parse (lex txt) with
                   | Some s => if exec_typed toy_real d s then toy_exec d s else (1, d)
                   | None => (1, d)
                   end;
|}.

Lemma toy_row_at tb names vals i : toy_row tb names vals !! i = toy_cell tb names vals i <$> t_cols tb !! i.
Proof. apply list_lookup_imap. Qed.

Lemma toy_row_new tb names vals : new_row toy_real tb names vals (toy_row tb names vals).
Proof.
  split; [apply length_imap|]. split; [|split].
  - intros i c a v x Hc Hv Hx. rewrite toy_row_at, Hc. cbn. unfold toy_cell. cbn [fst snd].
    by rewrite Hv, Hx.
  - intros c a Hc Hv _. rewrite toy_row_at, Hc. cbn. unfold toy_cell. cbn [fst]. by rewrite Hv.
  - intros i c a Hi Hc Hv. exists []. split; [|constructor]. rewrite toy_row_at, Hc. cbn. unfold toy_cell. cbn [fst]. rewrite Hv.
    by destruct i; [lia|].
Qed.

Lemma toy_exec_effect T s :
  exec_typed toy_real T s = true -> exec_effect toy_real T s (toy_exec T s).1 (toy_exec T s).2.
Proof.
  destruct s as [t cols|t names vals| | |t c v w|t w]; cbn [exec_typed toy_exec]; try done.
  - intros _. destruct (T !! t) eqn:E; cbn [fst snd]; [by eapply ex_exists|by apply ex_create].
  - destruct (T !! t) as [tb|] eqn:E; [|done]. intros _. pose proof (toy_row_new tb names vals) as N.
    destruct (decide _) as [K|K]; cbn [fst snd]; [|by apply ex_insert].
    apply (ex_conflict _ _ _ _ _ tb (toy_row tb names vals)); [done|done|done|lia].
  - destruct (T !! t) as [tb|] eqn:E; [|done]. destruct (t_cols tb) as [|[k b] cols] eqn:Ec; [done|].
    rewrite <- Ec in *. destruct (col_aff (t_cols tb) c) as [a|] eqn:Ea; [|done]. rewrite !andb_true_iff.
    intros [[_ [x Hx]%bool_decide_eq_true] _]. rewrite Hx. cbn [fst snd default from_option id].
    by eapply ex_update.
  - destruct (T !! t) as [tb|] eqn:E; [|done]. intros _. by apply ex_delete.
Qed.

#[export] Instance toy_laws : SqliteLaws toy_sqlite.
Proof.
  refine (Build_SqliteLaws toy_sqlite (fun d => d) (fun q o rs => q = (o, rs)) toy_real _ _ _ _ _ _ _ _ _).
  - intros d txt s Hp Ht. cbn. rewrite Hp, Ht. pose proof (toy_exec_effect d s Ht) as H.
    destruct (toy_exec d s) as [e d']. by exists e, d'.
  - done.
  - intros d txt t c v w tb Hp Ht Hc. exists 1. cbn. rewrite Hp. cbn [exec_typed]. rewrite Ht, Hc. by destruct (t_cols tb) as [|[]].
  - intros d txt ts H. exists 1. cbn. rewrite H. done.
  - intros d txt s rows Hp Hs. exists (None, rows), rows. cbn. rewrite Hp. cbn. by rewrite Hs.
  - intros d q o r rs ->. by eexists.
  - intros d q o ->. by eexists.
  - by intros q o rs ->.
  - intros q r rs i x -> H. cbn. by rewrite Nat2Z.id.
Defined.

End SqlToy.
