(* ===== verification/Dbp.v ===== *)
(** * Dbp: the database provider (dbprovider/db_provider.c, db_provider_sqlite.c)

    A provider is a record of operations on its handle; the one that is compiled in is SQLite's.
    Its handle keeps one statement and one mutex: a query locks the mutex and leaves it locked
    until [dbp_query_reset], so the rows of a query belong to its caller. The rows fetched are
    allocated and live in a heap until [dbp_fetch_row_free]. *)
From S2P Require Import Prelude Alloc Cstr Fmt Sql.
Import Alloc Cstr Fmt Sql.

Module Dbp.

Definition dbp_ok : Z := 1.
Definition dbp_error : Z := 0.
Definition dbp_query_done : Z := 0.
Definition dbp_query_row : Z := 1.
Definition dbp_query_error : Z := 2.

(** A column of a row: its characters ([None] is NULL) and their number. *)
Record dbp_row := mk_cell { c_data : option (list Z); c_length : Z }.

Record dbp_conf := mk_conf { cf_ip : list Z; cf_port : Z; cf_user : list Z; cf_pwd : list Z; cf_db : list Z }.

(** The file system, as far as opening a database asks it. *)
Record files := mk_files { f_access : list Z -> bool; f_mkdir : list Z -> bool }.

Section dbp.
Context `{S : Sqlite}.

(** ** The handle *)

Inductive stmt_ptr := StNull | StLive (q : sq_stmt) | StFinal.

Record sqlite_param := mk_param {
  h_sql : sq_db;
  h_lock : bool;
  h_stmt : stmt_ptr;
  h_fields : Z;
  h_row : Z;
  h_rows : heap (list dbp_row);
  h_al : alloc;
}.

Definition set_plock (p : sqlite_param) b :=
  mk_param (h_sql p) b (h_stmt p) (h_fields p) (h_row p) (h_rows p) (h_al p).
Definition set_rows (p : sqlite_param) h :=
  mk_param (h_sql p) (h_lock p) (h_stmt p) (h_fields p) (h_row p) h (h_al p).

Definition plock (p : sqlite_param) : res sqlite_param :=
  if h_lock p then Fault SelfDeadlock else Ok (set_plock p true).
Definition punlock (p : sqlite_param) : res sqlite_param :=
  if h_lock p then Ok (set_plock p false) else Fault BadUnlock.

Definition c_text (buf : list Z) : res (list Z) :=
  match cstr buf with Some s => Ok s | None => Fault OutOfBounds end.

(** ** The operations of a provider *)

Record dbp_provider_type (H : Type) := mk_provider {
  pfn_dbp_create_new : files -> dbp_conf -> alloc -> res (option H);
  pfn_dbp_query : H -> list Z -> res (Z * H);
  pfn_dbp_num_fields : H -> Z;
  pfn_dbp_fetch_row : H -> bool -> res (Z * option nat * H);
  pfn_dbp_fetch_row_free : H -> option nat -> res (Z * H);
  pfn_dbp_query_reset : H -> res (Z * H);
  pfn_dbp_exec : H -> list Z -> res (Z * H);
}.
Arguments pfn_dbp_create_new {H}.
Arguments pfn_dbp_query {H}.
Arguments pfn_dbp_num_fields {H}.
Arguments pfn_dbp_fetch_row {H}.
Arguments pfn_dbp_fetch_row_free {H}.
Arguments pfn_dbp_query_reset {H}.
Arguments pfn_dbp_exec {H}.

(** ** SQLite's *)

(** The part of the path before the last occurrence of [c]. *)
Fixpoint before_last (c : Z) (s : list Z) : option (list Z) :=
  match s with
  | [] => None
  | x :: s =>
      match before_last c s with
      | Some t => Some (x :: t)
      | None => if x =? c then Some [] else None
      end
  end.

Definition dbp_init_sqlite (fs : files) (conf : dbp_conf) : res (option sq_db) :=
  path ← c_text (cf_db conf);
  let r := if f_access fs path then true
           else match (match before_last 92 path with Some t => Some t | None => before_last 47 path end) with
                | Some dir => if f_access fs dir then true else f_mkdir fs dir
                | None => true
                end in
  if negb r then Ok None else Ok (sq_open path).

(** The two allocations are not checked; the second is the instance that holds the handle. *)
Definition dbp_create_new_sqlite (fs : files) (conf : dbp_conf) (al : alloc) : res (option sqlite_param) :=
  h ← dbp_init_sqlite fs conf;
  match h with
  | None => Ok None
  | Some h =>
      let '(ok1, al) := s_alloc al in
      let '(ok2, al) := s_alloc al in
      if ok1 && ok2 then Ok (Some (mk_param h false StNull 0 0 [] al)) else Fault NullDeref
  end.

(** An error of [sqlite3_prepare] leaves the statement NULL, and stepping it is a misuse. *)
Definition dbp_query_sqlite (p : sqlite_param) (query_sql : list Z) : res (Z * sqlite_param) :=
  p ← plock p;
  txt ← c_text query_sql;
  let p := match sq_prepare (h_sql p) txt with
           | None => mk_param (h_sql p) (h_lock p) StNull 0 SQLITE_MISUSE (h_rows p) (h_al p)
           | Some q =>
               let '(r, q, d) := sq_step (h_sql p) q in
               mk_param d (h_lock p) (StLive q) (sq_data_count q) r (h_rows p) (h_al p)
           end in
  if h_row p =? SQLITE_DONE then Ok (dbp_query_done, p)
  else if h_row p =? SQLITE_ROW then Ok (dbp_query_row, p)
  else Ok (dbp_query_error, p).

Definition dbp_num_fields_sqlite (p : sqlite_param) : Z :=
  match h_stmt p with StNull => 0 | _ => h_fields p end.

(** [n] columns from [idx] on. The text of a column is duplicated up to its first zero; that of
    a NULL column cannot be. *)
Fixpoint fetch_cells (q : sq_stmt) (al : alloc) (idx : Z) (n : nat) : res (list dbp_row * alloc) :=
  match n with
  | O => Ok ([], al)
  | Datatypes.S n =>
      match sq_column q idx with
      | None => Fault NullDeref
      | Some data =>
          dup ← c_text (data ++ [0]);
          let '(ok, al) := s_alloc al in
          '(cells, al) ← fetch_cells q al (idx + 1) n;
          Ok (mk_cell (if ok then Some (dup ++ [0]) else None) (zlen data) :: cells, al)
      end
  end.

(** [want] is whether the caller passed a place for the row. *)
Definition dbp_fetch_row_sqlite (p : sqlite_param) (want : bool) : res (Z * option nat * sqlite_param) :=
  if negb (h_row p =? SQLITE_ROW) then Ok (dbp_error, None, p) else
  let n := dbp_num_fields_sqlite p in
  match h_stmt p with
  | StNull => Fault NullDeref
  | StFinal => Fault UseAfterFree
  | StLive q =>
      '(row, h, al) ←
        (if want then
           let '(ok, al) := s_alloc (h_al p) in
           if negb ok && (0 <? n) then Fault NullDeref else
           '(cells, al) ← fetch_cells q al 0 (Z.to_nat n);
           let '(a, h) := h_alloc (h_rows p) cells in Ok (Some a, h, al)
         else Ok (None, h_rows p, h_al p));
      let '(r, q, d) := sq_step (h_sql p) q in
      Ok (dbp_ok, row, mk_param d (h_lock p) (StLive q) (h_fields p) r h al)
  end.

Definition dbp_fetch_row_free_sqlite (p : sqlite_param) (row : option nat) : res (Z * sqlite_param) :=
  match row with
  | None => Ok (dbp_error, p)
  | Some a => h ← h_free (h_rows p) a; Ok (dbp_ok, set_rows p h)
  end.

(** The pointer keeps the address of the finalized statement. *)
Definition dbp_query_reset_sqlite (p : sqlite_param) : res (Z * sqlite_param) :=
  st ← (match h_stmt p with
        | StNull => Ok StNull
        | StLive _ => Ok StFinal
        | StFinal => Fault UseAfterFree
        end);
  p ← punlock (mk_param (h_sql p) (h_lock p) st (h_fields p) (h_row p) (h_rows p) (h_al p));
  Ok (dbp_ok, p).

Definition db_exec_sqlite (p : sqlite_param) (query_sql : list Z) : res (Z * sqlite_param) :=
  p ← plock p;
  txt ← c_text query_sql;
  let '(ret, d) := sq_exec (h_sql p) txt in
  p ← punlock (mk_param d (h_lock p) (h_stmt p) (h_fields p) (h_row p) (h_rows p) (h_al p));
  Ok (if ret =? SQLITE_OK then dbp_ok else dbp_error, p).

Definition sqlite_provider : dbp_provider_type sqlite_param :=
  mk_provider _ dbp_create_new_sqlite dbp_query_sqlite dbp_num_fields_sqlite dbp_fetch_row_sqlite
    dbp_fetch_row_free_sqlite dbp_query_reset_sqlite db_exec_sqlite.

(** ** The provider's interface *)

Inductive dbp_sql := dbp_sqlite.

#[export] Instance dbp_sql_eq_dec : EqDecision dbp_sql.
Proof. solve_decision. Defined.

Definition providers : list (dbp_sql * dbp_provider_type sqlite_param) := [(dbp_sqlite, sqlite_provider)].

Definition dbp_get_type_by_provider (provider : dbp_sql) : option (dbp_provider_type sqlite_param) :=
  snd <$> List.find (fun e => bool_decide (e.1 = provider)) providers.

Record dbp_inst := mk_inst { d_type : dbp_provider_type sqlite_param; real_handle : sqlite_param }.

Definition dbp_new (fs : files) (provider : dbp_sql) (conf : dbp_conf) (al : alloc) : res (option dbp_inst) :=
  match dbp_get_type_by_provider provider with
  | None => Fault NullDeref
  | Some type => h ← pfn_dbp_create_new type fs conf al; Ok (match h with Some h => Some (mk_inst type h) | None => None end)
  end.

Definition dbp_query (sql : dbp_inst) (query_sql : list Z) : res (Z * dbp_inst) :=
  '(r, h) ← pfn_dbp_query (d_type sql) (real_handle sql) query_sql; Ok (r, mk_inst (d_type sql) h).
Definition dbp_num_fields (sql : dbp_inst) : Z := pfn_dbp_num_fields (d_type sql) (real_handle sql).
Definition dbp_fetch_row (sql : dbp_inst) : res (Z * option nat * dbp_inst) :=
  '(r, row, h) ← pfn_dbp_fetch_row (d_type sql) (real_handle sql) true; Ok (r, row, mk_inst (d_type sql) h).
Definition dbp_fetch_row_free (sql : dbp_inst) (row : option nat) : res (Z * dbp_inst) :=
  '(r, h) ← pfn_dbp_fetch_row_free (d_type sql) (real_handle sql) row; Ok (r, mk_inst (d_type sql) h).
Definition dbp_query_reset (sql : dbp_inst) : res (Z * dbp_inst) :=
  '(r, h) ← pfn_dbp_query_reset (d_type sql) (real_handle sql); Ok (r, mk_inst (d_type sql) h).
Definition dbp_exec (sql : dbp_inst) (query_sql : list Z) : res (Z * dbp_inst) :=
  '(r, h) ← pfn_dbp_exec (d_type sql) (real_handle sql) query_sql; Ok (r, mk_inst (d_type sql) h).

(** Frees the instance through the caller's variable, which is NULL afterwards. A mutex that is
    locked cannot be destroyed. *)
Definition dbp_free (sql : option dbp_inst) : res (option dbp_inst) :=
  match sql with
  | None => Ok None
  | Some sql => if h_lock (real_handle sql) then Fault BadUnlock else Ok None
  end.

(** What the tables do with a row: the characters and the length of a column. *)
Definition row_cells (sql : dbp_inst) (row : option nat) : res (list dbp_row) :=
  match row with None => Fault NullDeref | Some a => h_load (h_rows (real_handle sql)) a end.

Definition cell_at (cells : list dbp_row) (i : nat) : res dbp_row :=
  match cells !! i with Some c => Ok c | None => Fault OutOfBounds end.

Definition cell_data (c : dbp_row) : res (list Z) :=
  match c_data c with Some d => Ok d | None => Fault NullDeref end.

Definition cell_int (cells : list dbp_row) (i : nat) : res Z :=
  c ← cell_at cells i; d ← cell_data c; atoi d.

(** [strncpy(dst, row[i].data, row[i].length); dst[row[i].length] = '\0'] *)
Definition copy_cell (dst : list Z) (cells : list dbp_row) (i : nat) : res (list Z) :=
  c ← cell_at cells i;
  d ← cell_data c;
  dst ← strncpy dst d (c_length c);
  memcpy dst (c_length c) [0] 1.

(** ** What the tables share *)

(** The local buffer a statement is printed into. *)
Definition sqlbuf_size : nat := Z.to_nat 4096.
Definition sqlbuf : list Z := replicate sqlbuf_size 170.

(** The shape every table's count has: a query that gives one row of one column. [None] is a
    query that did not. *)
Definition query_count (a_dbp : dbp_inst) (query_sql : list Z) : res (option Z * dbp_inst) :=
  '(query_r, a_dbp) ← dbp_query a_dbp query_sql;
  if negb (query_r =? dbp_query_row) then '(_, a_dbp) ← dbp_query_reset a_dbp; Ok (None, a_dbp) else
  if negb (dbp_num_fields a_dbp =? 1) then '(_, a_dbp) ← dbp_query_reset a_dbp; Ok (None, a_dbp) else
  '(r, row, a_dbp) ← dbp_fetch_row a_dbp;
  if r =? 0 then Fault WildPointer else
  cells ← row_cells a_dbp row;
  count ← cell_int cells 0;
  '(_, a_dbp) ← dbp_fetch_row_free a_dbp row;
  '(_, a_dbp) ← dbp_query_reset a_dbp;
  Ok (Some count, a_dbp).

(** [while (dbp_fetch_row(a_dbp, &row)) { read into arr[i]; i++; free }]. More rows than the array
    has elements leave it, so its length bounds the turns. *)
Fixpoint fetch_loop {A} (rd : A -> list dbp_row -> res A) (free : dbp_inst -> option nat -> res dbp_inst)
    (fuel : nat) (a_dbp : dbp_inst) (arr : list A) (i : nat) : res (list A * dbp_inst) :=
  match fuel with
  | O => Fault OutOfFuel
  | Datatypes.S fuel =>
      '(r, row, a_dbp) ← dbp_fetch_row a_dbp;
      if r =? 0 then Ok (arr, a_dbp) else
      match arr !! i with
      | None => Fault OutOfBounds
      | Some x =>
          cells ← row_cells a_dbp row;
          x ← rd x cells;
          a_dbp ← free a_dbp row;
          fetch_loop rd free fuel a_dbp (<[i := x]> arr) (Datatypes.S i)
      end
  end.

Definition fetch_into {A} (rd : A -> list dbp_row -> res A) (free : dbp_inst -> option nat -> res dbp_inst)
    (a_dbp : dbp_inst) (arr : list A) : res (list A * dbp_inst) :=
  fetch_loop rd free (Datatypes.S (Datatypes.S (length arr))) a_dbp arr 0.

Definition free_once (a_dbp : dbp_inst) (row : option nat) : res dbp_inst :=
  '(_, a_dbp) ← dbp_fetch_row_free a_dbp row; Ok a_dbp.

(** [free] of an array a table handed out; [None] is a pointer that was never set. *)
Definition free_array {A} (arr : option (list A)) : res unit :=
  match arr with Some _ => Ok tt | None => Fault WildPointer end.

(** ** What the provider promises *)

Context {SL : SqliteLaws S}.
#[local] Set Default Proof Using "Type".

(** Between two calls of a table: nobody holds the mutex, there is memory. *)
Record idle (d : dbp_inst) (T : tables) : Prop := {
  i_type : d_type d = sqlite_provider;
  i_lock : h_lock (real_handle d) = false;
  i_tables : sq_tables (h_sql (real_handle d)) = T;
  i_alloc : h_al (real_handle d) = [];
}.

Lemma sqlbuf_size_4096 : Z.of_nat sqlbuf_size = 4096.
Proof. reflexivity. Qed.

(** In a query, at the row [o] and before the rows [rs], of [n] columns each. *)
Record reading (d : dbp_inst) (T : tables) (n : Z) (o : option row) (rs : list row) : Prop := {
  r_type : d_type d = sqlite_provider;
  r_lock : h_lock (real_handle d) = true;
  r_tables : sq_tables (h_sql (real_handle d)) = T;
  r_alloc : h_al (real_handle d) = [];
  r_stmt : exists q, h_stmt (real_handle d) = StLive q /\ sq_cursor q o rs;
  r_row : h_row (real_handle d) = match o with Some _ => SQLITE_ROW | None => SQLITE_DONE end;
  r_fields : o = None \/ h_fields (real_handle d) = n;
  r_width : forall r, o = Some r \/ r ∈ rs -> zlen r = n /\ Forall no_zero r;
}.

Lemma exec_idle d T buf t s :
  idle d T -> cstr buf = Some t -> parse (lex t) = Some s -> exec_typed sq_real T s = true ->
  exists e d' T', dbp_exec d buf = Ok (if e =? 0 then 1 else 0, d') /\
    exec_effect sq_real T s e T' /\ idle d' T'.
Proof.
  intros [I1 I2 <- I4] Hb Hp Ht. destruct (law_exec _ _ _ Hp Ht) as (e & db' & E & X).
  exists e. eexists _, _. split; [|split; [exact X|]].
  - unfold dbp_exec. rewrite I1. cbn [pfn_dbp_exec sqlite_provider]. unfold db_exec_sqlite, plock. rewrite I2.
    cbn [mbind res_bind]. unfold c_text. rewrite Hb. cbn [mbind res_bind set_plock h_sql]. rewrite E. cbn [mbind res_bind].
    unfold punlock. cbn [h_lock set_plock mbind res_bind]. reflexivity.
  - done.
Qed.

Lemma query_reading d T buf t s rows n :
  idle d T -> cstr buf = Some t -> parse (lex t) = Some s -> selected T s = Some rows ->
  Forall (fun r => zlen r = n /\ Forall no_zero r) rows ->
  exists rs d', rs ≡ₚ rows /\ dbp_query d buf = Ok (match rs with [] => 0 | _ => 1 end, d') /\
    reading d' T n (head rs) (tail rs).
Proof.
  intros [I1 I2 <- I4] Hb Hp Hs Hw. destruct (law_prepare _ _ _ _ Hp Hs) as (q & rs & Eq & P & C).
  exists rs. rewrite <- P in Hw. unfold dbp_query. rewrite I1. cbn [pfn_dbp_query sqlite_provider]. unfold dbp_query_sqlite, plock.
  rewrite I2. cbn [mbind res_bind]. unfold c_text. rewrite Hb. cbn [mbind res_bind set_plock h_sql]. rewrite Eq.
  destruct rs as [|r rs].
  - destruct (law_step_done (h_sql (real_handle d)) _ _ C) as (q' & -> & C'). eexists. split; [done|]. split; [reflexivity|].
    split; cbn; try done; [by exists q'|by left|]. intros r [?|H]; [done|]. by apply not_elem_of_nil in H.
  - destruct (law_step_row (h_sql (real_handle d)) _ _ _ _ C) as (q' & -> & C'). eexists. split; [done|]. split; [reflexivity|].
    apply Forall_cons in Hw as [Hr Hw]. split; cbn; try done; [by exists q'| |].
    + right. rewrite (law_data_count _ _ _ C'). apply Hr.
    + intros r' [[= <-]|H]; [done|]. rewrite Forall_forall in Hw. by apply Hw.
Qed.

Lemma reset_idle d T n o rs :
  reading d T n o rs -> exists d', dbp_query_reset d = Ok (1, d') /\ idle d' T.
Proof.
  intros [R1 R2 R3 R4 (q & R5 & _) _ _ _]. unfold dbp_query_reset. rewrite R1.
  cbn [pfn_dbp_query_reset sqlite_provider]. unfold dbp_query_reset_sqlite. rewrite R5. cbn [mbind res_bind].
  unfold punlock. cbn [h_lock]. rewrite R2. cbn [mbind res_bind]. by eexists.
Qed.

Lemma num_fields_reading d T n r rs : reading d T n (Some r) rs -> dbp_num_fields d = n.
Proof.
  intros [R1 R2 R3 R4 (q & R5 & _) _ [?|R7] _]; [done|]. unfold dbp_num_fields. rewrite R1.
  cbn [pfn_dbp_num_fields sqlite_provider]. unfold dbp_num_fields_sqlite. by rewrite R5.
Qed.

(** The row a fetch gives: every column with a final zero. *)
Definition cells_of (r : row) : list dbp_row := map (fun x => mk_cell (Some (x ++ [0])) (zlen x)) r.

Lemma fetch_cells_spec q r rs : sq_cursor q (Some r) rs -> Forall no_zero r ->
  forall pre todo, r = pre ++ todo ->
  fetch_cells q [] (Z.of_nat (length pre)) (length todo) = Ok (cells_of todo, []).
Proof.
  intros C N pre todo. revert pre. induction todo as [|x todo IH]; intros pre E; [done|].
  cbn [length fetch_cells]. rewrite (law_column _ _ _ (length pre) x C) by (rewrite E; by apply list_lookup_middle).
  assert (no_zero x) as Nx by (rewrite E in N; apply Forall_app in N as [_ N]; by inversion N).
  unfold c_text. rewrite (cstr_app x []) by done. cbn [mbind res_bind s_alloc].
  specialize (IH (pre ++ [x])). rewrite length_app in IH. cbn [length] in IH.
  replace (Z.of_nat (length pre) + 1) with (Z.of_nat (length pre + 1)) by lia.
  rewrite IH by (by rewrite E, <- app_assoc). reflexivity.
Qed.

Lemma step_reading d q o rs T n h :
  d_type d = sqlite_provider -> h_lock (real_handle d) = true -> sq_tables (h_sql (real_handle d)) = T ->
  h_al (real_handle d) = [] -> h_fields (real_handle d) = n -> sq_cursor q o rs ->
  (forall r, r ∈ rs -> zlen r = n /\ Forall no_zero r) ->
  let '(e, q', db') := sq_step (h_sql (real_handle d)) q in
  reading (mk_inst (d_type d) (mk_param db' (h_lock (real_handle d)) (StLive q') (h_fields (real_handle d)) e h
    (h_al (real_handle d)))) T n (head rs) (tail rs).
Proof.
  intros D1 D2 D3 D4 D5 C W. destruct rs as [|r rs].
  - destruct (law_step_done (h_sql (real_handle d)) _ _ C) as (q' & -> & C').
    split; cbn; try done; [by exists q'|by left|]. intros r [?|H]; [done|]. by apply not_elem_of_nil in H.
  - destruct (law_step_row (h_sql (real_handle d)) _ _ _ _ C) as (q' & -> & C').
    split; cbn; try done; [by exists q'|by right|]. intros r' [[= <-]|H]; apply W; [apply list_elem_of_here|].
    by apply list_elem_of_further.
Qed.

Lemma fetch_reading d T n r rs :
  reading d T n (Some r) rs ->
  exists a d', dbp_fetch_row d = Ok (1, Some a, d') /\ row_cells d' (Some a) = Ok (cells_of r) /\
    reading d' T n (head rs) (tail rs).
Proof.
  intros [R1 R2 R3 R4 (q & R5 & C) R6 [?|R7] R8]; [done|]. destruct (R8 r (or_introl eq_refl)) as [Lr Nr].
  unfold dbp_fetch_row. rewrite R1. cbn [pfn_dbp_fetch_row sqlite_provider].
  unfold dbp_fetch_row_sqlite. rewrite R6, R5. change (SQLITE_ROW =? SQLITE_ROW) with true. cbn [negb].
  unfold dbp_num_fields_sqlite. rewrite R5, R7, R4. cbn [s_alloc negb andb].
  pose proof (fetch_cells_spec q r rs C Nr [] r eq_refl) as F. cbn [length] in F. change (Z.of_nat 0) with 0 in F.
  replace (Z.to_nat n) with (length r) by (rewrite <- Lr; unfold zlen; lia). rewrite F. cbn [mbind res_bind h_alloc].
  pose proof (step_reading d q _ rs T n (h_rows (real_handle d) ++ [Some (cells_of r)]) R1 R2 R3 R4 R7 C) as St.
  destruct (sq_step (h_sql (real_handle d)) q) as [[e q'] db'].
  eexists _, _. split; [reflexivity|]. rewrite R1, R2, R4, R7 in St. rewrite R2. split.
  - cbn [row_cells real_handle h_rows]. apply h_load_ok. by apply list_lookup_middle.
  - apply St. intros r' H. apply R8. by right.
Qed.

Lemma fetch_end d T n rs : reading d T n None rs -> dbp_fetch_row d = Ok (0, None, d).
Proof.
  intros [R1 R2 R3 R4 _ R6 _ _]. unfold dbp_fetch_row. rewrite R1. cbn [pfn_dbp_fetch_row sqlite_provider].
  unfold dbp_fetch_row_sqlite. rewrite R6. cbn [mbind res_bind negb]. change (SQLITE_DONE =? SQLITE_ROW) with false.
  cbn [negb mbind res_bind]. destruct d. cbn in *. by subst.
Qed.

Lemma free_reading d T n o rs a cells :
  reading d T n o rs -> row_cells d (Some a) = Ok cells ->
  exists d', dbp_fetch_row_free d (Some a) = Ok (1, d') /\ reading d' T n o rs.
Proof.
  intros [R1 R2 R3 R4 R5 R6 R7 R8] H. cbn [row_cells] in H. apply h_load_ok in H.
  unfold dbp_fetch_row_free. rewrite R1. cbn [pfn_dbp_fetch_row_free sqlite_provider dbp_fetch_row_free_sqlite].
  rewrite (h_free_ok _ _ _ H). cbn [mbind res_bind]. eexists. split; [done|]. by split.
Qed.

(** The columns of a fetched row. *)
Lemma cells_lookup r i x : r !! i = Some x -> cells_of r !! i = Some (mk_cell (Some (x ++ [0])) (zlen x)).
Proof. intros H. unfold cells_of. apply list_lookup_fmap_Some. by exists x. Qed.

Lemma cell_int_spec r i z : r !! i = Some (dec z) -> is_i32 z -> cell_int (cells_of r) i = Ok z.
Proof.
  intros H Hz. unfold cell_int, cell_at. rewrite (cells_lookup r i (dec z) H). cbn [mbind res_bind cell_data c_data].
  by apply atoi_dec.
Qed.

Lemma strncpy_cells_text x rest : no_zero x -> strncpy_cells (length x) (x ++ rest) = Ok x.
Proof.
  induction 1 as [|c x Hc _ IH]; [done|]. cbn [length app strncpy_cells]. destruct (Z.eqb_spec c 0); [done|].
  by rewrite IH.
Qed.

Lemma copy_cell_spec dst r i x :
  r !! i = Some x -> no_zero x -> zlen x < zlen dst ->
  copy_cell dst (cells_of r) i = Ok (x ++ 0 :: zdrop (zlen x + 1) dst).
Proof.
  intros H Nx L. unfold copy_cell, cell_at. rewrite (cells_lookup r i x H).
  cbn [mbind res_bind cell_data c_data c_length]. pose proof (zlen_nonneg x).
  unfold strncpy. replace (Z.to_nat (zlen x)) with (length x) by (unfold zlen; lia).
  rewrite strncpy_cells_text by done. cbn [mbind res_bind].
  rewrite memcpy_ok by lia. cbn [mbind res_bind]. rewrite (ztake_all (zlen x) x) by lia.
  rewrite memcpy_ok by (rewrite ?zlen_splice by lia; change (zlen [0]) with 1; lia). f_equal.
  change (ztake 1 [0]) with [0]. unfold splice at 1. rewrite ztake_splice_0 by lia. cbn [app]. do 2 f_equal.
  change (zlen [0]) with 1. rewrite zdrop_splice_before by lia. done.
Qed.

Lemma free_once_spec d T n o rs a cells :
  reading d T n o rs -> row_cells d (Some a) = Ok cells ->
  exists d', free_once d (Some a) = Ok d' /\ reading d' T n o rs.
Proof.
  intros R H. destruct (free_reading d T n o rs a cells R H) as (d' & E & R'). exists d'.
  unfold free_once. by rewrite E.
Qed.

(** A count: what the table answers is read. *)
Lemma query_count_spec d T buf t s c :
  idle d T -> cstr buf = Some t -> parse (lex t) = Some s -> selected T s = Some [[dec c]] -> is_i32 c ->
  exists d', query_count d buf = Ok (Some c, d') /\ idle d' T.
Proof.
  intros I Hb Hp Hs Hc. destruct (query_reading d T buf t s _ 1 I Hb Hp Hs) as (rs & d1 & P & E & R).
  { repeat constructor. apply dec_no_zero. }
  apply Permutation_singleton_r in P as ->. unfold query_count. rewrite E. cbn [mbind res_bind].
  change (1 =? dbp_query_row) with true. cbn [negb]. cbn [head tail] in R.
  rewrite (num_fields_reading _ _ _ _ _ R). cbn [Z.eqb Pos.eqb negb].
  destruct (fetch_reading _ _ _ _ _ R) as (a & d2 & -> & Ec & R2). cbn [mbind res_bind]. change (1 =? 0) with false.
  cbn iota. rewrite Ec. cbn [mbind res_bind]. rewrite (cell_int_spec [dec c] 0 c eq_refl Hc). cbn [mbind res_bind].
  destruct (free_reading _ _ _ _ _ _ _ R2 Ec) as (d3 & -> & R3). cbn [mbind res_bind].
  destruct (reset_idle _ _ _ _ _ R3) as (d4 & -> & I4). cbn [mbind res_bind]. by exists d4.
Qed.

(** The loop fills the array with the rows, in the order the query gives them. *)
Lemma fetch_loop_spec {A} (rd : A -> list dbp_row -> res A) (init : A) (val : row -> A) T n :
  forall rows d fuel pre,
  reading d T n (head rows) (tail rows) ->
  Forall (fun r => rd init (cells_of r) = Ok (val r)) rows -> (length rows < fuel)%nat ->
  exists d', fetch_loop rd free_once fuel d (pre ++ replicate (length rows) init) (length pre)
    = Ok (pre ++ map val rows, d') /\ reading d' T n None [].
Proof.
  induction rows as [|r rows IH]; intros d fuel pre R Hrd Hf; (destruct fuel as [|fuel]; [lia|]); cbn [fetch_loop].
  - rewrite (fetch_end _ _ _ _ R). cbn [mbind res_bind]. change (0 =? 0) with true. cbn iota. by exists d.
  - cbn [head tail length replicate map] in *. apply Forall_cons in Hrd as [Hr Hrd].
    destruct (fetch_reading _ _ _ _ _ R) as (a & d1 & -> & Ec & R1). cbn [mbind res_bind]. change (1 =? 0) with false. cbn iota.
    assert ((pre ++ init :: replicate (length rows) init) !! length pre = Some init) as -> by (by apply list_lookup_middle).
    rewrite Ec. cbn [mbind res_bind]. rewrite Hr. cbn [mbind res_bind].
    destruct (free_once_spec _ _ _ _ _ _ _ R1 Ec) as (d2 & -> & R2). cbn [mbind res_bind].
    destruct (IH d2 fuel (pre ++ [val r]) R2 Hrd ltac:(lia)) as (d3 & E3 & R3).
    exists d3. split; [|done]. rewrite insert_app_r_alt by lia. rewrite Nat.sub_diag. cbn [insert list_insert].
    rewrite length_app in E3. cbn [length] in E3. rewrite Nat.add_1_r in E3.
    rewrite <- !app_assoc in E3. done.
Qed.

Lemma fetch_into_spec {A} (rd : A -> list dbp_row -> res A) (init : A) (val : row -> A) T n rows d :
  reading d T n (head rows) (tail rows) -> Forall (fun r => rd init (cells_of r) = Ok (val r)) rows ->
  exists d', fetch_into rd free_once d (replicate (length rows) init) = Ok (map val rows, d') /\
    reading d' T n None [].
Proof.
  intros R H. unfold fetch_into. rewrite length_replicate.
  apply (fetch_loop_spec rd init val T n rows d _ [] R H). lia.
Qed.

End dbp.

(** Proves what statement a format prints: the arguments are checked by [tac], the text is read by
    computation. *)
Ltac sql_text tac :=
  unfold sqlbuf; eapply sprintf_sql;
  [ repeat (apply Forall_cons_2; [cbn [arg_ok]; tac|]); apply Forall_nil_2
  | reflexivity
  | rewrite sqlbuf_size_4096; unfold fmt_len; cbn [foldr arg_len];
    match goal with |- context [ zlen (pieces ?f) ] => let n := eval vm_compute in (zlen (pieces f)) in change (zlen (pieces f)) with n end
  | lazy -[text dec fix2]; reflexivity
  | lazy -[text dec fix2]; reflexivity ].

End Dbp.
