(* ===== verification/Records.v ===== *)
(** * Records: a table as a list of records

    The tables of the menu (dishes, seats, bookings) share their code: a statement is printed, a
    count is asked for, an array is filled row by row. What one record type needs is the class
    [Records]; the lemmas say what the shared code does to a table whose rows are the records of a
    list. *)
From Stdlib Require Import String.
From S2P Require Import Prelude Cstr Fmt Sql Dbp.
From stdpp Require Import gmap.
Import Cstr Fmt Sql Dbp.
Open Scope Z_scope.

Module Records.

(** The name and the columns of a table, the row and the key of a record, the records it may hold. *)
Class Records (X : Type) := {
  r_name : list Z;
  r_cols : list (list Z * affinity);
  r_row : X -> row;
  r_key : X -> list Z;
  r_ok : X -> Prop;
  r_shape : forall x, r_ok x -> zlen (r_row x) = zlen r_cols /\ Forall no_zero (r_row x);
  r_key_first : forall x, r_row x !! 0%nat = Some (r_key x);
}.

Record holds {X} `{R : Records X} (T : tables) (xs : list X) : Prop := {
  ho_table : T !! r_name = Some (mk_table r_cols (map r_row xs));
  ho_ok : Forall r_ok xs;
  ho_keys : NoDup (map r_key xs);
  ho_few : zlen xs <= INT_MAX;
}.

(** The tables besides [n] are the same. *)
Definition others (n : list Z) (T T' : tables) : Prop := forall m, m <> n -> T' !! m = T !! m.

Section code.
Context `{S : Sqlite}.

(** [SELECT count] then [SELECT]: the number of rows and the array they are read into. *)
Definition get_rows {A} (a_dbp : dbp_inst) (count_sql rows_sql : list Z) (fields : Z)
    (rd : A -> list dbp_row -> res A) (free : dbp_inst -> option nat -> res dbp_inst) (blank : A)
  : res (Z * option (list A) * dbp_inst) :=
  '(count, a_dbp) ← query_count a_dbp count_sql;
  match count with
  | None => Ok (0, None, a_dbp)
  | Some count =>
      if count =? 0 then Ok (0, None, a_dbp) else
      '(query_r, a_dbp) ← dbp_query a_dbp rows_sql;
      if negb (query_r =? dbp_query_row) then '(_, a_dbp) ← dbp_query_reset a_dbp; Ok (0, None, a_dbp) else
      if negb (dbp_num_fields a_dbp =? fields) then '(_, a_dbp) ← dbp_query_reset a_dbp; Ok (0, None, a_dbp) else
      '(arr, a_dbp) ← fetch_into rd free a_dbp (replicate (Z.to_nat count) blank);
      '(_, a_dbp) ← dbp_query_reset a_dbp;
      Ok (count, Some arr, a_dbp)
  end.

(** Whether a query has a row. *)
Definition any_row (a_dbp : dbp_inst) (query_sql : list Z) : res (Z * dbp_inst) :=
  '(query_r, a_dbp) ← dbp_query a_dbp query_sql;
  '(_, a_dbp) ← dbp_query_reset a_dbp;
  Ok (if query_r =? dbp_query_row then 1 else 0, a_dbp).

End code.

Section spec.
Context `{S : Sqlite} {SL : SqliteLaws S} {X : Type} {R : Records X}.
#[local] Set Default Proof Using "Type".

Lemma filter_records (p : row -> bool) (q : X -> bool) xs :
  (forall x, p (r_row x) = q x) -> List.filter p (map r_row xs) = map r_row (List.filter q xs).
Proof. intros H. induction xs as [|x xs IH]; [done|]. cbn [map List.filter]. rewrite H, IH. by destruct (q x). Qed.

Lemma records_shape xs : Forall r_ok xs -> Forall (fun r => zlen r = zlen r_cols /\ Forall no_zero r) (map r_row xs).
Proof. intros H. apply Forall_map. eapply Forall_impl; [exact H|]. intros x Hx. by apply r_shape. Qed.

Lemma filter_forall {Y} (P : Y -> Prop) (q : Y -> bool) l : Forall P l -> Forall P (List.filter q l).
Proof. rewrite !List.Forall_forall. intros H x [Hx _]%List.filter_In. by apply H. Qed.

Lemma selected_all T xs w q :
  holds T xs -> where_typed r_cols w = true -> (forall x, where_holds r_cols w (r_row x) = q x) ->
  selected T (Select r_name None w) = Some (map r_row (List.filter q xs)).
Proof.
  intros H Hw Hq. cbn [selected]. rewrite (ho_table _ _ H). cbn [mbind option_bind t_cols]. rewrite Hw. unfold matching.
  cbn [t_cols t_rows]. by rewrite (filter_records _ q).
Qed.

Lemma selected_proj T xs w q cs :
  holds T xs -> where_typed r_cols w = true -> (forall x, where_holds r_cols w (r_row x) = q x) ->
  forallb (fun c => bool_decide (is_Some (col_aff r_cols c))) cs = true ->
  (forall x, map (cell r_cols (r_row x)) cs = r_row x) ->
  selected T (Select r_name (Some cs) w) = Some (map r_row (List.filter q xs)).
Proof.
  intros H Hw Hq Hc Hp. cbn [selected]. rewrite (ho_table _ _ H). cbn [mbind option_bind t_cols]. rewrite Hw, Hc. unfold matching.
  cbn [t_cols t_rows]. rewrite (filter_records _ q) by done. rewrite map_map. f_equal. by apply map_ext.
Qed.

Lemma selected_count T xs w q :
  holds T xs -> where_typed r_cols w = true -> (forall x, where_holds r_cols w (r_row x) = q x) ->
  selected T (Count r_name w) = Some [[dec (zlen (List.filter q xs))]].
Proof.
  intros H Hw Hq. cbn [selected]. rewrite (ho_table _ _ H). cbn [mbind option_bind t_cols]. rewrite Hw. unfold matching.
  cbn [t_cols t_rows]. rewrite (filter_records _ q) by done. unfold zlen. by rewrite length_map.
Qed.

Lemma filter_few T xs (q : X -> bool) : holds T xs -> zlen (List.filter q xs) <= INT_MAX.
Proof. intros H. pose proof (ho_few _ _ H). unfold zlen in *. pose proof (List.filter_length_le q xs). lia. Qed.

Lemma any_row_spec d T xs buf t w q :
  idle d T -> holds T xs -> cstr buf = Some t -> parse (lex t) = Some (Select r_name None w) ->
  where_typed r_cols w = true -> (forall x, where_holds r_cols w (r_row x) = q x) ->
  exists d', any_row d buf = Ok (if existsb q xs then 1 else 0, d') /\ idle d' T.
Proof.
  intros I H Hb Hp Hw Hq.
  destruct (query_reading d T buf t _ _ (zlen r_cols) I Hb Hp (selected_all T xs w q H Hw Hq)) as (rs & d1 & P & E & Rd).
  { apply records_shape, filter_forall, H. }
  unfold any_row. rewrite E. cbn [mbind res_bind]. destruct (reset_idle _ _ _ _ _ Rd) as (d2 & -> & I2). cbn [mbind res_bind].
  exists d2. split; [|done]. do 2 f_equal. destruct (existsb q xs) eqn:Eq.
  - apply existsb_exists in Eq as (x & Hx & Qx). destruct rs; [|done]. apply Permutation_nil_l in P.
    assert (In x (List.filter q xs)) as Hin by by apply List.filter_In. by destruct (List.filter q xs).
  - destruct rs as [|r rs]; [done|]. destruct (List.filter q xs) as [|x l] eqn:El; [by apply Permutation_nil_r in P|].
    assert (In x (List.filter q xs)) as [Hx Qx]%List.filter_In by (rewrite El; by left).
    assert (existsb q xs = true) by (apply existsb_exists; by exists x). congruence.
Qed.

(** The array is a permutation of the records selected. *)
Lemma get_rows_spec {A} d T xs b1 t1 b2 t2 s2 w q (rd : A -> list dbp_row -> res A) blank (val : X -> A) (of_row : row -> A) :
  idle d T -> holds T xs ->
  cstr b1 = Some t1 -> parse (lex t1) = Some (Count r_name w) ->
  cstr b2 = Some t2 -> parse (lex t2) = Some s2 -> selected T s2 = Some (map r_row (List.filter q xs)) ->
  where_typed r_cols w = true -> (forall x, where_holds r_cols w (r_row x) = q x) ->
  (forall x, r_ok x -> rd blank (cells_of (r_row x)) = Ok (val x)) -> (forall x, of_row (r_row x) = val x) ->
  exists d' arr, get_rows d b1 b2 (zlen r_cols) rd free_once blank = Ok (zlen (List.filter q xs), arr, d') /\ idle d' T /\
    default [] arr ≡ₚ map val (List.filter q xs) /\ (List.filter q xs <> [] -> arr <> None).
Proof.
  intros I H Hb1 Hp1 Hb2 Hp2 Hs2 Hw Hq Hrd Hof. set (ys := List.filter q xs) in *.
  destruct (query_count_spec d T b1 t1 _ (zlen ys) I Hb1 Hp1 (selected_count T xs w q H Hw Hq)) as (d1 & E1 & I1).
  { assert (zlen ys <= INT_MAX) by apply (filter_few T xs q H). pose proof (zlen_nonneg ys). unfold is_i32, INT_MAX in *. lia. }
  unfold get_rows. rewrite E1. cbn [mbind res_bind]. destruct (Z.eqb_spec (zlen ys) 0) as [E0|E0].
  { destruct ys as [|y ys']; [by exists d1, None|]. rewrite zlen_cons in E0. pose proof (zlen_nonneg ys'). lia. }
  assert (Forall r_ok ys) as Hok by apply filter_forall, H.
  destruct (query_reading d1 T b2 t2 _ _ (zlen r_cols) I1 Hb2 Hp2 Hs2) as (rs & d2 & P & -> & Rd); [by apply records_shape|].
  cbn [mbind res_bind]. assert (length rs = length ys) as L by (rewrite P; apply length_map).
  destruct rs as [|r rs]; [cbn in L; unfold zlen in E0; lia|]. change (1 =? dbp_query_row) with true. cbn [negb].
  rewrite (num_fields_reading _ _ _ _ _ Rd), Z.eqb_refl. cbn [negb].
  assert (Forall (fun r => rd blank (cells_of r) = Ok (of_row r)) (r :: rs)) as Hr.
  { rewrite P. apply Forall_map. eapply Forall_impl; [exact Hok|]. intros x Hx. unfold compose. rewrite Hof. by apply Hrd. }
  destruct (fetch_into_spec rd blank of_row T _ (r :: rs) d2 Rd Hr) as (d3 & E3 & R3).
  replace (Z.to_nat (zlen ys)) with (length (r :: rs)) by (unfold zlen; lia). rewrite E3. cbn [mbind res_bind].
  destruct (reset_idle _ _ _ _ _ R3) as (d4 & -> & I4). exists d4, (Some (map of_row (r :: rs))). split; [done|].
  split; [done|]. split; [|done]. cbn [default from_option id]. rewrite P, map_map. by erewrite map_ext.
Qed.

Lemma holds_insert T xs ys :
  holds T xs -> Forall r_ok ys -> NoDup (map r_key ys) -> zlen ys <= INT_MAX -> holds (<[r_name := mk_table r_cols (map r_row ys)]> T) ys.
Proof. intros _ H1 H2 H3. split; try done. apply lookup_insert_eq. Qed.

Lemma records_nodup_filter {B} (f : X -> B) (q : X -> bool) xs : NoDup (map f xs) -> NoDup (map f (List.filter q xs)).
Proof.
  induction xs as [|a xs IH]; [done|]. cbn [map List.filter]. intros [N1 N2]%NoDup_cons. destruct (q a); [|by apply IH].
  cbn [map]. apply NoDup_cons. split; [|by apply IH]. intros (x & E & Hx)%list_elem_of_fmap. apply N1.
  apply list_elem_of_fmap. exists x. split; [done|]. apply list_elem_of_In in Hx. apply List.filter_In in Hx as [Hx _].
  by apply list_elem_of_In.
Qed.

(** What an executed statement leaves alone. *)
Definition stmt_name (s : stmt) : list Z :=
  match s with Create t _ | Insert t _ _ | Select t _ _ | Count t _ | Update t _ _ _ | Delete t _ => t end.

Lemma effect_others T s e T' : exec_effect sq_real T s e T' -> others (stmt_name s) T T'.
Proof.
  intros E. inversion E; subst; cbn [stmt_name]; try done; intros m Hm; apply lookup_insert_ne; by intros ->.
Qed.

Lemma others_insert n tb T : others n T (<[n := tb]> T).
Proof. intros m Hm. apply lookup_insert_ne. by intros ->. Qed.

Lemma delete_spec d T xs buf t w q :
  idle d T -> holds T xs -> cstr buf = Some t -> parse (lex t) = Some (Delete r_name w) ->
  where_typed r_cols w = true -> (forall x, where_holds r_cols w (r_row x) = q x) ->
  exists d' T', dbp_exec d buf = Ok (1, d') /\ idle d' T' /\ holds T' (List.filter (fun x => negb (q x)) xs) /\ others r_name T T'.
Proof.
  intros I H Hb Hp Hw Hq. destruct (exec_idle d T buf t _ I Hb Hp) as (e & d' & T' & -> & E & I').
  { cbn [exec_typed]. by rewrite (ho_table _ _ H). }
  inversion E as [| | | | |? ? tb Et]; subst. rewrite (ho_table _ _ H) in Et. injection Et as <-. cbn [t_cols t_rows] in *.
  eexists d', _. split; [done|]. split; [exact I'|]. rewrite (filter_records _ (fun x => negb (q x))) by (intros x; by rewrite Hq).
  split; [|apply others_insert]. apply (holds_insert T xs); [done|apply filter_forall, H|apply records_nodup_filter, H|]. by eapply filter_few.
Qed.

(** A table that exists is left alone. *)
Lemma init_spec d T buf t :
  idle d T -> cstr buf = Some t -> parse (lex t) = Some (Create r_name r_cols) ->
  exists d' T', dbp_exec d buf = Ok (1, d') /\ idle d' T' /\
    others r_name T T' /\ match T !! r_name with None => holds T' ([] : list X) | Some _ => T' = T end.
Proof.
  intros I Hb Hp. destruct (exec_idle d T buf t _ I Hb Hp eq_refl) as (e & d' & T' & -> & E & I').
  inversion E as [? ? tb Et|? ? Et| | | |]; subst; rewrite Et; eexists d', _; (split; [done|]); (split; [exact I'|]); [done|].
  split; [apply others_insert|]. split; [apply lookup_insert_eq|constructor|constructor|done].
Qed.

Lemma key_taken_records xs r k : r !! 0%nat = Some k -> key_taken (mk_table r_cols (map r_row xs)) r <-> k ∈ map r_key xs.
Proof.
  intros Hr. unfold key_taken. cbn [t_rows]. rewrite Exists_exists. split.
  - intros (y & (x & -> & Hx)%list_elem_of_fmap & E). rewrite Hr in E. assert (Some (r_key x) = Some k) as [= <-] by (rewrite <- E; symmetry; apply r_key_first).
    apply list_elem_of_fmap. by exists x.
  - intros (x & -> & Hx)%list_elem_of_fmap. exists (r_row x). split; [apply list_elem_of_fmap; by exists x|]. rewrite Hr. apply r_key_first.
Qed.

(** The row of an INSERT is that of some record with the property [P]. *)
Lemma insert_spec d T xs buf t names vals (P : X -> Prop) :
  idle d T -> holds T xs -> cstr buf = Some t -> parse (lex t) = Some (Insert r_name names vals) ->
  insert_typed sq_real (mk_table r_cols (map r_row xs)) names vals = true -> zlen xs < INT_MAX ->
  (forall r, new_row sq_real (mk_table r_cols (map r_row xs)) names vals r -> exists x, r = r_row x /\ r_ok x /\ P x) ->
  exists x d' T', P x /\ idle d' T' /\
    (if bool_decide (r_key x ∈ map r_key xs) then dbp_exec d buf = Ok (0, d') /\ T' = T
     else dbp_exec d buf = Ok (1, d') /\ holds T' (xs ++ [x]) /\ others r_name T T').
Proof.
  intros I H Hb Hp Ht Hfew Hnew. destruct (exec_idle d T buf t _ I Hb Hp) as (e & d' & T' & E & X' & I').
  { cbn [exec_typed]. by rewrite (ho_table _ _ H). }
  inversion X' as [| |? ? ? tb r Et Nr K|? ? ? tb r e' Et Nr K He| |]; subst; rewrite (ho_table _ _ H) in Et; injection Et as <-;
    destruct (Hnew _ Nr) as (x & -> & Hx & Px); rewrite (key_taken_records xs _ (r_key x) (r_key_first x)) in K; exists x;
    eexists d', _; (split; [done|]); (split; [exact I'|]).
  - rewrite bool_decide_eq_false_2 by done. split; [done|]. cbn [t_cols t_rows] in *.
    replace (map r_row xs ++ [r_row x]) with (map r_row (xs ++ [x])) by (by rewrite map_app). split; [|apply others_insert].
    apply (holds_insert T xs); [done| | |].
    + apply Forall_app. split; [apply H|by constructor].
    + rewrite map_app. apply NoDup_app. split; [apply H|]. split; [|apply NoDup_singleton]. intros z Hz ->%list_elem_of_singleton. done.
    + rewrite zlen_app. change (zlen [x]) with 1. lia.
  - rewrite bool_decide_eq_true_2 by done. split; [|done]. rewrite E. by destruct (Z.eqb_spec e 0).
Qed.

(** What other tables hold does not matter. *)
Lemma holds_other n T T' xs : others n T T' -> r_name <> n -> holds T xs -> holds T' xs.
Proof. intros E Hn [H1 H2 H3 H4]. split; try done. by rewrite E. Qed.

Lemma others_trans n T T' T'' : others n T T' -> others n T' T'' -> others n T T''.
Proof. intros H1 H2 m Hm. by rewrite H2, H1. Qed.

End spec.
End Records.
