(* ===== verification/Accounts.v ===== *)
(** * Accounts: the account table (server/db.c, server/db_account.c)

    An account is a row of [t_db_account]. Every operation prints its statement with [sprintf] into
    a buffer of 4096 characters and hands it to the provider, so what it does to the table is
    decided by how the text reads as SQL: for strings without quotes it is what the specification
    at the end of the file says, a list of accounts with distinct users; a quote changes the
    statement. *)
From Stdlib Require Import String.
From S2P Require Import Prelude Alloc Cstr Sha Fmt Sql Dbp Records.
From stdpp Require Import gmap.
Import Alloc Cstr Sha Pwd Fmt Sql Dbp Records.
Open Scope Z_scope.

Module Accounts.

Definition account_admin : Z := 0.
Definition account_menu : Z := 1.
Definition account_cook : Z := 2.
Definition account_cashier : Z := 3.

(** [account_t]: the type and the arrays of 17, 129, 65 and 257 characters. *)
Record account := mk_account {
  acc_type : Z;
  acc_uid : list Z;
  acc_pwd : list Z;
  acc_nick : list Z;
  acc_comment : list Z;
}.

Definition set_acc_uid (a : account) u := mk_account (acc_type a) u (acc_pwd a) (acc_nick a) (acc_comment a).
Definition set_acc_pwd (a : account) p := mk_account (acc_type a) (acc_uid a) p (acc_nick a) (acc_comment a).
Definition set_acc_nick (a : account) n := mk_account (acc_type a) (acc_uid a) (acc_pwd a) n (acc_comment a).
Definition set_acc_comment (a : account) c := mk_account (acc_type a) (acc_uid a) (acc_pwd a) (acc_nick a) c.
Definition set_acc_type (a : account) t := mk_account t (acc_uid a) (acc_pwd a) (acc_nick a) (acc_comment a).

(** An account of cells [x], as [calloc] and as the stack leave it. *)
Definition blank_account (t x : Z) : account :=
  mk_account t (replicate 17 x) (replicate 129 x) (replicate 65 x) (replicate 257 x).

Definition t_db_account : list Z := Eval vm_compute in lit "t_db_account".

Definition sql_create_account : list Z := Eval vm_compute in
  lit "CREATE TABLE IF NOT EXISTS t_db_account (uid TEXT PRIMARY KEY,type INTEGER,pwd TEXT,nick TEXT,comment TEXT)".
Definition sql_truncate_account : list Z := Eval vm_compute in lit "TRUNCATE TABLE t_db_account".
Definition sql_insert_account : list Z := Eval vm_compute in
  lit "INSERT INTO t_db_account (uid,type,pwd,nick,comment) VALUES ('%s',%d,'%s','%s','%s')".
Definition sql_account_one : list Z := Eval vm_compute in lit "SELECT * FROM t_db_account WHERE uid='%s'".
Definition sql_account_count : list Z := Eval vm_compute in lit "SELECT count(*) as count FROM t_db_account".
Definition sql_account_all : list Z := Eval vm_compute in lit "SELECT * FROM t_db_account".
Definition sql_account_check : list Z := Eval vm_compute in
  lit "SELECT * FROM t_db_account WHERE uid='%s' AND pwd='%s'".
Definition sql_update_pwd : list Z := Eval vm_compute in lit "UPDATE t_db_account SET pwd='%s' WHERE uid='%s'".
Definition sql_update_nick : list Z := Eval vm_compute in lit "UPDATE t_db_account SET nick='%s' WHERE uid='%s'".
Definition sql_update_comment : list Z := Eval vm_compute in
  lit "UPDATE t_db_account SET comment='%s' WHERE uid='%s'".
Definition sql_delete_account : list Z := Eval vm_compute in lit "DELETE FROM t_db_account WHERE uid='%s'".

(** [db_encrypt_pwd] into a local array, its own locals uninitialised. *)
Definition hash_pwd (p : list Z) : res (list Z) :=
  db_encrypt_pwd Sha.junk Sha.junk (replicate 20 170) p (replicate 41 170).

Section accounts.
Context `{S : Sqlite}.

(** ** db.c *)

(** The provider is opened once and kept in [a_dbp]; [None] is NULL. *)
Definition db_init (fs : files) (conf : dbp_conf) (al : alloc) : res (Z * option dbp_inst) :=
  a_dbp ← dbp_new fs dbp_sqlite conf al;
  Ok (match a_dbp with None => 0 | Some _ => 1 end, a_dbp).

Definition db_deinit (a_dbp : option dbp_inst) : res (Z * option dbp_inst) :=
  match a_dbp with
  | None => Fault NullDeref
  | Some _ => a_dbp ← dbp_free a_dbp; Ok (1, a_dbp)
  end.

(** ** The operations *)

Definition db_account_init (a_dbp : dbp_inst) : res (Z * dbp_inst) :=
  dbp_exec a_dbp (sql_create_account ++ [0]).

Definition db_account_deinit : Z := 1.

Definition db_account_reset (a_dbp : dbp_inst) : res (Z * dbp_inst) :=
  dbp_exec a_dbp (sql_truncate_account ++ [0]).

(** The user's name is turned to lower case in the caller's record. *)
Definition db_account_add (a_dbp : dbp_inst) (a : account) : res (Z * account * dbp_inst) :=
  u ← lower_loop (acc_uid a);
  let a := set_acc_uid a u in
  hashpwd ← hash_pwd (acc_pwd a);
  buf ← sprintf sqlbuf sql_insert_account
          [AStr (acc_uid a); AInt (acc_type a); AStr hashpwd; AStr (acc_nick a); AStr (acc_comment a)];
  '(r, a_dbp) ← dbp_exec a_dbp buf;
  Ok (r, a, a_dbp).

(** The columns of a row of five into a record. *)
Definition read_account (a : account) (cells : list dbp_row) : res account :=
  u ← copy_cell (acc_uid a) cells 0;
  t ← cell_int cells 1;
  p ← copy_cell (acc_pwd a) cells 2;
  n ← copy_cell (acc_nick a) cells 3;
  c ← copy_cell (acc_comment a) cells 4;
  Ok (mk_account t u p n c).

(** [a] is the record the caller passes, if it passes one. *)
Definition db_account_get_one (a_dbp : dbp_inst) (uid : list Z) (a : option account)
  : res (Z * option account * dbp_inst) :=
  buf ← sprintf sqlbuf sql_account_one [AStr uid];
  '(query_r, a_dbp) ← dbp_query a_dbp buf;
  if negb (query_r =? dbp_query_row) then '(_, a_dbp) ← dbp_query_reset a_dbp; Ok (0, a, a_dbp) else
  match a with
  | None => '(_, a_dbp) ← dbp_query_reset a_dbp; Ok (1, None, a_dbp)
  | Some a0 =>
      if negb (dbp_num_fields a_dbp =? 5) then '(_, a_dbp) ← dbp_query_reset a_dbp; Ok (0, a, a_dbp) else
      '(r, row, a_dbp) ← dbp_fetch_row a_dbp;
      '(a, a_dbp) ←
        (if r =? 0 then Ok (a, a_dbp) else
         cells ← row_cells a_dbp row;
         a1 ← read_account a0 cells;
         '(_, a_dbp) ← dbp_fetch_row_free a_dbp row;
         Ok (Some a1, a_dbp));
      '(_, a_dbp) ← dbp_query_reset a_dbp;
      Ok (1, a, a_dbp)
  end.

(** The result and the array, when one was set. *)
Definition db_account_get (a_dbp : dbp_inst) : res (Z * option (list account) * dbp_inst) :=
  '(count, a_dbp) ← query_count a_dbp (sql_account_count ++ [0]);
  match count with
  | None => Ok (0, None, a_dbp)
  | Some count =>
      if count =? 0 then Ok (0, None, a_dbp) else
      '(query_r, a_dbp) ← dbp_query a_dbp (sql_account_all ++ [0]);
      if negb (query_r =? dbp_query_row) then '(_, a_dbp) ← dbp_query_reset a_dbp; Ok (0, None, a_dbp) else
      if negb (dbp_num_fields a_dbp =? 5) then '(_, a_dbp) ← dbp_query_reset a_dbp; Ok (0, None, a_dbp) else
      '(arr, a_dbp) ← fetch_into read_account free_once a_dbp (replicate (Z.to_nat count) (blank_account 0 0));
      '(_, a_dbp) ← dbp_query_reset a_dbp;
      Ok (count, Some arr, a_dbp)
  end.

Definition db_account_get_free (arr : option (list account)) : res unit := free_array arr.

Definition db_account_pwd_check (a_dbp : dbp_inst) (uid pwd : list Z) : res (Z * dbp_inst) :=
  hashpwd ← hash_pwd pwd;
  buf ← sprintf sqlbuf sql_account_check [AStr uid; AStr hashpwd];
  '(query_r, a_dbp) ← dbp_query a_dbp buf;
  '(_, a_dbp) ← dbp_query_reset a_dbp;
  Ok (if query_r =? dbp_query_row then 1 else 0, a_dbp).

Definition db_account_update_pwd (a_dbp : dbp_inst) (uid new_pwd : list Z) : res (Z * dbp_inst) :=
  hashpwd ← hash_pwd new_pwd;
  buf ← sprintf sqlbuf sql_update_pwd [AStr hashpwd; AStr uid];
  dbp_exec a_dbp buf.

Definition db_account_update_nick (a_dbp : dbp_inst) (uid nick : list Z) : res (Z * dbp_inst) :=
  buf ← sprintf sqlbuf sql_update_nick [AStr nick; AStr uid];
  dbp_exec a_dbp buf.

Definition db_account_update_comment (a_dbp : dbp_inst) (uid comment : list Z) : res (Z * dbp_inst) :=
  buf ← sprintf sqlbuf sql_update_comment [AStr comment; AStr uid];
  dbp_exec a_dbp buf.

Definition db_account_del (a_dbp : dbp_inst) (uid : list Z) : res (Z * dbp_inst) :=
  buf ← sprintf sqlbuf sql_delete_account [AStr uid];
  dbp_exec a_dbp buf.

(** ** The table as a list of accounts *)

Record acct := mk_acct { ac_uid : list Z; ac_type : Z; ac_hash : list Z; ac_nick : list Z; ac_comment : list Z }.

Definition acct_row (a : acct) : row := [ac_uid a; dec (ac_type a); ac_hash a; ac_nick a; ac_comment a].

Definition account_cols : list (list Z * affinity) := Eval vm_compute in
  [(lit "uid", AffText); (lit "type", AffInteger); (lit "pwd", AffText); (lit "nick", AffText); (lit "comment", AffText)].

(** The strings fit the arrays they are read into. *)
Record acct_ok (a : acct) : Prop := {
  ao_uid : no_zero (ac_uid a) /\ zlen (ac_uid a) <= 16;
  ao_type : is_i32 (ac_type a);
  ao_hash : no_zero (ac_hash a) /\ zlen (ac_hash a) <= 128;
  ao_nick : no_zero (ac_nick a) /\ zlen (ac_nick a) <= 64;
  ao_comment : no_zero (ac_comment a) /\ zlen (ac_comment a) <= 256;
}.

(** What is known of the other tables: it does not depend on the accounts. *)
Class Framed (F : tables -> Prop) := framed : forall T T', others t_db_account T T' -> F T -> F T'.

Context {Rest : tables -> Prop} {HRest : Framed Rest}.
#[local] Set Default Proof Using "Type*".

(** The table holds the accounts [A]; an int counts them. *)
Record accounts (T : tables) (A : list acct) : Prop := {
  as_table : T !! t_db_account = Some (mk_table account_cols (map acct_row A));
  as_ok : Forall acct_ok A;
  as_uid : NoDup (map ac_uid A);
  as_few : zlen A <= INT_MAX;
  as_rest : Rest T;
}.

Definition by_name (u : list Z) (a : acct) : bool := bool_decide (ac_uid a = u).
Definition find_acct (A : list acct) (u : list Z) : option acct := List.find (by_name u) A.
Definition update_acct (f : acct -> acct) (A : list acct) (u : list Z) : list acct :=
  map (fun a => if by_name u a then f a else a) A.
Definition delete_acct (A : list acct) (u : list Z) : list acct := List.filter (fun a => negb (by_name u a)) A.

(** The record [db_account_get_one] fills in. *)
Definition record_of (a : acct) (old : account) : account :=
  let put s buf := s ++ 0 :: zdrop (zlen s + 1) buf in
  mk_account (ac_type a) (put (ac_uid a) (acc_uid old)) (put (ac_hash a) (acc_pwd old))
    (put (ac_nick a) (acc_nick old)) (put (ac_comment a) (acc_comment old)).

(** ** The statements *)

(** An array that can be put between quotes. *)
Definition plain (n : Z) (buf : list Z) : Prop := terminated buf /\ no_quote (text buf) /\ zlen (text buf) <= n.

Definition k_uid : list Z := Eval vm_compute in lit "uid".
Definition k_pwd : list Z := Eval vm_compute in lit "pwd".
Definition k_nick : list Z := Eval vm_compute in lit "nick".
Definition k_comment : list Z := Eval vm_compute in lit "comment".
Definition where_uid (u : list Z) : where_clause := [[(OCol k_uid, OLit (LitStr u))]].

Lemma stmt_one u : plain 256 u ->
  exists buf t, sprintf sqlbuf sql_account_one [AStr u] = Ok buf /\ cstr buf = Some t /\
    parse (lex t) = Some (Select t_db_account None (where_uid (text u))).
Proof. intros (H1 & H2 & H3). sql_text done. lia. Qed.

Lemma stmt_check u h : plain 256 u -> plain 256 h ->
  exists buf t, sprintf sqlbuf sql_account_check [AStr u; AStr h] = Ok buf /\ cstr buf = Some t /\
    parse (lex t) = Some (Select t_db_account None
      [[(OCol k_uid, OLit (LitStr (text u))); (OCol k_pwd, OLit (LitStr (text h)))]]).
Proof. intros (H1 & H2 & H3) (G1 & G2 & G3). sql_text done. lia. Qed.

Lemma stmt_insert u ty h n c : plain 256 u -> 0 <= ty <= INT_MAX -> plain 256 h -> plain 256 n -> plain 256 c ->
  exists buf t, sprintf sqlbuf sql_insert_account [AStr u; AInt ty; AStr h; AStr n; AStr c] = Ok buf /\
    cstr buf = Some t /\
    parse (lex t) = Some (Insert t_db_account (map fst account_cols)
      [LitStr (text u); LitNum false (dec ty); LitStr (text h); LitStr (text n); LitStr (text c)]).
Proof.
  intros (H1 & H2 & H3) Ht (G1 & G2 & G3) (I1 & I2 & I3) (J1 & J2 & J3). sql_text ltac:(done || lia).
  pose proof (Z.log2_le_mono (Z.abs ty) INT_MAX ltac:(lia)) as L. change (Z.log2 INT_MAX) with 30 in L. lia.
Qed.

Lemma stmt_update fmt c v u :
  plain 256 v -> plain 256 u ->
  (fmt, c) = (sql_update_pwd, k_pwd) \/ (fmt, c) = (sql_update_nick, k_nick) \/ (fmt, c) = (sql_update_comment, k_comment) ->
  exists buf t, sprintf sqlbuf fmt [AStr v; AStr u] = Ok buf /\ cstr buf = Some t /\
    parse (lex t) = Some (Update t_db_account c (LitStr (text v)) (where_uid (text u))).
Proof.
  intros (H1 & H2 & H3) (G1 & G2 & G3) [[= -> ->]|[[= -> ->]|[= -> ->]]]; (sql_text done; lia).
Qed.

Lemma stmt_delete u : plain 256 u ->
  exists buf t, sprintf sqlbuf sql_delete_account [AStr u] = Ok buf /\ cstr buf = Some t /\
    parse (lex t) = Some (Delete t_db_account (where_uid (text u))).
Proof. intros (H1 & H2 & H3). sql_text done. lia. Qed.

(** ** What the statements select *)

Lemma filter_rows (p : row -> bool) (q : acct -> bool) A :
  (forall a, p (acct_row a) = q a) -> List.filter p (map acct_row A) = map acct_row (List.filter q A).
Proof.
  intros H. induction A as [|a A IH]; [done|]. cbn [map List.filter]. rewrite H, IH. by destruct (q a).
Qed.

Lemma where_uid_holds u a : where_holds account_cols (where_uid u) (acct_row a) = by_name u a.
Proof.
  transitivity (bool_decide (Some (ac_uid a) = Some u) && true || false); [reflexivity|].
  rewrite andb_true_r, orb_false_r. apply bool_decide_ext. naive_solver.
Qed.

Lemma where_check_holds u h a :
  where_holds account_cols [[(OCol k_uid, OLit (LitStr u)); (OCol k_pwd, OLit (LitStr h))]] (acct_row a)
  = by_name u a && bool_decide (ac_hash a = h).
Proof.
  transitivity (bool_decide (Some (ac_uid a) = Some u) && (bool_decide (Some (ac_hash a) = Some h) && true) || false);
    [reflexivity|].
  rewrite andb_true_r, orb_false_r. f_equal; apply bool_decide_ext; naive_solver.
Qed.

Lemma filter_by_name A u :
  NoDup (map ac_uid A) -> List.filter (by_name u) A = match find_acct A u with Some a => [a] | None => [] end.
Proof.
  induction A as [|a A IH]; intros N; [done|]. cbn [map] in N. apply NoDup_cons in N as [N1 N2].
  unfold find_acct in *. cbn [List.filter List.find]. destruct (by_name u a) eqn:E; [|by apply IH].
  f_equal. apply bool_decide_eq_true in E. rewrite IH by done. destruct (List.find (by_name u) A) as [b|] eqn:F; [|done].
  exfalso. apply List.find_some in F as [F1 F2%bool_decide_eq_true]. apply N1. rewrite E, <- F2.
  apply list_elem_of_fmap. exists b. split; [done|]. by apply list_elem_of_In.
Qed.

Lemma find_acct_some A u a : find_acct A u = Some a -> In a A /\ ac_uid a = u.
Proof. intros [H1 H2%bool_decide_eq_true]%List.find_some. done. Qed.

Lemma find_acct_ok A u a : Forall acct_ok A -> find_acct A u = Some a -> acct_ok a.
Proof. intros H [Ha _]%find_acct_some. rewrite List.Forall_forall in H. by apply H. Qed.

Lemma find_acct_none A u : find_acct A u = None -> u ∉ map ac_uid A.
Proof.
  intros H Hu. apply list_elem_of_fmap in Hu as (a & -> & Ha). apply list_elem_of_In in Ha.
  apply (List.find_none _ _ H) in Ha. unfold by_name in Ha. by rewrite bool_decide_eq_true_2 in Ha.
Qed.

Lemma selected_where T A w q :
  accounts T A -> where_typed account_cols w = true -> (forall a, where_holds account_cols w (acct_row a) = q a) ->
  selected T (Select t_db_account None w) = Some (map acct_row (List.filter q A)).
Proof.
  intros [E _ _ _] Ht Hq. cbn [selected]. rewrite E. cbn [mbind option_bind t_cols]. rewrite Ht.
  unfold matching. cbn [t_cols t_rows]. by rewrite (filter_rows _ q).
Qed.

Lemma acct_row_shape A : Forall acct_ok A -> Forall (fun r => zlen r = 5 /\ Forall no_zero r) (map acct_row A).
Proof.
  intros H. apply Forall_map. eapply Forall_impl; [exact H|]. intros a [[] ? [] [] []].
  split; [done|]. repeat constructor; try done. apply dec_no_zero.
Qed.

Lemma filter_ok {A} (P : A -> Prop) (q : A -> bool) l : Forall P l -> Forall P (List.filter q l).
Proof. rewrite !List.Forall_forall. intros H x [Hx _]%List.filter_In. by apply H. Qed.

(** ** The operations against the list *)

Context {SL : SqliteLaws S}.

Lemma hash_pwd_spec p :
  terminated p -> Forall is_byte (text p) -> zlen (text p) <= 128 ->
  exists h, hash_pwd p = Ok h /\ plain 256 h /\ text h = pwd_hash (text p).
Proof.
  intros Ht Hb Hl. exists (pwd_hash (text p) ++ [0]).
  destruct (pwd_hash_shape (text p)) as [L R]. set (h := pwd_hash (text p)) in *.
  assert (no_zero h) as N by (eapply Forall_impl; [exact R|]; cbn; lia).
  split; [|split; [|by apply text_app]].
  - apply encrypt_pwd_run; try done. unfold INT_MAX. lia.
  - split; [by apply terminated_app|]. rewrite text_app by done. split; [|lia].
    eapply Forall_impl; [exact R|]. cbn. lia.
Qed.

(** The sizes of a record's arrays. *)
Definition account_sized (a : account) : Prop :=
  zlen (acc_uid a) = 17 /\ zlen (acc_pwd a) = 129 /\ zlen (acc_nick a) = 65 /\ zlen (acc_comment a) = 257.

Lemma read_account_spec a old :
  acct_ok a -> account_sized old -> read_account old (cells_of (acct_row a)) = Ok (record_of a old).
Proof.
  intros [[U1 U2] Ht [H1 H2] [N1 N2] [C1 C2]] (L1 & L2 & L3 & L4). unfold read_account.
  rewrite (copy_cell_spec _ _ 0 (ac_uid a)) by (done || lia). cbn [mbind res_bind].
  rewrite (cell_int_spec _ 1 (ac_type a)) by done. cbn [mbind res_bind].
  rewrite (copy_cell_spec _ _ 2 (ac_hash a)) by (done || lia). cbn [mbind res_bind].
  rewrite (copy_cell_spec _ _ 3 (ac_nick a)) by (done || lia). cbn [mbind res_bind].
  rewrite (copy_cell_spec _ _ 4 (ac_comment a)) by (done || lia). done.
Qed.

Lemma get_one_spec d T A u old :
  idle d T -> accounts T A -> plain 256 u -> (forall a, old = Some a -> account_sized a) ->
  exists d', idle d' T /\ db_account_get_one d u old
    = Ok (match find_acct A (text u) with
          | Some a => (1, record_of a <$> old, d')
          | None => (0, old, d')
          end).
Proof.
  intros I HA Hu Hold. destruct (stmt_one u Hu) as (buf & t & E & Hb & Hp).
  pose proof (selected_where T A (where_uid (text u)) (by_name (text u)) HA eq_refl (where_uid_holds (text u))) as Hs.
  rewrite filter_by_name in Hs by apply HA.
  destruct (query_reading d T buf t _ _ 5 I Hb Hp Hs) as (rs & d1 & P & Eq & R).
  { rewrite <- filter_by_name by apply HA. apply acct_row_shape, filter_ok, HA. }
  unfold db_account_get_one. rewrite E. cbn [mbind res_bind]. rewrite Eq. cbn [mbind res_bind].
  destruct (find_acct A (text u)) as [a|] eqn:F; cbn [map] in P.
  - apply Permutation_singleton_r in P as ->. cbn [head tail] in R. change (1 =? dbp_query_row) with true. cbn [negb].
    destruct old as [a0|].
    + rewrite (num_fields_reading _ _ _ _ _ R). cbn [Z.eqb Pos.eqb negb].
      destruct (fetch_reading _ _ _ _ _ R) as (adr & d2 & -> & Ec & R2). cbn [mbind res_bind]. change (1 =? 0) with false.
      cbn iota. rewrite Ec. cbn [mbind res_bind]. rewrite read_account_spec by (by eauto using find_acct_ok, as_ok).
      cbn [mbind res_bind].
      destruct (free_reading _ _ _ _ _ _ _ R2 Ec) as (d3 & -> & R3). cbn [mbind res_bind].
      destruct (reset_idle _ _ _ _ _ R3) as (d4 & -> & I4). by exists d4.
    + destruct (reset_idle _ _ _ _ _ R) as (d2 & -> & I2). by exists d2.
  - apply Permutation_nil_r in P as ->. change (0 =? dbp_query_row) with false. cbn [negb head tail] in *.
    destruct (reset_idle _ _ _ _ _ R) as (d2 & -> & I2). by exists d2.
Qed.

Definition pwd_matches (A : list acct) (u p : list Z) : bool :=
  match find_acct A u with Some a => bool_decide (ac_hash a = pwd_hash p) | None => false end.

Lemma filter_andb {B} (p q : B -> bool) l : List.filter (fun x => p x && q x) l = List.filter q (List.filter p l).
Proof. induction l as [|x l IH]; [done|]. cbn [List.filter]. rewrite IH. destruct (p x); [|done]. done. Qed.

Lemma pwd_check_spec d T A u p :
  idle d T -> accounts T A -> plain 256 u -> terminated p -> Forall is_byte (text p) -> zlen (text p) <= 128 ->
  exists d', idle d' T /\
    db_account_pwd_check d u p = Ok (if pwd_matches A (text u) (text p) then 1 else 0, d').
Proof.
  intros I HA Hu Tp Bp Lp. destruct (hash_pwd_spec p Tp Bp Lp) as (h & Eh & Ph & Th).
  destruct (stmt_check u h Hu Ph) as (buf & t & E & Hb & Hp).
  pose proof (selected_where T A [[(OCol k_uid, OLit (LitStr (text u))); (OCol k_pwd, OLit (LitStr (text h)))]] _
    HA eq_refl (where_check_holds (text u) (text h))) as Hs.
  rewrite filter_andb, filter_by_name in Hs by apply HA.
  destruct (query_reading d T buf t _ _ 5 I Hb Hp Hs) as (rs & d1 & P & Eq & R).
  { apply acct_row_shape, filter_ok. rewrite <- filter_by_name by apply HA. apply filter_ok, HA. }
  unfold db_account_pwd_check. rewrite Eh. cbn [mbind res_bind]. rewrite E. cbn [mbind res_bind]. rewrite Eq.
  cbn [mbind res_bind]. destruct (reset_idle _ _ _ _ _ R) as (d2 & -> & I2). cbn [mbind res_bind]. exists d2. split; [done|].
  do 2 f_equal. unfold pwd_matches. rewrite <- Th. destruct (find_acct A (text u)) as [a|]; cbn [List.filter] in P.
  - destruct (bool_decide (ac_hash a = text h)); cbn [map] in P.
    + by apply Permutation_singleton_r in P as ->.
    + by apply Permutation_nil_r in P as ->.
  - by apply Permutation_nil_r in P as ->.
Qed.

(** The account a record stands for. *)
Definition acct_of (a : account) : acct :=
  mk_acct (map tolower (text (acc_uid a))) (acc_type a) (pwd_hash (text (acc_pwd a))) (text (acc_nick a)) (text (acc_comment a)).

(** What the callers make sure of before they store a record. *)
Record storable (a : account) : Prop := {
  st_sized : account_sized a;
  st_uid : plain 16 (acc_uid a);
  st_type : 0 <= acc_type a <= INT_MAX;
  st_pwd : terminated (acc_pwd a) /\ Forall is_byte (text (acc_pwd a));
  st_nick : plain 64 (acc_nick a);
  st_comment : plain 256 (acc_comment a);
}.

Lemma text_short buf : terminated buf -> zlen (text buf) < zlen buf.
Proof.
  intros [rest E]%terminated_split. rewrite E at 2. rewrite zlen_app, zlen_cons. pose proof (zlen_nonneg rest). lia.
Qed.

Lemma storable_ok a : storable a -> acct_ok (acct_of a).
Proof.
  intros [_ (U1 & _ & U3) Ht [P1 P2] (N1 & _ & N3) (C1 & _ & C3)]. destruct (pwd_hash_shape (text (acc_pwd a))) as [L R].
  split; cbn [acct_of ac_uid ac_type ac_hash ac_nick ac_comment].
  - split; [apply lower_no_zero, text_no_zero|]. unfold zlen in *. by rewrite length_map.
  - unfold is_i32, INT_MAX in *. lia.
  - split; [|lia]. eapply Forall_impl; [exact R|]. cbn. lia.
  - split; [apply text_no_zero|done].
  - split; [apply text_no_zero|done].
Qed.

(** The row of an INSERT that names every column. *)
Lemma new_row_acct tb u ty h n c r :
  t_cols tb = account_cols ->
  new_row sq_real tb (map fst account_cols) [LitStr u; LitNum false (dec ty); LitStr h; LitStr n; LitStr c] r ->
  r = [u; dec ty; h; n; c].
Proof.
  intros Ec (L & H & _). rewrite Ec in *. cbn in L.
  assert (r !! 0%nat = Some u) by (eapply (H 0%nat); reflexivity).
  assert (r !! 1%nat = Some (dec ty)).
  { eapply (H 1%nat); [reflexivity|reflexivity|]. cbn [stored compared number_text]. by rewrite canonical_dec. }
  assert (r !! 2%nat = Some h) by (eapply (H 2%nat); reflexivity).
  assert (r !! 3%nat = Some n) by (eapply (H 3%nat); reflexivity).
  assert (r !! 4%nat = Some c) by (eapply (H 4%nat); reflexivity).
  destruct r as [|r0 [|r1 [|r2 [|r3 [|r4 [|r5 r]]]]]]; try done. by simplify_eq/=.
Qed.

Lemma key_taken_acct A r u :
  r !! 0%nat = Some u -> key_taken (mk_table account_cols (map acct_row A)) r <-> find_acct A u <> None.
Proof.
  intros Hr. unfold key_taken. cbn [t_rows]. rewrite Exists_exists. split.
  - intros (x & (a & -> & Ha)%list_elem_of_fmap & E) F. rewrite Hr in E. injection E as <-.
    apply (find_acct_none _ _ F). apply list_elem_of_fmap. by exists a.
  - intros F. destruct (find_acct A u) as [a|] eqn:E; [|done]. apply find_acct_some in E as [Ha <-].
    exists (acct_row a). split; [|done]. apply list_elem_of_fmap. exists a. split; [done|]. by apply list_elem_of_In.
Qed.

Lemma tables_insert (T : tables) A A' :
  accounts T A -> Forall acct_ok A' -> NoDup (map ac_uid A') -> zlen A' <= INT_MAX ->
  accounts (<[t_db_account := mk_table account_cols (map acct_row A')]> T) A'.
Proof.
  intros HA H1 H2 H3. split; try done; [apply lookup_insert_eq|]. eapply framed; [apply others_insert|apply HA].
Qed.

Definition add_acct (A : list acct) (a : acct) : Z * list acct :=
  match find_acct A (ac_uid a) with Some _ => (0, A) | None => (1, A ++ [a]) end.

Lemma insert_effect T A x e T' :
  accounts T A -> acct_ok x -> zlen A < INT_MAX ->
  exec_effect sq_real T (Insert t_db_account (map fst account_cols)
    [LitStr (ac_uid x); LitNum false (dec (ac_type x)); LitStr (ac_hash x); LitStr (ac_nick x); LitStr (ac_comment x)]) e T' ->
  (if e =? 0 then 1 else 0) = (add_acct A x).1 /\ accounts T' (add_acct A x).2.
Proof.
  intros HA Hok Hfew X. inversion X as [| |? ? ? tb r Et Nr K|? ? ? tb r e' Et Nr K He| |]; subst;
    rewrite (as_table _ _ HA) in Et; injection Et as <-; apply new_row_acct in Nr as ->; try done;
    rewrite (key_taken_acct A _ (ac_uid x)) in K by done; unfold add_acct;
    destruct (find_acct A (ac_uid x)) as [y|] eqn:F; try (exfalso; naive_solver); cbn [fst snd].
  - split; [done|]. cbn [t_cols t_rows].
    replace (map acct_row A ++ _) with (map acct_row (A ++ [x])) by (by rewrite map_app).
    apply (tables_insert T A); [done| | |].
    + apply Forall_app. split; [apply HA|by constructor].
    + rewrite map_app. apply NoDup_app. split; [apply HA|]. split; [|apply NoDup_singleton].
      intros z Hz ->%list_elem_of_singleton. by apply (find_acct_none _ _ F).
    + rewrite zlen_app. change (zlen [x]) with 1. lia.
  - split; [|done]. by destruct (Z.eqb_spec e 0).
Qed.

Lemma account_add_spec d T A a :
  idle d T -> accounts T A -> storable a -> zlen A < INT_MAX ->
  exists d' T' a', db_account_add d a = Ok ((add_acct A (acct_of a)).1, a', d') /\ idle d' T' /\
    accounts T' (add_acct A (acct_of a)).2 /\ others t_db_account T T'.
Proof.
  intros I HA Hs Hfew. pose proof (storable_ok a Hs) as Hok. destruct Hs as [Hz (U1 & U2 & U3) Hty [P1 P2] Hn Hc].
  destruct (terminated_split _ U1) as [rest Eu]. unfold db_account_add.
  pose proof (lower_loop_ok (text (acc_uid a)) rest (text_no_zero _)) as El. rewrite <- Eu in El. rewrite El. cbn [mbind res_bind].
  set (u := map tolower (text (acc_uid a)) ++ 0 :: rest).
  assert (no_zero (map tolower (text (acc_uid a)))) as Nu by apply lower_no_zero, text_no_zero.
  assert (text u = map tolower (text (acc_uid a))) as Tu by by apply text_app.
  assert (plain 256 u) as Pu.
  { split; [by apply terminated_app|]. rewrite Tu. split.
    - apply Forall_map. eapply Forall_impl; [exact U2|]. intros c Hc'. cbn in *. unfold tolower. case_zbool; lia.
    - unfold zlen in *. rewrite length_map. lia. }
  cbn [set_acc_uid acc_uid acc_pwd acc_type acc_nick acc_comment].
  destruct (hash_pwd_spec _ P1 P2) as (h & -> & Ph & Th).
  { pose proof (text_short _ P1). destruct Hz as (_ & Z2 & _). lia. }
  cbn [mbind res_bind].
  assert (plain 256 (acc_nick a)) as Pn by (destruct Hn as (? & ? & ?); split; [done|split; [done|lia]]).
  destruct (stmt_insert u (acc_type a) h _ _ Pu Hty Ph Pn Hc) as (buf & t & -> & Hb & Hp). cbn [mbind res_bind].
  destruct (exec_idle d T buf t _ I Hb Hp) as (e & d' & T' & -> & X & I').
  { cbn [exec_typed]. rewrite (as_table _ _ HA). unfold insert_typed. cbn [t_cols].
    transitivity (true && true && true && (true && (bool_decide (is_Some (stored sq_real AffInteger (LitNum false (dec (acc_type a)))))
      && true))); [reflexivity|]. cbn [stored compared number_text]. rewrite canonical_dec. done. }
  pose proof (effect_others _ _ _ _ X) as HO. rewrite Tu, Th in X. destruct (insert_effect T A (acct_of a) e T' HA Hok Hfew X) as [Er HT'].
  cbn [mbind res_bind]. rewrite Er. by eexists d', T', _.
Qed.

Definition with_hash (h : list Z) (a : acct) : acct := mk_acct (ac_uid a) (ac_type a) h (ac_nick a) (ac_comment a).
Definition with_nick (n : list Z) (a : acct) : acct := mk_acct (ac_uid a) (ac_type a) (ac_hash a) n (ac_comment a).
Definition with_comment (c : list Z) (a : acct) : acct := mk_acct (ac_uid a) (ac_type a) (ac_hash a) (ac_nick a) c.

Lemma update_effect T A c v f u e T' :
  accounts T A -> col_aff account_cols c = Some AffText ->
  (forall a, set_cell account_cols c v (acct_row a) = acct_row (f a)) ->
  (forall a, ac_uid (f a) = ac_uid a) -> (forall a, acct_ok a -> acct_ok (f a)) ->
  exec_effect sq_real T (Update t_db_account c (LitStr v) (where_uid u)) e T' ->
  e = 0 /\ accounts T' (update_acct f A u).
Proof.
  intros HA Hc Hf Hu Hok X. inversion X as [| | | |? ? ? ? tb a x Et Ea Ex|]; subst.
  rewrite (as_table _ _ HA) in Et. injection Et as <-. cbn [t_cols t_rows] in *. rewrite Hc in Ea. injection Ea as <-.
  injection Ex as <-. split; [done|]. rewrite map_map.
  replace (map _ A) with (map acct_row (update_acct f A u)).
  - apply (tables_insert T A); [done| | |].
    + unfold update_acct. apply Forall_map. eapply Forall_impl; [apply HA|]. intros a Ha. cbn. destruct (by_name u a); auto.
    + unfold update_acct. rewrite map_map. erewrite map_ext; [apply HA|]. intros a. cbn. destruct (by_name u a); auto.
    + unfold update_acct, zlen. rewrite length_map. apply HA.
  - unfold update_acct. rewrite map_map. apply map_ext. intros a. rewrite where_uid_holds. by destruct (by_name u a).
Qed.

Lemma update_typed T A c v u :
  accounts T A -> col_aff account_cols c = Some AffText -> c <> k_uid ->
  exec_typed sq_real T (Update t_db_account c (LitStr v) (where_uid u)) = true.
Proof.
  intros HA Hc Hn. cbn [exec_typed]. rewrite (as_table _ _ HA). cbn [t_cols]. rewrite Hc.
  unfold account_cols at 1. rewrite bool_decide_eq_false_2; [done|]. intros E. apply Hn. by rewrite <- E.
Qed.

(** The three updates share their shape. *)
Lemma account_update_spec d T A fmt c v u f :
  idle d T -> accounts T A -> plain 256 v -> plain 256 u ->
  (fmt, c) = (sql_update_pwd, k_pwd) \/ (fmt, c) = (sql_update_nick, k_nick) \/ (fmt, c) = (sql_update_comment, k_comment) ->
  (forall a, set_cell account_cols c (text v) (acct_row a) = acct_row (f a)) ->
  (forall a, ac_uid (f a) = ac_uid a) -> (forall a, acct_ok a -> acct_ok (f a)) ->
  exists d' T', (buf ← sprintf sqlbuf fmt [AStr v; AStr u]; dbp_exec d buf) = Ok (1, d') /\ idle d' T' /\
    accounts T' (update_acct f A (text u)).
Proof.
  intros I HA Hv Hu Hfmt Hf Hfu Hok. destruct (stmt_update fmt c v u Hv Hu Hfmt) as (buf & t & -> & Hb & Hp).
  cbn [mbind res_bind].
  assert (col_aff account_cols c = Some AffText /\ c <> k_uid) as [Hc Hn].
  { destruct Hfmt as [[= -> ->]|[[= -> ->]|[= -> ->]]]; split; done. }
  destruct (exec_idle d T buf t _ I Hb Hp) as (e & d' & T' & E & X & I'); [by apply (update_typed T A)|].
  destruct (update_effect T A c (text v) f (text u) e T' HA Hc Hf Hfu Hok X) as [-> HT'].
  exists d', T'. by rewrite E.
Qed.

Lemma update_pwd_spec d T A u p :
  idle d T -> accounts T A -> plain 256 u -> terminated p -> Forall is_byte (text p) -> zlen (text p) <= 128 ->
  exists d' T', db_account_update_pwd d u p = Ok (1, d') /\ idle d' T' /\
    accounts T' (update_acct (with_hash (pwd_hash (text p))) A (text u)).
Proof.
  intros I HA Hu Tp Bp Lp. destruct (hash_pwd_spec p Tp Bp Lp) as (h & Eh & Ph & Th). unfold db_account_update_pwd.
  rewrite Eh. cbn [mbind res_bind]. rewrite <- Th. eapply (account_update_spec _ _ _ _ k_pwd); try done; [by left|].
  destruct (pwd_hash_shape (text p)) as [L R]. intros a [? ? ? ? ?]. split; try done. cbn. rewrite Th. split; [|lia].
  eapply Forall_impl; [exact R|]. cbn. lia.
Qed.

Lemma update_nick_spec d T A u n :
  idle d T -> accounts T A -> plain 256 u -> plain 64 n ->
  exists d' T', db_account_update_nick d u n = Ok (1, d') /\ idle d' T' /\
    accounts T' (update_acct (with_nick (text n)) A (text u)).
Proof.
  intros I HA Hu (N1 & N2 & N3). unfold db_account_update_nick. eapply (account_update_spec _ _ _ _ k_nick); try done; [|by right; left|].
  - split; [done|]. split; [done|]. lia.
  - intros a [? ? ? ? ?]. split; try done. split; [apply text_no_zero|done].
Qed.

Lemma update_comment_spec d T A u c :
  idle d T -> accounts T A -> plain 256 u -> plain 256 c ->
  exists d' T', db_account_update_comment d u c = Ok (1, d') /\ idle d' T' /\
    accounts T' (update_acct (with_comment (text c)) A (text u)).
Proof.
  intros I HA Hu (N1 & N2 & N3). unfold db_account_update_comment. eapply (account_update_spec _ _ _ _ k_comment); try done; [by right; right|].
  intros a [? ? ? ? ?]. split; try done. split; [apply text_no_zero|done].
Qed.

Lemma nodup_filter_map {B} (f : acct -> B) q A : NoDup (map f A) -> NoDup (map f (List.filter q A)).
Proof.
  induction A as [|a A IH]; [done|]. cbn [map List.filter]. intros [N1 N2]%NoDup_cons. destruct (q a); [|by apply IH].
  cbn [map]. apply NoDup_cons. split; [|by apply IH]. intros (x & E & Hx)%list_elem_of_fmap. apply N1.
  apply list_elem_of_fmap. exists x. split; [done|]. apply list_elem_of_In in Hx. apply List.filter_In in Hx as [Hx _].
  by apply list_elem_of_In.
Qed.

Lemma account_del_spec d T A u :
  idle d T -> accounts T A -> plain 256 u ->
  exists d' T', db_account_del d u = Ok (1, d') /\ idle d' T' /\ accounts T' (delete_acct A (text u)).
Proof.
  intros I HA Hu. destruct (stmt_delete u Hu) as (buf & t & E & Hb & Hp). unfold db_account_del. rewrite E. cbn [mbind res_bind].
  destruct (exec_idle d T buf t _ I Hb Hp) as (e & d' & T' & -> & X & I').
  { cbn [exec_typed]. by rewrite (as_table _ _ HA). }
  inversion X as [| | | | |? ? tb Et]; subst. rewrite (as_table _ _ HA) in Et. injection Et as <-. cbn [t_cols t_rows] in *.
  eexists d', _. split; [done|]. split; [exact I'|].
  rewrite (filter_rows _ (fun a => negb (by_name (text u) a))) by (intros a; by rewrite where_uid_holds).
  apply (tables_insert T A); [done|apply filter_ok, HA|apply nodup_filter_map, HA|].
  destruct HA as [_ _ _ HA]. unfold delete_acct, zlen in *. pose proof (List.filter_length_le (fun a => negb (by_name (text u) a)) A). lia.
Qed.

Lemma account_init_spec d T :
  idle d T ->
  (T !! t_db_account = None \/ exists A, accounts T A) ->
  exists d' T', db_account_init d = Ok (1, d') /\ idle d' T' /\ others t_db_account T T' /\
    match T !! t_db_account with None => Rest T -> accounts T' [] | Some _ => T' = T end.
Proof.
  intros I HT.
  assert (cstr (sql_create_account ++ [0]) = Some sql_create_account) as Hb by reflexivity.
  assert (parse (lex sql_create_account) = Some (Create t_db_account account_cols)) as Hp by reflexivity.
  destruct (exec_idle d T _ _ _ I Hb Hp eq_refl) as (e & d' & T' & E & X & I'). unfold db_account_init. rewrite E.
  pose proof (effect_others _ _ _ _ X) as HO.
  inversion X as [? ? tb Et|? ? Et| | | |]; subst; rewrite Et; eexists d', _; (split; [done|]); (split; [exact I'|]); (split; [exact HO|]); [done|].
  intros HT'. split; [apply lookup_insert_eq|constructor|constructor|done|]. eapply framed; [exact HO|done].
Qed.

Lemma filter_true {B} (l : list B) : List.filter (fun _ => true) l = l.
Proof. induction l as [|x l IH]; [done|]. cbn [List.filter]. by rewrite IH. Qed.

Lemma count_spec d T A :
  idle d T -> accounts T A -> exists d', query_count d (sql_account_count ++ [0]) = Ok (Some (zlen A), d') /\ idle d' T.
Proof.
  intros I HA.
  assert (cstr (sql_account_count ++ [0]) = Some sql_account_count) as Hb by reflexivity.
  assert (parse (lex sql_account_count) = Some (Count t_db_account [[]])) as Hp by reflexivity.
  eapply (query_count_spec d T _ _ _ (zlen A) I Hb Hp).
  - cbn [selected]. rewrite (as_table _ _ HA). cbn [mbind option_bind t_cols where_typed forallb andb].
    unfold matching. cbn [t_cols t_rows]. rewrite (filter_rows _ (fun _ => true)) by done.
    rewrite filter_true.
    unfold zlen. by rewrite length_map.
  - pose proof (as_few _ _ HA). pose proof (zlen_nonneg A). unfold is_i32, INT_MAX in *. lia.
Qed.

Definition handed_out (a : acct) : account := record_of a (blank_account 0 0).

Definition row_acct (r : row) : account :=
  match r with
  | [u; t; h; n; c] => handed_out (mk_acct u (int_value t) h n c)
  | _ => blank_account 0 0
  end.

Lemma row_acct_row a : row_acct (acct_row a) = handed_out a.
Proof. cbn [row_acct acct_row]. rewrite int_value_dec. by destruct a. Qed.

Lemma account_get_spec d T A :
  idle d T -> accounts T A ->
  exists d' arr, db_account_get d = Ok (zlen A, arr, d') /\ idle d' T /\ default [] arr ≡ₚ map handed_out A /\
    (A <> [] -> arr <> None).
Proof.
  intros I HA. destruct (count_spec d T A I HA) as (d1 & E1 & I1). unfold db_account_get. rewrite E1. cbn [mbind res_bind].
  destruct (Z.eqb_spec (zlen A) 0) as [E0|E0].
  { destruct A; [|unfold zlen in E0; cbn in E0; lia]. by exists d1, None. }
  assert (cstr (sql_account_all ++ [0]) = Some sql_account_all) as Hb by reflexivity.
  assert (parse (lex sql_account_all) = Some (Select t_db_account None [[]])) as Hp by reflexivity.
  pose proof (selected_where T A [[]] (fun _ => true) HA eq_refl (fun _ => eq_refl)) as Hs.
  rewrite filter_true in Hs.
  destruct (query_reading d1 T _ _ _ _ 5 I1 Hb Hp Hs) as (rs & d2 & P & -> & R); [apply acct_row_shape, HA|].
  cbn [mbind res_bind]. assert (length rs = length A) as L by (rewrite P; apply length_map).
  destruct rs as [|r rs]; [cbn in L; unfold zlen in E0; lia|]. change (1 =? dbp_query_row) with true. cbn [negb].
  rewrite (num_fields_reading _ _ _ _ _ R). cbn [Z.eqb Pos.eqb negb].
  assert (Forall (fun r => read_account (blank_account 0 0) (cells_of r) = Ok (row_acct r)) (r :: rs)) as Hrd.
  { rewrite P. apply Forall_map. eapply Forall_impl; [apply HA|]. intros a Ha. unfold compose.
    rewrite row_acct_row. by apply read_account_spec. }
  destruct (fetch_into_spec read_account (blank_account 0 0) row_acct T 5 (r :: rs) d2 R Hrd) as (d3 & E3 & R3).
  replace (Z.to_nat (zlen A)) with (length (r :: rs)) by (unfold zlen; lia). rewrite E3. cbn [mbind res_bind].
  destruct (reset_idle _ _ _ _ _ R3) as (d4 & -> & I4). exists d4, (Some (map row_acct (r :: rs))). split; [done|].
  split; [done|]. split; [|done]. cbn [default from_option id]. rewrite P, map_map.
  erewrite map_ext; [done|]. apply row_acct_row.
Qed.

(** ** Sequences of calls *)

Inductive call :=
  | Add (a : account)
  | GetOne (u : list Z)
  | Get
  | PwdCheck (u p : list Z)
  | UpdatePwd (u p : list Z)
  | UpdateNick (u n : list Z)
  | UpdateComment (u c : list Z)
  | Del (u : list Z).

(** The result and the records handed out. *)
Definition run_call (d : dbp_inst) (c : call) : res (Z * list account * dbp_inst) :=
  match c with
  | Add a => '(r, _, d) ← db_account_add d a; Ok (r, [], d)
  | GetOne u => '(r, a, d) ← db_account_get_one d u (Some (blank_account 0 0));
                Ok (r, if r =? 0 then [] else option_list a, d)
  | Get => '(r, arr, d) ← db_account_get d; Ok (r, default [] arr, d)
  | PwdCheck u p => '(r, d) ← db_account_pwd_check d u p; Ok (r, [], d)
  | UpdatePwd u p => '(r, d) ← db_account_update_pwd d u p; Ok (r, [], d)
  | UpdateNick u n => '(r, d) ← db_account_update_nick d u n; Ok (r, [], d)
  | UpdateComment u c => '(r, d) ← db_account_update_comment d u c; Ok (r, [], d)
  | Del u => '(r, d) ← db_account_del d u; Ok (r, [], d)
  end.

Fixpoint run_calls (d : dbp_inst) (cs : list call) : res (list (Z * list account) * dbp_inst) :=
  match cs with
  | [] => Ok ([], d)
  | c :: cs =>
      '(r, l, d) ← run_call d c;
      '(rs, d) ← run_calls d cs;
      Ok ((r, l) :: rs, d)
  end.

(** The same calls on a list of accounts. *)
Definition spec_call (A : list acct) (c : call) : Z * list account * list acct :=
  match c with
  | Add a => let '(r, A) := add_acct A (acct_of a) in (r, [], A)
  | GetOne u => match find_acct A (text u) with Some a => (1, [handed_out a], A) | None => (0, [], A) end
  | Get => (zlen A, map handed_out A, A)
  | PwdCheck u p => (if pwd_matches A (text u) (text p) then 1 else 0, [], A)
  | UpdatePwd u p => (1, [], update_acct (with_hash (pwd_hash (text p))) A (text u))
  | UpdateNick u n => (1, [], update_acct (with_nick (text n)) A (text u))
  | UpdateComment u c => (1, [], update_acct (with_comment (text c)) A (text u))
  | Del u => (1, [], delete_acct A (text u))
  end.

Fixpoint spec_calls (A : list acct) (cs : list call) : list (Z * list account) * list acct :=
  match cs with
  | [] => ([], A)
  | c :: cs =>
      let '(r, l, A) := spec_call A c in
      let '(rs, A) := spec_calls A cs in ((r, l) :: rs, A)
  end.

Definition a_pwd (p : list Z) : Prop := terminated p /\ Forall is_byte (text p) /\ zlen (text p) <= 128.

Definition call_ok (c : call) : Prop :=
  match c with
  | Add a => storable a
  | GetOne u | Del u => plain 256 u
  | Get => True
  | PwdCheck u p | UpdatePwd u p => plain 256 u /\ a_pwd p
  | UpdateNick u n => plain 256 u /\ plain 64 n
  | UpdateComment u c => plain 256 u /\ plain 256 c
  end.

(** The answers agree, a list of records in any order. *)
Definition same_answer (x y : Z * list account) : Prop := x.1 = y.1 /\ x.2 ≡ₚ y.2.

Lemma account_call_refines d T A c :
  idle d T -> accounts T A -> zlen A < INT_MAX -> call_ok c ->
  exists l d' T', let '(r, l0, A') := spec_call A c in
    run_call d c = Ok (r, l, d') /\ l ≡ₚ l0 /\ idle d' T' /\ accounts T' A' /\ zlen A' <= zlen A + 1.
Proof.
  intros I HA Hf Hc. destruct c as [a|u| |u p|u p|u n|u c|u]; cbn [run_call spec_call call_ok] in *.
  - destruct (account_add_spec d T A a I HA Hc Hf) as (d' & T' & a' & -> & I' & HA' & _). exists [], d', T'.
    unfold add_acct in *. destruct (find_acct A (ac_uid (acct_of a))); cbn [fst snd mbind res_bind] in *.
    + split; [done|]. split; [done|]. split; [done|]. split; [done|]. lia.
    + split; [done|]. split; [done|]. split; [done|]. split; [done|]. rewrite zlen_app. by change (zlen [acct_of a]) with 1.
  - destruct (get_one_spec d T A u (Some (blank_account 0 0)) I HA Hc) as (d' & I' & ->); [by intros ? [= <-]|].
    destruct (find_acct A (text u)) as [a|]; cbn [mbind res_bind fmap option_fmap option_map];
      eexists _, d', T; (split; [reflexivity|]); (split; [done|]); (split; [done|]); (split; [done|]); lia.
  - destruct (account_get_spec d T A I HA) as (d' & arr & -> & I' & P & _). cbn [mbind res_bind].
    eexists _, d', T. split; [done|]. split; [done|]. split; [done|]. split; [done|]. lia.
  - destruct Hc as (Hu & H1 & H2 & H3). destruct (pwd_check_spec d T A u p I HA Hu H1 H2 H3) as (d' & I' & ->).
    eexists [], d', T. split; [done|]. split; [done|]. split; [done|]. split; [done|]. lia.
  - destruct Hc as (Hu & H1 & H2 & H3). destruct (update_pwd_spec d T A u p I HA Hu H1 H2 H3) as (d' & T' & -> & I' & HA').
    eexists [], d', T'. split; [done|]. split; [done|]. split; [done|]. split; [done|]. unfold update_acct, zlen. rewrite length_map. lia.
  - destruct Hc as (Hu & Hn). destruct (update_nick_spec d T A u n I HA Hu Hn) as (d' & T' & -> & I' & HA').
    eexists [], d', T'. split; [done|]. split; [done|]. split; [done|]. split; [done|]. unfold update_acct, zlen. rewrite length_map. lia.
  - destruct Hc as (Hu & Hn). destruct (update_comment_spec d T A u c I HA Hu Hn) as (d' & T' & -> & I' & HA').
    eexists [], d', T'. split; [done|]. split; [done|]. split; [done|]. split; [done|]. unfold update_acct, zlen. rewrite length_map. lia.
  - destruct (account_del_spec d T A u I HA Hc) as (d' & T' & -> & I' & HA').
    eexists [], d', T'. split; [done|]. split; [done|]. split; [done|]. split; [done|].
    unfold delete_acct, zlen. pose proof (List.filter_length_le (fun a => negb (by_name (text u) a)) A). lia.
Qed.

Lemma account_calls_refine cs : forall d T A,
  idle d T -> accounts T A -> zlen A + zlen cs <= INT_MAX -> Forall call_ok cs ->
  exists rs d' T', run_calls d cs = Ok (rs, d') /\ Forall2 same_answer rs (spec_calls A cs).1 /\
    idle d' T' /\ accounts T' (spec_calls A cs).2.
Proof.
  induction cs as [|c cs IH]; intros d T A I HA Hf Hc; [by exists [], d, T|].
  apply Forall_cons in Hc as [Hc Hcs]. rewrite zlen_cons in Hf. pose proof (zlen_nonneg cs).
  cbn [run_calls spec_calls]. destruct (account_call_refines d T A c I HA ltac:(lia) Hc) as (l & d1 & T1 & H1).
  destruct (spec_call A c) as [[r l0] A1]. destruct H1 as (-> & P & I1 & HA1 & L1). cbn [mbind res_bind].
  destruct (IH d1 T1 A1 I1 HA1 ltac:(lia) Hcs) as (rs & d2 & T2 & -> & F & I2 & HA2). cbn [mbind res_bind].
  destruct (spec_calls A1 cs) as [rs0 A2]. exists ((r, l) :: rs), d2, T2. split; [done|]. split; [by constructor|done].
Qed.

(** C13: The account table, created by [db_account_init], is a list of accounts with distinct users. For
    records that fit their arrays and strings without quotes, every sequence of additions, lookups,
    password checks, updates, deletions and listings runs without a fault and answers what the list
    answers: an addition is refused exactly when its user, in lower case, exists; a password is right
    exactly when the stored hash is that of the password; a lookup hands out the stored record; a
    listing hands out every record, in some order. The provider is idle afterwards. *)
Theorem account_table_refines d T cs :
  idle d T -> T !! t_db_account = None -> Rest T -> Forall call_ok cs -> zlen cs <= INT_MAX ->
  exists d1 rs d' T', db_account_init d = Ok (1, d1) /\ run_calls d1 cs = Ok (rs, d') /\
    Forall2 same_answer rs (spec_calls [] cs).1 /\ idle d' T' /\ accounts T' (spec_calls [] cs).2.
Proof.
  intros I HT HR Hc Hf. destruct (account_init_spec d T I (or_introl HT)) as (d1 & T1 & E1 & I1 & _ & HA1). rewrite HT in HA1.
  destruct (account_calls_refine cs d1 T1 [] I1 (HA1 HR) Hf Hc) as (rs & d' & T' & E & F & I' & HA').
  by exists d1, rs, d', T'.
Qed.

(** ** A quote in the user's name *)

(** ' or 1=1 -- *)
Definition tautology : list Z := Eval vm_compute in lit "' or 1=1 --".
Definition tautology_uid : list Z := tautology ++ replicate 6 0.

Definition where_any : where_clause :=
  [[(OCol k_uid, OLit (LitStr []))]; [(OLit (LitNum false [49]), OLit (LitNum false [49]))]].

Lemma lex_run_comment s : Forall (fun c => c <> 10) s -> lex_run LComment s = (LComment, []).
Proof.
  induction 1 as [|c s Hc _ IH]; [done|]. cbn [lex_run lex_char]. destruct (Z.eqb_spec c 10); [done|]. by rewrite IH.
Qed.

Lemma sprintf_cstr fmt args t :
  format (pieces fmt) args = Ok t -> forallb piece_ok (pieces fmt) = true -> zlen t < 4096 ->
  exists buf, sprintf sqlbuf fmt args = Ok buf /\ cstr buf = Some t.
Proof.
  intros E Hp L. eexists. split; [apply sprintf_text; [exact E|by rewrite sqlbuf_size_4096]|].
  rewrite <- app_assoc. apply cstr_app. by eapply format_no_zero.
Qed.

Lemma stmt_one_tautology :
  exists buf t, sprintf sqlbuf sql_account_one [AStr tautology_uid] = Ok buf /\ cstr buf = Some t /\
    parse (lex t) = Some (Select t_db_account None where_any).
Proof.
  destruct (sprintf_cstr sql_account_one [AStr tautology_uid] _ eq_refl eq_refl ltac:(done)) as (buf & E & Hb).
  by eexists buf, _.
Qed.

Lemma stmt_check_tautology h :
  plain 256 h -> Forall (fun c => c <> 10) (text h) ->
  exists buf t, sprintf sqlbuf sql_account_check [AStr tautology_uid; AStr h] = Ok buf /\ cstr buf = Some t /\
    parse (lex t) = Some (Select t_db_account None where_any).
Proof.
  intros ([s Hs] & _ & L) N. unfold text in *. rewrite Hs in *. cbn [default from_option id] in *.
  set (pre := lit "SELECT * FROM t_db_account WHERE uid='' or 1=1 --' AND pwd='").
  destruct (sprintf_cstr sql_account_check [AStr tautology_uid; AStr h] (pre ++ s ++ [39])) as (buf & E & Hb).
  - transitivity (t ← (match cstr h with Some s => Ok (s ++ [39]) | None => Fault OutOfBounds end); Ok (pre ++ t));
      [|by rewrite Hs]. lazy -[cstr app]. destruct (cstr h); reflexivity.
  - reflexivity.
  - rewrite !zlen_app. change (zlen pre) with 60. change (zlen [39]) with 1. lia.
  - exists buf, (pre ++ s ++ [39]). split; [done|]. split; [done|].
    unfold lex. rewrite lex_run_app.
    assert (lex_run LStart pre = (LComment, (lex_run LStart pre).2)) as -> by reflexivity.
    rewrite lex_run_app, lex_run_comment by done. cbn [lex_run lex_char]. change (39 =? 10) with false.
    reflexivity.
Qed.

Lemma selected_any T A :
  accounts T A -> selected T (Select t_db_account None where_any) = Some (map acct_row A).
Proof.
  intros HA. rewrite (selected_where T A where_any (fun _ => true) HA eq_refl); [by rewrite filter_true|].
  intros a. transitivity (bool_decide (Some (ac_uid a) = Some []) && true || true); [reflexivity|]. apply orb_true_r.
Qed.

Lemma get_one_tautology d T A old :
  idle d T -> accounts T A -> A <> [] -> account_sized old ->
  exists d' a, In a A /\ idle d' T /\ db_account_get_one d tautology_uid (Some old) = Ok (1, Some (record_of a old), d').
Proof.
  intros I HA Hne Hold. destruct stmt_one_tautology as (buf & t & E & Hb & Hp).
  destruct (query_reading d T buf t _ _ 5 I Hb Hp (selected_any T A HA)) as (rs & d1 & P & Eq & R); [apply acct_row_shape, HA|].
  unfold db_account_get_one. rewrite E. cbn [mbind res_bind]. rewrite Eq. cbn [mbind res_bind].
  destruct rs as [|r rs]; [apply Permutation_nil_l in P; by destruct A|]. change (1 =? dbp_query_row) with true. cbn [negb].
  assert (exists a, In a A /\ r = acct_row a) as (a & Ha & ->).
  { assert (r ∈ map acct_row A) as (a & -> & Ha)%list_elem_of_fmap by (rewrite <- P; apply list_elem_of_here).
    exists a. split; [by apply list_elem_of_In|done]. }
  rewrite (num_fields_reading _ _ _ _ _ R). cbn [Z.eqb Pos.eqb negb].
  destruct (fetch_reading _ _ _ _ _ R) as (adr & d2 & -> & Ec & R2). cbn [mbind res_bind]. change (1 =? 0) with false.
  cbn iota. rewrite Ec. cbn [mbind res_bind]. rewrite read_account_spec; [|pose proof (as_ok _ _ HA) as Hok; rewrite List.Forall_forall in Hok; by apply Hok|done].
  cbn [mbind res_bind]. destruct (free_reading _ _ _ _ _ _ _ R2 Ec) as (d3 & -> & R3). cbn [mbind res_bind].
  destruct (reset_idle _ _ _ _ _ R3) as (d4 & -> & I4). by exists d4, a.
Qed.

Lemma get_one_null_tautology d T A :
  idle d T -> accounts T A -> A <> [] ->
  exists d', idle d' T /\ db_account_get_one d tautology_uid None = Ok (1, None, d').
Proof.
  intros I HA Hne. destruct stmt_one_tautology as (buf & t & E & Hb & Hp).
  destruct (query_reading d T buf t _ _ 5 I Hb Hp (selected_any T A HA)) as (rs & d1 & P & Eq & R); [apply acct_row_shape, HA|].
  unfold db_account_get_one. rewrite E. cbn [mbind res_bind]. rewrite Eq. cbn [mbind res_bind].
  destruct rs as [|r rs]; [apply Permutation_nil_l in P; by destruct A|]. change (1 =? dbp_query_row) with true. cbn [negb].
  destruct (reset_idle _ _ _ _ _ R) as (d2 & -> & I2). by exists d2.
Qed.

Lemma pwd_check_tautology d T A p :
  idle d T -> accounts T A -> A <> [] -> a_pwd p ->
  exists d', idle d' T /\ db_account_pwd_check d tautology_uid p = Ok (1, d').
Proof.
  intros I HA Hne (P1 & P2 & P3). destruct (hash_pwd_spec p P1 P2 P3) as (h & Eh & Ph & Th).
  destruct (stmt_check_tautology h Ph) as (buf & t & E & Hb & Hp).
  { rewrite Th. eapply Forall_impl; [apply pwd_hash_shape|]. cbn. lia. }
  destruct (query_reading d T buf t _ _ 5 I Hb Hp (selected_any T A HA)) as (rs & d1 & P & Eq & R); [apply acct_row_shape, HA|].
  unfold db_account_pwd_check. rewrite Eh. cbn [mbind res_bind]. rewrite E. cbn [mbind res_bind]. rewrite Eq. cbn [mbind res_bind].
  destruct rs as [|r rs]; [apply Permutation_nil_l in P; by destruct A|].
  destruct (reset_idle _ _ _ _ _ R) as (d2 & -> & I2). by exists d2.
Qed.

End accounts.
Arguments accounts Rest T A : clear implicits.

#[export] Instance framed_any : Framed (fun _ => True).
Proof. by intros T T' _ _. Qed.

(** ** The instance used by the witnesses *)

#[export] Instance plain_dec k buf : Decision (plain k buf).
Proof. unfold plain, no_quote. apply _. Defined.
#[export] Instance is_byte_dec z : Decision (is_byte z).
Proof. unfold is_byte. apply _. Defined.
#[export] Instance a_pwd_dec p : Decision (a_pwd p).
Proof. unfold a_pwd. apply _. Defined.

(** Decides a closed proposition by computation. *)
Ltac decide_now := apply (bool_decide_unpack _); vm_compute; exact I.

Section demo.
Import SqlToy.

Definition demo_dbp : dbp_inst := mk_inst sqlite_provider (mk_param (∅ : tables) false StNull 0 0 [] []).

Lemma demo_dbp_idle : idle demo_dbp ∅.
Proof. by split. Qed.

Definition padded (n : nat) (s : string) : list Z := lit s ++ replicate (n - length (lit s)) 0.

Definition demo_account : account :=
  mk_account account_cook (padded 17 "Bob") (padded 129 "secret") (padded 65 "Bob") (padded 257 "").

(** A cook is stored, found under his name in lower case, checked with both passwords, given a
    new one and deleted. *)
Definition demo_calls : list call :=
  [Add demo_account; Add demo_account; GetOne (padded 17 "bob"); PwdCheck (padded 17 "bob") (padded 17 "secret");
   UpdatePwd (padded 17 "bob") (padded 17 "other"); PwdCheck (padded 17 "bob") (padded 17 "secret"); Get; Del (padded 17 "bob")].

Lemma account_table_refines_witness :
  exists d1 rs d' T', db_account_init demo_dbp = Ok (1, d1) /\ run_calls d1 demo_calls = Ok (rs, d') /\
    Forall2 same_answer rs (spec_calls [] demo_calls).1 /\ idle d' T' /\ accounts (fun _ => True) T' (spec_calls [] demo_calls).2.
Proof.
  refine (account_table_refines (Rest := fun _ => True) demo_dbp ∅ demo_calls demo_dbp_idle _ _ _ _).
  - reflexivity.
  - exact I.
  - unfold demo_calls.
    assert (storable demo_account) as Hs by (split; by decide_now).
    repeat apply Forall_cons_2; cbn [call_ok]; try done; by decide_now.
  - done.
Defined.

End demo.
End Accounts.
