(* ===== verification/Menu.v ===== *)
(** * Menu: dishes, seats and bookings (server/db_dish.c, db_seat.c, db_book.c)

    Three tables with numeric keys. The statements are printed and the answers read as in
    [Accounts]; the shared code and its lemmas are in [Records]. *)
From Stdlib Require Import String.
From S2P Require Import Prelude Alloc Cstr Fmt Double Sql Dbp Records.
From stdpp Require Import gmap.
Import Alloc Cstr Fmt Double Sql Dbp Records.
Open Scope Z_scope.

Module Menu.

(** [dish_t]: arrays of 65, 257 and 65 characters. *)
Record dish := mk_dish {
  d_id : Z;
  d_category : Z;
  d_name : list Z;
  d_summary : list Z;
  d_thumbnail : list Z;
  d_price_type : Z;
  d_price : Z;
}.

(** [seat_t]: arrays of 257 and 65 characters. *)
Record seat := mk_seat { s_id : Z; s_summary : list Z; s_qrcode : list Z }.

(** [book_t]: a double and an array of 256 characters. *)
Record book := mk_book {
  b_book_id : Z;
  b_seat_id : Z;
  b_dish_id : Z;
  b_jin_or_plate : Z;
  b_comment : list Z;
  b_accept_state : Z;
}.

Definition dish_category_hot : Z := 0.
Definition dish_price_plate : Z := 0.
Definition book_accept_state_idle : Z := 0.

(** Records of cells [x], as [calloc] and [malloc] leave them. *)
Definition blank_dish (x : Z) : dish := mk_dish 0 0 (replicate 65 x) (replicate 257 x) (replicate 65 x) 0 0.
Definition blank_seat (x : Z) : seat := mk_seat 0 (replicate 257 x) (replicate 65 x).
Definition blank_book (x : Z) : book := mk_book 0 0 0 0 (replicate 256 x) 0.

Definition t_db_dish : list Z := Eval vm_compute in lit "t_db_dish".
Definition t_db_seat : list Z := Eval vm_compute in lit "t_db_seat".
Definition t_db_book : list Z := Eval vm_compute in lit "t_db_book".

Definition sql_create_dish : list Z := Eval vm_compute in
  lit "CREATE TABLE IF NOT EXISTS t_db_dish (id INTEGER PRIMARY KEY,category INTEGER,name TEXT,summary TEXT,thumbnail TEXT,price_type INTEGER,price INTEGER,created TIMESTAMPE NOT NULL DEFAULT (datetime('now','localtime')))".
Definition sql_truncate_dish : list Z := Eval vm_compute in lit "TRUNCATE TABLE t_db_dish".
Definition sql_insert_dish : list Z := Eval vm_compute in
  lit "INSERT INTO t_db_dish (id, category,name,summary,thumbnail,price_type, price) VALUES (%d,%d,'%s','%s','%s',%d,%d)".
Definition sql_delete_dish : list Z := Eval vm_compute in lit "DELETE FROM t_db_dish WHERE id='%d'".
Definition sql_dish_count : list Z := Eval vm_compute in lit "SELECT count(*) as count FROM t_db_dish WHERE category=%d".
Definition sql_dish_category : list Z := Eval vm_compute in lit "SELECT * FROM t_db_dish WHERE category=%d".
Definition sql_dish_one : list Z := Eval vm_compute in lit "SELECT * FROM t_db_dish WHERE id=%d".

Definition sql_create_seat : list Z := Eval vm_compute in
  lit "CREATE TABLE IF NOT EXISTS t_db_seat (id INTEGER PRIMARY KEY,summary TEXT,qrcode TEXT)".
Definition sql_truncate_seat : list Z := Eval vm_compute in lit "TRUNCATE TABLE t_db_seat".
Definition sql_insert_seat : list Z := Eval vm_compute in
  lit "INSERT INTO t_db_seat (id,summary,qrcode) VALUES (%d,'%s','%s')".
Definition sql_delete_seat : list Z := Eval vm_compute in lit "DELETE FROM t_db_seat WHERE id='%d'".
Definition sql_seat_count : list Z := Eval vm_compute in lit "SELECT count(*) as count FROM t_db_seat".
Definition sql_seat_all : list Z := Eval vm_compute in lit "SELECT * FROM t_db_seat".
Definition sql_seat_one : list Z := Eval vm_compute in lit "SELECT * FROM t_db_seat WHERE id=%d".

Definition sql_create_book : list Z := Eval vm_compute in
  lit "CREATE TABLE IF NOT EXISTS t_db_book (book_id INTEGER PRIMARY KEY,seat_id INTEGER,dish_id INTEGER,jin_or_plate REAL,comment TEXT,accept_state int)".
Definition sql_truncate_book : list Z := Eval vm_compute in lit "TRUNCATE TABLE t_db_book".
Definition sql_insert_book : list Z := Eval vm_compute in
  lit "INSERT INTO t_db_book (seat_id,dish_id,jin_or_plate,comment,accept_state) VALUES (%d,%d,%0.2f,'%s',%d)".
Definition sql_delete_book : list Z := Eval vm_compute in lit "DELETE FROM t_db_book WHERE book_id=%d".
Definition sql_book_one : list Z := Eval vm_compute in
  lit "SELECT book_id,seat_id,dish_id,jin_or_plate,comment,accept_state FROM t_db_book WHERE book_id=%d".
Definition sql_book_count : list Z := Eval vm_compute in lit "SELECT count(*) as count FROM t_db_book WHERE seat_id = %d".
Definition sql_book_seat : list Z := Eval vm_compute in
  lit "SELECT book_id,seat_id,dish_id,jin_or_plate,comment,accept_state FROM t_db_book WHERE seat_id = %d".
Definition sql_update_numbers : list Z := Eval vm_compute in
  lit "UPDATE t_db_book SET book_numbers=%d WHERE seat_id=%d AND dish_id=%d".
Definition sql_update_accept : list Z := Eval vm_compute in
  lit "UPDATE t_db_book SET accept_numbers=%d WHERE seat_id=%d AND dish_id=%d".

Section menu.
Context `{S : Sqlite}.

(** ** db_dish.c *)

Definition db_dish_init (a_dbp : dbp_inst) : res (Z * dbp_inst) := dbp_exec a_dbp (sql_create_dish ++ [0]).
Definition db_dish_deinit : Z := 1.
Definition db_dish_reset (a_dbp : dbp_inst) : res (Z * dbp_inst) := dbp_exec a_dbp (sql_truncate_dish ++ [0]).

Definition db_dish_add (a_dbp : dbp_inst) (d : dish) : res (Z * dbp_inst) :=
  buf ← sprintf sqlbuf sql_insert_dish
          [AInt (d_id d); AInt (d_category d); AStr (d_name d); AStr (d_summary d); AStr (d_thumbnail d); AInt (d_price_type d); AInt (d_price d)];
  dbp_exec a_dbp buf.

Definition db_dish_del (a_dbp : dbp_inst) (id : Z) : res (Z * dbp_inst) :=
  buf ← sprintf sqlbuf sql_delete_dish [AInt id]; dbp_exec a_dbp buf.

Definition read_dish (d : dish) (cells : list dbp_row) : res dish :=
  i ← cell_int cells 0;
  c ← cell_int cells 1;
  n ← copy_cell (d_name d) cells 2;
  s ← copy_cell (d_summary d) cells 3;
  t ← copy_cell (d_thumbnail d) cells 4;
  pt ← cell_int cells 5;
  p ← cell_int cells 6;
  Ok (mk_dish i c n s t pt p).

(** [want] is whether the caller passed a place for the array. *)
Definition db_dish_get_by_category (a_dbp : dbp_inst) (category : Z) (want : bool)
  : res (Z * option (list dish) * dbp_inst) :=
  buf ← sprintf sqlbuf sql_dish_count [AInt category];
  '(count, a_dbp) ← query_count a_dbp buf;
  match count with
  | None => Ok (0, None, a_dbp)
  | Some count =>
      if count =? 0 then Ok (0, None, a_dbp) else
      buf ← sprintf sqlbuf sql_dish_category [AInt category];
      '(query_r, a_dbp) ← dbp_query a_dbp buf;
      if negb (query_r =? dbp_query_row) then '(_, a_dbp) ← dbp_query_reset a_dbp; Ok (0, None, a_dbp) else
      if want then
        if negb (dbp_num_fields a_dbp =? 8) then '(_, a_dbp) ← dbp_query_reset a_dbp; Ok (0, None, a_dbp) else
        '(arr, a_dbp) ← fetch_into read_dish free_once a_dbp (replicate (Z.to_nat count) (blank_dish 0));
        '(_, a_dbp) ← dbp_query_reset a_dbp;
        Ok (count, Some arr, a_dbp)
      else '(_, a_dbp) ← dbp_query_reset a_dbp; Ok (count, None, a_dbp)
  end.

Definition db_dish_free (arr : option (list dish)) : res unit := free_array arr.

(** A record is wanted with one column of the eight. *)
Definition db_dish_get_one (a_dbp : dbp_inst) (id : Z) (d : option dish) : res (Z * option dish * dbp_inst) :=
  buf ← sprintf sqlbuf sql_dish_one [AInt id];
  '(query_r, a_dbp) ← dbp_query a_dbp buf;
  if negb (query_r =? dbp_query_row) then '(_, a_dbp) ← dbp_query_reset a_dbp; Ok (0, d, a_dbp) else
  match d with
  | None => '(_, a_dbp) ← dbp_query_reset a_dbp; Ok (1, None, a_dbp)
  | Some d0 =>
      if negb (dbp_num_fields a_dbp =? 1) then '(_, a_dbp) ← dbp_query_reset a_dbp; Ok (0, d, a_dbp) else
      '(r, row, a_dbp) ← dbp_fetch_row a_dbp;
      '(d, a_dbp) ←
        (if r =? 0 then Ok (d, a_dbp) else
         cells ← row_cells a_dbp row;
         d1 ← read_dish d0 cells;
         '(_, a_dbp) ← dbp_fetch_row_free a_dbp row;
         Ok (Some d1, a_dbp));
      '(_, a_dbp) ← dbp_query_reset a_dbp;
      Ok (1, d, a_dbp)
  end.

(** ** db_seat.c *)

Definition db_seat_init (a_dbp : dbp_inst) : res (Z * dbp_inst) := dbp_exec a_dbp (sql_create_seat ++ [0]).
Definition db_seat_deinit : Z := 1.
Definition db_seat_reset (a_dbp : dbp_inst) : res (Z * dbp_inst) := dbp_exec a_dbp (sql_truncate_seat ++ [0]).

Definition db_seat_add (a_dbp : dbp_inst) (s : seat) : res (Z * dbp_inst) :=
  buf ← sprintf sqlbuf sql_insert_seat [AInt (s_id s); AStr (s_summary s); AStr (s_qrcode s)]; dbp_exec a_dbp buf.

Definition db_seat_del (a_dbp : dbp_inst) (id : Z) : res (Z * dbp_inst) :=
  buf ← sprintf sqlbuf sql_delete_seat [AInt id]; dbp_exec a_dbp buf.

Definition read_seat (s : seat) (cells : list dbp_row) : res seat :=
  i ← cell_int cells 0;
  m ← copy_cell (s_summary s) cells 1;
  q ← copy_cell (s_qrcode s) cells 2;
  Ok (mk_seat i m q).

Definition db_seat_get (a_dbp : dbp_inst) : res (Z * option (list seat) * dbp_inst) :=
  get_rows a_dbp (sql_seat_count ++ [0]) (sql_seat_all ++ [0]) 3 read_seat free_once (blank_seat 170).

Definition db_seat_free (arr : option (list seat)) : res unit := free_array arr.

(** The final zero of the summary is placed by the length of a fourth column, of three. *)
Definition read_seat_one (s : seat) (cells : list dbp_row) : res seat :=
  i ← cell_int cells 0;
  c1 ← cell_at cells 1;
  data ← cell_data c1;
  m ← strncpy (s_summary s) data (c_length c1);
  c3 ← cell_at cells 3;
  m ← memcpy m (c_length c3) [0] 1;
  q ← copy_cell (s_qrcode s) cells 2;
  Ok (mk_seat i m q).

Definition db_seat_get_one (a_dbp : dbp_inst) (id : Z) (s : option seat) : res (Z * option seat * dbp_inst) :=
  buf ← sprintf sqlbuf sql_seat_one [AInt id];
  '(query_r, a_dbp) ← dbp_query a_dbp buf;
  if negb (query_r =? dbp_query_row) then '(_, a_dbp) ← dbp_query_reset a_dbp; Ok (0, s, a_dbp) else
  match s with
  | None => '(_, a_dbp) ← dbp_query_reset a_dbp; Ok (1, None, a_dbp)
  | Some s0 =>
      if negb (dbp_num_fields a_dbp =? 3) then '(_, a_dbp) ← dbp_query_reset a_dbp; Ok (0, s, a_dbp) else
      '(r, row, a_dbp) ← dbp_fetch_row a_dbp;
      '(s, a_dbp) ←
        (if r =? 0 then Ok (s, a_dbp) else
         cells ← row_cells a_dbp row;
         s1 ← read_seat_one s0 cells;
         '(_, a_dbp) ← dbp_fetch_row_free a_dbp row;
         Ok (Some s1, a_dbp));
      '(_, a_dbp) ← dbp_query_reset a_dbp;
      Ok (1, s, a_dbp)
  end.

(** ** db_book.c *)

Definition db_book_init (a_dbp : dbp_inst) : res (Z * dbp_inst) := dbp_exec a_dbp (sql_create_book ++ [0]).
Definition db_book_deinit : Z := 1.
Definition db_book_reset (a_dbp : dbp_inst) : res (Z * dbp_inst) := dbp_exec a_dbp (sql_truncate_book ++ [0]).

Definition db_book_add (a_dbp : dbp_inst) (b : book) : res (Z * dbp_inst) :=
  buf ← sprintf sqlbuf sql_insert_book
          [AInt (b_seat_id b); AInt (b_dish_id b); ADouble (b_jin_or_plate b); AStr (b_comment b); AInt (b_accept_state b)];
  dbp_exec a_dbp buf.

Definition db_book_del (a_dbp : dbp_inst) (book_id : Z) : res (Z * dbp_inst) :=
  buf ← sprintf sqlbuf sql_delete_book [AInt book_id]; dbp_exec a_dbp buf.

Definition cell_double (cells : list dbp_row) (i : nat) : res Z :=
  c ← cell_at cells i; d ← cell_data c; atof d.

Definition read_book (b : book) (cells : list dbp_row) : res book :=
  i ← cell_int cells 0;
  s ← cell_int cells 1;
  d ← cell_int cells 2;
  j ← cell_double cells 3;
  c ← copy_cell (b_comment b) cells 4;
  a ← cell_double cells 5;
  a ← double_int a;
  Ok (mk_book i s d j c a).

(** Every row overwrites the record. *)
Fixpoint read_last (fuel : nat) (a_dbp : dbp_inst) (b : book) : res (book * dbp_inst) :=
  match fuel with
  | O => Fault OutOfFuel
  | Datatypes.S fuel =>
      '(r, row, a_dbp) ← dbp_fetch_row a_dbp;
      if r =? 0 then Ok (b, a_dbp) else
      cells ← row_cells a_dbp row;
      b ← read_book b cells;
      '(_, a_dbp) ← dbp_fetch_row_free a_dbp row;
      read_last fuel a_dbp b
  end.

(** The key is unique, so a second turn finds no row. *)
Definition db_book_get_one (a_dbp : dbp_inst) (book_id : Z) (b : option book) : res (Z * option book * dbp_inst) :=
  buf ← sprintf sqlbuf sql_book_one [AInt book_id];
  '(query_r, a_dbp) ← dbp_query a_dbp buf;
  if negb (query_r =? dbp_query_row) then '(_, a_dbp) ← dbp_query_reset a_dbp; Ok (0, b, a_dbp) else
  match b with
  | None => '(_, a_dbp) ← dbp_query_reset a_dbp; Ok (1, None, a_dbp)
  | Some b0 =>
      if negb (dbp_num_fields a_dbp =? 6) then '(_, a_dbp) ← dbp_query_reset a_dbp; Ok (0, b, a_dbp) else
      '(b1, a_dbp) ← read_last 3 a_dbp b0;
      '(_, a_dbp) ← dbp_query_reset a_dbp;
      Ok (1, Some b1, a_dbp)
  end.

(** The loop of [db_book_get] frees its row twice. *)
Definition free_twice (a_dbp : dbp_inst) (row : option nat) : res dbp_inst :=
  a_dbp ← free_once a_dbp row; free_once a_dbp row.

Definition db_book_get (a_dbp : dbp_inst) (seat_id : Z) : res (Z * option (list book) * dbp_inst) :=
  buf1 ← sprintf sqlbuf sql_book_count [AInt seat_id];
  buf2 ← sprintf sqlbuf sql_book_seat [AInt seat_id];
  get_rows a_dbp buf1 buf2 6 read_book free_twice (blank_book 0).

Definition db_book_free (arr : option (list book)) : res unit := free_array arr.

Definition db_book_modify_book (a_dbp : dbp_inst) (seat_id dish_id number : Z) : res (Z * dbp_inst) :=
  buf ← sprintf sqlbuf sql_update_numbers [AInt number; AInt seat_id; AInt dish_id]; dbp_exec a_dbp buf.

Definition db_book_modify_accept (a_dbp : dbp_inst) (seat_id dish_id number : Z) : res (Z * dbp_inst) :=
  buf ← sprintf sqlbuf sql_update_accept [AInt number; AInt seat_id; AInt dish_id]; dbp_exec a_dbp buf.

End menu.
End Menu.
