(* ===== verification/MenuSpec.v ===== *)
(** * MenuSpec: what the operations on dishes, seats and bookings do

    The three tables as lists of records. The operations that work are specified on every branch;
    the ones that cannot work (a reset, the two updates of bookings, the records of one dish and one
    seat, the bookings of a seat) are shown to fail as they do. *)
From Stdlib Require Import String.
From S2P Require Import Prelude Alloc Cstr Fmt Double Sql Dbp Records Accounts Menu.
From stdpp Require Import gmap.
Import Alloc Cstr Fmt Double Sql Dbp Records Accounts Menu.
Open Scope Z_scope.

Module MenuSpec.

(** ** The records of the tables *)

Record dish_rec := mk_dish_rec {
  dr_id : Z; dr_category : Z; dr_name : list Z; dr_summary : list Z; dr_thumbnail : list Z;
  dr_price_type : Z; dr_price : Z; dr_created : list Z;
}.
Record seat_rec := mk_seat_rec { sr_id : Z; sr_summary : list Z; sr_qrcode : list Z }.
Record book_rec := mk_book_rec {
  br_id : Z; br_seat : Z; br_dish : Z; br_jin : list Z; br_comment : list Z; br_state : Z;
}.

Definition natural (z : Z) : Prop := 0 <= z <= INT_MAX.
Definition short (k : Z) (s : list Z) : Prop := no_zero s /\ zlen s <= k.

Definition dish_ok (x : dish_rec) : Prop :=
  (natural (dr_id x) /\ natural (dr_category x) /\ natural (dr_price_type x) /\ natural (dr_price x)) /\
  short 64 (dr_name x) /\ short 256 (dr_summary x) /\ short 64 (dr_thumbnail x) /\ no_zero (dr_created x).
Definition seat_ok (x : seat_rec) : Prop := natural (sr_id x) /\ short 256 (sr_summary x) /\ short 64 (sr_qrcode x).
Definition book_ok (x : book_rec) : Prop :=
  (natural (br_id x) /\ natural (br_seat x) /\ natural (br_dish x) /\ natural (br_state x)) /\
  no_zero (br_jin x) /\ short 255 (br_comment x).

Definition c_id : list Z := Eval vm_compute in lit "id".
Definition c_category : list Z := Eval vm_compute in lit "category".
Definition c_book_id : list Z := Eval vm_compute in lit "book_id".
Definition c_seat_id : list Z := Eval vm_compute in lit "seat_id".
Definition c_dish_id : list Z := Eval vm_compute in lit "dish_id".
Definition c_book_numbers : list Z := Eval vm_compute in lit "book_numbers".
Definition c_accept_numbers : list Z := Eval vm_compute in lit "accept_numbers".

Definition dish_cols : list (list Z * affinity) := Eval vm_compute in
  match parse (lex sql_create_dish) with Some (Create _ cols) => cols | _ => [] end.
Definition seat_cols : list (list Z * affinity) := Eval vm_compute in
  match parse (lex sql_create_seat) with Some (Create _ cols) => cols | _ => [] end.
Definition book_cols : list (list Z * affinity) := Eval vm_compute in
  match parse (lex sql_create_book) with Some (Create _ cols) => cols | _ => [] end.

Definition dish_row (x : dish_rec) : row :=
  [dec (dr_id x); dec (dr_category x); dr_name x; dr_summary x; dr_thumbnail x; dec (dr_price_type x); dec (dr_price x); dr_created x].
Definition seat_row (x : seat_rec) : row := [dec (sr_id x); sr_summary x; sr_qrcode x].
Definition book_row (x : book_rec) : row :=
  [dec (br_id x); dec (br_seat x); dec (br_dish x); br_jin x; br_comment x; dec (br_state x)].

#[export] Program Instance dish_records : Records dish_rec := {|
  r_name := t_db_dish; r_cols := dish_cols; r_row := dish_row; r_key x := dec (dr_id x); r_ok := dish_ok;
|}.
Next Obligation.
  intros x (_ & [N1 _] & [N2 _] & [N3 _] & N4). split; [done|]. repeat (apply Forall_cons_2; [first [apply dec_no_zero|done]|]). apply Forall_nil_2.
Qed.
Next Obligation. done. Qed.

#[export] Program Instance seat_records : Records seat_rec := {|
  r_name := t_db_seat; r_cols := seat_cols; r_row := seat_row; r_key x := dec (sr_id x); r_ok := seat_ok;
|}.
Next Obligation.
  intros x (_ & [N1 _] & [N2 _]). split; [done|]. repeat (apply Forall_cons_2; [first [apply dec_no_zero|done]|]). apply Forall_nil_2.
Qed.
Next Obligation. done. Qed.

#[export] Program Instance book_records : Records book_rec := {|
  r_name := t_db_book; r_cols := book_cols; r_row := book_row; r_key x := dec (br_id x); r_ok := book_ok;
|}.
Next Obligation.
  intros x (_ & N1 & [N2 _]). split; [done|]. repeat (apply Forall_cons_2; [first [apply dec_no_zero|done]|]). apply Forall_nil_2.
Qed.
Next Obligation. done. Qed.

(** ** Conditions on a number *)

Definition where_int (c : list Z) (z : Z) : where_clause := [[(OCol c, OLit (LitNum false (dec z)))]].
Definition where_text (c : list Z) (z : Z) : where_clause := [[(OCol c, OLit (LitStr (dec z)))]].

Lemma where_int_ok cols c z : col_aff cols c = Some AffInteger -> where_typed cols (where_int c z) = true.
Proof.
  intros H. unfold where_typed, where_int. cbn [forallb cmp_typed]. rewrite H. cbn [compared number_text]. rewrite canonical_dec.
  by rewrite bool_decide_eq_true_2.
Qed.

Lemma where_text_ok cols c z : col_aff cols c = Some AffInteger -> where_typed cols (where_text c z) = true.
Proof.
  intros H. unfold where_typed, where_text. cbn [forallb cmp_typed]. rewrite H. cbn [compared]. rewrite canonical_dec.
  by rewrite bool_decide_eq_true_2.
Qed.

Lemma dec_eq_decide y z : bool_decide (Some (dec y) = Some (dec z)) = (y =? z).
Proof.
  destruct (Z.eqb_spec y z) as [->|Hne]; [by apply bool_decide_eq_true_2|]. apply bool_decide_eq_false_2.
  intros [= E]. by apply Hne, dec_inj.
Qed.

Lemma where_int_holds cols c z r y :
  col_aff cols c = Some AffInteger -> cell cols r c = dec y -> where_holds cols (where_int c z) r = (y =? z).
Proof.
  intros H E. unfold where_holds, where_int. cbn [existsb forallb cmp_holds]. rewrite H, E. cbn [compared number_text].
  rewrite canonical_dec, dec_eq_decide. by destruct (y =? z).
Qed.

Lemma where_text_holds cols c z r y :
  col_aff cols c = Some AffInteger -> cell cols r c = dec y -> where_holds cols (where_text c z) r = (y =? z).
Proof.
  intros H E. unfold where_holds, where_text. cbn [existsb forallb cmp_holds]. rewrite H, E. cbn [compared].
  rewrite canonical_dec, dec_eq_decide. by destruct (y =? z).
Qed.

(** ** Statements *)

Lemma log2_natural z : natural z -> Z.log2 (Z.abs z) <= 30.
Proof. intros H. unfold natural in H. change 30 with (Z.log2 INT_MAX). apply Z.log2_le_mono. lia. Qed.

Definition reads (fmt : list Z) (args : list arg) (s : stmt) : Prop :=
  exists buf t, sprintf sqlbuf fmt args = Ok buf /\ cstr buf = Some t /\ parse (lex t) = Some s.

Ltac number_stmt := intros H; pose proof (log2_natural _ H); unfold reads, natural in *; sql_text lia; lia.

Lemma stmt_dish_one id : natural id -> reads sql_dish_one [AInt id] (Select t_db_dish None (where_int c_id id)).
Proof. number_stmt. Qed.
Lemma stmt_dish_count c : natural c -> reads sql_dish_count [AInt c] (Count t_db_dish (where_int c_category c)).
Proof. number_stmt. Qed.
Lemma stmt_dish_category c : natural c -> reads sql_dish_category [AInt c] (Select t_db_dish None (where_int c_category c)).
Proof. number_stmt. Qed.
Lemma stmt_dish_delete id : natural id -> reads sql_delete_dish [AInt id] (Delete t_db_dish (where_text c_id id)).
Proof. number_stmt. Qed.
Lemma stmt_seat_one id : natural id -> reads sql_seat_one [AInt id] (Select t_db_seat None (where_int c_id id)).
Proof. number_stmt. Qed.
Lemma stmt_seat_delete id : natural id -> reads sql_delete_seat [AInt id] (Delete t_db_seat (where_text c_id id)).
Proof. number_stmt. Qed.
Lemma stmt_book_count s : natural s -> reads sql_book_count [AInt s] (Count t_db_book (where_int c_seat_id s)).
Proof. number_stmt. Qed.
Lemma stmt_book_seat s : natural s -> reads sql_book_seat [AInt s] (Select t_db_book (Some (map fst book_cols)) (where_int c_seat_id s)).
Proof. number_stmt. Qed.
Lemma stmt_book_one b : natural b -> reads sql_book_one [AInt b] (Select t_db_book (Some (map fst book_cols)) (where_int c_book_id b)).
Proof. number_stmt. Qed.
Lemma stmt_book_delete b : natural b -> reads sql_delete_book [AInt b] (Delete t_db_book (where_int c_book_id b)).
Proof. number_stmt. Qed.

(** Records the statements of an INSERT can carry: no negative number, no quote. *)
Record dish_fits (d : dish) : Prop := {
  df_numbers : natural (d_id d) /\ natural (d_category d) /\ natural (d_price_type d) /\ natural (d_price d);
  df_name : plain 64 (d_name d);
  df_summary : plain 256 (d_summary d);
  df_thumbnail : plain 64 (d_thumbnail d);
}.
Record seat_fits (s : seat) : Prop := {
  sf_id : natural (s_id s);
  sf_summary : plain 256 (s_summary s);
  sf_qrcode : plain 64 (s_qrcode s);
}.
Record book_fits (b : book) : Prop := {
  bf_numbers : natural (b_seat_id b) /\ natural (b_dish_id b) /\ natural (b_accept_state b);
  bf_jin : Z.testbit (b_jin_or_plate b) 63 = false /\ is_finite (b_jin_or_plate b) = true;
  bf_comment : plain 255 (b_comment b);
}.

Definition dish_names : list (list Z) := Eval vm_compute in removelast (map fst dish_cols).
Definition book_names : list (list Z) := Eval vm_compute in tail (map fst book_cols).

Definition dish_vals (d : dish) : list literal :=
  [LitNum false (dec (d_id d)); LitNum false (dec (d_category d)); LitStr (text (d_name d)); LitStr (text (d_summary d));
   LitStr (text (d_thumbnail d)); LitNum false (dec (d_price_type d)); LitNum false (dec (d_price d))].
Definition seat_vals (s : seat) : list literal :=
  [LitNum false (dec (s_id s)); LitStr (text (s_summary s)); LitStr (text (s_qrcode s))].
Definition book_vals (b : book) : list literal :=
  [LitNum false (dec (b_seat_id b)); LitNum false (dec (b_dish_id b)); LitNum false (fix2 (b_jin_or_plate b));
   LitStr (text (b_comment b)); LitNum false (dec (b_accept_state b))].

Lemma stmt_dish_insert d :
  dish_fits d ->
  reads sql_insert_dish
    [AInt (d_id d); AInt (d_category d); AStr (d_name d); AStr (d_summary d); AStr (d_thumbnail d); AInt (d_price_type d); AInt (d_price d)]
    (Insert t_db_dish dish_names (dish_vals d)).
Proof.
  intros [(N1 & N2 & N3 & N4) (A1 & A2 & A3) (B1 & B2 & B3) (C1 & C2 & C3)].
  pose proof (log2_natural _ N1). pose proof (log2_natural _ N2). pose proof (log2_natural _ N3). pose proof (log2_natural _ N4).
  unfold reads, natural in *. sql_text ltac:(done || lia). lia.
Qed.

Lemma stmt_seat_insert s :
  seat_fits s -> reads sql_insert_seat [AInt (s_id s); AStr (s_summary s); AStr (s_qrcode s)] (Insert t_db_seat (map fst seat_cols) (seat_vals s)).
Proof.
  intros [N1 (A1 & A2 & A3) (B1 & B2 & B3)]. pose proof (log2_natural _ N1). unfold reads, natural in *. sql_text ltac:(done || lia). lia.
Qed.

Lemma stmt_book_insert b :
  book_fits b ->
  reads sql_insert_book
    [AInt (b_seat_id b); AInt (b_dish_id b); ADouble (b_jin_or_plate b); AStr (b_comment b); AInt (b_accept_state b)]
    (Insert t_db_book book_names (book_vals b)).
Proof.
  intros [(N1 & N2 & N3) [J1 J2] (A1 & A2 & A3)]. unfold is_finite in J2. apply negb_true_iff, Z.eqb_neq in J2.
  pose proof (log2_natural _ N1). pose proof (log2_natural _ N2). pose proof (log2_natural _ N3).
  unfold reads, natural in *. sql_text ltac:(done || lia). lia.
Qed.

Section spec.
Context `{S : Sqlite} {SL : SqliteLaws S}.

(** ** Dishes *)

Definition dish_rec_of (d : dish) (created : list Z) : dish_rec :=
  mk_dish_rec (d_id d) (d_category d) (text (d_name d)) (text (d_summary d)) (text (d_thumbnail d)) (d_price_type d) (d_price d) created.

Lemma key_member {X} (f : X -> Z) xs z : bool_decide (dec z ∈ map (fun x => dec (f x)) xs) = existsb (fun x => f x =? z) xs.
Proof.
  destruct (existsb _ xs) eqn:E.
  - apply existsb_exists in E as (x & Hx & <-%Z.eqb_eq). apply bool_decide_eq_true_2, list_elem_of_fmap. exists x. split; [done|by apply list_elem_of_In].
  - apply bool_decide_eq_false_2. intros (x & Ex%dec_inj & Hx)%list_elem_of_fmap. apply list_elem_of_In in Hx.
    assert (existsb (fun x => f x =? z) xs = true) by (apply existsb_exists; exists x; split; [done|by apply Z.eqb_eq]). congruence.
Qed.

Lemma plain_short k k' u : plain k u -> k <= k' -> short k' (text u).
Proof. intros (_ & _ & L) H. split; [apply text_no_zero|lia]. Qed.

Ltac cell_at H i := eapply (H i); [reflexivity|reflexivity|cbn [stored compared number_text]; rewrite ?canonical_dec; reflexivity].

Lemma new_dish_row xs d r :
  dish_fits d -> new_row sq_real (mk_table dish_cols (map dish_row xs)) dish_names (dish_vals d) r ->
  exists x, r = dish_row x /\ dish_ok x /\ exists c, x = dish_rec_of d c.
Proof.
  intros [(N1 & N2 & N3 & N4) Pn Ps Pt] (L & H & _ & Hd). cbn [t_cols] in *. cbn in L.
  assert (r !! 0%nat = Some (dec (d_id d))) by cell_at H 0%nat.
  assert (r !! 1%nat = Some (dec (d_category d))) by cell_at H 1%nat.
  assert (r !! 2%nat = Some (text (d_name d))) by cell_at H 2%nat.
  assert (r !! 3%nat = Some (text (d_summary d))) by cell_at H 3%nat.
  assert (r !! 4%nat = Some (text (d_thumbnail d))) by cell_at H 4%nat.
  assert (r !! 5%nat = Some (dec (d_price_type d))) by cell_at H 5%nat.
  assert (r !! 6%nat = Some (dec (d_price d))) by cell_at H 6%nat.
  destruct (Hd 7%nat _ _ ltac:(lia) eq_refl eq_refl) as (c & Hc & Nc).
  exists (dish_rec_of d c). split; [|split; [|by exists c]].
  - destruct r as [|r0 [|r1 [|r2 [|r3 [|r4 [|r5 [|r6 [|r7 [|r8 r]]]]]]]]]; try done. by simplify_eq/=.
  - split; [done|]. split; [by eapply plain_short|]. split; [by eapply plain_short|]. split; [by eapply plain_short|done].
Qed.

(** A dish whose id is taken is refused. *)
Lemma dish_add_spec d T xs a :
  idle d T -> holds T xs -> dish_fits a -> zlen xs < INT_MAX ->
  exists d' T' c, idle d' T' /\ others t_db_dish T T' /\
    (if existsb (fun x => dr_id x =? d_id a) xs then db_dish_add d a = Ok (0, d') /\ holds T' xs
     else db_dish_add d a = Ok (1, d') /\ holds T' (xs ++ [dish_rec_of a c])).
Proof.
  intros I H Hf Hfew. destruct (stmt_dish_insert a Hf) as (buf & t & E & Hb & Hp). unfold db_dish_add. rewrite E. cbn [mbind res_bind].
  destruct (insert_spec d T xs buf t dish_names (dish_vals a) (fun x => exists c, x = dish_rec_of a c) I H Hb Hp) as (x & d' & T' & [c ->] & I' & X);
    [|done|intros r; by apply new_dish_row|].
  { transitivity (bool_decide (is_Some (stored sq_real AffInteger (LitNum false (dec (d_id a))))) &&
      (bool_decide (is_Some (stored sq_real AffInteger (LitNum false (dec (d_category a))))) &&
      (bool_decide (is_Some (stored sq_real AffInteger (LitNum false (dec (d_price_type a))))) &&
      (bool_decide (is_Some (stored sq_real AffInteger (LitNum false (dec (d_price a))))) && true)))); [reflexivity|].
    cbn [stored compared number_text]. by rewrite !canonical_dec, bool_decide_eq_true_2. }
  exists d', T', c. split; [done|]. cbn [r_key dish_records dish_rec_of dr_id] in X.
  rewrite (key_member dr_id xs (d_id a)) in X. destruct (existsb _ xs).
  - destruct X as [X ->]. by split.
  - destruct X as (X1 & X2 & X3). by split.
Qed.

Lemma dish_where_id z x : where_holds dish_cols (where_int c_id z) (dish_row x) = (dr_id x =? z).
Proof. by apply where_int_holds. Qed.
Lemma dish_where_category z x : where_holds dish_cols (where_int c_category z) (dish_row x) = (dr_category x =? z).
Proof. by apply where_int_holds. Qed.

Lemma dish_del_spec d T xs id :
  idle d T -> holds T xs -> natural id ->
  exists d' T', db_dish_del d id = Ok (1, d') /\ idle d' T' /\ holds T' (List.filter (fun x => negb (dr_id x =? id)) xs) /\ others t_db_dish T T'.
Proof.
  intros I H Hid. destruct (stmt_dish_delete id Hid) as (buf & t & E & Hb & Hp). unfold db_dish_del. rewrite E. cbn [mbind res_bind].
  apply (delete_spec d T xs buf t _ (fun x => dr_id x =? id) I H Hb Hp); [by apply where_text_ok|]. intros x. by apply where_text_holds.
Qed.

(** Whether a dish exists. *)
Lemma dish_exists_spec d T xs id :
  idle d T -> holds T xs -> natural id ->
  exists d', db_dish_get_one d id None = Ok (if existsb (fun x => dr_id x =? id) xs then 1 else 0, None, d') /\ idle d' T.
Proof.
  intros I H Hid. destruct (stmt_dish_one id Hid) as (buf & t & E & Hb & Hp). unfold db_dish_get_one. rewrite E. cbn [mbind res_bind].
  destruct (any_row_spec d T xs buf t _ (fun x => dr_id x =? id) I H Hb Hp) as (d' & Ea & I');
    [by apply where_int_ok|apply dish_where_id|].
  exists d'. split; [|done]. unfold any_row in Ea. destruct (dbp_query d buf) as [[r d1]|]; [|done]. cbn [mbind res_bind] in *.
  destruct (dbp_query_reset d1) as [[r2 d2]|]; [|by destruct (negb (r =? dbp_query_row))]. cbn [mbind res_bind] in *.
  by destruct (r =? dbp_query_row), (existsb _ xs); simplify_eq/=.
Qed.

(** The record handed out for a row. *)
Definition dish_out (x : dish_rec) : dish :=
  mk_dish (dr_id x) (dr_category x) (dr_name x ++ 0 :: zdrop (zlen (dr_name x) + 1) (replicate 65 0))
    (dr_summary x ++ 0 :: zdrop (zlen (dr_summary x) + 1) (replicate 257 0))
    (dr_thumbnail x ++ 0 :: zdrop (zlen (dr_thumbnail x) + 1) (replicate 65 0)) (dr_price_type x) (dr_price x).

Lemma natural_i32 z : natural z -> is_i32 z.
Proof. unfold natural, is_i32, INT_MAX. lia. Qed.

Lemma read_dish_spec x : dish_ok x -> read_dish (blank_dish 0) (cells_of (dish_row x)) = Ok (dish_out x).
Proof.
  intros ((N1 & N2 & N3 & N4) & [A1 A2] & [B1 B2] & [C1 C2] & _). unfold read_dish.
  rewrite (cell_int_spec (dish_row x) 0 (dr_id x)), (cell_int_spec (dish_row x) 1 (dr_category x)) by (first [reflexivity|by apply natural_i32]).
  cbn [mbind res_bind]. cbn [blank_dish d_name d_summary d_thumbnail].
  rewrite (copy_cell_spec _ (dish_row x) 2 (dr_name x)) by (first [reflexivity|done|rewrite zlen_replicate; lia]). cbn [mbind res_bind].
  rewrite (copy_cell_spec _ (dish_row x) 3 (dr_summary x)) by (first [reflexivity|done|rewrite zlen_replicate; lia]). cbn [mbind res_bind].
  rewrite (copy_cell_spec _ (dish_row x) 4 (dr_thumbnail x)) by (first [reflexivity|done|rewrite zlen_replicate; lia]). cbn [mbind res_bind].
  rewrite (cell_int_spec (dish_row x) 5 (dr_price_type x)), (cell_int_spec (dish_row x) 6 (dr_price x)) by (first [reflexivity|by apply natural_i32]).
  done.
Qed.

(** The record a row of texts reads as. *)
Definition dish_of_row (r : row) : dish :=
  match r with
  | [i; c; n; s; t; pt; p; _] => dish_out (mk_dish_rec (int_value i) (int_value c) n s t (int_value pt) (int_value p) [])
  | _ => blank_dish 0
  end.

Lemma dish_of_row_ok x : dish_of_row (dish_row x) = dish_out x.
Proof. cbn [dish_of_row dish_row]. by rewrite !int_value_dec. Qed.

Lemma dish_get_spec d T xs c :
  idle d T -> holds T xs -> natural c ->
  let ys := List.filter (fun x => dr_category x =? c) xs in
  exists d' arr, db_dish_get_by_category d c true = Ok (zlen ys, arr, d') /\ idle d' T /\
    default [] arr ≡ₚ map dish_out ys /\ (ys <> [] -> arr <> None).
Proof.
  intros I H Hc ys. destruct (stmt_dish_count c Hc) as (b1 & t1 & E1 & Hb1 & Hp1). destruct (stmt_dish_category c Hc) as (b2 & t2 & E2 & Hb2 & Hp2).
  assert (where_typed dish_cols (where_int c_category c) = true) as Hw by by apply where_int_ok.
  destruct (get_rows_spec d T xs b1 t1 b2 t2 _ _ (fun x => dr_category x =? c) read_dish (blank_dish 0) dish_out dish_of_row
    I H Hb1 Hp1 Hb2 Hp2) as (d' & arr & E & I' & P & Hne); [|done|apply dish_where_category|apply read_dish_spec|apply dish_of_row_ok|].
  - apply (selected_all T xs _ _ H Hw). apply dish_where_category.
  - exists d', arr. split; [|done]. unfold db_dish_get_by_category. rewrite E1. cbn [mbind res_bind]. unfold get_rows in E.
    destruct (query_count d b1) as [[[n|] d1]|]; [|done|done]. cbn [mbind res_bind] in *. destruct (n =? 0); [done|]. rewrite E2. cbn [mbind res_bind].
    exact E.
Qed.

(** The rows of a category are only counted. *)
Lemma dish_count_spec d T xs c :
  idle d T -> holds T xs -> natural c ->
  exists d', db_dish_get_by_category d c false = Ok (zlen (List.filter (fun x => dr_category x =? c) xs), None, d') /\ idle d' T.
Proof.
  intros I H Hc. set (ys := List.filter (fun x => dr_category x =? c) xs).
  destruct (stmt_dish_count c Hc) as (b1 & t1 & E1 & Hb1 & Hp1). destruct (stmt_dish_category c Hc) as (b2 & t2 & E2 & Hb2 & Hp2).
  assert (where_typed dish_cols (where_int c_category c) = true) as Hw by by apply where_int_ok.
  destruct (query_count_spec d T b1 t1 _ (zlen ys) I Hb1 Hp1 (selected_count T xs _ _ H Hw (dish_where_category c))) as (d1 & Ec & I1).
  { assert (zlen ys <= INT_MAX) by apply (filter_few T xs _ H). pose proof (zlen_nonneg ys). unfold is_i32, INT_MAX in *. lia. }
  unfold db_dish_get_by_category. rewrite E1. cbn [mbind res_bind]. rewrite Ec. cbn [mbind res_bind].
  destruct (Z.eqb_spec (zlen ys) 0) as [E0|E0]; [exists d1; by rewrite E0|]. rewrite E2. cbn [mbind res_bind].
  destruct (query_reading d1 T b2 t2 _ _ (zlen dish_cols) I1 Hb2 Hp2 (selected_all T xs _ _ H Hw (dish_where_category c))) as (rs & d2 & P & -> & Rd).
  { exact (records_shape _ (filter_forall _ _ _ (ho_ok _ _ H))). }
  fold ys in P. cbn [mbind res_bind]. assert (length rs = length ys) as L by (rewrite P; apply length_map).
  destruct rs as [|r rs]; [cbn in L; unfold zlen in E0; lia|]. change (1 =? dbp_query_row) with true. cbn [negb].
  destruct (reset_idle _ _ _ _ _ Rd) as (d3 & -> & I3). by exists d3.
Qed.

(** ** Seats *)

Definition seat_rec_of (s : seat) : seat_rec := mk_seat_rec (s_id s) (text (s_summary s)) (text (s_qrcode s)).

Lemma new_seat_row xs a r :
  seat_fits a -> new_row sq_real (mk_table seat_cols (map seat_row xs)) (map fst seat_cols) (seat_vals a) r ->
  exists x, r = seat_row x /\ seat_ok x /\ x = seat_rec_of a.
Proof.
  intros [N1 Ps Pq] (L & H & _). cbn [t_cols] in *. cbn in L.
  assert (r !! 0%nat = Some (dec (s_id a))) by cell_at H 0%nat.
  assert (r !! 1%nat = Some (text (s_summary a))) by cell_at H 1%nat.
  assert (r !! 2%nat = Some (text (s_qrcode a))) by cell_at H 2%nat.
  exists (seat_rec_of a). split; [|split; [|done]].
  - destruct r as [|r0 [|r1 [|r2 [|r3 r]]]]; try done. by simplify_eq/=.
  - split; [done|]. split; by eapply plain_short.
Qed.

Lemma seat_add_spec d T xs a :
  idle d T -> holds T xs -> seat_fits a -> zlen xs < INT_MAX ->
  exists d' T', idle d' T' /\ others t_db_seat T T' /\
    (if existsb (fun x => sr_id x =? s_id a) xs then db_seat_add d a = Ok (0, d') /\ holds T' xs
     else db_seat_add d a = Ok (1, d') /\ holds T' (xs ++ [seat_rec_of a])).
Proof.
  intros I H Hf Hfew. destruct (stmt_seat_insert a Hf) as (buf & t & E & Hb & Hp). unfold db_seat_add. rewrite E. cbn [mbind res_bind].
  destruct (insert_spec d T xs buf t (map fst seat_cols) (seat_vals a) (fun x => x = seat_rec_of a) I H Hb Hp) as (x & d' & T' & -> & I' & X);
    [|done|intros r; by apply new_seat_row|].
  { transitivity (bool_decide (is_Some (stored sq_real AffInteger (LitNum false (dec (s_id a))))) && true); [reflexivity|].
    cbn [stored compared number_text]. by rewrite canonical_dec, bool_decide_eq_true_2. }
  exists d', T'. split; [done|]. cbn [r_key seat_records seat_rec_of sr_id] in X.
  rewrite (key_member sr_id xs (s_id a)) in X. destruct (existsb _ xs); [destruct X as [X ->]|destruct X as (X1 & X2 & X3)]; by split.
Qed.

Lemma seat_del_spec d T xs id :
  idle d T -> holds T xs -> natural id ->
  exists d' T', db_seat_del d id = Ok (1, d') /\ idle d' T' /\ holds T' (List.filter (fun x => negb (sr_id x =? id)) xs) /\ others t_db_seat T T'.
Proof.
  intros I H Hid. destruct (stmt_seat_delete id Hid) as (buf & t & E & Hb & Hp). unfold db_seat_del. rewrite E. cbn [mbind res_bind].
  apply (delete_spec d T xs buf t _ (fun x => sr_id x =? id) I H Hb Hp); [by apply where_text_ok|]. intros x. by apply where_text_holds.
Qed.

Lemma seat_where_id z x : where_holds seat_cols (where_int c_id z) (seat_row x) = (sr_id x =? z).
Proof. by apply where_int_holds. Qed.

Lemma seat_exists_spec d T xs id :
  idle d T -> holds T xs -> natural id ->
  exists d', db_seat_get_one d id None = Ok (if existsb (fun x => sr_id x =? id) xs then 1 else 0, None, d') /\ idle d' T.
Proof.
  intros I H Hid. destruct (stmt_seat_one id Hid) as (buf & t & E & Hb & Hp). unfold db_seat_get_one. rewrite E. cbn [mbind res_bind].
  destruct (any_row_spec d T xs buf t _ (fun x => sr_id x =? id) I H Hb Hp) as (d' & Ea & I');
    [by apply where_int_ok|apply seat_where_id|].
  exists d'. split; [|done]. unfold any_row in Ea. destruct (dbp_query d buf) as [[r d1]|]; [|done]. cbn [mbind res_bind] in *.
  destruct (dbp_query_reset d1) as [[r2 d2]|]; [|by destruct (negb (r =? dbp_query_row))]. cbn [mbind res_bind] in *.
  by destruct (r =? dbp_query_row), (existsb _ xs); simplify_eq/=.
Qed.

Definition seat_out (x : seat_rec) : seat :=
  mk_seat (sr_id x) (sr_summary x ++ 0 :: zdrop (zlen (sr_summary x) + 1) (replicate 257 170))
    (sr_qrcode x ++ 0 :: zdrop (zlen (sr_qrcode x) + 1) (replicate 65 170)).

Lemma read_seat_spec x : seat_ok x -> read_seat (blank_seat 170) (cells_of (seat_row x)) = Ok (seat_out x).
Proof.
  intros (N1 & [A1 A2] & [B1 B2]). unfold read_seat.
  rewrite (cell_int_spec (seat_row x) 0 (sr_id x)) by (first [reflexivity|by apply natural_i32]). cbn [mbind res_bind].
  cbn [blank_seat s_summary s_qrcode].
  rewrite (copy_cell_spec _ (seat_row x) 1 (sr_summary x)) by (first [reflexivity|done|rewrite zlen_replicate; lia]). cbn [mbind res_bind].
  rewrite (copy_cell_spec _ (seat_row x) 2 (sr_qrcode x)) by (first [reflexivity|done|rewrite zlen_replicate; lia]). done.
Qed.

Definition seat_of_row (r : row) : seat :=
  match r with [i; s; q] => seat_out (mk_seat_rec (int_value i) s q) | _ => blank_seat 170 end.

Lemma seat_of_row_ok x : seat_of_row (seat_row x) = seat_out x.
Proof. cbn [seat_of_row seat_row]. rewrite int_value_dec. by destruct x. Qed.

Lemma filter_all {X} (l : list X) : List.filter (fun _ => true) l = l.
Proof. induction l as [|x l IH]; [done|]. cbn [List.filter]. by rewrite IH. Qed.

Lemma seat_get_spec d T xs :
  idle d T -> holds T xs ->
  exists d' arr, db_seat_get d = Ok (zlen xs, arr, d') /\ idle d' T /\ default [] arr ≡ₚ map seat_out xs /\ (xs <> [] -> arr <> None).
Proof.
  intros I H. pose proof (filter_all xs) as Ea.
  assert (selected T (Select t_db_seat None [[]]) = Some (map seat_row (List.filter (fun _ : seat_rec => true) xs))) as Hs
    by by apply (selected_all T xs [[]] (fun _ => true) H).
  destruct (get_rows_spec d T xs (sql_seat_count ++ [0]) sql_seat_count (sql_seat_all ++ [0]) sql_seat_all _ [[]] (fun _ => true) read_seat (blank_seat 170)
    seat_out seat_of_row I H eq_refl eq_refl eq_refl eq_refl Hs eq_refl (fun _ => eq_refl) read_seat_spec seat_of_row_ok) as (d' & arr & E & R).
  rewrite Ea in E, R. by exists d', arr.
Qed.

(** ** Bookings *)

Definition book_rec_of (id : Z) (b : book) : book_rec :=
  mk_book_rec id (b_seat_id b) (b_dish_id b) (sq_real (fix2 (b_jin_or_plate b))) (text (b_comment b)) (b_accept_state b).

(** The number of the next booking. *)
Definition next_book (xs : list book_rec) : Z := 1 + foldr Z.max 0 (map br_id xs).

Lemma book_keys xs : key_numbers (mk_table book_cols (map book_row xs)) = map br_id xs.
Proof. unfold key_numbers. cbn [t_rows]. rewrite map_map. apply map_ext. intros x. apply int_value_dec. Qed.

Lemma next_book_new xs : 0 < next_book xs /\ existsb (fun x => br_id x =? next_book xs) xs = false.
Proof.
  unfold next_book. assert (forall l, 0 <= foldr Z.max 0 l /\ Forall (fun n => n <= foldr Z.max 0 l) l) as M.
  { induction l as [|n l [IH1 IH2]]; cbn [foldr]; [by split|]. split; [lia|]. constructor; [lia|]. eapply Forall_impl; [exact IH2|]. cbn. lia. }
  destruct (M (map br_id xs)) as [M1 M2]. split; [lia|]. rewrite Forall_map in M2. apply not_true_iff_false. intros (x & Hx & E%Z.eqb_eq)%existsb_exists.
  rewrite List.Forall_forall in M2. specialize (M2 x Hx). unfold compose in M2. lia.
Qed.

Lemma new_book_row xs a r :
  book_fits a -> Forall book_ok xs -> next_book xs <= INT_MAX ->
  new_row sq_real (mk_table book_cols (map book_row xs)) book_names (book_vals a) r ->
  exists x, r = book_row x /\ book_ok x /\ x = book_rec_of (next_book xs) a.
Proof.
  intros [(N1 & N2 & N3) _ Pc] Hok Hn (L & H & Hk & _). cbn [t_cols] in *. cbn in L. unfold next_key in Hk. rewrite book_keys in Hk.
  assert (r !! 0%nat = Some (dec (next_book xs))).
  { eapply Hk; [reflexivity|reflexivity|]. apply Forall_map. eapply Forall_impl; [exact Hok|]. intros x [(Hx & _) _]. exact Hx. }
  assert (r !! 1%nat = Some (dec (b_seat_id a))) by cell_at H 1%nat.
  assert (r !! 2%nat = Some (dec (b_dish_id a))) by cell_at H 2%nat.
  assert (r !! 3%nat = Some (sq_real (fix2 (b_jin_or_plate a)))) by cell_at H 3%nat.
  assert (r !! 4%nat = Some (text (b_comment a))) by cell_at H 4%nat.
  assert (r !! 5%nat = Some (dec (b_accept_state a))) by cell_at H 5%nat.
  exists (book_rec_of (next_book xs) a). split; [|split; [|done]].
  - destruct r as [|r0 [|r1 [|r2 [|r3 [|r4 [|r5 [|r6 r]]]]]]]; try done. by simplify_eq/=.
  - destruct (next_book_new xs) as [P _]. split; [split; [cbn [br_id book_rec_of]; unfold natural; lia|done]|].
    split; [apply law_real, fix2_no_zero|]. by eapply plain_short.
Qed.

(** A booking is always accepted: its number is new. *)
Lemma book_add_spec d T xs a :
  idle d T -> holds T xs -> book_fits a -> zlen xs < INT_MAX -> next_book xs <= INT_MAX ->
  exists d' T', db_book_add d a = Ok (1, d') /\ idle d' T' /\ holds T' (xs ++ [book_rec_of (next_book xs) a]) /\ others t_db_book T T'.
Proof.
  intros I H Ha Hfew Hn. destruct (stmt_book_insert a Ha) as (buf & t & E & Hb & Hp). unfold db_book_add. rewrite E. cbn [mbind res_bind].
  destruct (insert_spec d T xs buf t book_names (book_vals a) (fun x => x = book_rec_of (next_book xs) a) I H Hb Hp) as (x & d' & T' & -> & I' & X);
    [|done|intros r; by apply new_book_row; try done; apply H|].
  { transitivity (bool_decide (is_Some (stored sq_real AffInteger (LitNum false (dec (b_seat_id a))))) &&
      (bool_decide (is_Some (stored sq_real AffInteger (LitNum false (dec (b_dish_id a))))) &&
      (bool_decide (is_Some (stored sq_real AffInteger (LitNum false (dec (b_accept_state a))))) && true))); [reflexivity|].
    cbn [stored compared number_text]. by rewrite !canonical_dec, bool_decide_eq_true_2. }
  exists d', T'. cbn [r_key book_records book_rec_of br_id] in X. rewrite (key_member br_id xs (next_book xs)) in X.
  destruct (next_book_new xs) as [_ En]. rewrite En in X. cbn iota in X. by destruct X as (X1 & X2 & X3).
Qed.

Lemma book_where_id z x : where_holds book_cols (where_int c_book_id z) (book_row x) = (br_id x =? z).
Proof. by apply where_int_holds. Qed.
Lemma book_where_seat z x : where_holds book_cols (where_int c_seat_id z) (book_row x) = (br_seat x =? z).
Proof. by apply where_int_holds. Qed.

Lemma book_del_spec d T xs id :
  idle d T -> holds T xs -> natural id ->
  exists d' T', db_book_del d id = Ok (1, d') /\ idle d' T' /\ holds T' (List.filter (fun x => negb (br_id x =? id)) xs) /\ others t_db_book T T'.
Proof.
  intros I H Hid. destruct (stmt_book_delete id Hid) as (buf & t & E & Hb & Hp). unfold db_book_del. rewrite E. cbn [mbind res_bind].
  apply (delete_spec d T xs buf t _ (fun x => br_id x =? id) I H Hb Hp); [by apply where_int_ok|apply book_where_id].
Qed.

(** ** What cannot work *)

Lemma free_twice_faults d T n o rs a cells :
  reading d T n o rs -> row_cells d (Some a) = Ok cells -> free_twice d (Some a) = Fault DoubleFree.
Proof.
  intros R H. pose proof (free_reading d T n o rs a cells R H) as (d' & E & R'). unfold free_twice, free_once. rewrite E. cbn [mbind res_bind].
  revert E. unfold dbp_fetch_row_free. rewrite (r_type _ _ _ _ _ R), (r_type _ _ _ _ _ R'). cbn [pfn_dbp_fetch_row_free sqlite_provider dbp_fetch_row_free_sqlite].
  cbn [row_cells] in H. pose proof (proj1 (h_load_ok _ _ _) H) as L. rewrite (h_free_ok _ _ _ L). cbn [mbind res_bind]. intros [= <-].
  cbn [real_handle set_rows h_rows]. unfold h_free. by rewrite list_lookup_insert_eq by (by eapply lookup_lt_Some).
Qed.

Lemma book_cells x : map (cell book_cols (book_row x)) (map fst book_cols) = book_row x.
Proof. by destruct x. Qed.

Lemma book_selected T xs z : holds T xs -> natural z ->
  selected T (Select t_db_book (Some (map fst book_cols)) (where_int c_seat_id z)) = Some (map book_row (List.filter (fun x => br_seat x =? z) xs)).
Proof.
  intros H Hz. apply (selected_proj T xs _ _ (map fst book_cols) H); [by apply where_int_ok|apply book_where_seat|done|apply book_cells].
Qed.

(** The quantity of every booking is read back as some double. *)
Lemma read_book_some x : book_ok x -> exists b, read_book (blank_book 0) (cells_of (book_row x)) = Ok b.
Proof.
  intros ((N1 & N2 & N3 & N4) & J & [C1 C2]). unfold read_book.
  rewrite (cell_int_spec (book_row x) 0 (br_id x)), (cell_int_spec (book_row x) 1 (br_seat x)), (cell_int_spec (book_row x) 2 (br_dish x))
    by (first [reflexivity|by apply natural_i32]). cbn [mbind res_bind blank_book b_comment].
  assert (exists j, cell_double (cells_of (book_row x)) 3 = Ok j) as [j ->].
  { unfold cell_double, cell_at. rewrite (cells_lookup (book_row x) 3 (br_jin x) eq_refl). cbn [mbind res_bind cell_data c_data].
    unfold atof. rewrite (cstr_app _ []) by done. by eexists. }
  cbn [mbind res_bind]. rewrite (copy_cell_spec _ (book_row x) 4 (br_comment x)) by (first [reflexivity|done|rewrite zlen_replicate; lia]).
  cbn [mbind res_bind]. unfold cell_double, cell_at. rewrite (cells_lookup (book_row x) 5 (dec (br_state x)) eq_refl).
  cbn [mbind res_bind cell_data c_data]. pose proof (atof_int (br_state x) [] N4) as E. change (dec (br_state x) ++ 0 :: []) with (dec (br_state x) ++ [0]) in E.
  destruct (atof (dec (br_state x) ++ [0])) as [v|]; [|done]. cbn [mbind res_bind] in *. rewrite E. by eexists.
Qed.

(** A seat without bookings has none; the first row of a seat that has some is freed twice. *)
Lemma book_get_spec d T xs z :
  idle d T -> holds T xs -> natural z ->
  if existsb (fun x => br_seat x =? z) xs then db_book_get d z = Fault DoubleFree
  else exists d', db_book_get d z = Ok (0, None, d') /\ idle d' T.
Proof.
  intros I H Hz. set (ys := List.filter (fun x => br_seat x =? z) xs).
  destruct (stmt_book_count z Hz) as (b1 & t1 & E1 & Hb1 & Hp1). destruct (stmt_book_seat z Hz) as (b2 & t2 & E2 & Hb2 & Hp2).
  assert (where_typed book_cols (where_int c_seat_id z) = true) as Hw by by apply where_int_ok.
  destruct (query_count_spec d T b1 t1 _ (zlen ys) I Hb1 Hp1 (selected_count T xs _ _ H Hw (book_where_seat z))) as (d1 & Ec & I1).
  { assert (zlen ys <= INT_MAX) by apply (filter_few T xs _ H). pose proof (zlen_nonneg ys). unfold is_i32, INT_MAX in *. lia. }
  unfold db_book_get, get_rows. rewrite E1, E2. cbn [mbind res_bind]. rewrite Ec. cbn [mbind res_bind].
  destruct (existsb (fun x => br_seat x =? z) xs) eqn:Ex.
  2: { assert (ys = []) as ->; [|by exists d1]. unfold ys. destruct (List.filter _ xs) as [|y l] eqn:El; [done|].
       assert (In y (List.filter (fun x => br_seat x =? z) xs)) as [Hy Qy]%List.filter_In by (rewrite El; by left).
       assert (existsb (fun x => br_seat x =? z) xs = true) by (apply existsb_exists; by exists y). congruence. }
  apply existsb_exists in Ex as (y & Hy & Qy). assert (In y ys) as Iy by by apply List.filter_In.
  destruct (Z.eqb_spec (zlen ys) 0) as [E0|E0]; [destruct ys; [done|]; rewrite zlen_cons in E0; pose proof (zlen_nonneg ys); lia|].
  assert (Forall book_ok ys) as Hok by exact (filter_forall _ _ _ (ho_ok _ _ H)).
  destruct (query_reading d1 T b2 t2 _ _ (zlen book_cols) I1 Hb2 Hp2 (book_selected T xs z H Hz)) as (rs & d2 & P & -> & Rd).
  { exact (records_shape _ Hok). }
  fold ys in P. cbn [mbind res_bind]. destruct rs as [|r rs]; [apply Permutation_nil_l in P; by destruct ys|].
  change (1 =? dbp_query_row) with true. cbn [negb]. rewrite (num_fields_reading _ _ _ _ _ Rd). change (zlen book_cols =? 6) with true. cbn [negb].
  assert (exists x, In x ys /\ r = book_row x) as (x & Hx & ->).
  { assert (r ∈ map book_row ys) as (x & -> & Hx)%list_elem_of_fmap by (rewrite <- P; apply list_elem_of_here). exists x. split; [by apply list_elem_of_In|done]. }
  unfold fetch_into. cbn [fetch_loop]. destruct (fetch_reading _ _ _ _ _ Rd) as (a & d3 & -> & Ef & R3). cbn [mbind res_bind]. change (1 =? 0) with false. cbn iota.
  destruct (Z.to_nat (zlen ys)) as [|n] eqn:En; [unfold zlen in *; lia|]. cbn [replicate lookup list_lookup].
  rewrite Ef. cbn [mbind res_bind]. rewrite List.Forall_forall in Hok. destruct (read_book_some x (Hok x Hx)) as [b ->]. cbn [mbind res_bind].
  by rewrite (free_twice_faults _ _ _ _ _ _ _ R3 Ef).
Qed.

(** The tables are made once. *)
Lemma dish_init_spec d T : idle d T -> exists d' T', db_dish_init d = Ok (1, d') /\ idle d' T' /\
  others t_db_dish T T' /\ match T !! t_db_dish with None => holds T' ([] : list dish_rec) | Some _ => T' = T end.
Proof. intros I. exact (init_spec (R := dish_records) d T (sql_create_dish ++ [0]) sql_create_dish I eq_refl eq_refl). Qed.

Lemma seat_init_spec d T : idle d T -> exists d' T', db_seat_init d = Ok (1, d') /\ idle d' T' /\
  others t_db_seat T T' /\ match T !! t_db_seat with None => holds T' ([] : list seat_rec) | Some _ => T' = T end.
Proof. intros I. exact (init_spec (R := seat_records) d T (sql_create_seat ++ [0]) sql_create_seat I eq_refl eq_refl). Qed.

Lemma book_init_spec d T : idle d T -> exists d' T', db_book_init d = Ok (1, d') /\ idle d' T' /\
  others t_db_book T T' /\ match T !! t_db_book with None => holds T' ([] : list book_rec) | Some _ => T' = T end.
Proof. intros I. exact (init_spec (R := book_records) d T (sql_create_book ++ [0]) sql_create_book I eq_refl eq_refl). Qed.

(** SQLite has no TRUNCATE: the reset of a table reports failure and changes nothing. *)
Lemma exec_truncate d T s ts :
  idle d T -> no_zero s -> lex s = TWord (lit "truncate") :: ts -> exists d', dbp_exec d (s ++ [0]) = Ok (0, d') /\ idle d' T.
Proof.
  intros [I1 I2 I3 I4] Hs Hl. destruct (law_no_truncate (h_sql (real_handle d)) s ts Hl) as (e & E & He).
  unfold dbp_exec. rewrite I1. cbn [pfn_dbp_exec sqlite_provider]. unfold db_exec_sqlite, plock. rewrite I2.
  cbn [mbind res_bind]. unfold c_text. rewrite (cstr_app s []) by done. cbn [mbind res_bind set_plock h_sql]. rewrite E. cbn [mbind res_bind].
  unfold punlock. cbn [h_lock set_plock mbind res_bind]. unfold SQLITE_OK. destruct (Z.eqb_spec e 0); [done|].
  eexists. split; [reflexivity|]. by split.
Qed.

(** An UPDATE of a column the table does not have. *)
Lemma exec_no_column d T buf t n c v w tb :
  idle d T -> cstr buf = Some t -> parse (lex t) = Some (Update n c v w) -> T !! n = Some tb -> col_aff (t_cols tb) c = None ->
  exists d', dbp_exec d buf = Ok (0, d') /\ idle d' T.
Proof.
  intros [I1 I2 I3 I4] Hb Hp Ht Hc. rewrite <- I3 in Ht. destruct (law_no_column _ _ _ _ _ _ _ Hp Ht Hc) as (e & E & He).
  unfold dbp_exec. rewrite I1. cbn [pfn_dbp_exec sqlite_provider]. unfold db_exec_sqlite, plock. rewrite I2.
  cbn [mbind res_bind]. unfold c_text. rewrite Hb. cbn [mbind res_bind set_plock h_sql]. rewrite E. cbn [mbind res_bind].
  unfold punlock. cbn [h_lock set_plock mbind res_bind]. unfold SQLITE_OK. destruct (Z.eqb_spec e 0); [done|].
  eexists. split; [reflexivity|]. by split.
Qed.

(** ** Operations that cannot work *)

Definition by_order (seat_id dish_id : Z) : where_clause :=
  [[(OCol c_seat_id, OLit (LitNum false (dec seat_id))); (OCol c_dish_id, OLit (LitNum false (dec dish_id)))]].

Lemma stmt_update_order fmt c n s i :
  (fmt = sql_update_numbers /\ c = c_book_numbers) \/ (fmt = sql_update_accept /\ c = c_accept_numbers) ->
  natural n -> natural s -> natural i -> reads fmt [AInt n; AInt s; AInt i] (Update t_db_book c (LitNum false (dec n)) (by_order s i)).
Proof.
  intros Hf Hn Hs Hi. pose proof (log2_natural _ Hn). pose proof (log2_natural _ Hs). pose proof (log2_natural _ Hi). unfold reads, natural in *.
  destruct Hf as [[-> ->]|[-> ->]]; sql_text lia; lia.
Qed.

Lemma update_order_fails fmt c d T B n s i :
  (fmt = sql_update_numbers /\ c = c_book_numbers) \/ (fmt = sql_update_accept /\ c = c_accept_numbers) ->
  idle d T -> holds T (B : list book_rec) -> natural n -> natural s -> natural i ->
  exists d', (buf ← sprintf sqlbuf fmt [AInt n; AInt s; AInt i]; dbp_exec d buf) = Ok (0, d') /\ idle d' T.
Proof.
  intros Hf I H Hn Hs Hi. destruct (stmt_update_order fmt c n s i Hf Hn Hs Hi) as (buf & t & -> & Hb & Hp). cbn [mbind res_bind].
  refine (exec_no_column d T buf t _ _ _ _ _ I Hb Hp (ho_table _ _ H) _). by destruct Hf as [[_ ->]|[_ ->]].
Qed.

(** A query for one record whose row is there. *)
Lemma one_row {X} `{R : Records X} d T (xs : list X) buf t w q x :
  idle d T -> holds T xs -> cstr buf = Some t -> parse (lex t) = Some (Select r_name None w) ->
  where_typed r_cols w = true -> (forall x, where_holds r_cols w (r_row x) = q x) -> In x xs -> q x = true ->
  exists y rs d1, In y xs /\ dbp_query d buf = Ok (1, d1) /\ reading d1 T (zlen r_cols) (Some (r_row y)) rs.
Proof.
  intros I H Hb Hp Hw Hq Hx Qx.
  destruct (query_reading d T buf t _ _ (zlen r_cols) I Hb Hp (selected_all T xs w q H Hw Hq)) as (rs & d1 & P & E & Rd).
  { apply records_shape, filter_forall, H. }
  destruct rs as [|r rs].
  { apply Permutation_nil_l in P. assert (In x (List.filter q xs)) as Hin by by apply List.filter_In. by destruct (List.filter q xs). }
  assert (r ∈ map r_row (List.filter q xs)) as (y & -> & Hy)%list_elem_of_fmap by (rewrite <- P; apply list_elem_of_here).
  apply list_elem_of_In, List.filter_In in Hy as [Hy _]. by exists y, rs, d1.
Qed.

Lemma dish_get_one_fails d T D x a :
  idle d T -> holds T D -> In x D -> exists d', db_dish_get_one d (dr_id x) (Some a) = Ok (0, Some a, d') /\ idle d' T.
Proof.
  intros I H Hx. pose proof (ho_ok _ _ H) as Hok. rewrite List.Forall_forall in Hok. destruct (Hok x Hx) as ((Nx & _) & _).
  destruct (stmt_dish_one (dr_id x) Nx) as (buf & t & E & Hb & Hp).
  destruct (one_row d T D buf t _ (fun y => dr_id y =? dr_id x) x I H Hb Hp) as (y & rs & d1 & _ & Eq & Rd);
    [by apply where_int_ok|apply dish_where_id|done|apply Z.eqb_refl|].
  unfold db_dish_get_one. rewrite E. cbn [mbind res_bind]. rewrite Eq. cbn [mbind res_bind]. change (1 =? dbp_query_row) with true. cbn [negb].
  rewrite (num_fields_reading _ _ _ _ _ Rd). change (zlen r_cols =? 1) with false. cbn [negb].
  destruct (reset_idle _ _ _ _ _ Rd) as (d2 & -> & I2). by exists d2.
Qed.

Lemma seat_get_one_faults d T Q x a :
  idle d T -> holds T Q -> In x Q -> zlen (s_summary a) = 257 -> db_seat_get_one d (sr_id x) (Some a) = Fault OutOfBounds.
Proof.
  intros I H Hx Ha. pose proof (ho_ok _ _ H) as Hok. rewrite List.Forall_forall in Hok. destruct (Hok x Hx) as (Nx & _).
  destruct (stmt_seat_one (sr_id x) Nx) as (buf & t & E & Hb & Hp).
  destruct (one_row d T Q buf t _ (fun y => sr_id y =? sr_id x) x I H Hb Hp) as (y & rs & d1 & Hy & Eq & Rd);
    [by apply where_int_ok|apply seat_where_id|done|apply Z.eqb_refl|]. destruct (Hok y Hy) as (Ny & [Y1 Y2] & _).
  unfold db_seat_get_one. rewrite E. cbn [mbind res_bind]. rewrite Eq. cbn [mbind res_bind]. change (1 =? dbp_query_row) with true. cbn [negb].
  rewrite (num_fields_reading _ _ _ _ _ Rd). change (zlen r_cols =? 3) with true. cbn [negb].
  destruct (fetch_reading _ _ _ _ _ Rd) as (adr & d2 & -> & Ec & _). cbn [mbind res_bind]. change (1 =? 0) with false. cbn iota.
  rewrite Ec. cbn [mbind res_bind]. unfold read_seat_one. rewrite (cell_int_spec _ 0 (sr_id y)) by (try done; by apply natural_i32).
  cbn [mbind res_bind]. unfold cell_at. rewrite (cells_lookup _ 1 (sr_summary y)) by done. cbn [mbind res_bind cell_data c_data c_length].
  unfold strncpy. replace (Z.to_nat (zlen (sr_summary y))) with (length (sr_summary y)) by (unfold zlen; lia).
  rewrite strncpy_cells_text by done. cbn [mbind res_bind]. rewrite memcpy_ok by (pose proof (zlen_nonneg (sr_summary y)); lia). done.
Qed.

(** Operations of the tables that cannot work. The four resets send a [TRUNCATE], which SQLite
    does not have, and the two changes of a booking name columns its table does not have: all six
    answer 0 and change nothing. Reading a dish that exists into a record answers 0, because one
    column is expected of eight; reading a seat that exists into a record reads a fourth column of
    three. *)
Theorem tables_dead_operations d T D Q B x y a b n s i :
  idle d T -> holds T D -> holds T Q -> holds T (B : list book_rec) -> In x D -> In y Q -> zlen (s_summary b) = 257 ->
  natural n -> natural s -> natural i ->
  Forall (fun r => exists d', r = Ok (0, d') /\ idle d' T)
    [db_account_reset d; db_dish_reset d; db_seat_reset d; db_book_reset d; db_book_modify_book d s i n; db_book_modify_accept d s i n] /\
  (exists d', db_dish_get_one d (dr_id x) (Some a) = Ok (0, Some a, d') /\ idle d' T) /\
  db_seat_get_one d (sr_id y) (Some b) = Fault OutOfBounds.
Proof.
  intros I HD HQ HB Hx Hy Hb Hn Hs Hi. split; [|split; [by eapply dish_get_one_fails|by eapply seat_get_one_faults]].
  repeat apply Forall_cons_2; [by eapply exec_truncate; [|by decide_now|reflexivity]..| | |constructor].
  - by apply (update_order_fails sql_update_numbers c_book_numbers d T B); [left|..].
  - by apply (update_order_fails sql_update_accept c_accept_numbers d T B); [right|..].
Qed.

End spec.
End MenuSpec.
