(* ===== verification/Guid.v ===== *)
(** * Guid: tokens (utils/guid.c)

    [uuid_generate] fills the sixteen bytes of the structure; they are the argument here. The text
    is that of the Windows registry: the first three members are numbers of the host. *)
From S2P Require Import Prelude Cstr Sha Words.
Import Cstr Pwd Words.

Module Guid.

(** [%0kX] of a number below [16 ^ k]. *)
Fixpoint hex (k : nat) (v : Z) : list Z :=
  match k with
  | O => []
  | S k => hex k (v / 16) ++ [hex_digit (v mod 16)]
  end.

Definition guid_text (uuid : list Z) : list Z :=
  let Data1 := le_load (take 4 uuid) in
  let Data2 := le_load (take 2 (drop 4 uuid)) in
  let Data3 := le_load (take 2 (drop 6 uuid)) in
  let Data4 := drop 8 uuid in
  [123] ++ hex 8 Data1 ++ [45] ++ hex 4 Data2 ++ [45] ++ hex 4 Data3 ++ [45] ++
  flat_map (hex 2) (take 2 Data4) ++ [45] ++ flat_map (hex 2) (take 6 (drop 2 Data4)) ++ [125].

(** sprintf into the caller's array. *)
Definition guid_generate (guid uuid : list Z) : res (list Z) :=
  let t := guid_text uuid in memcpy guid 0 (t ++ [0]) (zlen t + 1).

(** ** The text has 38 characters and fills an array of 39 *)

Lemma hex_len k v : length (hex k v) = k.
Proof. revert v. induction k as [|k IH]; intros v; [done|]. cbn [hex]. rewrite length_app, IH. cbn. lia. Qed.

Definition token_char (c : Z) : Prop := 45 <= c <= 125 /\ c <> 39.

Lemma hex_digit_char v : token_char (hex_digit (v mod 16)).
Proof.
  pose proof (Z.mod_pos_bound v 16 ltac:(lia)). unfold token_char, hex_digit. case_zbool; lia.
Qed.

Lemma hex_chars k v : Forall token_char (hex k v).
Proof.
  revert v. induction k as [|k IH]; intros v; [constructor|]. cbn [hex]. apply Forall_app. split; [apply IH|].
  repeat constructor; apply hex_digit_char.
Qed.

Lemma flat_hex_len l : length (flat_map (hex 2) l) = (2 * length l)%nat.
Proof. induction l as [|x l IH]; [done|]. cbn [flat_map length]. rewrite length_app, hex_len, IH. lia. Qed.

Lemma flat_hex_chars l : Forall token_char (flat_map (hex 2) l).
Proof. induction l as [|x l IH]; [constructor|]. cbn [flat_map]. apply Forall_app. split; [apply hex_chars|done]. Qed.

Lemma guid_len uuid : length uuid = 16%nat -> zlen (guid_text uuid) = 38.
Proof.
  intros H. unfold guid_text, zlen. rewrite !length_app, !hex_len, !flat_hex_len, !length_take, !length_drop, H. reflexivity.
Qed.

Lemma guid_chars uuid : Forall token_char (guid_text uuid).
Proof.
  assert (Forall token_char [123] /\ Forall token_char [45] /\ Forall token_char [125]) as (H1 & H2 & H3)
    by (unfold token_char; repeat split; repeat constructor; lia).
  unfold guid_text. rewrite !Forall_app. auto 20 using hex_chars, flat_hex_chars.
Qed.

Lemma guid_generate_ok guid uuid :
  length uuid = 16%nat -> zlen guid = 39 -> guid_generate guid uuid = Ok (guid_text uuid ++ [0]).
Proof.
  intros Hu Hg. unfold guid_generate. pose proof (guid_len uuid Hu) as L.
  rewrite memcpy_ok by (rewrite ?zlen_app; change (zlen [0]) with 1; lia). f_equal.
  rewrite (ztake_all (zlen (guid_text uuid) + 1)) by (rewrite zlen_app; change (zlen [0]) with 1; lia).
  unfold splice. rewrite ztake_0 by lia. rewrite zlen_app. change (zlen [0]) with 1.
  rewrite (zdrop_all (0 + (zlen (guid_text uuid) + 1))) by lia. by rewrite app_nil_r.
Qed.

End Guid.
