(* ===== verification/ResAccount.v ===== *)
(** * ResAccount: the account handlers (server/res_account.c)

    A handler gets the connection and the request's packet, or NULL, and answers with a packet. It
    reads the request into local arrays, looks at the table of sessions and at the account table,
    and appends its answer to a fresh packet. Its world is the session table, the database and the
    allocator; what it takes from outside is in [env]: the time, sixteen random bytes, and what the
    locals that are never initialised hold. *)
From Stdlib Require Import String.
From S2P Require Import Prelude Alloc Cstr Bson Packet PackLoop Session Sha Fmt Sql Dbp Accounts Guid.
From stdpp Require Import gmap.
Import Alloc Cstr Bson Packet PackLoop Session Pwd Fmt Sql Dbp Accounts Guid.
Open Scope Z_scope.

Module ResAccount.

(** account_result *)
Definition account_r_ok : Z := 0.
Definition account_r_login_ok_conlict_another_address : Z := 2.
Definition account_r_login_user_not_exist : Z := 3.
Definition account_r_login_invalid_user_or_pwd : Z := 4.
Definition account_r_create_uid_exist : Z := 5.
Definition account_r_old_pwd_incorrect : Z := 6.
Definition account_r_modify_pwd_same : Z := 7.
Definition account_r_cannot_delete_last_admin : Z := 8.
Definition account_r_no_permission : Z := 9.
Definition account_r_session_expired : Z := 10.
Definition account_r_illegal_parameter : Z := 11.
Definition account_r_service_unavailable : Z := 12.
Definition dish_r_ok : Z := 0.
Definition dish_r_no_permission : Z := 5.

Definition f_uid : list Z := Eval vm_compute in lit "uid".
Definition f_pwd : list Z := Eval vm_compute in lit "pwd".
Definition f_old_pwd : list Z := Eval vm_compute in lit "old_pwd".
Definition f_new_pwd : list Z := Eval vm_compute in lit "new_pwd".
Definition f_token : list Z := Eval vm_compute in lit "token".
Definition f_token_expire : list Z := Eval vm_compute in lit "token_expire".
Definition f_type : list Z := Eval vm_compute in lit "type".
Definition f_nick : list Z := Eval vm_compute in lit "nick".
Definition f_comment : list Z := Eval vm_compute in lit "comment".
Definition f_result : list Z := Eval vm_compute in lit "result".
Definition f_count : list Z := Eval vm_compute in lit "count".
Definition f_account : list Z := Eval vm_compute in lit "account".
Definition f_account_one : list Z := Eval vm_compute in lit "account_one".

(** ** The conditions of public.h *)

Definition first_char (buf : list Z) : res Z :=
  match buf with c :: _ => Ok c | [] => Fault OutOfBounds end.

(** [buf[0] != '\0' && strlen(buf) <= n] *)
Definition valid_string (n : Z) (buf : list Z) : res bool :=
  c ← first_char buf;
  if c =? 0 then Ok false else l ← strlen buf; Ok (l <=? n).

Definition valid_uid (buf : list Z) : res bool := valid_string 16 buf.
Definition valid_pwd (buf : list Z) : res bool := valid_string 16 buf.
Definition valid_token (buf : list Z) : res bool :=
  c ← first_char buf;
  if c =? 0 then Ok false else l ← strlen buf; Ok (l =? 38).
Definition valid_type (t : Z) : bool := (0 <=? t) && (t <=? 3).
Definition valid_nick (buf : list Z) : res bool := l ← strlen buf; Ok (l <=? 64).
Definition valid_comment (buf : list Z) : res bool := l ← strlen buf; Ok (l <=? 256).

(** [a && b], from left to right. *)
Definition and_then (a b : res bool) : res bool := x ← a; if x : bool then b else Ok false.

Record env := mk_env {
  e_now : Z * Z;
  e_uuid : list Z;
  e_session : session;
  e_account : account;
}.

Section handlers.
Context `{S : Sqlite}.

Record world := mk_world { w_sess : sessions; w_dbp : option dbp_inst; w_pal : alloc }.

Definition set_sess (w : world) s := mk_world s (w_dbp w) (w_pal w).
Definition set_dbp (w : world) d := mk_world (w_sess w) d (w_pal w).
Definition set_pal (w : world) al := mk_world (w_sess w) (w_dbp w) al.

(** The packet of an answer; every path of a handler appends to it, which NULL does not allow. *)
Definition new_pack (w : world) : res (ep_pack * world) :=
  '(p, al) ← ep_pack_new (w_pal w);
  match p with None => Fault NullDeref | Some p => Ok (p, set_pal w al) end.

Definition answer_int (p : ep_pack) (r : Z) (w : world) : res (option ep_pack * world) :=
  p ← ep_pack_append_int p f_result r; Ok (Some p, w).

Definition append_cstr (p : ep_pack) (name buf : list Z) : res ep_pack :=
  s ← c_text buf; ep_pack_append_string p name s.

Definition dbp_of (w : world) : res dbp_inst :=
  match w_dbp w with Some d => Ok d | None => Fault NullDeref end.

Definition get_one (w : world) (u : list Z) (a : option account) : res (Z * option account * world) :=
  d ← dbp_of w; '(r, a, d) ← db_account_get_one d u a; Ok (r, a, set_dbp w (Some d)).
Definition pwd_check (w : world) (u p : list Z) : res (Z * world) :=
  d ← dbp_of w; '(r, d) ← db_account_pwd_check d u p; Ok (r, set_dbp w (Some d)).

(** The session a reference leads to. *)
Definition session_at (w : sessions) (a : option nat) : res session :=
  match a with None => Fault NullDeref | Some a => n ← h_load (w_nodes w) a; Ok (n_session n) end.
Definition dref (w : sessions) (a : option nat) : res sessions :=
  match a with None => Fault NullDeref | Some a => session_dref w a end.

(** ** res_account_check_session_exist *)

(** The session of a reference is dropped by its descriptor. *)
Definition drop_session (w : sessions) (old : option nat) : res sessions :=
  s ← session_at w old;
  w ← dref w old;
  '(_, w) ← session_del_fd w (fd s);
  Ok w.

Definition res_account_check_session_exist (w : sessions) (u : list Z) (d : Z) : res (Z * sessions) :=
  '(r, old, w) ← session_ref_uid w u session_fd;
  '(conflict, w) ← (if r =? 1 then w ← drop_session w old; Ok (1, w) else Ok (0, w));
  '(r, old, w) ← session_ref_fd w d;
  if r =? 1 then w ← drop_session w old; Ok (1, w) else Ok (conflict, w).

(** ** res_account_login *)

(** The locals the request is read into. *)
Record login_args := mk_login { l_uid : list Z; l_pwd : list Z; l_token : list Z; l_expire : Z }.

Definition login_body (m : list Z) (iter : bson_iterator) (a : login_args) : res (turn login_args unit) :=
  _ ← ep_pack_iterator_type m iter;
  key ← ep_pack_iterator_key m iter;
  if decide (key = f_uid) then
    s ← ep_pack_iterator_string m iter;
    u ← strncpy (l_uid a) (s ++ [0]) 17;
    u ← lower_loop u;
    Ok (Next (mk_login u (l_pwd a) (l_token a) (l_expire a)))
  else if decide (key = f_pwd) then
    s ← ep_pack_iterator_string m iter;
    p ← strncpy (l_pwd a) (s ++ [0]) 17;
    Ok (Next (mk_login (l_uid a) p (l_token a) (l_expire a)))
  else if decide (key = f_token) then
    s ← ep_pack_iterator_string m iter;
    t ← strncpy (l_token a) (s ++ [0]) 39;
    Ok (Next (mk_login (l_uid a) (l_pwd a) t (l_expire a)))
  else if decide (key = f_token_expire) then
    e ← ep_pack_iterator_int m iter;
    Ok (Next (mk_login (l_uid a) (l_pwd a) (l_token a) e))
  else Ok (Next a).

(** The state a loop over the request ends in; a request without a packet leaves the locals. *)
Definition read_request {A} (pack : option ep_pack) (body : list Z -> bson_iterator -> A -> res (turn A unit)) (a : A)
  : res A :=
  match pack with
  | None => Ok a
  | Some p => t ← pack_foreach p body a; Ok (match t with Next a => a | Leave _ => a end)
  end.

Definition set_login (s : session) (u : list Z) (t d : Z) (tok : list Z) (now : Z * Z) : session :=
  mk_session t u (admin s) session_fd tok now (time_expired s) d (time_heatbeat s).

(** [timeradd] of the time and [token_expire] days, the latter an int. *)
Definition expire_date (now : Z * Z) (token_expire : Z) : res (Z * Z) :=
  n ← c_int (token_expire * 24); n ← c_int (n * 60); n ← c_int (n * 60); Ok (now.1 + n, now.2).

(** The token of the user, if there is one, is dropped, and the new one added. *)
Definition add_token (w : sessions) (e : env) (u : list Z) (s : session) (token_expire : Z) (p : ep_pack)
  : res (ep_pack * sessions) :=
  ex ← expire_date (time_created s) token_expire;
  t ← guid_generate (token s) (e_uuid e);
  let s := mk_session (a_type s) (uid s) (admin s) session_token t (time_created s) ex (-1) (time_heatbeat s) in
  '(r, old, w) ← session_ref_uid w u session_token;
  w ← (if r =? 1 then
         o ← session_at w old;
         u' ← strncpy (replicate 17 170) (uid o) 17;
         w ← dref w old;
         '(_, w) ← session_del_token w u';
         Ok w
       else Ok w);
  '(_, s, w) ← session_add_token w s;
  p ← append_cstr p f_token (token s);
  Ok (p, w).

Definition login_result (conflict : Z) : Z :=
  if conflict =? 0 then account_r_ok else account_r_login_ok_conlict_another_address.

(** The credentials are good: the sessions in the way are dropped and the new one is added. *)
Definition login_grant (w : world) (e : env) (d : Z) (a : login_args) (p : ep_pack) : res (option ep_pack * world) :=
  '(conflict, sw) ← res_account_check_session_exist (w_sess w) (l_uid a) d;
  let w := set_sess w sw in
  '(r, acc, w) ← get_one w (l_uid a) (Some (e_account e));
  match acc with
  | Some acc =>
      if negb (r =? 1) then answer_int p account_r_login_user_not_exist w else
      u ← strcpy (uid (e_session e)) (l_uid a);
      tok ← memcpy (token (e_session e)) 0 [0] 1;
      let s := set_login (e_session e) u (acc_type acc) d tok (e_now e) in
      '(_, s, sw) ← session_add_fd (w_sess w) s;
      '(p, sw) ← (if 0 <? l_expire a then add_token sw e (l_uid a) s (l_expire a) p else Ok (p, sw));
      p ← ep_pack_append_int p f_type (acc_type acc);
      p ← append_cstr p f_nick (acc_nick acc);
      p ← append_cstr p f_comment (acc_comment acc);
      answer_int p (login_result conflict) (set_sess w sw)
  | None => Fault NullDeref
  end.

Definition login_by_pwd (w : world) (e : env) (d : Z) (a : login_args) (p : ep_pack) : res (option ep_pack * world) :=
  '(r, _, w) ← get_one w (l_uid a) None;
  if negb (r =? 1) then answer_int p account_r_login_user_not_exist w else
  '(r, w) ← pwd_check w (l_uid a) (l_pwd a);
  if negb (r =? 1) then answer_int p account_r_login_invalid_user_or_pwd w else
  login_grant w e d a p.

Definition login_by_token (w : world) (e : env) (d : Z) (a : login_args) (p : ep_pack) : res (option ep_pack * world) :=
  '(r, s, sw) ← session_ref_token (w_sess w) (l_token a);
  if negb (r =? 1) then answer_int p account_r_session_expired (set_sess w sw) else
  ns ← session_at sw s;
  tok ← memcpy (token ns) 0 [0] 1;
  let ns := set_token (set_fd (set_s_type ns session_fd) d) tok in
  sw ← dref sw s;
  '(conflict, sw) ← res_account_check_session_exist sw (uid ns) d;
  '(_, ns, sw) ← session_add_fd sw ns;
  let w := set_sess w sw in
  '(r, acc, w) ← get_one w (uid ns) (Some (e_account e));
  match acc with
  | Some acc =>
      if negb (r =? 1) then answer_int p account_r_login_user_not_exist w else
      p ← ep_pack_append_int p f_type (acc_type acc);
      p ← append_cstr p f_uid (acc_uid acc);
      p ← append_cstr p f_nick (acc_nick acc);
      p ← append_cstr p f_comment (acc_comment acc);
      answer_int p (login_result conflict) w
  | None => Fault NullDeref
  end.

Definition login_locals : login_args := mk_login (replicate 17 0) (replicate 17 0) (replicate 39 0) 0.

Definition res_account_login (w : world) (e : env) (d : Z) (pack : option ep_pack) : res (option ep_pack * world) :=
  a ← read_request pack login_body login_locals;
  '(p, w) ← new_pack w;
  by_pwd ← and_then (valid_uid (l_uid a)) (valid_pwd (l_pwd a));
  if by_pwd : bool then login_by_pwd w e d a p else
  by_tok ← valid_token (l_token a);
  if by_tok : bool then login_by_token w e d a p else
  answer_int p account_r_illegal_parameter w.

(** ** res_account_logout *)

Definition res_account_logout (w : world) (d : Z) : res (option ep_pack * world) :=
  '(p, w) ← new_pack w;
  '(r, s, sw) ← session_ref_fd (w_sess w) d;
  if r =? 0 then answer_int p account_r_session_expired (set_sess w sw) else
  sw ← dref sw s;
  '(_, sw) ← session_del_fd sw d;
  answer_int p account_r_ok (set_sess w sw).

(** ** res_account_create *)

Definition zero_first (buf : list Z) : res (list Z) := memcpy buf 0 [0] 1.

Definition create_body (m : list Z) (iter : bson_iterator) (a : account) : res (turn account unit) :=
  _ ← ep_pack_iterator_type m iter;
  key ← ep_pack_iterator_key m iter;
  if decide (key = f_type) then
    t ← ep_pack_iterator_int m iter; Ok (Next (set_acc_type a t))
  else if decide (key = f_uid) then
    s ← ep_pack_iterator_string m iter;
    u ← strncpy (acc_uid a) (s ++ [0]) 17;
    u ← lower_loop u;
    Ok (Next (set_acc_uid a u))
  else if decide (key = f_pwd) then
    s ← ep_pack_iterator_string m iter;
    p ← strncpy (acc_pwd a) (s ++ [0]) 129; Ok (Next (set_acc_pwd a p))
  else if decide (key = f_nick) then
    s ← ep_pack_iterator_string m iter;
    n ← strncpy (acc_nick a) (s ++ [0]) 65; Ok (Next (set_acc_nick a n))
  else if decide (key = f_comment) then
    s ← ep_pack_iterator_string m iter;
    c ← strncpy (acc_comment a) (s ++ [0]) 257; Ok (Next (set_acc_comment a c))
  else Ok (Next a).

(** Only the first characters of the arrays are set; the type is whatever the stack holds. *)
Definition create_locals (a : account) : res account :=
  u ← zero_first (acc_uid a); p ← zero_first (acc_pwd a);
  n ← zero_first (acc_nick a); c ← zero_first (acc_comment a);
  Ok (mk_account (acc_type a) u p n c).

(** The session is read after its reference was given back. *)
Definition res_account_create (w : world) (e : env) (d : Z) (pack : option ep_pack) : res (option ep_pack * world) :=
  a ← create_locals (e_account e);
  a ← read_request pack create_body a;
  '(p, w) ← new_pack w;
  ok ← and_then (valid_uid (acc_uid a)) (and_then (valid_pwd (acc_pwd a)) (and_then (Ok (valid_type (acc_type a)))
         (and_then (valid_nick (acc_nick a)) (valid_comment (acc_comment a)))));
  if negb ok then answer_int p account_r_illegal_parameter w else
  '(r, s, sw) ← session_ref_fd (w_sess w) d;
  if negb (r =? 1) then answer_int p account_r_no_permission (set_sess w sw) else
  sw ← dref sw s;
  s ← session_at sw s;
  let w := set_sess w sw in
  if admin s =? 0 then answer_int p account_r_no_permission w else
  '(r, _, w) ← get_one w (acc_uid a) None;
  if r =? 1 then answer_int p account_r_create_uid_exist w else
  db ← dbp_of w;
  '(r, _, db) ← db_account_add db a;
  let w := set_dbp w (Some db) in
  if negb (r =? 1) then answer_int p account_r_service_unavailable w else
  answer_int p account_r_ok w.

(** ** res_account_modify_pwd *)

Record pwd_args := mk_pwd_args { m_old : list Z; m_new : list Z }.

Definition modify_pwd_body (m : list Z) (iter : bson_iterator) (a : pwd_args) : res (turn pwd_args unit) :=
  _ ← ep_pack_iterator_type m iter;
  key ← ep_pack_iterator_key m iter;
  if decide (key = f_old_pwd) then
    s ← ep_pack_iterator_string m iter;
    o ← strncpy (m_old a) (s ++ [0]) 17; Ok (Next (mk_pwd_args o (m_new a)))
  else if decide (key = f_new_pwd) then
    s ← ep_pack_iterator_string m iter;
    n ← strncpy (m_new a) (s ++ [0]) 17; Ok (Next (mk_pwd_args (m_old a) n))
  else Ok (Next a).

(** An array of the stack, its first character set to zero. *)
Definition local_string (n : nat) : list Z := 0 :: replicate (n - 1) 170.

(** The old password is checked as the password of the user of that name. *)
Definition res_account_modify_pwd (w : world) (d : Z) (pack : option ep_pack) : res (option ep_pack * world) :=
  a ← read_request pack modify_pwd_body (mk_pwd_args (local_string 17) (local_string 17));
  '(p, w) ← new_pack w;
  ok ← and_then (valid_pwd (m_old a)) (valid_pwd (m_new a));
  if negb ok then answer_int p account_r_illegal_parameter w else
  same ← strcmp_eq (m_old a) (m_new a);
  if same : bool then answer_int p account_r_modify_pwd_same w else
  '(r, s, sw) ← session_ref_fd (w_sess w) d;
  let w := set_sess w sw in
  if r =? 0 then answer_int p account_r_session_expired w else
  '(r, w) ← pwd_check w (m_old a) (m_old a);
  if r =? 0 then sw ← dref (w_sess w) s; answer_int p account_r_old_pwd_incorrect (set_sess w sw) else
  sess ← session_at (w_sess w) s;
  db ← dbp_of w;
  '(r, db) ← db_account_update_pwd db (uid sess) (m_new a);
  sw ← dref (w_sess w) s;
  let w := set_sess (set_dbp w (Some db)) sw in
  if r =? 0 then answer_int p account_r_service_unavailable w else
  answer_int p account_r_ok w.

(** ** res_account_modify_basic *)

Record basic_args := mk_basic { b_nick : list Z; b_comment : list Z }.

Definition modify_basic_body (m : list Z) (iter : bson_iterator) (a : basic_args) : res (turn basic_args unit) :=
  _ ← ep_pack_iterator_type m iter;
  key ← ep_pack_iterator_key m iter;
  if decide (key = f_nick) then
    s ← ep_pack_iterator_string m iter;
    n ← strncpy (b_nick a) (s ++ [0]) 17; Ok (Next (mk_basic n (b_comment a)))
  else if decide (key = f_comment) then
    s ← ep_pack_iterator_string m iter;
    c ← strncpy (b_comment a) (s ++ [0]) 17; Ok (Next (mk_basic (b_nick a) c))
  else Ok (Next a).

(** The reference to the session is never given back. *)
Definition res_account_modify_basic (w : world) (d : Z) (pack : option ep_pack) : res (option ep_pack * world) :=
  a ← read_request pack modify_basic_body (mk_basic (local_string 17) (local_string 17));
  '(p, w) ← new_pack w;
  '(r, s, sw) ← session_ref_fd (w_sess w) d;
  let w := set_sess w sw in
  if r =? 0 then answer_int p account_r_session_expired w else
  sess ← session_at (w_sess w) s;
  db ← dbp_of w;
  '(r, db) ← db_account_update_nick db (uid sess) (b_nick a);
  let w := set_dbp w (Some db) in
  if r =? 0 then answer_int p account_r_service_unavailable w else
  sess ← session_at (w_sess w) s;
  '(r, db) ← db_account_update_comment db (uid sess) (b_comment a);
  let w := set_dbp w (Some db) in
  if r =? 0 then answer_int p account_r_service_unavailable w else
  answer_int p account_r_ok w.

(** ** res_account_delete *)

Definition delete_body (m : list Z) (iter : bson_iterator) (a : pwd_args) : res (turn pwd_args unit) :=
  _ ← ep_pack_iterator_type m iter;
  key ← ep_pack_iterator_key m iter;
  if decide (key = f_old_pwd) then
    s ← ep_pack_iterator_string m iter;
    o ← strncpy (m_old a) (s ++ [0]) 17; Ok (Next (mk_pwd_args o (m_new a)))
  else if decide (key = f_uid) then
    s ← ep_pack_iterator_string m iter;
    u ← strncpy (m_new a) (s ++ [0]) 17; Ok (Next (mk_pwd_args (m_old a) u))
  else Ok (Next a).

(** The administrators among [count] records. *)
Fixpoint count_admins (count : nat) (arr : list account) : res Z :=
  match count, arr with
  | O, _ => Ok 0
  | Datatypes.S _, [] => Fault OutOfBounds
  | Datatypes.S n, a :: arr => c ← count_admins n arr; Ok (if acc_type a =? account_admin then c + 1 else c)
  end.

Definition delete_row (w : world) (u : list Z) (p : ep_pack) : res (option ep_pack * world) :=
  db ← dbp_of w;
  '(r, db) ← db_account_del db u;
  answer_int p (if r =? 0 then account_r_service_unavailable else account_r_ok) (set_dbp w (Some db)).

(** [m_new] holds the user to delete. A wrong password leaves the reference taken. *)
Definition res_account_delete (w : world) (d : Z) (pack : option ep_pack) : res (option ep_pack * world) :=
  a ← read_request pack delete_body (mk_pwd_args (local_string 17) (local_string 17));
  let u := m_new a in
  '(p, w) ← new_pack w;
  ok ← and_then (valid_uid u) (valid_pwd (m_old a));
  if negb ok then answer_int p account_r_illegal_parameter w else
  '(r, s, sw) ← session_ref_fd (w_sess w) d;
  let w := set_sess w sw in
  if r =? 0 then answer_int p account_r_session_expired w else
  sess ← session_at (w_sess w) s;
  '(r, w) ← pwd_check w (uid sess) (m_old a);
  if r =? 0 then answer_int p account_r_old_pwd_incorrect w else
  own ← strcmp_eq (uid sess) u;
  if own : bool then
    '(last, w) ←
      (if a_type sess =? account_admin then
         db ← dbp_of w;
         '(count, arr, db) ← db_account_get db;
         c ← (if count =? 0 then Ok 0
              else match arr with
                   | None => Fault WildPointer
                   | Some l => c ← count_admins (Z.to_nat count) l; _ ← db_account_get_free arr; Ok c
                   end);
         Ok (c <=? 1, set_dbp w (Some db))
       else Ok (false, w));
    if last : bool then
      sw ← dref (w_sess w) s; answer_int p account_r_cannot_delete_last_admin (set_sess w sw)
    else
      sw ← dref (w_sess w) s;
      '(_, sw) ← session_del_fd sw d;
      '(_, sw) ← session_del_token sw u;
      delete_row (set_sess w sw) u p
  else if admin sess =? 0 then
    sw ← dref (w_sess w) s; answer_int p account_r_no_permission (set_sess w sw)
  else
    sw ← dref (w_sess w) s; delete_row (set_sess w sw) u p.

(** ** res_account_list *)

Fixpoint append_accounts (count : nat) (arr : list account) (p : ep_pack) : res ep_pack :=
  match count, arr with
  | O, _ => Ok p
  | Datatypes.S _, [] => Fault OutOfBounds
  | Datatypes.S n, a :: arr =>
      p ← ep_pack_append_start_object p f_account_one;
      p ← ep_pack_append_int p f_type (acc_type a);
      p ← append_cstr p f_uid (acc_uid a);
      p ← append_cstr p f_nick (acc_nick a);
      p ← append_cstr p f_comment (acc_comment a);
      p ← ep_pack_append_finish_object p;
      append_accounts n arr p
  end.

Definition res_account_list (w : world) (d : Z) : res (option ep_pack * world) :=
  '(r, s, sw) ← session_ref_fd (w_sess w) d;
  if r =? 0 then '(p, w) ← new_pack (set_sess w sw); answer_int p dish_r_no_permission w else
  sess ← session_at sw s;
  sw ← dref sw s;
  let w := set_sess w sw in
  '(p, w) ← new_pack w;
  if negb (a_type sess =? account_admin) then answer_int p dish_r_no_permission w else
  db ← dbp_of w;
  '(count, arr, db) ← db_account_get db;
  let w := set_dbp w (Some db) in
  p ← ep_pack_append_int p f_result dish_r_ok;
  p ← ep_pack_append_int p f_count count;
  if count =? 0 then Ok (Some p, w) else
  match arr with
  | None => Fault WildPointer
  | Some l =>
      p ← ep_pack_append_start_array p f_account;
      p ← append_accounts (Z.to_nat count) l p;
      p ← ep_pack_append_finish_array p;
      Ok (Some p, w)
  end.

(** ** Sessions, as the handlers use them *)

(** [w1] is [w] with a reference [a] to the session [s] taken. *)
Definition held (w w1 : sessions) (a : option nat) (s : session) : Prop :=
  session_at w1 a = Ok s /\ dref w1 a = Ok w /\ session_at w a = Ok s /\ w_lock w1 = true.

Lemma held_node w a s :
  a ∈ w_list w -> node_at (w_nodes w) a s -> w_lock w = false ->
  held w (set_lock (set_nodes w (<[a := Some (mk_node s (Some (Pref.mk_pref 1)))]> (w_nodes w))) true) (Some a) s.
Proof.
  intros Ha Na L. pose proof (lookup_lt_Some _ _ _ Na) as Hlt. split; [|split; [by apply dref_spec|split; [|done]]].
  - cbn [session_at set_lock set_nodes w_nodes]. unfold h_load. by rewrite list_lookup_insert_eq.
  - cbn [session_at]. by rewrite (node_load _ _ _ Na).
Qed.

Lemma ref_fd_held w T d :
  Session.table w T -> w_lock w = false -> unique T -> d <> -1 ->
  match List.find (by_fd d) T with
  | None => session_ref_fd w d = Ok (0, None, w)
  | Some s => exists a w1, session_ref_fd w d = Ok (1, a, w1) /\ held w w1 a s
  end.
Proof.
  intros [N F O A] L U Hd. unfold session_ref_fd.
  pose proof (ref_fd_scan_spec d Hd (w_list w) T w None 0 F O N (u_fd _ U)) as Sc. destruct (List.find (by_fd d) T) as [s|].
  - destruct Sc as (l1 & a & l2 & T1 & El & _ & _ & Na & ->). cbn [mbind res_bind Z.add Z.leb Z.compare Pos.compare Pos.compare_cont].
    unfold lock. cbn [set_nodes w_lock]. rewrite L. eexists (Some a), _. split; [reflexivity|].
    apply held_node; [|done|done]. rewrite El. apply elem_of_app. right. apply list_elem_of_here.
  - rewrite Sc. done.
Qed.

Lemma ref_uid_held w T u ty :
  Session.table w T -> w_lock w = false -> terminated u ->
  match List.find (by_uid ty u) T with
  | None => session_ref_uid w u ty = Ok (0, None, w)
  | Some s => exists a w1, session_ref_uid w u ty = Ok (1, a, w1) /\ held w w1 a s
  end.
Proof.
  intros [N F O A] L Hu. unfold session_ref_uid.
  pose proof (find_node_spec (sel_uid ty u) (by_uid ty u) (w_nodes w) (w_list w) T
    (fun x Hx => sel_uid_spec ty u x Hu Hx) F O) as Sc. destruct (List.find (by_uid ty u) T) as [s|].
  - destruct Sc as (a & -> & Ha & Na). cbn [mbind res_bind]. rewrite (node_get_spec _ _ _ Na). cbn [mbind res_bind].
    unfold lock. cbn [set_nodes w_lock]. rewrite L. eexists (Some a), _. split; [reflexivity|]. by apply held_node.
  - by rewrite Sc.
Qed.

Lemma ref_token_held w T tok :
  Session.table w T -> w_lock w = false -> terminated tok ->
  match List.find (by_token tok) T with
  | None => session_ref_token w tok = Ok (0, None, w)
  | Some s => exists a w1, session_ref_token w tok = Ok (1, a, w1) /\ held w w1 a s
  end.
Proof.
  intros [N F O A] L Hu. unfold session_ref_token.
  pose proof (find_node_spec (sel_token tok) (by_token tok) (w_nodes w) (w_list w) T
    (fun x Hx => sel_token_spec tok x Hu Hx) F O) as Sc. destruct (List.find (by_token tok) T) as [s|].
  - destruct Sc as (a & -> & Ha & Na). cbn [mbind res_bind]. unfold lock. rewrite L. cbn [mbind res_bind].
    rewrite (node_get_spec (set_lock w true) a s Na). eexists (Some a), _. split; [reflexivity|]. exact (held_node w a s Ha Na L).
  - by rewrite Sc.
Qed.

(** An idle table of sessions. *)
Definition sess_table (w : sessions) (T : list session) : Prop := Session.table w T /\ w_lock w = false /\ unique T.

Definition keep (p : session -> bool) (T : list session) : list session := List.filter (fun s => negb (p s)) T.

Lemma del_fd_table w T d :
  sess_table w T -> exists r w', session_del_fd w d = Ok (r, w') /\ sess_table w' (keep (by_fd d) T).
Proof.
  intros (HT & L & U). destruct (del_with_spec (sel_fd d) (by_fd d) w T) as (w' & E & T' & L'); [done|done|done|].
  eexists _, w'. split; [exact E|]. split; [done|]. split; [done|]. by apply unique_del.
Qed.

Lemma del_token_table w T u :
  sess_table w T -> terminated u ->
  exists r w', session_del_token w u = Ok (r, w') /\ sess_table w' (keep (by_uid session_token u) T).
Proof.
  intros (HT & L & U) Hu. destruct (del_with_spec (sel_uid session_token u) (by_uid session_token u) w T) as (w' & E & T' & L');
    [intros x Hx; by apply sel_uid_spec|done|done|].
  eexists _, w'. split; [exact E|]. split; [done|]. split; [done|]. by apply unique_del.
Qed.

Lemma nodup_map_inj {X Y} (f : X -> Y) l x y : NoDup (map f l) -> In x l -> In y l -> f x = f y -> x = y.
Proof.
  induction l as [|z l IH]; intros N Hx Hy E; [done|]. cbn [map] in N. apply NoDup_cons in N as [N1 N2].
  assert (forall v, In v l -> f v <> f z) as Hne.
  { intros v Hv Ev. apply N1. rewrite <- Ev. apply list_elem_of_fmap. exists v. split; [done|]. by apply list_elem_of_In. }
  destruct Hx as [->|Hx], Hy as [->|Hy]; [done| | |by apply IH].
  - by destruct (Hne y Hy).
  - by destruct (Hne x Hx).
Qed.

Lemma fd_type s : sess_ok s -> fd s <> -1 -> is_fd s = true.
Proof.
  intros [_ _ H] Hd. unfold is_fd. apply bool_decide_eq_true. destruct (s_type s) eqn:E; [done|]. exfalso. by apply Hd, H.
Qed.

Lemma keep_ext p q T : (forall t, In t T -> p t = q t) -> keep p T = keep q T.
Proof.
  intros H. induction T as [|t T IH]; [done|]. unfold keep in *. cbn [List.filter]. rewrite (H t) by (by left).
  rewrite IH by (intros; apply H; by right). done.
Qed.

Lemma keep_all p T : List.find p T = None -> keep p T = T.
Proof.
  intros H. induction T as [|t T IH]; [done|]. cbn [List.find] in H. unfold keep in *. cbn [List.filter].
  destruct (p t); [done|]. cbn [negb]. by rewrite IH.
Qed.

(** The only session of a user's connection is found by its descriptor too. *)
Lemma keep_user T u s :
  unique T -> Forall sess_ok T -> List.find (by_uid session_fd u) T = Some s ->
  keep (by_fd (fd s)) T = keep (by_uid session_fd u) T.
Proof.
  intros U Hok [Hs Hu]%List.find_some. rewrite List.Forall_forall in Hok. unfold by_uid in Hu.
  apply andb_prop in Hu as [Ht Hu]. assert (fd s <> -1) as Hd.
  { intros E. apply bool_decide_eq_true in Ht. apply (ok_fd s (Hok s Hs)) in E. congruence. }
  assert (forall t, In t T -> is_fd t = true -> In t (List.filter is_fd T)) as HF by (intros; by apply List.filter_In).
  apply keep_ext. intros t Hin. unfold by_fd, by_uid. destruct (Z.eqb_spec (fd t) (fd s)) as [E|E].
  - assert (t = s) as ->; [|by rewrite Ht, Hu].
    apply (nodup_map_inj fd (List.filter is_fd T)); [apply U| | |done]; apply HF; try done; apply fd_type; auto; congruence.
  - destruct (bool_decide (s_type t = session_fd)) eqn:Ht'; [|done]. cbn [andb].
    destruct (bool_decide (text (uid t) = text u)) eqn:Hu'; [|done]. exfalso. apply E. f_equal.
    apply bool_decide_eq_true in Hu, Hu'.
    apply (nodup_map_inj (fun s => text (uid s)) (List.filter is_fd T)); [apply U| | |congruence]; by apply HF.
Qed.

Lemma drop_session_spec w T w1 a s :
  sess_table w T -> held w w1 a s ->
  exists w', drop_session w1 a = Ok w' /\ sess_table w' (keep (by_fd (fd s)) T).
Proof.
  intros HT (E1 & E2 & _ & _). unfold drop_session. rewrite E1. cbn [mbind res_bind]. rewrite E2. cbn [mbind res_bind].
  destruct (del_fd_table w T (fd s) HT) as (r & w' & -> & HT'). by exists w'.
Qed.

(** What a login clears away: the user's connection and whoever is on the descriptor. *)
Definition clear (T : list session) (u : list Z) (d : Z) : list session := keep (by_fd d) (keep (by_uid session_fd u) T).
Definition clash (T : list session) (u : list Z) (d : Z) : Z :=
  if existsb (by_uid session_fd u) T || existsb (by_fd d) T then 1 else 0.

Lemma find_existsb {X} (p : X -> bool) l : existsb p l = match List.find p l with Some _ => true | None => false end.
Proof. induction l as [|x l IH]; [done|]. cbn [existsb List.find]. by destruct (p x). Qed.

Lemma check_session_spec w T u d :
  sess_table w T -> terminated u -> d <> -1 ->
  exists w', res_account_check_session_exist w u d = Ok (clash T u d, w') /\ sess_table w' (clear T u d).
Proof.
  intros (HT & L & U) Hu Hd. unfold res_account_check_session_exist, clash, clear. rewrite !find_existsb.
  pose proof (ref_uid_held w T u session_fd HT L Hu) as R1.
  assert (exists w1 c, ('(r, old, w0) ← session_ref_uid w u session_fd;
     (if r =? 1 then w2 ← drop_session w0 old; Ok (1, w2) else Ok (0, w0))) = Ok (c, w1) /\
     c = (match List.find (by_uid session_fd u) T with Some _ => 1 | None => 0 end) /\
     sess_table w1 (keep (by_uid session_fd u) T)) as (w1 & c & E1 & Ec & HT1).
  { destruct (List.find (by_uid session_fd u) T) as [s|] eqn:F.
    - destruct R1 as (a & w0 & -> & H). cbn [mbind res_bind Z.eqb Pos.eqb].
      destruct (drop_session_spec w T w0 a s) as (w1 & -> & HT1); [done|done|]. cbn [mbind res_bind].
      exists w1, 1. split; [done|]. split; [done|]. rewrite <- (keep_user T u s U); [done|apply HT|done].
    - rewrite R1. cbn [mbind res_bind Z.eqb]. exists w, 0. split; [done|]. split; [done|]. by rewrite keep_all. }
  destruct (session_ref_uid w u session_fd) as [[[r old] w0]|]; [|done]. cbn [mbind res_bind] in *. rewrite E1. cbn [mbind res_bind].
  destruct HT1 as (HT1 & L1 & U1). pose proof (ref_fd_held w1 _ d HT1 L1 U1 Hd) as R2.
  destruct (List.find (by_fd d) (keep (by_uid session_fd u) T)) as [s|] eqn:F2.
  - destruct R2 as (a & w2 & -> & H). cbn [mbind res_bind Z.eqb Pos.eqb].
    destruct (drop_session_spec w1 (keep (by_uid session_fd u) T) w2 a s) as (w3 & -> & HT3); [done|done|]. exists w3. split.
    + cbn [mbind res_bind]. do 2 f_equal. apply List.find_some in F2 as [F2 F3].
      apply List.filter_In in F2 as [F2 _]. rewrite <- (find_existsb (by_fd d) T).
      replace (existsb (by_fd d) T) with true; [by rewrite orb_true_r|]. symmetry. apply existsb_exists. by exists s.
    + apply List.find_some in F2 as [_ F3]. unfold by_fd in F3. apply Z.eqb_eq in F3. by rewrite F3 in HT3.
  - rewrite R2. cbn [mbind res_bind Z.eqb]. exists w1. rewrite keep_all by done. split; [|done]. do 2 f_equal. rewrite Ec.
    destruct (List.find (by_uid session_fd u) T) as [s|] eqn:F1; [done|]. rewrite keep_all in F2 by done. by rewrite F2.
Qed.

(** After the clearing nothing is in the way of the user's session. *)
Lemma add_after_clear T u s :
  Forall sess_ok T -> is_fd s = true -> text (uid s) = text u -> add_spec (clear T u (fd s)) s = (1, clear T u (fd s) ++ [s]).
Proof.
  intros Hok Hs Eu. unfold add_spec. replace (existsb (conflicts s) (clear T u (fd s))) with false; [done|].
  symmetry. apply not_true_iff_false. intros (t & Ht & Hc)%existsb_exists.
  apply List.filter_In in Ht as [Ht Hfd]. apply List.filter_In in Ht as [Ht Hu]. unfold conflicts in Hc. rewrite Hs in Hc.
  unfold by_fd in Hfd. unfold by_uid in Hu. unfold is_fd in Hc. rewrite Eu in Hc.
  destruct (fd t =? fd s); [done|]. cbn [orb] in Hc. by rewrite Hc in Hu.
Qed.

Lemma clear_ok T u d : Forall sess_ok T -> Forall sess_ok (clear T u d).
Proof. intros H. by apply sess_ok_filter, sess_ok_filter. Qed.

Lemma add_fd_table w T s :
  sess_table w T -> terminated (uid s) -> terminated (token s) -> fd s <> -1 ->
  exists w', session_add_fd w s = Ok ((add_spec T (fd_session s)).1, fd_session s, w') /\
    sess_table w' (add_spec T (fd_session s)).2.
Proof.
  intros (HT & L & U) Hu Ht Hd. unfold session_add_fd. destruct (token s) as [|c tk] eqn:Et; [by destruct Ht|].
  rewrite memcpy_ok by (rewrite ?zlen_cons; change (zlen (@nil Z)) with 0; pose proof (zlen_nonneg tk); lia).
  cbn [mbind res_bind]. change (splice (c :: tk) 0 (ztake 1 [0])) with (0 :: zdrop 1 (c :: tk)). rewrite <- Et.
  change (set_token (set_s_type s session_fd) (0 :: zdrop 1 (token s))) with (fd_session s).
  destruct (add_table w T (fd_session s) HT L) as (w' & -> & T' & L'); [by apply fd_session_ok|].
  cbn [mbind res_bind]. exists w'. split; [done|]. split; [done|]. split; [done|]. by apply unique_add.
Qed.

Lemma add_token_table w T s :
  sess_table w T -> terminated (uid s) -> terminated (token s) ->
  exists w', session_add_token w s = Ok ((add_spec T (token_session s)).1, token_session s, w') /\
    sess_table w' (add_spec T (token_session s)).2.
Proof.
  intros (HT & L & U) Hu Ht. unfold session_add_token.
  change (set_fd (set_s_type s session_token) (-1)) with (token_session s).
  destruct (add_table w T (token_session s) HT L) as (w' & -> & T' & L'); [by apply token_session_ok|].
  cbn [mbind res_bind]. exists w'. split; [done|]. split; [done|]. split; [done|]. by apply unique_add.
Qed.

(** ** Reading a request *)

(** An array of [n] characters that holds [s]. *)
Definition arr (n : nat) (s : list Z) : list Z := s ++ replicate (n - length s) 0.

Lemma arr_split n s : (length s < n)%nat -> arr n s = s ++ 0 :: replicate (n - length s - 1) 0.
Proof. intros H. unfold arr. destruct (n - length s)%nat as [|k] eqn:E; [lia|]. cbn [replicate]. do 3 f_equal. lia. Qed.

Lemma arr_text n s : no_zero s -> (length s < n)%nat -> text (arr n s) = s /\ terminated (arr n s).
Proof. intros N L. rewrite arr_split by done. split; [by apply text_app|by apply terminated_app]. Qed.

Lemma strncpy_cells_rest n s rest : no_zero s -> (length s < n)%nat -> strncpy_cells n (s ++ 0 :: rest) = Ok (arr n s).
Proof. apply strncpy_cells_fill. Qed.

Lemma memcpy_whole (dst src : list Z) n : zlen dst = n -> zlen src = n -> memcpy dst 0 src n = Ok src.
Proof.
  intros H1 H2. pose proof (zlen_nonneg src). rewrite memcpy_ok by lia. rewrite ztake_all by lia. unfold splice.
  rewrite ztake_0 by lia. rewrite zdrop_all by lia. by rewrite app_nil_r.
Qed.

Lemma strncpy_arr dst s n :
  no_zero s -> (length s < n)%nat -> length dst = n -> strncpy dst (s ++ [0]) (Z.of_nat n) = Ok (arr n s).
Proof.
  intros N L Ld. unfold strncpy. rewrite Nat2Z.id, strncpy_cells_rest by done. cbn [mbind res_bind].
  apply memcpy_whole; unfold zlen; [lia|]. unfold arr. rewrite length_app, length_replicate. lia.
Qed.

Lemma lower_arr n s : no_zero s -> (length s < n)%nat -> lower_loop (arr n s) = Ok (arr n (map tolower s)).
Proof.
  intros N L. rewrite arr_split, lower_loop_ok by done. rewrite arr_split by (by rewrite length_map). by rewrite length_map.
Qed.

(** The request is the fields [f], or there is none. *)
Definition carries (pack : option ep_pack) (f : fields) : Prop :=
  match pack with
  | None => f = FNil
  | Some q => (exists k, ep_pack_data q = doc (enc_fields f) ++ k) /\ fields_ok f /\ zlen (enc_fields f) <= LIM
  end.

Fixpoint fold_request {A} (step : list Z -> value -> A -> A) (f : fields) (a : A) : A :=
  match f with FNil => a | FCons n v f => fold_request step f (step n v a) end.

Lemma fold_request_fields {A} (step : list Z -> value -> A -> A) P (I : A -> Prop) f : forall a,
  all_fields P f -> I a -> (forall n v a, P n v -> I a -> I (step n v a)) ->
  I (fold_request step f a) /\
  fold_fields (fun n v x => Next (step n v x) : turn A unit) f a = Next (fold_request step f a).
Proof.
  induction f as [|n v f IH]; intros a Hf Hi Hs; [done|]. destruct Hf as [Hn Hf]. cbn [fold_request fold_fields].
  apply IH; [done|by apply Hs|done].
Qed.

Lemma read_request_spec {A} pack f body (step : list Z -> value -> A -> A) P (I : A -> Prop) a :
  carries pack f -> all_fields P f -> I a ->
  (forall m it n v a, at_field m it n v -> P n v -> I a -> body m it a = Ok (Next (step n v a))) ->
  (forall n v a, P n v -> I a -> I (step n v a)) ->
  read_request pack body a = Ok (fold_request step f a) /\ I (fold_request step f a).
Proof.
  intros Hc HP Hi Hb Hs. destruct (fold_request_fields step P I f a HP Hi Hs) as [Hi' Hf]. split; [|done].
  destruct pack as [q|]; cbn [read_request carries] in *; [|by rewrite Hc].
  destruct Hc as ((k & Hd) & Hok & Hl).
  rewrite (pack_for_fields q f k body (fun n v x => Next (step n v x)) P I a Hd Hok HP Hl Hi).
  - by rewrite Hf.
  - intros. by apply Hb.
  - intros n v x x' Hp Hx [= <-]. by apply Hs.
Qed.

Definition str_fit (k : Z) (v : value) (Q : list Z -> Prop) : Prop :=
  exists s, v = VStr s /\ no_zero s /\ zlen s <= k /\ Q s.

(** The fields of a login: strings that fit their arrays, a name without quotes, a number of days
    whose seconds are an int. *)
Definition login_field (n : list Z) (v : value) : Prop :=
  (n = f_uid -> str_fit 16 v no_quote) /\
  (n = f_pwd -> str_fit 16 v (Forall is_byte)) /\
  (n = f_token -> str_fit 38 v (fun _ => True)) /\
  (n = f_token_expire -> exists z, v = VInt z /\ z <= 24855).

Definition login_step (n : list Z) (v : value) (a : login_args) : login_args :=
  if decide (n = f_uid) then
    match v with VStr s => mk_login (arr 17 (map tolower s)) (l_pwd a) (l_token a) (l_expire a) | _ => a end
  else if decide (n = f_pwd) then
    match v with VStr s => mk_login (l_uid a) (arr 17 s) (l_token a) (l_expire a) | _ => a end
  else if decide (n = f_token) then
    match v with VStr s => mk_login (l_uid a) (l_pwd a) (arr 39 s) (l_expire a) | _ => a end
  else if decide (n = f_token_expire) then
    match v with VInt z => mk_login (l_uid a) (l_pwd a) (l_token a) z | _ => a end
  else a.

Definition login_read (f : fields) : login_args := fold_request login_step f login_locals.

Record login_shape (a : login_args) : Prop := {
  ls_uid : plain 16 (l_uid a) /\ length (l_uid a) = 17%nat;
  ls_pwd : terminated (l_pwd a) /\ Forall is_byte (text (l_pwd a)) /\ length (l_pwd a) = 17%nat;
  ls_token : terminated (l_token a) /\ length (l_token a) = 39%nat;
  ls_expire : l_expire a <= 24855;
}.

Lemma arr_len n s : (length s < n)%nat -> length (arr n s) = n.
Proof. intros H. unfold arr. rewrite length_app, length_replicate. lia. Qed.

Lemma lower_no_quote s : no_quote s -> no_quote (map tolower s).
Proof. intros H. apply Forall_map. eapply Forall_impl; [exact H|]. intros c Hc. cbn in *. unfold tolower. case_zbool; lia. Qed.

Lemma arr_plain n k s : no_zero s -> no_quote s -> zlen s <= k -> (length s < n)%nat -> plain k (arr n s).
Proof. intros Z Q K L. destruct (arr_text n s Z L) as [E T]. split; [done|]. by rewrite E. Qed.

Lemma login_step_shape n v a : login_field n v -> login_shape a -> login_shape (login_step n v a).
Proof.
  intros (H1 & H2 & H3 & H4) [U P T X]. unfold login_step. repeat case_decide.
  - destruct (H1 ltac:(done)) as (s & -> & Z & K & Q). split; cbn [l_uid l_pwd l_token l_expire]; try done.
    assert (length (map tolower s) < 17)%nat by (rewrite length_map; unfold zlen in K; lia).
    split; [|by apply arr_len]. apply arr_plain; [by apply lower_no_zero|by apply lower_no_quote| |done]. unfold zlen in *. by rewrite length_map.
  - destruct (H2 ltac:(done)) as (s & -> & Z & K & Q). split; cbn [l_uid l_pwd l_token l_expire]; try done.
    assert (length s < 17)%nat by (unfold zlen in K; lia). destruct (arr_text 17 s Z ltac:(done)) as [-> ?].
    split; [done|]. split; [done|]. by apply arr_len.
  - destruct (H3 ltac:(done)) as (s & -> & Z & K & _). split; cbn [l_uid l_pwd l_token l_expire]; try done.
    assert (length s < 39)%nat by (unfold zlen in K; lia). destruct (arr_text 39 s Z ltac:(done)) as [_ ?].
    split; [done|]. by apply arr_len.
  - destruct (H4 ltac:(done)) as (z & -> & K). by split.
  - by split.
Qed.

(** The copies need the sizes only. *)
Definition login_fit (n : list Z) (v : value) : Prop :=
  (n = f_uid -> str_fit 16 v (fun _ => True)) /\
  (n = f_pwd -> str_fit 16 v (fun _ => True)) /\
  (n = f_token -> str_fit 38 v (fun _ => True)) /\
  (n = f_token_expire -> exists z, v = VInt z).

Definition login_sized (a : login_args) : Prop :=
  length (l_uid a) = 17%nat /\ length (l_pwd a) = 17%nat /\ length (l_token a) = 39%nat.

Lemma str_fit_any k v Q : str_fit k v Q -> str_fit k v (fun _ => True).
Proof. intros (s & ? & ? & ? & _). by exists s. Qed.

Lemma login_body_sized m it n v a :
  at_field m it n v -> login_fit n v -> login_sized a -> login_body m it a = Ok (Next (login_step n v a)).
Proof.
  intros Hf (H1 & H2 & H3 & H4) (U2 & P3 & T2). unfold login_body, login_step.
  rewrite (field_type _ _ _ _ Hf). cbn [mbind res_bind]. rewrite (field_key _ _ _ _ Hf). cbn [mbind res_bind].
  repeat case_decide.
  - destruct (H1 ltac:(done)) as (s & -> & Z & K & Q). rewrite (field_str _ _ _ _ Hf). cbn [mbind res_bind].
    rewrite (strncpy_arr _ s 17) by (try done; unfold zlen in K; lia). cbn [mbind res_bind].
    rewrite lower_arr by (try done; unfold zlen in K; lia). done.
  - destruct (H2 ltac:(done)) as (s & -> & Z & K & Q). rewrite (field_str _ _ _ _ Hf). cbn [mbind res_bind].
    by rewrite (strncpy_arr _ s 17) by (try done; unfold zlen in K; lia).
  - destruct (H3 ltac:(done)) as (s & -> & Z & K & Q). rewrite (field_str _ _ _ _ Hf). cbn [mbind res_bind].
    by rewrite (strncpy_arr _ s 39) by (try done; unfold zlen in K; lia).
  - destruct (H4 ltac:(done)) as (z & ->). by rewrite (field_int _ _ _ _ Hf).
  - done.
Qed.

Lemma login_step_sized n v a : login_fit n v -> login_sized a -> login_sized (login_step n v a).
Proof.
  intros (H1 & H2 & H3 & H4) (U & P & T). unfold login_step, login_sized. repeat case_decide; try done.
  - destruct (H1 ltac:(done)) as (s & -> & _ & K & _). unfold zlen in K. cbn [l_uid l_pwd l_token].
    by rewrite arr_len by (rewrite length_map; lia).
  - destruct (H2 ltac:(done)) as (s & -> & _ & K & _). unfold zlen in K. cbn [l_uid l_pwd l_token]. by rewrite arr_len by lia.
  - destruct (H3 ltac:(done)) as (s & -> & _ & K & _). unfold zlen in K. cbn [l_uid l_pwd l_token]. by rewrite arr_len by lia.
  - by destruct v.
Qed.

Lemma login_reads pack f :
  carries pack f -> all_fields login_fit f -> read_request pack login_body login_locals = Ok (login_read f).
Proof.
  intros Hc Hf. apply (read_request_spec pack f login_body login_step login_fit login_sized); try done.
  - intros. by apply login_body_sized.
  - intros. by apply login_step_sized.
Qed.

Lemma login_field_fit n v : login_field n v -> login_fit n v.
Proof.
  intros (H1 & H2 & H3 & H4). split; [|split; [|split]]; intros E.
  - eapply str_fit_any. by apply H1.
  - eapply str_fit_any. by apply H2.
  - eapply str_fit_any. by apply H3.
  - destruct (H4 E) as (z & -> & _). by exists z.
Qed.

Lemma login_body_step m it n v a :
  at_field m it n v -> login_field n v -> login_shape a -> login_body m it a = Ok (Next (login_step n v a)).
Proof.
  intros Hf Hn [[_ U] (_ & _ & P) [_ T] _]. apply login_body_sized; [done|by apply login_field_fit|done].
Qed.

Lemma login_locals_shape : login_shape login_locals.
Proof. split; cbn [login_locals l_uid l_pwd l_token l_expire]; [|split; [by exists []|]|split; [by exists []|]|lia].
  - split; [|done]. split; [by exists []|]. split; [constructor|done].
  - split; [constructor|done].
  - done.
Qed.

Lemma login_request pack f :
  carries pack f -> all_fields login_field f ->
  read_request pack login_body login_locals = Ok (login_read f) /\ login_shape (login_read f).
Proof.
  intros Hc Hf. eapply read_request_spec; [done|exact Hf|apply login_locals_shape| |].
  - intros. by apply login_body_step.
  - intros. by apply login_step_shape.
Qed.

End handlers.
End ResAccount.
