(* ===== verification/AccountSpec.v ===== *)
(** * AccountSpec: what the account handlers do

    The world of a handler is, to its callers, a list of sessions and a list of accounts
    ([ready]). For requests that respect the sizes of the handlers' arrays the handlers are
    functions of these lists; the theorems give the answer and the lists after it on every branch,
    and the requests on which the code does something else. *)
From Stdlib Require Import String.
From S2P Require Import Prelude Alloc Cstr Bson Packet PackLoop Session Sha Fmt Sql Dbp Accounts Guid ResAccount Words.
From stdpp Require Import gmap.
Import Alloc Cstr Bson Packet PackLoop Session Pwd Fmt Sql Dbp Accounts Guid ResAccount Words.
Open Scope Z_scope.

Module AccountSpec.

(** A literal name of a field. *)
Ltac name_lit := split; [repeat (apply Forall_cons_2; [discriminate|]); apply Forall_nil_2|reflexivity].

Section spec.
Context `{S : Sqlite} {SL : SqliteLaws S} {Rest : tables -> Prop} {HRest : Framed Rest}.
#[local] Set Default Proof Using "Type*".

Record ready (w : world) (T : list session) (A : list acct) : Prop := {
  rd_sess : sess_table (w_sess w) T;
  rd_dbp : exists d Tb, w_dbp w = Some d /\ idle d Tb /\ accounts Rest Tb A;
  rd_pal : w_pal w = [];
}.

(** The uninitialised locals have the sizes of their types; sixteen random bytes. *)
Record env_ok (e : env) : Prop := {
  eo_uuid : length (e_uuid e) = 16%nat;
  eo_uid : zlen (uid (e_session e)) = 17;
  eo_token : zlen (token (e_session e)) = 39;
  eo_account : account_sized (e_account e);
  eo_type : is_i32 (acc_type (e_account e));
}.

Lemma new_pack_ready w T A : ready w T A -> new_pack w = Ok (fresh, w).
Proof.
  intros [_ _ Hp]. unfold new_pack. rewrite Hp, pack_new_fresh. cbn [mbind res_bind]. destruct w. cbn in *. by subst.
Qed.

Lemma ready_sess w T A sw T' : ready w T A -> sess_table sw T' -> ready (set_sess w sw) T' A.
Proof. intros [_ Hd Hp] HT. by split. Qed.

Lemma get_one_ready w T A u old :
  ready w T A -> plain 256 u -> (forall a, old = Some a -> account_sized a) ->
  exists w', ready w' T A /\ get_one w u old
    = Ok (match find_acct A (text u) with
          | Some a => (1, record_of a <$> old, w')
          | None => (0, old, w')
          end).
Proof.
  intros [Hs (d & Tb & Ed & I & HA) Hp] Hu Ho. destruct (get_one_spec d Tb A u old I HA Hu Ho) as (d' & I' & E).
  exists (set_dbp w (Some d')). split; [split; [done|by exists d', Tb|done]|].
  unfold get_one, dbp_of. rewrite Ed. cbn [mbind res_bind]. rewrite E. by destruct (find_acct A (text u)).
Qed.

Lemma pwd_check_ready w T A u p :
  ready w T A -> plain 256 u -> a_pwd p ->
  exists w', ready w' T A /\ pwd_check w u p = Ok (if pwd_matches A (text u) (text p) then 1 else 0, w').
Proof.
  intros [Hs (d & Tb & Ed & I & HA) Hp] Hu (P1 & P2 & P3).
  destruct (pwd_check_spec d Tb A u p I HA Hu P1 P2 P3) as (d' & I' & E).
  exists (set_dbp w (Some d')). split; [split; [done|by exists d', Tb|done]|].
  unfold pwd_check, dbp_of. rewrite Ed. cbn [mbind res_bind]. by rewrite E.
Qed.

(** ** Answers *)

Definition result_is (r : Z) : fields := FCons f_result (VInt r) FNil.

(** The names and notes of the accounts are texts a packet takes. *)
Definition legible (A : list acct) : Prop :=
  Forall (fun a => utf8_ok (ac_uid a) = true /\ utf8_ok (ac_nick a) = true /\ utf8_ok (ac_comment a) = true) A.

(** A handler answers with the packet of [f] and leaves the lists [T] and [A]. *)
Definition answers (r : res (option ep_pack * world)) (f : fields) (T : list session) (A : list acct) : Prop :=
  exists p w', build_fields fresh f = Ok p /\ r = Ok (Some p, w') /\ ready w' T A.

Lemma answer_result w T A r : ready w T A -> is_i32 r -> answers (answer_int fresh r w) (result_is r) T A.
Proof.
  intros R Hr. destruct (build_finish (result_is r)) as (p & _ & E & _).
  { split; [split; [name_lit|by split]|]. cbn [result_is enc_fields enc_value]. rewrite !zlen_app, zlen_le_bytes. vm_compute. done. }
  exists p, w. split; [done|]. split; [|done]. unfold answer_int. cbn [result_is build_fields build_value] in E.
  destruct (ep_pack_append_int fresh f_result r); [|done]. cbn [mbind res_bind] in *. by simplify_eq.
Qed.

(** ** Login *)

(** The arrays of the sessions. *)
Definition sess_sized (T : list session) : Prop := Forall (fun s => zlen (uid s) = 17) T.

(** The users of the sessions are names that were read into arrays of seventeen characters. *)
Definition sess_plain (T : list session) : Prop := Forall (fun s => plain 16 (uid s) /\ zlen (uid s) = 17) T.

Definition uid_cells (e : env) (u : list Z) : list Z := u ++ 0 :: zdrop (zlen u + 1) (uid (e_session e)).

(** The session a login leaves: the account's type, and an [admin] nobody has set. *)
Definition login_session (e : env) (u : list Z) (ty d : Z) : session :=
  mk_session ty (uid_cells e u) (admin (e_session e)) session_fd (0 :: zdrop 1 (token (e_session e)))
    (e_now e) (time_expired (e_session e)) d (time_heatbeat (e_session e)).

Definition token_login_session (e : env) (u : list Z) (ty ex : Z) : session :=
  mk_session ty (uid_cells e u) (admin (e_session e)) session_token (guid_text (e_uuid e) ++ [0])
    (e_now e) ((e_now e).1 + ex * 86400, (e_now e).2) (-1) (time_heatbeat (e_session e)).

Definition new_token (T : list session) (e : env) (a : login_args) (ty : Z) : list session :=
  (add_spec (keep (by_uid session_token (l_uid a)) T) (token_login_session e (text (l_uid a)) ty (l_expire a))).2.

Definition account_fields (a : acct) (conflict : Z) : fields :=
  FCons f_type (VInt (ac_type a)) (FCons f_nick (VStr (ac_nick a)) (FCons f_comment (VStr (ac_comment a))
    (FCons f_result (VInt (login_result conflict)) FNil))).

Definition pwd_login_spec (T : list session) (A : list acct) (e : env) (d : Z) (a : login_args) : fields * list session :=
  match find_acct A (text (l_uid a)) with
  | None => (result_is account_r_login_user_not_exist, T)
  | Some x =>
      if bool_decide (ac_hash x = pwd_hash (text (l_pwd a))) then
        let T1 := clear T (l_uid a) d ++ [login_session e (text (l_uid a)) (ac_type x) d] in
        let f := account_fields x (clash T (l_uid a) d) in
        if 0 <? l_expire a then (FCons f_token (VStr (guid_text (e_uuid e))) f, new_token T1 e a (ac_type x)) else (f, T1)
      else (result_is account_r_login_invalid_user_or_pwd, T)
  end.

Lemma plain_mono k k' u : plain k u -> k <= k' -> plain k' u.
Proof. intros (H1 & H2 & H3) L. split; [done|]. split; [done|]. lia. Qed.

Lemma shape_pwd a : login_shape a -> a_pwd (l_pwd a).
Proof.
  intros [_ (P1 & P2 & P3) _ _]. split; [done|]. split; [done|]. pose proof (text_short _ P1). unfold zlen in *. lia.
Qed.

Lemma record_text x old :
  acct_ok x -> let r := record_of x old in
  c_text (acc_nick r) = Ok (ac_nick x) /\ c_text (acc_comment r) = Ok (ac_comment x) /\ c_text (acc_uid r) = Ok (ac_uid x).
Proof.
  intros [[U _] _ _ [N _] [C _]]. unfold record_of, c_text. cbn [acc_nick acc_comment acc_uid].
  by rewrite !cstr_app.
Qed.

(** The answer of a login, a token first when there is one. *)
Lemma account_fields_fit x c :
  acct_ok x -> utf8_ok (ac_nick x) = true -> utf8_ok (ac_comment x) = true -> is_i32 (login_result c) ->
  fits (account_fields x c) /\ zlen (enc_fields (account_fields x c)) <= 1000.
Proof.
  intros [_ Ht _ [N1 N2] [C1 C2]] U1 U2 Hc.
  assert (fields_ok (account_fields x c)) as Hf.
  { split; [name_lit|]. split; [done|]. split; [name_lit|]. split; [done|]. split; [name_lit|]. split; [done|].
    split; [name_lit|]. split; done. }
  assert (zlen (enc_fields (account_fields x c)) <= 1000) as Hl.
  { cbn [account_fields enc_fields enc_value type_code]. rewrite !zlen_app, !zlen_cons, !zlen_app, !zlen_le_bytes.
    change (zlen f_type) with 4. change (zlen f_nick) with 4. change (zlen f_comment) with 7. change (zlen f_result) with 6.
    change (zlen [0]) with 1. change (zlen (@nil Z)) with 0. lia. }
  split; [|done]. split; [done|]. unfold LIM. lia.
Qed.

Lemma append_account x old p c w' :
  acct_ok x ->
  (p1 ← ep_pack_append_int p f_type (acc_type (record_of x old));
   p2 ← append_cstr p1 f_nick (acc_nick (record_of x old));
   p3 ← append_cstr p2 f_comment (acc_comment (record_of x old));
   answer_int p3 (login_result c) w')
  = (p ← build_fields p (account_fields x c); Ok (Some p, w')).
Proof.
  intros Hx. destruct (record_text x old Hx) as (T1 & T2 & _). cbn [account_fields build_fields build_value].
  unfold append_cstr, answer_int. rewrite T1, T2. cbn [record_of acc_type mbind res_bind].
  destruct (ep_pack_append_int p f_type (ac_type x)) as [p1|]; [|done]. cbn [mbind res_bind].
  destruct (ep_pack_append_string p1 f_nick (ac_nick x)) as [p2|]; [|done]. cbn [mbind res_bind].
  destruct (ep_pack_append_string p2 f_comment (ac_comment x)) as [p3|]; [|done]. cbn [mbind res_bind].
  by destruct (ep_pack_append_int p3 f_result (login_result c)).
Qed.

Lemma uid_cells_text e u : no_zero u -> text (uid_cells e u) = u /\ terminated (uid_cells e u).
Proof. intros H. split; [by apply text_app|by apply terminated_app]. Qed.

Lemma expire_date_ok now ex : 0 < ex <= 24855 -> expire_date now ex = Ok (now.1 + ex * 86400, now.2).
Proof.
  intros H. unfold expire_date. rewrite c_int_ok by (unfold is_i32; lia). cbn [mbind res_bind].
  rewrite c_int_ok by (unfold is_i32; lia). cbn [mbind res_bind]. rewrite c_int_ok by (unfold is_i32; lia). cbn [mbind res_bind].
  do 2 f_equal. lia.
Qed.

(** The token: the user's old one goes, the new one is added and answered. *)
Lemma add_token_spec sw T e a ty d p :
  sess_table sw T -> env_ok e -> terminated (l_uid a) -> 0 < l_expire a <= 24855 -> sess_sized T ->
  exists sw', sess_table sw' (new_token T e a ty) /\
    add_token sw e (l_uid a) (login_session e (text (l_uid a)) ty d) (l_expire a) p
    = (p ← ep_pack_append_string p f_token (guid_text (e_uuid e)); Ok (p, sw')).
Proof.
  intros HT [E1 E2 E3 _ _] U1 Hpos HL.
  destruct (uid_cells_text e (text (l_uid a)) (text_no_zero _)) as [Tc Cc].
  unfold add_token. cbn [login_session time_created token uid a_type admin time_heatbeat].
  rewrite expire_date_ok by lia. cbn [mbind res_bind].
  rewrite guid_generate_ok; [|done|rewrite zlen_cons, zlen_zdrop by lia; lia]. cbn [mbind res_bind].
  change (mk_session ty _ _ session_token _ _ _ (-1) _) with (token_login_session e (text (l_uid a)) ty (l_expire a)).
  set (ts := token_login_session e (text (l_uid a)) ty (l_expire a)).
  assert (no_zero (guid_text (e_uuid e))) as Ng.
  { eapply Forall_impl; [apply guid_chars|]. unfold token_char. lia. }
  assert (exists sw1, sess_table sw1 (keep (by_uid session_token (l_uid a)) T) /\
    ('(r, old, w) ← session_ref_uid sw (l_uid a) session_token;
     (if r =? 1 then o ← session_at w old; u' ← strncpy (replicate 17 170) (uid o) 17; w ← dref w old;
        '(_, w) ← session_del_token w u'; Ok w else Ok w)) = Ok sw1) as (sw1 & HT1 & Ew).
  { destruct HT as (HT & L & U). pose proof (ref_uid_held sw T (l_uid a) session_token HT L U1) as R.
    destruct (List.find (by_uid session_token (l_uid a)) T) as [s|] eqn:F.
    - destruct R as (ad & w1 & -> & H1 & H2 & _). cbn [mbind res_bind Z.eqb Pos.eqb]. rewrite H1. cbn [mbind res_bind].
      apply List.find_some in F as [F1 F2]. apply andb_prop in F2 as [_ F2%bool_decide_eq_true].
      pose proof (t_ok _ _ HT) as Hok. unfold sess_sized in HL. rewrite List.Forall_forall in Hok, HL.
      destruct (terminated_split _ (ok_uid s (Hok s F1))) as [rest Er].
      assert (strncpy (replicate 17 170) (uid s) 17 = Ok (arr 17 (text (uid s)))) as ->.
      { unfold strncpy. rewrite Er at 1. pose proof (text_short _ (ok_uid s (Hok s F1))) as Sh. rewrite (HL s F1) in Sh.
        change (Z.to_nat 17) with 17%nat. rewrite strncpy_cells_rest by (try apply text_no_zero; unfold zlen in Sh; lia).
        cbn [mbind res_bind]. apply memcpy_whole; [done|]. unfold zlen. rewrite arr_len; [done|unfold zlen in Sh; lia]. }
      cbn [mbind res_bind]. rewrite H2. cbn [mbind res_bind].
      pose proof (text_short _ (ok_uid s (Hok s F1))) as Sh. rewrite (HL s F1) in Sh.
      destruct (arr_text 17 (text (uid s)) (text_no_zero _)) as [Ta Ca]; [unfold zlen in Sh; lia|].
      destruct (del_token_table sw T (arr 17 (text (uid s)))) as (r & w2 & -> & HT2); [by split|done|].
      exists w2. split; [|done]. replace (keep (by_uid session_token (l_uid a)) T) with (keep (by_uid session_token (arr 17 (text (uid s)))) T); [done|].
      apply keep_ext. intros t _. unfold by_uid. by rewrite Ta, F2.
    - rewrite R. cbn [mbind res_bind Z.eqb]. exists sw. split; [|done]. rewrite keep_all by done. by split. }
  destruct (session_ref_uid sw (l_uid a) session_token) as [[[r old] w1]|]; [|done]. cbn [mbind res_bind] in *.
  rewrite Ew. cbn [mbind res_bind].
  destruct (add_token_table sw1 _ ts HT1) as (sw2 & -> & HT2); [done|by apply (terminated_app _ [])|].
  cbn [mbind res_bind]. exists sw2. split; [done|]. unfold append_cstr, c_text.
  change (token (token_session ts)) with (guid_text (e_uuid e) ++ [0]). rewrite (cstr_app _ []) by done. cbn [mbind res_bind]. done.
Qed.

Lemma ready_in w T A x :
  ready w T A -> legible A -> In x A ->
  acct_ok x /\ utf8_ok (ac_uid x) = true /\ utf8_ok (ac_nick x) = true /\ utf8_ok (ac_comment x) = true.
Proof.
  intros [_ (d & Tb & _ & _ & HA) _] HL F. pose proof (as_ok _ _ HA) as Hok. unfold legible in HL.
  rewrite List.Forall_forall in HL, Hok. split; [by apply Hok|by apply HL].
Qed.

Lemma token_cleared (t : list Z) : 0 < zlen t -> memcpy t 0 [0] 1 = Ok (0 :: zdrop 1 t).
Proof. intros H. by rewrite memcpy_ok by (change (zlen [0]) with 1; lia). Qed.

Lemma Forall_filter {X} (P : X -> Prop) (q : X -> bool) l : Forall P l -> Forall P (List.filter q l).
Proof. rewrite !List.Forall_forall. intros H x [Hx _]%List.filter_In. by apply H. Qed.

Lemma ascii_utf8 s : Forall (fun c => 0 < c < 128) s -> utf8_ok s = true.
Proof.
  intros H. unfold utf8_ok, bson_check_string, bson_validate_string. cbn [andb]. apply Z.eqb_eq.
  generalize (le_n (length s)). generalize (length s) at 2 3. revert H. induction s as [|c s IH]; intros H n Hn; [by destruct n|].
  apply Forall_cons in H as [Hc H]. destruct n as [|n]; [cbn in Hn; lia|]. cbn [validate_scan andb].
  assert (trailingBytesForUTF8 c = 0) as -> by (unfold trailingBytesForUTF8; case_zbool; done).
  rewrite zlen_cons. pose proof (zlen_nonneg s). change (0 + 1) with 1. destruct (Z.ltb_spec (1 + zlen s) 1); [lia|].
  assert (isLegalUTF8 (c :: s) 1 = true) as -> by (unfold isLegalUTF8; cbn; case_zbool; done). cbn [negb].
  change (zdrop 1 (c :: s)) with s. apply IH; [done|]. cbn in Hn. lia.
Qed.

Lemma token_first_fits e f :
  env_ok e -> fits f -> zlen (enc_fields f) <= 1000 -> fits (FCons f_token (VStr (guid_text (e_uuid e))) f).
Proof.
  intros He [Hf _] Hl. pose proof (guid_len _ (eo_uuid e He)) as Lg.
  assert (name_ok (guid_text (e_uuid e))) as Hn.
  { split.
    - eapply Forall_impl; [apply guid_chars|]. unfold token_char. lia.
    - apply ascii_utf8. eapply Forall_impl; [apply guid_chars|]. unfold token_char. lia. }
  split; [split; [name_lit|by split]|]. cbn [enc_fields enc_value type_code].
  rewrite !zlen_app, !zlen_cons, !zlen_app, !zlen_le_bytes, Lg. change (zlen f_token) with 5. change (zlen [0]) with 1. change (zlen (@nil Z)) with 0.
  unfold LIM. lia.
Qed.

Lemma token_fields_fit e f :
  env_ok e -> fits f -> zlen (enc_fields f) <= 1000 ->
  exists p, build_fields fresh (FCons f_token (VStr (guid_text (e_uuid e))) f) = Ok p.
Proof. intros He Hf Hl. destruct (build_finish _ (token_first_fits e f He Hf Hl)) as (p & _ & E & _). by exists p. Qed.

Lemma sess_plain_sized T : sess_plain T -> sess_sized T.
Proof. intros H. eapply Forall_impl; [exact H|]. by intros s [_ ?]. Qed.

(** What a granted login leaves, for the account [x] that the table answers. *)
Definition grant_spec (T : list session) (e : env) (d : Z) (a : login_args) (x : acct) : fields * list session :=
  let T1 := clear T (l_uid a) d ++ [login_session e (text (l_uid a)) (ac_type x) d] in
  let f := account_fields x (clash T (l_uid a) d) in
  if 0 <? l_expire a then (FCons f_token (VStr (guid_text (e_uuid e))) f, new_token T1 e a (ac_type x)) else (f, T1).

Lemma login_grant_spec (Q : acct -> Prop) w T A e d a :
  ready w T A -> env_ok e -> d <> -1 -> legible A -> sess_sized T ->
  terminated (l_uid a) -> zlen (text (l_uid a)) <= 16 -> l_expire a <= 24855 ->
  (forall w T', ready w T' A -> exists w' x, ready w' T' A /\ In x A /\ Q x /\
     get_one w (l_uid a) (Some (e_account e)) = Ok (1, Some (record_of x (e_account e)), w')) ->
  exists x, Q x /\ answers (login_grant w e d a fresh) (grant_spec T e d a x).1 (grant_spec T e d a x).2 A.
Proof.
  intros R He Hd HL H17 U1 U3 Hex Hget. unfold login_grant, grant_spec.
  destruct (check_session_spec (w_sess w) T (l_uid a) d (rd_sess _ _ _ R) U1 Hd) as (sw3 & -> & HT3). cbn [mbind res_bind].
  pose proof (ready_sess w T A sw3 _ R HT3) as R3. destruct (Hget _ _ R3) as (w4 & x & R4 & Ix & Qx & E4). exists x. split; [done|].
  rewrite E4. cbn [mbind res_bind Z.eqb Pos.eqb negb].
  destruct (ready_in _ _ _ x R HL Ix) as (Hx & Ux & Nx & Cx).
  rewrite strcpy_ok; [|done|rewrite (eo_uid e He); lia]. cbn [mbind res_bind].
  rewrite token_cleared by (rewrite (eo_token e He); lia). cbn [mbind res_bind].
  change (set_login _ _ _ _ _ _) with (login_session e (text (l_uid a)) (ac_type x) d).
  set (s := login_session e (text (l_uid a)) (ac_type x) d).
  destruct (uid_cells_text e (text (l_uid a)) (text_no_zero _)) as [Tc Cc].
  destruct (add_fd_table (w_sess w4) _ s (rd_sess _ _ _ R4)) as (sw5 & -> & HT5); [done|by exists []|done|].
  cbn [mbind res_bind]. change (fd_session s) with s in *.
  pose proof (add_after_clear T (l_uid a) s (t_ok _ _ (proj1 (rd_sess _ _ _ R))) eq_refl Tc) as Ea.
  change (fd s) with d in Ea. rewrite Ea in *.
  destruct (account_fields_fit x (clash T (l_uid a) d) Hx Nx Cx) as [Ff Fl].
  { unfold login_result, clash. by destruct (existsb _ _ || _). }
  cbn [fst snd] in *. destruct (Z.ltb_spec 0 (l_expire a)) as [Ex|Ex].
  - destruct (add_token_spec sw5 _ e a (ac_type x) d fresh HT5 He U1 ltac:(lia)) as (sw6 & HT6 & E6).
    { apply Forall_app. split; [by apply Forall_filter, Forall_filter|]. apply Forall_singleton. cbn [s login_session uid].
      unfold uid_cells. rewrite zlen_app, zlen_cons, zlen_zdrop, (eo_uid e He) by (pose proof (zlen_nonneg (text (l_uid a))); lia).
      pose proof (zlen_nonneg (text (l_uid a))). lia. }
    fold s in E6. rewrite E6. destruct (token_fields_fit e _ He Ff Fl) as [p Ep]. exists p, (set_sess w4 sw6). cbn [fst snd]. split; [done|].
    split; [|by apply (ready_sess _ _ _ _ _ R4)].
    cbn [build_fields build_value] in Ep. destruct (ep_pack_append_string fresh f_token (guid_text (e_uuid e))) as [p1|]; [|done].
    cbn [mbind res_bind] in *. rewrite append_account by done. by rewrite Ep.
  - cbn [mbind res_bind fst snd]. rewrite append_account by done.
    destruct (build_finish _ Ff) as (p & _ & Ep & _). exists p, (set_sess w4 sw5). split; [done|]. rewrite Ep.
    split; [done|by apply (ready_sess _ _ _ _ _ R4)].
Qed.

Lemma login_by_pwd_spec w T A e d a :
  ready w T A -> env_ok e -> d <> -1 -> login_shape a -> legible A -> sess_plain T ->
  answers (login_by_pwd w e d a fresh) (pwd_login_spec T A e d a).1 (pwd_login_spec T A e d a).2 A.
Proof.
  intros R He Hd Ha HL H17. pose proof (shape_pwd a Ha) as Hp. destruct (ls_uid a Ha) as [Hu Lu].
  pose proof (plain_mono 16 256 _ Hu ltac:(lia)) as Hu'.
  unfold login_by_pwd, pwd_login_spec.
  destruct (get_one_ready w T A (l_uid a) None R Hu') as (w1 & R1 & E1); [done|]. rewrite E1. cbn [mbind res_bind].
  destruct (find_acct A (text (l_uid a))) as [x|] eqn:F; [|cbn; by apply answer_result].
  cbn [mbind res_bind Z.eqb Pos.eqb negb fmap option_fmap option_map].
  destruct (pwd_check_ready w1 T A (l_uid a) (l_pwd a) R1 Hu' Hp) as (w2 & R2 & E2). rewrite E2. cbn [mbind res_bind].
  unfold pwd_matches. rewrite F. destruct (bool_decide (ac_hash x = pwd_hash (text (l_pwd a)))) eqn:Eh;
    [|cbn; by apply answer_result]. cbn [Z.eqb Pos.eqb negb].
  destruct (login_grant_spec (fun y => y = x) w2 T A e d a R2 He Hd HL) as (y & -> & HG); try done;
    [by apply sess_plain_sized|apply Hu|apply Hu|apply Ha|].
  intros w' T' R'. destruct (get_one_ready w' T' A (l_uid a) (Some (e_account e)) R' Hu') as (w4 & R4 & E4); [intros ? [= <-]; apply He|].
  rewrite F in E4. exists w4, x. split; [done|]. split; [by apply find_acct_some in F as [? _]|]. by split.
Qed.

(** A token's session, moved to the connection [d]. *)
Definition moved (s : session) (d : Z) : session := fd_session (set_fd s d).

Definition token_fields (a : acct) (conflict : Z) : fields :=
  FCons f_type (VInt (ac_type a)) (FCons f_uid (VStr (ac_uid a)) (FCons f_nick (VStr (ac_nick a))
    (FCons f_comment (VStr (ac_comment a)) (FCons f_result (VInt (login_result conflict)) FNil)))).

(** The session is added before the account is looked up. *)
Definition token_login_spec (T : list session) (A : list acct) (d : Z) (a : login_args) : fields * list session :=
  match List.find (by_token (l_token a)) T with
  | None => (result_is account_r_session_expired, T)
  | Some s =>
      let T1 := clear T (uid s) d ++ [moved s d] in
      match find_acct A (text (uid s)) with
      | None => (result_is account_r_login_user_not_exist, T1)
      | Some x => (token_fields x (clash T (uid s) d), T1)
      end
  end.

Lemma token_fields_build x c :
  acct_ok x -> utf8_ok (ac_uid x) = true -> utf8_ok (ac_nick x) = true -> utf8_ok (ac_comment x) = true ->
  is_i32 (login_result c) -> exists p, build_fields fresh (token_fields x c) = Ok p.
Proof.
  intros [[X1 X2] Ht _ [N1 N2] [C1 C2]] U0 U1 U2 Hc. destruct (build_finish (token_fields x c)) as (p & _ & E & _); [|by exists p].
  split.
  { split; [name_lit|]. split; [done|]. split; [name_lit|]. split; [done|]. split; [name_lit|]. split; [done|].
    split; [name_lit|]. split; [done|]. split; [name_lit|]. split; done. }
  cbn [token_fields enc_fields enc_value type_code]. rewrite !zlen_app, !zlen_cons, !zlen_app, !zlen_le_bytes.
  change (zlen f_type) with 4. change (zlen f_nick) with 4. change (zlen f_comment) with 7. change (zlen f_result) with 6.
  change (zlen f_uid) with 3. change (zlen [0]) with 1. change (zlen (@nil Z)) with 0. unfold LIM. lia.
Qed.

Lemma login_by_token_spec w T A e d a :
  ready w T A -> env_ok e -> d <> -1 -> login_shape a -> legible A -> sess_plain T ->
  answers (login_by_token w e d a fresh) (token_login_spec T A d a).1 (token_login_spec T A d a).2 A.
Proof.
  intros R He Hd Ha HL H17. destruct (ls_token a Ha) as [Ht _]. destruct (rd_sess _ _ _ R) as (HT & L & U).
  unfold login_by_token, token_login_spec. pose proof (ref_token_held (w_sess w) T (l_token a) HT L Ht) as Rt.
  destruct (List.find (by_token (l_token a)) T) as [s|] eqn:Fs.
  2: { rewrite Rt. cbn [mbind res_bind Z.eqb negb fst snd]. apply answer_result; [|done]. by apply (ready_sess _ T). }
  destruct Rt as (ad & w1 & -> & H1 & H2 & _). cbn [mbind res_bind Z.eqb Pos.eqb negb]. rewrite H1. cbn [mbind res_bind].
  apply List.find_some in Fs as [Fs _]. pose proof (t_ok _ _ HT) as Hok.
  assert (sess_ok s) as Hs by (rewrite List.Forall_forall in Hok; by apply Hok).
  assert (plain 16 (uid s)) as Hu by (unfold sess_plain in H17; rewrite List.Forall_forall in H17; by apply H17).
  rewrite token_cleared by (destruct (terminated_split _ (ok_token s Hs)) as [rest ->]; rewrite zlen_app, zlen_cons;
    pose proof (zlen_nonneg (text (token s))); pose proof (zlen_nonneg rest); lia). cbn [mbind res_bind].
  rewrite H2. cbn [mbind res_bind].
  change (set_token _ _) with (moved s d). change (uid (moved s d)) with (uid s).
  destruct (check_session_spec (w_sess w) T (uid s) d (rd_sess _ _ _ R) (proj1 Hu) Hd) as (sw3 & -> & HT3). cbn [mbind res_bind].
  destruct (add_fd_table sw3 _ (moved s d) HT3) as (sw4 & -> & HT4); [apply Hs|by exists []|done|]. cbn [mbind res_bind].
  change (fd_session (moved s d)) with (moved s d) in *.
  pose proof (add_after_clear T (uid s) (moved s d) Hok eq_refl eq_refl) as Ea. change (fd (moved s d)) with d in Ea.
  rewrite Ea in HT4. cbn [fst snd] in HT4. change (uid (moved s d)) with (uid s).
  pose proof (ready_sess w T A sw4 _ R HT4) as R4.
  destruct (get_one_ready _ _ A (uid s) (Some (e_account e)) R4 (plain_mono 16 256 _ Hu ltac:(lia))) as (w5 & R5 & E5);
    [intros ? [= <-]; apply He|]. rewrite E5.
  destruct (find_acct A (text (uid s))) as [x|] eqn:F.
  2: { cbn [mbind res_bind Z.eqb negb fst snd]. by apply answer_result. }
  cbn [mbind res_bind Z.eqb Pos.eqb negb fmap option_fmap option_map fst snd].
  destruct (ready_in _ _ _ x R HL (proj1 (find_acct_some _ _ _ F))) as (Hx & Ux & Nx & Cx).
  destruct (token_fields_build x (clash T (uid s) d) Hx Ux Nx Cx) as [p Ep].
  { unfold login_result, clash. by destruct (existsb _ _ || _). }
  exists p, w5. split; [done|]. split; [|done]. destruct (record_text x (e_account e) Hx) as (T1 & T2 & T3).
  cbn [token_fields build_fields build_value] in Ep. unfold append_cstr, answer_int. rewrite T1, T2, T3.
  cbn [record_of acc_type mbind res_bind].
  destruct (ep_pack_append_int fresh f_type (ac_type x)) as [p1|]; [|done]. cbn [mbind res_bind] in *.
  destruct (ep_pack_append_string p1 f_uid (ac_uid x)) as [p2|]; [|done]. cbn [mbind res_bind] in *.
  destruct (ep_pack_append_string p2 f_nick (ac_nick x)) as [p3|]; [|done]. cbn [mbind res_bind] in *.
  destruct (ep_pack_append_string p3 f_comment (ac_comment x)) as [p4|]; [|done]. cbn [mbind res_bind] in *.
  destruct (ep_pack_append_int p4 f_result (login_result (clash T (uid s) d))); [|done]. cbn [mbind res_bind] in *. by simplify_eq.
Qed.

(** Which way a login goes: a name and a password, else a token of 38 characters. *)
Definition login_spec (T : list session) (A : list acct) (e : env) (d : Z) (a : login_args) : fields * list session :=
  if negb (bool_decide (text (l_uid a) = [])) && negb (bool_decide (text (l_pwd a) = [])) then pwd_login_spec T A e d a
  else if zlen (text (l_token a)) =? 38 then token_login_spec T A d a
  else (result_is account_r_illegal_parameter, T).

Lemma first_char_text buf : terminated buf -> exists c, first_char buf = Ok c /\ (c =? 0) = bool_decide (text buf = []).
Proof.
  intros [rest E]%terminated_split. pose proof (text_no_zero buf) as N. destruct (text buf) as [|c s] eqn:Et; rewrite E.
  - by exists 0.
  - exists c. split; [done|]. apply Forall_cons in N as [N _]. rewrite bool_decide_eq_false_2 by done. by destruct (Z.eqb_spec c 0).
Qed.

Lemma valid_string_text n buf :
  terminated buf -> zlen (text buf) <= n -> valid_string n buf = Ok (negb (bool_decide (text buf = []))).
Proof.
  intros H L. unfold valid_string. destruct (first_char_text buf H) as (c & -> & E0). cbn [mbind res_bind]. rewrite E0.
  destruct (bool_decide (text buf = [])); [done|]. rewrite strlen_text by done. cbn [mbind res_bind negb]. f_equal. lia.
Qed.

Lemma valid_string_gen n buf :
  terminated buf -> valid_string n buf = Ok (negb (bool_decide (text buf = [])) && (zlen (text buf) <=? n)).
Proof.
  intros H. unfold valid_string. destruct (first_char_text buf H) as (c & -> & E0). cbn [mbind res_bind]. rewrite E0.
  destruct (bool_decide (text buf = [])); [done|]. by rewrite strlen_text.
Qed.

Lemma valid_token_text buf : terminated buf -> valid_token buf = Ok (zlen (text buf) =? 38).
Proof.
  intros H. unfold valid_token. destruct (first_char_text buf H) as (c & -> & E0). cbn [mbind res_bind]. rewrite E0.
  destruct (bool_decide (text buf = [])) eqn:E; [apply bool_decide_eq_true in E; by rewrite E|].
  by rewrite strlen_text.
Qed.

(** ** Logout *)

Definition logout_spec (T : list session) (d : Z) : fields * list session :=
  match List.find (by_fd d) T with
  | None => (result_is account_r_session_expired, T)
  | Some _ => (result_is account_r_ok, keep (by_fd d) T)
  end.

Lemma logout_refines w T A d :
  ready w T A -> d <> -1 -> answers (res_account_logout w d) (logout_spec T d).1 (logout_spec T d).2 A.
Proof.
  intros R Hd. unfold res_account_logout, logout_spec. rewrite (new_pack_ready _ _ _ R). cbn [mbind res_bind].
  destruct (rd_sess _ _ _ R) as (HT & L & U). pose proof (ref_fd_held (w_sess w) T d HT L U Hd) as Rf.
  destruct (List.find (by_fd d) T) as [s|].
  - destruct Rf as (a & w1 & -> & _ & H2 & _). cbn [mbind res_bind Z.eqb]. rewrite H2. cbn [mbind res_bind].
    destruct (del_fd_table (w_sess w) T d (rd_sess _ _ _ R)) as (r & w2 & -> & HT2). cbn [mbind res_bind fst snd].
    apply answer_result; [|done]. by apply (ready_sess _ T).
  - rewrite Rf. cbn [mbind res_bind Z.eqb fst snd]. apply answer_result; [|done]. by apply (ready_sess _ T).
Qed.

(** ** Requests in a row *)

Lemma login_refines w T A e d pack f :
  ready w T A -> env_ok e -> d <> -1 -> carries pack f -> all_fields login_field f -> legible A -> sess_plain T ->
  answers (res_account_login w e d pack) (login_spec T A e d (login_read f)).1 (login_spec T A e d (login_read f)).2 A.
Proof.
  intros R He Hd Hc Hf HL HP. destruct (login_request pack f Hc Hf) as [E Ha]. set (a := login_read f) in *.
  unfold res_account_login. rewrite E. cbn [mbind res_bind]. rewrite (new_pack_ready _ _ _ R). cbn [mbind res_bind].
  destruct (ls_uid a Ha) as [(U1 & U2 & U3) _]. destruct (ls_pwd a Ha) as (P1 & P2 & P3). destruct (ls_token a Ha) as [K1 K2].
  unfold and_then, valid_uid, valid_pwd. rewrite (valid_string_text 16 (l_uid a) U1 U3). cbn [mbind res_bind].
  rewrite (valid_string_text 16 (l_pwd a)) by (try done; pose proof (text_short _ P1); unfold zlen in *; lia).
  unfold login_spec. destruct (negb (bool_decide (text (l_uid a) = []))), (negb (bool_decide (text (l_pwd a) = [])));
    cbn [mbind res_bind andb]; try by apply login_by_pwd_spec.
  all: rewrite valid_token_text by done; cbn [mbind res_bind]; destruct (zlen (text (l_token a)) =? 38);
    [by apply login_by_token_spec|by apply answer_result].
Qed.

(** A login answers and changes the sessions as its documentation says, on every branch. For a
    request whose strings fit the handler's arrays: an unknown user and a wrong password are refused
    and change nothing; the right password ends the user's other connection and whoever is logged in
    on this one, adds a session with the account's type, and says so when it ended one; with a number
    of days it replaces the user's token by a fresh one; a token moves its session to the connection;
    anything else is an illegal parameter. Every answer is a packet of the fields named, and the
    table of sessions, its lock and the database are ready for the next request. *)
Theorem account_login_correct w T A e d pack f :
  ready w T A -> env_ok e -> d <> -1 -> carries pack f -> all_fields login_field f -> legible A -> sess_plain T ->
  answers (res_account_login w e d pack) (login_spec T A e d (login_read f)).1 (login_spec T A e d (login_read f)).2 A.
Proof. apply login_refines. Qed.

Lemma clash_none T u d : clash T u d = 0 -> clear T u d = T /\ List.find (by_fd d) T = None.
Proof.
  unfold clash, clear. rewrite !find_existsb. destruct (List.find (by_uid session_fd u) T) eqn:E1; [done|].
  destruct (List.find (by_fd d) T) eqn:E2; [done|]. intros _. rewrite (keep_all (by_uid session_fd u)) by done.
  by rewrite keep_all.
Qed.

Lemma find_snoc {X} (p : X -> bool) l x : List.find p l = None -> p x = true -> List.find p (l ++ [x]) = Some x.
Proof.
  intros H Hx. induction l as [|y l IH]; cbn [app List.find] in *; [by rewrite Hx|]. destruct (p y); [done|]. by apply IH.
Qed.

Lemma keep_app p T T' : keep p (T ++ T') = keep p T ++ keep p T'.
Proof. apply List.filter_app. Qed.

Lemma find_keep p T : List.find p (keep p T) = None.
Proof.
  induction T as [|t T IH]; [done|]. cbn [keep List.filter]. destruct (p t) eqn:E; cbn [negb]; [exact IH|]. cbn [List.find]. by rewrite E.
Qed.

Lemma find_keep_none p q T : List.find p T = None -> List.find p (keep q T) = None.
Proof.
  induction T as [|t T IH]; [done|]. cbn [keep List.find List.filter]. destruct (p t) eqn:E; [done|]. intros H.
  destruct (negb (q t)); [cbn [List.find]; rewrite E|]; by apply IH.
Qed.

(** The session of the connection that a login adds, and that a logout takes away again. *)
Lemma logout_drops T s d : List.find (by_fd d) T = None -> fd s = d -> keep (by_fd d) (T ++ [s]) = T.
Proof.
  intros H Hd. rewrite keep_app, (keep_all (by_fd d) T) by done. unfold keep. cbn [List.filter]. unfold by_fd at 1.
  rewrite Hd, Z.eqb_refl. cbn [negb]. apply app_nil_r.
Qed.

Lemma new_token_logout T s e a ty d :
  List.find (by_fd d) T = None -> s_type s = session_fd -> fd s = d -> d <> -1 ->
  is_Some (List.find (by_fd d) (new_token (T ++ [s]) e a ty)) /\ keep (by_fd d) (new_token (T ++ [s]) e a ty) = new_token T e a ty /\
  List.find (by_fd d) (new_token T e a ty) = None.
Proof.
  intros H Hs Hd Hn. unfold new_token. set (t := token_login_session _ _ _ _). set (K := keep (by_uid session_token (l_uid a)) T).
  assert (keep (by_uid session_token (l_uid a)) (T ++ [s]) = K ++ [s]) as ->.
  { rewrite keep_app. unfold keep at 2. cbn [List.filter]. unfold by_uid at 2. by rewrite (bool_decide_eq_false_2 (s_type s = session_token)) by (by rewrite Hs). }
  assert (List.find (by_fd d) K = None) as HK by by apply find_keep_none.
  assert (by_fd d t = false) as Ht by (apply Z.eqb_neq; cbn; congruence).
  assert (by_fd d s = true) as Hds by by apply Z.eqb_eq.
  assert (conflicts t s = false) as Hc by (unfold conflicts, is_token; cbn; by rewrite (bool_decide_eq_false_2 (s_type s = session_token)) by (by rewrite Hs)).
  unfold add_spec. rewrite existsb_app. cbn [existsb]. rewrite Hc, !orb_false_r.
  destruct (existsb (conflicts t) K); cbn [snd].
  - split; [rewrite (find_snoc _ K s) by done; by eexists|]. split; [by apply logout_drops|done].
  - rewrite keep_app, logout_drops by done. unfold keep at 1. cbn [List.filter]. rewrite Ht. cbn [negb]. split_and!; [|done|].
    + rewrite <- app_assoc. clear -HK Hds. induction K as [|k K IH]; cbn [app List.find] in *; [rewrite Hds; by eexists|].
      destruct (by_fd d k); [done|by apply IH].
    + clear -HK Ht. induction K as [|k K IH]; cbn [app List.find] in *; [by rewrite Ht|]. destruct (by_fd d k); [done|by apply IH].
Qed.

(** C17: A login with the right password followed by a logout on the same connection. The first is
    answered with the account, the token when one was asked for, and whether the user or the
    connection was logged in before; the second with success. No session is left on the connection.
    What is left are the sessions there were, without those of the user on another connection and of
    the connection, which the login ends; and the token of the user when the login asked for one,
    which a logout does not take back. So the sessions are as they were when nobody was logged in as
    the user or on the connection and no token was asked for. *)
Theorem account_login_logout w T A e d pack f x :
  ready w T A -> env_ok e -> d <> -1 -> carries pack f -> all_fields login_field f -> legible A -> sess_plain T ->
  let a := login_read f in
  find_acct A (text (l_uid a)) = Some x -> ac_hash x = pwd_hash (text (l_pwd a)) -> text (l_uid a) <> [] -> text (l_pwd a) <> [] ->
  let g := account_fields x (clash T (l_uid a) d) in let T0 := clear T (l_uid a) d in
  exists p1 w1 T', res_account_login w e d pack = Ok (Some p1, w1) /\
    build_fields fresh (if 0 <? l_expire a then FCons f_token (VStr (guid_text (e_uuid e))) g else g) = Ok p1 /\
    answers (res_account_logout w1 d) (result_is account_r_ok) T' A /\ List.find (by_fd d) T' = None /\
    T' = (if 0 <? l_expire a then new_token T0 e a (ac_type x) else T0) /\
    (l_expire a <= 0 -> clash T (l_uid a) d = 0 -> T' = T).
Proof.
  intros R He Hd Hc Hf HL HP a F Hh Hu Hp g T0.
  pose proof (login_refines w T A e d pack f R He Hd Hc Hf HL HP) as Hl. fold a in Hl.
  unfold login_spec, pwd_login_spec in Hl. rewrite !bool_decide_eq_false_2 in Hl by done. cbn [negb andb] in Hl.
  rewrite F, bool_decide_eq_true_2 in Hl by done. fold g T0 in Hl.
  assert (List.find (by_fd d) T0 = None) as HT0 by apply find_keep.
  destruct (new_token_logout T0 (login_session e (text (l_uid a)) (ac_type x) d) e a (ac_type x) d HT0 eq_refl eq_refl Hd) as (N1 & N2 & N3).
  assert (l_expire a <= 0 -> clash T (l_uid a) d = 0 -> T0 = T) as Hsame by (intros _ ?; by apply clash_none).
  destruct (Z.ltb_spec 0 (l_expire a)); cbn [fst snd] in Hl; destruct Hl as (p1 & w1 & Ep & Er & R1); exists p1, w1;
    pose proof (logout_refines w1 _ A d R1 Hd) as Ho; unfold logout_spec in Ho; eexists; (split; [exact Er|]); (split; [exact Ep|]).
  - destruct N1 as [y Ey]. rewrite Ey in Ho. cbn [fst snd] in Ho. split; [exact Ho|]. rewrite N2. split_and!; [done|done|lia].
  - rewrite (find_snoc _ T0) in Ho by (try done; apply Z.eqb_refl). cbn [fst snd] in Ho. split; [exact Ho|]. by rewrite logout_drops by done.
Qed.

(** A packet of the fields [f], as a client builds it. *)
Lemma packet_of f : fits f -> exists q, carries (Some q) f.
Proof.
  intros Hf. destruct (build_finish f Hf) as (p1 & p2 & _ & _ & _ & E). destruct Hf as [Hf Hl]. pose proof (zlen_nonneg (enc_fields f)).
  exists p2. split; [|split; [done|lia]]. unfold slice in E. destruct (_ && _); [|done]. injection E as E.
  exists (zdrop (zlen (enc_fields f) + 5) (ep_pack_data p2)). rewrite <- E. unfold zdrop, ztake. rewrite drop_0. by rewrite take_drop.
Qed.

End spec.
Arguments ready {S SL} Rest w T A.
Arguments answers {S SL} Rest r f T A.

(** ** A server with one cook *)

Section demo.
Import SqlToy.
#[local] Notation ready := (ready (fun _ => True)).
#[local] Notation answers := (answers (fun _ => True)).

Definition demo_sessions : sessions := mk_sessions [] [] false 0 [].
Definition demo_acct : acct := acct_of demo_account.

Definition demo_env : env :=
  mk_env (1400000000, 0) (replicate 16 7) (mk_session 0 (replicate 17 170) 0 session_fd (replicate 39 170) (0, 0) (0, 0) 0 (0, 0))
    (mk_account 0 (replicate 17 170) (replicate 129 170) (replicate 65 170) (replicate 257 170)).

Lemma demo_env_ok : env_ok demo_env.
Proof. by split. Qed.

Lemma demo_storable : storable demo_account.
Proof. split; by decide_now. Qed.

(** A server with one account. *)
Lemma world_with a : storable a -> exists w, ready w [] [acct_of a].
Proof.
  intros Ha. destruct (account_init_spec (Rest := fun _ => True) demo_dbp ∅ demo_dbp_idle (or_introl eq_refl)) as (d1 & T1 & _ & I1 & _ & HA1).
  specialize (HA1 I). destruct (account_add_spec d1 T1 [] a I1 HA1 Ha) as (d2 & T2 & a' & _ & I2 & HA2 & _); [done|].
  exists (mk_world demo_sessions (Some d2) []). split; [|by exists d2, T2|done].
  split; [|split; [done|split; constructor]]. by split; [constructor|constructor|constructor|].
Qed.

(** A connection on it. *)
Lemma world_session w A s :
  ready w [] A -> fd_session s = s -> terminated (uid s) -> terminated (token s) -> fd s <> -1 -> exists w', ready w' [s] A.
Proof.
  intros R Es Hu Ht Hd. destruct (add_fd_table (w_sess w) [] s (rd_sess _ _ _ R) Hu Ht Hd) as (sw & _ & HT). rewrite Es in HT.
  exists (set_sess w sw). by apply (ready_sess w []).
Qed.

Lemma demo_world : exists w, ready w [] [demo_acct].
Proof. apply world_with, demo_storable. Qed.

Lemma demo_legible : legible [demo_acct].
Proof. apply Forall_singleton. repeat split; vm_compute; done. Qed.

Definition demo_login : fields := FCons f_uid (VStr (lit "Bob")) (FCons f_pwd (VStr (lit "secret")) FNil).

Lemma demo_login_fits : fits demo_login /\ all_fields login_field demo_login.
Proof.
  split.
  - split; [|vm_compute; done]. split; [name_lit|]. split; [name_lit|]. split; [name_lit|]. split; [name_lit|done].
  - split; [|split; [|done]]; (split; [|split; [|split]]); intros E; try done;
      eexists; (split; [done|]); (split; [by decide_now|]); (split; [done|by decide_now]).
Qed.

Lemma account_login_correct_witness :
  exists w pack, answers (res_account_login w demo_env 5 pack)
    (login_spec [] [demo_acct] demo_env 5 (login_read demo_login)).1 (login_spec [] [demo_acct] demo_env 5 (login_read demo_login)).2 [demo_acct].
Proof.
  destruct demo_world as [w R]. destruct demo_login_fits as [F1 F2]. destruct (packet_of _ F1) as [q Hq]. exists w, (Some q).
  exact (account_login_correct w [] [demo_acct] demo_env 5 (Some q) demo_login R demo_env_ok ltac:(done) Hq F2 demo_legible ltac:(constructor)).
Defined.

Lemma account_login_logout_witness :
  exists w pack p1 w1, res_account_login w demo_env 5 pack = Ok (Some p1, w1) /\
    build_fields fresh (account_fields demo_acct 0) = Ok p1 /\ answers (res_account_logout w1 5) (result_is account_r_ok) [] [demo_acct].
Proof.
  destruct demo_world as [w R]. destruct demo_login_fits as [F1 F2]. destruct (packet_of _ F1) as [q Hq]. exists w, (Some q).
  pose proof (account_login_logout w [] [demo_acct] demo_env 5 (Some q) demo_login demo_acct R demo_env_ok ltac:(done) Hq F2 demo_legible (Forall_nil_2 _)
    ltac:(vm_compute; reflexivity) ltac:(vm_compute; reflexivity) ltac:(vm_compute; discriminate) ltac:(vm_compute; discriminate)) as X. cbv zeta in X.
  change (0 <? l_expire (login_read demo_login)) with false in X. cbv iota in X.
  destruct X as (p1 & w1 & T' & E1 & E2 & E3 & _ & E4 & _). exists p1, w1. split; [exact E1|]. split; [exact E2|]. rewrite E4 in E3. exact E3.
Defined.

End demo.
End AccountSpec.
