(* ===== verification/ResMenu.v ===== *)
(** * ResMenu: dishes, seats, cooks and the platform (server/res_dish.c, res_seat.c, res_cook.c,
    res_platform.c)

    The handlers of a waiter's tablet. Each looks the session of the connection up, checks its type,
    reads the request, and asks the tables of the menu. *)
From Stdlib Require Import String.
From S2P Require Import Prelude Alloc Cstr Bson Packet PackLoop Session Fmt Double Sql Dbp Records Accounts Menu ResAccount.
From stdpp Require Import gmap.
Import Alloc Cstr Bson Packet PackLoop Session Fmt Double Sql Dbp Records Accounts Menu ResAccount.
Open Scope Z_scope.

Module ResMenu.

(** dish_result, cook_result, verison_update_type *)
Definition dish_r_seat_id_invalid : Z := 3.
Definition dish_r_dish_id_invalid : Z := 4.
Definition dish_r_illegal_parameter : Z := 6.
Definition dish_r_service_unavailable : Z := 7.
Definition cook_r_ok : Z := 0.
Definition cook_r_seat_id_invalid : Z := 1.
Definition cook_r_dish_id_invalid : Z := 2.
Definition cook_r_no_permission : Z := 5.
Definition cook_r_illegal_parameter : Z := 6.
Definition verison_update_no_newest : Z := 0.
Definition version_illegal_parameter : Z := 3.
Definition platform_other : Z := 6.

Definition f_category : list Z := Eval vm_compute in lit "category".
Definition f_dish : list Z := Eval vm_compute in lit "dish".
Definition f_dish_one : list Z := Eval vm_compute in lit "dish_one".
Definition f_id : list Z := Eval vm_compute in lit "id".
Definition f_name : list Z := Eval vm_compute in lit "name".
Definition f_summary : list Z := Eval vm_compute in lit "summary".
Definition f_price_type : list Z := Eval vm_compute in lit "price_type".
Definition f_price : list Z := Eval vm_compute in lit "price".
Definition f_seat_id : list Z := Eval vm_compute in lit "seat_id".
Definition f_dish_id : list Z := Eval vm_compute in lit "dish_id".
Definition f_cook_id : list Z := Eval vm_compute in lit "cook_id".
Definition f_number : list Z := Eval vm_compute in lit "number".
Definition f_jin_or_plate : list Z := Eval vm_compute in lit "jin_or_plate".
Definition f_book : list Z := Eval vm_compute in lit "book".
Definition f_book_one : list Z := Eval vm_compute in lit "book_one".
Definition f_book_id : list Z := Eval vm_compute in lit "book_id".
Definition f_accept_state : list Z := Eval vm_compute in lit "accept_state".
Definition f_seat : list Z := Eval vm_compute in lit "seat".
Definition f_seat_one : list Z := Eval vm_compute in lit "seat_one".
Definition f_qrcode : list Z := Eval vm_compute in lit "qrcode".
Definition f_pid : list Z := Eval vm_compute in lit "pid".
Definition f_cur_ver_id : list Z := Eval vm_compute in lit "cur_ver_id".
Definition f_new_ver_id : list Z := Eval vm_compute in lit "new_ver_id".
Definition f_new_ver_string : list Z := Eval vm_compute in lit "new_ver_string".
Definition f_url : list Z := Eval vm_compute in lit "url".
Definition f_update_logs : list Z := Eval vm_compute in lit "update_logs".
Definition v_no_update : list Z := Eval vm_compute in lit "no need update current.".
Definition v_site : list Z := Eval vm_compute in lit "www.honeysense.com".

Section handlers.
Context `{S : Sqlite}.

(** The permission check of the handlers: [None] without a session, else whether its type is one
    of [types]. The reference is given back on every path. *)
Definition check_permission (w : world) (d : Z) (types : list Z) : res (option bool * world) :=
  '(r, s, sw) ← session_ref_fd (w_sess w) d;
  if r =? 0 then Ok (None, set_sess w sw) else
  sess ← session_at sw s;
  sw ← dref sw s;
  Ok (Some (existsb (Z.eqb (a_type sess)) types), set_sess w sw).

Definition refuse (w : world) (r : Z) : res (option ep_pack * world) :=
  '(p, w) ← new_pack w; answer_int p r w.

(** ** Reading numbers *)

(** One number by its name; the last one counts. *)
Definition int_body (name : list Z) (m : list Z) (iter : bson_iterator) (z : Z) : res (turn Z unit) :=
  _ ← ep_pack_iterator_type m iter;
  key ← ep_pack_iterator_key m iter;
  if decide (key = name) then z ← ep_pack_iterator_int m iter; Ok (Next z) else Ok (Next z).

(** ** res_dish_fetch *)

Fixpoint append_dishes (count : nat) (arr : list dish) (p : ep_pack) : res ep_pack :=
  match count, arr with
  | O, _ => Ok p
  | Datatypes.S _, [] => Fault OutOfBounds
  | Datatypes.S n, x :: arr =>
      p ← ep_pack_append_start_object p f_dish_one;
      p ← ep_pack_append_int p f_id (d_id x);
      p ← ep_pack_append_int p f_category (d_category x);
      p ← append_cstr p f_name (d_name x);
      p ← append_cstr p f_summary (d_summary x);
      p ← ep_pack_append_int p f_price_type (d_price_type x);
      p ← ep_pack_append_int p f_price (d_price x);
      p ← ep_pack_append_finish_object p;
      append_dishes n arr p
  end.

Definition res_dish_fetch (w : world) (d : Z) (pack : option ep_pack) : res (option ep_pack * world) :=
  '(ok, w) ← check_permission w d [account_menu; account_admin];
  if negb (default false ok) then refuse w dish_r_no_permission else
  category ← read_request pack (int_body f_category) dish_category_hot;
  '(p, w) ← new_pack w;
  db ← dbp_of w;
  '(count, arr, db) ← db_dish_get_by_category db category true;
  let w := set_dbp w (Some db) in
  p ← ep_pack_append_int p f_result dish_r_ok;
  p ← ep_pack_append_int p f_count count;
  if count =? 0 then Ok (Some p, w) else
  match arr with
  | None => Fault WildPointer
  | Some l =>
      p ← ep_pack_append_start_array p f_dish;
      p ← append_dishes (Z.to_nat count) l p;
      p ← ep_pack_append_finish_array p;
      _ ← db_dish_free arr;
      Ok (Some p, w)
  end.

(** ** res_dish_book *)

(** The locals of a booking; the quantity is a float. *)
Record book_args := mk_book_args { k_seat : Z; k_dish : Z; k_jin : Z; k_note : list Z }.

Definition book_body (m : list Z) (iter : bson_iterator) (a : book_args) : res (turn book_args unit) :=
  _ ← ep_pack_iterator_type m iter;
  key ← ep_pack_iterator_key m iter;
  if decide (key = f_seat_id) then
    z ← ep_pack_iterator_int m iter; Ok (Next (mk_book_args z (k_dish a) (k_jin a) (k_note a)))
  else if decide (key = f_dish_id) then
    z ← ep_pack_iterator_int m iter; Ok (Next (mk_book_args (k_seat a) z (k_jin a) (k_note a)))
  else if decide (key = f_jin_or_plate) then
    b ← ep_pack_iterator_double m iter; Ok (Next (mk_book_args (k_seat a) (k_dish a) (to_float b) (k_note a)))
  else if decide (key = f_comment) then
    s ← ep_pack_iterator_string m iter;
    c ← strncpy (k_note a) (s ++ [0]) 256; Ok (Next (mk_book_args (k_seat a) (k_dish a) (k_jin a) c))
  else Ok (Next a).

(** -1.0 *)
Definition minus_one : Z := 2 ^ 63 + 1023 * 2 ^ 52.

Definition book_locals : book_args := mk_book_args (-1) (-1) minus_one (local_string 256).

(** [strncpy] of [strlen] characters puts no final zero into [junk], which is what the stack holds
    where the array of the booking lies. *)
Definition copy_note (junk note : list Z) : res (list Z) :=
  l ← strlen note; strncpy junk note l.

Definition res_dish_book (w : world) (junk : list Z) (d : Z) (pack : option ep_pack) : res (option ep_pack * world) :=
  '(ok, w) ← check_permission w d [account_menu; account_admin];
  if negb (default false ok) then refuse w dish_r_no_permission else
  a ← read_request pack book_body book_locals;
  '(p, w) ← new_pack w;
  if (k_seat a <? 0) || (k_dish a <? 0) || le_zero (k_jin a) then answer_int p dish_r_illegal_parameter w else
  db ← dbp_of w;
  '(r, _, db) ← db_dish_get_one db (k_dish a) None;
  if r =? 0 then answer_int p dish_r_dish_id_invalid (set_dbp w (Some db)) else
  '(r, _, db) ← db_seat_get_one db (k_seat a) None;
  if r =? 0 then answer_int p dish_r_seat_id_invalid (set_dbp w (Some db)) else
  c ← copy_note junk (k_note a);
  '(r, db) ← db_book_add db (mk_book 0 (k_seat a) (k_dish a) (k_jin a) c book_accept_state_idle);
  let w := set_dbp w (Some db) in
  if r =? 0 then answer_int p dish_r_service_unavailable w else answer_int p dish_r_ok w.

(** ** res_dish_cancel *)

(** The number of the seat is passed where a booking's is expected. *)
Definition res_dish_cancel (w : world) (d : Z) (pack : option ep_pack) : res (option ep_pack * world) :=
  '(ok, w) ← check_permission w d [account_menu; account_admin];
  if negb (default false ok) then refuse w dish_r_no_permission else
  seat_id ← read_request pack (int_body f_seat_id) (-1);
  '(p, w) ← new_pack w;
  if seat_id <? 0 then answer_int p dish_r_illegal_parameter w else
  db ← dbp_of w;
  '(r, _, db) ← db_seat_get_one db seat_id None;
  if r =? 0 then answer_int p dish_r_seat_id_invalid (set_dbp w (Some db)) else
  '(r, db) ← db_book_del db seat_id;
  let w := set_dbp w (Some db) in
  if r =? 0 then answer_int p dish_r_service_unavailable w else answer_int p dish_r_ok w.

(** ** res_dish_list *)

Fixpoint append_books (count : nat) (arr : list book) (p : ep_pack) : res ep_pack :=
  match count, arr with
  | O, _ => Ok p
  | Datatypes.S _, [] => Fault OutOfBounds
  | Datatypes.S n, x :: arr =>
      p ← ep_pack_append_start_object p f_book_one;
      p ← ep_pack_append_int p f_book_id (b_book_id x);
      p ← ep_pack_append_int p f_seat_id (b_seat_id x);
      p ← ep_pack_append_int p f_dish_id (b_dish_id x);
      p ← ep_pack_append_double p f_jin_or_plate (b_jin_or_plate x);
      p ← append_cstr p f_comment (Menu.b_comment x);
      p ← ep_pack_append_int p f_accept_state (b_accept_state x);
      p ← ep_pack_append_finish_object p;
      append_books n arr p
  end.

Definition res_dish_list (w : world) (d : Z) (pack : option ep_pack) : res (option ep_pack * world) :=
  '(ok, w) ← check_permission w d [account_menu; account_admin];
  if negb (default false ok) then refuse w dish_r_no_permission else
  seat_id ← read_request pack (int_body f_seat_id) (-1);
  '(p, w) ← new_pack w;
  if seat_id <? 0 then answer_int p dish_r_illegal_parameter w else
  db ← dbp_of w;
  '(r, _, db) ← db_seat_get_one db seat_id None;
  if r =? 0 then answer_int p dish_r_seat_id_invalid (set_dbp w (Some db)) else
  '(count, arr, db) ← db_book_get db seat_id;
  let w := set_dbp w (Some db) in
  p ← ep_pack_append_int p f_result dish_r_ok;
  p ← ep_pack_append_int p f_count count;
  if count =? 0 then Ok (Some p, w) else
  match arr with
  | None => Fault WildPointer
  | Some l =>
      p ← ep_pack_append_start_array p f_book;
      p ← append_books (Z.to_nat count) l p;
      p ← ep_pack_append_finish_array p;
      Ok (Some p, w)
  end.

(** ** res_seat_list *)

Fixpoint append_seats (count : nat) (arr : list seat) (p : ep_pack) : res ep_pack :=
  match count, arr with
  | O, _ => Ok p
  | Datatypes.S _, [] => Fault OutOfBounds
  | Datatypes.S n, x :: arr =>
      p ← ep_pack_append_start_object p f_seat_one;
      p ← ep_pack_append_int p f_id (s_id x);
      p ← append_cstr p f_summary (s_summary x);
      p ← append_cstr p f_qrcode (s_qrcode x);
      p ← ep_pack_append_finish_object p;
      append_seats n arr p
  end.

(** Any session may list the seats. *)
Definition res_seat_list (w : world) (d : Z) : res (option ep_pack * world) :=
  '(ok, w) ← check_permission w d [];
  match ok with
  | None => refuse w dish_r_no_permission
  | Some _ =>
      '(p, w) ← new_pack w;
      db ← dbp_of w;
      '(count, arr, db) ← db_seat_get db;
      let w := set_dbp w (Some db) in
      p ← ep_pack_append_int p f_result dish_r_ok;
      p ← ep_pack_append_int p f_count count;
      if count =? 0 then Ok (Some p, w) else
      match arr with
      | None => Fault WildPointer
      | Some l =>
          p ← ep_pack_append_start_array p f_seat;
          p ← append_seats (Z.to_nat count) l p;
          p ← ep_pack_append_finish_array p;
          Ok (Some p, w)
      end
  end.

(** ** res_cook_accept *)

Record cook_args := mk_cook_args { a_seat : Z; a_cook : Z; a_number : Z }.

(** The cook's id is stored into the variable of the seat's. *)
Definition cook_body (m : list Z) (iter : bson_iterator) (a : cook_args) : res (turn cook_args unit) :=
  _ ← ep_pack_iterator_type m iter;
  key ← ep_pack_iterator_key m iter;
  if decide (key = f_seat_id) then
    z ← ep_pack_iterator_int m iter; Ok (Next (mk_cook_args z (a_cook a) (a_number a)))
  else if decide (key = f_cook_id) then
    z ← ep_pack_iterator_int m iter; Ok (Next (mk_cook_args z (a_cook a) (a_number a)))
  else if decide (key = f_number) then
    z ← ep_pack_iterator_int m iter; Ok (Next (mk_cook_args (a_seat a) (a_cook a) z))
  else Ok (Next a).

(** Without a session the answer is success. *)
Definition res_cook_accept (w : world) (d : Z) (pack : option ep_pack) : res (option ep_pack * world) :=
  '(ok, w) ← check_permission w d [account_cook; account_admin];
  match ok with
  | None => refuse w cook_r_ok
  | Some false => refuse w cook_r_no_permission
  | Some true =>
      a ← read_request pack cook_body (mk_cook_args (-1) (-1) (-1));
      '(p, w) ← new_pack w;
      if (a_seat a <? 0) || (a_cook a <? 0) || (a_number a <? 0) then answer_int p cook_r_illegal_parameter w else
      db ← dbp_of w;
      '(r, _, db) ← db_dish_get_one db (a_cook a) None;
      if r =? 0 then answer_int p cook_r_dish_id_invalid (set_dbp w (Some db)) else
      '(r, _, db) ← db_seat_get_one db (a_seat a) None;
      let w := set_dbp w (Some db) in
      if r =? 0 then answer_int p cook_r_seat_id_invalid w else answer_int p cook_r_ok w
  end.

(** ** res_platform.c *)

Record version_args := mk_version { v_pid : Z; v_cur : Z }.

Definition version_body (m : list Z) (iter : bson_iterator) (a : version_args) : res (turn version_args unit) :=
  _ ← ep_pack_iterator_type m iter;
  key ← ep_pack_iterator_key m iter;
  if decide (key = f_pid) then z ← ep_pack_iterator_int m iter; Ok (Next (mk_version z (v_cur a)))
  else if decide (key = f_cur_ver_id) then z ← ep_pack_iterator_int m iter; Ok (Next (mk_version (v_pid a) z))
  else Ok (Next a).

Definition valid_pid (pid : Z) : bool := (0 <=? pid) && (pid <=? platform_other).

Definition res_version_check (w : world) (pack : option ep_pack) : res (option ep_pack * world) :=
  a ← read_request pack version_body (mk_version (-1) (-1));
  '(p, w) ← new_pack w;
  if (v_cur a =? -1) || negb (valid_pid (v_pid a)) then answer_int p version_illegal_parameter w else
  p ← ep_pack_append_int p f_result verison_update_no_newest;
  p ← ep_pack_append_int p f_new_ver_id 1;
  p ← ep_pack_append_string p f_new_ver_string v_no_update;
  p ← ep_pack_append_string p f_url v_site;
  p ← ep_pack_append_string p f_update_logs v_site;
  Ok (Some p, w).

Definition set_heartbeat (s : session) (now : Z * Z) : session :=
  mk_session (a_type s) (uid s) (admin s) (s_type s) (token s) (time_created s) (time_expired s) (fd s) now.

(** The time is written through the reference. *)
Definition touch_session (w : sessions) (a : option nat) (now : Z * Z) : res sessions :=
  match a with
  | None => Fault NullDeref
  | Some a =>
      n ← h_load (w_nodes w) a;
      h ← h_store (w_nodes w) a (mk_node (set_heartbeat (n_session n) now) (n_ref n));
      Ok (set_nodes w h)
  end.

Definition res_heartbeat (w : world) (now : Z * Z) (d : Z) : res (option ep_pack * world) :=
  '(p, w) ← new_pack w;
  '(r, s, sw) ← session_ref_fd (w_sess w) d;
  if r =? 0 then answer_int p 0 (set_sess w sw) else
  sw ← touch_session sw s now;
  sw ← dref sw s;
  answer_int p 1 (set_sess w sw).

(** ** push.c *)

(** The message itself is commented out. *)
Definition service_push_login_conflict (d : Z) : Z := if d <=? 0 then 0 else 1.

End handlers.
End ResMenu.
