(* ===== verification/MenuRun.v ===== *)
(** * MenuRun: what the handlers of the menu do

    The world of the handlers is a list of sessions and the lists of dishes, seats and bookings
    ([served]). For requests within the sizes of their arrays the handlers are functions of these
    lists; the listing of a seat that has bookings, and an order a cook accepts, are shown to fail
    as they do. *)
From Stdlib Require Import String.
From S2P Require Import Prelude Alloc Cstr Words Bson Packet PackLoop Session Fmt Double Sql Dbp Records Accounts Menu MenuSpec ResAccount AccountSpec ResMenu.
From stdpp Require Import gmap.
Import Alloc Cstr Words Bson Packet PackLoop Session Fmt Double Sql Dbp Records Accounts Menu MenuSpec ResAccount AccountSpec ResMenu.
Open Scope Z_scope.

Module MenuRun.

(** The lists the handlers work on. *)
Record lists := mk_lists { l_sess : list session; l_dish : list dish_rec; l_seat : list seat_rec; l_book : list book_rec }.

(** What is known of the rest of the database: it does not depend on the bookings. *)
Class BookFramed (Rest : tables -> Prop) := book_framed : forall T T', others t_db_book T T' -> Rest T -> Rest T'.

Section spec.
Context `{S : Sqlite} {SL : SqliteLaws S} {Rest : tables -> Prop} {HRest : BookFramed Rest}.
#[local] Set Default Proof Using "Type*".

Definition menu_db (o : option dbp_inst) (L : lists) : Prop :=
  exists d T, o = Some d /\ idle d T /\ holds T (l_dish L) /\ holds T (l_seat L) /\ holds T (l_book L) /\ Rest T.

Record served (w : world) (L : lists) : Prop := {
  sv_sess : sess_table (w_sess w) (l_sess L);
  sv_db : menu_db (w_dbp w) L;
  sv_pal : w_pal w = [];
}.

(** A handler answers with the packet of [f] and leaves the lists [L]. *)
Definition serves (r : res (option ep_pack * world)) (f : fields) (L : lists) : Prop :=
  exists p w', build_fields fresh f = Ok p /\ r = Ok (Some p, w') /\ served w' L.

Lemma new_pack_served w L : served w L -> new_pack w = Ok (fresh, w).
Proof. intros [_ _ Hp]. unfold new_pack. rewrite Hp, pack_new_fresh. cbn [mbind res_bind]. destruct w. cbn in *. by subst. Qed.

Lemma serves_int w L r : served w L -> is_i32 r -> serves (answer_int fresh r w) (result_is r) L.
Proof.
  intros R Hr. destruct (build_finish (result_is r)) as (p & _ & E & _).
  { split; [split; [name_lit|by split]|]. cbn [result_is enc_fields enc_value]. rewrite !zlen_app, zlen_le_bytes. vm_compute. done. }
  exists p, w. split; [done|]. split; [|done]. unfold answer_int. cbn [result_is build_fields build_value] in E.
  destruct (ep_pack_append_int fresh f_result r); [|done]. cbn [mbind res_bind] in *. by simplify_eq.
Qed.

Lemma refuse_serves w L r : served w L -> is_i32 r -> serves (refuse w r) (result_is r) L.
Proof. intros R Hr. unfold refuse. rewrite (new_pack_served w L R). cbn [mbind res_bind]. by apply serves_int. Qed.

(** The permission check reads the session and leaves the world. *)
Definition permission (T : list session) (d : Z) (types : list Z) : option bool :=
  s ← List.find (by_fd d) T; Some (existsb (Z.eqb (a_type s)) types).

Lemma check_permission_spec w L d types :
  served w L -> d <> -1 -> check_permission w d types = Ok (permission (l_sess L) d types, w).
Proof.
  intros R Hd. destruct (sv_sess _ _ R) as (HT & Lk & U). unfold check_permission, permission.
  pose proof (ref_fd_held (w_sess w) (l_sess L) d HT Lk U Hd) as Rf. assert (set_sess w (w_sess w) = w) as Ew by by destruct w.
  destruct (List.find (by_fd d) (l_sess L)) as [s|].
  - destruct Rf as (ad & w1 & -> & H1 & H2 & _). cbn [mbind res_bind Z.eqb]. rewrite H1. cbn [mbind res_bind]. rewrite H2. cbn [mbind res_bind].
    by rewrite Ew.
  - rewrite Rf. cbn [mbind res_bind Z.eqb option_bind]. by rewrite Ew.
Qed.

(** ** Numbers of a request *)

Definition int_field (name n : list Z) (v : value) : Prop := n = name -> exists z, v = VInt z /\ is_i32 z.
Definition int_step (name n : list Z) (v : value) (z : Z) : Z :=
  if decide (n = name) then match v with VInt x => x | _ => z end else z.
Definition int_read (name : list Z) (init : Z) (f : fields) : Z := fold_request (int_step name) f init.

Lemma int_request name init pack f :
  is_i32 init -> carries pack f -> all_fields (int_field name) f ->
  read_request pack (int_body name) init = Ok (int_read name init f) /\ is_i32 (int_read name init f).
Proof.
  intros Hi Hc Hf. eapply (read_request_spec pack f _ (int_step name) _ is_i32); [done|exact Hf|done| |].
  - intros m it n v z Ha Hn _. unfold int_body, int_step. rewrite (field_type _ _ _ _ Ha). cbn [mbind res_bind].
    rewrite (field_key _ _ _ _ Ha). cbn [mbind res_bind]. case_decide; [|done]. destruct (Hn ltac:(done)) as (x & -> & _).
    by rewrite (field_int _ _ _ _ Ha).
  - intros n v z Hn Hz. unfold int_step. case_decide; [|done]. by destruct (Hn ltac:(done)) as (x & -> & Hx).
Qed.

(** ** Lists in an answer *)

Fixpoint objects (name : list Z) (fs : list fields) : fields :=
  match fs with [] => FNil | f :: fs => FCons name (VObj f) (objects name fs) end.

(** The result, the number of records and, when there are some, the records. *)
Definition records_fields (arr one : list Z) (fs : list fields) : fields :=
  FCons f_result (VInt dish_r_ok) (FCons f_count (VInt (zlen fs))
    (match fs with [] => FNil | _ => FCons arr (VArr (objects one fs)) FNil end)).

(** One record of at most a thousand bytes. *)
Definition small (f : fields) : Prop := fields_ok f /\ zlen (enc_fields f) <= 900.

Lemma objects_small one fs :
  name_ok one -> zlen one <= 20 -> Forall small fs -> fields_ok (objects one fs) /\ zlen (enc_fields (objects one fs)) <= 1000 * zlen fs.
Proof.
  intros Ho Lo. induction 1 as [|f fs [Hf Lf] _ [IH1 IH2]]; [done|]. split; [done|].
  cbn [objects enc_fields enc_value type_code]. unfold doc. autorewrite with ymlen. rewrite !zlen_le_bytes. change (zlen (@nil Z)) with 0. lia.
Qed.

Lemma records_fields_fits ar one fs :
  name_ok ar -> zlen ar <= 20 -> name_ok one -> zlen one <= 20 -> Forall small fs -> zlen fs <= 100000 -> fits (records_fields ar one fs).
Proof.
  intros Ha La Ho Lo Hs Hb. destruct (objects_small one fs Ho Lo Hs) as [H1 H2]. pose proof (zlen_nonneg fs). split.
  - split; [name_lit|]. split; [done|]. split; [name_lit|]. split; [cbn; unfold is_i32; lia|]. by destruct fs.
  - destruct fs as [|f fs]; [vm_compute; done|]. set (os := objects one (f :: fs)) in *.
    cbn [records_fields enc_fields enc_value type_code]. fold os. unfold doc. autorewrite with ymlen. rewrite !zlen_le_bytes.
    change (zlen f_result) with 6. change (zlen f_count) with 5. change (zlen (@nil Z)) with 0. unfold LIM. rewrite zlen_cons in *. lia.
Qed.

Lemma records_fields_build ar one fs :
  name_ok ar -> zlen ar <= 20 -> name_ok one -> zlen one <= 20 -> Forall small fs -> zlen fs <= 100000 ->
  exists p, build_fields fresh (records_fields ar one fs) = Ok p.
Proof.
  intros Ha La Ho Lo Hs Hb. destruct (build_finish _ (records_fields_fits ar one fs Ha La Ho Lo Hs Hb)) as (p & _ & E & _). by exists p.
Qed.

(** The shape of the loops that append records. *)
Lemma append_records {X Y} (app : nat -> list X -> ep_pack -> res ep_pack) ar one (out : Y -> X) (fld : Y -> fields) ys arr p (w : world)
    (free : option (list X) -> res unit) :
  (forall p, app (length ys) (map out ys) p = build_fields p (objects one (map fld ys))) ->
  default [] arr = map out ys -> (ys <> [] -> arr <> None) -> (forall l, free (Some l) = Ok tt) ->
  (p ← ep_pack_append_int p f_result dish_r_ok;
   p ← ep_pack_append_int p f_count (zlen ys);
   if zlen ys =? 0 then Ok (Some p, w) else
   match arr with
   | None => Fault WildPointer
   | Some l =>
       p ← ep_pack_append_start_array p ar;
       p ← app (Z.to_nat (zlen ys)) l p;
       p ← ep_pack_append_finish_array p;
       _ ← free arr;
       Ok (Some p, w)
   end : res (option ep_pack * world))
  = (p ← build_fields p (records_fields ar one (map fld ys)); Ok (Some p, w)).
Proof.
  intros Hl Ea Hne Hfree. unfold records_fields. cbn [build_fields build_value].
  assert (zlen (map fld ys) = zlen ys) as -> by (unfold zlen; by rewrite length_map).
  destruct (ep_pack_append_int p f_result dish_r_ok) as [p1|]; [|done]. cbn [mbind res_bind].
  destruct (ep_pack_append_int p1 f_count (zlen ys)) as [p2|]; [|done]. cbn [mbind res_bind].
  destruct ys as [|y ys]; [done|]. destruct (Z.eqb_spec (zlen (y :: ys)) 0) as [E0|E0]; [rewrite zlen_cons in E0; pose proof (zlen_nonneg ys); lia|].
  destruct arr as [l|]; [|by destruct Hne]. cbn [default from_option id] in Ea. subst l.
  change (map fld (y :: ys)) with (fld y :: map fld ys) at 1. cbn [build_fields build_value].
  destruct (ep_pack_append_start_array p2 ar) as [p3|]; [|done]. cbn [mbind res_bind].
  replace (Z.to_nat (zlen (y :: ys))) with (length (y :: ys)) by (unfold zlen; lia). rewrite Hl.
  destruct (build_fields p3 (objects one (map fld (y :: ys)))) as [p4|]; [|done]. cbn [mbind res_bind].
  destruct (ep_pack_append_finish_array p4) as [p5|]; [|done]. cbn [mbind res_bind]. by rewrite Hfree.
Qed.

(** ** Dishes of a category *)

Definition dish_fields (x : dish_rec) : fields :=
  FCons f_id (VInt (dr_id x)) (FCons f_category (VInt (dr_category x)) (FCons f_name (VStr (dr_name x)) (FCons f_summary (VStr (dr_summary x))
    (FCons f_price_type (VInt (dr_price_type x)) (FCons f_price (VInt (dr_price x)) FNil))))).

Definition seat_fields (x : seat_rec) : fields :=
  FCons f_id (VInt (sr_id x)) (FCons f_summary (VStr (sr_summary x)) (FCons f_qrcode (VStr (sr_qrcode x)) FNil)).

Definition dish_legible (x : dish_rec) : Prop := utf8_ok (dr_name x) = true /\ utf8_ok (dr_summary x) = true.
Definition seat_legible (x : seat_rec) : Prop := utf8_ok (sr_summary x) = true /\ utf8_ok (sr_qrcode x) = true.

Lemma dish_small x : dish_ok x -> dish_legible x -> small (dish_fields x).
Proof.
  intros ((N1 & N2 & N3 & N4) & [A1 A2] & [B1 B2] & _) [U1 U2]. apply natural_i32 in N1, N2, N3, N4. split.
  - split; [name_lit|]. split; [done|]. split; [name_lit|]. split; [done|]. split; [name_lit|]. split; [done|]. split; [name_lit|]. split; [done|].
    split; [name_lit|]. split; [done|]. split; [name_lit|]. by split.
  - cbn [dish_fields enc_fields enc_value type_code]. autorewrite with ymlen. rewrite !zlen_le_bytes.
    change (zlen f_id) with 2. change (zlen f_category) with 8. change (zlen f_name) with 4. change (zlen f_summary) with 7.
    change (zlen f_price_type) with 10. change (zlen f_price) with 5. change (zlen (@nil Z)) with 0. lia.
Qed.

Lemma seat_small x : seat_ok x -> seat_legible x -> small (seat_fields x).
Proof.
  intros (N1 & [A1 A2] & [B1 B2]) [U1 U2]. apply natural_i32 in N1. split.
  - split; [name_lit|]. split; [done|]. split; [name_lit|]. split; [done|]. split; [name_lit|]. by split.
  - cbn [seat_fields enc_fields enc_value type_code]. autorewrite with ymlen. rewrite !zlen_le_bytes.
    change (zlen f_id) with 2. change (zlen f_qrcode) with 6. change (zlen f_summary) with 7. change (zlen (@nil Z)) with 0. lia.
Qed.

Lemma c_text_out n s k x : no_zero s -> c_text (s ++ 0 :: zdrop k (replicate n x)) = Ok s.
Proof. intros H. unfold c_text. by rewrite cstr_app. Qed.

Lemma append_dishes_build ys : forall p,
  Forall dish_ok ys -> append_dishes (length ys) (map dish_out ys) p = build_fields p (objects f_dish_one (map dish_fields ys)).
Proof.
  induction ys as [|x ys IH]; intros p Hok; [done|]. apply Forall_cons in Hok as [(_ & [A1 _] & [B1 _] & _) Hok].
  cbn [length map append_dishes objects build_fields build_value dish_fields dish_out d_id d_category d_name d_summary d_price_type d_price].
  unfold append_cstr. rewrite !c_text_out by done.
  destruct (ep_pack_append_start_object p f_dish_one) as [p0|]; [|done]. cbn [mbind res_bind].
  destruct (ep_pack_append_int p0 f_id (dr_id x)) as [p1|]; [|done]. cbn [mbind res_bind].
  destruct (ep_pack_append_int p1 f_category (dr_category x)) as [p2|]; [|done]. cbn [mbind res_bind].
  destruct (ep_pack_append_string p2 f_name (dr_name x)) as [p3|]; [|done]. cbn [mbind res_bind].
  destruct (ep_pack_append_string p3 f_summary (dr_summary x)) as [p4|]; [|done]. cbn [mbind res_bind].
  destruct (ep_pack_append_int p4 f_price_type (dr_price_type x)) as [p5|]; [|done]. cbn [mbind res_bind].
  destruct (ep_pack_append_int p5 f_price (dr_price x)) as [p6|]; [|done]. cbn [mbind res_bind].
  destruct (ep_pack_append_finish_object p6) as [p7|]; [|done]. cbn [mbind res_bind]. by apply IH.
Qed.

Lemma append_seats_build ys : forall p,
  Forall seat_ok ys -> append_seats (length ys) (map seat_out ys) p = build_fields p (objects f_seat_one (map seat_fields ys)).
Proof.
  induction ys as [|x ys IH]; intros p Hok; [done|]. apply Forall_cons in Hok as [(_ & [A1 _] & [B1 _]) Hok].
  cbn [length map append_seats objects build_fields build_value seat_fields seat_out s_id s_summary s_qrcode].
  unfold append_cstr. rewrite !c_text_out by done.
  destruct (ep_pack_append_start_object p f_seat_one) as [p0|]; [|done]. cbn [mbind res_bind].
  destruct (ep_pack_append_int p0 f_id (sr_id x)) as [p1|]; [|done]. cbn [mbind res_bind].
  destruct (ep_pack_append_string p1 f_summary (sr_summary x)) as [p2|]; [|done]. cbn [mbind res_bind].
  destruct (ep_pack_append_string p2 f_qrcode (sr_qrcode x)) as [p3|]; [|done]. cbn [mbind res_bind].
  destruct (ep_pack_append_finish_object p3) as [p4|]; [|done]. cbn [mbind res_bind]. by apply IH.
Qed.

Definition waiter (L : lists) (d : Z) : bool := default false (permission (l_sess L) d [account_menu; account_admin]).

(** What a fetch of the category answers; [B] is the order of the database. *)
Definition fetch_answer (L : lists) (d c : Z) (B : list dish_rec) : fields :=
  if waiter L d then records_fields f_dish f_dish_one (map dish_fields (List.filter (fun x => dr_category x =? c) B))
  else result_is dish_r_no_permission.

Lemma filter_perm_map {X} (q : X -> bool) l l' : l ≡ₚ List.filter q l' -> exists B, B ≡ₚ l' /\ List.filter q B = l.
Proof.
  intros P. exists (l ++ List.filter (fun x => negb (q x)) l'). split.
  - rewrite P. clear P l. induction l' as [|x l' IH]; [done|]. cbn [List.filter]. destruct (q x); cbn [negb app].
    + by rewrite IH.
    + rewrite <- Permutation_middle. by rewrite IH.
  - rewrite List.filter_app. assert (Forall (fun x => q x = true) l) as Hl.
    { rewrite P. apply List.Forall_forall. by intros x [_ ?]%List.filter_In. }
    assert (List.filter q (List.filter (fun x => negb (q x)) l') = []) as ->.
    { clear. induction l' as [|x l' IH]; [done|]. cbn [List.filter]. destruct (q x) eqn:E; cbn [negb]; [done|]. cbn [List.filter]. by rewrite E. }
    rewrite app_nil_r. clear P. induction Hl as [|x l Hx _ IH]; [done|]. cbn [List.filter]. by rewrite Hx, IH.
Qed.

Lemma fetch_refines w L d pack f :
  served w L -> d <> -1 -> carries pack f -> all_fields (int_field f_category) f ->
  Forall dish_legible (l_dish L) -> zlen (l_dish L) <= 100000 -> 0 <= int_read f_category dish_category_hot f ->
  exists B, B ≡ₚ l_dish L /\ serves (res_dish_fetch w d pack) (fetch_answer L d (int_read f_category dish_category_hot f) B) L.
Proof.
  intros R Hd Hc Hf HL Hb Hpos. unfold res_dish_fetch, fetch_answer, waiter. rewrite (check_permission_spec w L) by done. cbn [mbind res_bind].
  destruct (default false (permission (l_sess L) d [account_menu; account_admin])); cbn [negb]; [|exists (l_dish L); split; [done|by apply refuse_serves]].
  destruct (int_request f_category dish_category_hot pack f) as [-> Hi]; [done|done|done|]. cbn [mbind res_bind].
  set (c := int_read f_category dish_category_hot f) in *. assert (natural c) as Hn by (unfold natural, INT_MAX, is_i32 in *; lia).
  rewrite (new_pack_served w L R). cbn [mbind res_bind]. destruct R as [Hs (db & T & Ed & I & HD & HS & HB & HR) Hp].
  unfold dbp_of. rewrite Ed. cbn [mbind res_bind].
  destruct (dish_get_spec db T (l_dish L) c I HD Hn) as (db' & ar & -> & I' & P & Hne). cbn [mbind res_bind].
  destruct (Permutation_map_inv dish_out _ P) as (ys & Ey & Py). symmetry in Py. destruct (filter_perm_map _ _ _ Py) as (B & PB & EB).
  exists B. split; [done|]. rewrite EB. assert (zlen (List.filter (fun x => dr_category x =? c) (l_dish L)) = zlen ys) as Ez by (unfold zlen; by rewrite Py).
  assert (Forall dish_ok ys) as Hok by (rewrite Py; exact (filter_forall _ _ _ (ho_ok _ _ HD))).
  assert (Forall dish_legible ys) as HLy by (rewrite Py; by apply filter_forall).
  assert (zlen ys <= 100000) as Hb' by (rewrite <- Ez; unfold zlen in *; pose proof (List.filter_length_le (fun x => dr_category x =? c) (l_dish L)); lia).
  rewrite Ez. rewrite (append_records append_dishes f_dish f_dish_one dish_out dish_fields ys ar fresh _ db_dish_free); [|intros p; by apply append_dishes_build|done| |done].
  2: { intros Hy. apply Hne. intros E. rewrite E in Py. by apply Permutation_nil_r in Py. }
  destruct (records_fields_build f_dish f_dish_one (map dish_fields ys)) as [p Ep]; [name_lit|done|name_lit|done| |unfold zlen in *; by rewrite length_map|].
  { apply Forall_map. rewrite List.Forall_forall in Hok, HLy |- *. intros x Hx. apply dish_small; auto. }
  exists p, (set_dbp w (Some db')). split; [exact Ep|]. rewrite Ep. split; [reflexivity|]. clear Ep. split; [exact Hs|by exists db', T|exact Hp].
Qed.

(** ** Seats *)

Definition seats_answer (L : lists) (d : Z) (B : list seat_rec) : fields :=
  match permission (l_sess L) d [] with
  | None => result_is dish_r_no_permission
  | Some _ => records_fields f_seat f_seat_one (map seat_fields B)
  end.

Lemma seat_list_refines w L d :
  served w L -> d <> -1 -> Forall seat_legible (l_seat L) -> zlen (l_seat L) <= 100000 ->
  exists B, B ≡ₚ l_seat L /\ serves (res_seat_list w d) (seats_answer L d B) L.
Proof.
  intros R Hd HL Hb. unfold res_seat_list, seats_answer. rewrite (check_permission_spec w L) by done. cbn [mbind res_bind].
  destruct (permission (l_sess L) d []); [|exists (l_seat L); split; [done|by apply refuse_serves]].
  rewrite (new_pack_served w L R). cbn [mbind res_bind]. destruct R as [Hs (db & T & Ed & I & HD & HS & HB & HR) Hp].
  unfold dbp_of. rewrite Ed. cbn [mbind res_bind].
  destruct (seat_get_spec db T (l_seat L) I HS) as (db' & ar & -> & I' & P & Hne). cbn [mbind res_bind].
  destruct (Permutation_map_inv seat_out _ P) as (ys & Ey & Py). exists ys. split; [done|].
  assert (zlen (l_seat L) = zlen ys) as Ez by (unfold zlen; by rewrite Py).
  assert (Forall seat_ok ys) as Hok by (rewrite <- Py; exact (ho_ok _ _ HS)). assert (Forall seat_legible ys) as HLy by by rewrite <- Py.
  rewrite Ez in *. pose proof (append_records append_seats f_seat f_seat_one seat_out seat_fields ys ar fresh (set_dbp w (Some db')) (fun _ => Ok tt)) as Ea.
  cbn [mbind res_bind] in Ea. rewrite Ea; [|intros p; by apply append_seats_build|done| |done].
  2: { clear Ea. intros Hy. apply Hne. intros E. rewrite E in Py. by apply Permutation_nil_l in Py. }
  clear Ea. destruct (records_fields_build f_seat f_seat_one (map seat_fields ys)) as [p Ep]; [name_lit|done|name_lit|done| |unfold zlen in *; by rewrite length_map|].
  { apply Forall_map. rewrite List.Forall_forall in Hok, HLy |- *. intros x Hx. apply seat_small; auto. }
  exists p, (set_dbp w (Some db')). split; [exact Ep|]. rewrite Ep. split; [reflexivity|]. clear Ep. split; [exact Hs|by exists db', T|exact Hp].
Qed.

(** ** Bookings *)

Definition set_books (L : lists) (B : list book_rec) : lists := mk_lists (l_sess L) (l_dish L) (l_seat L) B.
Definition has_dish (L : lists) (id : Z) : bool := existsb (fun x => dr_id x =? id) (l_dish L).
Definition has_seat (L : lists) (id : Z) : bool := existsb (fun x => sr_id x =? id) (l_seat L).

Definition book_field (n : list Z) (v : value) : Prop :=
  (n = f_seat_id -> exists z, v = VInt z /\ is_i32 z) /\
  (n = f_dish_id -> exists z, v = VInt z /\ is_i32 z) /\
  (n = f_jin_or_plate -> exists b, v = VDouble b) /\
  (n = f_comment -> str_fit 255 v no_quote).

Definition book_step (n : list Z) (v : value) (a : book_args) : book_args :=
  if decide (n = f_seat_id) then match v with VInt z => mk_book_args z (k_dish a) (k_jin a) (k_note a) | _ => a end
  else if decide (n = f_dish_id) then match v with VInt z => mk_book_args (k_seat a) z (k_jin a) (k_note a) | _ => a end
  else if decide (n = f_jin_or_plate) then match v with VDouble b => mk_book_args (k_seat a) (k_dish a) (to_float b) (k_note a) | _ => a end
  else if decide (n = f_comment) then match v with VStr s => mk_book_args (k_seat a) (k_dish a) (k_jin a) (arr 256 s) | _ => a end
  else a.

Definition book_read (f : fields) : book_args := fold_request book_step f book_locals.

Record book_shape (a : book_args) : Prop := {
  bs_seat : is_i32 (k_seat a);
  bs_dish : is_i32 (k_dish a);
  bs_note : terminated (k_note a) /\ length (k_note a) = 256%nat;
}.

Lemma book_request pack f :
  carries pack f -> all_fields book_field f -> read_request pack book_body book_locals = Ok (book_read f) /\ book_shape (book_read f).
Proof.
  intros Hc Hf. eapply (read_request_spec pack f _ book_step _ book_shape); [done|exact Hf| | |].
  - split; [done|done|]. split; [by exists []|done].
  - intros m it n v a Ha (H1 & H2 & H3 & H4) [B1 B2 [B3 B4]]. unfold book_body, book_step.
    rewrite (field_type _ _ _ _ Ha). cbn [mbind res_bind]. rewrite (field_key _ _ _ _ Ha). cbn [mbind res_bind]. repeat case_decide.
    + destruct (H1 ltac:(done)) as (z & -> & _). by rewrite (field_int _ _ _ _ Ha).
    + destruct (H2 ltac:(done)) as (z & -> & _). by rewrite (field_int _ _ _ _ Ha).
    + destruct (H3 ltac:(done)) as (z & ->). by rewrite (field_double _ _ _ _ Ha).
    + destruct (H4 ltac:(done)) as (s & -> & Z & K & Q). rewrite (field_str _ _ _ _ Ha). cbn [mbind res_bind]. unfold zlen in K.
      by rewrite (strncpy_arr _ s 256) by (try done; lia).
    + done.
  - intros n v a (H1 & H2 & H3 & H4) [B1 B2 B3]. unfold book_step. repeat case_decide.
    + by destruct (H1 ltac:(done)) as (z & -> & Hz).
    + by destruct (H2 ltac:(done)) as (z & -> & Hz).
    + by destruct (H3 ltac:(done)) as (z & ->).
    + destruct (H4 ltac:(done)) as (s & -> & Z & K & Q). assert (length s < 256)%nat as Ls by (unfold zlen in K; lia).
      destruct (arr_text 256 s Z Ls) as [_ Ct]. split; [done|done|]. split; [done|by apply arr_len].
    + by split.
Qed.

(** The note of a booking as it is stored: what was sent, and then what the stack held. *)
Definition stored_note (junk note : list Z) : list Z := text note ++ zdrop (zlen (text note)) junk.

Lemma copy_note_spec junk note :
  terminated note -> zlen (text note) <= zlen junk -> copy_note junk note = Ok (stored_note junk note).
Proof.
  intros Ht Hl. unfold copy_note. rewrite strlen_text by done. cbn [mbind res_bind]. pose proof (zlen_nonneg (text note)).
  destruct (terminated_split _ Ht) as [rest E]. unfold strncpy. rewrite E at 2. replace (Z.to_nat (zlen (text note))) with (length (text note)) by (unfold zlen; lia).
  rewrite strncpy_cells_text by apply text_no_zero. cbn [mbind res_bind]. rewrite memcpy_ok by lia. f_equal. unfold stored_note, splice.
  rewrite ztake_0 by lia. rewrite (ztake_all (zlen (text note))) by lia. done.
Qed.

Definition new_booking (junk : list Z) (a : book_args) : book :=
  mk_book 0 (k_seat a) (k_dish a) (k_jin a) (stored_note junk (k_note a)) book_accept_state_idle.

Definition book_spec (L : lists) (junk : list Z) (d : Z) (a : book_args) : fields * lists :=
  if negb (waiter L d) then (result_is dish_r_no_permission, L) else
  if (k_seat a <? 0) || (k_dish a <? 0) || le_zero (k_jin a) then (result_is dish_r_illegal_parameter, L) else
  if negb (has_dish L (k_dish a)) then (result_is dish_r_dish_id_invalid, L) else
  if negb (has_seat L (k_seat a)) then (result_is dish_r_seat_id_invalid, L) else
  (result_is dish_r_ok, set_books L (l_book L ++ [book_rec_of (next_book (l_book L)) (new_booking junk a)])).

(** A quantity that is a number, and a stack on which the note ends. *)
Definition booking_ok (junk : list Z) (a : book_args) : Prop :=
  is_finite (k_jin a) = true /\ zlen junk = 256 /\ plain 255 (stored_note junk (k_note a)).

Lemma positive_sign b : le_zero b = false -> is_finite b = true -> Z.testbit b 63 = false.
Proof.
  unfold le_zero, is_nan, is_finite. intros H1 H2. apply negb_true_iff in H2. rewrite H2 in H1. cbn [andb negb] in H1.
  by apply orb_false_iff in H1 as [? _].
Qed.

Lemma book_refines w L junk d pack f :
  served w L -> d <> -1 -> carries pack f -> all_fields book_field f -> booking_ok junk (book_read f) ->
  zlen (l_book L) < INT_MAX -> next_book (l_book L) <= INT_MAX ->
  serves (res_dish_book w junk d pack) (book_spec L junk d (book_read f)).1 (book_spec L junk d (book_read f)).2.
Proof.
  intros R Hd Hc Hf (Hj & Lj & Pj) Hfew Hnext. unfold res_dish_book, book_spec, waiter. rewrite (check_permission_spec w L) by done. cbn [mbind res_bind].
  destruct (default false (permission (l_sess L) d [account_menu; account_admin])); cbn [negb fst snd]; [|by apply refuse_serves].
  destruct (book_request pack f Hc Hf) as [-> Hs]. cbn [mbind res_bind]. set (a := book_read f) in *.
  rewrite (new_pack_served w L R). cbn [mbind res_bind].
  destruct ((k_seat a <? 0) || (k_dish a <? 0) || le_zero (k_jin a)) eqn:Eg; cbn [fst snd]; [by apply serves_int|].
  apply orb_false_iff in Eg as [Eg E3]. apply orb_false_iff in Eg as [E1%Z.ltb_ge E2%Z.ltb_ge]. destruct Hs as [B1 B2 [B3 B4]].
  assert (natural (k_seat a) /\ natural (k_dish a)) as [Ns Nd] by (unfold natural, INT_MAX, is_i32 in *; lia).
  destruct R as [Hsess (db & T & Ed & I & HD & HS & HB & HR) Hp]. unfold dbp_of. rewrite Ed. cbn [mbind res_bind].
  destruct (dish_exists_spec db T (l_dish L) (k_dish a) I HD Nd) as (db1 & -> & I1). cbn [mbind res_bind]. fold (has_dish L (k_dish a)).
  assert (forall db' T', idle db' T' -> holds T' (l_dish L) -> holds T' (l_seat L) -> holds T' (l_book L) -> Rest T' -> served (set_dbp w (Some db')) L) as Hsv.
  { intros db' T' X1 X2 X3 X4 X5. split; [exact Hsess|by exists db', T'|exact Hp]. }
  destruct (has_dish L (k_dish a)); cbn [Z.eqb negb fst snd]; [|apply serves_int; [by eapply Hsv|done]].
  destruct (seat_exists_spec db1 T (l_seat L) (k_seat a) I1 HS Ns) as (db2 & -> & I2). cbn [mbind res_bind]. fold (has_seat L (k_seat a)).
  destruct (has_seat L (k_seat a)); cbn [Z.eqb negb fst snd]; [|apply serves_int; [by eapply Hsv|done]].
  rewrite copy_note_spec by (try done; pose proof (text_short _ B3); unfold zlen in *; lia). cbn [mbind res_bind].
  fold (new_booking junk a).
  destruct (book_add_spec db2 T (l_book L) (new_booking junk a) I2 HB) as (db3 & T3 & -> & I3 & HB3 & HO).
  { split; [done|split; [by apply positive_sign|done]|exact Pj]. }
  { done. }
  { done. }
  cbn [mbind res_bind Z.eqb]. apply serves_int; [|done]. split; [exact Hsess| |exact Hp]. exists db3, T3. split; [done|]. split; [done|].
  split; [by apply (holds_other t_db_book T)|]. split; [by apply (holds_other t_db_book T)|]. split; [exact HB3|by eapply book_framed].
Qed.

(** ** Cancellation *)

Definition cancel_spec (L : lists) (d z : Z) : fields * lists :=
  if negb (waiter L d) then (result_is dish_r_no_permission, L) else
  if z <? 0 then (result_is dish_r_illegal_parameter, L) else
  if negb (has_seat L z) then (result_is dish_r_seat_id_invalid, L) else
  (result_is dish_r_ok, set_books L (List.filter (fun x => negb (br_id x =? z)) (l_book L))).

Lemma cancel_refines w L d pack f :
  served w L -> d <> -1 -> carries pack f -> all_fields (int_field f_seat_id) f ->
  serves (res_dish_cancel w d pack) (cancel_spec L d (int_read f_seat_id (-1) f)).1 (cancel_spec L d (int_read f_seat_id (-1) f)).2.
Proof.
  intros R Hd Hc Hf. unfold res_dish_cancel, cancel_spec, waiter. rewrite (check_permission_spec w L) by done. cbn [mbind res_bind].
  destruct (default false (permission (l_sess L) d [account_menu; account_admin])); cbn [negb fst snd]; [|by apply refuse_serves].
  destruct (int_request f_seat_id (-1) pack f) as [-> Hi]; [done|done|done|]. cbn [mbind res_bind]. set (z := int_read f_seat_id (-1) f) in *.
  rewrite (new_pack_served w L R). cbn [mbind res_bind]. destruct (Z.ltb_spec z 0); cbn [fst snd]; [by apply serves_int|].
  assert (natural z) as Nz by (unfold natural, INT_MAX, is_i32 in *; lia).
  destruct R as [Hsess (db & T & Ed & I & HD & HS & HB & HR) Hp]. unfold dbp_of. rewrite Ed. cbn [mbind res_bind].
  destruct (seat_exists_spec db T (l_seat L) z I HS Nz) as (db1 & -> & I1). cbn [mbind res_bind]. fold (has_seat L z).
  destruct (has_seat L z); cbn [Z.eqb negb fst snd]; [|apply serves_int; [split; [exact Hsess|by exists db1, T|exact Hp]|done]].
  destruct (book_del_spec db1 T (l_book L) z I1 HB Nz) as (db2 & T2 & -> & I2 & HB2 & HO). cbn [mbind res_bind Z.eqb].
  apply serves_int; [|done]. split; [exact Hsess| |exact Hp]. exists db2, T2. split; [done|]. split; [done|].
  split; [by apply (holds_other t_db_book T)|]. split; [by apply (holds_other t_db_book T)|]. split; [exact HB2|by eapply book_framed].
Qed.

(** ** The bookings of a seat *)

Definition no_books : fields := FCons f_result (VInt dish_r_ok) (FCons f_count (VInt 0) FNil).

Definition books_answer (L : lists) (d z : Z) : fields :=
  if negb (waiter L d) then result_is dish_r_no_permission else
  if z <? 0 then result_is dish_r_illegal_parameter else
  if negb (has_seat L z) then result_is dish_r_seat_id_invalid else no_books.

Definition has_books (L : lists) (z : Z) : bool := existsb (fun x => br_seat x =? z) (l_book L).

Lemma no_books_build p (w : world) :
  (p ← ep_pack_append_int p f_result dish_r_ok; p ← ep_pack_append_int p f_count 0; Ok (Some p, w) : res (option ep_pack * world))
  = (p ← build_fields p no_books; Ok (Some p, w)).
Proof.
  unfold no_books. cbn [build_fields build_value]. destruct (ep_pack_append_int p f_result dish_r_ok) as [p1|]; [|done]. cbn [mbind res_bind].
  by destruct (ep_pack_append_int p1 f_count 0).
Qed.

Lemma book_list_outcome w L d pack f :
  served w L -> d <> -1 -> carries pack f -> all_fields (int_field f_seat_id) f ->
  let z := int_read f_seat_id (-1) f in
  if waiter L d && (0 <=? z) && has_seat L z && has_books L z then res_dish_list w d pack = Fault DoubleFree
  else serves (res_dish_list w d pack) (books_answer L d z) L.
Proof.
  intros R Hd Hc Hf z. unfold res_dish_list, books_answer, waiter. rewrite (check_permission_spec w L) by done. cbn [mbind res_bind].
  destruct (default false (permission (l_sess L) d [account_menu; account_admin])); cbn [negb andb]; [|by apply refuse_serves].
  destruct (int_request f_seat_id (-1) pack f) as [-> Hi]; [done|done|done|]. cbn [mbind res_bind]. fold z in Hi |- *.
  rewrite (new_pack_served w L R). cbn [mbind res_bind]. rewrite Z.leb_antisym. destruct (Z.ltb_spec z 0); cbn [negb andb]; [by apply serves_int|].
  assert (natural z) as Nz by (unfold natural, INT_MAX, is_i32 in *; lia).
  destruct R as [Hsess (db & T & Ed & I & HD & HS & HB & HR) Hp]. unfold dbp_of. rewrite Ed. cbn [mbind res_bind].
  destruct (seat_exists_spec db T (l_seat L) z I HS Nz) as (db1 & -> & I1). cbn [mbind res_bind]. fold (has_seat L z).
  destruct (has_seat L z); cbn [Z.eqb negb andb]; [|apply serves_int; [split; [exact Hsess|by exists db1, T|exact Hp]|done]].
  pose proof (book_get_spec db1 T (l_book L) z I1 HB Nz) as G. fold (has_books L z) in G. destruct (has_books L z).
  - by rewrite G.
  - destruct G as (db2 & -> & I2). cbn [mbind res_bind Z.eqb]. rewrite no_books_build.
    destruct (build_finish no_books) as (p & _ & Ep & _).
    { split; [split; [name_lit|split; [done|split; [name_lit|done]]]|vm_compute; done]. }
    exists p, (set_dbp w (Some db2)). split; [exact Ep|]. rewrite Ep. split; [reflexivity|]. clear Ep. split; [exact Hsess|by exists db2, T|exact Hp].
Qed.

(** ** A cook *)

Definition cook_field (n : list Z) (v : value) : Prop := n = f_seat_id \/ n = f_cook_id \/ n = f_number -> exists z, v = VInt z.

Definition cook_step (n : list Z) (v : value) (a : cook_args) : cook_args :=
  if decide (n = f_seat_id \/ n = f_cook_id) then match v with VInt z => mk_cook_args z (a_cook a) (a_number a) | _ => a end
  else if decide (n = f_number) then match v with VInt z => mk_cook_args (a_seat a) (a_cook a) z | _ => a end
  else a.

(** Nothing sets the cook's id. *)
Lemma cook_request pack f :
  carries pack f -> all_fields cook_field f ->
  exists a, read_request pack cook_body (mk_cook_args (-1) (-1) (-1)) = Ok a /\ a_cook a = -1.
Proof.
  intros Hc Hf. eexists. eapply (read_request_spec pack f _ cook_step _ (fun a => a_cook a = -1)); [done|exact Hf|done| |].
  - intros m it n v a Ha Hn _. unfold cook_body, cook_step. rewrite (field_type _ _ _ _ Ha). cbn [mbind res_bind].
    rewrite (field_key _ _ _ _ Ha). cbn [mbind res_bind].
    destruct (decide (n = f_seat_id)); [|destruct (decide (n = f_cook_id))].
    + rewrite decide_True by auto. destruct Hn as (z & ->); [auto|]. by rewrite (field_int _ _ _ _ Ha).
    + rewrite decide_True by auto. destruct Hn as (z & ->); [auto|]. by rewrite (field_int _ _ _ _ Ha).
    + rewrite (decide_False (P := n = f_seat_id \/ n = f_cook_id)) by naive_solver. case_decide; [|done]. destruct Hn as (z & ->); [auto|]. by rewrite (field_int _ _ _ _ Ha).
  - intros n v a Hn Ha. unfold cook_step. repeat case_decide; by destruct v.
Qed.

Definition cook_answer (L : lists) (d : Z) : Z :=
  match permission (l_sess L) d [account_cook; account_admin] with
  | None => cook_r_ok
  | Some false => cook_r_no_permission
  | Some true => cook_r_illegal_parameter
  end.

Lemma cook_refines w L d pack f :
  served w L -> d <> -1 -> carries pack f -> all_fields cook_field f -> serves (res_cook_accept w d pack) (result_is (cook_answer L d)) L.
Proof.
  intros R Hd Hc Hf. unfold res_cook_accept, cook_answer. rewrite (check_permission_spec w L) by done. cbn [mbind res_bind].
  destruct (permission (l_sess L) d [account_cook; account_admin]) as [[|]|]; [|by apply refuse_serves|by apply refuse_serves].
  destruct (cook_request pack f Hc Hf) as (a & -> & Ha). cbn [mbind res_bind]. rewrite (new_pack_served w L R). cbn [mbind res_bind].
  rewrite Ha. change (-1 <? 0) with true. rewrite orb_true_r. cbn [orb]. by apply serves_int.
Qed.

(** ** The platform *)

Definition version_field (n : list Z) (v : value) : Prop := n = f_pid \/ n = f_cur_ver_id -> exists z, v = VInt z.

Definition version_step (n : list Z) (v : value) (a : version_args) : version_args :=
  if decide (n = f_pid) then match v with VInt z => mk_version z (v_cur a) | _ => a end
  else if decide (n = f_cur_ver_id) then match v with VInt z => mk_version (v_pid a) z | _ => a end
  else a.

Definition version_read (f : fields) : version_args := fold_request version_step f (mk_version (-1) (-1)).

Definition version_fields (r n : Z) (v url logs : list Z) : fields :=
  FCons f_result (VInt r) (FCons f_new_ver_id (VInt n) (FCons f_new_ver_string (VStr v)
    (FCons f_url (VStr url) (FCons f_update_logs (VStr logs) FNil)))).

Definition newest : fields := version_fields verison_update_no_newest 1 v_no_update v_site v_site.

Definition version_answer (a : version_args) : fields :=
  if (v_cur a =? -1) || negb (valid_pid (v_pid a)) then result_is version_illegal_parameter else newest.

Lemma version_build p (w : world) r n v url logs :
  (p ← ep_pack_append_int p f_result r; p ← ep_pack_append_int p f_new_ver_id n;
   p ← ep_pack_append_string p f_new_ver_string v; p ← ep_pack_append_string p f_url url;
   p ← ep_pack_append_string p f_update_logs logs; Ok (Some p, w) : res (option ep_pack * world))
  = (p ← build_fields p (version_fields r n v url logs); Ok (Some p, w)).
Proof.
  cbn [version_fields build_fields build_value].
  destruct (ep_pack_append_int p f_result r) as [p1|]; [|done]. cbn [mbind res_bind].
  destruct (ep_pack_append_int p1 f_new_ver_id n) as [p2|]; [|done]. cbn [mbind res_bind].
  destruct (ep_pack_append_string p2 f_new_ver_string v) as [p3|]; [|done]. cbn [mbind res_bind].
  destruct (ep_pack_append_string p3 f_url url) as [p4|]; [|done]. cbn [mbind res_bind].
  by destruct (ep_pack_append_string p4 f_update_logs logs).
Qed.

Lemma version_refines w L pack f :
  served w L -> carries pack f -> all_fields version_field f -> serves (res_version_check w pack) (version_answer (version_read f)) L.
Proof.
  intros R Hc Hf. unfold res_version_check, version_answer.
  destruct (read_request_spec pack f version_body version_step version_field (fun _ => True) (mk_version (-1) (-1)) Hc Hf I) as [E _].
  - intros m it n v a Ha Hn _. unfold version_body, version_step. rewrite (field_type _ _ _ _ Ha). cbn [mbind res_bind].
    rewrite (field_key _ _ _ _ Ha). cbn [mbind res_bind].
    repeat case_decide; [|  |done]; (destruct (Hn ltac:(auto)) as (z & ->)); by rewrite (field_int _ _ _ _ Ha).
  - done.
  - fold (version_read f) in E. rewrite E. cbn [mbind res_bind]. rewrite (new_pack_served w L R). cbn [mbind res_bind].
    destruct ((v_cur (version_read f) =? -1) || negb (valid_pid (v_pid (version_read f)))); [by apply serves_int|].
    rewrite version_build. fold newest. destruct (build_finish newest) as (p & _ & Ep & _).
    { split; [|vm_compute; done]. split; [name_lit|]. split; [done|]. split; [name_lit|]. split; [done|]. split; [name_lit|]. split; [name_lit|].
      split; [name_lit|]. split; [name_lit|]. split; [name_lit|]. split; [name_lit|done]. }
    exists p, w. split; [exact Ep|]. rewrite Ep. split; [reflexivity|exact R].
Qed.

(** ** Heartbeats *)

Definition touched (T : list session) (d : Z) (now : Z * Z) : list session :=
  map (fun t => if by_fd d t then set_heartbeat t now else t) T.

Lemma touched_none T d now : List.find (by_fd d) T = None -> touched T d now = T.
Proof.
  induction T as [|t T IH]; [done|]. cbn [List.find touched map]. destruct (by_fd d t); [done|]. intros H. f_equal. by apply IH.
Qed.

Lemma touched_nodes h l T a s d now :
  Forall2 (node_at h) l T -> NoDup l -> Forall sess_ok T -> NoDup (map fd (List.filter is_fd T)) ->
  a ∈ l -> node_at h a s -> fd s = d -> d <> -1 ->
  Forall2 (node_at (<[a := Some (mk_node (set_heartbeat s now) (Some (Pref.mk_pref 0)))]> h)) l (touched T d now).
Proof.
  intros F. revert a. induction F as [|x t l T Ht F IH]; intros a N Hok U Ha Hs Ed Hd; [by apply not_elem_of_nil in Ha|].
  apply NoDup_cons in N as [Nx N]. apply Forall_cons in Hok as [Hto HT].
  assert (NoDup (map fd (List.filter is_fd T))) as U' by (cbn [List.filter] in U; destruct (is_fd t); [by apply NoDup_cons in U as [_ ?]|done]).
  cbn [touched map]. destruct (decide (x = a)) as [->|Hne].
  - assert (t = s) as -> by (unfold node_at in Ht, Hs; rewrite Hs in Ht; by injection Ht).
    assert (by_fd d s = true) as Eb by by apply Z.eqb_eq. rewrite Eb. constructor.
    + unfold node_at. apply list_lookup_insert_eq. by eapply lookup_lt_Some.
    + fold (touched T d now). rewrite touched_none by by apply (find_fd_rest d s T). by apply nodes_insert_ne.
  - apply elem_of_cons in Ha as [->|Ha]; [done|]. constructor; [|by apply IH].
    destruct (by_fd d t) eqn:Eb.
    + exfalso. pose proof (find_fd_rest d t T Hd Hto HT Eb U) as Fn.
      assert (s ∈ T) as Hin.
      { apply list_elem_of_lookup in Ha as [i Hi]. destruct (Forall2_lookup_l _ _ _ _ _ F Hi) as (y & Hy & Ny).
        assert (y = s) as -> by (unfold node_at in Ny, Hs; rewrite Hs in Ny; by injection Ny). by eapply list_elem_of_lookup_2. }
      apply list_elem_of_In in Hin. pose proof (List.find_none _ _ Fn s Hin) as E. cbn in E. unfold by_fd in E. apply Z.eqb_neq in E. done.
    + unfold node_at. by rewrite list_lookup_insert_ne.
Qed.

Lemma touched_keys {B} (g : session -> B) q T d now :
  (forall t, q (set_heartbeat t now) = q t) -> (forall t, g (set_heartbeat t now) = g t) ->
  map g (List.filter q (touched T d now)) = map g (List.filter q T).
Proof.
  intros Hq Hg. induction T as [|t T IH]; [done|]. cbn [touched map List.filter]. fold (touched T d now).
  destruct (by_fd d t); rewrite ?Hq; destruct (q t); cbn [map]; rewrite ?Hg, IH; done.
Qed.

Lemma touched_ok T d now : Forall sess_ok T -> unique T -> Forall sess_ok (touched T d now) /\ unique (touched T d now).
Proof.
  intros Hok [U1 U2 U3]. split.
  - apply Forall_map. eapply Forall_impl; [exact Hok|]. intros t [H1 H2 H3]. unfold compose. by destruct (by_fd d t).
  - split; by rewrite touched_keys.
Qed.

Lemma heartbeat_table w T d now :
  sess_table w T -> d <> -1 ->
  match List.find (by_fd d) T with
  | None => session_ref_fd w d = Ok (0, None, w)
  | Some _ => exists a w1 w2 w3, session_ref_fd w d = Ok (1, a, w1) /\ touch_session w1 a now = Ok w2 /\ dref w2 a = Ok w3 /\
      sess_table w3 (touched T d now)
  end.
Proof.
  intros ([N F O A] & Lk & U) Hd. unfold session_ref_fd. pose proof (ref_fd_scan_spec d Hd (w_list w) T w None 0 F O N (u_fd _ U)) as Sc.
  destruct (List.find (by_fd d) T) as [s|] eqn:Fs; [|by rewrite Sc]. destruct Sc as (l1 & a & l2 & T1 & El & _ & _ & Na & ->).
  apply List.find_some in Fs as [_ Ed%Z.eqb_eq]. cbn [mbind res_bind Z.add Z.leb Z.compare Pos.compare Pos.compare_cont].
  unfold lock. cbn [set_nodes w_lock]. rewrite Lk. pose proof (lookup_lt_Some _ _ _ Na) as Hlt.
  assert (a ∈ w_list w) as Hin by (rewrite El; apply elem_of_app; right; apply list_elem_of_here).
  set (w' := set_nodes w (<[a := Some (mk_node (set_heartbeat s now) (Some (Pref.mk_pref 0)))]> (w_nodes w))).
  eexists (Some a), _, (set_lock (set_nodes w' (<[a := Some (mk_node (set_heartbeat s now) (Some (Pref.mk_pref 1)))]> (w_nodes w'))) true), w'.
  split; [reflexivity|]. split; [|split].
  - unfold touch_session. cbn [set_lock set_nodes w_nodes]. unfold h_load. rewrite list_lookup_insert_eq by done. cbn [mbind res_bind n_session n_ref].
    rewrite (h_store_ok _ _ _ (mk_node s (Some (Pref.mk_pref 1)))) by (by apply list_lookup_insert_eq). cbn [mbind res_bind].
    unfold w'. cbn [set_nodes set_lock w_nodes w_list w_stop w_alloc w_lock]. rewrite !list_insert_insert_eq. done.
  - apply dref_spec; [done|apply list_lookup_insert_eq; exact Hlt|done].
  - destruct (touched_ok T d now O U) as [O' U']. split; [|split; [done|done]]. split; [done| |done|done].
    exact (touched_nodes (w_nodes w) (w_list w) T a s d now F N O (u_fd _ U) Hin Na Ed Hd).
Qed.

Definition set_sessions (L : lists) (T : list session) : lists := mk_lists T (l_dish L) (l_seat L) (l_book L).

Definition heartbeat_spec (L : lists) (now : Z * Z) (d : Z) : fields * lists :=
  match List.find (by_fd d) (l_sess L) with
  | None => (result_is 0, L)
  | Some _ => (result_is 1, set_sessions L (touched (l_sess L) d now))
  end.

Lemma heartbeat_refines w L now d :
  served w L -> d <> -1 -> serves (res_heartbeat w now d) (heartbeat_spec L now d).1 (heartbeat_spec L now d).2.
Proof.
  intros R Hd. unfold res_heartbeat, heartbeat_spec. rewrite (new_pack_served w L R). cbn [mbind res_bind].
  pose proof (heartbeat_table (w_sess w) (l_sess L) d now (sv_sess _ _ R) Hd) as Hb. destruct R as [Hs Hdb Hp].
  destruct (List.find (by_fd d) (l_sess L)).
  - destruct Hb as (a & w1 & w2 & w3 & -> & E2 & E3 & HT). cbn [mbind res_bind Z.eqb]. rewrite E2. cbn [mbind res_bind]. rewrite E3. cbn [mbind res_bind fst snd].
    apply serves_int; [|done]. by split.
  - rewrite Hb. cbn [mbind res_bind Z.eqb fst snd]. apply serves_int; [|done]. by split.
Qed.

(** ** Sequences of requests *)

Inductive menu_op := OpFetch | OpBook | OpCancel | OpBooks | OpSeats | OpCook | OpHeartbeat | OpVersion.

(** A request: the connection, its packet with the fields in it, the time, and the stack under the
    handler's array. *)
Record menu_request := mk_mq {
  mq_op : menu_op; mq_fd : Z; mq_pack : option ep_pack; mq_fields : fields; mq_now : Z * Z; mq_junk : list Z;
}.

Definition run_menu (w : world) (q : menu_request) : res (option ep_pack * world) :=
  match mq_op q with
  | OpFetch => res_dish_fetch w (mq_fd q) (mq_pack q)
  | OpBook => res_dish_book w (mq_junk q) (mq_fd q) (mq_pack q)
  | OpCancel => res_dish_cancel w (mq_fd q) (mq_pack q)
  | OpBooks => res_dish_list w (mq_fd q) (mq_pack q)
  | OpSeats => res_seat_list w (mq_fd q)
  | OpCook => res_cook_accept w (mq_fd q) (mq_pack q)
  | OpHeartbeat => res_heartbeat w (mq_now q) (mq_fd q)
  | OpVersion => res_version_check w (mq_pack q)
  end.

Fixpoint run_menus (w : world) (qs : list menu_request) : res (list (option ep_pack) * world) :=
  match qs with
  | [] => Ok ([], w)
  | q :: qs => '(p, w) ← run_menu w q; '(ps, w) ← run_menus w qs; Ok (p :: ps, w)
  end.

Definition next_menu (L : lists) (q : menu_request) : lists :=
  match mq_op q with
  | OpBook => (book_spec L (mq_junk q) (mq_fd q) (book_read (mq_fields q))).2
  | OpCancel => (cancel_spec L (mq_fd q) (int_read f_seat_id (-1) (mq_fields q))).2
  | OpHeartbeat => (heartbeat_spec L (mq_now q) (mq_fd q)).2
  | _ => L
  end.

Definition menu_allowed (L : lists) (q : menu_request) (f : fields) : Prop :=
  match mq_op q with
  | OpFetch => exists B, B ≡ₚ l_dish L /\ f = fetch_answer L (mq_fd q) (int_read f_category dish_category_hot (mq_fields q)) B
  | OpBook => f = (book_spec L (mq_junk q) (mq_fd q) (book_read (mq_fields q))).1
  | OpCancel => f = (cancel_spec L (mq_fd q) (int_read f_seat_id (-1) (mq_fields q))).1
  | OpBooks => f = books_answer L (mq_fd q) (int_read f_seat_id (-1) (mq_fields q))
  | OpSeats => exists B, B ≡ₚ l_seat L /\ f = seats_answer L (mq_fd q) B
  | OpCook => f = result_is (cook_answer L (mq_fd q))
  | OpHeartbeat => f = (heartbeat_spec L (mq_now q) (mq_fd q)).1
  | OpVersion => f = version_answer (version_read (mq_fields q))
  end.

Fixpoint menus_allowed (L : lists) (qs : list menu_request) (fs : list fields) : Prop :=
  match qs, fs with
  | [], [] => True
  | q :: qs, f :: fs => menu_allowed L q f /\ menus_allowed (next_menu L q) qs fs
  | _, _ => False
  end.

Fixpoint last_menu (L : lists) (qs : list menu_request) : lists :=
  match qs with [] => L | q :: qs => last_menu (next_menu L q) qs end.

(** Numbers that are ints, categories that are not negative, notes that fit, and numbers left for new
    bookings. *)
Definition menu_fit (L : lists) (q : menu_request) : Prop :=
  match mq_op q with
  | OpFetch => all_fields (int_field f_category) (mq_fields q) /\ 0 <= int_read f_category dish_category_hot (mq_fields q)
  | OpBook => all_fields book_field (mq_fields q) /\ booking_ok (mq_junk q) (book_read (mq_fields q)) /\
      zlen (l_book L) < INT_MAX /\ next_book (l_book L) <= INT_MAX
  | OpCancel => all_fields (int_field f_seat_id) (mq_fields q)
  | OpBooks => all_fields (int_field f_seat_id) (mq_fields q)
  | OpCook => all_fields cook_field (mq_fields q)
  | OpVersion => all_fields version_field (mq_fields q)
  | OpSeats | OpHeartbeat => True
  end.

Record menu_ok (L : lists) (q : menu_request) : Prop := {
  mo_fd : mq_fd q <> -1;
  mo_carries : carries (mq_pack q) (mq_fields q);
  mo_fit : menu_fit L q;
}.

(** A listing that shows a booking, which frees the rows of the database twice. *)
Definition lists_booked (L : lists) (q : menu_request) : bool :=
  match mq_op q with
  | OpBooks => let z := int_read f_seat_id (-1) (mq_fields q) in waiter L (mq_fd q) && (0 <=? z) && has_seat L z && has_books L z
  | _ => false
  end.

Fixpoint menus_ok (L : lists) (qs : list menu_request) : Prop :=
  match qs with [] => True | q :: qs => menu_ok L q /\ lists_booked L q = false /\ menus_ok (next_menu L q) qs end.

(** Dishes and seats a packet takes, and not too many. *)
Record presentable (L : lists) : Prop := {
  pr_dish : Forall dish_legible (l_dish L);
  pr_seat : Forall seat_legible (l_seat L);
  pr_few : zlen (l_dish L) <= 100000 /\ zlen (l_seat L) <= 100000;
}.

(** No handler changes the dishes or the seats. *)
Lemma next_menu_same L q : l_dish (next_menu L q) = l_dish L /\ l_seat (next_menu L q) = l_seat L.
Proof.
  unfold next_menu, book_spec, cancel_spec, heartbeat_spec. destruct (mq_op q); try done.
  - repeat (case_match; try done).
  - repeat (case_match; try done).
  - by case_match.
Qed.

Lemma next_presentable L q : presentable L -> presentable (next_menu L q).
Proof. intros [H1 H2 [H3 H4]]. destruct (next_menu_same L q) as [E1 E2]. by split; rewrite ?E1, ?E2. Qed.

Lemma menu_refines w L q :
  served w L -> presentable L -> menu_ok L q -> lists_booked L q = false ->
  exists f, menu_allowed L q f /\ serves (run_menu w q) f (next_menu L q).
Proof.
  intros R [H1 H2 [H3 H4]] [Hd Hc Hf] Hn. unfold run_menu, menu_allowed, next_menu, menu_fit, lists_booked in *. destruct (mq_op q).
  - destruct Hf as [Hf Hz]. destruct (fetch_refines w L (mq_fd q) (mq_pack q) (mq_fields q) R Hd Hc Hf H1 H3 Hz) as (B & P & X).
    eexists. split; [by exists B|exact X].
  - destruct Hf as (Hf & Hb & Hn1 & Hn2). eexists. split; [done|]. by apply book_refines.
  - eexists. split; [done|]. by apply cancel_refines.
  - eexists. split; [done|].
    pose proof (book_list_outcome w L (mq_fd q) (mq_pack q) (mq_fields q) R Hd Hc Hf) as X. cbn zeta in X, Hn. rewrite Hn in X. exact X.
  - destruct (seat_list_refines w L (mq_fd q) R Hd H2 H4) as (B & P & X). eexists. split; [by exists B|exact X].
  - eexists. split; [done|]. by eapply cook_refines.
  - eexists. split; [done|]. by apply heartbeat_refines.
  - eexists. split; [done|]. by apply version_refines.
Qed.

Lemma menu_crashes w L q : served w L -> menu_ok L q -> lists_booked L q = true -> run_menu w q = Fault DoubleFree.
Proof.
  intros R [Hd Hc Hf] Hn. unfold run_menu, menu_fit, lists_booked in *. destruct (mq_op q); try done.
  pose proof (book_list_outcome w L (mq_fd q) (mq_pack q) (mq_fields q) R Hd Hc Hf) as X. cbn zeta in X, Hn. rewrite Hn in X. exact X.
Qed.

Lemma menus_refine qs : forall w L,
  served w L -> presentable L -> menus_ok L qs ->
  exists ps fs w', run_menus w qs = Ok (map Some ps, w') /\ menus_allowed L qs fs /\
    Forall2 (fun f p => build_fields fresh f = Ok p) fs ps /\ served w' (last_menu L qs).
Proof.
  induction qs as [|q qs IH]; intros w L R HP Hq; [by exists [], [], w|]. destruct Hq as (Hq & Hn & Hqs).
  destruct (menu_refines w L q R HP Hq Hn) as (f & Hf & p & w1 & Ep & Er & R1).
  destruct (IH w1 _ R1 (next_presentable L q HP) Hqs) as (ps & fs & w' & E & Ha & F & R').
  exists (p :: ps), (f :: fs), w'. cbn [run_menus]. rewrite Er. cbn [mbind res_bind]. rewrite E. cbn [mbind res_bind map].
  split; [done|]. split; [done|]. split; [by constructor|done].
Qed.

(** The handlers of the menu refine four lists. Any sequence of fetches, bookings,
    cancellations, listings, cooks' requests, heartbeats and version checks is answered with the
    packets that the lists of sessions, dishes, seats and bookings determine (records in the order
    of the database), and the session table and the three tables are those lists afterwards: only
    waiters and administrators are served, a booking is added under the next number when its seat
    and its dish exist, its quantity narrowed to a float and rounded to two decimals, its note
    followed by what the stack held, and dishes and seats never change. A listing of a seat that
    has bookings is excluded: it faults. *)
Theorem menu_requests_refine w L qs :
  served w L -> presentable L -> menus_ok L qs ->
  exists ps fs w', run_menus w qs = Ok (map Some ps, w') /\ menus_allowed L qs fs /\
    Forall2 (fun f p => build_fields fresh f = Ok p) fs ps /\ served w' (last_menu L qs).
Proof. apply menus_refine. Qed.

(** The list of a seat's bookings frees every row twice. A waiter who lists a seat that has a
    booking makes the server free a freed row, whatever the order of the rows. *)
Theorem dish_list_frees_twice w L d pack f :
  served w L -> d <> -1 -> carries pack f -> all_fields (int_field f_seat_id) f ->
  waiter L d = true -> 0 <= int_read f_seat_id (-1) f ->
  has_seat L (int_read f_seat_id (-1) f) = true -> has_books L (int_read f_seat_id (-1) f) = true ->
  res_dish_list w d pack = Fault DoubleFree.
Proof.
  intros R Hd Hc Hf Hw Hz Hs Hb. pose proof (book_list_outcome w L d pack f R Hd Hc Hf) as X. cbn zeta in X.
  rewrite Hw, Hs, Hb in X. destruct (Z.leb_spec 0 (int_read f_seat_id (-1) f)); [|lia]. exact X.
Qed.

(** No order can be accepted. Whatever a cook or an administrator sends, the answer of
    [res_cook_accept] is an illegal parameter, because the cook's id is stored into the seat's
    variable; who has no session at all is answered with success. *)
Theorem cook_accept_never w L d pack f :
  served w L -> d <> -1 -> carries pack f -> all_fields cook_field f ->
  (permission (l_sess L) d [account_cook; account_admin] = Some true -> serves (res_cook_accept w d pack) (result_is cook_r_illegal_parameter) L) /\
  (List.find (by_fd d) (l_sess L) = None -> serves (res_cook_accept w d pack) (result_is cook_r_ok) L).
Proof.
  intros R Hd Hc Hf. pose proof (cook_refines w L d pack f R Hd Hc Hf) as X. unfold cook_answer in X. split; intros H.
  - by rewrite H in X.
  - unfold permission in X. by rewrite H in X.
Qed.

(** A cancellation takes the seat's number for a booking's. It is answered with success, but
    every booking of the seat whose own number differs from the seat's is still there, and a
    booking of another seat with that number is gone. *)
Theorem dish_cancel_wrong_booking w L d pack f :
  served w L -> d <> -1 -> carries pack f -> all_fields (int_field f_seat_id) f ->
  let z := int_read f_seat_id (-1) f in
  waiter L d = true -> 0 <= z -> has_seat L z = true ->
  exists B, serves (res_dish_cancel w d pack) (result_is dish_r_ok) (set_books L B) /\
    forall x, In x B <-> In x (l_book L) /\ br_id x <> z.
Proof.
  intros R Hd Hc Hf z Hw Hz Hs. pose proof (cancel_refines w L d pack f R Hd Hc Hf) as X. fold z in X. unfold cancel_spec in X.
  rewrite Hw, Hs in X. destruct (Z.ltb_spec z 0); [lia|]. cbn [negb fst snd] in X. eexists. split; [exact X|].
  intros x. rewrite List.filter_In. destruct (Z.eqb_spec (br_id x) z); cbn [negb]; naive_solver.
Qed.

End spec.
Arguments menu_db {S SL} Rest o L.
Arguments served {S SL} Rest w L.
Arguments serves {S SL} Rest r f L.

(** ** Examples *)

Section demo.
Import SqlToy.
#[local] Instance no_rest_framed : BookFramed (fun _ : tables => True).
Proof. done. Qed.
#[local] Notation served := (served (fun _ => True)).
#[local] Notation serves := (serves (fun _ => True)).

Definition demo_dish : dish :=
  mk_dish 0 dish_category_hot (padded 65 "soup") (padded 257 "hot") (padded 65 "soup.png") dish_price_plate 30.
Definition demo_seat : seat := mk_seat 4 (padded 257 "window") (padded 65 "q4").
Definition demo_book : book := mk_book 0 4 0 4611686018427387904 (padded 256 "") book_accept_state_idle.

(** The lists of a server with one dish, one seat and one booking of it. *)
Definition demo_lists (T : list session) (c : list Z) : lists :=
  mk_lists T [dish_rec_of demo_dish c] [seat_rec_of demo_seat] [book_rec_of 1 demo_book].

Definition demo_user (ty : Z) : session :=
  mk_session ty (padded 17 "bob") 0 session_fd (replicate 39 0) (0, 0) (0, 0) 5 (0, 0).

Lemma demo_fits : dish_fits demo_dish /\ seat_fits demo_seat /\ book_fits demo_book.
Proof. split; [|split]; split; by decide_now. Qed.

Lemma no_tables n : (∅ : tables) !! n = None.
Proof. apply lookup_empty. Qed.

Lemma demo_tables : exists d T c, idle d T /\ holds T [dish_rec_of demo_dish c] /\ holds T [seat_rec_of demo_seat] /\ holds T [book_rec_of 1 demo_book].
Proof.
  destruct demo_fits as (F1 & F2 & F3).
  destruct (dish_init_spec demo_dbp ∅ demo_dbp_idle) as (d1 & T1 & _ & I1 & O1 & H1). rewrite no_tables in H1.
  destruct (seat_init_spec d1 T1 I1) as (d2 & T2 & _ & I2 & O2 & H2). rewrite O1 in H2 by done. rewrite no_tables in H2.
  destruct (book_init_spec d2 T2 I2) as (d3 & T3 & _ & I3 & O3 & H3). rewrite O2, O1 in H3 by done. rewrite no_tables in H3.
  apply (holds_other _ _ _ _ O2) in H1; [|done]. apply (holds_other _ _ _ _ O3) in H1; [|done]. apply (holds_other _ _ _ _ O3) in H2; [|done].
  destruct (dish_add_spec d3 T3 [] demo_dish I3 H1 F1) as (d4 & T4 & c & I4 & O4 & _ & H4); [done|].
  apply (holds_other _ _ _ _ O4) in H2; [|done]. apply (holds_other _ _ _ _ O4) in H3; [|done].
  destruct (seat_add_spec d4 T4 [] demo_seat I4 H2 F2) as (d5 & T5 & I5 & O5 & _ & H5); [done|].
  apply (holds_other _ _ _ _ O5) in H4; [|done]. apply (holds_other _ _ _ _ O5) in H3; [|done].
  destruct (book_add_spec d5 T5 [] demo_book I5 H3 F3) as (d6 & T6 & _ & I6 & H6 & O6); [done|done|].
  apply (holds_other _ _ _ _ O6) in H4; [|done]. apply (holds_other _ _ _ _ O6) in H5; [|done].
  by exists d6, T6, c.
Qed.

Lemma tables_dead_operations_witness :
  exists d T c, Forall (fun r => exists d', r = Ok (0, d') /\ idle d' T)
    [db_account_reset d; db_dish_reset d; db_seat_reset d; db_book_reset d; db_book_modify_book d 4 0 2; db_book_modify_accept d 4 0 2] /\
  (exists d', db_dish_get_one d (dr_id (dish_rec_of demo_dish c)) (Some demo_dish) = Ok (0, Some demo_dish, d') /\ idle d' T) /\
  db_seat_get_one d (sr_id (seat_rec_of demo_seat)) (Some demo_seat) = Fault OutOfBounds.
Proof.
  destruct demo_tables as (d & T & c & I & H1 & H2 & H3). exists d, T, c.
  apply (tables_dead_operations d T [dish_rec_of demo_dish c] [seat_rec_of demo_seat] [book_rec_of 1 demo_book]); try done; by left.
Defined.

Lemma demo_served ty : exists w c, served w (demo_lists [demo_user ty] c).
Proof.
  destruct demo_tables as (d & T & c & I & H1 & H2 & H3).
  destruct (add_fd_table demo_sessions [] (demo_user ty)) as (sw & _ & HT); try by decide_now.
  { split; [|split; [done|split; constructor]]. by split; [constructor|constructor|constructor|]. }
  exists (mk_world sw (Some d) []), c. split; [exact HT|by exists d, T|done].
Qed.

Definition one_int (k : list Z) (z : Z) : fields := FCons k (VInt z) FNil.
Definition demo_order : fields :=
  FCons f_seat_id (VInt 4) (FCons f_dish_id (VInt 0) (FCons f_jin_or_plate (VDouble 4611686018427387904) (FCons f_comment (VStr (lit "no salt")) FNil))).

Lemma one_int_packet k z : name_ok k -> zlen k <= 100 -> is_i32 z -> exists q, carries (Some q) (one_int k z).
Proof.
  intros Hk Hl Hz. apply packet_of. split; [by split|]. cbn [one_int enc_fields enc_value type_code].
  autorewrite with ymlen. rewrite !zlen_le_bytes. change (zlen (@nil Z)) with 0. unfold LIM. lia.
Qed.

Lemma one_int_field k z : is_i32 z -> all_fields (int_field k) (one_int k z).
Proof. intros Hz. split; [|done]. intros _. by exists z. Qed.

Lemma demo_order_packet : exists q, carries (Some q) demo_order.
Proof.
  apply packet_of. split; [|vm_compute; done].
  split; [name_lit|]. split; [done|]. split; [name_lit|]. split; [done|]. split; [name_lit|]. split; [done|]. split; [name_lit|]. split; [name_lit|done].
Qed.

Lemma demo_order_fields : all_fields book_field demo_order.
Proof.
  split; [|split; [|split; [|split; [|done]]]]; (split; [|split; [|split]]); intros E; try done.
  - by exists 4.
  - by exists 0.
  - by eexists.
  - eexists. split; [done|]. split; [by decide_now|]. split; [done|by decide_now].
Qed.

Lemma demo_presentable T c : presentable (demo_lists T c).
Proof. split; [|..|done]; apply Forall_singleton; split; by vm_compute. Qed.

Definition demo_menu_requests (q1 q2 q3 : ep_pack) : list menu_request :=
  [mk_mq OpFetch 5 (Some q1) (one_int f_category dish_category_hot) (7, 0) (replicate 256 0);
   mk_mq OpBook 5 (Some q2) demo_order (8, 0) (replicate 256 0);
   mk_mq OpHeartbeat 5 None FNil (9, 0) (replicate 256 0);
   mk_mq OpCancel 5 (Some q3) (one_int f_seat_id 4) (10, 0) (replicate 256 0);
   mk_mq OpSeats 5 None FNil (11, 0) (replicate 256 0)].

Lemma menu_requests_refine_witness :
  exists w c q1 q2 q3 ps fs w', let L := demo_lists [demo_user account_menu] c in
    run_menus w (demo_menu_requests q1 q2 q3) = Ok (map Some ps, w') /\ menus_allowed L (demo_menu_requests q1 q2 q3) fs /\
    Forall2 (fun f p => build_fields fresh f = Ok p) fs ps /\ served w' (last_menu L (demo_menu_requests q1 q2 q3)).
Proof.
  destruct (demo_served account_menu) as (w & c & R). destruct (one_int_packet f_category dish_category_hot) as [q1 C1]; [name_lit|done|done|].
  destruct demo_order_packet as [q2 C2]. destruct (one_int_packet f_seat_id 4) as [q3 C3]; [name_lit|done|done|].
  exists w, c, q1, q2, q3. apply (menu_requests_refine w _ (demo_menu_requests q1 q2 q3) R (demo_presentable _ c)).
  split; [split; [done|done|split; [by apply one_int_field|done]]|]. split; [done|].
  split; [split; [done|done|split; [apply demo_order_fields|]]|].
  { split; [split; [|split]; by decide_now|]. by split. }
  split; [done|]. split; [by split|]. split; [done|]. split; [split; [done|done|by apply one_int_field]|]. split; [done|]. by split.
Defined.

Lemma dish_list_frees_twice_witness : exists w pack, res_dish_list w 5 pack = Fault DoubleFree.
Proof.
  destruct (demo_served account_menu) as (w & c & R). destruct (one_int_packet f_seat_id 4) as [q C]; [name_lit|done|done|].
  exists w, (Some q). by apply (dish_list_frees_twice w _ 5 (Some q) (one_int f_seat_id 4) R ltac:(done) C (one_int_field f_seat_id 4 ltac:(done))).
Defined.

Lemma cook_accept_never_witness :
  exists w c pack, serves (res_cook_accept w 5 pack) (result_is cook_r_illegal_parameter) (demo_lists [demo_user account_cook] c).
Proof.
  destruct (demo_served account_cook) as (w & c & R). destruct (one_int_packet f_cook_id 1) as [q C]; [name_lit|done|done|].
  exists w, c, (Some q). apply (cook_accept_never w _ 5 (Some q) (one_int f_cook_id 1) R ltac:(done) C); [|done].
  split; [|done]. intros _. by eexists.
Defined.

Lemma dish_cancel_wrong_booking_witness :
  exists w c pack B, serves (res_dish_cancel w 5 pack) (result_is dish_r_ok) (set_books (demo_lists [demo_user account_menu] c) B) /\
    forall x, In x B <-> In x [book_rec_of 1 demo_book] /\ br_id x <> 4.
Proof.
  destruct (demo_served account_menu) as (w & c & R). destruct (one_int_packet f_seat_id 4) as [q C]; [name_lit|done|done|].
  exists w, c, (Some q). by apply (dish_cancel_wrong_booking w _ 5 (Some q) (one_int f_seat_id 4) R ltac:(done) C (one_int_field f_seat_id 4 ltac:(done))).
Defined.

End demo.
End MenuRun.
