(* ===== verification/AccountAdmin.v ===== *)
(** * AccountAdmin: creation, deletion and modification of accounts (server/res_account.c)

    The handlers that change the account table, as functions of the lists of sessions and accounts,
    and what goes wrong in them: the flag [admin] of a session, which the creation of accounts and
    the deletion of others depend on, is never set by a login; the password asked for by
    [res_account_modify_pwd] is looked up under the wrong name; two handlers keep the lock of the
    session table. *)
From Stdlib Require Import String.
From S2P Require Import Prelude Alloc Cstr Words Bson Packet PackLoop Session Sha Fmt Sql Dbp Accounts Guid ResAccount AccountSpec.
From stdpp Require Import gmap.
Import Alloc Cstr Words Bson Packet PackLoop Session Pwd Fmt Sql Dbp Accounts Guid ResAccount AccountSpec.
Open Scope Z_scope.

Module AccountAdmin.

Section spec.
Context `{S : Sqlite} {SL : SqliteLaws S} {Rest : tables -> Prop} {HRest : Framed Rest}.
#[local] Set Default Proof Using "Type*".
#[local] Notation ready := (ready Rest).
#[local] Notation answers := (answers Rest).

(** ** Creation *)

Definition create_field (n : list Z) (v : value) : Prop :=
  (n = f_type -> exists z, v = VInt z /\ is_i32 z) /\
  (n = f_uid -> str_fit 16 v no_quote) /\
  (n = f_pwd -> str_fit 128 v (Forall is_byte)) /\
  (n = f_nick -> str_fit 64 v no_quote) /\
  (n = f_comment -> str_fit 256 v no_quote).

Definition create_step (n : list Z) (v : value) (a : account) : account :=
  if decide (n = f_type) then match v with VInt z => set_acc_type a z | _ => a end
  else if decide (n = f_uid) then match v with VStr s => set_acc_uid a (arr 17 (map tolower s)) | _ => a end
  else if decide (n = f_pwd) then match v with VStr s => set_acc_pwd a (arr 129 s) | _ => a end
  else if decide (n = f_nick) then match v with VStr s => set_acc_nick a (arr 65 s) | _ => a end
  else if decide (n = f_comment) then match v with VStr s => set_acc_comment a (arr 257 s) | _ => a end
  else a.

(** A name in lower case, strings in their arrays. *)
Record create_shape (a : account) : Prop := {
  cs_sized : account_sized a;
  cs_uid : plain 16 (acc_uid a) /\ map tolower (text (acc_uid a)) = text (acc_uid a);
  cs_type : is_i32 (acc_type a);
  cs_pwd : terminated (acc_pwd a) /\ Forall is_byte (text (acc_pwd a));
  cs_nick : plain 64 (acc_nick a);
  cs_comment : plain 256 (acc_comment a);
}.

Lemma tolower_idem c : tolower (tolower c) = tolower c.
Proof.
  unfold tolower. destruct ((65 <=? c) && (c <=? 90)) eqn:E; [|by rewrite E]. split_bool. case_zbool; lia.
Qed.

Lemma create_step_shape n v a : create_field n v -> create_shape a -> create_shape (create_step n v a).
Proof.
  intros (H0 & H1 & H2 & H3 & H4) [(Z1 & Z2 & Z3 & Z4) [U Ul] Ty P N C]. unfold create_step. repeat case_decide.
  - destruct (H0 ltac:(done)) as (z & -> & Hz). by split.
  - destruct (H1 ltac:(done)) as (s & -> & Z & K & Q).
    assert (length (map tolower s) < 17)%nat as L by (rewrite length_map; unfold zlen in K; lia).
    destruct (arr_text 17 (map tolower s) (lower_no_zero s Z) L) as [Et _].
    split; try done; unfold account_sized; cbn [set_acc_uid acc_uid acc_pwd acc_nick acc_comment].
    + split; [unfold zlen; by rewrite arr_len|done].
    + split; [apply arr_plain; [by apply lower_no_zero|by apply lower_no_quote|unfold zlen in *; by rewrite length_map|done]|].
      rewrite Et, map_map. apply map_ext. intros c. apply tolower_idem.
  - destruct (H2 ltac:(done)) as (s & -> & Z & K & Q). assert (length s < 129)%nat as L by (unfold zlen in K; lia).
    destruct (arr_text 129 s Z L) as [Et Ct].
    split; try done; unfold account_sized; cbn [set_acc_pwd acc_uid acc_pwd acc_nick acc_comment]; [|split; [done|by rewrite Et]].
    split; [done|]. split; [unfold zlen; by rewrite arr_len|done].
  - destruct (H3 ltac:(done)) as (s & -> & Z & K & Q). assert (length s < 65)%nat as L by (unfold zlen in K; lia).
    split; try done; unfold account_sized; cbn [set_acc_nick acc_uid acc_pwd acc_nick acc_comment]; [|by apply arr_plain].
    split; [done|]. split; [done|]. split; [unfold zlen; by rewrite arr_len|done].
  - destruct (H4 ltac:(done)) as (s & -> & Z & K & Q). assert (length s < 257)%nat as L by (unfold zlen in K; lia).
    split; try done; unfold account_sized; cbn [set_acc_comment acc_uid acc_pwd acc_nick acc_comment]; [|by apply arr_plain].
    split; [done|]. split; [done|]. split; [done|]. unfold zlen. by rewrite arr_len.
  - by split.
Qed.

Lemma create_body_step m it n v a :
  at_field m it n v -> create_field n v -> create_shape a -> create_body m it a = Ok (Next (create_step n v a)).
Proof.
  intros Hf (H0 & H1 & H2 & H3 & H4) [(Z1 & Z2 & Z3 & Z4) U Ty P N C]. unfold create_body, create_step, zlen in *.
  rewrite (field_type _ _ _ _ Hf). cbn [mbind res_bind]. rewrite (field_key _ _ _ _ Hf). cbn [mbind res_bind].
  repeat case_decide.
  - destruct (H0 ltac:(done)) as (z & -> & Hz). by rewrite (field_int _ _ _ _ Hf).
  - destruct (H1 ltac:(done)) as (s & -> & Z & K & Q). rewrite (field_str _ _ _ _ Hf). cbn [mbind res_bind]. unfold zlen in K.
    rewrite (strncpy_arr _ s 17) by (try done; lia). cbn [mbind res_bind]. by rewrite lower_arr by (try done; lia).
  - destruct (H2 ltac:(done)) as (s & -> & Z & K & Q). rewrite (field_str _ _ _ _ Hf). cbn [mbind res_bind]. unfold zlen in K.
    by rewrite (strncpy_arr _ s 129) by (try done; lia).
  - destruct (H3 ltac:(done)) as (s & -> & Z & K & Q). rewrite (field_str _ _ _ _ Hf). cbn [mbind res_bind]. unfold zlen in K.
    by rewrite (strncpy_arr _ s 65) by (try done; lia).
  - destruct (H4 ltac:(done)) as (s & -> & Z & K & Q). rewrite (field_str _ _ _ _ Hf). cbn [mbind res_bind]. unfold zlen in K.
    by rewrite (strncpy_arr _ s 257) by (try done; lia).
  - done.
Qed.

(** The locals: empty strings and the type the stack holds. *)
Definition create_start (a : account) : account :=
  mk_account (acc_type a) (0 :: zdrop 1 (acc_uid a)) (0 :: zdrop 1 (acc_pwd a)) (0 :: zdrop 1 (acc_nick a)) (0 :: zdrop 1 (acc_comment a)).

Lemma create_locals_start a :
  account_sized a -> is_i32 (acc_type a) -> create_locals a = Ok (create_start a) /\ create_shape (create_start a).
Proof.
  intros (Z1 & Z2 & Z3 & Z4) Ht. split.
  - unfold create_locals, zero_first. rewrite !token_cleared by lia. done.
  - assert (forall k l, 0 <= k -> plain k (0 :: l)) as Hp by (intros k l Hk; split; [by exists []|]; split; [constructor|done]).
    split; try done; cbn [create_start acc_uid acc_pwd acc_nick acc_comment]; try (apply Hp; lia).
    + repeat split; cbn [create_start acc_uid acc_pwd acc_nick acc_comment]; rewrite zlen_cons, zlen_zdrop by lia; lia.
    + split; [apply Hp; lia|done].
    + split; [by exists []|constructor].
Qed.

Definition create_read (e : env) (f : fields) : account := fold_request create_step f (create_start (e_account e)).

Definition create_valid (a : account) : bool :=
  negb (bool_decide (text (acc_uid a) = [])) && (negb (bool_decide (text (acc_pwd a) = [])) && (zlen (text (acc_pwd a)) <=? 16)) &&
  valid_type (acc_type a).

Definition create_spec (T : list session) (A : list acct) (d : Z) (a : account) : fields * list acct :=
  if negb (create_valid a) then (result_is account_r_illegal_parameter, A) else
  match List.find (by_fd d) T with
  | None => (result_is account_r_no_permission, A)
  | Some s =>
      if admin s =? 0 then (result_is account_r_no_permission, A) else
      match find_acct A (text (acc_uid a)) with
      | Some _ => (result_is account_r_create_uid_exist, A)
      | None => (result_is account_r_ok, A ++ [acct_of a])
      end
  end.

Lemma create_refines w T A e d pack f :
  ready w T A -> env_ok e -> d <> -1 -> carries pack f -> all_fields create_field f -> zlen A < INT_MAX ->
  answers (res_account_create w e d pack) (create_spec T A d (create_read e f)).1 T (create_spec T A d (create_read e f)).2.
Proof.
  intros R He Hd Hc Hf Hfew. destruct (create_locals_start _ (eo_account e He) (eo_type e He)) as [El Hs].
  destruct (read_request_spec pack f create_body create_step create_field create_shape _ Hc Hf Hs) as [E Ha];
    [intros; by apply create_body_step|intros; by apply create_step_shape|].
  fold (create_read e f) in E, Ha. set (a := create_read e f) in *.
  unfold res_account_create. rewrite El. cbn [mbind res_bind]. rewrite E. cbn [mbind res_bind].
  rewrite (new_pack_ready _ _ _ R). cbn [mbind res_bind]. destruct Ha as [Hz [(U1 & U2 & U3) Ul] Hty [P1 P2] (N1 & N2 & N3) (C1 & C2 & C3)].
  unfold and_then, valid_uid, valid_pwd, valid_nick, valid_comment. rewrite !valid_string_gen, !strlen_text by done.
  cbn [mbind res_bind]. replace (zlen (text (acc_uid a)) <=? 16) with true by lia.
  replace (zlen (text (acc_nick a)) <=? 64) with true by lia. replace (zlen (text (acc_comment a)) <=? 256) with true by lia.
  unfold create_spec, create_valid. rewrite andb_true_r.
  destruct (negb (bool_decide (text (acc_uid a) = []))); cbn [mbind res_bind andb negb fst snd]; [|by apply answer_result].
  destruct (negb (bool_decide (text (acc_pwd a) = [])) && (zlen (text (acc_pwd a)) <=? 16)) eqn:Ep; cbn [mbind res_bind andb negb fst snd];
    [|by apply answer_result].
  destruct (valid_type (acc_type a)) eqn:Et; cbn [mbind res_bind andb negb fst snd]; [|by apply answer_result].
  destruct (rd_sess _ _ _ R) as (HT & L & U). pose proof (ref_fd_held (w_sess w) T d HT L U Hd) as Rf.
  destruct (List.find (by_fd d) T) as [s|] eqn:Fs.
  2: { rewrite Rf. cbn [mbind res_bind Z.eqb negb fst snd]. apply answer_result; [|done]. by apply (ready_sess _ T). }
  destruct Rf as (ad & w1 & -> & _ & H2 & H3 & _). cbn [mbind res_bind Z.eqb Pos.eqb negb]. rewrite H2. cbn [mbind res_bind].
  rewrite H3. cbn [mbind res_bind]. pose proof (ready_sess w T A _ _ R (rd_sess _ _ _ R)) as R1.
  destruct (admin s =? 0); cbn [fst snd]; [by apply answer_result|].
  destruct (get_one_ready _ T A (acc_uid a) None R1) as (w2 & R2 & E2); [split; [done|]; split; [done|lia]|done|].
  rewrite E2. destruct (find_acct A (text (acc_uid a))) as [x|] eqn:F; cbn [mbind res_bind Z.eqb Pos.eqb fmap option_fmap option_map fst snd];
    [by apply answer_result|].
  destruct R2 as [Hs2 (db & Tb & Ed & I & HA) Hp2]. unfold dbp_of. rewrite Ed. cbn [mbind res_bind].
  destruct (account_add_spec db Tb A a I HA) as (d' & T' & a' & -> & I' & HA' & _); [|done|].
  { split; try done. unfold valid_type in Et. apply andb_prop in Et as [? ?]. unfold INT_MAX. lia. }
  unfold add_acct in *. assert (find_acct A (ac_uid (acct_of a)) = None) as F' by (cbn [acct_of ac_uid]; by rewrite Ul).
  rewrite F' in *. cbn [fst snd mbind res_bind Z.eqb Pos.eqb negb] in *. apply answer_result; [|done].
  split; [done|by exists d', T'|done].
Qed.

(** ** The database under a handler that holds a session *)

Definition db_ready (o : option dbp_inst) (A : list acct) : Prop := exists d Tb, o = Some d /\ idle d Tb /\ accounts Rest Tb A.

Lemma pwd_check_db w A u p :
  db_ready (w_dbp w) A -> plain 256 u -> a_pwd p ->
  exists o, db_ready o A /\ pwd_check w u p = Ok (if pwd_matches A (text u) (text p) then 1 else 0, set_dbp w o).
Proof.
  intros (d & Tb & Ed & I & HA) Hu (P1 & P2 & P3). destruct (pwd_check_spec d Tb A u p I HA Hu P1 P2 P3) as (d' & E & I').
  exists (Some d'). split; [by exists d', Tb|]. unfold pwd_check, dbp_of. rewrite Ed. cbn [mbind res_bind]. by rewrite I'.
Qed.

(** ** Requests of two short strings *)

Definition two_field (k1 k2 : list Z) (Q1 Q2 : list Z -> Prop) (n : list Z) (v : value) : Prop :=
  (n = k1 -> str_fit 16 v Q1) /\ (n = k2 -> str_fit 16 v Q2).

Definition two_step (k1 k2 : list Z) (n : list Z) (v : value) (a : pwd_args) : pwd_args :=
  if decide (n = k1) then match v with VStr s => mk_pwd_args (arr 17 s) (m_new a) | _ => a end
  else if decide (n = k2) then match v with VStr s => mk_pwd_args (m_old a) (arr 17 s) | _ => a end
  else a.

Record two_shape (Q1 Q2 : list Z -> Prop) (a : pwd_args) : Prop := {
  tw_old : terminated (m_old a) /\ Q1 (text (m_old a)) /\ length (m_old a) = 17%nat;
  tw_new : terminated (m_new a) /\ Q2 (text (m_new a)) /\ length (m_new a) = 17%nat;
}.

Definition two_read (k1 k2 : list Z) (f : fields) : pwd_args :=
  fold_request (two_step k1 k2) f (mk_pwd_args (local_string 17) (local_string 17)).

(** A loop that copies two named strings into arrays of seventeen characters. *)
Definition two_body (k1 k2 : list Z) (m : list Z) (iter : bson_iterator) (a : pwd_args) : res (turn pwd_args unit) :=
  _ ← ep_pack_iterator_type m iter;
  key ← ep_pack_iterator_key m iter;
  if decide (key = k1) then
    s ← ep_pack_iterator_string m iter;
    o ← strncpy (m_old a) (s ++ [0]) 17; Ok (Next (mk_pwd_args o (m_new a)))
  else if decide (key = k2) then
    s ← ep_pack_iterator_string m iter;
    n ← strncpy (m_new a) (s ++ [0]) 17; Ok (Next (mk_pwd_args (m_old a) n))
  else Ok (Next a).

Lemma two_request k1 k2 (Q1 Q2 : list Z -> Prop) pack f :
  Q1 [] -> Q2 [] -> carries pack f -> all_fields (two_field k1 k2 Q1 Q2) f ->
  read_request pack (two_body k1 k2) (mk_pwd_args (local_string 17) (local_string 17)) = Ok (two_read k1 k2 f) /\
  two_shape Q1 Q2 (two_read k1 k2 f).
Proof.
  intros E1 E2 Hc Hf. eapply (read_request_spec pack f _ (two_step k1 k2) _ (two_shape Q1 Q2)); [done|exact Hf| | |].
  - split; cbn [m_old m_new]; (split; [by exists []|done]).
  - intros m it n v a Ha (H1 & H2) [(O1 & O2 & O3) (N1 & N2 & N3)]. unfold two_body, two_step.
    rewrite (field_type _ _ _ _ Ha). cbn [mbind res_bind]. rewrite (field_key _ _ _ _ Ha). cbn [mbind res_bind].
    repeat case_decide; [destruct (H1 ltac:(done)) as (s & -> & Z & K & Q)|destruct (H2 ltac:(done)) as (s & -> & Z & K & Q)|done];
      rewrite (field_str _ _ _ _ Ha); cbn [mbind res_bind]; unfold zlen in K; by rewrite (strncpy_arr _ s 17) by (try done; lia).
  - intros n v a (H1 & H2) [HO HN]. unfold two_step.
    repeat case_decide; [destruct (H1 ltac:(done)) as (s & -> & Z & K & Q)|destruct (H2 ltac:(done)) as (s & -> & Z & K & Q)|by split];
      (assert (length s < 17)%nat as L by (unfold zlen in K; lia); destruct (arr_text 17 s Z L) as [Et Ct];
       split; cbn [m_old m_new]; [try done|try done]; (split; [done|]); (split; [by rewrite Et|by apply arr_len])).
Qed.

Lemma short17 buf : terminated buf -> length buf = 17%nat -> zlen (text buf) <= 16.
Proof. intros H L. pose proof (text_short _ H). unfold zlen in *. lia. Qed.

(** ** Deletion *)

Definition is_admin (a : acct) : bool := ac_type a =? account_admin.
Definition admins (A : list acct) : Z := zlen (List.filter is_admin A).

Lemma count_admins_filter l :
  count_admins (length l) l = Ok (zlen (List.filter (fun a => acc_type a =? account_admin) l)).
Proof.
  induction l as [|a l IH]; [done|]. cbn [length count_admins List.filter]. rewrite IH. cbn [mbind res_bind].
  destruct (acc_type a =? account_admin); [|done]. rewrite zlen_cons. f_equal. lia.
Qed.

Lemma filter_perm {X} (p : X -> bool) l l' : l ≡ₚ l' -> List.filter p l ≡ₚ List.filter p l'.
Proof.
  induction 1 as [|x l l' _ IH|x y l|l l' l'' _ IH1 _ IH2]; cbn [List.filter]; [done| | |by rewrite IH1].
  - destruct (p x); by rewrite IH.
  - destruct (p x), (p y); try done. apply Permutation_swap.
Qed.

Lemma count_admins_perm l A : l ≡ₚ map handed_out A -> count_admins (length l) l = Ok (admins A).
Proof.
  intros P. rewrite count_admins_filter. f_equal. unfold admins, zlen. f_equal. rewrite (filter_perm _ _ _ P).
  clear P. induction A as [|a A IH]; [done|]. cbn [map List.filter handed_out record_of acc_type]. unfold is_admin at 1.
  destruct (ac_type a =? account_admin); cbn [length]; by rewrite IH.
Qed.

(** [m_old] is the password of the one who asks, [m_new] the user to delete. *)
Definition delete_spec (T : list session) (A : list acct) (d : Z) (a : pwd_args) : fields * list session * list acct :=
  if bool_decide (text (m_new a) = []) || bool_decide (text (m_old a) = []) then (result_is account_r_illegal_parameter, T, A) else
  match List.find (by_fd d) T with
  | None => (result_is account_r_session_expired, T, A)
  | Some s =>
      if negb (pwd_matches A (text (uid s)) (text (m_old a))) then (result_is account_r_old_pwd_incorrect, T, A) else
      if bool_decide (text (uid s) = text (m_new a)) then
        if (a_type s =? account_admin) && (admins A <=? 1) then (result_is account_r_cannot_delete_last_admin, T, A)
        else (result_is account_r_ok, keep (by_uid session_token (m_new a)) (keep (by_fd d) T), delete_acct A (text (m_new a)))
      else if admin s =? 0 then (result_is account_r_no_permission, T, A)
      else (result_is account_r_ok, T, delete_acct A (text (m_new a)))
  end.

(** The request whose answer keeps the lock of the session table: the password is not the one of
    the user on the connection. *)
Definition delete_locks (T : list session) (A : list acct) (d : Z) (a : pwd_args) : bool :=
  negb (bool_decide (text (m_new a) = []) || bool_decide (text (m_old a) = [])) &&
  match List.find (by_fd d) T with None => false | Some s => negb (pwd_matches A (text (uid s)) (text (m_old a))) end.

Lemma admins_ready o A :
  db_ready o A -> exists db count arr db', o = Some db /\ db_account_get db = Ok (count, arr, db') /\ db_ready (Some db') A /\
    (if count =? 0 then Ok 0
     else match arr with
          | None => Fault WildPointer
          | Some l => c ← count_admins (Z.to_nat count) l; _ ← db_account_get_free arr; Ok c
          end) = Ok (admins A).
Proof.
  intros (db & Tb & -> & I & HA). destruct (account_get_spec db Tb A I HA) as (db' & ar & E & I' & P & Hne).
  exists db, (zlen A), ar, db'. split; [done|]. split; [done|]. split; [by exists db', Tb|].
  destruct (Z.eqb_spec (zlen A) 0) as [E0|E0]; [destruct A; [done|unfold zlen in E0; cbn in E0; lia]|].
  destruct ar as [l|]; [|destruct Hne; [intros ->; done|done]]. cbn [default from_option id] in P.
  replace (Z.to_nat (zlen A)) with (length l) by (rewrite P, length_map; unfold zlen; lia). by rewrite (count_admins_perm _ _ P).
Qed.

Lemma delete_row_spec w T A u :
  sess_table (w_sess w) T -> w_pal w = [] -> db_ready (w_dbp w) A -> plain 16 u ->
  answers (delete_row w u fresh) (result_is account_r_ok) T (delete_acct A (text u)).
Proof.
  intros HT Hp (db & Tb & Ed & I & HA) Hu. unfold delete_row, dbp_of. rewrite Ed. cbn [mbind res_bind].
  destruct (account_del_spec db Tb A u I HA (plain_mono 16 256 u Hu ltac:(lia))) as (d' & T' & -> & I' & HA'). cbn [mbind res_bind Z.eqb].
  apply answer_result; [|done]. split; [done|by exists d', T'|done].
Qed.

Lemma delete_own w T A d s a w1 :
  sess_table (w_sess w) T -> w_pal w = [] -> db_ready (w_dbp w) A -> plain 16 (m_new a) -> held (w_sess w) w1 s.1 s.2 ->
  answers
    (sw ← dref w1 s.1; '(_, sw) ← session_del_fd sw d; '(_, sw) ← session_del_token sw (m_new a);
     delete_row (set_sess w sw) (m_new a) fresh)
    (result_is account_r_ok) (keep (by_uid session_token (m_new a)) (keep (by_fd d) T)) (delete_acct A (text (m_new a))).
Proof.
  intros HT Hp HA Hu (_ & H2 & _ & _). rewrite H2. cbn [mbind res_bind].
  destruct (del_fd_table _ T d HT) as (r1 & sw1 & -> & HT1). cbn [mbind res_bind].
  destruct (del_token_table sw1 _ (m_new a) HT1) as (r2 & sw2 & -> & HT2); [apply Hu|]. cbn [mbind res_bind].
  by apply delete_row_spec.
Qed.

Lemma delete_refines w T A d pack f :
  ready w T A -> d <> -1 -> carries pack f -> all_fields (two_field f_old_pwd f_uid (Forall is_byte) no_quote) f -> sess_plain T ->
  let a := two_read f_old_pwd f_uid f in
  delete_locks T A d a = false ->
  answers (res_account_delete w d pack) (delete_spec T A d a).1.1 (delete_spec T A d a).1.2 (delete_spec T A d a).2.
Proof.
  intros R Hd Hc Hf HP a Hk.
  destruct (two_request f_old_pwd f_uid (Forall is_byte) no_quote pack f) as [E [(O1 & O2 & O3) (N1 & N2 & N3)]]; [constructor|constructor|done|done|].
  fold a in E, O1, O2, O3, N1, N2, N3. unfold res_account_delete. change delete_body with (two_body f_old_pwd f_uid). rewrite E. cbn [mbind res_bind].
  rewrite (new_pack_ready _ _ _ R). cbn [mbind res_bind]. unfold and_then, valid_uid, valid_pwd.
  rewrite !valid_string_text by (try done; by apply short17). cbn [mbind res_bind]. unfold delete_spec. unfold delete_locks in Hk.
  destruct (bool_decide (text (m_new a) = [])); cbn [negb orb mbind res_bind fst snd]; [by apply answer_result|].
  destruct (bool_decide (text (m_old a) = [])); cbn [negb orb mbind res_bind fst snd]; [by apply answer_result|].
  destruct (rd_sess _ _ _ R) as (HT & L & U). pose proof (ref_fd_held (w_sess w) T d HT L U Hd) as Rf. cbn [orb negb andb] in Hk.
  destruct (List.find (by_fd d) T) as [s|] eqn:Fs.
  2: { rewrite Rf. cbn [mbind res_bind Z.eqb fst snd]. apply answer_result; [|done]. by apply (ready_sess _ T). }
  destruct Rf as (ad & w1 & -> & Hh). pose proof Hh as (H1 & H2 & H3 & _). cbn [mbind res_bind Z.eqb set_sess w_sess]. rewrite H1. cbn [mbind res_bind].
  apply List.find_some in Fs as [Fs _]. unfold sess_plain in HP. rewrite List.Forall_forall in HP. destruct (HP s Fs) as [Hs _].
  destruct (pwd_check_db (set_sess w w1) A (uid s) (m_old a)) as (o & Ho & ->);
    [apply R|by apply (plain_mono 16)|split; [done|]; split; [done|]; pose proof (short17 _ O1 O3); lia|].
  apply negb_false_iff in Hk. rewrite Hk. cbn [negb mbind res_bind Z.eqb]. rewrite strcmp_text by (first [apply Hs|done]). cbn [mbind res_bind].
  assert (plain 16 (m_new a)) as Hu by (split; [done|]; split; [done|by apply short17]).
  destruct (bool_decide (text (uid s) = text (m_new a))); cbn [set_dbp set_sess w_sess w_dbp w_pal].
  - destruct (a_type s =? account_admin) eqn:Ea; cbn [andb].
    + destruct (admins_ready o A Ho) as (db & count & ar & db' & -> & Eg & Ho' & Ec). unfold dbp_of. cbn [set_dbp set_sess w_dbp mbind res_bind].
      rewrite Eg. cbn [mbind res_bind]. rewrite Ec. cbn [mbind res_bind set_dbp set_sess w_sess w_dbp w_pal].
      destruct (admins A <=? 1); cbn [fst snd].
      * cbn [set_dbp set_sess w_sess w_dbp w_pal]; rewrite H2. cbn [mbind res_bind]. apply answer_result; [|done]. split; [apply R|exact Ho'|apply R].
      * apply (delete_own (mk_world (w_sess w) (Some db') (w_pal w)) T A d (ad, s) a w1); try done; apply R.
    + cbn [mbind res_bind fst snd]. apply (delete_own (mk_world (w_sess w) o (w_pal w)) T A d (ad, s) a w1); try done; apply R.
  - destruct (admin s =? 0); cbn [fst snd]; cbn [set_dbp set_sess w_sess w_dbp w_pal]; rewrite H2; cbn [mbind res_bind].
    + apply answer_result; [|done]. split; [apply R|exact Ho|apply R].
    + apply delete_row_spec; try done; apply R.
Qed.

(** An administrator who deletes himself leaves another one. *)
Lemma admins_delete A u : NoDup (map ac_uid A) -> admins A <= admins (delete_acct A u) + 1.
Proof.
  unfold admins, delete_acct. induction A as [|a A IH]; cbn [map]; intros N; [cbn; lia|]. apply NoDup_cons in N as [Ni N].
  specialize (IH N). cbn [List.filter]. unfold by_name at 1. destruct (decide (ac_uid a = u)) as [<-|Hne].
  - rewrite bool_decide_eq_true_2 by done. cbn [negb].
    replace (List.filter (fun a0 => negb (by_name (ac_uid a) a0)) A) with A.
    + destruct (is_admin a); rewrite ?zlen_cons; lia.
    + symmetry. clear IH N. induction A as [|b A IH]; [done|]. cbn [map] in Ni. apply not_elem_of_cons in Ni as [N1 N2].
      cbn [List.filter]. unfold by_name at 1. rewrite bool_decide_eq_false_2 by done. cbn [negb]. by rewrite IH.
  - rewrite bool_decide_eq_false_2 by done. cbn [negb List.filter]. destruct (is_admin a); rewrite ?zlen_cons; lia.
Qed.

(** ** The password *)

Definition modify_pwd_spec (T : list session) (A : list acct) (d : Z) (a : pwd_args) : fields * list acct :=
  if bool_decide (text (m_old a) = []) || bool_decide (text (m_new a) = []) then (result_is account_r_illegal_parameter, A) else
  if bool_decide (text (m_old a) = text (m_new a)) then (result_is account_r_modify_pwd_same, A) else
  match List.find (by_fd d) T with
  | None => (result_is account_r_session_expired, A)
  | Some s =>
      if pwd_matches A (text (m_old a)) (text (m_old a))
      then (result_is account_r_ok, update_acct (with_hash (pwd_hash (text (m_new a)))) A (text (uid s)))
      else (result_is account_r_old_pwd_incorrect, A)
  end.

Lemma modify_pwd_refines w T A d pack f :
  ready w T A -> d <> -1 -> carries pack f -> sess_plain T ->
  all_fields (two_field f_old_pwd f_new_pwd (fun s => Forall is_byte s /\ no_quote s) (Forall is_byte)) f ->
  let a := two_read f_old_pwd f_new_pwd f in
  answers (res_account_modify_pwd w d pack) (modify_pwd_spec T A d a).1 T (modify_pwd_spec T A d a).2.
Proof.
  intros R Hd Hc HP Hf a.
  destruct (two_request f_old_pwd f_new_pwd _ _ pack f (conj (Forall_nil_2 _) (Forall_nil_2 _)) (Forall_nil_2 _) Hc Hf)
    as [E [(O1 & [O2 O4] & O3) (N1 & N2 & N3)]].
  fold a in E, O1, O2, O3, O4, N1, N2, N3. pose proof (short17 _ O1 O3) as LO. pose proof (short17 _ N1 N3) as LN.
  unfold res_account_modify_pwd. change modify_pwd_body with (two_body f_old_pwd f_new_pwd). rewrite E. cbn [mbind res_bind].
  rewrite (new_pack_ready _ _ _ R). cbn [mbind res_bind]. unfold and_then, valid_pwd.
  rewrite !valid_string_text by done. cbn [mbind res_bind]. unfold modify_pwd_spec.
  destruct (bool_decide (text (m_old a) = [])); cbn [negb orb mbind res_bind fst snd]; [by apply answer_result|].
  destruct (bool_decide (text (m_new a) = [])); cbn [negb orb mbind res_bind fst snd]; [by apply answer_result|].
  rewrite strcmp_text by done. cbn [mbind res_bind].
  destruct (bool_decide (text (m_old a) = text (m_new a))); cbn [fst snd]; [by apply answer_result|].
  destruct (rd_sess _ _ _ R) as (HT & L & U). pose proof (ref_fd_held (w_sess w) T d HT L U Hd) as Rf.
  destruct (List.find (by_fd d) T) as [s|] eqn:Fs.
  2: { rewrite Rf. cbn [mbind res_bind Z.eqb fst snd]. apply answer_result; [|done]. by apply (ready_sess _ T). }
  destruct Rf as (ad & w1 & -> & H1 & H2 & _). cbn [mbind res_bind Z.eqb].
  apply List.find_some in Fs as [Fs _]. unfold sess_plain in HP. rewrite List.Forall_forall in HP. destruct (HP s Fs) as [Hs _].
  destruct (pwd_check_db (set_sess w w1) A (m_old a) (m_old a)) as (o & (db & Tb & -> & I & HA) & ->);
    [apply R|split; [done|]; split; [done|lia]|split; [done|]; split; [done|lia]|].
  cbn [mbind res_bind]. destruct (pwd_matches A (text (m_old a)) (text (m_old a))); cbn [Z.eqb fst snd set_dbp set_sess w_sess w_dbp w_pal].
  - rewrite H1. cbn [mbind res_bind]. unfold dbp_of. cbn [set_dbp set_sess w_dbp w_sess w_pal mbind res_bind].
    destruct (update_pwd_spec db Tb A (uid s) (m_new a) I HA (plain_mono 16 256 _ Hs ltac:(lia)) N1 N2 ltac:(lia)) as (d' & T' & -> & I' & HA').
    cbn [set_dbp set_sess w_dbp w_sess w_pal mbind res_bind]. rewrite H2. cbn [mbind res_bind Z.eqb]. apply answer_result; [|done]. split; [apply R|by exists d', T'|apply R].
  - rewrite H2. cbn [mbind res_bind]. apply answer_result; [|done]. split; [apply R|by exists db, Tb|apply R].
Qed.

End spec.
Arguments db_ready {S SL} Rest o A.
End AccountAdmin.
