(* ===== verification/AccountRun.v ===== *)
(** * AccountRun: the account service over many requests

    The list of accounts, the modification of the notes, and what the handlers do together: any
    sequence of requests that respect the sizes and the alphabet of the server is answered as the
    lists of sessions and accounts say. The file also holds the requests that break the service. *)
From Stdlib Require Import String.
From S2P Require Import Prelude Alloc Cstr Words Bson Packet PackLoop Session Sha Fmt Sql Dbp Accounts Guid ResAccount AccountSpec AccountAdmin.
From stdpp Require Import gmap.
Import Alloc Cstr Words Bson Packet PackLoop Session Pwd Fmt Sql Dbp Accounts Guid ResAccount AccountSpec AccountAdmin.
Open Scope Z_scope.

Module AccountRun.

Section spec.
Context `{S : Sqlite} {SL : SqliteLaws S} {Rest : tables -> Prop} {HRest : Framed Rest}.
#[local] Set Default Proof Using "Type*".
#[local] Notation ready := (ready Rest).
#[local] Notation answers := (answers Rest).
#[local] Notation db_ready := (db_ready Rest).

(** ** The list *)

Definition account_one (a : acct) : fields :=
  FCons f_type (VInt (ac_type a)) (FCons f_uid (VStr (ac_uid a)) (FCons f_nick (VStr (ac_nick a))
    (FCons f_comment (VStr (ac_comment a)) FNil))).

Fixpoint account_objects (B : list acct) : fields :=
  match B with [] => FNil | a :: B => FCons f_account_one (VObj (account_one a)) (account_objects B) end.

Definition list_fields (B : list acct) : fields :=
  FCons f_result (VInt dish_r_ok) (FCons f_count (VInt (zlen B))
    (match B with [] => FNil | _ => FCons f_account (VArr (account_objects B)) FNil end)).

Lemma append_accounts_build B : forall p,
  Forall acct_ok B -> append_accounts (length B) (map handed_out B) p = build_fields p (account_objects B).
Proof.
  induction B as [|a B IH]; intros p Hok; [done|]. apply Forall_cons in Hok as [Ha Hok].
  destruct (record_text a (blank_account 0 0) Ha) as (T1 & T2 & T3).
  cbn [length map append_accounts account_objects build_fields build_value account_one]. change (handed_out a) with (record_of a (blank_account 0 0)). unfold append_cstr.
  rewrite T1, T2, T3. cbn [record_of acc_type mbind res_bind].
  destruct (ep_pack_append_start_object p f_account_one) as [p0|]; [|done]. cbn [mbind res_bind].
  destruct (ep_pack_append_int p0 f_type (ac_type a)) as [p1|]; [|done]. cbn [mbind res_bind].
  destruct (ep_pack_append_string p1 f_uid (ac_uid a)) as [p2|]; [|done]. cbn [mbind res_bind].
  destruct (ep_pack_append_string p2 f_nick (ac_nick a)) as [p3|]; [|done]. cbn [mbind res_bind].
  destruct (ep_pack_append_string p3 f_comment (ac_comment a)) as [p4|]; [|done]. cbn [mbind res_bind].
  destruct (ep_pack_append_finish_object p4) as [p5|]; [|done]. cbn [mbind res_bind]. by apply IH.
Qed.

Lemma objects_fit B :
  Forall acct_ok B -> legible B -> fields_ok (account_objects B) /\ zlen (enc_fields (account_objects B)) <= 1000 * zlen B.
Proof.
  induction B as [|a B IH]; intros Hok HL; [done|]. apply Forall_cons in Hok as [[[X1 X2] Ht _ [N1 N2] [C1 C2]] Hok].
  apply Forall_cons in HL as [(U0 & U1 & U2) HL]. destruct (IH Hok HL) as [I1 I2]. split.
  - split; [name_lit|]. split; [|done]. split; [name_lit|]. split; [done|]. split; [name_lit|]. split; [done|].
    split; [name_lit|]. split; [done|]. split; [name_lit|]. split; done.
  - cbn [account_objects account_one enc_fields enc_value type_code]. unfold doc. autorewrite with ymlen. rewrite !zlen_le_bytes.
    change (zlen f_type) with 4. change (zlen f_nick) with 4. change (zlen f_comment) with 7. change (zlen f_account_one) with 11.
    change (zlen f_uid) with 3. change (zlen (@nil Z)) with 0. lia.
Qed.

Lemma list_fields_build B :
  Forall acct_ok B -> legible B -> zlen B <= 100000 -> exists p, build_fields fresh (list_fields B) = Ok p.
Proof.
  intros Hok HL Hb. destruct (objects_fit B Hok HL) as [H1 H2]. destruct (build_finish (list_fields B)) as (p & _ & E & _); [|by exists p].
  pose proof (zlen_nonneg B). split.
  - split; [name_lit|]. split; [done|]. split; [name_lit|]. split; [cbn; unfold is_i32; lia|]. destruct B; [done|].
    split; [name_lit|]. by split.
  - destruct B as [|b B]; [vm_compute; done|]. set (os := account_objects (b :: B)) in *.
    cbn [list_fields enc_fields enc_value type_code]. fold os. unfold doc. autorewrite with ymlen. rewrite !zlen_le_bytes.
    change (zlen f_result) with 6. change (zlen f_count) with 5. change (zlen f_account) with 7. change (zlen (@nil Z)) with 0.
    unfold LIM. rewrite zlen_cons in *. lia.
Qed.

Lemma append_list B arr p (w : world) :
  Forall acct_ok B -> default [] arr = map handed_out B -> (B <> [] -> arr <> None) ->
  (p ← ep_pack_append_int p f_result dish_r_ok;
   p ← ep_pack_append_int p f_count (zlen B);
   if zlen B =? 0 then Ok (Some p, w) else
   match arr with
   | None => Fault WildPointer
   | Some l =>
       p ← ep_pack_append_start_array p f_account;
       p ← append_accounts (Z.to_nat (zlen B)) l p;
       p ← ep_pack_append_finish_array p;
       Ok (Some p, w)
   end : res (option ep_pack * world))
  = (p ← build_fields p (list_fields B); Ok (Some p, w)).
Proof.
  intros Hok Ea Hne. unfold list_fields. cbn [build_fields build_value].
  destruct (ep_pack_append_int p f_result dish_r_ok) as [p1|]; [|done]. cbn [mbind res_bind].
  destruct (ep_pack_append_int p1 f_count (zlen B)) as [p2|]; [|done]. cbn [mbind res_bind].
  destruct B as [|b B]; [done|]. destruct (Z.eqb_spec (zlen (b :: B)) 0) as [E0|E0]; [rewrite zlen_cons in E0; pose proof (zlen_nonneg B); lia|].
  destruct arr as [l|]; [|by destruct Hne]. cbn [default from_option id] in Ea. subst l. cbn [build_fields build_value].
  destruct (ep_pack_append_start_array p2 f_account) as [p3|]; [|done]. cbn [mbind res_bind].
  replace (Z.to_nat (zlen (b :: B))) with (length (b :: B)) by (unfold zlen; lia). rewrite append_accounts_build by done.
  destruct (build_fields p3 (account_objects (b :: B))) as [p4|]; [|done]. cbn [mbind res_bind].
  by destruct (ep_pack_append_finish_array p4).
Qed.

(** What a listing of the accounts [B] answers, for the session on the connection. *)
Definition list_answer (T : list session) (d : Z) (B : list acct) : fields :=
  match List.find (by_fd d) T with
  | None => result_is dish_r_no_permission
  | Some s => if a_type s =? account_admin then list_fields B else result_is dish_r_no_permission
  end.

Lemma legible_perm A B : A ≡ₚ B -> legible A -> legible B.
Proof. intros P HL. unfold legible. by rewrite <- P. Qed.

Lemma list_refines w T A d :
  ready w T A -> d <> -1 -> legible A -> zlen A <= 100000 ->
  exists B, B ≡ₚ A /\ answers (res_account_list w d) (list_answer T d B) T A.
Proof.
  intros R Hd HL Hb. unfold res_account_list, list_answer.
  destruct (rd_sess _ _ _ R) as (HT & L & U). pose proof (ref_fd_held (w_sess w) T d HT L U Hd) as Rf.
  assert (set_sess w (w_sess w) = w) as Ew by by destruct w.
  destruct (List.find (by_fd d) T) as [s|] eqn:Fs.
  2: { rewrite Rf. cbn [mbind res_bind Z.eqb]. rewrite Ew, (new_pack_ready _ _ _ R). cbn [mbind res_bind]. exists A. split; [done|]. by apply answer_result. }
  destruct Rf as (ad & w1 & -> & H1 & H2 & _). cbn [mbind res_bind Z.eqb]. rewrite H1. cbn [mbind res_bind]. rewrite H2. cbn [mbind res_bind].
  rewrite Ew, (new_pack_ready _ _ _ R). cbn [mbind res_bind].
  destruct (a_type s =? account_admin); cbn [negb]; [|exists A; split; [done|by apply answer_result]].
  pose proof R as [Hs (db & Tb & Ed & I & HA) Hp]. unfold dbp_of. rewrite Ed. cbn [mbind res_bind].
  destruct (account_get_spec db Tb A I HA) as (db' & ar & -> & I' & P & Hne). cbn [mbind res_bind].
  destruct (Permutation_map_inv handed_out _ P) as (B & EB & PB). exists B. split; [done|].
  assert (Forall acct_ok B) as Hok by (rewrite <- PB; apply HA). assert (legible B) as HLB by by apply (legible_perm A).
  assert (zlen B = zlen A) as LB by (unfold zlen; by rewrite PB).
  destruct (list_fields_build B Hok HLB ltac:(lia)) as [p Ep]. exists p, (set_dbp w (Some db')). split; [exact Ep|].
  split; [|clear Ep; split; [exact Hs|by exists db', Tb|exact Hp]]. rewrite <- LB.
  rewrite (append_list B ar fresh _ Hok EB); [rewrite Ep; reflexivity|]. clear Ep. intros HB. apply Hne. intros ->. by apply Permutation_nil_l in PB.
Qed.

(** ** The lock that is kept *)

(** No session can be added or removed any more. *)
Definition stuck (w : sessions) : Prop :=
  (forall s, session_add w s = Fault SelfDeadlock) /\ (forall d, session_del_fd w d = Fault SelfDeadlock) /\
  (forall u, session_del_token w u = Fault SelfDeadlock).

Lemma locked_stuck w : w_lock w = true -> stuck w.
Proof.
  intros L. unfold stuck, session_add, session_del_fd, session_del_token, del_with, lock. by rewrite L.
Qed.

Definition basic_step (n : list Z) (v : value) (a : basic_args) : basic_args :=
  if decide (n = f_nick) then match v with VStr s => mk_basic (arr 17 s) (b_comment a) | _ => a end
  else if decide (n = f_comment) then match v with VStr s => mk_basic (b_nick a) (arr 17 s) | _ => a end
  else a.

Definition basic_read (f : fields) : basic_args := fold_request basic_step f (mk_basic (local_string 17) (local_string 17)).

Definition short_plain (buf : list Z) : Prop := plain 16 buf /\ length buf = 17%nat.

Lemma arr_short s : no_zero s -> zlen s <= 16 -> no_quote s -> short_plain (arr 17 s).
Proof.
  intros Z K Q. assert (length s < 17)%nat by (unfold zlen in K; lia). split; [by apply arr_plain|by apply arr_len].
Qed.

Lemma basic_request pack f :
  carries pack f -> all_fields (two_field f_nick f_comment no_quote no_quote) f ->
  read_request pack modify_basic_body (mk_basic (local_string 17) (local_string 17)) = Ok (basic_read f) /\
  short_plain (b_nick (basic_read f)) /\ short_plain (b_comment (basic_read f)).
Proof.
  intros Hc Hf. eapply (read_request_spec pack f _ basic_step _ (fun a => short_plain (b_nick a) /\ short_plain (b_comment a))); [done|exact Hf| | |].
  - assert (short_plain (local_string 17)) by (split; [split; [by exists []|split; [constructor|done]]|done]). done.
  - intros m it n v a Ha (H1 & H2) [[_ L1] [_ L2]]. unfold modify_basic_body, basic_step.
    rewrite (field_type _ _ _ _ Ha). cbn [mbind res_bind]. rewrite (field_key _ _ _ _ Ha). cbn [mbind res_bind].
    repeat case_decide; [destruct (H1 ltac:(done)) as (s & -> & Z & K & Q)|destruct (H2 ltac:(done)) as (s & -> & Z & K & Q)|done];
      rewrite (field_str _ _ _ _ Ha); cbn [mbind res_bind]; unfold zlen in K; by rewrite (strncpy_arr _ s 17) by (try done; lia).
  - intros n v a (H1 & H2) [HN HC]. unfold basic_step.
    repeat case_decide; [destruct (H1 ltac:(done)) as (s & -> & Z & K & Q)|destruct (H2 ltac:(done)) as (s & -> & Z & K & Q)|done];
      cbn [b_nick b_comment]; split; try done; by apply arr_short.
Qed.

Definition modify_basic_accounts (A : list acct) (u : list Z) (a : basic_args) : list acct :=
  update_acct (with_comment (text (b_comment a))) (update_acct (with_nick (text (b_nick a))) A u) u.

Definition basic_spec (T : list session) (A : list acct) (d : Z) (a : basic_args) : fields * list acct :=
  match List.find (by_fd d) T with
  | None => (result_is account_r_session_expired, A)
  | Some s => (result_is account_r_ok, modify_basic_accounts A (text (uid s)) a)
  end.

(** [res_account_modify_basic] never gives its reference to the session back. For a user who is
    logged in the two columns are updated and the answer is success, but the lock of the session
    table stays taken: after it no session can be added or removed, so the next login, logout or
    end of a connection waits for ever. *)
Theorem modify_basic_keeps_lock w T A d pack f s :
  ready w T A -> d <> -1 -> carries pack f -> all_fields (two_field f_nick f_comment no_quote no_quote) f -> sess_plain T ->
  List.find (by_fd d) T = Some s ->
  exists p w', res_account_modify_basic w d pack = Ok (Some p, w') /\ build_fields fresh (result_is account_r_ok) = Ok p /\
    db_ready (w_dbp w') (modify_basic_accounts A (text (uid s)) (basic_read f)) /\ stuck (w_sess w').
Proof.
  intros R Hd Hc Hf HP Fs. destruct (basic_request pack f Hc Hf) as (E & [[N1 [N2 N3]] _] & [C _]). set (a := basic_read f) in *.
  unfold res_account_modify_basic. rewrite E. cbn [mbind res_bind]. rewrite (new_pack_ready _ _ _ R). cbn [mbind res_bind].
  destruct (rd_sess _ _ _ R) as (HT & L & U). pose proof (ref_fd_held (w_sess w) T d HT L U Hd) as Rf. rewrite Fs in Rf.
  destruct Rf as (ad & w1 & -> & H1 & _ & _ & H4). cbn [mbind res_bind Z.eqb set_sess w_sess]. rewrite H1. cbn [mbind res_bind].
  apply List.find_some in Fs as [Fs _]. unfold sess_plain in HP. rewrite List.Forall_forall in HP. destruct (HP s Fs) as [Hs _].
  apply (plain_mono 16 256) in Hs; [|lia]. apply (plain_mono 16 256) in C; [|lia].
  destruct R as [_ (db & Tb & Ed & I & HA) Hp]. unfold dbp_of. cbn [w_dbp set_sess]. rewrite Ed. cbn [mbind res_bind].
  destruct (update_nick_spec db Tb A (uid s) (b_nick a) I HA Hs) as (d1 & T1 & -> & I1 & HA1); [split; [done|]; split; [done|lia]|].
  cbn [mbind res_bind Z.eqb set_dbp set_sess w_sess]. rewrite H1. cbn [mbind res_bind].
  destruct (update_comment_spec d1 T1 _ (uid s) (b_comment a) I1 HA1 Hs C) as (d2 & T2 & -> & I2 & HA2).
  cbn [mbind res_bind Z.eqb set_dbp w_sess w_pal].
  destruct (build_finish (result_is account_r_ok)) as (p & _ & Ep & _).
  { split; [split; [name_lit|by split]|vm_compute; done]. }
  exists p. eexists. unfold answer_int. cbn [result_is build_fields build_value] in *.
  destruct (ep_pack_append_int fresh f_result account_r_ok) as [p1|]; [|done]. cbn [mbind res_bind] in *. injection Ep as ->.
  split; [done|]. split; [done|]. split; [by exists d2, T2|]. by apply locked_stuck.
Qed.

(** [res_account_delete] keeps the lock too when the password is wrong: nothing is deleted, the
    answer is [account_r_old_pwd_incorrect], and no session can be added or removed afterwards. One
    mistyped password stops the server. *)
Theorem delete_wrong_pwd_keeps_lock w T A d pack f s :
  ready w T A -> d <> -1 -> carries pack f -> all_fields (two_field f_old_pwd f_uid (Forall is_byte) no_quote) f -> sess_plain T ->
  let a := two_read f_old_pwd f_uid f in
  List.find (by_fd d) T = Some s -> text (m_new a) <> [] -> text (m_old a) <> [] ->
  pwd_matches A (text (uid s)) (text (m_old a)) = false ->
  exists p w', res_account_delete w d pack = Ok (Some p, w') /\ build_fields fresh (result_is account_r_old_pwd_incorrect) = Ok p /\
    db_ready (w_dbp w') A /\ stuck (w_sess w').
Proof.
  intros R Hd Hc Hf HP a Fs Hn Ho Hk.
  destruct (two_request f_old_pwd f_uid (Forall is_byte) no_quote pack f) as [E [(O1 & O2 & O3) (N1 & N2 & N3)]]; [constructor|constructor|done|done|].
  fold a in E, O1, O2, O3, N1, N2, N3. unfold res_account_delete. change delete_body with (two_body f_old_pwd f_uid). rewrite E. cbn [mbind res_bind].
  rewrite (new_pack_ready _ _ _ R). cbn [mbind res_bind]. unfold and_then, valid_uid, valid_pwd.
  rewrite !valid_string_text by (try done; by apply short17). rewrite !bool_decide_eq_false_2 by done. cbn [mbind res_bind negb].
  destruct (rd_sess _ _ _ R) as (HT & L & U). pose proof (ref_fd_held (w_sess w) T d HT L U Hd) as Rf. rewrite Fs in Rf.
  destruct Rf as (ad & w1 & -> & H1 & _ & _ & H4). cbn [mbind res_bind Z.eqb set_sess w_sess]. rewrite H1. cbn [mbind res_bind].
  apply List.find_some in Fs as [Fs _]. unfold sess_plain in HP. rewrite List.Forall_forall in HP. destruct (HP s Fs) as [Hs _].
  destruct (pwd_check_db (set_sess w w1) A (uid s) (m_old a)) as (o & Hdb & ->);
    [apply R|by apply (plain_mono 16)|split; [done|]; split; [done|]; pose proof (short17 _ O1 O3); lia|].
  rewrite Hk. cbn [mbind res_bind Z.eqb].
  destruct (build_finish (result_is account_r_old_pwd_incorrect)) as (p & _ & Ep & _).
  { split; [split; [name_lit|by split]|vm_compute; done]. }
  exists p. eexists. unfold answer_int. cbn [result_is build_fields build_value] in *.
  destruct (ep_pack_append_int fresh f_result account_r_old_pwd_incorrect) as [p1|]; [|done]. cbn [mbind res_bind] in *. injection Ep as ->.
  split; [done|]. split; [done|]. split; [done|]. by apply locked_stuck.
Qed.

Lemma modify_basic_refuses w T A d pack f :
  ready w T A -> d <> -1 -> carries pack f -> all_fields (two_field f_nick f_comment no_quote no_quote) f ->
  List.find (by_fd d) T = None ->
  answers (res_account_modify_basic w d pack) (result_is account_r_session_expired) T A.
Proof.
  intros R Hd Hc Hf Fs. destruct (basic_request pack f Hc Hf) as (E & _).
  unfold res_account_modify_basic. rewrite E. cbn [mbind res_bind]. rewrite (new_pack_ready _ _ _ R). cbn [mbind res_bind].
  destruct (rd_sess _ _ _ R) as (HT & L & U). pose proof (ref_fd_held (w_sess w) T d HT L U Hd) as Rf. rewrite Fs in Rf.
  rewrite Rf. cbn [mbind res_bind Z.eqb]. apply answer_result; [|done]. by apply (ready_sess _ T).
Qed.

(** ** Sequences of requests *)

Inductive operation := OpLogin | OpLogout | OpCreate | OpModifyPwd | OpModifyBasic | OpDelete | OpList.

(** A request: the connection, its packet with the fields in it, and the locals of its handler. *)
Record request := mk_request { q_op : operation; q_fd : Z; q_pack : option ep_pack; q_fields : fields; q_env : env }.

Definition run_request (w : world) (q : request) : res (option ep_pack * world) :=
  match q_op q with
  | OpLogin => res_account_login w (q_env q) (q_fd q) (q_pack q)
  | OpLogout => res_account_logout w (q_fd q)
  | OpCreate => res_account_create w (q_env q) (q_fd q) (q_pack q)
  | OpModifyPwd => res_account_modify_pwd w (q_fd q) (q_pack q)
  | OpModifyBasic => res_account_modify_basic w (q_fd q) (q_pack q)
  | OpDelete => res_account_delete w (q_fd q) (q_pack q)
  | OpList => res_account_list w (q_fd q)
  end.

Fixpoint run_requests (w : world) (qs : list request) : res (list (option ep_pack) * world) :=
  match qs with
  | [] => Ok ([], w)
  | q :: qs => '(p, w) ← run_request w q; '(ps, w) ← run_requests w qs; Ok (p :: ps, w)
  end.

(** The same requests on the lists of sessions and accounts. *)
Definition next_lists (T : list session) (A : list acct) (q : request) : list session * list acct :=
  match q_op q with
  | OpLogin => ((login_spec T A (q_env q) (q_fd q) (login_read (q_fields q))).2, A)
  | OpLogout => ((logout_spec T (q_fd q)).2, A)
  | OpCreate => (T, (create_spec T A (q_fd q) (create_read (q_env q) (q_fields q))).2)
  | OpModifyPwd => (T, (modify_pwd_spec T A (q_fd q) (two_read f_old_pwd f_new_pwd (q_fields q))).2)
  | OpModifyBasic => (T, (basic_spec T A (q_fd q) (basic_read (q_fields q))).2)
  | OpDelete => let r := delete_spec T A (q_fd q) (two_read f_old_pwd f_uid (q_fields q)) in (r.1.2, r.2)
  | OpList => (T, A)
  end.

(** The answer; a listing is in the order of the database. *)
Definition allowed (T : list session) (A : list acct) (q : request) (f : fields) : Prop :=
  match q_op q with
  | OpLogin => f = (login_spec T A (q_env q) (q_fd q) (login_read (q_fields q))).1
  | OpLogout => f = (logout_spec T (q_fd q)).1
  | OpCreate => f = (create_spec T A (q_fd q) (create_read (q_env q) (q_fields q))).1
  | OpModifyPwd => f = (modify_pwd_spec T A (q_fd q) (two_read f_old_pwd f_new_pwd (q_fields q))).1
  | OpModifyBasic => f = (basic_spec T A (q_fd q) (basic_read (q_fields q))).1
  | OpDelete => f = (delete_spec T A (q_fd q) (two_read f_old_pwd f_uid (q_fields q))).1.1
  | OpList => exists B, B ≡ₚ A /\ f = list_answer T (q_fd q) B
  end.

Fixpoint all_allowed (T : list session) (A : list acct) (qs : list request) (fs : list fields) : Prop :=
  match qs, fs with
  | [], [] => True
  | q :: qs, f :: fs => allowed T A q f /\ let n := next_lists T A q in all_allowed n.1 n.2 qs fs
  | _, _ => False
  end.

Fixpoint last_lists (T : list session) (A : list acct) (qs : list request) : list session * list acct :=
  match qs with [] => (T, A) | q :: qs => let n := next_lists T A q in last_lists n.1 n.2 qs end.

(** Strings that fit their arrays, names without quotes; a new account a packet can show. *)
Definition fields_fit (q : request) : Prop :=
  match q_op q with
  | OpLogin => all_fields login_field (q_fields q)
  | OpCreate => all_fields create_field (q_fields q) /\ legible [acct_of (create_read (q_env q) (q_fields q))]
  | OpModifyPwd => all_fields (two_field f_old_pwd f_new_pwd (fun s => Forall is_byte s /\ no_quote s) (Forall is_byte)) (q_fields q)
  | OpModifyBasic => all_fields (two_field f_nick f_comment no_quote no_quote) (q_fields q)
  | OpDelete => all_fields (two_field f_old_pwd f_uid (Forall is_byte) no_quote) (q_fields q)
  | OpLogout | OpList => True
  end.

Record request_ok (q : request) : Prop := {
  qo_env : env_ok (q_env q);
  qo_fd : q_fd q <> -1;
  qo_carries : carries (q_pack q) (q_fields q);
  qo_fit : fields_fit q;
}.

(** The requests whose handler returns with the lock of the session table taken: any change of the
    notes of somebody who is logged in, and a deletion with a wrong password. *)
Definition keeps_lock (T : list session) (A : list acct) (q : request) : bool :=
  match q_op q with
  | OpModifyBasic => bool_decide (is_Some (List.find (by_fd (q_fd q)) T))
  | OpDelete => delete_locks T A (q_fd q) (two_read f_old_pwd f_uid (q_fields q))
  | _ => false
  end.

Fixpoint requests_ok (T : list session) (A : list acct) (qs : list request) : Prop :=
  match qs with
  | [] => True
  | q :: qs => request_ok q /\ keeps_lock T A q = false /\ let n := next_lists T A q in requests_ok n.1 n.2 qs
  end.

(** ** The lists stay well formed *)

Lemma plain_keep p T : sess_plain T -> sess_plain (keep p T).
Proof. apply Forall_filter. Qed.

Lemma plain_snoc T s : sess_plain T -> plain 16 (uid s) -> zlen (uid s) = 17 -> sess_plain (T ++ [s]).
Proof. intros HT H1 H2. apply Forall_app. split; [done|]. by apply Forall_singleton. Qed.

Lemma plain_add T s : sess_plain T -> plain 16 (uid s) -> zlen (uid s) = 17 -> sess_plain (add_spec T s).2.
Proof. intros HT H1 H2. unfold add_spec. destruct (existsb _ _); [done|]. by apply plain_snoc. Qed.

Lemma uid_cells_plain e a :
  env_ok e -> login_shape a -> plain 16 (uid_cells e (text (l_uid a))) /\ zlen (uid_cells e (text (l_uid a))) = 17.
Proof.
  intros He Ha. destruct (ls_uid a Ha) as [(U1 & U2 & U3) _]. destruct (uid_cells_text e (text (l_uid a)) (text_no_zero _)) as [Tc Cc].
  split; [split; [done|]; by rewrite Tc|]. unfold uid_cells. pose proof (zlen_nonneg (text (l_uid a))).
  rewrite zlen_app, zlen_cons, zlen_zdrop, (eo_uid e He) by lia. lia.
Qed.

Lemma login_plain T A e d a : env_ok e -> login_shape a -> sess_plain T -> sess_plain (login_spec T A e d a).2.
Proof.
  intros He Ha HT. destruct (uid_cells_plain e a He Ha) as [H1 H2]. unfold login_spec, pwd_login_spec, token_login_spec, new_token, clear.
  destruct (negb (bool_decide (text (l_uid a) = [])) && negb (bool_decide (text (l_pwd a) = []))).
  - destruct (find_acct A (text (l_uid a))) as [x|]; [|done]. destruct (bool_decide (ac_hash x = _)); [|done].
    assert (sess_plain (keep (by_fd d) (keep (by_uid session_fd (l_uid a)) T) ++ [login_session e (text (l_uid a)) (ac_type x) d])) as HT1
      by (apply plain_snoc; [by do 2 apply plain_keep|done..]).
    destruct (0 <? l_expire a); [|done]. apply plain_add; [by apply plain_keep|done..].
  - destruct (zlen (text (l_token a)) =? 38); [|done]. destruct (List.find (by_token (l_token a)) T) as [s|] eqn:F; [|done].
    apply List.find_some in F as [F _]. pose proof HT as HF. unfold sess_plain in HF. rewrite List.Forall_forall in HF. destruct (HF s F) as [S1 S2].
    assert (sess_plain (keep (by_fd d) (keep (by_uid session_fd (uid s)) T) ++ [moved s d])) as HT1
      by (apply plain_snoc; [by do 2 apply plain_keep|done..]).
    by destruct (find_acct A (text (uid s))).
Qed.

Lemma next_plain T A q : request_ok q -> sess_plain T -> sess_plain (next_lists T A q).1.
Proof.
  intros [He Hd Hc Hf] HT. unfold next_lists, fields_fit in *. destruct (q_op q); cbn [fst snd]; try done.
  - destruct (login_request _ _ Hc Hf) as [_ Ha]. by apply login_plain.
  - unfold logout_spec. destruct (List.find _ T); [by apply plain_keep|done].
  - unfold delete_spec. destruct (_ || _); [done|]. destruct (List.find _ T) as [s|]; [|done].
    destruct (negb _); [done|]. destruct (bool_decide _); [|by destruct (admin s =? 0)]. destruct (_ && _); [done|]. by do 2 apply plain_keep.
Qed.

Lemma next_legible T A q : request_ok q -> keeps_lock T A q = false -> legible A -> legible (next_lists T A q).2.
Proof.
  intros [_ _ _ Hf] Hk HA. unfold next_lists, fields_fit, keeps_lock in *. destruct (q_op q); cbn [fst snd]; try done.
  - destruct Hf as [_ Hf]. unfold create_spec. destruct (create_valid _); [|done]. cbn [negb]. destruct (List.find _ T) as [s|]; [|done].
    destruct (admin s =? 0); [done|]. destruct (find_acct A _); [done|]. by apply Forall_app.
  - unfold modify_pwd_spec. destruct (_ || _); [done|]. destruct (bool_decide _); [done|]. destruct (List.find _ T) as [s|]; [|done].
    destruct (pwd_matches _ _ _); [|done]. unfold legible, update_acct. apply Forall_map. eapply Forall_impl; [exact HA|].
    intros x Hx. unfold compose. by destruct (by_name _ x).
  - unfold basic_spec. by destruct (List.find _ T).
  - unfold delete_spec. destruct (_ || _); [done|]. destruct (List.find _ T) as [s|]; [|done].
    destruct (negb _); [done|]. destruct (bool_decide _); [destruct (_ && _)|destruct (admin s =? 0)]; try done; by apply Forall_filter.
Qed.

Lemma next_few T A q : zlen (next_lists T A q).2 <= zlen A + 1.
Proof.
  assert (forall u, zlen (delete_acct A u) <= zlen A + 1) as HD.
  { intros u. unfold delete_acct, zlen. pose proof (List.filter_length_le (fun a => negb (by_name u a)) A). lia. }
  unfold next_lists. destruct (q_op q); cbn [fst snd]; try lia.
  - unfold create_spec. destruct (create_valid _); [|cbn; lia]. cbn [negb]. destruct (List.find _ T) as [s|]; [|cbn; lia].
    destruct (admin s =? 0); [cbn; lia|]. destruct (find_acct A _); cbn [snd]; [lia|]. rewrite zlen_app. change (zlen [_]) with 1. lia.
  - unfold modify_pwd_spec. destruct (_ || _); [cbn; lia|]. destruct (bool_decide _); [cbn; lia|]. destruct (List.find _ T) as [s|]; [|cbn; lia].
    destruct (pwd_matches _ _ _); cbn [snd]; [|lia]. unfold update_acct, zlen. rewrite length_map. lia.
  - unfold basic_spec, modify_basic_accounts, update_acct. destruct (List.find _ T); cbn [snd]; unfold zlen; rewrite ?length_map; lia.
  - unfold delete_spec. destruct (_ || _); [cbn; lia|]. destruct (List.find _ T) as [s|]; [|cbn; lia]. destruct (negb _); [cbn; lia|].
    destruct (bool_decide _); [destruct (_ && _)|destruct (admin s =? 0)]; cbn [snd]; first [apply HD|lia].
Qed.

Lemma request_refines w T A q :
  ready w T A -> legible A -> sess_plain T -> zlen A <= 100000 -> request_ok q -> keeps_lock T A q = false ->
  exists f, allowed T A q f /\ answers (run_request w q) f (next_lists T A q).1 (next_lists T A q).2.
Proof.
  intros R HL HP Hb [He Hd Hc Hf] Hk. unfold run_request, allowed, next_lists, fields_fit, keeps_lock in *. destruct (q_op q); cbn [fst snd].
  - eexists. split; [done|]. by apply login_refines.
  - eexists. split; [done|]. by apply logout_refines.
  - eexists. split; [done|]. apply create_refines; try done; [apply Hf|unfold INT_MAX; lia].
  - eexists. split; [done|]. by apply modify_pwd_refines.
  - eexists. split; [done|]. apply bool_decide_eq_false, eq_None_not_Some in Hk. unfold basic_spec. rewrite Hk. by eapply modify_basic_refuses.
  - eexists. split; [done|]. by apply delete_refines.
  - destruct (list_refines w T A (q_fd q) R Hd HL Hb) as (B & P & H). exists (list_answer T (q_fd q) B). split; [by exists B|done].
Qed.

Lemma account_requests_run qs : forall w T A,
  ready w T A -> legible A -> sess_plain T -> zlen A + zlen qs <= 100000 -> requests_ok T A qs ->
  exists ps fs w', run_requests w qs = Ok (map Some ps, w') /\ all_allowed T A qs fs /\
    Forall2 (fun f p => build_fields fresh f = Ok p) fs ps /\ ready w' (last_lists T A qs).1 (last_lists T A qs).2.
Proof.
  induction qs as [|q qs IH]; intros w T A R HL HP Hb Hq; [by exists [], [], w|]. destruct Hq as (Hq & Hk & Hqs). rewrite zlen_cons in Hb.
  pose proof (zlen_nonneg qs). destruct (request_refines w T A q R HL HP ltac:(lia) Hq Hk) as (f & Hf & p & w1 & Ep & Er & R1).
  pose proof (next_few T A q). destruct (IH w1 _ _ R1) as (ps & fs & w' & E & Ha & F & R'); [by apply next_legible|by apply next_plain|lia|done|].
  exists (p :: ps), (f :: fs), w'. cbn [run_requests]. rewrite Er. cbn [mbind res_bind]. rewrite E. cbn [mbind res_bind map].
  split; [done|]. split; [done|]. split; [by constructor|done].
Qed.

(** The account service refines two lists. For any sequence of requests whose strings fit the
    handlers' arrays and whose names have no quote, and of which none keeps the lock, the handlers
    answer every request with the packet that the lists of sessions and accounts determine (a
    listing in the order of the database), and leave the session table and the database in the
    state of the lists after the last request; nothing faults. *)
Theorem account_requests_refine w T A qs :
  ready w T A -> legible A -> sess_plain T -> zlen A + zlen qs <= 100000 -> requests_ok T A qs ->
  exists ps fs w', run_requests w qs = Ok (map Some ps, w') /\ all_allowed T A qs fs /\
    Forall2 (fun f p => build_fields fresh f = Ok p) fs ps /\ ready w' (last_lists T A qs).1 (last_lists T A qs).2.
Proof. apply account_requests_run. Qed.

(** The state of the server between two requests. *)
Record well_formed (w : world) (T : list session) (A : list acct) : Prop := {
  wf_ready : ready w T A;
  wf_legible : legible A;
  wf_plain : sess_plain T;
}.

(** A request that keeps the lock is answered, and changes the database, like any other. *)
Lemma request_locks w T A q :
  ready w T A -> sess_plain T -> request_ok q -> keeps_lock T A q = true ->
  exists f p w', allowed T A q f /\ build_fields fresh f = Ok p /\ run_request w q = Ok (Some p, w') /\
    db_ready (w_dbp w') (next_lists T A q).2 /\ stuck (w_sess w').
Proof.
  intros R HP [He Hd Hc Hf] Hk. unfold run_request, allowed, next_lists, fields_fit, keeps_lock in *. destruct (q_op q); try done; cbn [snd].
  - apply bool_decide_eq_true in Hk as [s Fs]. destruct (modify_basic_keeps_lock w T A (q_fd q) _ _ s R Hd Hc Hf HP Fs) as (p & w' & Er & Ep & H1 & H2).
    unfold basic_spec. rewrite Fs. cbn [fst snd]. by exists (result_is account_r_ok), p, w'.
  - unfold delete_locks in Hk. apply andb_prop in Hk as [Hn%negb_true_iff Hk]. pose proof Hn as [Hu%bool_decide_eq_false Ho%bool_decide_eq_false]%orb_false_iff.
    destruct (List.find (by_fd (q_fd q)) T) as [s|] eqn:Fs; [|done]. apply negb_true_iff in Hk as Hk'.
    destruct (delete_wrong_pwd_keeps_lock w T A (q_fd q) _ _ s R Hd Hc Hf HP Fs Hu Ho Hk') as (p & w' & Er & Ep & H1 & H2).
    unfold delete_spec. rewrite Hn, Fs, Hk. cbn [fst snd]. by exists (result_is account_r_old_pwd_incorrect), p, w'.
Qed.


(** C16: The last administrator stays. When the session on the connection is an administrator's and
    the request deletes his own account, the deletion is answered with success only if another
    account of that type is left; otherwise the answer is [account_r_cannot_delete_last_admin] and
    nothing changes. *)
Theorem account_delete_keeps_admin w T A d pack f s :
  ready w T A -> d <> -1 -> carries pack f -> all_fields (two_field f_old_pwd f_uid (Forall is_byte) no_quote) f -> sess_plain T ->
  let a := two_read f_old_pwd f_uid f in
  List.find (by_fd d) T = Some s -> a_type s = account_admin -> text (uid s) = text (m_new a) ->
  pwd_matches A (text (uid s)) (text (m_old a)) = true -> text (m_new a) <> [] -> text (m_old a) <> [] ->
  (answers (res_account_delete w d pack) (result_is account_r_cannot_delete_last_admin) T A /\ admins A <= 1) \/
  (exists T' A', answers (res_account_delete w d pack) (result_is account_r_ok) T' A' /\ 1 <= admins A' /\
     find_acct A' (text (m_new a)) = None).
Proof.
  intros R Hd Hc Hf HP a Fs Ha Hu Hk Hn Ho.
  assert (delete_locks T A d a = false) as Hkn by (unfold delete_locks; by rewrite Fs, Hk, andb_false_r).
  pose proof (delete_refines w T A d pack f R Hd Hc Hf HP Hkn) as H. fold a in H. unfold delete_spec in H.
  rewrite !bool_decide_eq_false_2 in H by done. cbn [orb] in H. rewrite Fs, Hk, bool_decide_eq_true_2, Ha in H by done. cbn [negb] in H.
  change (account_admin =? account_admin) with true in H. cbn [andb] in H. destruct (Z.leb_spec (admins A) 1) as [L|L]; cbn [fst snd] in H.
  - left. by split.
  - right. eexists _, _. split; [exact H|]. destruct R as [_ (db & Tb & _ & _ & HA) _]. split.
    + pose proof (admins_delete A (text (m_new a)) (as_uid _ _ HA)). lia.
    + unfold find_acct, delete_acct. clear. induction A as [|x A IH]; [done|]. cbn [List.filter].
      destruct (by_name (text (m_new a)) x) eqn:B; cbn [negb]; [done|]. cbn [List.find]. by rewrite B.
Qed.

(** [res_account_modify_pwd] checks the old password against the account whose name is that
    password. Whoever gives the right old password is refused, unless some account is called like
    it. *)
Theorem modify_pwd_refuses_owner w T A d pack f s :
  ready w T A -> d <> -1 -> carries pack f -> sess_plain T ->
  all_fields (two_field f_old_pwd f_new_pwd (fun s => Forall is_byte s /\ no_quote s) (Forall is_byte)) f ->
  let a := two_read f_old_pwd f_new_pwd f in
  List.find (by_fd d) T = Some s -> pwd_matches A (text (uid s)) (text (m_old a)) = true ->
  text (m_old a) <> [] -> text (m_new a) <> [] -> text (m_old a) <> text (m_new a) ->
  find_acct A (text (m_old a)) = None ->
  answers (res_account_modify_pwd w d pack) (result_is account_r_old_pwd_incorrect) T A.
Proof.
  intros R Hd Hc HP Hf a Fs _ Ho Hn Hne Hno. pose proof (modify_pwd_refines w T A d pack f R Hd Hc HP Hf) as H. fold a in H.
  unfold modify_pwd_spec in H. rewrite !bool_decide_eq_false_2 in H by done. cbn [orb] in H. rewrite Fs in H.
  unfold pwd_matches in H. by rewrite Hno in H.
Qed.

(** ** A quote in the name *)

Lemma get_one_any w T A e :
  ready w T A -> A <> [] -> env_ok e ->
  exists w' x, ready w' T A /\ In x A /\ get_one w tautology_uid (Some (e_account e)) = Ok (1, Some (record_of x (e_account e)), w').
Proof.
  intros [Hs (d & Tb & Ed & I & HA) Hp] Hne He.
  destruct (get_one_tautology d Tb A (e_account e) I HA Hne (eo_account e He)) as (d' & x & Ix & I' & E).
  exists (set_dbp w (Some d')), x. split; [split; [done|by exists d', Tb|done]|]. split; [done|].
  unfold get_one, dbp_of. rewrite Ed. cbn [mbind res_bind]. by rewrite E.
Qed.

Lemma get_one_null_any w T A :
  ready w T A -> A <> [] -> exists w', ready w' T A /\ get_one w tautology_uid None = Ok (1, None, w').
Proof.
  intros [Hs (d & Tb & Ed & I & HA) Hp] Hne. destruct (get_one_null_tautology d Tb A I HA Hne) as (d' & I' & E).
  exists (set_dbp w (Some d')). split; [split; [done|by exists d', Tb|done]|].
  unfold get_one, dbp_of. rewrite Ed. cbn [mbind res_bind]. by rewrite E.
Qed.

Lemma pwd_check_any w T A p :
  ready w T A -> A <> [] -> a_pwd p -> exists w', ready w' T A /\ pwd_check w tautology_uid p = Ok (1, w').
Proof.
  intros [Hs (d & Tb & Ed & I & HA) Hp] Hne Ha. destruct (pwd_check_tautology d Tb A p I HA Hne Ha) as (d' & I' & E).
  exists (set_dbp w (Some d')). split; [split; [done|by exists d', Tb|done]|].
  unfold pwd_check, dbp_of. rewrite Ed. cbn [mbind res_bind]. by rewrite E.
Qed.

Definition tautology_fields (p : list Z) : fields := FCons f_uid (VStr tautology) (FCons f_pwd (VStr p) FNil).

(** C36: A name with a quote logs in without a password. The handlers paste the name into their
    statements, so for the name [' or 1=1 --] and any password the request is granted whenever the
    table has an account: the answer is that of an account of the table, the one the database gives
    first, and a session with that account's type is added under the name that was sent. *)
Theorem login_by_quote w T A e d pack p :
  ready w T A -> env_ok e -> d <> -1 -> legible A -> sess_sized T -> A <> [] ->
  no_zero p -> Forall is_byte p -> 0 < zlen p <= 16 -> carries pack (tautology_fields p) ->
  exists x, In x A /\
    answers (res_account_login w e d pack) (account_fields x (clash T tautology_uid d))
      (clear T tautology_uid d ++ [login_session e tautology (ac_type x) d]) A.
Proof.
  intros R He Hd HL Hs Hne Np Bp Lp Hc. unfold res_account_login. rewrite (login_reads pack _ Hc).
  2: { split; [split; [intros _; exists tautology; split; [done|]; split; [by decide_now|done]|done]|]. split; [|done]. split; [done|].
    split; [intros _; exists p; split; [done|]; split; [done|split; [lia|done]]|done]. }
  cbn [mbind res_bind]. set (a := login_read (tautology_fields p)).
  assert (a = mk_login tautology_uid (arr 17 p) (replicate 39 0) 0) as -> by reflexivity.
  rewrite (new_pack_ready _ _ _ R). cbn [mbind res_bind l_uid l_pwd].
  destruct (arr_text 17 p Np) as [Ta Ca]; [unfold zlen in Lp; lia|].
  unfold and_then, valid_uid, valid_pwd. change (valid_string 16 tautology_uid) with (Ok true). cbn [mbind res_bind].
  rewrite valid_string_text, Ta, bool_decide_eq_false_2 by (first [done|rewrite Ta; lia|intros E0; rewrite E0 in Lp; unfold zlen in Lp; cbn in Lp; lia]). cbn [negb mbind res_bind].
  unfold login_by_pwd. cbn [l_uid l_pwd]. destruct (get_one_null_any w T A R Hne) as (w1 & R1 & ->). cbn [mbind res_bind Z.eqb Pos.eqb negb].
  destruct (pwd_check_any w1 T A (arr 17 p) R1 Hne) as (w2 & R2 & ->); [split; [done|]; rewrite Ta; split; [done|lia]|].
  cbn [mbind res_bind Z.eqb Pos.eqb negb].
  set (b := mk_login tautology_uid (arr 17 p) (replicate 39 0) 0).
  destruct (login_grant_spec (fun x => In x A) w2 T A e d b R2 He Hd HL Hs) as (x & Ix & H); try done; [by exists tautology| |by exists x].
  intros w' T' R'. destruct (get_one_any w' T' A e R' Hne He) as (w3 & x & R3 & Ix & E). by exists w3, x.
Qed.

End spec.
Arguments well_formed {S SL} Rest w T A.

(** ** The requests of a cook and of an administrator *)

Section demo.
Import SqlToy.
#[local] Notation ready := (ready (fun _ => True)).
#[local] Notation answers := (answers (fun _ => True)).
#[local] Notation db_ready := (db_ready (fun _ => True)).
#[local] Notation well_formed := (well_formed (fun _ => True)).

Ltac fit_field := split; intros E; try done; eexists; (split; [done|]); (split; [by decide_now|]); (split; [done|by decide_now]).
Ltac name_fits := (split; [|vm_compute; done]); split; [name_lit|]; split; [name_lit|]; split; [name_lit|]; split; [name_lit|done].

Definition demo_pair (k1 k2 : list Z) (s1 s2 : string) : fields := FCons k1 (VStr (lit s1)) (FCons k2 (VStr (lit s2)) FNil).

Definition demo_session (ty : Z) : session :=
  mk_session ty (padded 17 "bob") 0 session_fd (replicate 39 0) (0, 0) (0, 0) 5 (0, 0).

Lemma demo_connected a ty : storable a -> exists w, ready w [demo_session ty] [acct_of a].
Proof.
  intros Ha. destruct (world_with a Ha) as [w R]. apply (world_session w _ (demo_session ty) R); try done; by decide_now.
Qed.

Lemma demo_plain ty : sess_plain [demo_session ty].
Proof. apply Forall_singleton. split; [by decide_now|done]. Qed.

Definition demo_requests (pack del : ep_pack) : list request :=
  [mk_request OpLogin 5 (Some pack) demo_login demo_env; mk_request OpList 5 None FNil demo_env;
   mk_request OpDelete 5 (Some del) (demo_pair f_old_pwd f_uid "secret" "bob") demo_env; mk_request OpLogout 5 None FNil demo_env].

Lemma bare_request_ok op : op = OpList \/ op = OpLogout -> request_ok (mk_request op 5 None FNil demo_env).
Proof. intros [->| ->]; by split; [apply demo_env_ok| | |]. Qed.

Lemma account_requests_refine_witness :
  exists w pack del ps fs w', run_requests w (demo_requests pack del) = Ok (map Some ps, w') /\
    all_allowed [] [demo_acct] (demo_requests pack del) fs /\ Forall2 (fun f p => build_fields fresh f = Ok p) fs ps /\
    ready w' (last_lists [] [demo_acct] (demo_requests pack del)).1 (last_lists [] [demo_acct] (demo_requests pack del)).2.
Proof.
  destruct demo_world as [w R]. destruct demo_login_fits as [F1 F2]. destruct (packet_of _ F1) as [q Hq].
  destruct (packet_of (demo_pair f_old_pwd f_uid "secret" "bob")) as [q2 Hq2]; [name_fits|].
  exists w, q, q2. apply (account_requests_refine w [] [demo_acct] (demo_requests q q2) R demo_legible); [constructor|vm_compute; done|].
  split; [by split; [apply demo_env_ok| | |]|]. split; [done|]. split; [apply bare_request_ok; by left|]. split; [done|].
  split; [split; [apply demo_env_ok|done|done|]; split; [fit_field|]; split; [fit_field|done]|].
  split; [vm_compute; done|]. split; [apply bare_request_ok; by right|done].
Defined.


Definition demo_admin : account :=
  mk_account account_admin (padded 17 "bob") (padded 129 "secret") (padded 65 "Bob") (padded 257 "").

Lemma demo_admin_storable : storable demo_admin.
Proof. split; by decide_now. Qed.

Lemma account_delete_keeps_admin_witness :
  exists w pack, (answers (res_account_delete w 5 pack) (result_is account_r_cannot_delete_last_admin) [demo_session account_admin] [acct_of demo_admin]
      /\ admins [acct_of demo_admin] <= 1) \/
    (exists T' A', answers (res_account_delete w 5 pack) (result_is account_r_ok) T' A' /\ 1 <= admins A' /\ find_acct A' (lit "bob") = None).
Proof.
  destruct (demo_connected demo_admin account_admin demo_admin_storable) as [w R].
  destruct (packet_of (demo_pair f_old_pwd f_uid "secret" "bob")) as [q Hq]; [name_fits|]. exists w, (Some q).
  apply (account_delete_keeps_admin w [demo_session account_admin] [acct_of demo_admin] 5 (Some q)
    (demo_pair f_old_pwd f_uid "secret" "bob") (demo_session account_admin) R); try done; [|apply demo_plain].
  split; [fit_field|]. split; [fit_field|done].
Defined.

Lemma modify_pwd_refuses_owner_witness :
  exists w pack, answers (res_account_modify_pwd w 5 pack) (result_is account_r_old_pwd_incorrect) [demo_session account_cook] [demo_acct].
Proof.
  destruct (demo_connected demo_account account_cook demo_storable) as [w R].
  destruct (packet_of (demo_pair f_old_pwd f_new_pwd "secret" "other")) as [q Hq]; [name_fits|]. exists w, (Some q).
  apply (modify_pwd_refuses_owner w [demo_session account_cook] [demo_acct] 5 (Some q)
    (demo_pair f_old_pwd f_new_pwd "secret" "other") (demo_session account_cook) R); try done; [apply demo_plain|].
  split; [split; intros E; try done; eexists; (split; [done|]); (split; [by decide_now|]); (split; [done|split; by decide_now])|].
  split; [fit_field|done].
Defined.

Lemma login_by_quote_witness :
  exists w pack x, In x [demo_acct] /\
    answers (res_account_login w demo_env 5 pack) (account_fields x (clash [] tautology_uid 5))
      (clear [] tautology_uid 5 ++ [login_session demo_env tautology (ac_type x) 5]) [demo_acct].
Proof.
  destruct demo_world as [w R]. destruct (packet_of (tautology_fields (lit "x"))) as [q Hq]; [name_fits|]. exists w, (Some q).
  apply (login_by_quote w [] [demo_acct] demo_env 5 (Some q) (lit "x") R demo_env_ok); try done; [apply demo_legible|constructor|by decide_now|by decide_now].
Defined.

Lemma modify_basic_keeps_lock_witness :
  exists w pack p w', res_account_modify_basic w 5 pack = Ok (Some p, w') /\ build_fields fresh (result_is account_r_ok) = Ok p /\
    db_ready (w_dbp w') (modify_basic_accounts [demo_acct] (lit "bob") (basic_read (demo_pair f_nick f_comment "Robert" "day shift"))) /\
    stuck (w_sess w').
Proof.
  destruct (demo_connected demo_account account_cook demo_storable) as [w R].
  destruct (packet_of (demo_pair f_nick f_comment "Robert" "day shift")) as [q Hq]; [name_fits|]. exists w, (Some q).
  apply (modify_basic_keeps_lock w [demo_session account_cook] [demo_acct] 5 (Some q)
    (demo_pair f_nick f_comment "Robert" "day shift") (demo_session account_cook) R); try done; [|apply demo_plain].
  split; [fit_field|]. split; [fit_field|done].
Defined.

Lemma delete_wrong_pwd_keeps_lock_witness :
  exists w pack p w', res_account_delete w 5 pack = Ok (Some p, w') /\
    build_fields fresh (result_is account_r_old_pwd_incorrect) = Ok p /\ db_ready (w_dbp w') [demo_acct] /\ stuck (w_sess w').
Proof.
  destruct (demo_connected demo_account account_cook demo_storable) as [w R].
  destruct (packet_of (demo_pair f_old_pwd f_uid "guess" "bob")) as [q Hq]; [name_fits|]. exists w, (Some q).
  apply (delete_wrong_pwd_keeps_lock w [demo_session account_cook] [demo_acct] 5 (Some q)
    (demo_pair f_old_pwd f_uid "guess" "bob") (demo_session account_cook) R); try done; [|apply demo_plain].
  split; [fit_field|]. split; [fit_field|done].
Defined.

End demo.
End AccountRun.
