(* ===== verification/Server.v ===== *)
(** * Server: the start of the server and what it does with a request (src/native/src/server/server.c)

    [server_init_db] opens the database and makes sure of the reserved account and of the rows the
    clients are tested with; [server_init_network] fills the dispatcher with the handlers. A request
    goes through the dispatcher to its handler, and a connection that is closed loses its session.
    The theorems put the account service and the menu together on one database: the five lists of
    sessions, accounts, dishes, seats and bookings. *)
From Stdlib Require Import String.
From S2P Require Import Prelude Alloc Cstr Words Bson Packet PackLoop Dispatch Session Sha Fmt Sql Dbp Records Accounts Menu MenuSpec ResAccount AccountSpec ResMenu MenuRun AccountAdmin AccountRun Service.
From stdpp Require Import gmap.
Import Alloc Cstr Words Bson Packet PackLoop Session Sha Pwd Fmt Sql Dbp Records Accounts Menu MenuSpec ResAccount AccountSpec ResMenu MenuRun AccountAdmin AccountRun.
Import Service(ep_event_type(..), EP_CATEGORY_INTERNAL_KEY).
Open Scope Z_scope.

Module Server.

Definition DB_DATABASE : list Z := Eval vm_compute in lit "youmenu.db".
Definition s_youmenu : list Z := Eval vm_compute in lit "youmenu".
Definition s_default_comment : list Z := Eval vm_compute in
  lit "This is the youmenu default account, please change the password as soon as possible.".
Definition s_dish_name : list Z := Eval vm_compute in lit "dish_name".
Definition s_summary_text : list Z := Eval vm_compute in lit "summary".
Definition s_thumbnail : list Z := Eval vm_compute in lit "thumbnail".
Definition s_qrcode_text : list Z := Eval vm_compute in lit "qrcode".

(** A text copied into an array of the stack. *)
Definition local_copy (n : nat) (s : list Z) : res (list Z) := strcpy (replicate n 170) (s ++ [0]).

Definition default_account : res account :=
  u ← local_copy 17 s_youmenu; p ← local_copy 129 s_youmenu; n ← local_copy 65 s_youmenu; c ← local_copy 257 s_default_comment;
  Ok (mk_account account_admin u p n c).

Definition test_dish : res dish :=
  n ← local_copy 65 s_dish_name; s ← local_copy 257 s_summary_text; t ← local_copy 65 s_thumbnail;
  Ok (mk_dish 0 dish_category_hot n s t dish_price_plate 30).

Definition test_seat : res seat :=
  s ← local_copy 257 s_summary_text; q ← local_copy 65 s_qrcode_text; Ok (mk_seat 0 s q).

Section server.
Context `{S : Sqlite}.

(** ** server_init_db *)

(** The reserved account. *)
Definition init_accounts (d : dbp_inst) : res (Z * dbp_inst) :=
  '(r, d) ← db_account_init d;
  if negb (r =? 1) then Ok (0, d) else
  '(r, _, d) ← db_account_get_one d (s_youmenu ++ [0]) None;
  if r =? 1 then Ok (1, d) else
  a ← default_account;
  '(r, _, d) ← db_account_add d a;
  Ok (if r =? 1 then 1 else 0, d).

(** A dish in the first category; the array that is then read is freed at once. *)
Definition init_dishes (d : dbp_inst) : res (Z * dbp_inst) :=
  '(r, d) ← db_dish_init d;
  if negb (r =? 1) then Ok (0, d) else
  '(n, _, d) ← db_dish_get_by_category d dish_category_hot false;
  '(r, d) ← (if n =? 0 then a ← test_dish; db_dish_add d a else Ok (1, d));
  if negb (r =? 1) then Ok (0, d) else
  '(_, all, d) ← db_dish_get_by_category d dish_category_hot true;
  _ ← db_dish_free all;
  Ok (1, d).

Definition init_seats (d : dbp_inst) : res (Z * dbp_inst) :=
  '(r, d) ← db_seat_init d;
  if negb (r =? 1) then Ok (0, d) else
  '(r, _, d) ← db_seat_get_one d 0 None;
  '(r, d) ← (if r =? 0 then a ← test_seat; db_seat_add d a else Ok (1, d));
  if negb (r =? 1) then Ok (0, d) else
  '(_, all, d) ← db_seat_get d;
  _ ← db_seat_free all;
  Ok (1, d).

(** Only the path of the configuration is set; the rest of it is what the stack holds. *)
Definition server_init_db (fs : files) (al : alloc) : res (Z * option dbp_inst) :=
  path ← local_copy 261 DB_DATABASE;
  '(r, a_dbp) ← db_init fs (mk_conf (replicate 17 170) 0 (replicate 17 170) (replicate 17 170) path) al;
  if negb (r =? 1) then Ok (0, a_dbp) else
  match a_dbp with
  | None => Fault NullDeref
  | Some d =>
      '(r, d) ← init_accounts d;
      if negb (r =? 1) then Ok (0, Some d) else
      '(r, d) ← init_dishes d;
      if negb (r =? 1) then Ok (0, Some d) else
      '(r, d) ← init_seats d;
      if negb (r =? 1) then Ok (0, Some d) else
      '(r, d) ← db_book_init d;
      if negb (r =? 1) then Ok (0, Some d) else
      Ok (1, Some d)
  end.

Definition server_deinit_db (a_dbp : option dbp_inst) : res (Z * option dbp_inst) :=
  '(_, a_dbp) ← db_deinit a_dbp; Ok (1, a_dbp).

(** ** The handlers and their numbers *)

(** The time, the random bytes and the stack a request finds. *)
Record locals := mk_locals { lo_env : env; lo_now : Z * Z; lo_junk : list Z }.

Definition handler : Type := locals -> world -> Z -> option ep_pack -> res (option ep_pack * world).

(** The state of the server; after a fault there is none. *)
Record server := mk_server { sv_locals : locals; sv_world : res world }.

(** No handler touches [b_req_reclaim]: the dispatcher reclaims the request. *)
Definition callback (h : handler) : Dispatch.pfn_ep_cb ep_pack server :=
  fun s fd pack =>
    match (w ← sv_world s; h (sv_locals s) w fd pack) with
    | Ok (p, w) => (p, true, mk_server (sv_locals s) (Ok w))
    | Fault f => (None, true, mk_server (sv_locals s) (Fault f))
    end.

Definition ep_id_version_check : Z := 0.
Definition ep_id_heartbeat : Z := 1.
Definition ep_id_account_login : Z := 7.
Definition ep_id_account_logout : Z := 8.
Definition ep_id_account_create : Z := 9.
Definition ep_id_account_modify_pwd : Z := 10.
Definition ep_id_account_modify_basic : Z := 11.
Definition ep_id_account_delete : Z := 12.
Definition ep_id_account_list : Z := 13.
Definition ep_id_dish_fetch : Z := 14.
Definition ep_id_dish_book : Z := 153.
Definition ep_id_dish_cancel : Z := 15.
Definition ep_id_dish_list : Z := 178.
Definition ep_id_seat_list : Z := 19.
Definition ep_id_cook_accept : Z := 21.

Definition server_handlers : list (Z * handler) :=
  [(ep_id_version_check, fun lo w fd pack => res_version_check w pack);
   (ep_id_heartbeat, fun lo w fd pack => res_heartbeat w (lo_now lo) fd);
   (ep_id_account_login, fun lo w fd pack => res_account_login w (lo_env lo) fd pack);
   (ep_id_account_logout, fun lo w fd pack => res_account_logout w fd);
   (ep_id_account_create, fun lo w fd pack => res_account_create w (lo_env lo) fd pack);
   (ep_id_account_modify_pwd, fun lo w fd pack => res_account_modify_pwd w fd pack);
   (ep_id_account_modify_basic, fun lo w fd pack => res_account_modify_basic w fd pack);
   (ep_id_account_delete, fun lo w fd pack => res_account_delete w fd pack);
   (ep_id_account_list, fun lo w fd pack => res_account_list w fd);
   (ep_id_dish_fetch, fun lo w fd pack => res_dish_fetch w fd pack);
   (ep_id_dish_book, fun lo w fd pack => res_dish_book w (lo_junk lo) fd pack);
   (ep_id_dish_cancel, fun lo w fd pack => res_dish_cancel w fd pack);
   (ep_id_dish_list, fun lo w fd pack => res_dish_list w fd pack);
   (ep_id_seat_list, fun lo w fd pack => res_seat_list w fd);
   (ep_id_cook_accept, fun lo w fd pack => res_cook_accept w fd pack)].

(** The registrations of [server_init_network], whose results are not looked at. *)
Definition register_all (al : alloc) (m : Dispatch.ep_disp_mgr ep_pack server) : Dispatch.ep_disp_mgr ep_pack server * alloc :=
  foldl (fun s e => let '(_, m, al) := Dispatch.ep_disp_add_cb s.2 s.1 e.1 (callback e.2) in (m, al)) (m, al) server_handlers.

(** ** service_event_cb *)

Definition service_event_cb (w : world) (type : ep_event_type) (fd : Z) : res world :=
  match type with
  | event_fd_close | event_io_overflow | event_io_exception => '(_, sw) ← session_del_fd (w_sess w) fd; Ok (set_sess w sw)
  | event_fd_accept => Ok w
  end.

(** ** What the start leaves *)

Context {SL : SqliteLaws S}.
#[local] Set Default Proof Using "Type*".
#[local] Notation accts := (accounts (fun _ => True)).

(** A table that holds the records, or that is not there and there are none. *)
Definition keeps {X} `{R : Records X} (T : tables) (xs : list X) : Prop := holds T xs \/ T !! r_name = None /\ xs = [].
Definition keeps_accounts (T : tables) (A : list acct) : Prop := accts T A \/ T !! t_db_account = None /\ A = [].

Lemma keeps_other {X} `{R : Records X} n T T' (xs : list X) : others n T T' -> r_name <> n -> keeps T xs -> keeps T' xs.
Proof. intros HO Hn [H|[H ->]]; [left; by eapply holds_other|]. right. by rewrite HO. Qed.

Lemma accounts_other n T T' A : others n T T' -> t_db_account <> n -> accts T A -> accts T' A.
Proof. intros HO Hn [H1 H2 H3 H4 H5]. split; try done. by rewrite HO. Qed.

Lemma init_keeps {X} `{R : Records X} T T' (xs : list X) :
  keeps T xs -> match T !! r_name with None => holds T' ([] : list X) | Some _ => T' = T end -> holds T' xs.
Proof. intros [H|[H ->]]; [rewrite (ho_table _ _ H); by intros ->|by rewrite H]. Qed.

Definition the_account : acct := mk_acct s_youmenu account_admin (pwd_hash s_youmenu) s_youmenu s_default_comment.
Definition boot_accounts (A : list acct) : list acct :=
  match find_acct A s_youmenu with Some _ => A | None => A ++ [the_account] end.

Lemma local_copy_ok n s : no_zero s -> (length s < n)%nat -> local_copy n s = Ok (s ++ 0 :: replicate (n - length s - 1) 170).
Proof.
  intros Hs Hl. unfold local_copy. rewrite strcpy_ok; [|by apply (terminated_app s [])|].
  - rewrite (text_app s []) by done. do 3 f_equal. unfold zdrop, zlen. rewrite drop_replicate. f_equal. lia.
  - rewrite (text_app s []) by done. unfold zlen. rewrite length_replicate. lia.
Qed.

Lemma default_account_ok : exists a, default_account = Ok a /\ storable a /\ acct_of a = the_account.
Proof.
  unfold default_account. rewrite !local_copy_ok by by decide_now. cbn [mbind res_bind]. eexists. split; [reflexivity|]. split.
  - split; by decide_now.
  - unfold acct_of, the_account. cbn [acc_uid acc_type acc_pwd acc_nick acc_comment]. rewrite !text_app by by decide_now. done.
Qed.

Lemma init_accounts_spec d T A :
  idle d T -> keeps_accounts T A -> zlen A < INT_MAX ->
  exists d' T', init_accounts d = Ok (1, d') /\ idle d' T' /\ others t_db_account T T' /\ accts T' (boot_accounts A).
Proof.
  intros I HA Hf. unfold init_accounts.
  destruct (account_init_spec (Rest := fun _ => True) d T I) as (d1 & T1 & -> & I1 & O1 & H1).
  { destruct HA as [H|[H _]]; [right; by exists A|by left]. }
  assert (accts T1 A) as HA1 by (destruct HA as [H|[H ->]]; [rewrite (as_table _ _ H) in H1; by subst T1|rewrite H in H1; by apply H1]).
  cbn [mbind res_bind Z.eqb Pos.eqb negb].
  destruct (get_one_spec d1 T1 A (s_youmenu ++ [0]) None I1 HA1) as (d2 & I2 & ->); [by decide_now|done|].
  change (text (s_youmenu ++ [0])) with s_youmenu. unfold boot_accounts. destruct (find_acct A s_youmenu) eqn:F; cbn [mbind res_bind].
  { by exists d2, T1. }
  change (0 =? 1) with false. cbn iota. destruct default_account_ok as (a & -> & Ha & Ea). cbn [mbind res_bind].
  destruct (account_add_spec d2 T1 A a I2 HA1 Ha Hf) as (d3 & T3 & a' & -> & I3 & HA3 & O3). cbn [mbind res_bind].
  rewrite Ea in *. unfold add_acct in *. change (ac_uid the_account) with s_youmenu in *. rewrite F in *. cbn [fst snd] in *.
  exists d3, T3. split; [done|]. split; [done|]. split; [by eapply others_trans|done].
Qed.

(** A dish of the first category is there, or number 0 is free for one. *)
Definition hot (x : dish_rec) : bool := dr_category x =? dish_category_hot.
Definition the_dish (created : list Z) : dish_rec :=
  mk_dish_rec 0 dish_category_hot s_dish_name s_summary_text s_thumbnail dish_price_plate 30 created.
Definition the_seat : seat_rec := mk_seat_rec 0 s_summary_text s_qrcode_text.

Lemma test_dish_ok : exists a, test_dish = Ok a /\ dish_fits a /\ d_id a = 0 /\ forall c, dish_rec_of a c = the_dish c.
Proof.
  unfold test_dish. rewrite !local_copy_ok by by decide_now. cbn [mbind res_bind]. eexists. split; [reflexivity|]. split.
  - split; by decide_now.
  - split; [done|]. intros c. unfold dish_rec_of, the_dish. cbn [d_id d_category d_name d_summary d_thumbnail d_price_type d_price].
    by rewrite !text_app by by decide_now.
Qed.

Lemma test_seat_ok : exists a, test_seat = Ok a /\ seat_fits a /\ s_id a = 0 /\ seat_rec_of a = the_seat.
Proof.
  unfold test_seat. rewrite !local_copy_ok by by decide_now. cbn [mbind res_bind]. eexists. split; [reflexivity|]. split.
  - split; by decide_now.
  - split; [done|]. unfold seat_rec_of, the_seat. cbn [s_id s_summary s_qrcode]. by rewrite !text_app by by decide_now.
Qed.

Lemma free_dishes d T D :
  idle d T -> holds T D -> existsb hot D = true ->
  exists d', ('(_, all, d) ← db_dish_get_by_category d dish_category_hot true; _ ← db_dish_free all; Ok (1, d) : res (Z * dbp_inst)) = Ok (1, d') /\
    idle d' T.
Proof.
  intros I H Hh. destruct (dish_get_spec d T D dish_category_hot I H) as (d' & ar & -> & I' & _ & Hne); [by split|]. cbn [mbind res_bind].
  fold hot in Hne. destruct ar as [l|]; [by exists d'|]. exfalso. apply Hne; [|done]. apply existsb_exists in Hh as (x & Hx & Qx).
  intros E. assert (In x (List.filter hot D)) as Hin by by apply List.filter_In. by rewrite E in Hin.
Qed.

Lemma filter_none {X} (q : X -> bool) l : (zlen (List.filter q l) =? 0) = negb (existsb q l).
Proof.
  induction l as [|x l IH]; [done|]. cbn [List.filter existsb]. destruct (q x); cbn [orb negb]; [|exact IH].
  rewrite zlen_cons. pose proof (zlen_nonneg (List.filter q l)). by destruct (Z.eqb_spec (1 + zlen (List.filter q l)) 0); [lia|].
Qed.

(** The dishes after the start, when it succeeds. *)
Definition boots_dishes (D D' : list dish_rec) : Prop :=
  if existsb hot D then D' = D else existsb (fun x => dr_id x =? 0) D = false /\ exists c, D' = D ++ [the_dish c].

Lemma init_dishes_spec d T D :
  idle d T -> keeps T D -> zlen D < INT_MAX ->
  exists d' T', idle d' T' /\ others t_db_dish T T' /\
    if existsb hot D || negb (existsb (fun x => dr_id x =? 0) D)
    then exists D', init_dishes d = Ok (1, d') /\ holds T' D' /\ boots_dishes D D'
    else init_dishes d = Ok (0, d') /\ holds T' D.
Proof.
  intros I HD Hf. unfold init_dishes, boots_dishes. destruct (dish_init_spec d T I) as (d1 & T1 & -> & I1 & O1 & H1).
  pose proof (init_keeps (R := dish_records) T T1 D HD H1) as K1. clear H1. cbn [mbind res_bind Z.eqb Pos.eqb negb].
  destruct (dish_count_spec d1 T1 D dish_category_hot I1 K1) as (d2 & -> & I2); [by split|]. cbn [mbind res_bind]. fold hot.
  rewrite filter_none. destruct (existsb hot D) eqn:Eh; cbn [negb orb mbind res_bind].
  { destruct (free_dishes d2 T1 D I2 K1 Eh) as (d3 & E & I3). cbn [mbind res_bind] in E. exists d3, T1. split; [done|]. split; [done|]. by exists D. }
  destruct test_dish_ok as (a & -> & Fa & Ia & Ra). cbn [mbind res_bind].
  destruct (dish_add_spec d2 T1 D a I2 K1 Fa Hf) as (d3 & T3 & c & I3 & O3 & H3). rewrite Ia in H3.
  destruct (existsb (fun x => dr_id x =? 0) D); destruct H3 as [E3 K3]; rewrite E3; cbn [mbind res_bind negb Z.eqb Pos.eqb].
  - exists d3, T3. split; [done|]. split; [by eapply others_trans|done].
  - rewrite Ra in K3. destruct (free_dishes d3 T3 _ I3 K3) as (d4 & E & I4).
    { apply existsb_exists. exists (the_dish c). split; [|done]. apply in_or_app. right. by left. }
    cbn [mbind res_bind] in E. exists d4, T3. split; [done|]. split; [by eapply others_trans|]. exists (D ++ [the_dish c]).
    split; [done|]. split; [done|]. split; [done|]. by exists c.
Qed.

Definition boot_seats (Q : list seat_rec) : list seat_rec := if existsb (fun x => sr_id x =? 0) Q then Q else Q ++ [the_seat].

Lemma boot_seats_some Q : boot_seats Q <> [].
Proof. unfold boot_seats. destruct (existsb _ Q) eqn:E; [by destruct Q|by destruct Q]. Qed.

Lemma init_seats_spec d T Q :
  idle d T -> keeps T Q -> zlen Q < INT_MAX ->
  exists d' T', init_seats d = Ok (1, d') /\ idle d' T' /\ others t_db_seat T T' /\ holds T' (boot_seats Q).
Proof.
  intros I HQ Hf. unfold init_seats. destruct (seat_init_spec d T I) as (d1 & T1 & -> & I1 & O1 & H1).
  pose proof (init_keeps (R := seat_records) T T1 Q HQ H1) as K1. clear H1. cbn [mbind res_bind Z.eqb Pos.eqb negb].
  destruct (seat_exists_spec d1 T1 Q 0 I1 K1) as (d2 & -> & I2); [by split|]. cbn [mbind res_bind].
  assert (exists d3 T3, (if (if existsb (fun x => sr_id x =? 0) Q then 1 else 0) =? 0 then a ← test_seat; db_seat_add d2 a else Ok (1, d2)) = Ok (1, d3) /\
    idle d3 T3 /\ others t_db_seat T T3 /\ holds T3 (boot_seats Q)) as (d3 & T3 & E3 & I3 & O3 & K3).
  { unfold boot_seats. destruct (existsb (fun x => sr_id x =? 0) Q) eqn:Ex; [by exists d2, T1|]. cbn [Z.eqb].
    destruct test_seat_ok as (a & -> & Fa & Ia & Ra). cbn [mbind res_bind].
    destruct (seat_add_spec d2 T1 Q a I2 K1 Fa Hf) as (d3 & T3 & I3 & O3 & H3). rewrite Ia, Ex, Ra in H3. destruct H3 as [E3 K3].
    exists d3, T3. split; [done|]. split; [done|]. split; [by eapply others_trans|done]. }
  rewrite E3. cbn [mbind res_bind negb Z.eqb Pos.eqb].
  destruct (seat_get_spec d3 T3 _ I3 K3) as (d4 & ar & -> & I4 & _ & Hne). cbn [mbind res_bind].
  destruct ar as [l|]; [|by destruct Hne; [apply boot_seats_some|]]. by exists d4, T3.
Qed.

(** The lists a database holds. *)
Record stock := mk_stock { k_acct : list acct; k_dishes : list dish_rec; k_seats : list seat_rec; k_books : list book_rec }.

Record database (T : tables) (K : stock) : Prop := {
  db_acct : keeps_accounts T (k_acct K);
  db_dishes : keeps T (k_dishes K);
  db_seats : keeps T (k_seats K);
  db_books : keeps T (k_books K);
  db_few : zlen (k_acct K) < INT_MAX /\ zlen (k_dishes K) < INT_MAX /\ zlen (k_seats K) < INT_MAX;
}.

Record filled (T : tables) (K : stock) : Prop := {
  fl_acct : accts T (k_acct K);
  fl_dishes : holds T (k_dishes K);
  fl_seats : holds T (k_seats K);
  fl_books : holds T (k_books K);
}.

Definition bootable (D : list dish_rec) : bool := existsb hot D || negb (existsb (fun x => dr_id x =? 0) D).

Lemma open_database fs h : sq_open DB_DATABASE = Some h ->
  db_init fs (mk_conf (replicate 17 170) 0 (replicate 17 170) (replicate 17 170) (DB_DATABASE ++ 0 :: replicate 250 170)) []
  = Ok (1, Some (mk_inst sqlite_provider (mk_param h false StNull 0 0 [] []))).
Proof.
  intros Eo. unfold db_init, dbp_new. cbn [dbp_get_type_by_provider providers List.find fst snd].
  change (dbp_get_type_by_provider dbp_sqlite) with (Some sqlite_provider). cbn [pfn_dbp_create_new sqlite_provider].
  unfold dbp_create_new_sqlite, dbp_init_sqlite, Dbp.c_text. cbn [cf_db]. rewrite cstr_app by by decide_now. cbn [mbind res_bind].
  change (before_last 92 DB_DATABASE) with (@None (list Z)). change (before_last 47 DB_DATABASE) with (@None (list Z)).
  destruct (f_access fs DB_DATABASE); cbn [negb mbind res_bind]; rewrite Eo; reflexivity.
Qed.

Lemma server_start fs h K :
  sq_open DB_DATABASE = Some h -> database (sq_tables h) K ->
  if bootable (k_dishes K)
  then exists d T D, server_init_db fs [] = Ok (1, Some d) /\ idle d T /\ boots_dishes (k_dishes K) D /\
    filled T (mk_stock (boot_accounts (k_acct K)) D (boot_seats (k_seats K)) (k_books K))
  else exists d, server_init_db fs [] = Ok (0, Some d).
Proof.
  intros Eo [HA HD HQ HB (F1 & F2 & F3)]. unfold server_init_db. rewrite local_copy_ok by by decide_now. cbn [mbind res_bind].
  change (261 - length DB_DATABASE - 1)%nat with 250%nat. rewrite (open_database fs h Eo). cbn [mbind res_bind Z.eqb Pos.eqb negb].
  assert (idle (mk_inst sqlite_provider (mk_param h false StNull 0 0 [] [])) (sq_tables h)) as I by by split.
  destruct (init_accounts_spec _ _ _ I HA F1) as (d1 & T1 & -> & I1 & O1 & A1). cbn [mbind res_bind Z.eqb Pos.eqb negb].
  apply (keeps_other _ _ _ _ O1) in HD; [|done]. apply (keeps_other _ _ _ _ O1) in HQ; [|done]. apply (keeps_other _ _ _ _ O1) in HB; [|done].
  destruct (init_dishes_spec d1 T1 _ I1 HD F2) as (d2 & T2 & I2 & O2 & H2). unfold bootable. destruct (_ || _).
  2: { destruct H2 as [-> _]. by exists d2. }
  destruct H2 as (D & -> & D2 & BD). cbn [mbind res_bind Z.eqb Pos.eqb negb].
  apply (accounts_other _ _ _ _ O2) in A1; [|done]. apply (keeps_other _ _ _ _ O2) in HQ; [|done]. apply (keeps_other _ _ _ _ O2) in HB; [|done].
  destruct (init_seats_spec d2 T2 _ I2 HQ F3) as (d3 & T3 & -> & I3 & O3 & Q3). cbn [mbind res_bind Z.eqb Pos.eqb negb].
  apply (accounts_other _ _ _ _ O3) in A1; [|done]. apply (holds_other _ _ _ _ O3) in D2; [|done]. apply (keeps_other _ _ _ _ O3) in HB; [|done].
  destruct (book_init_spec d3 T3 I3) as (d4 & T4 & -> & I4 & O4 & H4). pose proof (init_keeps (R := book_records) _ _ _ HB H4) as B4.
  apply (accounts_other _ _ _ _ O4) in A1; [|done]. apply (holds_other _ _ _ _ O4) in D2; [|done]. apply (holds_other _ _ _ _ O4) in Q3; [|done].
  cbn [mbind res_bind Z.eqb Pos.eqb negb]. by exists d4, T4, D.
Qed.

(** ** The dispatcher of the server *)

(** The registry after [ep_service_init], with the callback of the key exchange, and the start. *)
Definition registry (key : Dispatch.pfn_ep_cb ep_pack server) : Dispatch.ep_disp_mgr ep_pack server :=
  (register_all [] (Dispatch.mk_disp_mgr [Dispatch.mk_disp EP_CATEGORY_INTERNAL_KEY key])).1.

(** A request: the answer, whether the packet was reclaimed, and the server. *)
Definition serve (key : Dispatch.pfn_ep_cb ep_pack server) (s : server) (lo : locals) (category fd : Z) (pack : option ep_pack)
  : option ep_pack * bool * server :=
  Dispatch.ep_disp_processor (mk_server lo (sv_world s)) (registry key) category fd pack.

Lemma registry_list key :
  registry key = Dispatch.mk_disp_mgr (map (fun e => Dispatch.mk_disp e.1 (callback e.2)) (rev server_handlers)
                                       ++ [Dispatch.mk_disp EP_CATEGORY_INTERNAL_KEY key]).
Proof. reflexivity. Qed.

(** The first entry of the list with the number is called. *)
Lemma call_handlers key (s : server) c fd pack (l : list (Z * handler)) :
  Dispatch.disp_call s c fd pack (map (fun e => Dispatch.mk_disp e.1 (callback e.2)) l ++ [Dispatch.mk_disp EP_CATEGORY_INTERNAL_KEY key])
  = match List.find (fun e => e.1 =? c) l with
    | Some e => callback e.2 s fd pack
    | None => if EP_CATEGORY_INTERNAL_KEY =? c then key s fd pack else (None, true, s)
    end.
Proof.
  induction l as [|e l IH]; cbn [map app Dispatch.disp_call List.find Dispatch.d_category Dispatch.d_cb]; [done|]. by destruct (e.1 =? c).
Qed.

Lemma find_app_one {X} (q : X -> bool) l x : List.find q (l ++ [x]) = match List.find q l with Some y => Some y | None => if q x then Some x else None end.
Proof. induction l as [|y l IH]; [done|]. cbn [app List.find]. by destruct (q y). Qed.

Lemma find_rev_handlers c : List.find (fun e => e.1 =? c) (rev server_handlers) = List.find (fun e => e.1 =? c) server_handlers.
Proof.
  assert (forall l : list (Z * handler), NoDup (map fst l) -> List.find (fun e => e.1 =? c) (rev l) = List.find (fun e => e.1 =? c) l) as H.
  { induction l as [|e l IH]; [done|]. intros [Hn N]%NoDup_cons. cbn [rev List.find]. rewrite find_app_one, IH by done. cbn [List.find].
    destruct (Z.eqb_spec e.1 c) as [E|E]; [|by destruct (List.find _ l)].
    destruct (List.find _ l) as [x|] eqn:F; [|done]. apply List.find_some in F as [Fx Ex%Z.eqb_eq]. destruct Hn. rewrite E, <- Ex.
    by apply list_elem_of_In, in_map. }
  apply H. by decide_now.
Qed.

Lemma serve_handler key s lo c fd pack h :
  List.find (fun e => e.1 =? c) server_handlers = Some (c, h) ->
  serve key s lo c fd pack =
    (match (w ← sv_world s; h lo w fd pack) with
     | Ok (p, w) => (p, bool_decide (is_Some pack), mk_server lo (Ok w))
     | Fault f => (None, bool_decide (is_Some pack), mk_server lo (Fault f))
     end).
Proof.
  intros F. unfold serve, Dispatch.ep_disp_processor. rewrite registry_list. cbn [Dispatch.disp_list].
  rewrite call_handlers, find_rev_handlers, F. unfold callback. cbn [snd sv_world sv_locals].
  by destruct (w ← sv_world s; h lo w fd pack) as [[p w]|f].
Qed.

Lemma serve_unknown key s lo c fd pack :
  List.find (fun e => e.1 =? c) server_handlers = None -> c <> EP_CATEGORY_INTERNAL_KEY ->
  serve key s lo c fd pack = (None, bool_decide (is_Some pack), mk_server lo (sv_world s)).
Proof.
  intros F Hc. unfold serve, Dispatch.ep_disp_processor. rewrite registry_list. cbn [Dispatch.disp_list].
  rewrite call_handlers, find_rev_handlers, F. by destruct (Z.eqb_spec EP_CATEGORY_INTERNAL_KEY c).
Qed.

(** ** Both services on one database *)

Definition menu_tables (L : lists) (T : tables) : Prop := holds T (l_dish L) /\ holds T (l_seat L) /\ holds T (l_book L).

#[local] Instance menu_tables_framed L : Framed (menu_tables L).
Proof. intros T T' HO (H1 & H2 & H3). split; [|split]; by eapply holds_other. Qed.

#[local] Instance accounts_book_framed A : BookFramed (fun T => accts T A).
Proof. intros T T' HO HA. by eapply accounts_other. Qed.

(** The sessions are [l_sess L] and the four tables hold the accounts [A] and the lists of [L]. *)
Definition serving (w : world) (A : list acct) (L : lists) : Prop := served (fun T => accts T A) w L.

Lemma serving_ready w A L : serving w A L <-> ready (menu_tables L) w (l_sess L) A.
Proof.
  split.
  - intros [Hs (d & T & Ed & I & HD & HS & HB & [H1 H2 H3 H4 _]) Hp]. split; [done| |done]. exists d, T.
    split; [done|]. split; [done|]. by split.
  - intros [Hs (d & T & Ed & I & [H1 H2 H3 H4 (HD & HS & HB)]) Hp]. split; [done| |done]. exists d, T.
    split; [done|]. split; [done|]. split; [done|]. split; [done|]. split; [done|]. by split.
Qed.

(** ** What a client or the network does to the server *)

Inductive event :=
  | EvAccount (q : request)
  | EvMenu (q : menu_request)
  | EvUnknown (category fd : Z) (pack : option ep_pack)
  | EvNetwork (type : ep_event_type) (fd : Z).

Definition account_id (o : operation) : Z :=
  match o with
  | OpLogin => ep_id_account_login | OpLogout => ep_id_account_logout | OpCreate => ep_id_account_create
  | OpModifyPwd => ep_id_account_modify_pwd | OpModifyBasic => ep_id_account_modify_basic | OpDelete => ep_id_account_delete | OpList => ep_id_account_list
  end.

Definition menu_id (o : menu_op) : Z :=
  match o with
  | OpFetch => ep_id_dish_fetch | OpBook => ep_id_dish_book | OpCancel => ep_id_dish_cancel | OpBooks => ep_id_dish_list
  | OpSeats => ep_id_seat_list | OpCook => ep_id_cook_accept | OpHeartbeat => ep_id_heartbeat | OpVersion => ep_id_version_check
  end.

Definition run_event (key : Dispatch.pfn_ep_cb ep_pack server) (s : server) (e : event) : option ep_pack * server :=
  match e with
  | EvAccount q => let '(p, _, s) := serve key s (mk_locals (q_env q) (0, 0) []) (account_id (q_op q)) (q_fd q) (q_pack q) in (p, s)
  | EvMenu q => let '(p, _, s) := serve key s (mk_locals (lo_env (sv_locals s)) (mq_now q) (mq_junk q)) (menu_id (mq_op q)) (mq_fd q) (mq_pack q) in (p, s)
  | EvUnknown c fd pack => let '(p, _, s) := serve key s (sv_locals s) c fd pack in (p, s)
  | EvNetwork type fd => (None, mk_server (sv_locals s) (w ← sv_world s; service_event_cb w type fd))
  end.

Fixpoint run_events key (s : server) (es : list event) : list (option ep_pack) * server :=
  match es with
  | [] => ([], s)
  | e :: es => let '(p, s) := run_event key s e in let '(ps, s) := run_events key s es in (p :: ps, s)
  end.

(** The same on the lists. *)
Definition next_event (A : list acct) (L : lists) (e : event) : list acct * lists :=
  match e with
  | EvAccount q => let n := next_lists (l_sess L) A q in (n.2, set_sessions L n.1)
  | EvMenu q => (A, next_menu L q)
  | EvUnknown _ _ _ => (A, L)
  | EvNetwork event_fd_accept _ => (A, L)
  | EvNetwork _ fd => (A, set_sessions L (keep (by_fd fd) (l_sess L)))
  end.

Definition event_allowed (A : list acct) (L : lists) (e : event) (f : option fields) : Prop :=
  match e with
  | EvAccount q => exists g, f = Some g /\ allowed (l_sess L) A q g
  | EvMenu q => exists g, f = Some g /\ menu_allowed L q g
  | EvUnknown _ _ _ | EvNetwork _ _ => f = None
  end.

Fixpoint events_allowed (A : list acct) (L : lists) (es : list event) (fs : list (option fields)) : Prop :=
  match es, fs with
  | [], [] => True
  | e :: es, f :: fs => event_allowed A L e f /\ let n := next_event A L e in events_allowed n.1 n.2 es fs
  | _, _ => False
  end.

Fixpoint last_event (A : list acct) (L : lists) (es : list event) : list acct * lists :=
  match es with [] => (A, L) | e :: es => let n := next_event A L e in last_event n.1 n.2 es end.

(** Requests as the fields of the packets, the arrays and the tables allow them. *)
Definition event_ok (L : lists) (e : event) : Prop :=
  match e with
  | EvAccount q => request_ok q
  | EvMenu q => menu_ok L q
  | EvUnknown c _ _ => List.find (fun e => e.1 =? c) server_handlers = None /\ c <> EP_CATEGORY_INTERNAL_KEY
  | EvNetwork _ _ => True
  end.

Fixpoint events_ok (A : list acct) (L : lists) (es : list event) : Prop :=
  match es with [] => True | e :: es => event_ok L e /\ let n := next_event A L e in events_ok n.1 n.2 es end.

(** The events the server does not survive: a request whose handler keeps the lock of the session
    table, and a listing that frees rows twice. *)
Definition locks (A : list acct) (L : lists) (e : event) : bool :=
  match e with EvAccount q => keeps_lock (l_sess L) A q | _ => false end.
Definition crashes (L : lists) (e : event) : bool :=
  match e with EvMenu q => lists_booked L q | _ => false end.

(** The events before the first of these. *)
Fixpoint survived (A : list acct) (L : lists) (es : list event) : list event :=
  match es with
  | [] => []
  | e :: es => if locks A L e || crashes L e then [] else let n := next_event A L e in e :: survived n.1 n.2 es
  end.

(** The packet that answers, if the request has an answer. *)
Definition shows (f : option fields) (p : option ep_pack) : Prop :=
  match f with Some g => exists q, build_fields fresh g = Ok q /\ p = Some q | None => p = None end.

Lemma serve_account key lo s w q p w' :
  sv_world s = Ok w -> lo_env lo = q_env q -> run_request w q = Ok (p, w') ->
  serve key s lo (account_id (q_op q)) (q_fd q) (q_pack q) = (p, bool_decide (is_Some (q_pack q)), mk_server lo (Ok w')).
Proof.
  intros Es El Er. unfold run_request in Er. destruct (q_op q); (erewrite serve_handler by reflexivity; rewrite Es; cbn [mbind res_bind]; rewrite ?El; by rewrite Er).
Qed.

Lemma serve_menu key lo s w q p w' :
  sv_world s = Ok w -> lo_now lo = mq_now q -> lo_junk lo = mq_junk q -> run_menu w q = Ok (p, w') ->
  serve key s lo (menu_id (mq_op q)) (mq_fd q) (mq_pack q) = (p, bool_decide (is_Some (mq_pack q)), mk_server lo (Ok w')).
Proof.
  intros Es El Ej Er. unfold run_menu in Er.
  destruct (mq_op q); (erewrite serve_handler by reflexivity; rewrite Es; cbn [mbind res_bind]; rewrite ?El, ?Ej; by rewrite Er).
Qed.

(** The state between two events. *)
Record steady (s : server) (A : list acct) (L : lists) : Prop := {
  sd_world : exists w, sv_world s = Ok w /\ serving w A L;
  sd_legible : legible A;
  sd_plain : sess_plain (l_sess L);
  sd_presentable : presentable L;
}.

Lemma next_menu_plain L q : sess_plain (l_sess L) -> sess_plain (l_sess (next_menu L q)).
Proof.
  intros H. unfold next_menu, book_spec, cancel_spec, heartbeat_spec. destruct (mq_op q); try done.
  - repeat (case_match; try done).
  - repeat (case_match; try done).
  - case_match; [|done]. cbn [snd set_sessions l_sess]. apply Forall_map. eapply Forall_impl; [exact H|]. intros t Ht. unfold compose. by case_match.
Qed.

Lemma event_refines key s A L e :
  steady s A L -> zlen A <= 100000 -> event_ok L e -> locks A L e || crashes L e = false ->
  exists f p s', run_event key s e = (p, s') /\ event_allowed A L e f /\ shows f p /\ steady s' (next_event A L e).1 (next_event A L e).2.
Proof.
  intros [(w & Es & R) HL HP HS] Hb He [Hk Hn]%orb_false_iff. destruct e as [q|q|c fd pack|type fd]; cbn [run_event event_allowed next_event event_ok locks crashes] in *.
  - apply serving_ready in R. destruct (request_refines w (l_sess L) A q R HL HP Hb He Hk) as (f & Hf & p & w' & Ep & Er & R').
    rewrite (serve_account key _ s w q (Some p) w') by done. eexists (Some f), (Some p), _. split; [reflexivity|].
    split; [by exists f|]. split; [by exists p|]. split; [exists w'; split; [done|by apply serving_ready]|by apply next_legible|by apply next_plain|].
    destruct HS as [P1 P2 P3]. by split.
  - destruct (menu_refines w L q R HS He Hn) as (f & Hf & p & w' & Ep & Er & R').
    rewrite (serve_menu key _ s w q (Some p) w') by done. eexists (Some f), (Some p), _. split; [reflexivity|].
    split; [by exists f|]. split; [by exists p|]. split; [by exists w'|done|by apply next_menu_plain|by apply next_presentable].
  - destruct He as [H1 H2]. rewrite serve_unknown by done. eexists None, None, _. split; [reflexivity|]. split; [done|]. split; [done|].
    split; [by exists w|done..].
  - rewrite Es. cbn [mbind res_bind]. destruct (del_fd_table (w_sess w) (l_sess L) fd (sv_sess _ _ R)) as (r & sw & Ed & HT).
    destruct type; cbn [service_event_cb fst snd]; rewrite ?Ed; cbn [mbind res_bind];
      (eexists None, None, _; split; [reflexivity|]; split; [done|]; split; [done|]).
    1: { split; [by exists w|done..]. }
    all: destruct R as [_ Hdb Hp], HS as [P1 P2 P3];
      (split; [eexists; split; [reflexivity|]; by split|done|by apply plain_keep|by split]).
Qed.

Lemma next_event_few A L e : zlen (next_event A L e).1 <= zlen A + 1.
Proof. destruct e as [q|q|c fd pack|[] fd]; cbn [next_event fst]; try lia. apply next_few. Qed.

(** What becomes of the server at such an event. A request that keeps the lock is answered like
    any other, but from then on no session can be added or removed, and the server hangs when the
    next connection ends; the listing ends it at once. *)
Definition broken key (s : server) (A : list acct) (L : lists) (e : event) : Prop :=
  if locks A L e then
    exists f p s' w, run_event key s e = (p, s') /\ event_allowed A L e f /\ shows f p /\ sv_world s' = Ok w /\ stuck (w_sess w) /\
      forall type fd, type <> event_fd_accept -> sv_world (run_event key s' (EvNetwork type fd)).2 = Fault SelfDeadlock
  else crashes L e = true /\ sv_world (run_event key s e).2 = Fault DoubleFree.

Lemma event_breaks key s A L e :
  steady s A L -> event_ok L e -> locks A L e || crashes L e = true -> broken key s A L e.
Proof.
  intros [(w & Es & R) HL HP HS] He Hb. unfold broken.
  destruct e as [q|q|c fd pack|type fd]; cbn [run_event event_allowed event_ok locks crashes orb] in *; try done.
  - rewrite orb_false_r in Hb. rewrite Hb. apply serving_ready in R.
    destruct (request_locks w (l_sess L) A q R HP He Hb) as (f & p & w' & Hf & Ep & Er & _ & Hst).
    rewrite (serve_account key _ s w q (Some p) w') by done. eexists (Some f), (Some p), _, w'. split; [reflexivity|].
    split; [by exists f|]. split; [by exists p|]. split; [done|]. split; [done|]. intros type fd Ht.
    cbn [run_event snd sv_world mbind res_bind]. destruct Hst as (_ & Hd & _). destruct type; try done; cbn [service_event_cb]; by rewrite Hd.
  - split; [done|]. pose proof (menu_crashes w L q R He Hb) as Er. unfold run_menu in Er.
    destruct (mq_op q) eqn:Eo; try (unfold lists_booked in Hb; by rewrite Eo in Hb).
    erewrite serve_handler by reflexivity. rewrite Es. cbn [mbind res_bind]. by rewrite Er.
Qed.

Lemma events_refine key es : forall s A L,
  steady s A L -> zlen A + zlen es <= 100000 -> events_ok A L es ->
  let pre := survived A L es in
  exists fs ps s', run_events key s pre = (ps, s') /\ events_allowed A L pre fs /\ Forall2 shows fs ps /\
    steady s' (last_event A L pre).1 (last_event A L pre).2 /\
    (pre = es \/ exists e rest, es = pre ++ e :: rest /\ broken key s' (last_event A L pre).1 (last_event A L pre).2 e).
Proof.
  induction es as [|e es IH]; intros s A L R Hb Hok; [exists [], [], s; split; [done|]; split; [done|]; split; [done|]; split; [done|by left]|]. destruct Hok as [He Hes]. rewrite zlen_cons in Hb. pose proof (zlen_nonneg es).
  cbn [survived]. destruct (locks A L e || crashes L e) eqn:Hk.
  - cbn zeta. exists [], [], s. split; [done|]. split; [done|]. split; [done|]. split; [done|]. right. exists e, es. split; [done|]. by apply event_breaks.
  - destruct (event_refines key s A L e R ltac:(lia) He Hk) as (f & p & s1 & E1 & Hf & Hp & R1). pose proof (next_event_few A L e).
    destruct (IH s1 _ _ R1 ltac:(lia) Hes) as (fs & ps & s' & E & Ha & F & R' & X).
    exists (f :: fs), (p :: ps), s'. cbn [run_events]. rewrite E1, E. split; [done|]. split; [done|]. split; [by constructor|]. split; [done|].
    destruct X as [X|(e' & rest & X & B)]; [left; by f_equal|right]. exists e', rest. split; [cbn [app]; by f_equal|done].
Qed.

(** ** Theorems *)

Lemma boot_accounts_stable A : boot_accounts (boot_accounts A) = boot_accounts A.
Proof.
  unfold boot_accounts. destruct (find_acct A s_youmenu) eqn:F; [by rewrite F|]. unfold find_acct in *. rewrite find_app_one, F.
  by rewrite (bool_decide_eq_true_2 _ (eq_refl s_youmenu) : by_name s_youmenu the_account = true).
Qed.

Lemma boot_seats_stable Q : boot_seats (boot_seats Q) = boot_seats Q.
Proof.
  unfold boot_seats. destruct (existsb _ Q) eqn:E; [by rewrite E|]. rewrite existsb_app. cbn [existsb]. by rewrite E.
Qed.

Lemma boots_dishes_stable D D' : boots_dishes D D' -> boots_dishes D' D'.
Proof.
  unfold boots_dishes. destruct (existsb hot D) eqn:E; [intros ->; by rewrite E|]. intros (_ & c & ->). rewrite existsb_app. cbn [existsb].
  by rewrite E.
Qed.

(** C14: The start of the server. Whatever lists the database holds (tables that are missing hold
    none), [server_init_db] succeeds unless the first category is empty and number 0 is taken by
    another dish; it then answers 1 with all four tables there: the accounts with the administrator
    [youmenu] added if no account has that name, the dishes with the test dish added if the first
    category was empty, the seats with seat 0 added if there was none, and the bookings as they
    were. With the new session list the server is ready for its first request, and lists left by a
    start are unchanged by the next one. *)
Theorem server_init_db_correct fs h K s0 :
  sq_open DB_DATABASE = Some h -> database (sq_tables h) K -> w_alloc s0 = [] ->
  if bootable (k_dishes K)
  then exists d D, server_init_db fs [] = Ok (1, Some d) /\ boots_dishes (k_dishes K) D /\
    let A := boot_accounts (k_acct K) in let Q := boot_seats (k_seats K) in
    serving (mk_world (session_init s0) (Some d) []) A (mk_lists [] D Q (k_books K)) /\
    boot_accounts A = A /\ boots_dishes D D /\ boot_seats Q = Q
  else exists d, server_init_db fs [] = Ok (0, Some d).
Proof.
  intros Eo HK Hs. pose proof (server_start fs h K Eo HK) as X. destruct (bootable (k_dishes K)); [|exact X].
  destruct X as (d & T & D & E & I & BD & [F1 F2 F3 F4]). exists d, D. split; [done|]. split; [done|]. cbn zeta.
  split; [split; [|by exists d, T|done]|].
  - split; [|split; [done|split; constructor]]. by split; [constructor|constructor|constructor|].
  - split; [apply boot_accounts_stable|]. split; [by eapply boots_dishes_stable|apply boot_seats_stable].
Qed.


End server.

(** ** Examples: an empty file, and a day of the administrator *)

Section demo.
Import SqlToy.

Definition no_stock : stock := mk_stock [] [] [] [].
Definition no_files : files := mk_files (fun _ => false) (fun _ => false).

Lemma empty_database : database (∅ : tables) no_stock.
Proof. by split; [right..|]. Qed.

Lemma server_init_db_correct_witness :
  exists d D, server_init_db no_files [] = Ok (1, Some d) /\ boots_dishes [] D /\
    serving (mk_world (session_init demo_sessions) (Some d) []) [the_account] (mk_lists [] D [the_seat] []) /\
    boot_accounts [the_account] = [the_account] /\ boots_dishes D D /\ boot_seats [the_seat] = [the_seat].
Proof. exact (server_init_db_correct (SL := toy_laws) no_files (∅ : tables) no_stock demo_sessions eq_refl empty_database eq_refl). Defined.

Definition admin_login : fields := FCons f_uid (VStr s_youmenu) (FCons f_pwd (VStr s_youmenu) FNil).

Definition demo_locals : locals := mk_locals demo_env (0, 0) [].
Definition no_key : Dispatch.pfn_ep_cb ep_pack server := fun s _ _ => (None, true, s).

Definition demo_events (q1 q2 : ep_pack) : list event :=
  [EvNetwork event_fd_accept 5; EvAccount (mk_request OpLogin 5 (Some q1) admin_login demo_env);
   EvMenu (mk_mq OpFetch 5 (Some q2) (one_int f_category dish_category_hot) (7, 0) []);
   EvUnknown 99 5 None; EvAccount (mk_request OpList 5 None FNil demo_env); EvNetwork event_fd_close 5].

Lemma admin_login_fits : fits admin_login /\ all_fields login_field admin_login.
Proof.
  split.
  - split; [|vm_compute; done]. split; [name_lit|]. split; [name_lit|]. split; [name_lit|]. split; [name_lit|done].
  - split; [|split; [|done]]; (split; [|split; [|split]]); intros E; try done;
      eexists; (split; [done|]); (split; [by decide_now|]); (split; [done|by decide_now]).
Qed.

Lemma demo_steady : exists s D, boots_dishes [] D /\ steady s [the_account] (mk_lists [] D [the_seat] []).
Proof.
  destruct (server_start (SL := toy_laws) no_files (∅ : tables) no_stock eq_refl empty_database) as (d & T & D & E & I & BD & [F1 F2 F3 F4]).
  clear E. exists (mk_server demo_locals (Ok (mk_world (session_init demo_sessions) (Some d) []))), D. split; [done|].
  destruct BD as (_ & c & ->). split; [|by repeat constructor|constructor|].
  - eexists. split; [reflexivity|]. split; [|exact (ex_intro _ d (ex_intro _ T (conj eq_refl (conj I (conj F2 (conj F3 (conj F4 F1)))))))|done].
    split; [|split; [done|split; constructor]]. by split; [constructor|constructor|constructor|].
  - split; [apply Forall_singleton; split; by vm_compute..|done].
Qed.

(** The administrator logs in and changes his notes. *)
Definition demo_notes : fields := demo_pair f_nick f_comment "Robert" "day shift".
Definition demo_fatal (q1 q2 : ep_pack) : list event :=
  [EvAccount (mk_request OpLogin 5 (Some q1) admin_login demo_env); EvAccount (mk_request OpModifyBasic 5 (Some q2) demo_notes demo_env)].

Lemma demo_notes_fits : fits demo_notes /\ all_fields (two_field f_nick f_comment no_quote no_quote) demo_notes.
Proof.
  split.
  - split; [|vm_compute; done]. split; [name_lit|]. split; [name_lit|]. split; [name_lit|]. split; [name_lit|done].
  - split; [|split; [|done]]; (split; intros E; try done; eexists; (split; [done|]); (split; [by decide_now|]); (split; [done|by decide_now])).
Qed.


End demo.
End Server.
