(* ===== verification/Startup.v ===== *)
(** * Startup: the start and the stop of the server (server/server.c)

    The pieces of [Server] on the service of [Service]: the allocator, the log, the database, the
    network with its handlers, and the way back. What the system answers (the log file, the listening
    socket, the event loop) is an argument. *)
From Stdlib Require Import String.
From S2P Require Import Prelude Alloc Words Bson Packet Dispatch ThreadPool Io Session Fmt Sql Dbp Records Accounts Menu MenuSpec ResAccount AccountSpec ResMenu MenuRun Service Server.
From stdpp Require Import gmap.
Import Alloc Words Bson Packet Dispatch Io Service Server.
Import Session(session_init, session_destroy).
Import ResAccount(w_sess, w_dbp, set_sess, set_dbp).
Import Sql(Sqlite, SqliteLaws, sq_open, sq_tables).
Import Dbp(dbp_inst, files).
Open Scope Z_scope.

Module Startup.

Section startup.
Context `{S : Sqlite}.

(** The state of the handlers inside the service. *)
Definition on_world (f : ResAccount.world -> res ResAccount.world) (c : core server) : core server :=
  let s := cr_service c in
  let st := w_cb (s_world s) in
  set_service c (set_world s (set_cb (s_world s) (mk_server (sv_locals st) (w ← sv_world st; f w)))).

(** [service_event_cb] as the callback of the service. *)
Definition event_cb : ep_event_cb server := fun s type fd => mk_server (sv_locals s) (w ← sv_world s; service_event_cb w type fd).

(** The functions of the C library become the allocator. *)
Definition server_load_conf (cur : ep_alloctor) : Z * ep_alloctor := (1, (ep_alloctor_custom cur (Some (mk_alloctor true true true true))).2).

(** [opened] says that the file of the log could be opened. *)
Definition server_init_log (opened : bool) : Z := if opened then 1 else 0.

Definition network_conf (listen_port : Z) : ep_service_conf := mk_service_conf listen_port 60 10 4096 4194304 1024.

Fixpoint register_handlers (c : core server) (l : list (Z * handler)) : res (core server) :=
  match l with
  | [] => Ok c
  | e :: l => '(_, s) ← ep_service_register (cr_service c) e.1 (callback e.2); register_handlers (set_service c s) l
  end.

(** The loop is running from the return of [ep_service_start] on. *)
Definition server_init_network (key : pfn_ep_cb ep_pack server) (fuel : nat) (c : core server) (listen_port listen : Z) (created : bool)
  : res (Z * core server) :=
  '(r, c) ← ep_service_start key fuel c (network_conf listen_port) listen created;
  if negb (r =? 1) then Ok (0, c) else
  let c := on_world (fun w => Ok (set_sess w (session_init (w_sess w)))) c in
  let c := set_service c (ep_service_event (cr_service c) (Some event_cb)) in
  c ← register_handlers c server_handlers;
  Ok (1, c).

(** The database is opened into the state of the handlers. *)
Definition init_db_step (fs : files) (al : alloc) (c : core server) : res (Z * core server) :=
  '(r, d) ← server_init_db fs al; Ok (r, on_world (fun w => Ok (set_dbp w d)) c).

(** [server_startup] *)
Definition server_startup (key : pfn_ep_cb ep_pack server) (fuel : nat) (cur : ep_alloctor) (log_opened : bool) (fs : files) (al : alloc)
    (listen_port listen : Z) (created : bool) (c : core server) : res (Z * ep_alloctor * core server) :=
  let '(r, cur) := server_load_conf cur in
  if r =? 0 then Ok (0, cur, c) else
  if server_init_log log_opened =? 0 then Ok (0, cur, c) else
  '(r, c) ← init_db_step fs al c;
  if r =? 0 then Ok (0, cur, c) else
  '(r, c) ← server_init_network key fuel c listen_port listen created;
  if r =? 0 then Ok (0, cur, c) else Ok (1, cur, c).

Definition server_deinit_network (fuel : nat) (c : core server) : res (Z * core server) :=
  c ← ep_service_stop fuel c;
  Ok (1, on_world (fun w => sw ← session_destroy (w_sess w); Ok (set_sess w sw)) c).

Definition server_stop (fuel : nat) (c : core server) : res (Z * core server) :=
  '(r, c) ← server_deinit_network fuel c;
  if r =? 0 then Ok (0, c) else
  w ← sv_world (w_cb (s_world (cr_service c)));
  '(r, d) ← server_deinit_db (w_dbp w);
  let c := on_world (fun w => Ok (set_dbp w d)) c in
  if r =? 0 then Ok (0, c) else Ok (1, c).

(** ** What the start leaves *)

Context {SL : SqliteLaws S}.
#[local] Set Default Proof Using "Type*".

(** The manager of a fresh service with all the handlers. *)
Definition fresh_mgr (key : pfn_ep_cb ep_pack server) : ep_io_mgr server :=
  mk_mgr ep_io_refor_server (registry key) (Queue.Queue.mk_queue [] 0) 0 (ThreadPool.ThreadPool.mk_tp [] 10 0) 4096 4194304 1024 [].

Definition handlers_state (c : core server) : server := w_cb (s_world (cr_service c)).

(** A service that was never started. *)
Record cold (c : core server) (w : ResAccount.world) : Prop := {
  cd_started : s_started (cr_service c) = false;
  cd_al : w_al (s_world (cr_service c)) = [];
  cd_world : sv_world (handlers_state c) = Ok w;
}.

(** The service with the registry [m] and the allocator [al]. *)
Definition with_registry (c : core server) (m : ep_disp_mgr ep_pack server) (al : alloc) : core server :=
  let s := cr_service c in let w := s_world s in let g := w_mgr w in
  set_service c (set_world s (set_mgr (set_al w al)
    (mk_mgr (mg_refor g) m (mg_send_queue g) (mg_send_abort g) (mg_pool g) (mg_def_capacity g) (mg_max_capacity g) (mg_mini_compress_if g) (mg_io_list g)))).

Lemma register_handlers_spec l : forall c, s_disp_mgr (cr_service c) = true ->
  let r := foldl (fun s e => let '(_, m, al) := ep_disp_add_cb s.2 s.1 e.1 (callback e.2) in (m, al))
             (mg_disp (w_mgr (s_world (cr_service c))), w_al (s_world (cr_service c))) l in
  register_handlers c l = Ok (with_registry c r.1 r.2).
Proof.
  induction l as [|e l IH]; intros c Hd.
  - cbn. destruct c as [? ? ? ? ? [? ? [[] ? ? ? ? ?] ? ?]]. reflexivity.
  - cbn [register_handlers foldl fst snd]. unfold ep_service_register. rewrite Hd. cbn [negb].
    destruct (ep_disp_add_cb (w_al (s_world (cr_service c))) (mg_disp (w_mgr (s_world (cr_service c)))) e.1 (callback e.2)) as [[r m] al].
    cbn [mbind res_bind]. rewrite IH by done. destruct c as [? ? ? ? ? [? ? [[] ? ? ? ? ?] ? ?]]. reflexivity.
Qed.

Lemma registry_al (l : list (Z * handler)) : forall m,
  (foldl (fun s e => let '(_, m, al) := ep_disp_add_cb s.2 s.1 e.1 (callback e.2) in (m, al)) (m, [] : alloc) l).2 = [].
Proof.
  induction l as [|e l IH]; intros m; [done|]. cbn [foldl fst snd]. unfold ep_disp_add_cb at 2.
  destruct (1 <=? ep_disp_count m e.1); [apply IH|]. rewrite ep_calloc_plenty by (unfold sizeof_ep_dispatch; lia). cbn [negb]. apply IH.
Qed.

(** The service after [ep_service_init] and before any handler is registered. *)
Definition bare_mgr (key : pfn_ep_cb ep_pack server) : ep_io_mgr server :=
  mk_mgr ep_io_refor_server (mk_disp_mgr [mk_disp EP_CATEGORY_INTERNAL_KEY key]) (Queue.Queue.mk_queue [] 0) 0 (ThreadPool.ThreadPool.mk_tp [] 10 0) 4096 4194304 1024 [].

Lemma service_init_bare key (s : service server) :
  w_al (s_world s) = [] ->
  ep_service_init key s 10 4096 4194304 1024 = (1, set_managers s true true (mk_world (bare_mgr key) [] [] [] (w_cb (s_world s)) [])).
Proof. intros Ha. unfold ep_service_init. rewrite Ha. reflexivity. Qed.

Lemma registry_fold key : registry key =
  (foldl (fun s e => let '(_, m, al) := ep_disp_add_cb s.2 s.1 e.1 (callback e.2) in (m, al))
     (mk_disp_mgr [mk_disp EP_CATEGORY_INTERNAL_KEY key], [] : alloc) server_handlers).1.
Proof. unfold registry, register_all. exact eq_refl. Qed.

Lemma register_all_spec key c :
  s_disp_mgr (cr_service c) = true -> mg_disp (w_mgr (s_world (cr_service c))) = mk_disp_mgr [mk_disp EP_CATEGORY_INTERNAL_KEY key] ->
  w_al (s_world (cr_service c)) = [] -> register_handlers c server_handlers = Ok (with_registry c (registry key) []).
Proof. intros Hd Hm Ha. rewrite register_handlers_spec by done. cbv zeta. rewrite Hm, Ha, registry_al, <- registry_fold. reflexivity. Qed.

Lemma service_up key fuel c w port listen :
  cold c w -> listen <> -1 ->
  exists c', ep_service_start key fuel c (network_conf port) listen true = Ok (1, c') /\
    cr_fd c' = listen /\ listen ∈ cr_events c' /\ s_started (cr_service c') = true /\ s_disp_mgr (cr_service c') = true /\
    s_event_cb (cr_service c') = s_event_cb (cr_service c) /\ s_world (cr_service c') = mk_world (bare_mgr key) [] [] [] (handlers_state c) [].
Proof.
  intros [Hs Ha Hw] Hl. unfold ep_service_start. rewrite Hs.
  cbn [network_conf sc_nprocessors sc_io_def_capacity sc_io_max_capacity sc_mini_compress_if sc_keepalive]. rewrite service_init_bare by done.
  cbn [Z.eqb Pos.eqb negb]. unfold service_core_start. rewrite (proj2 (Z.eqb_neq listen (-1))) by done. cbn [negb Z.eqb Pos.eqb].
  eexists. split; [reflexivity|]. split; [reflexivity|]. split; [|done]. cbn [cr_events set_service watch]. by apply elem_of_union_l, elem_of_singleton.
Qed.

Lemma network_up key fuel c w port listen :
  cold c w -> listen <> -1 ->
  exists c', server_init_network key fuel c port listen true = Ok (1, c') /\
    cr_fd c' = listen /\ listen ∈ cr_events c' /\ s_started (cr_service c') = true /\ s_event_cb (cr_service c') = Some event_cb /\
    s_world (cr_service c') = mk_world (fresh_mgr key) [] [] [] (mk_server (sv_locals (handlers_state c)) (Ok (set_sess w (session_init (w_sess w))))) [].
Proof.
  intros Hc Hl. destruct (service_up key fuel c w port listen Hc Hl) as (c1 & E1 & Hf & He & Hst & Hdm & _ & Hw1).
  unfold server_init_network. rewrite E1. cbn [mbind res_bind]. change (negb (1 =? 1)) with false. cbv iota zeta.
  set (c2 := set_service _ _).
  assert (s_world (cr_service c2) = mk_world (bare_mgr key) [] [] [] (mk_server (sv_locals (handlers_state c)) (Ok (set_sess w (session_init (w_sess w))))) []) as Hw2.
  { cbn. rewrite Hw1. cbn. by rewrite (cd_world _ _ Hc). }
  rewrite (register_all_spec key c2); [|exact Hdm|by rewrite Hw2|by rewrite Hw2]. cbn [mbind res_bind].
  eexists. split; [reflexivity|]. split; [exact Hf|]. split; [exact He|]. split; [exact Hst|]. split; [reflexivity|].
  unfold with_registry. cbn [cr_service set_service s_world set_world]. rewrite Hw2. reflexivity.
Qed.

Lemma network_down key fuel c w port listen created :
  cold c w -> listen = -1 \/ created = false ->
  exists c', server_init_network key (Datatypes.S fuel) c port listen created = Ok (0, c') /\
    s_started (cr_service c') = false /\ s_io_mgr (cr_service c') = false /\ handlers_state c' = handlers_state c.
Proof.
  intros [Hs Ha Hw] Hl. destruct c as [lp fd ka ev cl [io dm [mg ios bufs segs [lo st] al] started cb]]. cbn in Hs, Ha, Hw. subst.
  unfold server_init_network, ep_service_start. cbn [cr_service s_started set_service].
  cbn [network_conf sc_nprocessors sc_io_def_capacity sc_io_max_capacity sc_mini_compress_if sc_keepalive]. rewrite service_init_bare by reflexivity.
  cbn [Z.eqb Pos.eqb negb]. unfold service_core_start. cbn [cr_loop].
  destruct (listen =? -1) eqn:E; cbn [negb Z.eqb Pos.eqb mbind res_bind].
  - eexists. split; [reflexivity|]. done.
  - destruct created; [destruct Hl; [apply Z.eqb_neq in E; done|done]|]. eexists. split; [reflexivity|]. done.
Qed.

Lemma registry_holds key id h : In (id, h) server_handlers -> disp_map (registry key) !! id = Some (callback h).
Proof.
  intros Hi. rewrite registry_list. unfold disp_map. cbn [disp_list]. apply elem_of_list_to_map_1.
  - assert (NoDup (rev (fst <$> server_handlers) ++ [EP_CATEGORY_INTERNAL_KEY])) as Hn by (apply (bool_decide_unpack _); vm_compute; exact I).
    exact Hn.
  - apply list_elem_of_fmap. exists (mk_disp id (callback h)). split; [done|]. apply elem_of_app. left. apply list_elem_of_In, in_map_iff.
    exists (id, h). split; [done|]. by apply -> in_rev.
Qed.

(** C18: A start of the server leaves it ready. From a process whose service was never started, with a
    log that can be opened, a database as in [server_init_db_correct] and a port to listen on,
    [server_startup] answers 1: the C library is the allocator, the socket is watched, every handler
    is in the registry of the connection manager, the end of a connection is told to the sessions,
    and the handlers work on the database completed as [server_init_db] says, with no session.
    Without a port the answer is 0 and the service is not started. *)
Theorem server_startup_correct key fuel cur fs h K c w0 port listen created :
  cold c w0 -> Session.Session.w_alloc (w_sess w0) = [] -> ResAccount.w_pal w0 = [] ->
  sq_open DB_DATABASE = Some h -> database (sq_tables h) K -> bootable (k_dishes K) = true ->
  if (listen =? -1) || negb created
  then exists c', server_startup key (Datatypes.S fuel) cur true fs [] port listen created c = Ok (0, mk_alloctor true true true true, c') /\
    s_started (cr_service c') = false /\ s_io_mgr (cr_service c') = false
  else exists c' D w, server_startup key (Datatypes.S fuel) cur true fs [] port listen created c = Ok (1, mk_alloctor true true true true, c') /\
    cr_fd c' = listen /\ listen ∈ cr_events c' /\ s_started (cr_service c') = true /\ s_event_cb (cr_service c') = Some event_cb /\
    w_mgr (s_world (cr_service c')) = fresh_mgr key /\
    (forall id h, In (id, h) server_handlers -> disp_map (mg_disp (w_mgr (s_world (cr_service c')))) !! id = Some (callback h)) /\
    sv_world (handlers_state c') = Ok w /\ boots_dishes (k_dishes K) D /\
    serving w (boot_accounts (k_acct K)) (MenuRun.mk_lists [] D (boot_seats (k_seats K)) (k_books K)).
Proof.
  intros Hc Ha Hp Eo HK Hb. pose proof (server_start fs h K Eo HK) as X. rewrite Hb in X. destruct X as (d & T & D & E & I & BD & [F1 F2 F3 F4]).
  unfold server_startup. cbn [server_load_conf server_init_log ep_alloctor_custom negb orb snd a_malloc a_calloc a_realloc a_free Z.eqb Pos.eqb].
  unfold init_db_step. rewrite E. cbn [mbind res_bind Z.eqb]. set (c1 := on_world _ c). assert (cold c1 (set_dbp w0 (Some d))) as Hc1.
  { destruct Hc as [H1 H2 H3]. split; [exact H1|exact H2|]. cbn. unfold handlers_state in H3. by rewrite H3. }
  destruct (Z.eqb_spec listen (-1)) as [->|Hl]; cbn [orb].
  - destruct (network_down key fuel c1 _ port (-1) created Hc1) as (c' & -> & H1 & H2 & _); [by left|]. exists c'. done.
  - destruct created; cbn [negb].
    2: { destruct (network_down key fuel c1 _ port listen false Hc1) as (c' & -> & H1 & H2 & _); [by right|]. exists c'. done. }
    destruct (network_up key (Datatypes.S fuel) c1 _ port listen Hc1 Hl) as (c' & -> & H1 & H2 & H3 & H4 & H5). cbn [mbind res_bind Z.eqb].
    exists c', D, (set_sess (set_dbp w0 (Some d)) (session_init (w_sess (set_dbp w0 (Some d))))). do 5 (split; [done|]). unfold handlers_state. rewrite H5.
    split; [done|]. split; [intros id h0; by apply registry_holds|]. split; [done|]. split; [done|]. split; [|by exists d, T|done].
    split; [|split; [done|split; constructor]]. by split; [constructor|constructor|constructor|].
Qed.

(** The server listens before it can answer. [ep_service_start] comes first in
    [server_init_network]: from its return on the socket is watched, but until the registrations that
    follow, the registry knows only the exchange of keys, so a request of any other category is
    dropped without an answer; and until the event callback is set, a connection that ends is told
    to nobody. *)
Theorem startup_window key fuel c w port listen :
  cold c w -> listen <> -1 -> s_event_cb (cr_service c) = None ->
  exists c', ep_service_start key fuel c (network_conf port) listen true = Ok (1, c') /\ listen ∈ cr_events c' /\
    (forall category fd pack, category <> EP_CATEGORY_INTERNAL_KEY ->
       ep_disp_processor (handlers_state c') (mg_disp (w_mgr (s_world (cr_service c')))) category fd pack = (None, bool_decide (is_Some pack), handlers_state c')) /\
    (forall type fd, notify (cr_service c') type fd = cr_service c').
Proof.
  intros Hc Hl He. destruct (service_up key fuel c w port listen Hc Hl) as (c' & E & _ & Hev & _ & _ & Hcb & Hw).
  exists c'. split; [exact E|]. split; [exact Hev|]. split.
  - intros category fd pack Hn. rewrite Hw. cbn [w_mgr mg_disp bare_mgr]. unfold ep_disp_processor. cbn [disp_list disp_call d_category].
    by rewrite (proj2 (Z.eqb_neq EP_CATEGORY_INTERNAL_KEY category)).
  - intros type fd. unfold notify. by rewrite Hcb, He.
Qed.

(** A server whose connections are gone. *)
Record quiet (c : core server) (w : ResAccount.world) : Prop := {
  qt_started : s_started (cr_service c) = true;
  qt_al : w_al (s_world (cr_service c)) = [];
  qt_ios : mg_io_list (w_mgr (s_world (cr_service c))) = [];
  qt_send : Queue.Queue.q_items (mg_send_queue (w_mgr (s_world (cr_service c)))) = [];
  qt_world : sv_world (handlers_state c) = Ok w;
}.

(** C19: A stop of the server undoes its start. From a server that serves any accounts, dishes, seats,
    bookings and sessions, and whose connections are gone, [server_stop] answers 1: the listening
    socket is closed and no longer watched, every session is freed, the database is closed, and
    the process is again one whose service was never started, so that it can be started again. *)
Theorem server_stop_correct fuel c w A L : quiet c w -> serving w A L ->
  exists c' w', server_stop (Datatypes.S fuel) c = Ok (1, c') /\ cold c' w' /\ w_dbp w' = None /\ Session.Session.w_list (w_sess w') = [] /\
    s_io_mgr (cr_service c') = false /\
    (if cr_loop c then cr_closed c' = cr_closed c ++ [cr_fd c] /\ cr_events c' = cr_events c ∖ {[cr_fd c]} else cr_events c' = cr_events c).
Proof.
  intros [Q1 Q2 Q3 Q4 Q5] [Hs (d & T & Ed & I & _) _]. destruct Hs as (Ht & Hl & _).
  destruct (Session.Session.destroy_spec _ _ Ht Hl) as (sw & Es & Esl).
  destruct c as [lp lfd ka ev cl [iom dsm [[rf dp sq sa tp dc mc mi il] ios bufs bc st al] std ecb]].
  unfold handlers_state in Q5. cbn in Q1, Q2, Q3, Q4, Q5. subst. destruct sq as [items stop]. cbn in Q4. subst items.
  unfold server_stop, server_deinit_network, ep_service_stop. cbn [s_started cr_service negb].
  destruct lp; cbn -[server_deinit_db]; rewrite Q5; cbn -[server_deinit_db]; rewrite Es; cbn -[server_deinit_db];
    unfold server_deinit_db, Accounts.db_deinit, Dbp.dbp_free; rewrite Ed; cbn; rewrite (Dbp.i_lock _ _ I); cbn;
    eexists _, (set_dbp (set_sess w sw) None); (split; [reflexivity|]); cbn; (split; [by split; cbn; rewrite ?Q5; cbn; rewrite ?Es|]); by split_and!.
Qed.

End startup.

(** ** The start over an empty file *)

Section demo.
Import Sql.SqlToy.

Definition cold_core : core server :=
  mk_core false 0 0 ∅ [] (mk_service false false (mk_world
    (mk_mgr ep_io_refor_server (mk_disp_mgr []) (Queue.Queue.mk_queue [] 0) 0 (ThreadPool.ThreadPool.mk_tp [] 0 0) 0 0 0 []) [] [] []
    (mk_server demo_locals (Ok (ResAccount.mk_world AccountSpec.demo_sessions None []))) []) false None).

Lemma cold_core_cold : cold cold_core (ResAccount.mk_world AccountSpec.demo_sessions None []).
Proof. by split. Qed.

Lemma server_startup_correct_witness :
  exists c' D w, server_startup no_key 1 (mk_alloctor true true true true) true no_files [] 8000 3 true cold_core = Ok (1, mk_alloctor true true true true, c') /\
    3 ∈ cr_events c' /\ sv_world (handlers_state c') = Ok w /\ serving w [the_account] (MenuRun.mk_lists [] D [the_seat] []).
Proof.
  destruct (server_startup_correct (SL := toy_laws) no_key 0 (mk_alloctor true true true true) no_files (∅ : Sql.tables) no_stock cold_core _ 8000 3 true cold_core_cold
    eq_refl eq_refl eq_refl empty_database eq_refl) as (c' & D & w & E & _ & He & _ & _ & _ & _ & Hw & _ & Sv).
  exists c', D, w. exact (conj E (conj He (conj Hw Sv))).
Defined.

Lemma startup_window_witness :
  exists c', ep_service_start no_key 1 cold_core (network_conf 8000) 3 true = Ok (1, c') /\
    ep_disp_processor (handlers_state c') (mg_disp (w_mgr (s_world (cr_service c')))) ep_id_account_login 5 None = (None, false, handlers_state c').
Proof.
  destruct (startup_window no_key 1 cold_core _ 8000 3 cold_core_cold ltac:(done) eq_refl) as (c' & E & _ & Hd & _). exists c'.
  split; [exact E|]. exact (Hd ep_id_account_login 5 None ltac:(done)).
Defined.

(** The service of the handlers [st], started and without connections. *)
Definition quiet_core (st : server) : core server :=
  mk_core true 3 0 {[3]} [] (mk_service true true (mk_world (fresh_mgr no_key) [] [] [] st []) true (Some event_cb)).

Lemma server_stop_correct_witness : exists st c' w', server_stop 1 (quiet_core st) = Ok (1, c') /\ cold c' w' /\ w_dbp w' = None /\ cr_closed c' = [3].
Proof.
  destruct demo_steady as (st & D & _ & [(w & Ew & Sv) _ _ _]). exists st.
  destruct (server_stop_correct (SL := toy_laws) 0 (quiet_core st) w _ _ ltac:(split; [reflexivity|reflexivity|reflexivity|reflexivity|exact Ew]) Sv)
    as (c' & w' & E & Hc & Hd & _ & _ & Hcl & _).
  exists c', w'. exact (conj E (conj Hc (conj Hd Hcl))).
Defined.

End demo.
End Startup.
