(* ===== verification/Connect.v ===== *)
(** * Connect: the application's connection (client/client.c, connect.h)

    What the requests of the application share: the connection with its session, the exchange of a
    packet for an answer over [Request] and [Client], the loop that looks for the result of an
    answer, and the loops that read a list of records out of one. *)
From Stdlib Require Import String.
From S2P Require Import Prelude Alloc Cstr Words Bson Packet PackLoop Buffer Io Request Cert Client Accounts ResAccount MenuRun Server.
From stdpp Require Import gmap.
Import Alloc Cstr Words Bson Packet PackLoop Buffer Io Request Client.
Import Accounts(account, mk_account, acc_type, acc_uid, acc_pwd, acc_nick, acc_comment).
Import ResAccount(f_result, f_count, append_cstr).
Import Server(ep_id_heartbeat).
Open Scope Z_scope.

Module Connect.

(** connect_result *)
Definition connect_r_ok : Z := 0.
Definition connect_r_socket_error : Z := 1.
Definition connect_r_security_handshake_error : Z := 2.
Definition connect_r_module_init_error : Z := 3.
Definition connect_r_no_response : Z := 4.

Definition REQ_DEF_TIMEOUT : Z := 2.

(** [client_session_t]: the token is an array of 39 characters. *)
Record client_session := mk_client_session { cs_result : Z; cs_account : account; cs_token : list Z }.

(** [connect_t]: the session, the socket, the calls of [disc_cb] so far, and the allocator. *)
Record connect := mk_connect {
  k_session : option client_session;
  k_sock : option ep_client;
  k_disc : nat;
  k_al : alloc;
}.

Definition set_session (k : connect) s : connect := mk_connect s (k_sock k) (k_disc k) (k_al k).
Definition set_sock (k : connect) s : connect := mk_connect (k_session k) s (k_disc k) (k_al k).
Definition set_kal (k : connect) al : connect := mk_connect (k_session k) (k_sock k) (k_disc k) al.

(** REQ_MAKE_PARAM *)
Definition make_param (id : Z) (pack : option ep_pack) : ep_req_param :=
  mk_param req_type_get id crypt_type_encrypt compress_type_auto crypt_type_encrypt compress_type_auto pack.

Section exchange.
Context `{C : Codec} (beyond : list Z) (env : client -> res client) (sec usec wait_r : Z).

(** [ep_req_new], [ep_req_wait] and [ep_req_destroy]: the answer, [None] for no response. The
    packet of the answer belongs to the caller; the requests read it before they destroy the handle,
    which does not touch it. *)
Definition exchange (k : connect) (id : Z) (pack : option ep_pack) : res (option (option ep_pack) * connect) :=
  '(h, _, c) ← ep_req_new beyond (ec_client <$> k_sock k) (make_param id pack);
  match h, k_sock k, c with
  | Some a, Some e, Some c =>
      '(ret, p, c) ← ep_req_wait env c a REQ_DEF_TIMEOUT sec usec wait_r;
      c ← ep_req_destroy c a;
      let k := set_sock k (Some (set_client e c)) in
      if ret <=? 0 then Ok (None, k) else Ok (Some p, k)
  | _, Some e, Some c => Ok (None, set_sock k (Some (set_client e c)))
  | _, _, _ => Ok (None, k)
  end.

(** A packet filled by [build], exchanged. *)
Definition ask (k : connect) (id : Z) (build : ep_pack -> res ep_pack) : res (option (option ep_pack) * connect) :=
  '(p, al) ← ep_pack_new (k_al k);
  match p with
  | None => Fault NullDeref
  | Some p => p ← build p; exchange (set_kal k al) id (Some p)
  end.

(** The loop with [break] over the answer: the first element named result. *)
Definition result_body (m : list Z) (iter : bson_iterator) (s : unit) : res (turn unit Z) :=
  _ ← ep_pack_iterator_type m iter;
  key ← ep_pack_iterator_key m iter;
  if decide (key = f_result) then r ← ep_pack_iterator_int m iter; Ok (Leave r) else Ok (Next s).

(** [r0] is what the variable holds before. *)
Definition first_result (p : option ep_pack) (r0 : Z) : res Z :=
  match p with
  | None => Fault NullDeref
  | Some p => t ← pack_foreach p result_body tt; Ok (match t with Next _ => r0 | Leave r => r end)
  end.

(** A request whose answer is a result. *)
Definition ask_result (k : connect) (id : Z) (build : ep_pack -> res ep_pack) (no_response r0 : Z) : res (Z * connect) :=
  '(a, k) ← ask k id build;
  match a with
  | None => Ok (no_response, k)
  | Some p => r ← first_result p r0; Ok (r, k)
  end.

(** ** client.c *)

Definition client_heartbeat (k : option connect) : res (Z * option connect) :=
  match k with
  | None => Ok (0, None)
  | Some k =>
      match k_sock k with
      | None => Ok (0, Some k)
      | Some _ =>
          '(a, k) ← exchange k ep_id_heartbeat None;
          match a with
          | None => Ok (0, Some k)
          | Some p => r ← first_result p 0; Ok (r, Some k)
          end
      end
  end.

(** [connect->disc_cb(connect->disc_cb_opaque)] *)
Definition client_disconnect_cb (k : connect) : connect := mk_connect (k_session k) (k_sock k) (S (k_disc k)) (k_al k).

Definition heartbeart_timer_clock (k : option connect) : res (option connect) :=
  '(r, k) ← client_heartbeat k;
  if r =? 0 then match k with None => Fault NullDeref | Some k => Ok (Some (client_disconnect_cb k)) end else Ok k.

(** Everything in it is commented out. *)
Definition client_startup (k : connect) : Z := 0.

Definition sizeof_connect : Z := 32.

(** The configuration; [mini_compress_if] is not set. *)
Definition connect_conf (mini_compress_if : Z) : ep_client_conf := mk_client_conf 60 4096 4194304 mini_compress_if.

(** [start] is what [ep_client_start] answered; the result and the connection. *)
Definition client_connect (al : alloc) (start : Z * option ep_client) : res (Z * option connect) :=
  let '(r, client) := start in
  if r =? 1 then
    let '(ok, al) := ep_calloc al 1 sizeof_connect in
    if negb ok then Fault NullDeref else
    match client with
    | None => Fault NullDeref
    | Some e => Ok (connect_r_ok, Some (mk_connect None (Some (ep_client_event e true)) 0 al))
    end
  else if r =? 0 then Ok (connect_r_socket_error, None)
  else if r =? -1 then Ok (connect_r_security_handshake_error, None)
  else if r =? -2 then Ok (connect_r_no_response, None)
  else Ok (connect_r_module_init_error, None).

Definition client_disconnect (fuel : nat) (thread : ep_client -> res ep_client) (k : option connect) : res (option connect) :=
  match k with
  | None => Ok None
  | Some k => _ ← ep_client_stop fuel thread (k_sock k); Ok None
  end.

End exchange.

(** ** Lists of records *)

Section lists.
(** [one] says what an element does to its record: nothing, or an assignment to it. *)
Context {A : Type} (zero : A) (one : list Z -> bson_iterator -> res (option (A -> res A))).

(** What a list request leaves: the result, the count, and the array or NULL. *)
Record listing := mk_listing { ls_result : Z; ls_count : Z; ls_out : option (list A) }.

(** An assignment to [arr[i]], where [arr] may be NULL. *)
Definition assign (arr : option (list A)) (i : nat) (f : A -> res A) : res (option (list A)) :=
  match arr with
  | None => Fault NullDeref
  | Some l => match l !! i with None => Fault OutOfBounds | Some x => x ← f x; Ok (Some (<[i := x]> l)) end
  end.

(** The elements of an object. *)
Definition read_one (fuel : nat) (m : list Z) (iter : bson_iterator) (arr : option (list A)) (i : nat) : res (option (list A)) :=
  it ← ep_pack_interator_array m iter;
  t ← pack_for (R := Empty_set) fuel m it
        (fun it arr =>
           u ← one m it;
           match u with None => Ok (Next arr) | Some f => arr ← assign arr i f; Ok (Next arr) end) arr;
  match t with Next arr => Ok arr | Leave r => match (r : Empty_set) with end end.

(** The objects of an array, from number [i] on; something else leaves the loop. *)
Definition read_objects (fuel : nat) (m : list Z) (iter : bson_iterator) (st : option (list A) * nat) : res (turn (option (list A) * nat) unit) :=
  it ← ep_pack_interator_array m iter;
  pack_for fuel m it
    (fun it '(arr, i) =>
       type ← ep_pack_iterator_type m it;
       _ ← ep_pack_iterator_key m it;
       if bool_decide (type = PACKET_OBJECT) then arr ← read_one fuel m it arr i; Ok (Next (arr, S i)) else Ok (Leave tt)) st.

(** The elements after the count: an array of objects each; [out] is what was given out so far. *)
Definition read_arrays (fuel : nat) (m : list Z) (iter : bson_iterator) (arr : option (list A)) (out : option (list A))
  : res (turn (option (list A) * nat * option (list A)) unit) :=
  pack_for fuel m iter
    (fun it '(arr, i, out) =>
       type ← ep_pack_iterator_type m it;
       _ ← ep_pack_iterator_key m it;
       if bool_decide (type = PACKET_ARRAY) then
         t ← read_objects fuel m it (arr, i);
         Ok (match t with Next (arr, i) => Next (arr, i, arr) | Leave _ => Leave tt end)
       else Ok (Leave tt)) (arr, 0%nat, out).

(** Whether the cursor is at a number named [name]. *)
Definition at_int (m : list Z) (iter : bson_iterator) (name : list Z) : res bool :=
  type ← ep_pack_iterator_type m iter;
  key ← ep_pack_iterator_key m iter;
  Ok (bool_decide (type = PACKET_INT) && bool_decide (key = name)).

(** The answer to a list request; [l0] is what the caller's variables hold before, [size] the size of
    a record. *)
Definition read_listing (al : alloc) (size unavailable : Z) (p : option ep_pack) (l0 : listing) : res (listing * alloc) :=
  match p with
  | None => Fault NullDeref
  | Some p =>
      let m := ep_pack_data p in
      let fuel := S (length m) in
      let bad := (mk_listing unavailable (ls_count l0) (ls_out l0), al) in
      '(more, it) ← ep_pack_iterator_next m (ep_pack_iterator_get p);
      if negb more then Ok bad else
      b ← at_int m it f_result;
      if negb b then Ok bad else
      r ← ep_pack_iterator_int m it;
      if negb (r =? 0) then Ok (mk_listing r (ls_count l0) (ls_out l0), al) else
      '(more, it) ← ep_pack_iterator_next m it;
      if negb more then Ok bad else
      b ← at_int m it f_count;
      if negb b then Ok bad else
      count ← ep_pack_iterator_int m it;
      if count =? 0 then Ok (mk_listing 0 count (ls_out l0), al) else
      let '(ok, al) := ep_calloc al 1 (size * count) in
      let arr := (if ok then Some (replicate (Z.to_nat count) zero) else None) in
      t ← read_arrays fuel m it arr (ls_out l0);
      match t with
      | Leave _ => Ok (mk_listing unavailable count None, al)
      | Next (arr, _, out) => Ok (mk_listing 0 count out, al)
      end
  end.

End lists.
Arguments mk_listing {A} _ _ _.
Arguments ls_result {A} _.
Arguments ls_count {A} _.
Arguments ls_out {A} _.
Arguments listing : clear implicits.

(** ** Lemmas: the list of an answer *)

Section listing.
Context {A : Type} (zero : A) (one : list Z -> bson_iterator -> res (option (A -> res A)))
  (step : list Z -> value -> A -> A) (P : list Z -> value -> Prop) (I : A -> Prop)
  (Hone : forall m it name v x, at_field m it name v -> P name v -> I x ->
     (one m it = Ok None /\ step name v x = x) \/ exists g, one m it = Ok (Some g) /\ g x = Ok (step name v x))
  (HI : forall name v x, P name v -> I x -> I (step name v x)) (H0 : I zero).
#[local] Set Default Proof Using "Type*".

(** What the elements of an object make of a record. *)
Fixpoint record_of (f : fields) (x : A) : A :=
  match f with FNil => x | FCons n v f => record_of f (step n v x) end.

Lemma read_one_spec m it name f fuel l1 x l2 :
  at_field m it name (VObj f) -> fields_ok f -> all_fields P f -> zlen (enc_fields f) <= LIM -> (flen f < fuel)%nat -> I x ->
  read_one one fuel m it (Some (l1 ++ x :: l2)) (length l1) = Ok (Some (l1 ++ record_of f x :: l2)).
Proof.
  intros Ha Hf HP Hl Hfu Hx. unfold read_one. destruct (field_sub _ _ _ f _ Ha (or_intror eq_refl)) as (it' & k & -> & Hn). cbn [mbind res_bind].
  revert fuel x it' Hfu Hx Hn. clear Ha. induction f as [|n v f IH]; intros fuel x it' Hfu Hx Hn; (destruct fuel as [|fuel]; [lia|]); cbn [flen] in Hfu.
  - destruct (next_end _ _ _ Hn) as (it2 & E). cbn [pack_for]. by rewrite E.
  - destruct Hf as ([Hnm _] & Hv & Hf). destruct HP as [HP HPf]. cbn [enc_fields] in Hl. rewrite !zlen_app, zlen_cons in Hl.
    pose proof (zlen_nonneg (n ++ [0])). pose proof (zlen_nonneg (enc_value v)). pose proof (zlen_nonneg (enc_fields f)).
    destruct (next_field _ _ _ _ _ _ Hn Hnm Hv ltac:(lia)) as (it2 & E & Hat & Hn2). cbn [pack_for record_of]. rewrite E. cbn [mbind res_bind negb].
    specialize (IH Hf HPf ltac:(lia) fuel (step n v x) it2 ltac:(lia) (HI _ _ _ HP Hx) Hn2).
    destruct (Hone m it2 n v x Hat HP Hx) as [[-> Es]|(g & -> & Eg)]; cbn [mbind res_bind].
    + rewrite Es in *. exact IH.
    + unfold assign. rewrite list_lookup_middle by done. rewrite Eg. cbn [mbind res_bind].
      rewrite insert_app_r_alt, Nat.sub_diag by lia. exact IH.
Qed.

Lemma objects_len nm f fs : zlen (enc_fields (MenuRun.objects nm (f :: fs))) = zlen nm + zlen (enc_fields f) + 7 + zlen (enc_fields (MenuRun.objects nm fs)).
Proof. cbn [MenuRun.objects enc_fields enc_value type_code]. rewrite !zlen_app, zlen_cons, zlen_doc, !zlen_app, zlen_cons, zlen_nil. lia. Qed.

Lemma read_objects_spec nm F m fs : forall fuel it k dn,
  next_at m it (enc_fields (MenuRun.objects nm fs) ++ 0 :: k) -> name_ok nm ->
  Forall (fun f => fields_ok f /\ all_fields P f /\ (flen f < F)%nat) fs -> zlen (enc_fields (MenuRun.objects nm fs)) <= LIM -> (length fs < fuel)%nat ->
  pack_for (R := unit) fuel m it
    (fun it '(arr, i) =>
       type ← ep_pack_iterator_type m it;
       _ ← ep_pack_iterator_key m it;
       if bool_decide (type = PACKET_OBJECT) then arr ← read_one one F m it arr i; Ok (Next (arr, S i)) else Ok (Leave tt))
    (Some (dn ++ replicate (length fs) zero), length dn)
  = Ok (Next (Some (dn ++ map (fun f => record_of f zero) fs), (length dn + length fs)%nat)).
Proof.
  induction fs as [|f fs IH]; intros fuel it k dn Hn Hnm Hf Hl Hfu; (destruct fuel as [|fuel]; [cbn in Hfu; lia|]).
  - destruct (next_end _ _ _ Hn) as (it2 & E). cbn [pack_for]. rewrite E. cbn. by rewrite Nat.add_0_r.
  - apply Forall_cons in Hf as [(Hf1 & Hf2 & Hf3) Hf]. rewrite objects_len in Hl. cbn [MenuRun.objects] in Hn. pose proof (zlen_nonneg nm).
    pose proof (zlen_nonneg (enc_fields f)). pose proof (zlen_nonneg (enc_fields (MenuRun.objects nm fs))). cbn [length] in Hfu.
    destruct (next_field _ _ _ _ _ _ Hn (proj1 Hnm)) as (it2 & E & Hat & Hn2); [done|cbn [enc_value]; rewrite zlen_doc; lia|].
    cbn [pack_for]. rewrite E. cbn [mbind res_bind negb length replicate]. rewrite (field_type _ _ _ _ Hat), (field_key _ _ _ _ Hat). cbn [mbind res_bind type_code].
    change (bson_type_to_ep_pack_type 3) with PACKET_OBJECT. rewrite bool_decide_true by done.
    rewrite (read_one_spec m it2 nm f F dn zero (replicate (length fs) zero)) by (done || lia). cbn [mbind res_bind].
    specialize (IH fuel it2 k (dn ++ [record_of f zero]) Hn2 Hnm Hf ltac:(lia) ltac:(lia)). rewrite length_app in IH. cbn [length] in IH.
    rewrite <- !app_assoc in IH. cbn [app] in IH. rewrite Nat.add_1_r in IH. rewrite IH. cbn [map]. do 3 f_equal. lia.
Qed.

Lemma records_len ar nm f fs :
  zlen (enc_fields (MenuRun.objects nm (f :: fs))) + 5 <= zlen (enc_fields (MenuRun.records_fields ar nm (f :: fs))).
Proof.
  unfold MenuRun.records_fields. generalize (MenuRun.objects nm (f :: fs)). intros os. cbn [enc_fields enc_value]. unfold doc.
  autorewrite with ymlen. rewrite !zlen_le_bytes. pose proof (zlen_nonneg ar). pose proof (zlen_nonneg f_result). pose proof (zlen_nonneg f_count). lia.
Qed.

(** A list of records as the server sends it. *)
Lemma listing_spec size un p k ar nm fs l0 :
  ep_pack_data p = doc (enc_fields (MenuRun.records_fields ar nm fs)) ++ k -> fields_ok (MenuRun.records_fields ar nm fs) ->
  zlen (enc_fields (MenuRun.records_fields ar nm fs)) <= LIM -> name_ok nm -> 0 < size ->
  Forall (fun f => fields_ok f /\ all_fields P f) fs ->
  read_listing zero one [] size un (Some p) l0 =
    Ok (mk_listing 0 (zlen fs) (match fs with [] => ls_out l0 | _ => Some (map (fun f => record_of f zero) fs) end), []).
Proof.
  intros Hd Hok Hl Hnm Hsz Hfs. unfold read_listing. pose proof (first_at p _ k Hd) as Hn. set (m := ep_pack_data p) in *.
  assert (forall z, name_ok z -> nul_free z) as Nn by (by intros z [? _]).
  pose proof Hok as (N1 & V1 & N2 & V2 & Hok3).
  unfold MenuRun.records_fields in Hn.
  destruct (next_field _ _ _ _ _ _ Hn (Nn _ N1) V1) as (i1 & -> & A1 & Hn1); [cbn [enc_value]; rewrite zlen_le_bytes; unfold LIM; lia|].
  cbn [mbind res_bind negb]. unfold at_int. rewrite (field_type _ _ _ _ A1), (field_key _ _ _ _ A1). cbn [mbind res_bind type_code].
  change (bson_type_to_ep_pack_type 16) with PACKET_INT. rewrite !bool_decide_true by done. cbn [andb negb].
  rewrite (field_int _ _ _ _ A1). cbn [mbind res_bind]. change (ResAccount.dish_r_ok =? 0) with true. cbn [negb].
  destruct (next_field _ _ _ _ _ _ Hn1 (Nn _ N2) V2) as (i2 & -> & A2 & Hn2); [cbn [enc_value]; rewrite zlen_le_bytes; unfold LIM; lia|].
  cbn [mbind res_bind negb]. rewrite (field_type _ _ _ _ A2), (field_key _ _ _ _ A2). cbn [mbind res_bind type_code].
  change (bson_type_to_ep_pack_type 16) with PACKET_INT. rewrite !bool_decide_true by done. cbn [andb negb].
  rewrite (field_int _ _ _ _ A2). cbn [mbind res_bind]. destruct fs as [|f fs]; [done|]. set (ys := f :: fs) in *.
  assert (zlen ys = Z.of_nat (S (length fs))) as Ly by done. rewrite (proj2 (Z.eqb_neq (zlen ys) 0)) by lia.
  rewrite ep_calloc_plenty by nia. change (match ys with [] => FNil | _ :: _ => FCons ar (VArr (MenuRun.objects nm ys)) FNil end)
    with (FCons ar (VArr (MenuRun.objects nm ys)) FNil) in *.
  destruct Hok3 as (N3 & V3 & _). pose proof (records_len ar nm f fs) as Hrl. fold ys in Hrl.
  assert (zlen (enc_fields (MenuRun.objects nm ys)) < zlen m) as Hlm by (rewrite Hd, zlen_app, zlen_doc; pose proof (zlen_nonneg k); lia).
  destruct (next_field _ _ _ _ _ _ Hn2 (Nn _ N3) V3) as (i3 & E3 & A3 & Hn3); [cbn [enc_value]; rewrite zlen_doc; lia|].
  destruct (next_end _ _ _ Hn3) as (i4 & E4). destruct (field_sub _ _ _ _ _ A3 (or_introl eq_refl)) as (ia & ka & Ea & Hna).
  unfold read_arrays. assert (exists n, S (length m) = S (S n)) as [n En] by (exists (Nat.pred (length m)); unfold zlen in Hlm; lia).
  rewrite En at 1. cbn [pack_for]. rewrite E3. cbn [mbind res_bind negb]. rewrite (field_type _ _ _ _ A3), (field_key _ _ _ _ A3). cbn [mbind res_bind type_code].
  change (bson_type_to_ep_pack_type 4) with PACKET_ARRAY. rewrite bool_decide_true by done.
  unfold read_objects. rewrite Ea. cbn [mbind res_bind].
  assert (Z.to_nat (zlen ys) = length ys) as Ety by (unfold zlen; lia). rewrite Ety.
  pose proof (read_objects_spec nm (S (length m)) m ys (S (length m)) ia ka [] Hna Hnm) as Ro. cbn [app length] in Ro. rewrite Ro; clear Ro.
  - cbn [mbind res_bind pack_for]. rewrite E4. done.
  - assert (forall l, zlen (enc_fields (MenuRun.objects nm l)) <= zlen (enc_fields (MenuRun.objects nm ys)) ->
      Forall (fun f => fields_ok f /\ all_fields P f) l -> Forall (fun f => fields_ok f /\ all_fields P f /\ (flen f < S (length m))%nat) l) as T.
    { induction l as [|g l IHl]; [done|]. intros Hlen Hl2. apply Forall_cons in Hl2 as [[G1 G2] Hl2]. rewrite objects_len in Hlen.
      pose proof (zlen_nonneg nm). pose proof (zlen_nonneg (enc_fields g)). pose proof (zlen_nonneg (enc_fields (MenuRun.objects nm l))).
      constructor; [|apply IHl; [lia|done]]. split; [done|]. split; [done|]. pose proof (flen_le g). unfold zlen in *. lia. }
    by apply T.
  - lia.
  - assert (Z.of_nat (length ys) <= zlen (enc_fields (MenuRun.objects nm ys))).
    { clear. induction ys as [|g l IHl]; [done|]. rewrite objects_len. cbn [length]. pose proof (zlen_nonneg nm). pose proof (zlen_nonneg (enc_fields g)). lia. }
    unfold zlen in *. lia.
Qed.

End listing.

(** ** Lemmas: the result of an answer *)

Fixpoint result_in (f : fields) : option Z :=
  match f with
  | FNil => None
  | FCons n v f => if decide (n = f_result) then match v with VInt z => Some z | _ => None end else result_in f
  end.

Definition result_field (n : list Z) (v : value) : Prop := n = f_result -> exists z, v = VInt z.

Lemma first_result_spec p f k r0 :
  ep_pack_data p = doc (enc_fields f) ++ k -> fields_ok f -> zlen (enc_fields f) <= LIM -> all_fields result_field f ->
  first_result (Some p) r0 = Ok (default r0 (result_in f)).
Proof.
  intros Hd Hf Hl HP. unfold first_result.
  rewrite (pack_for_fields p f k result_body
    (fun n v s => if decide (n = f_result) then match v with VInt z => Leave z | _ => Next s end else Next s) result_field (fun _ => True) tt Hd Hf HP Hl);
    [|done| |done].
  - cbn [mbind res_bind]. f_equal. clear Hd Hl. induction f as [|n v f IH]; [done|]. destruct HP as [HP HPf]. destruct Hf as (_ & _ & Hf).
    cbn [fold_fields result_in]. destruct (decide (n = f_result)) as [E|E].
    + destruct (HP E) as [z ->]. done.
    + by apply IH.
  - intros it n v s Ha Hr _. unfold result_body. rewrite (field_type _ _ _ _ Ha), (field_key _ _ _ _ Ha). cbn [mbind res_bind].
    destruct (decide (n = f_result)) as [E|E]; [|done]. destruct (Hr E) as [z ->]. by rewrite (field_int _ _ _ _ Ha).
Qed.

End Connect.
