(* ===== verification/ReqAccount.v ===== *)
(** * ReqAccount: the account requests of the application (client/req_account.c)

    Each function checks its arguments and the session of the connection, fills a packet, exchanges
    it for an answer ([Connect]) and reads the answer. A pointer argument is an array or NULL. *)
From Stdlib Require Import String.
From S2P Require Import Prelude Alloc Cstr Words Bson Packet PackLoop Buffer Io Request Client Accounts ResAccount Server Connect.
From stdpp Require Import gmap.
Import Alloc Cstr Words Bson Packet PackLoop Buffer Request Client Connect.
Import Accounts(account, mk_account, acc_type, acc_uid, acc_pwd, acc_nick, acc_comment).
Import ResAccount(account_r_ok, account_r_login_ok_conlict_another_address, account_r_modify_pwd_same, account_r_no_permission,
  account_r_illegal_parameter, account_r_service_unavailable, f_uid, f_pwd, f_old_pwd, f_new_pwd, f_token, f_token_expire, f_type, f_nick,
  f_comment, f_result, first_char, append_cstr, valid_uid, valid_pwd, valid_token, valid_nick, valid_comment, and_then).
Import Server(ep_id_account_login, ep_id_account_logout, ep_id_account_create, ep_id_account_modify_pwd, ep_id_account_modify_basic,
  ep_id_account_delete, ep_id_account_list).
Open Scope Z_scope.

Module ReqAccount.

Definition account_r_login_already_login : Z := 1.
Definition account_r_no_response : Z := 13.
Definition account_admin : Z := 0.

(** A check of public.h on a pointer: NULL passes those that say so. *)
Definition when_set (null : bool) (check : list Z -> res bool) (buf : option (list Z)) : res bool :=
  match buf with None => Ok null | Some b => check b end.

(** [ep_pack_append_string(pack, name, buf)] *)
Definition append_ptr (p : ep_pack) (name : list Z) (buf : option (list Z)) : res ep_pack :=
  match buf with None => Fault NullDeref | Some b => append_cstr p name b end.

Definition account_zero : account := mk_account 0 (zeros 17) (zeros 129) (zeros 65) (zeros 257).
Definition session_zero : client_session := mk_client_session 0 account_zero (zeros 39).

Definition set_result (s : client_session) r : client_session := mk_client_session r (cs_account s) (cs_token s).
Definition set_account (s : client_session) a : client_session := mk_client_session (cs_result s) a (cs_token s).
Definition set_token (s : client_session) t : client_session := mk_client_session (cs_result s) (cs_account s) t.
Definition set_type (a : account) t : account := mk_account t (acc_uid a) (acc_pwd a) (acc_nick a) (acc_comment a).
Definition set_uid (a : account) u : account := mk_account (acc_type a) u (acc_pwd a) (acc_nick a) (acc_comment a).
Definition set_pwd (a : account) p : account := mk_account (acc_type a) (acc_uid a) p (acc_nick a) (acc_comment a).
Definition set_nick (a : account) n : account := mk_account (acc_type a) (acc_uid a) (acc_pwd a) n (acc_comment a).
Definition set_comment (a : account) c : account := mk_account (acc_type a) (acc_uid a) (acc_pwd a) (acc_nick a) c.

(** [strncpy(dst, ep_pack_iterator_string(iter), sizeof(dst))] *)
Definition copy_string (m : list Z) (iter : bson_iterator) (dst : list Z) (size : Z) : res (list Z) :=
  s ← ep_pack_iterator_string m iter; strncpy dst (s ++ [0]) size.

(** [session->account.pwd[0] = '\0'] *)
Definition clear_pwd (a : account) : res account :=
  match acc_pwd a with [] => Fault OutOfBounds | _ :: l => Ok (set_pwd a (0 :: l)) end.

(** ** Logging in *)

(** An element of the answer to both logins: [strings] are the names copied, with what they set. *)
Definition login_elements (uid token : bool) (m : list Z) (iter : bson_iterator) (s : client_session) : res (turn client_session unit) :=
  _ ← ep_pack_iterator_type m iter;
  key ← ep_pack_iterator_key m iter;
  let a := cs_account s in
  if decide (key = f_result) then r ← ep_pack_iterator_int m iter; Ok (Next (set_result s r))
  else if decide (key = f_type) then t ← ep_pack_iterator_int m iter; Ok (Next (set_account s (set_type a t)))
  else if uid && bool_decide (key = f_uid) then
    u ← copy_string m iter (acc_uid a) 17; Ok (Next (set_account s (set_uid a u)))
  else if decide (key = f_nick) then
    n ← copy_string m iter (acc_nick a) 65; Ok (Next (set_account s (set_nick a n)))
  else if decide (key = f_comment) then
    c ← copy_string m iter (acc_comment a) 257; Ok (Next (set_account s (set_comment a c)))
  else if token && bool_decide (key = f_token) then
    t ← copy_string m iter (cs_token s) 39; Ok (Next (set_token s t))
  else Ok (Next s).

Definition read_login (uid token : bool) (p : option ep_pack) (s : client_session) : res client_session :=
  match p with
  | None => Fault NullDeref
  | Some p =>
      t ← pack_foreach p (login_elements uid token) (set_result s account_r_illegal_parameter);
      Ok (match t with Next s => s | Leave _ => s end)
  end.

Definition sizeof_client_session : Z := 520.

(** A session that was opened is kept in the connection. *)
Definition keep_session (k : connect) (s : client_session) : res connect :=
  if (cs_result s =? account_r_ok) || (cs_result s =? account_r_login_ok_conlict_another_address) then
    let '(ok, al) := ep_malloc (k_al k) sizeof_client_session in
    if negb ok then Fault NullDeref else Ok (set_session (set_kal k al) (Some s))
  else Ok k.

Section requests.
Context `{C : Codec} (beyond : list Z) (env : client -> res client) (sec usec wait_r : Z).

#[local] Notation ask := (ask beyond env sec usec wait_r).
#[local] Notation ask_result := (ask_result beyond env sec usec wait_r).
#[local] Notation exchange := (exchange beyond env sec usec wait_r).

(** The session the caller passed and the connection, after the call. *)
Definition client_account_login (k : option connect) (uid pwd : option (list Z)) (token_expire : Z) (s : client_session)
  : res (client_session * option connect) :=
  ok ← (match k with
        | None => Ok false
        | Some _ => and_then (when_set false valid_uid uid) (and_then (when_set false valid_pwd pwd) (Ok (negb (token_expire <? 0))))
        end);
  match ok, k with
  | true, Some k =>
      match k_session k with
      | Some _ => Ok (set_result s account_r_login_already_login, Some k)
      | None =>
          '(a, k) ← ask k ep_id_account_login (fun p =>
            p ← append_ptr p f_uid uid; p ← append_ptr p f_pwd pwd; ep_pack_append_int p f_token_expire token_expire);
          match a with
          | None => Ok (set_result session_zero account_r_no_response, Some k)
          | Some p =>
              s ← read_login false true p session_zero;
              u ← strcpy (acc_uid (cs_account s)) (default [] uid);
              acc ← clear_pwd (set_uid (cs_account s) u);
              let s := set_account s acc in
              k ← keep_session k s;
              Ok (s, Some k)
          end
      end
  | _, _ => Ok (set_result s account_r_illegal_parameter, k)
  end.

Definition client_account_login2 (k : option connect) (token : option (list Z)) (s : client_session) : res (client_session * option connect) :=
  ok ← (match k with None => Ok false | Some _ => when_set false valid_token token end);
  match ok, k with
  | true, Some k =>
      match k_session k with
      | Some _ => Ok (set_result s account_r_login_already_login, Some k)
      | None =>
          '(a, k) ← ask k ep_id_account_login (fun p => append_ptr p f_token token);
          match a with
          | None => Ok (set_result session_zero account_r_no_response, Some k)
          | Some p =>
              s ← read_login true false p session_zero;
              t ← strcpy (cs_token s) (default [] token);
              acc ← clear_pwd (cs_account s);
              let s := set_account (set_token s t) acc in
              k ← keep_session k s;
              Ok (s, Some k)
          end
      end
  | _, _ => Ok (set_result s account_r_illegal_parameter, k)
  end.

(** The result, and the session when it is asked for. *)
Definition client_account_get_session (k : option connect) : Z * option client_session :=
  match k with
  | None => (0, None)
  | Some k => match k_session k with None => (0, None) | Some s => (1, Some s) end
  end.

(** The session is given up before the request; [r0] is what the result holds before. *)
Definition client_account_logout (k : option connect) (r0 : Z) : res (Z * option connect) :=
  match k with
  | None => Ok (account_r_ok, None)
  | Some k =>
      match k_sock k with
      | None => Ok (account_r_ok, Some k)
      | Some _ =>
          '(a, k) ← exchange (set_session k None) ep_id_account_logout None;
          match a with
          | None => Ok (account_r_no_response, Some k)
          | Some p => r ← first_result p r0; Ok (r, Some k)
          end
      end
  end.

(** The session of a connection, when [ok] holds of the arguments. *)
Definition with_session (k : option connect) (ok : res bool) (go : connect -> client_session -> res (Z * connect)) : res (Z * option connect) :=
  match k with
  | None => Ok (account_r_illegal_parameter, None)
  | Some k =>
      match k_session k with
      | None => Ok (account_r_illegal_parameter, Some k)
      | Some s =>
          b ← ok;
          if negb b then Ok (account_r_illegal_parameter, Some k) else
          '(r, k) ← go k s; Ok (r, Some k)
      end
  end.

Definition client_account_create (k : option connect) (user : option account) (r0 : Z) : res (Z * option connect) :=
  match user with
  | None => Ok (account_r_illegal_parameter, k)
  | Some u =>
      with_session k
        (and_then (valid_uid (acc_uid u)) (and_then (valid_pwd (acc_pwd u)) (and_then (valid_nick (acc_nick u)) (valid_comment (acc_comment u)))))
        (fun k s =>
           if negb (acc_type (cs_account s) =? account_admin) then Ok (account_r_no_permission, k) else
           ask_result k ep_id_account_create (fun p =>
             p ← append_cstr p f_uid (acc_uid u);
             p ← append_cstr p f_pwd (acc_pwd u);
             p ← ep_pack_append_int p f_type (acc_type u);
             n ← first_char (acc_nick u);
             p ← (if negb (n =? 0) then append_cstr p f_nick (acc_nick u) else Ok p);
             c ← first_char (acc_comment u);
             if negb (c =? 0) then append_cstr p f_comment (acc_comment u) else Ok p) account_r_no_response r0)
  end.

(** The old password is checked with [valid_uid]. *)
Definition client_account_modify_pwd (k : option connect) (old_pwd new_pwd : option (list Z)) (r0 : Z) : res (Z * option connect) :=
  with_session k (and_then (when_set false valid_uid old_pwd) (when_set false valid_pwd new_pwd))
    (fun k s =>
       same ← strcmp_eq (default [] old_pwd) (default [] new_pwd);
       if same : bool then Ok (account_r_modify_pwd_same, k) else
       ask_result k ep_id_account_modify_pwd (fun p => p ← append_ptr p f_old_pwd old_pwd; append_ptr p f_new_pwd new_pwd) account_r_no_response r0).

Definition client_account_modify_basic (k : option connect) (nick comment : option (list Z)) (r0 : Z) : res (Z * option connect) :=
  with_session k (and_then (when_set true valid_nick nick) (when_set true valid_comment comment))
    (fun k s =>
       ask_result k ep_id_account_modify_basic (fun p => p ← append_ptr p f_nick nick; append_ptr p f_comment comment) account_r_no_response r0).

Definition client_account_delete (k : option connect) (uid old_pwd : option (list Z)) (r0 : Z) : res (Z * option connect) :=
  with_session k (and_then (when_set false valid_pwd old_pwd) (when_set false valid_uid uid))
    (fun k s =>
       if negb (acc_type (cs_account s) =? account_admin) then Ok (account_r_no_permission, k) else
       ask_result k ep_id_account_delete (fun p => p ← append_ptr p f_uid uid; append_ptr p f_old_pwd old_pwd) account_r_no_response r0).

(** ** The list of accounts *)

Definition sizeof_account : Z := 472.

(** An element of an account. *)
Definition account_element (m : list Z) (iter : bson_iterator) : res (option (account -> res account)) :=
  _ ← ep_pack_iterator_type m iter;
  key ← ep_pack_iterator_key m iter;
  if decide (key = f_type) then t ← ep_pack_iterator_int m iter; Ok (Some (fun a => Ok (set_type a t)))
  else if decide (key = f_uid) then Ok (Some (fun a => u ← copy_string m iter (acc_uid a) 17; Ok (set_uid a u)))
  else if decide (key = f_nick) then Ok (Some (fun a => n ← copy_string m iter (acc_nick a) 65; Ok (set_nick a n)))
  else if decide (key = f_comment) then Ok (Some (fun a => c ← copy_string m iter (acc_comment a) 257; Ok (set_comment a c)))
  else Ok None.

Definition client_account_list (k : option connect) : res (listing account * option connect) :=
  match k with
  | None => Ok (mk_listing account_r_illegal_parameter 0 None, None)
  | Some k =>
      match k_session k with
      | None => Ok (mk_listing account_r_illegal_parameter 0 None, Some k)
      | Some s =>
          if negb (acc_type (cs_account s) =? account_admin) then Ok (mk_listing account_r_no_permission 0 None, Some k) else
          '(a, k) ← exchange k ep_id_account_list None;
          match a with
          | None => Ok (mk_listing account_r_no_response 0 None, Some k)
          | Some p =>
              '(l, al) ← read_listing account_zero account_element (k_al k) sizeof_account account_r_service_unavailable p (mk_listing 0 0 None);
              Ok (l, Some (set_kal k al))
          end
      end
  end.

End requests.

End ReqAccount.
