(* ===== verification/ReqMenu.v ===== *)
(** * ReqMenu: the other requests of the application (client/req_dish.c, req_seat.c, req_cook.c,
    req_version.c, req_push.c)

    Dishes, bookings, seats, the cook and the version, over [Connect] as in [ReqAccount]. A list is
    read with [read_listing] from the elements of its records. *)
From Stdlib Require Import String.
From S2P Require Import Prelude Alloc Cstr Words Bson Packet PackLoop Buffer Io Request Client Accounts Fmt Double Menu ResAccount ResMenu Server Connect ReqAccount.
From stdpp Require Import gmap.
Import Alloc Cstr Words Bson Packet PackLoop Buffer Request Client Fmt Double Menu Connect.
Import Accounts(account, acc_type, account_menu, account_cook).
Import ResAccount(dish_r_ok, dish_r_no_permission, f_result, f_comment, append_cstr).
Import ResMenu(dish_r_illegal_parameter, dish_r_service_unavailable, cook_r_no_permission, cook_r_illegal_parameter, f_category, f_id, f_name,
  f_summary, f_price_type, f_price, f_seat_id, f_dish_id, f_number, f_jin_or_plate, f_accept_state, f_qrcode, f_pid, f_cur_ver_id,
  f_new_ver_id, f_new_ver_string, f_url, f_update_logs).
Import Server(ep_id_version_check, ep_id_dish_fetch, ep_id_dish_book, ep_id_dish_cancel, ep_id_dish_list, ep_id_seat_list, ep_id_cook_accept).
Import ReqAccount(account_admin, copy_string).
Open Scope Z_scope.

Module ReqMenu.

Definition dish_r_no_response : Z := 8.
Definition cook_r_no_response : Z := 8.
Definition seat_r_no_permission : Z := 1.
Definition seat_r_illegal_parameter : Z := 2.
Definition seat_r_service_unavailable : Z := 3.
Definition seat_r_no_response : Z := 4.

Definition f_thumbnail : list Z := Eval vm_compute in lit "thumbnail".

(** [strcpy(dst, ep_pack_iterator_string(iter))] *)
Definition copy_whole (m : list Z) (iter : bson_iterator) (dst : list Z) : res (list Z) :=
  s ← ep_pack_iterator_string m iter; strcpy dst (s ++ [0]).

(** ** Elements of the records *)

Definition set_d_id (d : dish) x : dish := mk_dish x (d_category d) (d_name d) (d_summary d) (d_thumbnail d) (d_price_type d) (d_price d).
Definition set_d_category (d : dish) x : dish := mk_dish (d_id d) x (d_name d) (d_summary d) (d_thumbnail d) (d_price_type d) (d_price d).
Definition set_d_name (d : dish) x : dish := mk_dish (d_id d) (d_category d) x (d_summary d) (d_thumbnail d) (d_price_type d) (d_price d).
Definition set_d_summary (d : dish) x : dish := mk_dish (d_id d) (d_category d) (d_name d) x (d_thumbnail d) (d_price_type d) (d_price d).
Definition set_d_thumbnail (d : dish) x : dish := mk_dish (d_id d) (d_category d) (d_name d) (d_summary d) x (d_price_type d) (d_price d).
Definition set_d_price_type (d : dish) x : dish := mk_dish (d_id d) (d_category d) (d_name d) (d_summary d) (d_thumbnail d) x (d_price d).
Definition set_d_price (d : dish) x : dish := mk_dish (d_id d) (d_category d) (d_name d) (d_summary d) (d_thumbnail d) (d_price_type d) x.

(** An assignment of a number. *)
Definition take_int {A} (m : list Z) (iter : bson_iterator) (set : A -> Z -> A) : res (option (A -> res A)) :=
  z ← ep_pack_iterator_int m iter; Ok (Some (fun x => Ok (set x z))).

(** The strings of a dish are copied with [strcpy]. *)
Definition dish_element (m : list Z) (iter : bson_iterator) : res (option (dish -> res dish)) :=
  _ ← ep_pack_iterator_type m iter;
  key ← ep_pack_iterator_key m iter;
  if decide (key = f_id) then take_int m iter set_d_id
  else if decide (key = f_category) then take_int m iter set_d_category
  else if decide (key = f_name) then Ok (Some (fun d => s ← copy_whole m iter (d_name d); Ok (set_d_name d s)))
  else if decide (key = f_summary) then Ok (Some (fun d => s ← copy_whole m iter (d_summary d); Ok (set_d_summary d s)))
  else if decide (key = f_thumbnail) then Ok (Some (fun d => s ← copy_whole m iter (d_thumbnail d); Ok (set_d_thumbnail d s)))
  else if decide (key = f_price_type) then take_int m iter set_d_price_type
  else if decide (key = f_price) then take_int m iter set_d_price
  else Ok None.

Definition set_b_seat (b : book) x : book := mk_book (b_book_id b) x (b_dish_id b) (b_jin_or_plate b) (b_comment b) (b_accept_state b).
Definition set_b_dish (b : book) x : book := mk_book (b_book_id b) (b_seat_id b) x (b_jin_or_plate b) (b_comment b) (b_accept_state b).
Definition set_b_jin (b : book) x : book := mk_book (b_book_id b) (b_seat_id b) (b_dish_id b) x (b_comment b) (b_accept_state b).
Definition set_b_comment (b : book) x : book := mk_book (b_book_id b) (b_seat_id b) (b_dish_id b) (b_jin_or_plate b) x (b_accept_state b).

(** The id of the booking is not read, and the state is stored into the dish. *)
Definition book_element (m : list Z) (iter : bson_iterator) : res (option (book -> res book)) :=
  _ ← ep_pack_iterator_type m iter;
  key ← ep_pack_iterator_key m iter;
  if decide (key = f_seat_id) then take_int m iter set_b_seat
  else if decide (key = f_dish_id) then take_int m iter set_b_dish
  else if decide (key = f_jin_or_plate) then z ← ep_pack_iterator_double m iter; Ok (Some (fun b => Ok (set_b_jin b z)))
  else if decide (key = f_comment) then Ok (Some (fun b => s ← copy_string m iter (b_comment b) 256; Ok (set_b_comment b s)))
  else if decide (key = f_accept_state) then take_int m iter set_b_dish
  else Ok None.

Definition set_s_id (s : seat) x : seat := mk_seat x (s_summary s) (s_qrcode s).
Definition set_s_summary (s : seat) x : seat := mk_seat (s_id s) x (s_qrcode s).
Definition set_s_qrcode (s : seat) x : seat := mk_seat (s_id s) (s_summary s) x.

Definition seat_element (m : list Z) (iter : bson_iterator) : res (option (seat -> res seat)) :=
  _ ← ep_pack_iterator_type m iter;
  key ← ep_pack_iterator_key m iter;
  if decide (key = f_id) then take_int m iter set_s_id
  else if decide (key = f_summary) then Ok (Some (fun x => s ← copy_string m iter (s_summary x) 257; Ok (set_s_summary x s)))
  else if decide (key = f_qrcode) then Ok (Some (fun x => s ← copy_string m iter (s_qrcode x) 65; Ok (set_s_qrcode x s)))
  else Ok None.

(** [version_status_t] *)
Record version_status := mk_version_status {
  vs_ver_id : Z;
  vs_string : list Z;
  vs_update_type : Z;
  vs_url : list Z;
  vs_update_logs : list Z;
}.
Definition version_zero : version_status := mk_version_status 0 (zeros 32) 0 (zeros 256) (zeros 4096).

(** The result of the answer is not read: the kind of update stays 0. *)
Definition version_element (m : list Z) (iter : bson_iterator) (v : version_status) : res (turn version_status unit) :=
  _ ← ep_pack_iterator_type m iter;
  key ← ep_pack_iterator_key m iter;
  if decide (key = f_new_ver_id) then
    z ← ep_pack_iterator_int m iter; Ok (Next (mk_version_status z (vs_string v) (vs_update_type v) (vs_url v) (vs_update_logs v)))
  else if decide (key = f_new_ver_string) then
    s ← copy_string m iter (vs_string v) 32; Ok (Next (mk_version_status (vs_ver_id v) s (vs_update_type v) (vs_url v) (vs_update_logs v)))
  else if decide (key = f_url) then
    s ← copy_string m iter (vs_url v) 256; Ok (Next (mk_version_status (vs_ver_id v) (vs_string v) (vs_update_type v) s (vs_update_logs v)))
  else if decide (key = f_update_logs) then
    s ← copy_string m iter (vs_update_logs v) 4096; Ok (Next (mk_version_status (vs_ver_id v) (vs_string v) (vs_update_type v) (vs_url v) s))
  else Ok (Next v).

Definition sizeof_dish : Z := 404.
Definition sizeof_book : Z := 288.
Definition sizeof_seat : Z := 328.

Section requests.
Context `{C : Codec} (beyond : list Z) (env : client -> res client) (sec usec wait_r : Z).

#[local] Notation ask := (ask beyond env sec usec wait_r).
#[local] Notation ask_result := (ask_result beyond env sec usec wait_r).
#[local] Notation exchange := (exchange beyond env sec usec wait_r).

(** The checks before a request: a session whose account is of one of the types, and [ok] of the
    arguments; [bad] and [denied] are what the function answers otherwise. *)
Definition guarded {A} (k : option connect) (ok : bool) (types : list Z) (bad denied : A) (go : connect -> res (A * connect)) : res (A * option connect) :=
  match k with
  | None => Ok (bad, None)
  | Some k =>
      match k_session k with
      | None => Ok (bad, Some k)
      | Some s =>
          if negb ok then Ok (bad, Some k)
          else if negb (existsb (Z.eqb (acc_type (cs_account s))) types) then Ok (denied, Some k)
          else '(r, k) ← go k; Ok (r, Some k)
      end
  end.

(** A list request: what the caller's variables hold with another result, and the answer read. *)
Definition fail {A} (l0 : listing A) (r : Z) : listing A := mk_listing r (ls_count l0) (ls_out l0).

Definition listed {A} (zero : A) one (size unavailable no_response : Z) (l0 : listing A) (a : option (option ep_pack) * connect)
  : res (listing A * connect) :=
  let '(a, k) := a in
  match a with
  | None => Ok (fail l0 no_response, k)
  | Some p => '(l, al) ← read_listing zero one (k_al k) size unavailable p l0; Ok (l, set_kal k al)
  end.

(** ** req_dish.c *)

(** [l0] is what [*dish], [*count] and [*result] hold before; [dish] says that the first is not NULL.
    The wait answers 0, 1 or 2, so its test for 0 is the test of the others for at most 0. *)
Definition client_dish_fetch (k : option connect) (category : Z) (dish : bool) (l0 : listing Menu.dish) : res (listing Menu.dish * option connect) :=
  guarded k dish [account_admin; account_menu] (fail l0 dish_r_illegal_parameter) (fail l0 dish_r_no_permission) (fun k =>
    a ← ask k ep_id_dish_fetch (fun p => ep_pack_append_int p f_category category);
    listed (blank_dish 0) dish_element sizeof_dish dish_r_service_unavailable dish_r_no_response l0 a).

(** The blocks that are allocated; [dish] is a block of [cells], each a pointer. *)
Definition free_block (live : gset nat) (p : option nat) : res (gset nat) :=
  match p with None => Ok live | Some a => if decide (a ∈ live) then Ok (live ∖ {[a]}) else Fault WildPointer end.

Fixpoint free_cells (live : gset nat) (cells : list (option nat)) (count : nat) : res (gset nat) :=
  match count, cells with
  | O, _ => Ok live
  | S _, [] => Fault OutOfBounds
  | S n, p :: cells => live ← free_block live p; free_cells live cells n
  end.

Definition client_dish_fetch_free (live : gset nat) (dish : option nat) (cells : list (option nat)) (count : Z) : res (gset nat) :=
  live ← free_cells live cells (Z.to_nat count); free_block live dish.

Definition client_dish_book (k : option connect) (seat_id dish_id jin_or_plate : Z) (comment : option (list Z)) (r0 : Z) : res (Z * option connect) :=
  guarded k (negb ((seat_id <? 0) || (dish_id <? 0) || le_zero jin_or_plate)) [account_admin; account_menu]
    dish_r_illegal_parameter dish_r_no_permission (fun k =>
    ask_result k ep_id_dish_book (fun p =>
      p ← ep_pack_append_int p f_seat_id seat_id;
      p ← ep_pack_append_int p f_dish_id dish_id;
      p ← ep_pack_append_double p f_jin_or_plate jin_or_plate;
      match comment with None => Ok p | Some c => append_cstr p f_comment c end) dish_r_no_response r0).

Definition client_dish_cancel (k : option connect) (seat_id r0 : Z) : res (Z * option connect) :=
  guarded k (negb (seat_id <? 0)) [account_admin; account_menu] dish_r_illegal_parameter dish_r_no_permission (fun k =>
    ask_result k ep_id_dish_cancel (fun p => ep_pack_append_int p f_seat_id seat_id) dish_r_no_response r0).

Definition client_dish_list (k : option connect) (seat_id : Z) : res (listing book * option connect) :=
  let l0 := mk_listing 0 0 None in
  guarded k (negb (seat_id <? 0)) [account_admin; account_menu] (fail l0 dish_r_illegal_parameter) (fail l0 dish_r_no_permission) (fun k =>
    a ← ask k ep_id_dish_list (fun p => ep_pack_append_int p f_seat_id seat_id);
    listed (blank_book 0) book_element sizeof_book dish_r_service_unavailable dish_r_no_response l0 a).

Definition client_dish_list_free (live : gset nat) (book : option nat) : res (gset nat) :=
  match book with None => Ok live | Some _ => free_block live book end.

(** The list of req_account.c is given back in the same way. *)
Definition client_account_list_free (live : gset nat) (account : option nat) : res (gset nat) :=
  match account with None => Ok live | Some _ => free_block live account end.

(** ** req_seat.c *)

Definition client_seat_list (k : option connect) : res (listing seat * option connect) :=
  let l0 := mk_listing 0 0 None in
  guarded k true [account_admin; account_menu] (fail l0 seat_r_illegal_parameter) (fail l0 seat_r_no_permission) (fun k =>
    a ← exchange k ep_id_seat_list None;
    listed (blank_seat 0) seat_element sizeof_seat seat_r_service_unavailable seat_r_no_response l0 a).

Definition client_seat_list_free (live : gset nat) (seat : option nat) : res (gset nat) :=
  match seat with None => Ok live | Some _ => free_block live seat end.

(** ** req_cook.c *)

Definition client_cook_accept (k : option connect) (seat_id dish_id number r0 : Z) : res (Z * option connect) :=
  guarded k (negb ((seat_id <? 0) || (dish_id <? 0) || (number <? 0))) [account_admin; account_cook]
    cook_r_illegal_parameter cook_r_no_permission (fun k =>
    ask_result k ep_id_cook_accept (fun p =>
      p ← ep_pack_append_int p f_seat_id seat_id;
      p ← ep_pack_append_int p f_dish_id dish_id;
      ep_pack_append_int p f_number number) cook_r_no_response r0).

(** ** req_version.c *)

(** The connection is used without a test. *)
Definition client_check_version (k : option connect) (pid cur_vid : Z) : res (Z * version_status * option connect) :=
  match k with
  | None => Fault NullDeref
  | Some k =>
      '(a, k) ← ask k ep_id_version_check (fun p => p ← ep_pack_append_int p f_pid pid; ep_pack_append_int p f_cur_ver_id cur_vid);
      match a with
      | None => Ok (0, version_zero, Some k)
      | Some None => Fault NullDeref
      | Some (Some p) =>
          t ← pack_foreach p version_element version_zero;
          Ok (1, match t with Next v => v | Leave _ => version_zero end, Some k)
      end
  end.

(** ** req_push.c *)

(** The callback of a pushed conflict answers nothing. *)
Definition req_push_login_conflict : Dispatch.Dispatch.pfn_ep_cb ep_pack cstate := fun s _ _ => (None, true, s).

End requests.
End ReqMenu.
