(* ===== verification/ReqSpec.v ===== *)
(** * ReqSpec: what the application sees of the server

    The handlers of the server ([ResAccount], [ResMenu]) against the requests of the application
    ([ReqAccount], [ReqMenu]): what the server answers, once it has crossed the wire as in [Rpc], is
    what the application reads. *)
From Stdlib Require Import String.
From S2P Require Import Prelude Alloc Queue Cstr Words Bson Packet PackLoop Buffer Dispatch Io Session Request Client Rpc Handshake Sql Dbp Accounts Menu MenuSpec ResAccount ResMenu MenuRun.
From S2P Require Import AccountSpec AccountRun Server Connect ReqAccount ReqMenu.
From stdpp Require Import gmap.
Import Alloc Queue Cstr Words Bson Packet PackLoop Buffer Request Client Connect.
Import Rpc(finishes_as, finishes_packable, finishes_bytes, built_finishes).
Open Scope Z_scope.

Module ReqSpec.

(** ** An exchange that is answered *)

(** While the application waits, its connection hands over the answer [q] to the category [id]. *)
Definition answered (id : Z) (q : ep_pack) (c : client) : res client := Ok (respond c id (cl_fd c) (Some q)).2.

(** The connection [k] has the requests [s] in flight, and the wait of an answer of category [id]. *)
Record online `{C : Codec} (base : gset Z) (k : connect) (ca : nat) (key : ep_aes_key) (s : flight) : Prop := {
  on_sock : exists e, k_sock k = Some e /\ in_flight base (ec_client e) ca key s /\ 1024 <= cl_io_max_capacity (ec_client e);
  on_al : k_al k = [];
}.

Section exchange.
Context `{CL : CodecLaws} (beyond : list Z) (Hbeyond : 16 <= zlen beyond) (sec usec wait_r : Z).
#[local] Set Default Proof Using "Type*".

Lemma exchange_spec base k ca key s id pack q :
  online base k ca key s -> param_ok (make_param id pack) -> pack_len (make_param id pack) <= 1024 -> ~ busy base s id ->
  exists e' s', exchange beyond (answered id q) sec usec wait_r k id pack = Ok (Some (Some q), set_sock k (Some e')) /\
    online base (set_sock k (Some e')) ca key s' /\ fl_pend s' = fl_pend s /\ fl_sent s' = fl_sent s ++ [(make_param id pack, pack_bytes (make_param id pack))].
Proof.
  intros [(e & Hs & F & Hcap) Hal] Hp Hl Hb. unfold exchange. rewrite Hs. cbn [fmap option_fmap option_map].
  destruct (new_step beyond Hbeyond base (ec_client e) ca key s (make_param id pack) F Hp) as (a & r & c1 & -> & Er & F1 & Hc1 & _).
  unfold spec_new in Er, F1. rewrite (proj2 (Z.ltb_ge _ _)) in Er, F1 by lia. change (pr_category (make_param id pack)) with id in *.
  rewrite decide_False in Er, F1 by done. cbn in Er. injection Er as -> ->. cbn [mbind res_bind snd] in *.
  set (s1 := mk_flight _ _ _ _) in F1. assert (fl_pend s1 !! fl_next s = Some (id, [])) as Ha by (cbn; by rewrite lookup_insert_eq).
  assert (id ∉ base) as Hib by (intros ?; apply Hb; by left).
  pose proof (response_step_ok beyond Hbeyond base c1 ca key s1 id (cl_fd c1) (Some q) F1 Hib) as St.
  unfold step_agrees, spec_step, req_step in St. destruct St as (c2 & E2 & F2 & Hc2 & _).
  destruct (respond c1 id (cl_fd c1) (Some q)) as [rc c2'] eqn:Er. injection E2 as _ ->.
  pose proof (if_handles _ _ _ _ _ F) as (hs & _ & Hh). assert (fl_pend s !! fl_next s = None) as Hn by (by apply (ho_fresh _ _ _ Hh)).
  cbn [fl_pend s1] in F2. rewrite Handshake.only_answer in F2; [|done|intros (b & x & Hx & Ex); apply Hb; right; by exists b, x].
  destruct (Handshake.wait_answered beyond Hbeyond base (answered id q) c1 c2 ca key s1 (fl_next s) id q REQ_DEF_TIMEOUT sec usec wait_r)
    as (c3 & c4 & -> & Ed & F4 & Hc4 & _); [done|done|done|by unfold answered; rewrite Er|cbn; by rewrite insert_insert_eq|].
  cbn [mbind res_bind]. change (1 <=? 0) with false. cbv iota. rewrite Ed. cbn [mbind res_bind].
  eexists _, (set_pend s1 (delete (fl_next s) (fl_pend s1))). split; [done|]. split; [split; [|done]|]; [|split; [|done]].
  - eexists. split; [done|]. split; [exact F4|]. cbn. lia.
  - cbn. by rewrite delete_insert_id.
Qed.

Lemma make_param_ok id pack : is_u16 id -> (match pack with None => True | Some p => packable p end) -> param_ok (make_param id pack).
Proof. intros Hi Hp. split; [|done]. by constructor; cbn; try done; unfold req_type_get, crypt_type_encrypt, compress_type_auto; lia. Qed.

Lemma ask_spec base k ca key s id build f q :
  online base k ca key s -> is_u16 id -> ~ busy base s id -> build fresh = build_fields fresh f -> fields_ok f -> zlen (enc_fields f) <= 1000 ->
  exists e' s', Connect.ask beyond (answered id q) sec usec wait_r k id build = Ok (Some (Some q), set_sock k (Some e')) /\
    online base (set_sock k (Some e')) ca key s' /\ fl_pend s' = fl_pend s /\ exists p, fl_sent s' = fl_sent s ++ [(make_param id p, Some (doc (enc_fields f)))].
Proof.
  intros O Hi Hb Eb Hf Hl. unfold Connect.ask. rewrite (on_al _ _ _ _ _ O), pack_new_fresh. cbn [mbind res_bind]. rewrite Eb.
  assert (fits f) as Ff by (split; [done|unfold LIM; lia]). destruct (build_finish f Ff) as (p & _ & Ep & _). rewrite Ep. cbn [mbind res_bind].
  pose proof (built_finishes f p Ff Ep) as Fp. assert (set_kal k [] = k) as -> by (destruct O; destruct k; cbn in *; by subst).
  assert (pack_bytes (make_param id (Some p)) = Some (doc (enc_fields f))) as Bp by (by apply finishes_bytes).
  destruct (exchange_spec base k ca key s id (Some p) q) as (e' & s' & E & O' & Hp & Hs); [done|apply make_param_ok; [done|eapply finishes_packable; [done|lia]]| |done|].
  - unfold pack_len. rewrite Bp. cbn [from_option]. rewrite zlen_doc. lia.
  - rewrite Bp in Hs. exists e', s'. split; [exact E|]. split; [exact O'|]. split; [exact Hp|]. by exists (Some p).
Qed.

Lemma exchange_none base k ca key s id q :
  online base k ca key s -> is_u16 id -> ~ busy base s id ->
  exists e' s', exchange beyond (answered id q) sec usec wait_r k id None = Ok (Some (Some q), set_sock k (Some e')) /\
    online base (set_sock k (Some e')) ca key s' /\ fl_pend s' = fl_pend s /\ fl_sent s' = fl_sent s ++ [(make_param id None, None)].
Proof. intros O Hi Hb. by apply exchange_spec; [|apply make_param_ok| |]. Qed.

End exchange.

(** ** The elements of the records *)

Definition has_int (name n : list Z) (v : value) : Prop := n = name /\ exists z, v = VInt z.
Definition has_str (name : list Z) (k : Z) (n : list Z) (v : value) : Prop := n = name /\ exists s, v = VStr s /\ no_zero s /\ zlen s <= k.

(** The cells of an array after [strcpy]. *)
Definition over (s dst : list Z) : list Z := s ++ 0 :: zdrop (zlen s + 1) dst.

Lemma over_zeros n s : (length s < n)%nat -> over s (replicate n 0) = ResAccount.arr n s.
Proof. intros H. rewrite ResAccount.arr_split by done. unfold over. do 2 f_equal. unfold zdrop, zlen. rewrite drop_replicate. f_equal. lia. Qed.

Lemma over_len s dst : zlen s < zlen dst -> zlen (over s dst) = zlen dst.
Proof. intros H. unfold over. rewrite zlen_app, zlen_cons, zlen_zdrop by (pose proof (zlen_nonneg s); lia). lia. Qed.

Lemma copy_whole_spec m it n s dst : at_field m it n (VStr s) -> no_zero s -> zlen s < zlen dst -> ReqMenu.copy_whole m it dst = Ok (over s dst).
Proof.
  intros Ha Hs Hl. unfold ReqMenu.copy_whole. rewrite (field_str _ _ _ _ Ha). cbn [mbind res_bind].
  assert (text (s ++ [0]) = s) as Ht by (by apply text_app). rewrite strcpy_ok; rewrite ?Ht; [done|by apply terminated_app|lia].
Qed.

Lemma copy_string_spec m it n s dst k :
  at_field m it n (VStr s) -> no_zero s -> zlen s < Z.of_nat k -> length dst = k -> ReqAccount.copy_string m it dst (Z.of_nat k) = Ok (ResAccount.arr k s).
Proof.
  intros Ha Hs Hl Hd. unfold ReqAccount.copy_string. rewrite (field_str _ _ _ _ Ha). cbn [mbind res_bind].
  apply ResAccount.strncpy_arr; [done|unfold zlen in Hl; lia|done].
Qed.

(** A number and a string given to the field of their name. *)
Definition at_name {A} (name n : list Z) (f g : A) : A := if decide (n = name) then f else g.
Definition int_to {A} (v : value) (set : A -> Z -> A) (x : A) : A := match v with VInt z => set x z | _ => x end.
Definition str_to {A} (v : value) (set : list Z -> A) (x : A) : A := match v with VStr s => set s | _ => x end.

Import ReqMenu(set_d_id, set_d_category, set_d_name, set_d_summary, set_d_price_type, set_d_price, set_b_seat, set_b_dish, set_b_jin, set_b_comment,
  set_s_id, set_s_summary, set_s_qrcode, dish_element, book_element, seat_element).
Import ReqAccount(set_type, set_uid, set_nick, set_comment, account_element, account_zero).
Import ResAccount(f_type, f_uid, f_nick, f_comment, arr).
Import ResMenu(f_id, f_category, f_name, f_summary, f_price_type, f_price, f_qrcode, f_seat_id, f_dish_id, f_jin_or_plate, f_accept_state, f_book_id).
Import Accounts(account, acc_uid, acc_nick, acc_comment).
Import Menu.

Definition dish_step (n : list Z) (v : value) (x : dish) : dish :=
  at_name f_id n (int_to v set_d_id x) (at_name f_category n (int_to v set_d_category x)
    (at_name f_name n (str_to v (fun s => set_d_name x (over s (d_name x))) x) (at_name f_summary n (str_to v (fun s => set_d_summary x (over s (d_summary x))) x)
      (at_name f_price_type n (int_to v set_d_price_type x) (at_name f_price n (int_to v set_d_price x) x))))).

Definition dish_field (n : list Z) (v : value) : Prop :=
  has_int f_id n v \/ has_int f_category n v \/ has_str f_name 64 n v \/ has_str f_summary 256 n v \/ has_int f_price_type n v \/ has_int f_price n v.

Definition dish_arrays (x : dish) : Prop := zlen (d_name x) = 65 /\ zlen (d_summary x) = 257.

(** The name of the element is known: the branch of its name is taken. *)
Ltac take_branch Ha :=
  cbn [int_to str_to]; repeat (case_decide; try done); rewrite ?(field_int _ _ _ _ Ha), ?(field_double _ _ _ _ Ha); cbn [mbind res_bind];
  eexists; (split; [done|]); try done; cbv beta.
Ltac open_element Ha :=
  unfold ReqMenu.take_int; rewrite (field_type _ _ _ _ Ha), (field_key _ _ _ _ Ha); cbn [mbind res_bind]; unfold at_name.

Lemma dish_element_spec m it n v x : at_field m it n v -> dish_field n v -> dish_arrays x ->
  (dish_element m it = Ok None /\ dish_step n v x = x) \/ exists g, dish_element m it = Ok (Some g) /\ g x = Ok (dish_step n v x).
Proof.
  intros Ha Hf [L1 L2]. right. unfold dish_element, dish_step. open_element Ha.
  destruct Hf as [(-> & z & ->)|[(-> & z & ->)|[(-> & s & -> & Hs & Hl)|[(-> & s & -> & Hs & Hl)|[(-> & z & ->)|(-> & z & ->)]]]]];
    take_branch Ha; rewrite (copy_whole_spec _ _ _ _ _ Ha) by (done || lia); done.
Qed.

Lemma dish_step_arrays n v x : dish_field n v -> dish_arrays x -> dish_arrays (dish_step n v x).
Proof.
  intros Hf [L1 L2]. unfold dish_step, at_name, dish_arrays.
  destruct Hf as [(-> & z & ->)|[(-> & z & ->)|[(-> & s & -> & Hs & Hl)|[(-> & s & -> & Hs & Hl)|[(-> & z & ->)|(-> & z & ->)]]]]];
    cbn [int_to str_to]; repeat (case_decide; try done); cbn; rewrite ?over_len by lia; done.
Qed.

Definition seat_step (n : list Z) (v : value) (x : seat) : seat :=
  at_name f_id n (int_to v set_s_id x)
    (at_name f_summary n (str_to v (fun s => set_s_summary x (arr 257 s)) x) (at_name f_qrcode n (str_to v (fun s => set_s_qrcode x (arr 65 s)) x) x)).
Definition seat_field (n : list Z) (v : value) : Prop := has_int f_id n v \/ has_str f_summary 256 n v \/ has_str f_qrcode 64 n v.
Definition seat_arrays (x : seat) : Prop := length (s_summary x) = 257%nat /\ length (s_qrcode x) = 65%nat.

Lemma seat_element_spec m it n v x : at_field m it n v -> seat_field n v -> seat_arrays x ->
  (seat_element m it = Ok None /\ seat_step n v x = x) \/ exists g, seat_element m it = Ok (Some g) /\ g x = Ok (seat_step n v x).
Proof.
  intros Ha Hf [L1 L2]. right. unfold seat_element, seat_step. open_element Ha.
  destruct Hf as [(-> & z & ->)|[(-> & s & -> & Hs & Hl)|(-> & s & -> & Hs & Hl)]]; take_branch Ha.
  - by rewrite (copy_string_spec _ _ _ _ _ 257 Ha) by (done || lia).
  - by rewrite (copy_string_spec _ _ _ _ _ 65 Ha) by (done || lia).
Qed.

Lemma seat_step_arrays n v x : seat_field n v -> seat_arrays x -> seat_arrays (seat_step n v x).
Proof.
  intros Hf [L1 L2]. unfold seat_step, at_name, seat_arrays, zlen in *.
  destruct Hf as [(-> & z & ->)|[(-> & s & -> & Hs & Hl)|(-> & s & -> & Hs & Hl)]]; unfold zlen in *; cbn [int_to str_to]; repeat (case_decide; try done);
    (split; [cbn [s_summary set_s_summary set_s_qrcode]|cbn [s_qrcode set_s_summary set_s_qrcode]]); rewrite ?ResAccount.arr_len by lia; done.
Qed.

Definition account_step (n : list Z) (v : value) (x : account) : account :=
  at_name f_type n (int_to v set_type x) (at_name f_uid n (str_to v (fun s => set_uid x (arr 17 s)) x)
    (at_name f_nick n (str_to v (fun s => set_nick x (arr 65 s)) x) (at_name f_comment n (str_to v (fun s => set_comment x (arr 257 s)) x) x))).
Definition account_field (n : list Z) (v : value) : Prop :=
  has_int f_type n v \/ has_str f_uid 16 n v \/ has_str f_nick 64 n v \/ has_str f_comment 256 n v.
Definition account_arrays (x : account) : Prop := length (acc_uid x) = 17%nat /\ length (acc_nick x) = 65%nat /\ length (acc_comment x) = 257%nat.

Lemma account_element_spec m it n v x : at_field m it n v -> account_field n v -> account_arrays x ->
  (account_element m it = Ok None /\ account_step n v x = x) \/ exists g, account_element m it = Ok (Some g) /\ g x = Ok (account_step n v x).
Proof.
  intros Ha Hf (L1 & L2 & L3). right. unfold account_element, account_step. open_element Ha.
  destruct Hf as [(-> & z & ->)|[(-> & s & -> & Hs & Hl)|[(-> & s & -> & Hs & Hl)|(-> & s & -> & Hs & Hl)]]]; take_branch Ha.
  - by rewrite (copy_string_spec _ _ _ _ _ 17 Ha) by (done || lia).
  - by rewrite (copy_string_spec _ _ _ _ _ 65 Ha) by (done || lia).
  - by rewrite (copy_string_spec _ _ _ _ _ 257 Ha) by (done || lia).
Qed.

Lemma account_step_arrays n v x : account_field n v -> account_arrays x -> account_arrays (account_step n v x).
Proof.
  intros Hf (L1 & L2 & L3). unfold account_step, at_name, account_arrays.
  destruct Hf as [(-> & z & ->)|[(-> & s & -> & Hs & Hl)|[(-> & s & -> & Hs & Hl)|(-> & s & -> & Hs & Hl)]]]; unfold zlen in *; cbn [int_to str_to];
    repeat (case_decide; try done); cbn [acc_uid acc_nick acc_comment set_type set_uid set_nick set_comment]; rewrite ?ResAccount.arr_len by lia; done.
Qed.

(** The state of a booking takes the place of its dish. *)
Definition book_step (n : list Z) (v : value) (x : book) : book :=
  at_name f_seat_id n (int_to v set_b_seat x) (at_name f_dish_id n (int_to v set_b_dish x)
    (at_name f_jin_or_plate n (match v with VDouble z => set_b_jin x z | _ => x end)
      (at_name f_comment n (str_to v (fun s => set_b_comment x (arr 256 s)) x) (at_name f_accept_state n (int_to v set_b_dish x) x)))).
Definition book_field (n : list Z) (v : value) : Prop :=
  has_int f_book_id n v \/ has_int f_seat_id n v \/ has_int f_dish_id n v \/ (n = f_jin_or_plate /\ exists z, v = VDouble z) \/ has_str f_comment 255 n v \/
  has_int f_accept_state n v.
Definition book_arrays (x : book) : Prop := length (Menu.b_comment x) = 256%nat.

Lemma book_element_spec m it n v x : at_field m it n v -> book_field n v -> book_arrays x ->
  (book_element m it = Ok None /\ book_step n v x = x) \/ exists g, book_element m it = Ok (Some g) /\ g x = Ok (book_step n v x).
Proof.
  intros Ha Hf L1. unfold book_element, book_step. open_element Ha.
  destruct Hf as [(-> & z & ->)|Hf]; [left; repeat (case_decide; try done)|right].
  destruct Hf as [(-> & z & ->)|[(-> & z & ->)|[(-> & z & ->)|[(-> & s & -> & Hs & Hl)|(-> & z & ->)]]]]; take_branch Ha.
  by rewrite (copy_string_spec _ _ _ _ _ 256 Ha) by (done || lia).
Qed.

Lemma book_step_arrays n v x : book_field n v -> book_arrays x -> book_arrays (book_step n v x).
Proof.
  intros Hf L1. unfold book_step, at_name, book_arrays.
  destruct Hf as [(-> & z & ->)|[(-> & z & ->)|[(-> & z & ->)|[(-> & z & ->)|[(-> & s & -> & Hs & Hl)|(-> & z & ->)]]]]]; unfold zlen in *; cbn [int_to str_to];
    repeat (case_decide; try done); cbn [Menu.b_comment set_b_comment]; rewrite ?ResAccount.arr_len by lia; done.
Qed.

(** ** What the application shows *)

Import MenuSpec(dish_rec, seat_rec, book_rec, dish_out, dish_ok, seat_ok, dr_id, dr_category, dr_name, dr_summary, dr_price_type, dr_price, sr_id, sr_summary, sr_qrcode).
Import MenuSpec(natural).
Import Server(ep_id_dish_fetch, ep_id_dish_list, ep_id_seat_list, ep_id_account_list, ep_id_account_login).
Import Sql(Sqlite, SqliteLaws).
Import Accounts(acct, acct_ok, ac_type, ac_uid, ac_nick, ac_comment).

(** The server does not send the thumbnail of a dish, which the client looks for (req_dish.c:172),
    so that it stays as the zeroed array has it; nor the password of an account. *)
Definition dish_shown (x : dish_rec) : dish := ReqMenu.set_d_thumbnail (dish_out x) (replicate 65 0).
Definition seat_shown (x : seat_rec) : seat := mk_seat (sr_id x) (arr 257 (sr_summary x)) (arr 65 (sr_qrcode x)).
Definition account_shown (a : acct) : account :=
  Accounts.mk_account (ac_type a) (arr 17 (ac_uid a)) (zeros 129) (arr 65 (ac_nick a)) (arr 257 (ac_comment a)).

(** The caller's variables after a list of the records [l]. *)
Definition shown {A} (l0 : listing A) (l : list A) : listing A := mk_listing 0 (zlen l) (match l with [] => ls_out l0 | _ => Some l end).

(** A list of records, each of at most a thousand bytes, in the answer of the server. *)
Lemma records_shown {A Y} (zero : A) one step P (I : A -> Prop) size ar nm (fld : Y -> fields) (out : Y -> A) ys :
  (forall m it name v x, at_field m it name v -> P name v -> I x ->
     (one m it = Ok None /\ step name v x = x) \/ exists g, one m it = Ok (Some g) /\ g x = Ok (step name v x)) ->
  (forall name v x, P name v -> I x -> I (step name v x)) -> I zero -> (forall y, record_of step (fld y) zero = out y) -> 0 < size ->
  name_ok ar -> zlen ar <= 20 -> name_ok nm -> zlen nm <= 20 -> zlen ys <= 100000 ->
  Forall (fun y => MenuRun.small (fld y) /\ all_fields P (fld y)) ys ->
  let f := MenuRun.records_fields ar nm (map fld ys) in
  fits f /\ (forall q un l0, ep_pack_data q = doc (enc_fields f) -> read_listing zero one [] size un (Some q) l0 = Ok (shown l0 (map out ys), [])).
Proof.
  intros H1 H2 H3 Ho Hs Ha La Hn Ln Hb Hy f. assert (fits f) as Hf.
  { apply MenuRun.records_fields_fits; try done; [|unfold zlen in *; by rewrite length_map]. apply Forall_map. eapply Forall_impl; [exact Hy|]. by intros y [? _]. }
  split; [done|]. intros q un l0 Hd. destruct Hf as [Hf Hl]. rewrite (listing_spec zero one step P I H1 H2 H3 size un q [] ar nm (map fld ys) l0);
    [|by rewrite app_nil_r|done|unfold f in Hl; lia|done|done|].
  - rewrite map_map. rewrite (map_ext _ out Ho). unfold shown, zlen. rewrite !length_map. by destruct ys.
  - apply Forall_map. eapply Forall_impl; [exact Hy|]. by intros y [[? _] ?].
Qed.

Lemma dish_fields_fields x : dish_ok x -> all_fields dish_field (MenuRun.dish_fields x).
Proof.
  intros (_ & [N1 L1] & [N2 L2] & _). unfold dish_field, has_int, has_str. cbn [MenuRun.dish_fields all_fields].
  split; [left; eauto|]. split; [right; left; eauto|]. split; [do 2 right; left; eauto|]. split; [do 3 right; left; eauto|].
  split; [do 4 right; left; eauto|]. split; [do 5 right; eauto|done].
Qed.

Lemma seat_fields_fields x : seat_ok x -> all_fields seat_field (MenuRun.seat_fields x).
Proof.
  intros (_ & [N1 L1] & [N2 L2]). unfold seat_field, has_int, has_str. cbn [MenuRun.seat_fields all_fields].
  split; [left; eauto|]. split; [right; left; eauto|]. split; [do 2 right; eauto|done].
Qed.

Lemma account_one_fields a : acct_ok a -> all_fields account_field (AccountRun.account_one a).
Proof.
  intros [[X1 X2] _ _ [N1 N2] [C1 C2]]. unfold account_field, has_int, has_str. cbn [AccountRun.account_one all_fields].
  split; [left; eauto|]. split; [right; left; eauto|]. split; [do 2 right; left; eauto|]. split; [do 3 right; eauto|done].
Qed.

Lemma forall_both {X} (P Q R : X -> Prop) l : Forall P l -> Forall Q l -> (forall x, P x -> Q x -> R x) -> Forall R l.
Proof. intros HP HQ H. rewrite List.Forall_forall in *. auto. Qed.

Lemma dishes_shown ys :
  Forall dish_ok ys -> Forall MenuRun.dish_legible ys -> zlen ys <= 100000 ->
  let f := MenuRun.records_fields ResMenu.f_dish ResMenu.f_dish_one (map MenuRun.dish_fields ys) in
  fits f /\ (forall q un l0, ep_pack_data q = doc (enc_fields f) ->
    read_listing (blank_dish 0) dish_element [] ReqMenu.sizeof_dish un (Some q) l0 = Ok (shown l0 (map dish_shown ys), [])).
Proof.
  intros Hok HL Hb. apply (records_shown _ _ dish_step dish_field dish_arrays); try done; try apply dish_element_spec; try apply dish_step_arrays; try AccountSpec.name_lit.
  apply (forall_both _ _ _ _ Hok HL). intros x H1 H2. split; [by apply MenuRun.dish_small|by apply dish_fields_fields].
Qed.

Lemma seats_shown ys :
  Forall seat_ok ys -> Forall MenuRun.seat_legible ys -> zlen ys <= 100000 ->
  let f := MenuRun.records_fields ResMenu.f_seat ResMenu.f_seat_one (map MenuRun.seat_fields ys) in
  fits f /\ (forall q un l0, ep_pack_data q = doc (enc_fields f) ->
    read_listing (blank_seat 0) seat_element [] ReqMenu.sizeof_seat un (Some q) l0 = Ok (shown l0 (map seat_shown ys), [])).
Proof.
  intros Hok HL Hb. apply (records_shown _ _ seat_step seat_field seat_arrays); try done; try apply seat_element_spec; try apply seat_step_arrays; try AccountSpec.name_lit.
  apply (forall_both _ _ _ _ Hok HL). intros x H1 H2. split; [by apply MenuRun.seat_small|by apply seat_fields_fields].
Qed.

Lemma account_small a : acct_ok a -> AccountSpec.legible [a] -> MenuRun.small (AccountRun.account_one a).
Proof.
  intros [[X1 X2] Ht _ [N1 N2] [C1 C2]] HL. apply Forall_cons in HL as [(U0 & U1 & U2) _]. split.
  - split; [AccountSpec.name_lit|]. split; [done|]. split; [AccountSpec.name_lit|]. split; [done|]. split; [AccountSpec.name_lit|]. split; [done|]. split; [AccountSpec.name_lit|]. by split.
  - cbn [AccountRun.account_one enc_fields enc_value type_code]. autorewrite with ymlen. rewrite !zlen_le_bytes.
    change (zlen f_type) with 4. change (zlen f_nick) with 4. change (zlen f_comment) with 7. change (zlen f_uid) with 3. change (zlen (@nil Z)) with 0. lia.
Qed.

Lemma accounts_shown ys :
  Forall acct_ok ys -> AccountSpec.legible ys -> zlen ys <= 100000 ->
  fits (AccountRun.list_fields ys) /\ (forall q un l0, ep_pack_data q = doc (enc_fields (AccountRun.list_fields ys)) ->
    read_listing account_zero account_element [] ReqAccount.sizeof_account un (Some q) l0 = Ok (shown l0 (map account_shown ys), [])).
Proof.
  intros Hok HL Hb. assert (AccountRun.list_fields ys = MenuRun.records_fields ResAccount.f_account ResAccount.f_account_one (map AccountRun.account_one ys)) as ->.
  { unfold AccountRun.list_fields, MenuRun.records_fields, zlen. rewrite length_map.
    assert (AccountRun.account_objects ys = MenuRun.objects ResAccount.f_account_one (map AccountRun.account_one ys)) as -> by (clear; induction ys; cbn; congruence).
    by destruct ys. }
  apply (records_shown _ _ account_step account_field account_arrays); try done; try apply account_element_spec; try apply account_step_arrays; try AccountSpec.name_lit.
  apply (forall_both _ _ _ _ Hok HL). intros x H1 H2. split; [apply account_small; [done|by constructor]|by apply account_one_fields].
Qed.

(** ** Bookings *)

(** A booking as the server holds it: a note of at most 255 characters. *)
Record book_sent (x : book) : Prop := {
  bs_ints : is_i32 (b_book_id x) /\ is_i32 (b_seat_id x) /\ is_i32 (b_dish_id x) /\ is_i32 (b_accept_state x);
  bs_jin : 0 <= b_jin_or_plate x < 2 ^ 64;
  bs_comment : terminated (Menu.b_comment x) /\ zlen (text (Menu.b_comment x)) <= 255 /\ utf8_ok (text (Menu.b_comment x)) = true;
}.

Definition book_fields (x : book) : fields :=
  FCons f_book_id (VInt (b_book_id x)) (FCons f_seat_id (VInt (b_seat_id x)) (FCons f_dish_id (VInt (b_dish_id x))
    (FCons f_jin_or_plate (VDouble (b_jin_or_plate x)) (FCons f_comment (VStr (text (Menu.b_comment x))) (FCons f_accept_state (VInt (b_accept_state x)) FNil))))).

(** What the application makes of it. *)
Definition book_shown (x : book) : book :=
  mk_book 0 (b_seat_id x) (b_accept_state x) (b_jin_or_plate x) (arr 256 (text (Menu.b_comment x))) 0.

Lemma append_books_build ys : forall p,
  Forall book_sent ys -> ResMenu.append_books (length ys) ys p = build_fields p (MenuRun.objects ResMenu.f_book_one (map book_fields ys)).
Proof.
  induction ys as [|x ys IH]; intros p Hok; [done|]. apply Forall_cons in Hok as [[_ _ ([t Ht] & _)] Hok].
  cbn [length map ResMenu.append_books MenuRun.objects build_fields build_value book_fields]. unfold ResAccount.append_cstr, Dbp.Dbp.c_text, text.
  rewrite Ht. cbn [mbind res_bind default from_option id].
  destruct (ep_pack_append_start_object p ResMenu.f_book_one) as [p0|]; [|done]. cbn [mbind res_bind].
  destruct (ep_pack_append_int p0 f_book_id (b_book_id x)) as [p1|]; [|done]. cbn [mbind res_bind].
  destruct (ep_pack_append_int p1 f_seat_id (b_seat_id x)) as [p2|]; [|done]. cbn [mbind res_bind].
  destruct (ep_pack_append_int p2 f_dish_id (b_dish_id x)) as [p3|]; [|done]. cbn [mbind res_bind].
  destruct (ep_pack_append_double p3 f_jin_or_plate (b_jin_or_plate x)) as [p4|]; [|done]. cbn [mbind res_bind].
  destruct (ep_pack_append_string p4 f_comment t) as [p5|]; [|done]. cbn [mbind res_bind].
  destruct (ep_pack_append_int p5 f_accept_state (b_accept_state x)) as [p6|]; [|done]. cbn [mbind res_bind].
  destruct (ep_pack_append_finish_object p6) as [p7|]; [|done]. cbn [mbind res_bind]. by apply IH.
Qed.

Lemma books_shown ys :
  Forall book_sent ys -> zlen ys <= 100000 ->
  let f := MenuRun.records_fields ResMenu.f_book ResMenu.f_book_one (map book_fields ys) in
  fits f /\ (forall q un l0, ep_pack_data q = doc (enc_fields f) ->
    read_listing (blank_book 0) book_element [] ReqMenu.sizeof_book un (Some q) l0 = Ok (shown l0 (map book_shown ys), [])).
Proof.
  intros Hok Hb. apply (records_shown _ _ book_step book_field book_arrays); try done; try apply book_element_spec; try apply book_step_arrays; try AccountSpec.name_lit.
  eapply Forall_impl; [exact Hok|]. intros x [(I1 & I2 & I3 & I4) J ((t & Ht) & Hl & Hu)]. pose proof (text_no_zero (Menu.b_comment x)) as Nz. split; [split|].
  - do 5 (split; [AccountSpec.name_lit|]; split; [done|]). split; [AccountSpec.name_lit|]. by split.
  - cbn [book_fields enc_fields enc_value type_code]. autorewrite with ymlen. rewrite !zlen_le_bytes.
    change (zlen f_book_id) with 7. change (zlen f_seat_id) with 7. change (zlen f_dish_id) with 7. change (zlen f_jin_or_plate) with 12.
    change (zlen f_comment) with 7. change (zlen f_accept_state) with 12. change (zlen (@nil Z)) with 0. lia.
  - unfold book_field, has_int, has_str. cbn [book_fields all_fields]. split; [left; eauto|]. split; [right; left; eauto|]. split; [do 2 right; left; eauto|].
    split; [do 3 right; left; eauto|]. split; [do 4 right; left; eauto|]. split; [do 5 right; eauto|done].
Qed.

(** ** Properties *)

Section properties.
Context `{CL : CodecLaws} `{SL : SqliteLaws} (beyond : list Z) (Hbeyond : 16 <= zlen beyond) (sec usec wait_r : Z).
#[local] Set Default Proof Using "Type*".

(** The application is logged in with an account of one of the types. *)
Definition allowed_as (k : connect) (types : list Z) : Prop :=
  exists cs, k_session k = Some cs /\ existsb (Z.eqb (Accounts.acc_type (cs_account cs))) types = true.

(** A message of category [id] with the fields [f], or without a packet. *)
Definition sent_one (s s' : flight) (id : Z) (f : option fields) : Prop :=
  exists p, fl_sent s' = fl_sent s ++ [(make_param id p, doc ∘ enc_fields <$> f)].

Lemma listed_shown {A} (zero : A) one size un no l0 l q k :
  k_al k = [] -> read_listing zero one [] size un (Some q) l0 = Ok (shown l0 l, []) ->
  ReqMenu.listed zero one size un no l0 (Some (Some q), k) = Ok (shown l0 l, k).
Proof. intros Ha Hr. unfold ReqMenu.listed. rewrite Ha, Hr. cbn [mbind res_bind]. destruct k. cbn in *. by subst. Qed.

Lemma guarded_pass {A} k ok types (bad denied : A) go :
  allowed_as k types -> ok = true -> ReqMenu.guarded (Some k) ok types bad denied go = ('(r, k) ← go k; Ok (r, Some k)).
Proof. intros (cs & E & Ht) ->. unfold ReqMenu.guarded. by rewrite E, Ht. Qed.

#[local] Instance filter_perm {X} (p : X -> bool) : Proper ((≡ₚ) ==> (≡ₚ)) (List.filter p).
Proof.
  induction 1 as [|x l l' _ IH|x y l|l l' l'' _ IH1 _ IH2]; cbn [List.filter]; [done|by destruct (p x); rewrite IH| |by rewrite IH1].
  destruct (p x), (p y); done || apply Permutation_swap.
Qed.

Lemma sent_fields s s' id f : (exists p, fl_sent s' = fl_sent s ++ [(make_param id p, Some (doc (enc_fields f)))]) -> sent_one s s' id (Some f).
Proof. done. Qed.

Lemma natural_int c : natural c -> is_i32 c.
Proof. unfold natural, INT_MAX, is_i32. lia. Qed.

(** C8: The dishes of a category reach the application with the number, the category, the name, the
    summary and the price they have in the database of the server, and without their thumbnails.
    The application sends one message of category [ep_id_dish_fetch] with the category it asks for;
    the handler answers the packet of that message with a packet; and when that packet arrives, the
    application has the result 0, the count, and an array with a record for each dish of the
    category. The thumbnail of each record is empty: the handler never sends it, although the
    application would read it. The connection is as before, with no request pending. *)
Theorem dish_fetch_shown {Rest} {HR : MenuRun.BookFramed Rest} base k ca key s w L d c pack l0 :
  let f := FCons f_category (VInt c) FNil in
  MenuRun.served Rest w L -> d <> -1 -> MenuRun.waiter L d = true -> natural c ->
  Forall MenuRun.dish_legible (MenuRun.l_dish L) -> zlen (MenuRun.l_dish L) <= 100000 ->
  online base k ca key s -> ~ busy base s ep_id_dish_fetch -> allowed_as k [ReqAccount.account_admin; Accounts.account_menu] ->
  ep_pack_data pack = doc (enc_fields f) ->
  exists B r w' g, B ≡ₚ List.filter (fun x => dr_category x =? c) (MenuRun.l_dish L) /\
    ResMenu.res_dish_fetch w d (Some pack) = Ok (Some r, w') /\ MenuRun.served Rest w' L /\ finishes_as r g /\
  forall q, ep_pack_data q = doc (enc_fields g) ->
  exists k' s', ReqMenu.client_dish_fetch beyond (answered ep_id_dish_fetch q) sec usec wait_r (Some k) c true l0 =
      Ok (shown l0 (map dish_shown B), Some k') /\
    online base k' ca key s' /\ fl_pend s' = fl_pend s /\ sent_one s s' ep_id_dish_fetch (Some f).
Proof.
  intros f R Hd Hw Hc HL Hb O Nb Al Dp. pose proof (natural_int c Hc) as Hi. assert (fields_ok f) as Hf by (split; [AccountSpec.name_lit|by split]).
  assert (zlen (enc_fields f) <= 1000) as Hz by (cbn [f enc_fields enc_value type_code]; autorewrite with ymlen; rewrite zlen_le_bytes; by vm_compute).
  assert (all_fields (MenuRun.int_field f_category) f) as Hcat by (split; [intros _; by exists c|done]).
  destruct (MenuRun.fetch_refines w L d (Some pack) f R Hd) as (B & PB & p & w' & Ep & Er & R'); [|done|done|done|by destruct Hc|].
  { split; [exists []; by rewrite app_nil_r|]. split; [done|unfold LIM; lia]. }
  unfold MenuRun.fetch_answer in Ep. rewrite Hw in Ep. change (MenuRun.int_read f_category dish_category_hot f) with c in Ep.
  set (ys := List.filter (fun x => dr_category x =? c) B) in *. assert (Forall dish_ok B) as Hok.
  { destruct R as [_ (db & T & _ & _ & HD & _) _]. rewrite PB. exact (Records.Records.ho_ok _ _ HD). }
  assert (ys ≡ₚ List.filter (fun x => dr_category x =? c) (MenuRun.l_dish L)) as Py by (unfold ys; by rewrite PB).
  assert (zlen ys <= 100000) as Ly.
  { unfold zlen in *. rewrite Py. pose proof (List.filter_length_le (fun x => dr_category x =? c) (MenuRun.l_dish L)). lia. }
  assert (Forall dish_ok ys) as Oy by (by apply Records.Records.filter_forall). assert (Forall MenuRun.dish_legible ys) as Gy by (apply Records.Records.filter_forall; by rewrite PB).
  exists ys, p, w', (MenuRun.records_fields ResMenu.f_dish ResMenu.f_dish_one (map MenuRun.dish_fields ys)).
  do 3 (split; [done|]). split; [apply built_finishes; [by apply dishes_shown|exact Ep]|].
  clear Ep Er. intros q Dq. unfold ReqMenu.client_dish_fetch. rewrite guarded_pass by done.
  destruct (ask_spec beyond Hbeyond sec usec wait_r base k ca key s ep_id_dish_fetch (fun p => ep_pack_append_int p f_category c) f q)
    as (e' & s' & Ea & O' & Hp & Hs); [exact O|unfold is_u16, ep_id_dish_fetch, ep_id_seat_list, ep_id_account_list; lia|exact Nb| |exact Hf|exact Hz|].
  { cbn [build_fields build_value f]. by destruct (ep_pack_append_int fresh f_category c). }
  rewrite Ea. cbn [mbind res_bind]. rewrite (listed_shown _ _ _ _ _ l0 (map dish_shown ys)); [|apply O'|by apply dishes_shown].
  cbn [mbind res_bind]. by exists (set_sock k (Some e')), s'.
Qed.

(** The seats reach the application as they are in the database of the server: the application
    sends one message without a packet, and when the handler's answer arrives it has a record for
    each seat. *)
Theorem seat_list_shown {Rest} {HR : MenuRun.BookFramed Rest} base k ca key s w L d :
  MenuRun.served Rest w L -> d <> -1 -> MenuRun.permission (MenuRun.l_sess L) d [] <> None ->
  Forall MenuRun.seat_legible (MenuRun.l_seat L) -> zlen (MenuRun.l_seat L) <= 100000 ->
  online base k ca key s -> ~ busy base s ep_id_seat_list -> allowed_as k [ReqAccount.account_admin; Accounts.account_menu] ->
  exists B r w' g, B ≡ₚ MenuRun.l_seat L /\
    ResMenu.res_seat_list w d = Ok (Some r, w') /\ MenuRun.served Rest w' L /\ finishes_as r g /\
  forall q, ep_pack_data q = doc (enc_fields g) ->
  exists k' s', ReqMenu.client_seat_list beyond (answered ep_id_seat_list q) sec usec wait_r (Some k) =
      Ok (shown (mk_listing 0 0 None) (map seat_shown B), Some k') /\
    online base k' ca key s' /\ fl_pend s' = fl_pend s /\ sent_one s s' ep_id_seat_list None.
Proof.
  intros R Hd Hw HL Hb O Nb Al. destruct (MenuRun.seat_list_refines w L d R Hd HL Hb) as (B & PB & p & w' & Ep & Er & R').
  unfold MenuRun.seats_answer in Ep. destruct (MenuRun.permission (MenuRun.l_sess L) d []) as [a|]; [|done].
  assert (Forall seat_ok B) as Hok.
  { destruct R as [_ (db & T & _ & _ & _ & HS & _) _]. rewrite PB. exact (Records.Records.ho_ok _ _ HS). }
  assert (Forall MenuRun.seat_legible B) as Gy by by rewrite PB. assert (zlen B <= 100000) as Lb by (unfold zlen in *; by rewrite PB).
  exists B, p, w', (MenuRun.records_fields ResMenu.f_seat ResMenu.f_seat_one (map MenuRun.seat_fields B)).
  do 3 (split; [done|]). split; [apply built_finishes; [by apply seats_shown|exact Ep]|].
  clear Ep Er. intros q Dq. unfold ReqMenu.client_seat_list. rewrite guarded_pass by done.
  destruct (exchange_none beyond Hbeyond sec usec wait_r base k ca key s ep_id_seat_list q) as (e' & s' & Ea & O' & Hp & Hs); [exact O|unfold is_u16, ep_id_dish_fetch, ep_id_seat_list, ep_id_account_list; lia|exact Nb|].
  rewrite Ea. cbn [mbind res_bind]. rewrite (listed_shown _ _ _ _ _ _ (map seat_shown B)); [|apply O'|by apply seats_shown].
  cbn [mbind res_bind]. exists (set_sock k (Some e')), s'. split; [done|]. split; [done|]. split; [done|]. by exists None.
Qed.

(** The accounts reach an administrator as they are in the database of the server, without their
    passwords. *)
Theorem account_list_shown {Rest} {HR : Accounts.Framed Rest} base k ca key s w T A d :
  AccountSpec.ready Rest w T A -> d <> -1 -> (exists u, List.find (Session.Session.by_fd d) T = Some u /\ Session.Session.a_type u = ReqAccount.account_admin) ->
  AccountSpec.legible A -> zlen A <= 100000 ->
  online base k ca key s -> ~ busy base s ep_id_account_list -> allowed_as k [ReqAccount.account_admin] ->
  exists B r w', B ≡ₚ A /\
    ResAccount.res_account_list w d = Ok (Some r, w') /\ AccountSpec.ready Rest w' T A /\ finishes_as r (AccountRun.list_fields B) /\
  forall q, ep_pack_data q = doc (enc_fields (AccountRun.list_fields B)) ->
  exists k' s', ReqAccount.client_account_list beyond (answered ep_id_account_list q) sec usec wait_r (Some k) =
      Ok (shown (mk_listing 0 0 None) (map account_shown B), Some k') /\
    online base k' ca key s' /\ fl_pend s' = fl_pend s /\ sent_one s s' ep_id_account_list None.
Proof.
  intros R Hd (u & Fu & Tu) HL Hb O Nb (cs & Ec & Tc). destruct (AccountRun.list_refines w T A d R Hd HL Hb) as (B & PB & p & w' & Ep & Er & R').
  unfold AccountRun.list_answer in Ep. rewrite Fu, Tu in Ep. cbn [Z.eqb ReqAccount.account_admin] in Ep.
  change (ReqAccount.account_admin =? Accounts.account_admin) with true in Ep. cbv iota in Ep.
  assert (Forall acct_ok B) as Hok by (rewrite PB; destruct R as [_ (db & Tb & _ & _ & HA) _]; apply HA).
  assert (AccountSpec.legible B) as Gy by (by apply (AccountRun.legible_perm A)). assert (zlen B <= 100000) as Lb by (unfold zlen in *; by rewrite PB).
  exists B, p, w'. do 3 (split; [done|]). split; [apply built_finishes; [by apply accounts_shown|exact Ep]|].
  clear Ep Er. intros q Dq. unfold ReqAccount.client_account_list. rewrite Ec. cbn [existsb orb] in Tc. rewrite orb_false_r in Tc. rewrite Tc. cbn [negb].
  destruct (exchange_none beyond Hbeyond sec usec wait_r base k ca key s ep_id_account_list q) as (e' & s' & Ea & O' & Hp & Hs); [exact O|unfold is_u16, ep_id_dish_fetch, ep_id_seat_list, ep_id_account_list; lia|exact Nb|].
  rewrite Ea. cbn [mbind res_bind]. rewrite (on_al _ _ _ _ _ O'). rewrite (proj2 (accounts_shown B Hok Gy Lb) q) by done. cbn [mbind res_bind].
  exists (set_sock k (Some e')), s'. split; [|split; [done|split; [done|by exists None]]]. do 3 f_equal. destruct O' as [_ Al]. unfold set_kal, set_sock in *. cbn in *. by rewrite Al.
Qed.

(** The bookings of a seat reach the application with the wrong dish. The loop of the server
    writes them with their dish and their state; what the application makes of the packet has the
    state of each booking in the place of its dish, the state 0 and the id 0. *)
Theorem dish_list_mistakes_state base k ca key s seat ys q :
  Forall book_sent ys -> zlen ys <= 100000 -> online base k ca key s -> ~ busy base s ep_id_dish_list ->
  allowed_as k [ReqAccount.account_admin; Accounts.account_menu] -> natural seat ->
  ep_pack_data q = doc (enc_fields (MenuRun.records_fields ResMenu.f_book ResMenu.f_book_one (map book_fields ys))) ->
  (forall p, ResMenu.append_books (length ys) ys p = build_fields p (MenuRun.objects ResMenu.f_book_one (map book_fields ys))) /\
  exists k' s', ReqMenu.client_dish_list beyond (answered ep_id_dish_list q) sec usec wait_r (Some k) seat =
      Ok (shown (mk_listing 0 0 None) (map book_shown ys), Some k') /\
    online base k' ca key s' /\ fl_pend s' = fl_pend s /\
    map (fun b => (b_book_id b, b_dish_id b, b_accept_state b)) (map book_shown ys) = map (fun x => (0, b_accept_state x, 0)) ys.
Proof.
  intros Hok Hb O Nb Al Hn Dq. split; [intros p; by apply append_books_build|].
  pose proof (natural_int seat Hn) as Hi. set (f := FCons f_seat_id (VInt seat) FNil). assert (fields_ok f) as Hf by (split; [AccountSpec.name_lit|by split]).
  assert (zlen (enc_fields f) <= 1000) as Hz by (cbn [f enc_fields enc_value type_code]; autorewrite with ymlen; rewrite zlen_le_bytes; by vm_compute).
  unfold ReqMenu.client_dish_list. rewrite guarded_pass; [|done|unfold natural in Hn; by rewrite (proj2 (Z.ltb_ge seat 0)) by lia].
  destruct (ask_spec beyond Hbeyond sec usec wait_r base k ca key s ep_id_dish_list (fun p => ep_pack_append_int p f_seat_id seat) f q)
    as (e' & s' & Ea & O' & Hp & Hs); [exact O|unfold is_u16, ep_id_dish_list; lia|exact Nb| |exact Hf|exact Hz|].
  { cbn [build_fields build_value f]. by destruct (ep_pack_append_int fresh f_seat_id seat). }
  rewrite Ea. cbn [mbind res_bind]. rewrite (listed_shown _ _ _ _ _ _ (map book_shown ys)); [|apply O'|by apply books_shown].
  cbn [mbind res_bind]. exists (set_sock k (Some e')), s'. split; [done|]. split; [done|]. split; [done|]. by rewrite map_map.
Qed.
End properties.

(** ** A waiter and an administrator of the server of [MenuRun] and [AccountRun] *)

Section demo.
Import Sql.SqlToy.

Definition app_client : client := mk_client 5 4194304 (cl_io demo_client) true [].
Definition app_session (ty : Z) : client_session := mk_client_session 0 (ReqAccount.set_type account_zero ty) (zeros 39).
Definition app_connect (cs : option client_session) : connect := mk_connect cs (Some (mk_ep_client app_client true true true 1 [])) 0 [].

Lemma app_online `{C : Codec} cs : online ∅ (app_connect cs) 0 demo_key (mk_flight 0 ∅ [] []).
Proof.
  split; [|done]. eexists. split; [done|]. split; [|cbn; lia]. destruct (demo_in_flight (C := C)) as [H1 H2 H3 H4 _]. by split.
Qed.

Lemma app_idle id : ~ busy ∅ (mk_flight 0 ∅ [] []) id.
Proof. intros [H|(a & x & Hx & _)]; [by apply not_elem_of_empty in H|]. cbn in Hx. by rewrite lookup_empty in Hx. Qed.

Definition packet_with (f : fields) : ep_pack := mk_pack (mk_bson (doc (enc_fields f)) 0 true 0 [] 0).

Lemma dish_fetch_shown_witness :
  exists w w' r g x, ResMenu.res_dish_fetch w 5 (Some (packet_with (FCons f_category (VInt 0) FNil))) = Ok (Some r, w') /\ finishes_as r g /\
  forall q, ep_pack_data q = doc (enc_fields g) ->
  exists k', ReqMenu.client_dish_fetch (C := toy_codec) (junk 16) (answered ep_id_dish_fetch q) 0 0 0 (Some (app_connect (Some (app_session Accounts.account_menu)))) 0 true
    (mk_listing 9 7 None) = Ok (mk_listing 0 1 (Some [dish_shown x]), Some k').
Proof.
  destruct (MenuRun.demo_served Accounts.account_menu) as (w & c & R).
  destruct (dish_fetch_shown (CL := Buffer.toy_laws) (SL := Sql.SqlToy.toy_laws) (junk 16) ltac:(by vm_compute) 0 0 0 (HR := MenuRun.no_rest_framed) ∅
    (app_connect (Some (app_session Accounts.account_menu))) 0 demo_key (mk_flight 0 ∅ [] []) w _ 5 0 (packet_with (FCons f_category (VInt 0) FNil)) (mk_listing 9 7 None) R)
    as (B & r & w' & g & PB & E & _ & Fr & Hq); [done|done|done|apply MenuRun.demo_presentable|done|apply app_online|apply app_idle|by eexists|done|].
  assert (B = [MenuSpec.dish_rec_of MenuRun.demo_dish c]) as -> by (by apply Permutation_singleton_r in PB).
  exists w, w', r, g, (MenuSpec.dish_rec_of MenuRun.demo_dish c). split; [exact E|]. split; [exact Fr|]. intros q Dq.
  destruct (Hq q Dq) as (k' & s' & Hk & _). exists k'. exact Hk.
Defined.

Lemma seat_list_shown_witness :
  exists w w' r g, ResMenu.res_seat_list w 5 = Ok (Some r, w') /\ finishes_as r g /\
  forall q, ep_pack_data q = doc (enc_fields g) ->
  exists k', ReqMenu.client_seat_list (C := toy_codec) (junk 16) (answered ep_id_seat_list q) 0 0 0 (Some (app_connect (Some (app_session Accounts.account_menu)))) =
    Ok (mk_listing 0 1 (Some [seat_shown (MenuSpec.seat_rec_of MenuRun.demo_seat)]), Some k').
Proof.
  destruct (MenuRun.demo_served Accounts.account_menu) as (w & c & R).
  destruct (seat_list_shown (CL := Buffer.toy_laws) (SL := Sql.SqlToy.toy_laws) (junk 16) ltac:(by vm_compute) 0 0 0 (HR := MenuRun.no_rest_framed) ∅
    (app_connect (Some (app_session Accounts.account_menu))) 0 demo_key (mk_flight 0 ∅ [] []) w _ 5 R)
    as (B & r & w' & g & PB & E & _ & Fr & Hq); [done|done|apply MenuRun.demo_presentable|done|apply app_online|apply app_idle|by eexists|].
  apply Permutation_singleton_r in PB as ->. exists w, w', r, g. split; [exact E|]. split; [exact Fr|]. intros q Dq.
  destruct (Hq q Dq) as (k' & s' & Hk & _). exists k'. exact Hk.
Defined.

Lemma account_list_shown_witness :
  exists w w' r, ResAccount.res_account_list w 5 = Ok (Some r, w') /\ finishes_as r (AccountRun.list_fields [Accounts.acct_of AccountRun.demo_admin]) /\
  forall q, ep_pack_data q = doc (enc_fields (AccountRun.list_fields [Accounts.acct_of AccountRun.demo_admin])) ->
  exists k', ReqAccount.client_account_list (C := toy_codec) (junk 16) (answered ep_id_account_list q) 0 0 0 (Some (app_connect (Some (app_session ReqAccount.account_admin)))) =
    Ok (mk_listing 0 1 (Some [account_shown (Accounts.acct_of AccountRun.demo_admin)]), Some k').
Proof.
  destruct (AccountRun.demo_connected AccountRun.demo_admin ReqAccount.account_admin AccountRun.demo_admin_storable) as [w R].
  destruct (account_list_shown (CL := Buffer.toy_laws) (SL := Sql.SqlToy.toy_laws) (junk 16) ltac:(by vm_compute) 0 0 0 (HR := Accounts.framed_any) ∅
    (app_connect (Some (app_session ReqAccount.account_admin))) 0 demo_key (mk_flight 0 ∅ [] []) w _ _ 5 R)
    as (B & r & w' & PB & E & _ & Fr & Hq); [done|by eexists| |done|apply app_online|apply app_idle|by eexists|].
  { apply Forall_singleton. by vm_compute. }
  apply Permutation_singleton_r in PB as ->. exists w, w', r. split; [exact E|]. split; [exact Fr|]. intros q Dq.
  destruct (Hq q Dq) as (k' & s' & Hk & _). exists k'. exact Hk.
Defined.

Definition one_book : book := mk_book 3 4 8 4611686018427387904 (arr 256 [104; 105]) 1.

Lemma dish_list_mistakes_state_witness :
  exists q k', ReqMenu.client_dish_list (C := toy_codec) (junk 16) (answered ep_id_dish_list q) 0 0 0 (Some (app_connect (Some (app_session Accounts.account_menu)))) 4 =
    Ok (mk_listing 0 1 (Some [mk_book 0 4 1 4611686018427387904 (arr 256 [104; 105]) 0]), Some k').
Proof.
  exists (packet_with (MenuRun.records_fields ResMenu.f_book ResMenu.f_book_one (map book_fields [one_book]))).
  destruct (dish_list_mistakes_state (CL := Buffer.toy_laws) (junk 16) ltac:(by vm_compute) 0 0 0 ∅
    (app_connect (Some (app_session Accounts.account_menu))) 0 demo_key (mk_flight 0 ∅ [] []) 4 [one_book]
    (packet_with (MenuRun.records_fields ResMenu.f_book ResMenu.f_book_one (map book_fields [one_book])))) as (_ & k' & s' & E & _).
  - apply Forall_singleton. split; [by vm_compute|by vm_compute|]. split; [|by vm_compute]. by exists [104; 105].
  - done.
  - apply app_online.
  - apply app_idle.
  - by eexists.
  - done.
  - done.
  - exists k'. exact E.
Defined.

End demo.
End ReqSpec.
