(* ===== verification/ReqLogin.v ===== *)
(** * ReqLogin: a login of the application against the server

    [client_account_login] ([ReqAccount]) against [res_account_login] ([ResAccount]): the session the
    application keeps is the one the server opened. *)
From Stdlib Require Import String.
From S2P Require Import Prelude Alloc Queue Cstr Words Bson Packet PackLoop Buffer Dispatch Io Session Request Client Rpc Sha Fmt Sql Dbp Accounts Guid ResAccount.
From S2P Require Import AccountSpec Server Connect ReqAccount ReqSpec.
From stdpp Require Import gmap.
Import Alloc Queue Cstr Words Bson Packet PackLoop Buffer Request Client Connect.
Import Rpc(finishes_as, built_finishes).
Import Sql(Sqlite, SqliteLaws, no_quote).
Import Sha.Pwd(pwd_hash).
Import Server(ep_id_account_login).
Import Accounts(account, mk_account, acct, acct_ok, ac_type, ac_uid, ac_nick, ac_comment, ac_hash, find_acct, acc_uid, acc_nick, acc_comment).
Import ResAccount ReqAccount ReqSpec.
Open Scope Z_scope.

Module ReqLogin.

(** ** Reading the answer *)

Definition session_step (n : list Z) (v : value) (s : client_session) : client_session :=
  let a := cs_account s in
  at_name f_result n (int_to v set_result s) (at_name f_type n (int_to v (fun s z => set_account s (set_type a z)) s)
    (at_name f_nick n (str_to v (fun t => set_account s (set_nick a (arr 65 t))) s) (at_name f_comment n (str_to v (fun t => set_account s (set_comment a (arr 257 t))) s)
      (at_name f_token n (str_to v (fun t => set_token s (arr 39 t)) s) s)))).

Definition session_field (n : list Z) (v : value) : Prop :=
  has_int f_result n v \/ has_int f_type n v \/ has_str f_nick 64 n v \/ has_str f_comment 256 n v \/ has_str f_token 38 n v.

Definition session_arrays (s : client_session) : Prop :=
  length (acc_nick (cs_account s)) = 65%nat /\ length (acc_comment (cs_account s)) = 257%nat /\ length (cs_token s) = 39%nat.

Fixpoint session_of (f : fields) (s : client_session) : client_session :=
  match f with FNil => s | FCons n v f => session_of f (session_step n v s) end.

Lemma session_element m it n v s :
  at_field m it n v -> session_field n v -> session_arrays s -> login_elements false true m it s = Ok (Next (session_step n v s)).
Proof.
  intros Ha Hf (L1 & L2 & L3). unfold login_elements, session_step. rewrite (field_type _ _ _ _ Ha), (field_key _ _ _ _ Ha). cbn [mbind res_bind andb]. unfold at_name.
  destruct Hf as [(-> & z & ->)|[(-> & z & ->)|[(-> & t & -> & Ht & Hl)|[(-> & t & -> & Ht & Hl)|(-> & t & -> & Ht & Hl)]]]]; cbn [int_to str_to];
    repeat (case_decide; try done); rewrite ?(field_int _ _ _ _ Ha); try done.
  - by rewrite (copy_string_spec _ _ _ _ _ 65 Ha) by (done || lia).
  - by rewrite (copy_string_spec _ _ _ _ _ 257 Ha) by (done || lia).
  - rewrite bool_decide_true by done. by rewrite (copy_string_spec _ _ _ _ _ 39 Ha) by (done || lia).
Qed.

Lemma session_step_arrays n v s : session_field n v -> session_arrays s -> session_arrays (session_step n v s).
Proof.
  intros Hf (L1 & L2 & L3). unfold session_step, at_name, session_arrays.
  destruct Hf as [(-> & z & ->)|[(-> & z & ->)|[(-> & t & -> & Ht & Hl)|[(-> & t & -> & Ht & Hl)|(-> & t & -> & Ht & Hl)]]]]; unfold zlen in *; cbn [int_to str_to];
    repeat (case_decide; try done); cbn [cs_account cs_token acc_nick acc_comment set_account set_token set_nick set_comment set_type set_result]; rewrite ?ResAccount.arr_len by lia; done.
Qed.

Lemma read_login_spec q f s :
  ep_pack_data q = doc (enc_fields f) -> fits f -> all_fields session_field f -> session_arrays s ->
  read_login false true (Some q) s = Ok (session_of f (set_result s account_r_illegal_parameter)).
Proof.
  intros Hd [Hf Hl] HP Hs. unfold read_login.
  rewrite (pack_for_fields q f [] _ (fun n v s => Next (session_step n v s) : turn client_session unit) session_field session_arrays);
    [|by rewrite app_nil_r|done|done|lia|done|intros; by apply session_element|intros n v s1 s2 H1 H2 E; injection E as <-; by apply session_step_arrays].
  cbn [mbind res_bind]. f_equal. generalize (set_result s account_r_illegal_parameter). clear Hd Hf Hl HP. induction f as [|n v f IH]; intros s1; [done|]. apply IH.
Qed.

(** ** The request *)

Definition login_fields (u pw : list Z) (n : Z) : fields := FCons f_uid (VStr u) (FCons f_pwd (VStr pw) (FCons f_token_expire (VInt n) FNil)).

(** A name and a password of at most sixteen characters. *)
Record credentials (u pw : list Z) (n : Z) : Prop := {
  cr_uid : name_ok u /\ no_quote u /\ u <> [] /\ zlen u <= 16;
  cr_pwd : name_ok pw /\ Forall is_byte pw /\ pw <> [] /\ zlen pw <= 16;
  cr_expire : 0 <= n <= 24855;
}.

Definition login_asked (u pw : list Z) (n : Z) : login_args := mk_login (arr 17 (map tolower u)) (arr 17 pw) (replicate 39 0) n.

Lemma login_fields_ok u pw n : credentials u pw n -> fields_ok (login_fields u pw n) /\ zlen (enc_fields (login_fields u pw n)) <= 1000 /\
  all_fields login_field (login_fields u pw n) /\ login_read (login_fields u pw n) = login_asked u pw n.
Proof.
  intros [((U1 & U2) & U3 & _ & U4) ((P1 & P2) & P3 & _ & P4) Hn]. split; [|split; [|split]].
  - split; [AccountSpec.name_lit|]. split; [done|]. split; [AccountSpec.name_lit|]. split; [done|]. split; [AccountSpec.name_lit|]. split; [cbn; unfold is_i32; lia|done].
  - cbn [login_fields enc_fields enc_value type_code]. autorewrite with ymlen. rewrite !zlen_le_bytes.
    change (zlen f_uid) with 3. change (zlen f_pwd) with 3. change (zlen f_token_expire) with 12. change (zlen (@nil Z)) with 0. lia.
  - unfold login_fields, login_field, str_fit. cbn [all_fields]. split; [split; [intros _; by exists u|done]|].
    split; [split; [done|split; [intros _; by exists pw|done]]|]. split; [|done]. do 3 (split; [done|]). intros _. exists n. split; [done|lia].
  - reflexivity.
Qed.

(** What the application is told, and whether it keeps the session. *)
Definition login_shown (T : list Session.session) (A : list acct) (e : env) (d : Z) (u pw : list Z) (n : Z) : client_session * bool :=
  let bad r := mk_client_session r (mk_account 0 (arr 17 u) (zeros 129) (zeros 65) (zeros 257)) (zeros 39) in
  match find_acct A (map tolower u) with
  | None => (bad account_r_login_user_not_exist, false)
  | Some x =>
      if bool_decide (ac_hash x = pwd_hash pw) then
        (mk_client_session (login_result (clash T (arr 17 (map tolower u)) d))
           (mk_account (ac_type x) (arr 17 u) (zeros 129) (arr 65 (ac_nick x)) (arr 257 (ac_comment x)))
           (if 0 <? n then arr 39 (Guid.Guid.guid_text (e_uuid e)) else zeros 39), true)
      else (bad account_r_login_invalid_user_or_pwd, false)
  end.

Definition keeps (r : Z) : bool := (r =? account_r_ok) || (r =? account_r_login_ok_conlict_another_address).

Lemma answer_shown T A e d u pw n :
  credentials u pw n -> AccountSpec.env_ok e -> Forall acct_ok A -> AccountSpec.legible A ->
  let g := (AccountSpec.login_spec T A e d (login_asked u pw n)).1 in
  let s := session_of g (set_result session_zero account_r_illegal_parameter) in
  fits g /\ all_fields session_field g /\
  (set_account s (set_uid (cs_account s) (arr 17 u)), keeps (cs_result s)) = login_shown T A e d u pw n.
Proof.
  intros [((U1 & U2) & U3 & U5 & U4) ((P1 & P2) & P3 & P5 & P4) Hn] He Hok HL. unfold AccountSpec.login_spec, login_shown, login_asked. cbn [l_uid l_pwd l_token].
  assert (no_zero (map tolower u)) as Lz by (by apply lower_no_zero).
  assert (forall x : list Z, zlen x <= 16 -> (length x < 17)%nat) as S17 by (unfold zlen; lia).
  destruct (arr_text 17 (map tolower u)) as [-> _]; [done|rewrite length_map; auto|]. destruct (arr_text 17 pw) as [Epw _]; [done|auto|]. rewrite Epw.
  rewrite !bool_decide_eq_false_2 by (try done; by destruct u). cbn [negb andb]. unfold AccountSpec.pwd_login_spec. cbn [l_uid l_pwd l_expire].
  destruct (arr_text 17 (map tolower u)) as [-> _]; [done|rewrite length_map; auto|]. rewrite Epw.
  assert (forall r, is_i32 r -> fits (AccountSpec.result_is r) /\ all_fields session_field (AccountSpec.result_is r)) as Hr.
  { intros r Hi. split; [|split; [left; unfold has_int; by eauto|done]]. split; [split; [AccountSpec.name_lit|by split]|]. cbn [AccountSpec.result_is enc_fields enc_value type_code].
    autorewrite with ymlen. rewrite zlen_le_bytes. change (zlen f_result) with 6. change (zlen (@nil Z)) with 0. unfold LIM. lia. }
  destruct (find_acct A (map tolower u)) as [x|] eqn:Ex; cbn [fst]; [|split; [by apply Hr|split; [by apply Hr|reflexivity]]].
  destruct (bool_decide (ac_hash x = pwd_hash pw)); cbn [fst]; [|split; [by apply Hr|split; [by apply Hr|reflexivity]]].
  apply List.find_some in Ex as [Ix _]. rewrite List.Forall_forall in Hok. unfold AccountSpec.legible in HL. rewrite List.Forall_forall in HL.
  destruct (HL x Ix) as (_ & Nx & Cx). pose proof (Hok x Ix) as Hx. set (c := clash T (arr 17 (map tolower u)) d).
  assert (is_i32 (login_result c)) as Hc by (unfold login_result; by destruct (c =? 0)).
  destruct (AccountSpec.account_fields_fit x c Hx Nx Cx Hc) as [Ff Fl]. destruct Hx as [_ _ _ [N1 N2] [C1 C2]].
  assert (all_fields session_field (AccountSpec.account_fields x c)) as Hs.
  { unfold session_field, has_int, has_str. split; [right; left; by eauto|]. split; [right; right; left; by eauto|]. split; [do 3 right; left; by eauto|]. split; [left; by eauto|done]. }
  assert (keeps (login_result c) = true) as Hk by (unfold login_result; by destruct (c =? 0)).
  destruct (0 <? n); cbn [fst].
  - split; [by apply AccountSpec.token_first_fits|]. split; [split; [|done]|].
    + do 4 right. split; [done|]. eexists. split; [reflexivity|]. pose proof (Guid.Guid.guid_len _ (AccountSpec.eo_uuid e He)). split; [|lia].
      eapply Forall_impl; [apply Guid.Guid.guid_chars|]. unfold Guid.Guid.token_char. lia.
    + rewrite <- Hk. reflexivity.
  - split; [done|]. split; [done|]. rewrite <- Hk. reflexivity.
Qed.

Lemma valid_name u : nul_free u -> u <> [] -> zlen u <= 16 -> valid_string 16 (u ++ [0]) = Ok true.
Proof.
  intros H1 H2 H3. assert (text (u ++ [0]) = u) as E by (by apply text_app).
  rewrite AccountSpec.valid_string_text; rewrite ?E; [by rewrite bool_decide_eq_false_2|by apply terminated_app|done].
Qed.

Lemma session_of_rest f : forall s, acc_uid (cs_account (session_of f s)) = acc_uid (cs_account s) /\ Accounts.acc_pwd (cs_account (session_of f s)) = Accounts.acc_pwd (cs_account s).
Proof.
  induction f as [|n v f IH]; intros s; [done|]. cbn [session_of]. destruct (IH (session_step n v s)) as [-> ->].
  unfold session_step, at_name. repeat case_decide; destruct v; done.
Qed.

Section login.
Context `{CL : CodecLaws} `{SL : SqliteLaws} (beyond : list Z) (Hbeyond : 16 <= zlen beyond) (sec usec wait_r : Z).
#[local] Set Default Proof Using "Type*".

(** The packet of the request. *)
Lemma login_build u pw n : credentials u pw n ->
  (p ← append_ptr fresh f_uid (Some (u ++ [0])); p ← append_ptr p f_pwd (Some (pw ++ [0])); ep_pack_append_int p f_token_expire n) =
  build_fields fresh (login_fields u pw n).
Proof.
  intros [((U1 & _) & _) ((P1 & _) & _) _]. unfold append_ptr, append_cstr, Dbp.Dbp.c_text. rewrite !cstr_app by done. cbn [mbind res_bind login_fields build_fields build_value].
  destruct (ep_pack_append_string fresh f_uid u) as [p1|]; [|done]. cbn [mbind res_bind].
  destruct (ep_pack_append_string p1 f_pwd pw) as [p2|]; [|done]. cbn [mbind res_bind]. by destruct (ep_pack_append_int p2 f_token_expire n).
Qed.

(** C6: A login opens the same session on both sides. The application sends one message with the name,
    the password and the days of the token; the handler of the server answers its packet, and when
    the answer arrives the application has the result the server chose: success or the conflict, with
    the account of the server's database (its type, nick and note; not its password) and the fresh
    token of the server when days were asked for, and then the connection keeps the session; or the
    refusal, and then it keeps none. *)
Theorem account_login_shown {Rest} {HR : Accounts.Framed Rest} base k ca key s w T A e d u pw n pack cs :
  let f := login_fields u pw n in let a := login_asked u pw n in
  AccountSpec.ready Rest w T A -> AccountSpec.env_ok e -> d <> -1 -> AccountSpec.legible A -> AccountSpec.sess_plain T ->
  credentials u pw n -> online base k ca key s -> ~ busy base s ep_id_account_login -> k_session k = None ->
  ep_pack_data pack = doc (enc_fields f) ->
  exists r w' g, res_account_login w e d (Some pack) = Ok (Some r, w') /\
    AccountSpec.ready Rest w' (AccountSpec.login_spec T A e d a).2 A /\ finishes_as r g /\
  forall q, ep_pack_data q = doc (enc_fields g) ->
  exists k' s', client_account_login beyond (answered ep_id_account_login q) sec usec wait_r (Some k) (Some (u ++ [0])) (Some (pw ++ [0])) n cs =
      Ok ((login_shown T A e d u pw n).1, Some k') /\
    k_session k' = (if (login_shown T A e d u pw n).2 then Some (login_shown T A e d u pw n).1 else None) /\
    online base k' ca key s' /\ fl_pend s' = fl_pend s /\ sent_one s s' ep_id_account_login (Some f).
Proof.
  intros f a R He Hd HL HP Hc O Nb Hk Dp. destruct (login_fields_ok u pw n Hc) as (Hf & Hz & Hlf & Er). fold f in Hf, Hz, Hlf, Er. fold a in Er.
  destruct (AccountSpec.login_refines w T A e d (Some pack) f R He Hd) as (p & w' & Ep & Ew & R'); [|done|done|done|].
  { split; [exists []; by rewrite app_nil_r|]. split; [done|unfold LIM; lia]. }
  rewrite Er in Ep, R'. assert (Forall acct_ok A) as Hok by (destruct R as [_ (db & Tb & _ & _ & HA) _]; apply HA).
  destruct (answer_shown T A e d u pw n Hc He Hok HL) as (Fg & Sg & Eg). fold a in Fg, Sg, Eg. set (g := (AccountSpec.login_spec T A e d a).1) in *.
  exists p, w', g. split; [exact Ew|]. split; [exact R'|]. split; [by apply built_finishes|]. clear Ep Ew R' p w'.
  intros q Dq. pose proof Hc as [((U1 & U2) & U3 & U5 & U4) ((P1 & P2) & P3 & P5 & P4) Hn]. unfold client_account_login, when_set, and_then, valid_uid, valid_pwd.
  rewrite !valid_name by done. cbn [mbind res_bind]. rewrite (proj2 (Z.ltb_ge n 0)) by lia. cbn [negb]. rewrite Hk.
  destruct (ask_spec beyond Hbeyond sec usec wait_r base k ca key s ep_id_account_login
    (fun p => p ← append_ptr p f_uid (Some (u ++ [0])); p ← append_ptr p f_pwd (Some (pw ++ [0])); ep_pack_append_int p f_token_expire n) f q)
    as (e' & s' & Ea & O' & Hp & Hs); [exact O|unfold is_u16, ep_id_account_login; lia|exact Nb|by apply login_build|exact Hf|exact Hz|].
  rewrite Ea. cbn [mbind res_bind]. rewrite (read_login_spec q g session_zero Dq Fg Sg) by done. cbn [mbind res_bind].
  set (s1 := session_of g _) in *. cbn [default from_option id]. destruct (session_of_rest g (set_result session_zero account_r_illegal_parameter)) as [Eu Epw].
  fold s1 in Eu, Epw. rewrite Eu. change (acc_uid (cs_account (set_result session_zero account_r_illegal_parameter))) with (replicate 17 0).
  assert (text (u ++ [0]) = u) as Etu by (by apply text_app).
  rewrite strcpy_ok; rewrite ?Etu; [|by apply terminated_app|change (zlen (replicate 17 0)) with 17; lia]. cbn [mbind res_bind].
  change (u ++ 0 :: zdrop (zlen u + 1) (replicate 17 0)) with (over u (replicate 17 0)). rewrite over_zeros by (unfold zlen in *; lia).
  assert (clear_pwd (set_uid (cs_account s1) (arr 17 u)) = Ok (set_uid (cs_account s1) (arr 17 u))) as ->.
  { unfold clear_pwd, set_uid. cbn [Accounts.acc_pwd]. rewrite Epw. reflexivity. }
  cbn [mbind res_bind]. rewrite <- Eg. cbn [fst snd]. unfold keep_session. change (cs_result (set_account s1 (set_uid (cs_account s1) (arr 17 u)))) with (cs_result s1).
  fold (keeps (cs_result s1)). destruct (keeps (cs_result s1)).
  - rewrite (on_al _ _ _ _ _ O'). rewrite ep_malloc_plenty by (unfold sizeof_client_session; lia). cbn [negb mbind res_bind].
    eexists _, s'. split; [reflexivity|]. split; [reflexivity|]. split; [|split; [exact Hp|exact Hs]].
    destruct O' as [Os _]. split; [exact Os|reflexivity].
  - exists (set_sock k (Some e')), s'. split; [reflexivity|]. split; [exact Hk|]. split; [exact O'|]. split; [exact Hp|exact Hs].
Qed.
End login.

Section demo.
Import Sql.SqlToy.

Definition bob : list Z := Eval vm_compute in Fmt.Fmt.lit "Bob".
Definition secret : list Z := Eval vm_compute in Fmt.Fmt.lit "secret".

Lemma demo_credentials : credentials bob secret 30.
Proof. split; [| |lia]; (split; [AccountSpec.name_lit|]); (split; [by Accounts.decide_now|]); done. Qed.

Lemma account_login_shown_witness :
  exists w w' r g, res_account_login w AccountSpec.demo_env 5 (Some (packet_with (login_fields bob secret 30))) = Ok (Some r, w') /\ finishes_as r g /\
  forall q, ep_pack_data q = doc (enc_fields g) ->
  exists k' s, client_account_login (C := toy_codec) (junk 16) (answered ep_id_account_login q) 0 0 0 (Some (app_connect None)) (Some (bob ++ [0])) (Some (secret ++ [0])) 30
      session_zero = Ok (s, Some k') /\ k_session k' = Some s /\ cs_result s = account_r_ok.
Proof.
  destruct AccountSpec.demo_world as [w R].
  destruct (account_login_shown (CL := Buffer.toy_laws) (SL := Sql.SqlToy.toy_laws) (junk 16) ltac:(by vm_compute) 0 0 0 (HR := Accounts.framed_any) ∅
    (app_connect None) 0 demo_key (mk_flight 0 ∅ [] []) w _ _ AccountSpec.demo_env 5 bob secret 30 (packet_with (login_fields bob secret 30)) session_zero R)
    as (r & w' & g & E & _ & Fr & Hq).
  - apply AccountSpec.demo_env_ok.
  - done.
  - apply AccountSpec.demo_legible.
  - constructor.
  - exact demo_credentials.
  - apply app_online.
  - apply app_idle.
  - done.
  - done.
  - exists w, w', r, g. split; [exact E|]. split; [exact Fr|]. intros q Dq. destruct (Hq q Dq) as (k' & s' & Hk & Hs & _).
    eexists k', _. split; [exact Hk|]. split; [rewrite Hs|]; by vm_compute.
Defined.

End demo.
End ReqLogin.
